(* ===== verification/_CoqProject ===== *)
-Q . S2P
Prelude.v
JsSort.v
JsString.v
JsMap.v
Json.v
Policy.v
AlterState.v
AlterChat.v
GroupSettings.v
FriendSettings.v
AgentRegistry.v
AgentSessions.v
Drafts.v
Settings.v
GroupContract.v
Memory.v
MemoryExtract.v
PageState.v
PageStore.v
Timeline.v
InboxState.v
Network.v
FakeNetwork.v
Sessions.v
SessionFace.v
ApiRequest.v
Persona.v
Tools.v
PayTools.v
Scenarios.v
JsonRpc.v
SoulnetWire.v
SoulnetClient.v
SoulnetCalls.v
Upgrade.v
ClientStores.v
Paygate.v
ApiRoutes.v
ApiScenarios.v
ClientApi.v
ClientViews.v
Commands.v
Workspaces.v
Startup.v
JoinDialog.v
HostPlugin.v
GroupPanel.v
RoomComposer.v
Panes.v
AgentPanel.v
Editors.v
ListView.v
Locales.v
SettingsPage.v
FrontDoor.v
AlterPane.v
FriendThread.v
AgentsSheet.v
ThreadSync.v
GroupLink.v
SessionTitle.v
