(* ===== verification/Prelude.v ===== *)
(** * SoulNet: a verification library for the dsh extension

    SoulNet lets the owner of a dsh agent host exchange messages with friends
    and groups over an encrypted relay, and lets an agent of theirs, the alter,
    read that mail and answer it within limits the owner sets.  The extension
    (src/dsh/packages/dsh/src, TypeScript) drives a separate peer process, keeps
    small JSON stores and a memory database, wakes agent sessions for mail,
    gives the agent tools to send, and serves a page.  This library models that
    extension and proves what makes it safe to leave alone: what is sent
    without the owner, what wakes an agent, what is lost when processes die.

    ** Files and what they model

    Foundations (the language, not the program):
    - [Prelude]: automation, the hint database [dsh], lists, [??];
    - [JsSort], [JsString], [JsMap], [Json]: stable sort, UTF-16 strings,
      insertion-ordered maps, JSON values with numbers as rationals,
      infinities and NaN.

    Policy and the agent's log:
    - [Policy] (policy.ts): reply tiers, routing of inbound mail, the private
      and the group send gate, the hourly window, mentions, group waking, the
      agent-rounds rule;
    - [AlterState], [AlterChat] (alter-state.ts): what woke a turn
      ([triggerOf]), the latest state and the transcript folded from the log.

    Stores:
    - [GroupSettings], [FriendSettings], [AgentRegistry], [Drafts], [Settings]
      (the files of the same names): load, normalise, patch, persist;
    - [GroupContract] (group-contract.ts): the governance view of a group;
    - [Memory], [MemoryExtract] (memory/store.ts, memory/extract.ts): scoped
      memories with full-text recall, and their extraction from a model's
      stream.

    The browser half:
    - [PageState], [Timeline], [InboxState] (client/page-state.ts,
      client/rooms/timeline.ts, client/inbox-state.ts, part of
      client/group-room.ts): threads, day and sender grouping, badges;
    - [PageStore] (client/page-store.ts): navigation and its persistence, the
      archive and transcript requests, optimistic sends, typing signals;
    - [ClientStores] (the network store of client/api.ts,
      client/upgrade-store.ts): the event stream, the refreshes of the state,
      the one-click upgrade;
    - [ClientApi] (the rest of client/api.ts): [call], and the request of every
      method, composed with the routes of [ApiRoutes];
    - [ClientViews] (client/group-templates.ts, client/a2a-node.ts): presets of
      new groups, the bubbles of relayed mail;
    - [ListView] (client/FriendList.tsx): the rows, the address book, the search
      and its highlighting;
    - [JoinDialog] (client/FriendList.tsx, client/GroupCreateDialog.tsx): the
      add, join and create dialogs, with the payments they send;
    - [GroupPanel] (client/GroupPane.tsx): the pane of a group;
    - [RoomComposer] (client/rooms/ChatRoom.tsx, client/GroupAgentsSheet.tsx):
      the chat room, its composer and mentions;
    - [AgentPanel] (client/AgentPane.tsx, client/AgentSettingsSheet.tsx,
      client/MemoryPane.tsx): the pane and the settings of a seat agent, and
      the memory pane (module [MemoryView]);
    - [Editors] (client/DraftCard.tsx, client/alter-ui.tsx): the card of a
      pending draft (module [Card]) and the protocol editor ([Protocol]);
    - [Panes] (client/MemoryNotification.tsx, client/InboxOverlay.tsx,
      client/SoulmirrorPage.tsx, client/FriendPane.tsx): the memory popup
      ([Notice]), the toasts ([Toasts]), the page's frame ([Shell], composed
      with [JoinDialog]) and the reading place of a thread ([Scroll]);
    - [Locales] (client/locales.ts): the English and Chinese texts and the keys
      built at run time;
    - [SettingsPage] (client/SettingsSection.tsx, client/AlterSettingsCard.tsx,
      client/UpdateAction.tsx): the boxes of the settings section ([Field]), its
      requests ([Form]), the wallet ([Wallet]), the alter's card ([AlterCard]),
      the version card and the foot's button ([Version]), the status ([Status]);
    - [FrontDoor] (client/index.ts, client/nav-seat.ts, client/SidebarEntry.tsx,
      client/Onboarding.tsx, client/Branding.tsx, SidebarRoot.tsx of the sidebar
      package): what is registered with the host ([Section_], [Entry]), the
      first-run step ([Onboarding]), the folding column ([Column]), the brand on
      the tab ([Brand]);
    - [AlterPane] (client/AlterPane.tsx): the rows of the talk with the alter,
      the reading place and the composer;
    - [FriendThread] (client/FriendPane.tsx, client/alter-ui.tsx): the reading of
      the open conversation, messages and composer, the settings of a friend;
    - [AgentsSheet] (client/GroupAgentsSheet.tsx, composed with [GroupSettings]):
      who may command an agent in a group;
    - [ThreadSync]: [PageStore] and [PageState] run against the host's archive;
    - [GroupLink] (client/group-room.ts, with network/fake.ts): the link of a
      group, through the codecs of [URLSearchParams].

    Network:
    - [Network] (network/types.ts, network/send.ts): data, the error monad
      [IO], the interface [NetworkClient] as a class, [sendAndArchive], and
      [ArchivingClient], what an archiving backend promises;
    - [FakeNetwork] (network/fake.ts): the in-memory backend, whole; it is an
      instance of both classes;
    - [JsonRpc] (network/jsonrpc.ts): the request/response endpoint;
    - [SoulnetWire] (network/soulnet.ts): the peer's JSON and the interface's
      data, notifications;
    - [SoulnetClient] (network/soulnet.ts): supervision of the peer process,
      composed of one [JsonRpc] endpoint per process and the notification
      handler of [SoulnetWire];
    - [SoulnetCalls] (network/soulnet.ts): the calls of the client object, an
      instance of [NetworkClient] over a peer that answers requests, and the
      search for the peer's binary;
    - [Paygate] (network/paygate.ts): the payment gateway's process, readiness
      loop and signed calls.

    The agent:
    - [Sessions] (sessions/index.ts): the messages written into a session,
      waking for private and group mail, conversation receipts, drafts, the
      check that a group-woken turn answered;
    - [AgentSessions] (sessions/index.ts): creation and resumption of the
      sessions of the alter and the seat agents, and the session map;
    - [SessionFace] (sessions/index.ts): the face the plugin offers the rest:
      memories and their extraction, publishing of the live state, typing
      markers, the owner's own posts;
    - [Persona] (persona.ts and the sections of sessions/index.ts): the persona
      templates, their variables and the memories of a turn;
    - [Workspaces] (sessions/index.ts): the clean-up of workspaces and side bars;
    - [Startup] (sessions/index.ts): the start of the plugin as a machine over
      [AgentSessions], the preset and model of a session;
    - [SessionTitle] (sessions/index.ts): the unread count in the session's title
      and the listeners of the sessions;
    - [HostPlugin] (index.ts): the plugin of the network client, the gateway's
      life with the settings, the automatic approval of applications;
    - [Tools] (tools/define.ts, tools/index.ts): argument validation and the
      tools that list, befriend, send, post and read;
    - [PayTools] (tools/index.ts, tools/remember.ts): the wallet, transfer,
      paid-group and remember tools;
    - [Commands] (commands/index.ts): the slash commands;
    - [Scenarios]: tools and sessions run on the in-memory backend (witnesses,
      and the runs that show the limits of the caps);
    - [Upgrade] (api/upgrade.ts): version gate, precedence, registry query and
      the guarded run of the package manager;
    - [ApiRequest], [ApiRoutes] (api/index.ts): how a request is read, every
      route, the event streams and the top of the handler;
    - [ApiScenarios]: requests run on the in-memory backend and on the peer's
      wire shapes.

    A component's state is a record with the fields of the source's class or
    closure; each method, handler, timer and callback is one definition.
    [Sessions], [SessionFace], [Tools], [PayTools], [Commands] and [ApiRoutes]
    are written against [NetworkClient], so their theorems hold for every
    backend; [FakeNetwork] and [SoulnetCalls] discharge the interface.

    ** What the theorems show

    - What leaves the machine ([Tools], [Policy], [Sessions]): a private
      message is sent only on the owner's instruction, as an automatic-tier
      reply within the hourly cap, or with approval; the cap bounds every hour
      under any interleaving, up to the calls in flight; the gates are
      characterised by equivalences.
    - What wakes an agent ([Policy], [AlterState], [Sessions]): the trigger
      written into a session is the one the gates read back, and stays so; a
      group message wakes only voices that are switched on, for a commander or
      an owed reply, at most once per receipt.
    - Nothing is lost ([Sessions], [Drafts], [JsonRpc], [SoulnetClient],
      [Network]): drafts leave the store only when their decision took effect;
      every request is settled exactly once; a waiting call always has a peer
      running or about to; there is never more than one peer; after [dispose]
      nothing starts.
    - Stores are well formed whatever their files contained, and survive a
      restart ([GroupSettings], [AgentRegistry], [Drafts], [Memory]); memories
      of one scope are not recalled in another; recall of CJK text is complete.
    - The page shows what the archive holds ([PageState], [InboxState],
      [AlterChat]): merging is independent of how pages arrive, sends are
      reconciled once, badges count drafts, streaming and replay agree.
    - The page and the host ([ThreadSync]): for an archive that numbers each
      message once, every thread of the page stays, under any interleaving of
      archive pages, frames, receipts, failures and sends, a selection of the
      archive's lines in order followed by what has no number yet; messages do
      not go, a full page brings a thread up to date, two tabs agree.
    - Requests ([ApiRoutes], [ApiScenarios]): a GET changes nothing the owner
      set; an application to a paid group is approved only after the gateway
      verified the payment on file; what a route does reaches every open
      stream; without the sessions plugin no route touches its memory.
    - Money ([PayTools]): a transfer outside the owner's own turn is made only
      with an approval; what is reported is what the gateway answered.
    - Sessions ([AgentSessions], [SessionFace], [Persona]): one session per
      voice and group under any interleaving of starts; a group's typing marker
      alternates; every placeholder of a persona is filled, and a turn recalls
      only memories of its own scopes.
    - The page's requests ([PageStore], [ClientStores], [ClientApi]): one archive
      request per thread, the loading mark exactly while it is out; the stream
      is open exactly while a visible view watches; the transcript catches up
      after every frame; the wait for a restart ends; every call names a route
      the host serves, and its settings, scopes and profiles arrive whole.
    - The start ([Startup]): the whole start, with everything that can happen
      meanwhile, is a run of the session machine; what can end it in failure.
    - The panes ([JoinDialog], [GroupPanel], [RoomComposer], [AgentPanel],
      [Editors], [Panes], [ListView]): the join dialog pays at most as often as
      it asked; a pane shows the roster or transcript of what is selected as
      long as answers are in order; a picked mention is found again by the
      policy; an unchanged form saves what was stored; memories are written in
      the pane's own scopes and cancelled only by name; popups end, toasts are
      bounded; a search hit is drawn without losing text.
    - Settings and the way in ([SettingsPage], [FrontDoor], [AlterPane],
      [FriendThread], [AgentsSheet]): what is typed is what is in force, one
      request at a time, every phase of an upgrade explained; one entry, one
      section, the first-run step once; the open conversation is read and no
      other; the friend pane sends nothing without the debug setting; the mode
      picked for an agent is the one the host enforces once it is stored.
    - The texts ([Locales]): both languages have the same keys and placeholders,
      and every key the code builds has a text.
    - Formats: group links give back id, relay and name; group profiles and paid-join rules survive their encodings;
      versions are compared by semantic-version precedence; only a harmless
      version text reaches a command line.
    Theorems about behaviour the code's comments do not intend are stated as
    such (the caps under concurrency, a draft approved twice, the group cap's
    horizon, payment proofs dropped from the application list, the second
    hyphen of a version, the late end of a timed-out upgrade, the gateway lost by
    a restart, the paid join without a gate, the payer lost before the approval,
    a refresh that joins an older answer, the answer of [/state] dropped for its
    error field, a body the timeout does not cover, an install phase ended by a
    check, a user's own folder taken for a legacy workspace, sessions forgotten
    by a call before the session map is read, a start that goes on after its
    disposal, consent that outlives its dialog, answers that arrive in another
    pane, a sheet that removes another agent, typing lost to a save, a sheet that
    shows a mode that was not stored, a tick that drops another, a first-run step
    complete before its card is shown, an instruction lost by its failure, a
    count kept after a reconnect).

    ** Conventions, bounds and fuel

    Strings are lists of UTF-16 code units; [undefined] is [None] of
    [option json].  Numbers read from JSON are rationals; counters and
    millisecond times are integers of unbounded width (the source uses
    doubles, exact up to 2^53).  A JSON file is its parsed content and a flag
    for failing writes.  Promises are settled by steps of their own where
    interleaving matters ([Drafts], [JsonRpc], [SoulnetClient], [Upgrade],
    [AgentSessions], [Startup], [PageStore], [ClientStores], the panes, the cap
    theorem of [Tools]);
    timers are flags with a step that fires them; elsewhere an awaited call is one step of the [IO]
    monad.  Recursion is structural, except for the mention search, whose fuel
    is the length of the text plus one: each round moves the search position
    right, and [Policy] proves the result equal to a specification without
    fuel.  The highlighting loop of [ListView] has as much fuel as the text has
    characters, plus one, and its theorem gives a result for every input.
    [Upgrade] keeps the source's own loop bounds (12 and 24 levels).

    Code outside the repository is a parameter with its documented behaviour:
    [LowerCase] and [LocaleCompare] (Unicode), [JsonText] (JSON text with its
    round trip), [NumberToString], [Sqlite] (the full-text engine),
    [LocalTime], [Archive] (the host's archive, for [ThreadSync]); uuids, ISO times, [Date.parse], [fetch],
    the file system below [Upgrade], the host's worker sessions.  Each class
    has a concrete instance used by the witnesses.

    The wait of [ClientStores] for a restart takes its polls as a list;
    ninety-one of them pass the three minutes of its deadline.

    Not modelled: properties inherited from [Object.prototype] under data
    keys; log lines; the JSON text of the API's answers (their bodies are typed
    values); what interleaves between two awaits of one API request; the peer,
    relay and payment gateway (separate programs in Go); the markup and styles
    of the React components and the measuring of the side bar, which have no
    state of their own; the lines that name components, slots and palettes to
    the host; the view nodes of the relayed rows, which are shapes of the host's
    library. *)

From stdpp Require Export base tactics numbers list strings gmap fin_maps.

(** ** Proof automation *)

(** Splits every [match]/[if] of the goal, cleaning up equations as it goes. *)
Ltac split_matches :=
  repeat (case_match; simplify_eq/=); try done; try lia.

(** Turns boolean tests on decidable propositions into propositions. *)
Ltac bools :=
  repeat match goal with
  | H : bool_decide _ = true |- _ => apply bool_decide_eq_true in H
  | H : bool_decide _ = false |- _ => apply bool_decide_eq_false in H
  | H : (_ && _) = true |- _ => apply andb_true_iff in H; destruct H
  | H : (_ || _) = false |- _ => apply orb_false_iff in H; destruct H
  | H : negb _ = true |- _ => apply negb_true_iff in H
  | H : negb _ = false |- _ => apply negb_false_iff in H
  | H : (_ <? _)%Z = true |- _ => apply Z.ltb_lt in H
  | H : (_ <? _)%Z = false |- _ => apply Z.ltb_ge in H
  | H : (_ <=? _)%Z = true |- _ => apply Z.leb_le in H
  | H : (_ <=? _)%Z = false |- _ => apply Z.leb_gt in H
  | H : (_ =? _)%Z = true |- _ => apply Z.eqb_eq in H
  | H : (_ =? _)%Z = false |- _ => apply Z.eqb_neq in H
  end.

(** Lemmas on lists, options and maps that the components share. *)
Create HintDb dsh.
Create Rewrite HintDb dsh_rw.

(** ** Options: the [x ?? d] operator of the source *)

Definition nullish {A} (o : option A) (d : A) : A :=
  match o with Some a => a | None => d end.

Declare Scope dsh_scope.
Delimit Scope dsh_scope with dsh.
Open Scope dsh_scope.
Notation "o ?? d" := (nullish o d) (at level 60, right associativity) : dsh_scope.

Lemma nullish_eq_some {A} (o : option A) (d x : A) :
  x ≠ d → o ?? d = x ↔ o = Some x.
Proof. destruct o; simpl; naive_solver. Qed.

(** ** Lists *)

Section lists.
Context {A : Type}.
Implicit Types (l k : list A) (f g : A → bool).

(** [Array.prototype.filter] with a boolean predicate. *)
Fixpoint filterb (f : A → bool) (l : list A) : list A :=
  match l with
  | [] => []
  | x :: l' => if f x then x :: filterb f l' else filterb f l'
  end.

(** [Array.prototype.find]. *)
Fixpoint findb (f : A → bool) (l : list A) : option A :=
  match l with
  | [] => None
  | x :: l' => if f x then Some x else findb f l'
  end.

(** [Array.prototype.some] / [every]. *)
Definition someb (f : A → bool) (l : list A) : bool := existsb f l.
Definition everyb (f : A → bool) (l : list A) : bool := forallb f l.

Lemma filterb_app f l k : filterb f (l ++ k) = filterb f l ++ filterb f k.
Proof. induction l as [|x l IH]; simpl; [done|]. destruct (f x); simpl; by rewrite IH. Qed.

Lemma elem_of_filterb f l x : x ∈ filterb f l ↔ x ∈ l ∧ f x = true.
Proof.
  induction l as [|y l IH]; simpl; [set_solver|].
  destruct (f y) eqn:E; rewrite ?elem_of_cons, IH; naive_solver congruence.
Qed.

Lemma filterb_idem f g l :
  (∀ x, f x = true → g x = true) → filterb f (filterb g l) = filterb f l.
Proof.
  intros Hfg. induction l as [|x l IH]; simpl; [done|].
  destruct (g x) eqn:Eg; simpl; rewrite IH; [done|].
  destruct (f x) eqn:Ef; [|done]. apply Hfg in Ef. congruence.
Qed.

Lemma filterb_ext f g l :
  (∀ x, x ∈ l → f x = g x) → filterb f l = filterb g l.
Proof.
  induction l as [|x l IH]; simpl; intros H; [done|].
  rewrite (H x) by set_solver. rewrite IH by set_solver. done.
Qed.

Lemma filterb_all f l : (∀ x, x ∈ l → f x = true) → filterb f l = l.
Proof.
  induction l as [|x l IH]; simpl; intros H; [done|].
  rewrite (H x) by set_solver. f_equal. apply IH. set_solver.
Qed.

Lemma filterb_length f l : length (filterb f l) ≤ length l.
Proof. induction l as [|x l IH]; simpl; [lia|]. destruct (f x); simpl; lia. Qed.

Lemma filterb_sublist f l : sublist (filterb f l) l.
Proof. induction l as [|x l IH]; simpl; [constructor|]. destruct (f x); by constructor. Qed.

Lemma filterb_NoDup f l : NoDup l → NoDup (filterb f l).
Proof.
  induction 1 as [|x l Hx HN IH]; simpl; [constructor|].
  destruct (f x); [|done]. constructor; [|done].
  rewrite elem_of_filterb. naive_solver.
Qed.

Lemma filterb_permutation f l k : Permutation l k → Permutation (filterb f l) (filterb f k).
Proof.
  induction 1 as [|x l k _ IH|x y l|l k m _ IH1 _ IH2]; simpl; [done|destruct (f x); by rewrite IH| |by etransitivity].
  destruct (f x), (f y); try done. by constructor.
Qed.

(** The element right after an infix. *)
Lemma lookup_after (p t r : list A) : (p ++ t ++ r) !! (length p + length t) = head r.
Proof.
  rewrite lookup_app_r, lookup_app_r by lia.
  replace (length p + length t - length p - length t) with 0 by lia. by destruct r.
Qed.

Lemma findb_Some f l x : findb f l = Some x → x ∈ l ∧ f x = true.
Proof.
  induction l as [|y l IH]; simpl; [done|].
  destruct (f y) eqn:E; intros ?; simplify_eq; [set_solver|].
  destruct (IH H). set_solver.
Qed.

Lemma findb_None f l : findb f l = None ↔ ∀ x, x ∈ l → f x = false.
Proof.
  induction l as [|y l IH]; simpl; [set_solver|].
  destruct (f y) eqn:E.
  - split; [done|]. intros H. rewrite (H y) in E by set_solver. done.
  - rewrite IH. set_solver.
Qed.

Lemma someb_true f l : someb f l = true ↔ ∃ x, x ∈ l ∧ f x = true.
Proof.
  unfold someb. rewrite existsb_exists.
  split; intros (x & H & ?); exists x; by rewrite list_elem_of_In in *.
Qed.

Lemma someb_false f l : someb f l = false ↔ ∀ x, x ∈ l → f x = false.
Proof.
  rewrite <- not_true_iff_false, someb_true. split.
  - intros H x Hx. apply not_true_is_false. naive_solver.
  - intros H (x & Hx & E). rewrite (H x Hx) in E. done.
Qed.

Lemma everyb_true f l : everyb f l = true ↔ ∀ x, x ∈ l → f x = true.
Proof.
  unfold everyb. rewrite forallb_forall.
  split; intros H x Hx; apply H; by apply list_elem_of_In.
Qed.
(** Counting the elements that satisfy a test, under a change at one place. *)
Lemma count_alter_same f (g : A → A) i l :
  (∀ x, f (g x) = f x) → length (filterb f (alter g i l)) = length (filterb f l).
Proof.
  intros Hf. revert i. induction l as [|x l IH]; intros [|i]; simpl; try done.
  - rewrite Hf. by destruct (f x).
  - specialize (IH i). unfold alter in IH. destruct (f x); simpl; by rewrite IH.
Qed.

Lemma count_alter_drop f (g : A → A) i l x :
  l !! i = Some x → f x = true → f (g x) = false → length (filterb f l) = S (length (filterb f (alter g i l))).
Proof.
  revert i. induction l as [|y l IH]; intros [|i]; simpl; try done.
  - intros [= ->] Hp Hf. by rewrite Hp, Hf.
  - intros Hl Hp Hf. specialize (IH i Hl Hp Hf). unfold alter in IH. destruct (f y); simpl; by rewrite IH.
Qed.

Lemma count_snoc f l x : length (filterb f (l ++ [x])) = length (filterb f l) + if f x then 1 else 0.
Proof. induction l as [|y l IH]; simpl; [by destruct (f x)|]. destruct (f y); simpl; lia. Qed.
End lists.

#[export] Hint Rewrite @filterb_app @elem_of_filterb : dsh_rw.
#[export] Hint Resolve filterb_NoDup filterb_sublist : dsh.

(** ** Runs

    The machines of the page and of the host are step functions, their runs
    left folds over the events; an invariant of every step holds after every
    run. *)
Section runs.
Context {S E : Type} (step : S → E → S) (I : S → Prop).

Lemma run_inv_when (P : E → Prop) (s : S) (es : list E) :
  I s → (∀ e, e ∈ es → P e) → (∀ s e, P e → I s → I (step s e)) → I (fold_left step es s).
Proof.
  intros Hs HP Hstep. revert s Hs. induction es as [|e es IH]; intros s Hs; [done|]. apply IH; [set_solver|]. apply Hstep; [set_solver|done].
Qed.
Lemma run_inv (s : S) (es : list E) : I s → (∀ s e, I s → I (step s e)) → I (fold_left step es s).
Proof. intros Hs Hstep. apply (run_inv_when (λ _, True)); eauto. Qed.
End runs.
