(* ===== verification/JsSort.v ===== *)
(** * Array.prototype.sort

    The language's sort is stable: for a consistent comparator its result is
    the one list that is sorted and keeps equal elements in order.  Insertion
    sort computes it; [le a b] is [compare(a, b) <= 0]. *)

From S2P Require Import Prelude.
From stdpp Require Import sorting.

Section js_sort.
Context {A : Type} (le : A → A → bool).

Fixpoint insert_sorted (x : A) (l : list A) : list A :=
  match l with
  | [] => [x]
  | y :: l' => if le x y then x :: l else y :: insert_sorted x l'
  end.

Definition js_sort (l : list A) : list A := foldr insert_sorted [] l.

Definition le_rel (a b : A) : Prop := le a b = true.

Lemma insert_sorted_perm x l : Permutation (insert_sorted x l) (x :: l).
Proof.
  induction l as [|y l IH]; simpl; [done|]. destruct (le x y); [done|]. rewrite IH. constructor.
Qed.

Lemma js_sort_perm l : Permutation (js_sort l) l.
Proof. induction l as [|x l IH]; simpl; [done|]. rewrite insert_sorted_perm. by constructor. Qed.

Lemma elem_of_js_sort l x : x ∈ js_sort l ↔ x ∈ l.
Proof. by rewrite (js_sort_perm l). Qed.

Lemma js_sort_length l : length (js_sort l) = length l.
Proof. by rewrite (js_sort_perm l). Qed.

Hypothesis le_total : ∀ a b, le a b = true ∨ le b a = true.
Hypothesis le_trans : ∀ a b c, le a b = true → le b c = true → le a c = true.

Lemma insert_sorted_sorted x l : StronglySorted le_rel l → StronglySorted le_rel (insert_sorted x l).
Proof.
  induction 1 as [|y l Hl IH Hy]; simpl; [repeat constructor|].
  destruct (le x y) eqn:E.
  - constructor; [by constructor|]. constructor; [done|].
    eapply Forall_impl; [exact Hy|]. intros z Hz. by apply (le_trans x y z).
  - constructor; [done|]. apply List.Forall_forall. intros z Hz.
    apply list_elem_of_In in Hz. rewrite insert_sorted_perm in Hz. apply elem_of_cons in Hz as [->|Hz].
    + destruct (le_total x y) as [?|?]; [congruence|done].
    + rewrite List.Forall_forall in Hy. apply Hy. by apply list_elem_of_In.
Qed.

Lemma js_sort_sorted l : StronglySorted le_rel (js_sort l).
Proof. induction l as [|x l IH]; simpl; [constructor|]. by apply insert_sorted_sorted. Qed.

Lemma insert_sorted_front x l : Forall (le_rel x) l → insert_sorted x l = x :: l.
Proof. destruct l as [|y l]; simpl; [done|]. intros Hx. apply List.Forall_inv in Hx. unfold le_rel in Hx. by rewrite Hx. Qed.

(** Sorting a sorted list changes nothing. *)
Lemma js_sort_id l : StronglySorted le_rel l → js_sort l = l.
Proof. induction 1 as [|x l Hl IH Hx]; simpl; [done|]. rewrite IH. by apply insert_sorted_front. Qed.

Lemma js_sort_idem l : js_sort (js_sort l) = js_sort l.
Proof. apply js_sort_id, js_sort_sorted. Qed.

(** Selecting commutes with sorting (stability). *)
Lemma filterb_insert f x l :
  StronglySorted le_rel l →
  filterb f (insert_sorted x l) = if f x then insert_sorted x (filterb f l) else filterb f l.
Proof.
  induction 1 as [|y l Hl IH Hy]; simpl.
  { by destruct (f x). }
  destruct (le x y) eqn:E; simpl.
  - destruct (f x) eqn:Ef; [|done]. destruct (f y); simpl; [by rewrite E|].
    rewrite insert_sorted_front; [done|]. apply List.Forall_forall. intros z Hz.
    apply list_elem_of_In, elem_of_filterb in Hz as [Hz _].
    rewrite List.Forall_forall in Hy. apply (le_trans x y z); [done|]. apply Hy. by apply list_elem_of_In.
  - rewrite IH. destruct (f y), (f x); simpl; try done. by rewrite E.
Qed.

Lemma filterb_js_sort f l : filterb f (js_sort l) = js_sort (filterb f l).
Proof.
  induction l as [|x l IH]; simpl; [done|]. rewrite filterb_insert by apply js_sort_sorted.
  rewrite IH. by destruct (f x).
Qed.
End js_sort.
