(* ===== verification/JsString.v ===== *)
(** * JavaScript strings

    A JavaScript string is a sequence of UTF-16 code units; here a [list Z].
    This file models the string operations of the language the source uses
    ([trim], [indexOf], [includes], [startsWith], [slice], [split], [join]),
    with the specification lemmas the components rest on.  [toLowerCase] is
    Unicode's case mapping: a class with its documented behaviour on ASCII,
    and an executable ASCII instance on which witnesses are evaluated. *)

From S2P Require Import Prelude.
From Stdlib Require Ascii String.

Notation jchar := Z (only parsing).
Notation jstr := (list Z) (only parsing).

(** ** Literals: UTF-8 source text to UTF-16 code units *)

Fixpoint utf16 (bs : list Z) : jstr :=
  match bs with
  | [] => []
  | b0 :: r0 =>
      if (b0 <? 128)%Z then b0 :: utf16 r0
      else match r0 with
      | [] => [65533%Z]
      | b1 :: r1 =>
          if (b0 <? 224)%Z then ((b0 - 192) * 64 + (b1 - 128))%Z :: utf16 r1
          else match r1 with
          | [] => [65533%Z]
          | b2 :: r2 =>
              if (b0 <? 240)%Z
              then ((b0 - 224) * 4096 + (b1 - 128) * 64 + (b2 - 128))%Z :: utf16 r2
              else match r2 with
              | [] => [65533%Z]
              | b3 :: r3 =>
                  let cp := ((b0 - 240) * 262144 + (b1 - 128) * 4096
                             + (b2 - 128) * 64 + (b3 - 128) - 65536)%Z in
                  (55296 + cp / 1024)%Z :: (56320 + cp mod 1024)%Z :: utf16 r3
              end
          end
      end
  end.

Definition js (s : string) : jstr :=
  utf16 (map (λ c, Z.of_N (Ascii.N_of_ascii c)) (String.list_ascii_of_string s)).

Arguments js : simpl never.

(** ** Comparison *)

Definition jeqb (a b : jstr) : bool := bool_decide (a = b).

Lemma jeqb_eq a b : jeqb a b = true ↔ a = b.
Proof. apply bool_decide_eq_true. Qed.
Lemma jeqb_neq a b : jeqb a b = false ↔ a ≠ b.
Proof. apply bool_decide_eq_false. Qed.
Lemma jeqb_refl a : jeqb a a = true.
Proof. by apply jeqb_eq. Qed.

(** Evaluates comparisons of string literals. *)
Ltac js_keys :=
  repeat match goal with
  | |- context [jeqb (js ?a) (js ?b)] =>
      let v := eval vm_compute in (jeqb (js a) (js b)) in change (jeqb (js a) (js b)) with v
  | H : context [jeqb (js ?a) (js ?b)] |- _ =>
      let v := eval vm_compute in (jeqb (js a) (js b)) in change (jeqb (js a) (js b)) with v in H
  end; cbn [andb orb negb].

(** ** Trimming (ECMAScript WhiteSpace and LineTerminator) *)

Definition is_ws (c : jchar) : bool :=
  (((9 <=? c) && (c <=? 13)) || (c =? 32) || (c =? 160) || (c =? 5760)
   || ((8192 <=? c) && (c <=? 8202)) || (c =? 8232) || (c =? 8233)
   || (c =? 8239) || (c =? 8287) || (c =? 12288) || (c =? 65279))%Z.

Fixpoint trimStart (s : jstr) : jstr :=
  match s with
  | [] => []
  | c :: s' => if is_ws c then trimStart s' else s
  end.

Definition trimEnd (s : jstr) : jstr := reverse (trimStart (reverse s)).
Definition trim (s : jstr) : jstr := trimEnd (trimStart s).

(** A trimmed string has no white space at either end. *)
Definition trimmed (s : jstr) : Prop :=
  (∀ c, head s = Some c → is_ws c = false) ∧ (∀ c, last s = Some c → is_ws c = false).

Lemma trimStart_head s c : head (trimStart s) = Some c → is_ws c = false.
Proof. induction s as [|x s IH]; simpl; [done|]. destruct (is_ws x) eqn:E; simpl; naive_solver. Qed.

Lemma trimStart_id s : (∀ c, head s = Some c → is_ws c = false) → trimStart s = s.
Proof. destruct s as [|x s]; simpl; [done|]. intros H. by rewrite (H x). Qed.

Lemma trimStart_suffix s : ∃ p, s = p ++ trimStart s.
Proof.
  induction s as [|x s [p IH]]; simpl; [by exists []|].
  destruct (is_ws x); [exists (x :: p); simpl; by f_equal|by exists []].
Qed.

Lemma trimEnd_prefix s : ∃ p, s = trimEnd s ++ p.
Proof.
  unfold trimEnd. destruct (trimStart_suffix (reverse s)) as [p Hp].
  exists (reverse p). rewrite <- reverse_app, <- Hp. by rewrite reverse_involutive.
Qed.

Lemma last_reverse_head (s : jstr) : last (reverse s) = head s.
Proof. by rewrite last_reverse. Qed.

Lemma trimEnd_last s c : last (trimEnd s) = Some c → is_ws c = false.
Proof. unfold trimEnd. rewrite last_reverse. apply trimStart_head. Qed.

Lemma trim_trimmed s : trimmed (trim s).
Proof.
  unfold trim. split; [|apply trimEnd_last].
  intros c Hc. destruct (trimEnd_prefix (trimStart s)) as [p Hp].
  apply (trimStart_head s). rewrite Hp.
  destruct (trimEnd (trimStart s)); [done|by simplify_eq/=].
Qed.

Lemma trim_id s : trimmed s → trim s = s.
Proof.
  intros [Hh Hl]. unfold trim, trimEnd. rewrite (trimStart_id s) by done.
  rewrite (trimStart_id (reverse s)); [apply reverse_involutive|].
  intros c Hc. apply Hl. by rewrite <- head_reverse.
Qed.

Lemma trim_idem s : trim (trim s) = trim s.
Proof. apply trim_id, trim_trimmed. Qed.

Lemma trimStart_length s : length (trimStart s) ≤ length s.
Proof. destruct (trimStart_suffix s) as [p Hp]. rewrite Hp at 2. rewrite length_app. lia. Qed.

Lemma trim_length s : length (trim s) ≤ length s.
Proof.
  unfold trim. destruct (trimEnd_prefix (trimStart s)) as [p Hp].
  pose proof (trimStart_length s). rewrite Hp, length_app in H. lia.
Qed.

Lemma trimStart_nil s c : trimStart s = [] → c ∈ s → is_ws c = true.
Proof.
  induction s as [|x s IH]; simpl; [set_solver|]. destruct (is_ws x) eqn:E; [|done].
  intros Hs. rewrite elem_of_cons. naive_solver.
Qed.

(** A string that starts with a non-blank does not trim to nothing. *)
Lemma trim_nonempty s : trimStart s = s → s ≠ [] → trim s ≠ [].
Proof.
  intros Hs Hne Ht. destruct s as [|c s]; [done|].
  unfold trim, trimEnd in Ht. rewrite Hs in Ht.
  assert (trimStart (reverse (c :: s)) = []) as Hr.
  { rewrite <- (reverse_involutive (trimStart _)), Ht. done. }
  assert (is_ws c = false) as Hc by (apply (trimStart_head (c :: s)); by rewrite Hs).
  rewrite (trimStart_nil _ c Hr) in Hc; [done|]. rewrite elem_of_reverse. apply elem_of_cons. by left.
Qed.

Lemma trim_nil : trim [] = [].
Proof. done. Qed.

(** ** Searching *)

Fixpoint startsWith (s t : jstr) {struct t} : bool :=
  match t, s with
  | [], _ => true
  | _, [] => false
  | c :: t', d :: s' => (c =? d)%Z && startsWith s' t'
  end.

Lemma startsWith_prefix s t : startsWith s t = true ↔ ∃ r, s = t ++ r.
Proof.
  revert s. induction t as [|c t IH]; intros s; simpl.
  - split; [intros _; by exists s|]. done.
  - destruct s as [|d s]; simpl.
    { split; [done|]. by intros [r ?]. }
    rewrite andb_true_iff, Z.eqb_eq, IH. split.
    + intros [-> [r ->]]. by exists r.
    + intros [r Hr]. simplify_eq/=. split; [done|by exists r].
Qed.

Lemma startsWith_app t r : startsWith (t ++ r) t = true.
Proof. apply startsWith_prefix. by exists r. Qed.

Definition endsWith (s t : jstr) : bool := startsWith (reverse s) (reverse t).

(** [index_from t s i]: least index of [t], where [s] is the rest of the
    string from position [i] on. *)
Fixpoint index_from (t s : jstr) (i : nat) : option nat :=
  if startsWith s t then Some i
  else match s with
  | [] => None
  | _ :: s' => index_from t s' (S i)
  end.

(** [s.indexOf(t, from)]; [None] is the source's -1. *)
Definition indexOf (s t : jstr) (from : nat) : option nat :=
  index_from t (drop from s) (Nat.min from (length s)).

Definition includes (s t : jstr) : bool :=
  match indexOf s t 0 with Some _ => true | None => false end.

(** [t] occurs in [s] at position [i]. *)
Definition occurs_at (s t : jstr) (i : nat) : Prop :=
  ∃ p r, s = p ++ t ++ r ∧ length p = i.

Lemma index_from_Some t s i j :
  index_from t s i = Some j ↔
  (i ≤ j ∧ occurs_at s t (j - i)) ∧ (∀ k, k < j - i → ¬ occurs_at s t k).
Proof.
  revert i. induction s as [|c s IH]; intros i; simpl.
  - destruct (startsWith [] t) eqn:E.
    + apply startsWith_prefix in E as [r Hr]. split.
      * intros ?; simplify_eq. rewrite Nat.sub_diag. split; [split; [lia|]|lia].
        by exists [], r.
      * intros [[Hle (p & r' & Hs & Hp)] _]. symmetry in Hs.
        apply app_eq_nil in Hs as [-> _]. simpl in Hp. f_equal. lia.
    + split; [done|]. intros [[Hle (p & r' & Hs & Hp)] _]. symmetry in Hs.
      apply app_eq_nil in Hs as [-> [-> ->]%app_eq_nil]. done.
  - destruct (startsWith (c :: s) t) eqn:E.
    + apply startsWith_prefix in E as [r Hr]. split.
      * intros ?; simplify_eq. rewrite Nat.sub_diag. split; [split; [lia|]|lia].
        by exists [], r.
      * intros [[Hle _] Hmin]. destruct (decide (i = j)) as [->|]; [done|].
        destruct (Hmin 0); [lia|]. by exists [], r.
    + rewrite IH. split.
      * intros [[Hle (p & r & Hs & Hp)] Hmin].
        replace (j - i) with (S (j - S i)) by lia. split.
        { split; [lia|]. exists (c :: p), r. simpl. by rewrite Hs, Hp. }
        intros [|k] Hk (q & r' & Hs' & Hq).
        { destruct q; [|done]. simpl in Hs'.
          assert (startsWith (c :: s) t = true) by (apply startsWith_prefix; by exists r').
          congruence. }
        destruct q as [|d q]; [done|]. simplify_eq/=.
        apply (Hmin (length q)); [lia|]. by exists q, r'.
      * intros [[Hle (p & r & Hs & Hp)] Hmin].
        destruct p as [|d p].
        { simpl in Hs. assert (startsWith (c :: s) t = true)
            by (apply startsWith_prefix; by exists r). congruence. }
        simplify_eq/=. split.
        { split; [lia|]. exists p, r. split; [done|lia]. }
        intros k Hk (q & r' & Hs' & Hq). apply (Hmin (S k)); [lia|].
        exists (d :: q), r'. simpl. by rewrite Hs', Hq.
Qed.

Lemma index_from_None t s i : index_from t s i = None ↔ ∀ k, ¬ occurs_at s t k.
Proof.
  split.
  - revert i. induction s as [|c s IH]; intros i; simpl; destruct (startsWith _ t) eqn:E; try done.
    + intros _ k (p & r & Hs & Hp). symmetry in Hs.
      apply app_eq_nil in Hs as [-> [-> ->]%app_eq_nil]. done.
    + intros H k (p & r & Hs & Hp). destruct p as [|d p].
      * simpl in Hs. assert (startsWith (c :: s) t = true)
          by (apply startsWith_prefix; by exists r). congruence.
      * simplify_eq/=. apply (IH (S i) H (length p)). by exists p, r.
  - intros H. destruct (index_from t s i) as [j|] eqn:E; [|done].
    apply index_from_Some in E as [[_ Ho] _]. by apply H in Ho.
Qed.

Lemma occurs_at_drop s t n k :
  n ≤ length s → occurs_at (drop n s) t k ↔ occurs_at s t (n + k).
Proof.
  intros Hn. split.
  - intros (p & r & Hs & Hp). exists (take n s ++ p), r. split.
    + rewrite <- app_assoc, <- Hs. by rewrite take_drop.
    + rewrite length_app, length_take. lia.
  - intros (p & r & Hs & Hp). exists (drop n p), r. split.
    + rewrite Hs. rewrite drop_app_le by lia. done.
    + rewrite length_drop. lia.
Qed.

(** [indexOf] returns the least occurrence at or after [from]. *)
Lemma indexOf_Some s t from j :
  from ≤ length s →
  indexOf s t from = Some j ↔
  from ≤ j ∧ occurs_at s t j ∧ (∀ k, from ≤ k < j → ¬ occurs_at s t k).
Proof.
  intros Hle. unfold indexOf. rewrite Nat.min_l by lia.
  rewrite index_from_Some. split.
  - intros [[? Ho] Hmin]. rewrite occurs_at_drop in Ho by done.
    replace (from + (j - from)) with j in Ho by lia. split_and!; [done..|].
    intros k Hk Hk'. apply (Hmin (k - from)); [lia|].
    apply occurs_at_drop; [done|]. by replace (from + (k - from)) with k by lia.
  - intros (? & Ho & Hmin). split; [split; [done|]|].
    + apply occurs_at_drop; [done|]. by replace (from + (j - from)) with j by lia.
    + intros k Hk Hk'. rewrite occurs_at_drop in Hk' by done.
      apply (Hmin (from + k)); [lia|done].
Qed.

Lemma indexOf_None s t from :
  from ≤ length s →
  indexOf s t from = None ↔ ∀ k, from ≤ k → ¬ occurs_at s t k.
Proof.
  intros Hle. unfold indexOf. rewrite index_from_None. split.
  - intros H k Hk Ho. apply (H (k - from)). apply occurs_at_drop; [done|].
    by replace (from + (k - from)) with k by lia.
  - intros H k Ho. apply occurs_at_drop in Ho; [|done]. apply (H (from + k)); [lia|done].
Qed.

Lemma occurs_at_length s t i : occurs_at s t i → i + length t ≤ length s.
Proof. intros (p & r & -> & <-). rewrite !length_app. lia. Qed.

Lemma includes_true s t : includes s t = true ↔ ∃ p r, s = p ++ t ++ r.
Proof.
  unfold includes. destruct (indexOf s t 0) as [j|] eqn:E.
  - apply indexOf_Some in E as (_ & (p & r & Hs & _) & _); [|lia]. naive_solver.
  - rewrite indexOf_None in E by lia. split; [done|].
    intros (p & r & Hs). exfalso. apply (E (length p)); [lia|]. by exists p, r.
Qed.

(** ** Slicing, splitting, joining *)

(** [s.slice(a, b)] for non-negative [a], [b]. *)
Definition slice (s : jstr) (a b : nat) : jstr := take (b - a) (drop a s).

(** [s.split(c)] for a one-unit separator. *)
Fixpoint split_on (sep : jchar) (s : jstr) : list jstr :=
  match s with
  | [] => [[]]
  | c :: s' =>
      if (c =? sep)%Z then [] :: split_on sep s'
      else match split_on sep s' with
      | h :: t => (c :: h) :: t
      | [] => [[c]]
      end
  end.

(** [l.join(sep)]. *)
Fixpoint jjoin (sep : jstr) (l : list jstr) : jstr :=
  match l with
  | [] => []
  | [x] => x
  | x :: l' => x ++ sep ++ jjoin sep l'
  end.

Lemma split_on_nonempty sep s : split_on sep s ≠ [].
Proof. destruct s as [|c s]; simpl; [done|]. destruct (c =? sep)%Z; [done|]. by destruct (split_on sep s). Qed.

Lemma jjoin_split_on sep s : jjoin [sep] (split_on sep s) = s.
Proof.
  induction s as [|c s IH]; [done|]. simpl. pose proof (split_on_nonempty sep s) as Hne.
  destruct (c =? sep)%Z eqn:E.
  - apply Z.eqb_eq in E as ->. destruct (split_on sep s) eqn:Es; [done|].
    simpl. f_equal. done.
  - destruct (split_on sep s) as [|h [|h' t]]; [done|..]; simpl in *; by f_equal.
Qed.

Lemma split_on_pieces sep s p : p ∈ split_on sep s → sep ∉ p.
Proof.
  revert p. induction s as [|c s IH]; simpl; intros p.
  { rewrite list_elem_of_singleton. intros ->. apply not_elem_of_nil. }
  destruct (c =? sep)%Z eqn:E; bools.
  - rewrite elem_of_cons. intros [->|]; [apply not_elem_of_nil|eauto].
  - pose proof (split_on_nonempty sep s). destruct (split_on sep s) as [|h t]; [done|].
    rewrite elem_of_cons. intros [->|Hp]; [|apply IH, elem_of_cons; by right].
    rewrite elem_of_cons. intros [->|Hin]; [done|]. revert Hin. apply IH, elem_of_cons. by left.
Qed.

Lemma split_on_none sep s : sep ∉ s → split_on sep s = [s].
Proof.
  induction s as [|c s IH]; simpl; intros H; [done|].
  destruct (c =? sep)%Z eqn:E; bools; [set_solver|]. rewrite IH by set_solver. done.
Qed.

Lemma split_on_app sep p s : sep ∉ p → split_on sep (p ++ sep :: s) = p :: split_on sep s.
Proof.
  induction p as [|c p IH]; simpl; intros H.
  - by rewrite Z.eqb_refl.
  - destruct (c =? sep)%Z eqn:E; bools; [set_solver|]. rewrite IH by set_solver. done.
Qed.

(** ** Characters *)

Definition is_ascii (c : jchar) : bool := ((0 <=? c) && (c <? 128))%Z.
Definition is_digit (c : jchar) : bool := ((48 <=? c) && (c <=? 57))%Z.
Definition is_lower (c : jchar) : bool := ((97 <=? c) && (c <=? 122))%Z.
Definition is_upper (c : jchar) : bool := ((65 <=? c) && (c <=? 90))%Z.
Definition ascii_lower (c : jchar) : jchar := if is_upper c then (c + 32)%Z else c.

(** ** Case mapping

    [String.prototype.toLowerCase] applies Unicode's tables; on ASCII text it
    lowers A-Z and fixes every other character. *)
Class LowerCase := {
  toLowerCase : jstr → jstr;
  toLowerCase_ascii : ∀ s, forallb is_ascii s = true → toLowerCase s = map ascii_lower s;
}.

(** The ASCII mapping itself satisfies the contract. *)
Definition AsciiLowerCase : LowerCase.
Proof. refine {| toLowerCase := map ascii_lower |}. done. Defined.

(** [localeCompare] orders strings by the locale's collation: a sign that is
    consistent under exchange of its arguments and transitive. *)
Class LocaleCompare := {
  localeCompare : jstr → jstr → Z;
  localeCompare_refl : ∀ a, localeCompare a a = 0%Z;
  localeCompare_anti : ∀ a b, (localeCompare a b <= 0)%Z ↔ (0 <= localeCompare b a)%Z;
  localeCompare_trans : ∀ a b c,
    (localeCompare a b <= 0)%Z → (localeCompare b c <= 0)%Z → (localeCompare a c <= 0)%Z;
}.

(** ** Lines and trimming *)

Lemma trimStart_app_ws p s : forallb is_ws p = true → trimStart (p ++ s) = trimStart s.
Proof. induction p as [|c p IH]; simpl; [done|]. intros [-> Hp]%andb_true_iff. by apply IH. Qed.

Lemma trimStart_app s x : trimStart s ≠ [] → trimStart (s ++ x) = trimStart s ++ x.
Proof. induction s as [|c s IH]; simpl; [done|]. destruct (is_ws c); [apply IH|done]. Qed.

Lemma trimStart_all_ws s : trimStart s = [] → forallb is_ws s = true.
Proof. intros Hs. apply everyb_true. intros c. by apply trimStart_nil. Qed.

Lemma forallb_reverse {A} (f : A → bool) l : forallb f (reverse l) = forallb f l.
Proof.
  apply eq_true_iff_eq. change (forallb f) with (everyb f). rewrite !everyb_true. split; intros Hf x Hx.
  - apply Hf. by rewrite elem_of_reverse.
  - apply Hf. revert Hx. by rewrite elem_of_reverse.
Qed.

Lemma trimEnd_app_ws s x : forallb is_ws x = true → trimEnd (s ++ x) = trimEnd s.
Proof. intros Hx. unfold trimEnd. rewrite reverse_app, trimStart_app_ws; [done|]. by rewrite forallb_reverse. Qed.

Lemma trim_app_ws s x : forallb is_ws x = true → trim (s ++ x) = trim s.
Proof.
  intros Hx. unfold trim. destruct (trimStart s) as [|c t] eqn:E.
  - rewrite (trimStart_app_ws s x) by by apply trimStart_all_ws.
    rewrite <- (app_nil_r x), (trimStart_app_ws x []) by done. done.
  - rewrite trimStart_app, E by by rewrite E. by apply trimEnd_app_ws.
Qed.

Lemma trim_cons_ws c s : is_ws c = true → trim (c :: s) = trim s.
Proof. intros Hc. unfold trim. simpl. by rewrite Hc. Qed.

(** Dropping white space in front of a text only drops or trims lines. *)
Lemma split_on_trimStart sep s l' :
  l' ∈ split_on sep (trimStart s) → ∃ l, l ∈ split_on sep s ∧ trim l' = trim l.
Proof.
  induction s as [|c s IH]; simpl; [eauto|]. destruct (is_ws c) eqn:Ec.
  - intros (l & Hl & Ht)%IH. destruct (c =? sep)%Z; [exists l; split; [by apply elem_of_cons; right|done]|].
    pose proof (split_on_nonempty sep s). destruct (split_on sep s) as [|h t]; [done|].
    apply elem_of_cons in Hl as [->|Hl].
    + exists (c :: h). split; [by apply elem_of_cons; left|]. by rewrite trim_cons_ws.
    + exists l. split; [by apply elem_of_cons; right|done].
  - simpl. intros Hl. by exists l'.
Qed.

(** White space after a text extends its last line and adds blank ones. *)
Lemma split_on_app_ws sep s x :
  forallb is_ws x = true →
  ∃ init l y extra, split_on sep s = init ++ [l] ∧ split_on sep (s ++ x) = init ++ [l ++ y] ++ extra ∧
                    forallb is_ws y = true.
Proof.
  intros Hx. induction s as [|c s (init & l & y & extra & H1 & H2 & Hy)]; simpl.
  - pose proof (split_on_nonempty sep x). destruct (split_on sep x) as [|h t] eqn:E; [done|].
    exists [], [], h, t. split_and!; [done..|].
    assert (∀ c, c ∈ h → c ∈ x) as Hsub.
    { clear Hx. revert h t E H. induction x as [|d x IH]; simpl; intros h t.
      - intros [= <- <-] _ c. by rewrite elem_of_nil.
      - destruct (d =? sep)%Z; [intros [= <- <-] _ c; by rewrite elem_of_nil|].
        pose proof (split_on_nonempty sep x). destruct (split_on sep x) as [|h' t'] eqn:E'; [done|].
        intros [= <- <-] _ c. rewrite !elem_of_cons. naive_solver. }
    apply everyb_true. intros c Hc. pose proof (proj1 (everyb_true is_ws x) Hx). auto.
  - destruct (c =? sep)%Z.
    + exists ([] :: init), l, y, extra. rewrite H1, H2. done.
    + rewrite H1, H2. destruct init as [|i0 init]; simpl.
      * exists [], (c :: l), y, extra. done.
      * exists ((c :: i0) :: init), l, y, extra. done.
Qed.

Lemma split_on_trimEnd sep s l' :
  l' ∈ split_on sep (trimEnd s) → ∃ l, l ∈ split_on sep s ∧ trim l' = trim l.
Proof.
  intros Hl. assert (∃ x, s = trimEnd s ++ x ∧ forallb is_ws x = true) as (x & Hs & Hx).
  { unfold trimEnd. generalize (eq_refl (reverse s)). generalize (reverse s) at 2 3 as r. intros r Hr.
    assert (s = reverse r) as -> by (rewrite <- Hr; by rewrite reverse_involutive).
    clear. induction r as [|c r (x & IH & Hx)]; simpl; [by exists []|]. destruct (is_ws c) eqn:Ec.
    - exists (x ++ [c]). rewrite reverse_cons, app_assoc, <- IH. split; [done|].
      rewrite forallb_app, Hx. simpl. by rewrite Ec.
    - exists []. by rewrite app_nil_r. }
  destruct (split_on_app_ws sep (trimEnd s) x Hx) as (init & l & y & extra & H1 & H2 & Hy).
  rewrite Hs, H2. rewrite H1 in Hl. apply elem_of_app in Hl as [Hl|Hl].
  - exists l'. split; [|done]. apply elem_of_app. by left.
  - apply list_elem_of_singleton in Hl as ->. exists (l ++ y). split; [|by rewrite trim_app_ws].
    rewrite !elem_of_app, list_elem_of_singleton. naive_solver.
Qed.

(** Every line of a trimmed text is, up to trimming, a line of the text. *)
Lemma split_on_trim sep s l' :
  l' ∈ split_on sep (trim s) → ∃ l, l ∈ split_on sep s ∧ trim l' = trim l.
Proof.
  intros (l1 & H1 & E1)%split_on_trimEnd. apply split_on_trimStart in H1 as (l & Hl & E).
  exists l. split; [done|]. congruence.
Qed.

(** Joining lines and splitting again gives the lines back. *)
Lemma split_on_jjoin sep ls :
  ls ≠ [] → (∀ l, l ∈ ls → sep ∉ l) → split_on sep (jjoin [sep] ls) = ls.
Proof.
  induction ls as [|l ls IH]; [done|]. intros _ Hls. destruct ls as [|l2 ls].
  - simpl. apply split_on_none. apply Hls. by left.
  - change (jjoin [sep] (l :: l2 :: ls)) with (l ++ sep :: jjoin [sep] (l2 :: ls)).
    rewrite split_on_app by (apply Hls; by left). f_equal. apply IH; [done|].
    intros x Hx. apply Hls. by right.
Qed.

(** [s.split(/\s+/)]. *)
Fixpoint split_ws_go (s cur : jstr) (skip : bool) : list jstr :=
  match s with
  | [] => [cur]
  | c :: s' =>
      if is_ws c then if skip then split_ws_go s' cur skip else cur :: split_ws_go s' [] true
      else split_ws_go s' (cur ++ [c]) false
  end.
Definition split_ws (s : jstr) : list jstr := split_ws_go s [] false.

Definition no_ws (s : jstr) : bool := forallb (λ c, negb (is_ws c)) s.

Lemma split_ws_go_word w s cur skip :
  no_ws w = true → w ≠ [] → split_ws_go (w ++ s) cur skip = split_ws_go s (cur ++ w) false.
Proof.
  revert cur skip. induction w as [|c w IH]; [done|]. intros cur skip Hw _. simpl in *.
  apply andb_true_iff in Hw as [Hc Hw]. apply negb_true_iff in Hc. rewrite Hc.
  destruct w as [|d w]; [done|]. rewrite IH by done. by rewrite <- app_assoc.
Qed.

Lemma no_ws_trimmed s : no_ws s = true → trimmed s.
Proof.
  intros Hs. pose proof (proj1 (everyb_true _ s) Hs) as Hall. split; intros c Hc; apply negb_true_iff, Hall.
  - destruct s; simpl in *; [done|]. simplify_eq. by left.
  - apply last_Some in Hc as (k & ->). apply elem_of_app. right. by left.
Qed.
