(* ===== verification/JsMap.v ===== *)
(** * Map

    JavaScript's [Map] with string keys: entries in insertion order, where
    writing a key that is already there keeps its place. *)

From S2P Require Import Prelude JsString.

Section ordered_map.
Context {V : Type}.
Notation omap_ := (list (list Z * V)).

Fixpoint map_get (m : omap_) (k : list Z) : option V :=
  match m with
  | [] => None
  | (k', v) :: m' => if jeqb k' k then Some v else map_get m' k
  end.

(** [set] keeps the place of a key that is already there. *)
Fixpoint map_set (m : omap_) (k : list Z) (v : V) : omap_ :=
  match m with
  | [] => [(k, v)]
  | (k', v') :: m' => if jeqb k' k then (k', v) :: m' else (k', v') :: map_set m' k v
  end.

Definition map_has (m : omap_) (k : list Z) : bool := bool_decide (is_Some (map_get m k)).
Definition map_delete (m : omap_) (k : list Z) : omap_ := filterb (λ kv, negb (jeqb kv.1 k)) m.

Lemma map_get_set (m : omap_) k v k' :
  map_get (map_set m k v) k' = if jeqb k k' then Some v else map_get m k'.
Proof.
  induction m as [|[k0 v0] m IH]; simpl; [done|].
  destruct (jeqb k0 k) eqn:E; simpl.
  - apply jeqb_eq in E as ->. by destruct (jeqb k k').
  - destruct (jeqb k0 k') eqn:E'; [|done]. apply jeqb_eq in E' as ->.
    destruct (jeqb k k') eqn:E2; [|done]. apply jeqb_eq in E2 as ->. by rewrite jeqb_refl in E.
Qed.

Lemma map_get_delete (m : omap_) k k' :
  map_get (map_delete m k) k' = if jeqb k k' then None else map_get m k'.
Proof.
  unfold map_delete. induction m as [|[k0 v0] m IH]; simpl; [by destruct (jeqb k k')|].
  destruct (jeqb k0 k) eqn:E; simpl.
  - apply jeqb_eq in E as ->. rewrite IH. by destruct (jeqb k k').
  - rewrite IH. destruct (jeqb k0 k') eqn:E'; [|done]. apply jeqb_eq in E' as ->.
    destruct (jeqb k k') eqn:E2; [|done]. apply jeqb_eq in E2 as ->. by rewrite jeqb_refl in E.
Qed.

Lemma map_get_elem (m : omap_) k v : map_get m k = Some v → (k, v) ∈ m.
Proof.
  induction m as [|[k0 v0] m IH]; simpl; [done|]. rewrite elem_of_cons.
  destruct (jeqb k0 k) eqn:E; [apply jeqb_eq in E; naive_solver|]. naive_solver.
Qed.

(** Writing or deleting keeps a property of all entries. *)
Lemma map_set_Forall (P : list Z * V → Prop) (m : omap_) k v :
  Forall P m → P (k, v) → Forall P (map_set m k v).
Proof.
  induction 1 as [|[k0 v0] m Hx Hm IH]; simpl; intros Hp; [by repeat constructor|].
  destruct (jeqb k0 k) eqn:E; [apply jeqb_eq in E as ->|]; constructor; auto.
Qed.

Lemma map_delete_Forall (P : list Z * V → Prop) (m : omap_) k :
  Forall P m → Forall P (map_delete m k).
Proof. unfold map_delete. induction 1; simpl; [constructor|]. case_match; [by constructor|done]. Qed.
End ordered_map.
