(* ===== verification/Json.v ===== *)
(** * JSON values and narrowing of [unknown]

    What [JSON.parse] returns and what untyped file and wire contents are
    narrowed from.  [undefined] (a missing property, a missing file) is [None]
    of [option json].  An object is the ordered list of its properties. *)

From S2P Require Import Prelude JsString.
From stdpp Require Export pretty.
From Stdlib Require Import QArith Qround Qcanon.
#[local] Open Scope Z_scope.

(** ** Numbers

    An IEEE double that reached the program through JSON: a finite rational,
    or an infinity ([1e999]).  NaN arises only from arithmetic. *)
Inductive number : Type :=
| Fin (q : Qc)
| PosInf
| NegInf
| NaN.

#[export] Instance number_eq_dec : EqDecision number.
Proof. solve_decision. Defined.

Definition num_of_Z (z : Z) : number := Fin (Q2Qc (inject_Z z)).

(** [Number.isFinite]. *)
Definition isFinite (n : number) : bool :=
  match n with Fin _ => true | _ => false end.

Definition Qc_floor (q : Qc) : Z := Qfloor (this q).

(** [Math.floor] on a finite number. *)
Definition floor (n : number) : number :=
  match n with Fin q => num_of_Z (Qc_floor q) | n => n end.

(** [n > z] for an integer constant. *)
Definition gt_Z (n : number) (z : Z) : bool :=
  match n with
  | Fin q => negb (Qle_bool (this q) (inject_Z z))
  | PosInf => true
  | NegInf | NaN => false
  end.

(** [n >= z] for an integer constant. *)
Definition ge_Z (n : number) (z : Z) : bool :=
  match n with
  | Fin q => Qle_bool (inject_Z z) (this q)
  | PosInf => true
  | NegInf | NaN => false
  end.

(** [Number.isInteger]. *)
Definition isInteger (n : number) : bool :=
  match n with
  | Fin q => Qeq_bool (this q) (inject_Z (Qc_floor q))
  | _ => false
  end.

Lemma floor_ge_Z q z : ge_Z (Fin q) z = true → z <= Qc_floor q.
Proof.
  simpl. rewrite Qle_bool_iff. intros H. unfold Qc_floor.
  rewrite <- (Qfloor_Z z). by apply Qfloor_resp_le.
Qed.

Lemma gt_Z_floor q z : gt_Z (Fin q) z = true → z <= Qc_floor q.
Proof.
  simpl. intros E%negb_true_iff. apply floor_ge_Z. simpl.
  apply Qle_bool_iff, Qlt_le_weak, Qnot_le_lt. rewrite <- Qle_bool_iff. by rewrite E.
Qed.

Lemma Qc_floor_Z z : Qc_floor (Q2Qc (inject_Z z)) = z.
Proof.
  unfold Qc_floor. rewrite <- (Qfloor_Z z) at 2. apply Qfloor_comp. apply Qred_correct.
Qed.

Lemma num_of_Z_inj a b : num_of_Z a = num_of_Z b → a = b.
Proof.
  intros Hn. assert (Q2Qc (inject_Z a) = Q2Qc (inject_Z b)) as Hq by (unfold num_of_Z in Hn; congruence).
  by rewrite <- (Qc_floor_Z a), <- (Qc_floor_Z b), Hq.
Qed.

Lemma gt_Z_int z k : gt_Z (num_of_Z z) k = (k <? z).
Proof.
  unfold gt_Z, num_of_Z. apply eq_true_iff_eq. rewrite negb_true_iff, Z.ltb_lt.
  rewrite <- not_true_iff_false, Qle_bool_iff.
  rewrite <- Z.nle_gt. apply not_iff_compat.
  assert (E : (this (Q2Qc (inject_Z z)) == inject_Z z)%Q) by apply Qred_correct.
  rewrite E. by rewrite <- Zle_Qle.
Qed.

(** ** Values *)

Inductive json : Type :=
| JNull
| JBool (b : bool)
| JNum (n : number)
| JStr (s : list Z)
| JArr (l : list json)
| JObj (o : list (list Z * json)).

(** Property lookup: [rec.key], [None] when absent. *)
Fixpoint prop_of (o : list (list Z * json)) (k : list Z) : option json :=
  match o with
  | [] => None
  | (k', v) :: o' => if jeqb k k' then Some v else prop_of o' k
  end.

(** [v.key] on a value already known to be an object; on the other shapes
    the source's casts read [undefined]. *)
Definition get (v : json) (k : list Z) : option json :=
  match v with JObj o => prop_of o k | _ => None end.

(** [typeof v === 'object' && v !== null] (arrays included). *)
Definition is_object (v : json) : bool :=
  match v with JObj _ | JArr _ => true | _ => false end.

Definition is_array (v : json) : bool :=
  match v with JArr _ => true | _ => false end.

Definition as_string (v : option json) : option (list Z) :=
  match v with Some (JStr s) => Some s | _ => None end.

Definition as_number (v : option json) : option number :=
  match v with Some (JNum n) => Some n | _ => None end.

Definition as_bool (v : option json) : option bool :=
  match v with Some (JBool b) => Some b | _ => None end.

Definition as_array (v : option json) : option (list json) :=
  match v with Some (JArr l) => Some l | _ => None end.

(** [v === 'literal'], [v === true]. *)
Definition is_str (v : option json) (s : list Z) : bool :=
  match v with Some (JStr t) => jeqb t s | _ => false end.

Definition is_true (v : option json) : bool :=
  match v with Some (JBool true) => true | _ => false end.

Lemma is_str_true v s : is_str v s = true ↔ v = Some (JStr s).
Proof.
  destruct v as [[]|]; simpl; try done.
  rewrite jeqb_eq. naive_solver.
Qed.

Lemma is_true_true v : is_true v = true ↔ v = Some (JBool true).
Proof. destruct v as [[| [] | | | |]|]; simpl; naive_solver. Qed.

(** An optional property of an object literal with conditional spread:
    [...(x !== undefined ? { k: x } : {})]. *)
Definition opt_prop {A} (k : list Z) (f : A → json) (x : option A) : list (list Z * json) :=
  match x with Some a => [(k, f a)] | None => [] end.

Lemma prop_of_app a b k : prop_of (a ++ b) k = match prop_of a k with Some v => Some v | None => prop_of b k end.
Proof. induction a as [|[k' v] a IH]; simpl; [done|]. by destruct (jeqb k k'). Qed.

Lemma prop_of_opt {A} k (f : A → json) x k' : prop_of (opt_prop k f x) k' = if jeqb k' k then f <$> x else None.
Proof. destruct x; simpl; by destruct (jeqb k' k). Qed.

(** Decide which property of a literal object a literal key names. *)
Ltac eval_keys :=
  repeat match goal with |- context [jeqb (js ?a) (js ?b)] =>
    let r := eval vm_compute in (jeqb (js a) (js b)) in change (jeqb (js a) (js b)) with r end.

(** ** Text of numbers

    [`${n}`] prints a number; on integers it is the decimal numeral, and
    finite numbers with the same text are equal. *)
Definition dec (z : Z) : list Z := js (pretty z).

Class NumberToString := {
  show_number : number → list Z;
  show_number_int : ∀ z, show_number (num_of_Z z) = dec z;
}.

(** ** Induction over nested values *)

Section json_ind.
Context (P : json → Prop).
Hypothesis Pnull : P JNull.
Hypothesis Pbool : ∀ b, P (JBool b).
Hypothesis Pnum : ∀ n, P (JNum n).
Hypothesis Pstr : ∀ s, P (JStr s).
Hypothesis Parr : ∀ l, Forall P l → P (JArr l).
Hypothesis Pobj : ∀ o, Forall (λ kv, P kv.2) o → P (JObj o).

Fixpoint json_nested_ind (v : json) : P v :=
  match v with
  | JNull => Pnull
  | JBool b => Pbool b
  | JNum n => Pnum n
  | JStr s => Pstr s
  | JArr l => Parr l ((fix go l : Forall P l :=
      match l with [] => List.Forall_nil _ | x :: l' => List.Forall_cons _ _ _ (json_nested_ind x) (go l') end) l)
  | JObj o => Pobj o ((fix go (o : list (list Z * json)) : Forall (λ kv, P kv.2) o :=
      match o with [] => List.Forall_nil _ | kv :: o' => List.Forall_cons _ _ _ (json_nested_ind kv.2) (go o') end) o)
  end.
End json_ind.

(** Every number of the value is finite ([JSON.stringify] prints the others
    as [null]). *)
Fixpoint all_finite (v : json) : bool :=
  match v with
  | JNum n => isFinite n
  | JArr l => forallb all_finite l
  | JObj o => forallb (λ kv, all_finite kv.2) o
  | _ => true
  end.

(** ** JSON text

    [JSON.parse] ([None] when it throws) and [JSON.stringify], with the round
    trip the persistence code relies on. *)
Class JsonText := {
  JSON_parse : list Z → option json;
  JSON_stringify : json → list Z;
  JSON_parse_stringify : ∀ v, all_finite v = true → JSON_parse (JSON_stringify v) = Some v;
}.

(** A concrete text format with the round trip: values are numbered through a
    first-order tree code.  Witnesses evaluate the folds over it. *)
Definition number_code (n : number) : Qc + option bool :=
  match n with
  | Fin q => inl q
  | PosInf => inr (Some true) | NegInf => inr (Some false) | NaN => inr None
  end.
Definition number_decode (c : Qc + option bool) : number :=
  match c with
  | inl q => Fin q
  | inr (Some b) => if b then PosInf else NegInf
  | inr None => NaN
  end.

#[export] Instance number_countable : Countable number.
Proof. apply (inj_countable' number_code number_decode). by intros []. Defined.

Fixpoint json_tree (v : json) : gen_tree (bool + (number + list Z)) :=
  match v with
  | JNull => GenNode 0 []
  | JBool b => GenLeaf (inl b)
  | JNum n => GenLeaf (inr (inl n))
  | JStr s => GenLeaf (inr (inr s))
  | JArr l => GenNode 1 (map json_tree l)
  | JObj o => GenNode 2 (map (λ kv, GenNode 3 [GenLeaf (inr (inr kv.1)); json_tree kv.2]) o)
  end.

Fixpoint tree_json (t : gen_tree (bool + (number + list Z))) : json :=
  match t with
  | GenLeaf (inl b) => JBool b
  | GenLeaf (inr (inl n)) => JNum n
  | GenLeaf (inr (inr s)) => JStr s
  | GenNode 1 l => JArr (map tree_json l)
  | GenNode 2 l => JObj (map (λ t, match t with
                                   | GenNode 3 [GenLeaf (inr (inr k)); v] => (k, tree_json v)
                                   | _ => ([], JNull)
                                   end) l)
  | GenNode _ _ => JNull
  end.

Lemma tree_json_tree v : tree_json (json_tree v) = v.
Proof.
  induction v as [| | | |l IH|o IH] using json_nested_ind; simpl; try done; f_equal; rewrite map_map.
  - induction IH as [|x l Hx _ IH]; simpl; [done|]. by rewrite Hx, IH.
  - induction IH as [|[k x] o Hx _ IH]; simpl; [done|]. simpl in Hx. by rewrite Hx, IH.
Qed.

#[export] Instance json_eq_dec : EqDecision json.
Proof.
  refine (λ x y, cast_if (decide (json_tree x = json_tree y))); [|congruence].
  by rewrite <- (tree_json_tree x), <- (tree_json_tree y), e.
Defined.

#[export] Instance json_countable : Countable json.
Proof. apply (inj_countable' json_tree tree_json). apply tree_json_tree. Defined.

Definition CodedJson : JsonText.
Proof.
  refine {| JSON_parse := λ s, match s with [Zpos p] => decode p | _ => None end;
            JSON_stringify := λ v, [Zpos (encode v)] |}.
  intros v _. apply decode_encode.
Defined.

(** [a || b] on strings. *)
Definition or_str (a b : list Z) : list Z := if jeqb a [] then b else a.

(** [...(s === '' ? {} : { k: s })]. *)
Definition non_empty (s : list Z) : option (list Z) := if jeqb s [] then None else Some s.

Lemma non_empty_Some s t : non_empty s = Some t ↔ s = t ∧ t ≠ [].
Proof.
  unfold non_empty. destruct (jeqb s []) eqn:E.
  - apply jeqb_eq in E as ->. naive_solver.
  - apply jeqb_neq in E. naive_solver.
Qed.

(** ** Objects used as maps

    [Record<string, V>] is a finite map; enumeration order is not observed.
    (Property names inherited from [Object.prototype] are not modelled: ids,
    fingerprints and names are ordinary keys.) *)

(** [Object.entries(v)] (array elements and string units under their index). *)
Definition entries (v : json) : list (list Z * json) :=
  match v with
  | JObj o => o
  | JArr l => imap (λ i x, (dec (Z.of_nat i), x)) l
  | JStr s => imap (λ i c, (dec (Z.of_nat i), JStr [c])) s
  | _ => []
  end.

(** The object with the entries of a map. *)
Definition obj_of_map {V} (f : V → json) (m : gmap (list Z) V) : json :=
  JObj (map (λ kv, (kv.1, f kv.2)) (map_to_list m)).

(** [for (const [k, v] of entries) { const x = f(k, v); if (x !== undefined) map[k] = x }]. *)
Definition read_entries {V} (f : list Z → json → option V) (o : list (list Z * json)) : gmap (list Z) V :=
  fold_left (λ m kv, match f kv.1 kv.2 with Some x => <[kv.1 := x]> m | None => m end) o ∅.

Section map_codec.
Context {V : Type} (enc : V → json) (dec_ : list Z → json → option V).

Lemma read_entries_from (o : list (list Z * json)) (m : gmap (list Z) V) (k : list Z) :
  NoDup o.*1 →
  fold_left (λ m kv, match dec_ kv.1 kv.2 with Some x => <[kv.1 := x]> m | None => m end) o m !! k =
  match prop_of o k with
  | Some v => match dec_ k v with Some x => Some x | None => m !! k end
  | None => m !! k
  end.
Proof.
  revert m. induction o as [|[k' v] o IH]; intros m; simpl; [done|].
  intros [Hk Hnd]%NoDup_cons. rewrite IH by done.
  destruct (jeqb k k') eqn:E.
  - apply jeqb_eq in E as <-. assert (prop_of o k = None) as ->.
    { clear IH Hnd. induction o as [|[k2 v2] o IHo]; simpl in *; [done|].
      destruct (jeqb k k2) eqn:E2; [apply jeqb_eq in E2; set_solver|]. apply IHo. set_solver. }
    destruct (dec_ k v); simpl; [by rewrite lookup_insert_eq|done].
  - apply jeqb_neq in E. destruct (dec_ k' v); [|done]. rewrite lookup_insert_ne by done. done.
Qed.

(** What an object with distinct keys is read as, key by key. *)
Lemma lookup_read_entries (o : list (list Z * json)) k :
  NoDup o.*1 → read_entries dec_ o !! k = prop_of o k ≫= dec_ k.
Proof.
  intros Hnd. unfold read_entries. rewrite read_entries_from by done. rewrite lookup_empty.
  destruct (prop_of o k); simpl; [|done]. by destruct (dec_ k j).
Qed.

Lemma prop_of_elem (o : list (list Z * json)) k v : NoDup o.*1 → prop_of o k = Some v ↔ (k, v) ∈ o.
Proof.
  induction o as [|[k' v'] o IH]; simpl; [set_solver|].
  intros [Hk Hnd]%NoDup_cons. rewrite elem_of_cons.
  destruct (jeqb k k') eqn:E.
  - apply jeqb_eq in E as <-. split; [naive_solver|]. intros [[= ->]|Hin]; [done|].
    exfalso. apply Hk. apply list_elem_of_fmap. by exists (k, v).
  - apply jeqb_neq in E. rewrite IH by done. naive_solver.
Qed.

Lemma obj_of_map_keys (m : gmap (list Z) V) :
  (map (λ kv, (kv.1, enc kv.2)) (map_to_list m)).*1 = (map_to_list m).*1.
Proof. change (((λ kv, (kv.1, enc kv.2)) <$> map_to_list m).*1 = (map_to_list m).*1). rewrite <- list_fmap_compose. by apply list_fmap_ext. Qed.

Lemma prop_of_map (m : gmap (list Z) V) k :
  prop_of (map (λ kv, (kv.1, enc kv.2)) (map_to_list m)) k = enc <$> m !! k.
Proof.
  apply option_eq. intros v. rewrite prop_of_elem; [|rewrite obj_of_map_keys; apply NoDup_fst_map_to_list].
  rewrite fmap_Some. change (map ?f ?l) with (f <$> l). rewrite list_elem_of_fmap. split.
  - intros ([k' x] & [= -> ->] & Hin%elem_of_map_to_list). eauto.
  - intros (x & Hx & ->). exists (k, x). split; [done|]. by apply elem_of_map_to_list.
Qed.

Lemma lookup_read_obj_of_map (m : gmap (list Z) V) k :
  read_entries dec_ (entries (obj_of_map enc m)) !! k = m !! k ≫= λ x, dec_ k (enc x).
Proof.
  simpl. rewrite lookup_read_entries; [|rewrite obj_of_map_keys; apply NoDup_fst_map_to_list].
  rewrite prop_of_map. by destruct (m !! k).
Qed.

(** Reading back a written map: what each entry decodes to decides. *)
Lemma read_obj_of_map (m : gmap (list Z) V) :
  (∀ k x, m !! k = Some x → dec_ k (enc x) = Some x) →
  read_entries dec_ (entries (obj_of_map enc m)) = m.
Proof.
  intros Hrt. apply map_eq. intros k. rewrite lookup_read_obj_of_map.
  destruct (m !! k) as [x|] eqn:E; simpl; [by apply Hrt|done].
Qed.
End map_codec.

Lemma read_entries_all {V} (f : list Z → json → option V) o (P : list Z → V → Prop) :
  (∀ k v x, f k v = Some x → P k x) → map_Forall P (read_entries f o).
Proof.
  intros HP. unfold read_entries.
  assert (map_Forall P (∅ : gmap (list Z) V)) as Hm by apply map_Forall_empty.
  revert Hm. generalize (∅ : gmap (list Z) V) as m.
  induction o as [|[k v] o IH]; intros m Hm; simpl; [done|].
  apply IH. destruct (f k v) eqn:E; [|done]. apply map_Forall_insert_2; eauto.
Qed.
