(* ===== verification/Policy.v ===== *)
(** * Reply policy (policy.ts)

    The pure decisions of the alter: reply tiers, routing of inbound mail, the
    send gates for friends and groups, mention detection, group wake rules, the
    mechanical caps, and the sliding-window counter [HourlyWindow].

    Timestamps, counters and limits are integers ([Z]); the source's numbers
    stay far below 2^53, where doubles are exact. *)

From S2P Require Import Prelude JsString Json.
#[local] Open Scope Z_scope.

(** ** Tiers *)

Inductive ReplyTier := Notify | Draft | Auto.
#[export] Instance ReplyTier_eq_dec : EqDecision ReplyTier.
Proof. solve_decision. Defined.

Definition DEFAULT_REPLY_TIER : ReplyTier := Draft.
Definition DEFAULT_AUTO_REPLY_PER_HOUR : Z := 20.

(** The string an enum constant is in the source. *)
Definition tier_str (t : ReplyTier) : list Z :=
  match t with Notify => js "notify" | Draft => js "draft" | Auto => js "auto" end.

(** [isReplyTier(value) ? value : undefined]: the type guard and the narrowed value. *)
Definition tier_of (value : option json) : option ReplyTier :=
  if is_str value (js "notify") then Some Notify
  else if is_str value (js "draft") then Some Draft
  else if is_str value (js "auto") then Some Auto
  else None.

Definition isReplyTier (value : option json) : bool :=
  is_str value (js "notify") || is_str value (js "draft") || is_str value (js "auto").

Definition normalizeTier (value : option json) (fallback : ReplyTier) : ReplyTier :=
  tier_of value ?? fallback.

(** ** Triggers *)

Inductive TriggerKind := Owner | Inbound | InboundAuto | Group | Unknown.
#[export] Instance TriggerKind_eq_dec : EqDecision TriggerKind.
Proof. solve_decision. Defined.

Record TurnTrigger := mkTrigger {
  tr_kind : TriggerKind;
  tr_fp : option (list Z);
  tr_name : option (list Z);
  tr_messageId : option (list Z);
  tr_gid : option (list Z);
}.
#[export] Instance TurnTrigger_eq_dec : EqDecision TurnTrigger.
Proof. solve_decision. Defined.

Definition trigger_kind (k : TriggerKind) : TurnTrigger := mkTrigger k None None None None.
Definition UNKNOWN_TRIGGER : TurnTrigger := trigger_kind Unknown.

(** ** Routing inbound mail *)

Inductive RouteAction := wake_turn | append_only.
Inductive RouteReason := tier_notify | loop_guard_auto | not_a_friend.
Record InboundRoute := mkRoute { rt_action : RouteAction; rt_reason : option RouteReason }.

Record RouteInboundInput := mkRouteInput {
  ri_tier : ReplyTier; ri_auto : bool; ri_isFriend : bool }.

Definition routeInbound (i : RouteInboundInput) : InboundRoute :=
  if negb (ri_isFriend i) then mkRoute append_only (Some not_a_friend)
  else if ri_auto i then mkRoute append_only (Some loop_guard_auto)
  else match ri_tier i with
  | Notify => mkRoute append_only (Some tier_notify)
  | _ => mkRoute wake_turn None
  end.

(** ** The friend send gate *)

Inductive AllowReason := owner_initiated | auto_tier.
Inductive DraftGateReason :=
| dr_draft_tier | dr_notify_tier | dr_rate_limited | dr_loop_guard_auto
| dr_unknown_trigger | dr_other_friend | dr_group_trigger.

Inductive SendDecision :=
| SendAllow (auto_flag : bool) (reason : AllowReason)
| SendDraft (reason : DraftGateReason).

Record SendGateInput := mkSendGate {
  sg_trigger : TurnTrigger;
  sg_target : list Z;
  sg_tier : ReplyTier;
  sg_autoSentInWindow : Z;
  sg_limit : Z;
}.

Definition sendGate (i : SendGateInput) : SendDecision :=
  match tr_kind (sg_trigger i) with
  | Owner => SendAllow false owner_initiated
  | InboundAuto => SendDraft dr_loop_guard_auto
  | Inbound =>
      if match tr_fp (sg_trigger i) with
         | Some f => negb (jeqb f (sg_target i))
         | None => false
         end
      then SendDraft dr_other_friend
      else match sg_tier i with
      | Auto =>
          if (0 <? sg_limit i) && (sg_autoSentInWindow i <? sg_limit i)
          then SendAllow true auto_tier
          else SendDraft dr_rate_limited
      | Draft => SendDraft dr_draft_tier
      | Notify => SendDraft dr_notify_tier
      end
  | Group => SendDraft dr_group_trigger
  | Unknown => SendDraft dr_unknown_trigger
  end.

(** ** HourlyWindow *)

Definition HOUR_MS : Z := 3600000.

Record HourlyWindow := mkWindow { windowMs : Z; hits : gmap (list Z) (list Z) }.

Definition newWindow (w : Z) : HourlyWindow := mkWindow w ∅.

(** Timestamps of [key] still inside the window at [now]. *)
Definition live (w now : Z) (l : list Z) : list Z := filterb (λ ts, now - ts <? w) l.

(** [prune] also writes the pruned list back (or drops the key). *)
Definition prune (h : HourlyWindow) (key : list Z) (now : Z) : list Z * HourlyWindow :=
  let l := live (windowMs h) now (hits h !! key ?? []) in
  (l, mkWindow (windowMs h)
        (match l with [] => delete key (hits h) | _ => <[key := l]> (hits h) end)).

Definition count (h : HourlyWindow) (key : list Z) (now : Z) : Z * HourlyWindow :=
  let '(l, h') := prune h key now in (Z.of_nat (length l), h').

Definition record (h : HourlyWindow) (key : list Z) (now : Z) : Z * HourlyWindow :=
  let '(l, h') := prune h key now in
  let l' := l ++ [now] in
  (Z.of_nat (length l'), mkWindow (windowMs h') (<[key := l']> (hits h'))).

Definition retryAfter (h : HourlyWindow) (key : list Z) (now : Z) : Z * HourlyWindow :=
  let '(l, h') := prune h key now in
  match l with
  | [] => (0, h')
  | t :: _ => (Z.max 0 (t + windowMs h' - now), h')
  end.

(** ** Group wake policies *)

Inductive GroupAgentWake := wk_mention | wk_always | wk_never.
#[export] Instance GroupAgentWake_eq_dec : EqDecision GroupAgentWake.
Proof. solve_decision. Defined.

Definition wake_str (w : GroupAgentWake) : list Z :=
  match w with wk_mention => js "mention" | wk_always => js "always" | wk_never => js "never" end.

Definition wake_of (value : option json) : option GroupAgentWake :=
  if is_str value (js "mention") then Some wk_mention
  else if is_str value (js "always") then Some wk_always
  else if is_str value (js "never") then Some wk_never
  else None.

Definition normalizeGroupWake (value : option json) (fallback : GroupAgentWake) : GroupAgentWake :=
  wake_of value ?? fallback.

(** ** Mentions *)

(** [/[a-z0-9_]/.test(ch)] of one code unit; [undefined] is no word character. *)
Definition isAsciiWordChar (ch : option Z) : bool :=
  match ch with
  | Some c => is_lower c || is_digit c || (c =? 95)
  | None => false
  end.

(** The loop over successive occurrences: [at] is the current one.  Each
    iteration moves at least one unit to the right, so [length body] steps
    visit every occurrence. *)
Fixpoint mention_loop (fuel : nat) (body token : list Z) (needsBoundary : bool) (at_ : option nat) : bool :=
  match fuel, at_ with
  | _, None => false
  | O, _ => false
  | S fuel', Some i =>
      if negb needsBoundary || negb (isAsciiWordChar (body !! (i + length token)%nat)) then true
      else mention_loop fuel' body token needsBoundary (indexOf body token (i + 1))
  end.

Definition hasMentionToken (lowerBody lowerName : list Z) : bool :=
  let token := 64 :: lowerName in
  let needsBoundary := isAsciiWordChar (last lowerName) in
  mention_loop (S (length lowerBody)) lowerBody token needsBoundary (indexOf lowerBody token 0).

Section mentions.
Context `{LowerCase}.

Definition mentionsMe (body nm : list Z) : bool :=
  let lower := toLowerCase body in
  if hasMentionToken lower (js "all") then true
  else
    let n := toLowerCase (trim nm) in
    if jeqb n [] then false else hasMentionToken lower n.

Definition mentionsAgent (body nm : list Z) : bool :=
  let n := toLowerCase (trim nm) in
  if jeqb n [] then false else hasMentionToken (toLowerCase body) n.
End mentions.

(** ** Waking for a group message *)

Inductive NoWakeReason :=
| nw_self | nw_agents_muted | nw_alter_disabled | nw_wake_never
| nw_not_mentioned | nw_voice_disabled | nw_not_commander.

Record GroupWakeRoute := mkWake { wk_wake : bool; wk_reason : option NoWakeReason }.

Inductive MyMode := my_mention | my_always.
#[export] Instance MyMode_eq_dec : EqDecision MyMode.
Proof. solve_decision. Defined.

Record GroupWakeInput := mkGroupWake {
  gw_speakAgents : bool; gw_enabled : bool; gw_fromSelf : bool;
  gw_wake : GroupAgentWake; gw_myMode : option MyMode; gw_mentioned : bool }.

Record AgentWakeInput := mkAgentWake {
  aw_speakAgents : bool; aw_enabled : bool; aw_fromSelf : bool;
  aw_wake : GroupAgentWake; aw_duty : bool; aw_mentioned : bool; aw_commander : bool }.

Definition no_wake (r : NoWakeReason) : GroupWakeRoute := mkWake false (Some r).
Definition do_wake : GroupWakeRoute := mkWake true None.

(** The [switch (effective)] both wake functions end with. *)
Definition wake_switch (effective : GroupAgentWake) (mentioned : bool) : GroupWakeRoute :=
  match effective with
  | wk_never => no_wake nw_wake_never
  | wk_always => do_wake
  | wk_mention => if mentioned then do_wake else no_wake nw_not_mentioned
  end.

Definition wakeAgentForGroup (i : AgentWakeInput) : GroupWakeRoute :=
  if aw_fromSelf i then no_wake nw_self
  else if negb (aw_speakAgents i) then no_wake nw_agents_muted
  else if negb (aw_enabled i) then no_wake nw_voice_disabled
  else if negb (aw_commander i) then no_wake nw_not_commander
  else
    let effective := match aw_wake i with
                     | wk_always => if negb (aw_duty i) then wk_mention else wk_always
                     | w => w
                     end in
    wake_switch effective (aw_mentioned i).

Definition wakeForGroup (i : GroupWakeInput) : GroupWakeRoute :=
  if gw_fromSelf i then no_wake nw_self
  else if negb (gw_speakAgents i) then no_wake nw_agents_muted
  else if negb (gw_enabled i) then no_wake nw_alter_disabled
  else
    let effective := match gw_wake i, gw_myMode i ?? my_mention with
                     | wk_always, my_mention => wk_mention
                     | w, _ => w
                     end in
    wake_switch effective (gw_mentioned i).

(** ** Mechanical caps over the group archive *)

Inductive Dir := dir_in | dir_out.
#[export] Instance Dir_eq_dec : EqDecision Dir.
Proof. solve_decision. Defined.

Record GroupCapEntry := mkCap {
  cap_dir : Dir; cap_ts : Z; cap_auto : option bool; cap_by : option (list Z) }.

Definition by_alter (e : GroupCapEntry) : bool :=
  match cap_by e with Some b => jeqb b (js "alter") | None => false end.

(** The condition of the [for] loop of [countAutoInWindow]. *)
Definition counts_auto (now w : Z) (e : GroupCapEntry) : bool :=
  bool_decide (cap_dir e = dir_out) && bool_decide (cap_auto e = Some true)
  && by_alter e && (now - cap_ts e <? w) && (0 <=? now - cap_ts e).

Definition countAutoInWindow (entries : list GroupCapEntry) (now w : Z) : Z :=
  fold_left (λ c e, if counts_auto now w e then c + 1 else c) entries 0.

(** The backwards loop, over the reversed archive. *)
Fixpoint rounds_loop (rev_entries : list GroupCapEntry) (rounds streak : Z) : bool :=
  match rev_entries with
  | [] => false
  | e :: rest =>
      if negb (by_alter e) then false
      else if rounds <=? streak + 1 then true
      else rounds_loop rest rounds (streak + 1)
  end.

Definition agentRoundsExceeded (entries : list GroupCapEntry) (rounds : Z) : bool :=
  if rounds <=? 0 then false else rounds_loop (reverse entries) rounds 0.

Definition effectiveAgentTier (tier : ReplyTier) (approval : bool) : ReplyTier :=
  if negb approval && bool_decide (tier = Draft) then Auto else tier.

(** ** The group send gate *)

Inductive GroupDraftReason :=
| gd_draft_tier | gd_rate_limited | gd_agent_rounds | gd_other_group | gd_unknown_trigger.
Inductive GroupRefuseReason := gr_agents_muted | gr_notify_tier.

Inductive GroupSendDecision :=
| GroupAllow (auto_flag : bool) (reason : AllowReason)
| GroupDraft (reason : GroupDraftReason)
| GroupRefuse (reason : GroupRefuseReason).

Record GroupSendGateInput := mkGroupGate {
  gg_trigger : TurnTrigger;
  gg_gid : list Z;
  gg_fromOwner : option bool;
  gg_speakAgents : bool;
  gg_tier : ReplyTier;
  gg_autoSentInWindow : Z;
  gg_autoPerHour : Z;
  gg_roundsExceeded : bool;
  gg_mentioned : bool;
}.

Definition groupSendGate (i : GroupSendGateInput) : GroupSendDecision :=
  if negb (gg_speakAgents i) then GroupRefuse gr_agents_muted
  else match tr_kind (gg_trigger i) with
  | Owner => GroupAllow false owner_initiated
  | Group =>
      if negb (bool_decide (tr_gid (gg_trigger i) = Some (gg_gid i))) then GroupDraft gd_other_group
      else if bool_decide (gg_fromOwner i = Some true) then GroupAllow false owner_initiated
      else match gg_tier i with
      | Notify => GroupRefuse gr_notify_tier
      | Draft => GroupDraft gd_draft_tier
      | Auto =>
          if (gg_autoPerHour i <=? 0) || (gg_autoPerHour i <=? gg_autoSentInWindow i)
          then GroupDraft gd_rate_limited
          else if gg_roundsExceeded i && negb (gg_mentioned i) then GroupDraft gd_agent_rounds
          else GroupAllow true auto_tier
      end
  | Inbound | InboundAuto => GroupDraft gd_other_group
  | Unknown => GroupDraft gd_unknown_trigger
  end.

(** * Theorems *)

(** ** Narrowing *)

Lemma tier_of_str t : tier_of (Some (JStr (tier_str t))) = Some t.
Proof. by destruct t. Qed.

Lemma tier_of_Some v t : tier_of v = Some t ↔ v = Some (JStr (tier_str t)).
Proof.
  split; [|intros ->; apply tier_of_str]. unfold tier_of.
  repeat case_match; intros; simplify_eq; by apply is_str_true.
Qed.

Lemma isReplyTier_tier_of v : isReplyTier v = true ↔ is_Some (tier_of v).
Proof.
  unfold isReplyTier, tier_of.
  destruct (is_str v (js "notify")), (is_str v (js "draft")), (is_str v (js "auto")); simpl;
    split; intros; try done; by eexists.
Qed.

Lemma wake_of_str w : wake_of (Some (JStr (wake_str w))) = Some w.
Proof. by destruct w. Qed.

Lemma wake_of_Some v w : wake_of v = Some w ↔ v = Some (JStr (wake_str w)).
Proof.
  split; [|intros ->; apply wake_of_str]. unfold wake_of.
  repeat case_match; intros; simplify_eq; by apply is_str_true.
Qed.

#[export] Hint Rewrite tier_of_str wake_of_str : dsh_rw.

(** ** Mentions *)

(** The token occurs at [i] and what follows does not extend its last word. *)
Definition mention_at (body token : list Z) (nb : bool) (i : nat) : Prop :=
  occurs_at body token i ∧
  (nb = true → isAsciiWordChar (body !! (i + length token)%nat) = false).

Lemma mention_loop_spec fuel body token nb from :
  token ≠ [] → (from ≤ length body)%nat → (length body - from < fuel)%nat →
  mention_loop fuel body token nb (indexOf body token from) = true ↔
  ∃ k, (from ≤ k)%nat ∧ mention_at body token nb k.
Proof.
  intros Htok. revert from. induction fuel as [|fuel IH]; intros from Hle Hf; [lia|].
  destruct (indexOf body token from) as [i|] eqn:E.
  - apply indexOf_Some in E as (Hi & Ho & Hmin); [|done]. simpl.
    assert ((i + 1 ≤ length body)%nat) as Hlen.
    { apply occurs_at_length in Ho. destruct token; [done|]. simpl in Ho. lia. }
    destruct (negb nb || negb (isAsciiWordChar (body !! (i + length token)%nat))) eqn:Ok.
    + split; [intros _|done]. exists i. split; [done|]. split; [done|].
      intros ->. simpl in Ok. by apply negb_true_iff in Ok.
    + bools. subst. rewrite IH by lia. split; intros (k & Hk & Ho' & Hb).
      * exists k. split; [lia|done].
      * exists k. split; [|done]. destruct (decide (k < i)%nat) as [Hlt|].
        { by destruct (Hmin k). }
        destruct (decide (k = i)) as [->|]; [|lia]. rewrite Hb in H0; done.
  - rewrite indexOf_None in E by done. simpl. split; [done|].
    intros (k & Hk & Ho & _). by apply E in Ho.
Qed.

Lemma hasMentionToken_iff body nm :
  hasMentionToken body nm = true ↔
  ∃ p r, body = p ++ (64 :: nm) ++ r ∧
         (isAsciiWordChar (last nm) = true → isAsciiWordChar (head r) = false).
Proof.
  unfold hasMentionToken. rewrite mention_loop_spec by (done || lia). split.
  - intros (k & _ & (p & r & -> & <-) & Hb). exists p, r. split; [done|].
    intros Hn. apply Hb in Hn. by rewrite lookup_after in Hn.
  - intros (p & r & -> & Hb). exists (length p). split; [lia|]. split; [by exists p, r|].
    intros Hn. apply Hb in Hn. by rewrite lookup_after.
Qed.

(** A body mentions the alter exactly when, after lower-casing, some
    occurrence of [@all] or of [@<trimmed name>] (non-empty name) is not
    continued by an ASCII word character (unless the token ends in a
    non-word character, which matches bare): the scan over successive
    occurrences with restart at [at + 1] misses none and terminates. *)
Theorem mentionsMe_spec `{LowerCase} (body nm : list Z) :
  mentionsMe body nm = true ↔
  ∃ tok p r,
    (tok = js "all" ∨ (tok = toLowerCase (trim nm) ∧ tok ≠ [])) ∧
    toLowerCase body = p ++ (64 :: tok) ++ r ∧
    (isAsciiWordChar (last tok) = true → isAsciiWordChar (head r) = false).
Proof.
  unfold mentionsMe. destruct (hasMentionToken (toLowerCase body) (js "all")) eqn:Ea.
  { split; [intros _|done]. apply hasMentionToken_iff in Ea as (p & r & ?). exists (js "all"), p, r. naive_solver. }
  rewrite <- not_true_iff_false, hasMentionToken_iff in Ea.
  case_match eqn:En.
  - apply jeqb_eq in En. split; [done|]. intros (tok & p & r & Ht & Hrest). naive_solver.
  - apply jeqb_neq in En. rewrite hasMentionToken_iff. naive_solver.
Qed.

Lemma mentionsMe_spec_witness :
  @mentionsMe AsciiLowerCase (js "hi @Anne, @ANN?") (js " Ann ") = true ∧
  @mentionsMe AsciiLowerCase (js "hi @Anne") (js "Ann") = false.
Proof.
  split; [|reflexivity].
  apply (@mentionsMe_spec AsciiLowerCase). exists (js "ann"), (js "hi @anne, "), (js "?").
  split; [right; by split|]. split; [reflexivity|done].
Defined.

(** ** HourlyWindow against its abstract log *)

(** One call on the window, at the clock reading it is made. *)
Inductive WindowOp := OpCount (key : list Z) | OpRecord (key : list Z) | OpRetryAfter (key : list Z).

Definition window_op (h : HourlyWindow) (op : WindowOp) (now : Z) : Z * HourlyWindow :=
  match op with
  | OpCount k => count h k now
  | OpRecord k => record h k now
  | OpRetryAfter k => retryAfter h k now
  end.

Fixpoint window_run (h : HourlyWindow) (ops : list (WindowOp * Z)) : list Z :=
  match ops with
  | [] => []
  | (op, now) :: rest => let '(out, h') := window_op h op now in out :: window_run h' rest
  end.

(** The specification: nothing is ever dropped from the log of hits; every
    answer is computed from the hits of the last [w] milliseconds. *)
Definition hits_of (log : list (list Z * Z)) (key : list Z) : list Z :=
  map snd (filterb (λ e, jeqb e.1 key) log).

Definition log_op (w : Z) (log : list (list Z * Z)) (op : WindowOp) (now : Z) : Z * list (list Z * Z) :=
  match op with
  | OpCount k => (Z.of_nat (length (live w now (hits_of log k))), log)
  | OpRecord k => (Z.of_nat (length (live w now (hits_of log k))) + 1, log ++ [(k, now)])
  | OpRetryAfter k =>
      (match live w now (hits_of log k) with [] => 0 | t :: _ => Z.max 0 (t + w - now) end, log)
  end.

Fixpoint log_run (w : Z) (log : list (list Z * Z)) (ops : list (WindowOp * Z)) : list Z :=
  match ops with
  | [] => []
  | (op, now) :: rest => let '(out, log') := log_op w log op now in out :: log_run w log' rest
  end.

(** The clock never goes back during the run (from [t0] on). *)
Fixpoint clock_from (t0 : Z) (ops : list (WindowOp * Z)) : Prop :=
  match ops with
  | [] => True
  | (_, now) :: rest => t0 <= now ∧ clock_from now rest
  end.

(** The window represents the log as seen from time [t] on. *)
Definition window_rel (h : HourlyWindow) (log : list (list Z * Z)) (t : Z) : Prop :=
  ∀ k now, t <= now → live (windowMs h) now (hits h !! k ?? []) = live (windowMs h) now (hits_of log k).

Lemma live_live w now now' l : now <= now' → live w now' (live w now l) = live w now' l.
Proof. intros Hle. apply filterb_idem. intros ts Hts. bools. apply Z.ltb_lt. lia. Qed.

Lemma live_app w now l l' : live w now (l ++ l') = live w now l ++ live w now l'.
Proof. apply filterb_app. Qed.

Lemma hits_of_snoc log k key now :
  hits_of (log ++ [(key, now)]) k = hits_of log k ++ (if jeqb key k then [now] else []).
Proof. unfold hits_of. rewrite filterb_app, map_app. simpl. by destruct (jeqb key k). Qed.

Lemma prune_lookup h key now k l h' :
  prune h key now = (l, h') →
  windowMs h' = windowMs h ∧ l = live (windowMs h) now (hits h !! key ?? []) ∧
  hits h' !! k ?? [] = if decide (key = k) then l else hits h !! k ?? [].
Proof.
  unfold prune. intros [= <- <-]. split_and!; [done..|]. simpl.
  set (l := live _ _ _). clearbody l.
  destruct l as [|t l]; case_decide as Hk; subst;
    rewrite ?lookup_delete_eq, ?lookup_insert_eq, ?lookup_delete_ne, ?lookup_insert_ne; done.
Qed.

Lemma prune_rel h key now t log l h' :
  window_rel h log t → t <= now → prune h key now = (l, h') →
  windowMs h' = windowMs h ∧ l = live (windowMs h) now (hits_of log key) ∧ window_rel h' log now.
Proof.
  intros Hrel Hle Hp. pose proof Hp as Hp'.
  apply (prune_lookup _ _ _ key) in Hp as (Hw & Hl & _).
  split_and!; [done| |].
  - by rewrite Hl, Hrel.
  - intros k now' Hle'. destruct (prune_lookup _ _ _ k _ _ Hp') as (_ & _ & Hk). rewrite Hk, Hw.
    case_decide; subst; [rewrite live_live by done|]; apply Hrel; lia.
Qed.

Lemma window_op_rel h log t op now out h' :
  window_rel h log t → t <= now → window_op h op now = (out, h') →
  windowMs h' = windowMs h ∧ ∃ log', log_op (windowMs h) log op now = (out, log') ∧ window_rel h' log' now.
Proof.
  intros Hrel Hle. destruct op as [k|k|k]; simpl; unfold count, record, retryAfter;
    destruct (prune h k now) as [l h0] eqn:Hp;
    pose proof (prune_rel _ _ _ _ _ _ _ Hrel Hle Hp) as (Hw & Hl & Hrel').
  - intros [= <- <-]. split; [done|]. exists log. by rewrite Hl.
  - intros [= <- <-]. split; [done|]. eexists. split.
    + rewrite Hl, length_app. simpl. f_equal. lia.
    + intros k' now' Hle'. simpl. rewrite hits_of_snoc, live_app, <- (Hrel' k' now') by done.
      destruct (jeqb k k') eqn:E.
      * apply jeqb_eq in E as ->. rewrite lookup_insert_eq. simpl. rewrite live_app. f_equal.
        apply (prune_lookup _ _ _ k') in Hp as (_ & _ & Hk). rewrite decide_True in Hk by done.
        by rewrite Hk.
      * apply jeqb_neq in E. rewrite lookup_insert_ne by done. simpl. by rewrite app_nil_r.
  - rewrite <- Hl. destruct l as [|t0 l]; intros [= <- <-]; (split; [done|]); exists log; by rewrite ?Hw.
Qed.

Lemma window_run_log h log t ops :
  window_rel h log t → clock_from t ops → window_run h ops = log_run (windowMs h) log ops.
Proof.
  revert h log t. induction ops as [|[op now] ops IH]; intros h log t Hrel; simpl; [done|].
  intros [Hle Hc]. destruct (window_op h op now) as [out h'] eqn:E.
  destruct (window_op_rel _ _ _ _ _ _ _ Hrel Hle E) as (Hw & log' & -> & Hrel').
  f_equal. rewrite <- Hw. by apply (IH _ _ now).
Qed.

(** C21. Functional refinement of the sliding-window counter: for every
    sequence of [count]/[record]/[retryAfter] calls at a non-decreasing clock,
    the pruning implementation returns exactly what a log that keeps every hit
    forever returns. *)
Theorem HourlyWindow_refines_log (w t : Z) (ops : list (WindowOp * Z)) (Hclock : clock_from t ops) :
  window_run (newWindow w) ops = log_run w [] ops.
Proof. apply (window_run_log (newWindow w) [] t); [|done]. intros k now _. simpl. by rewrite lookup_empty. Qed.

Lemma HourlyWindow_refines_log_witness :
  let ops := [(OpRecord (js "a"), 0); (OpRecord (js "b"), 5); (OpCount (js "a"), 9);
              (OpRecord (js "a"), 12); (OpRetryAfter (js "a"), 15)] in
  clock_from 0 ops ∧ window_run (newWindow 10) ops = [1; 1; 1; 1; 7].
Proof.
  split; [simpl; lia|].
  rewrite (HourlyWindow_refines_log 10 0) by (simpl; lia). vm_compute. reflexivity.
Defined.

(** ** The gates *)

(** The friend gate lets the alter send unattended exactly when the owner
    started the turn, or mail from the target friend (or unattributed mail)
    woke it in the [auto] tier with room under a positive hourly limit; only
    the latter is flagged automatic. *)
Theorem sendGate_allow_iff (i : SendGateInput) (flag : bool) (r : AllowReason) :
  sendGate i = SendAllow flag r ↔
  (tr_kind (sg_trigger i) = Owner ∧ flag = false ∧ r = owner_initiated) ∨
  (tr_kind (sg_trigger i) = Inbound ∧ flag = true ∧ r = auto_tier ∧
   (∀ f, tr_fp (sg_trigger i) = Some f → f = sg_target i) ∧
   sg_tier i = Auto ∧ 0 < sg_limit i ∧ sg_autoSentInWindow i < sg_limit i).
Proof.
  destruct i as [[k f n m g] tgt tier sent lim]. unfold sendGate; simpl.
  destruct k; simpl; try naive_solver.
  assert ((if match f with Some f0 => negb (jeqb f0 tgt) | None => false end then false else true) = true
          ↔ ∀ f0, f = Some f0 → f0 = tgt) as Hf.
  { destruct f as [f0|]; simpl; [|naive_solver].
    destruct (jeqb f0 tgt) eqn:E; [apply jeqb_eq in E|apply jeqb_neq in E]; naive_solver. }
  destruct (match f with Some f0 => negb (jeqb f0 tgt) | None => false end); [naive_solver|].
  destruct tier; [naive_solver..|].
  destruct ((0 <? lim) && (sent <? lim)) eqn:E.
  - bools. naive_solver.
  - apply andb_false_iff in E as [E|E]; bools; naive_solver lia.
Qed.

(** The group gate allows an automatic post exactly when the profile lets
    agents speak, a message of the target group that is not the owner's own
    woke the turn, the effective tier is [auto], there is room under a positive
    [autoPerHour], and the agent-rounds rule is quiet or the alter was named. *)
Theorem groupSendGate_auto_iff (i : GroupSendGateInput) (r : AllowReason) :
  groupSendGate i = GroupAllow true r ↔
  r = auto_tier ∧ gg_speakAgents i = true ∧ tr_kind (gg_trigger i) = Group ∧
  tr_gid (gg_trigger i) = Some (gg_gid i) ∧ gg_fromOwner i ≠ Some true ∧
  gg_tier i = Auto ∧ 0 < gg_autoPerHour i ∧ gg_autoSentInWindow i < gg_autoPerHour i ∧
  (gg_roundsExceeded i = true → gg_mentioned i = true).
Proof.
  destruct i as [[k f n m g] tgt fo sp tier sent lim rd me]. unfold groupSendGate; simpl.
  destruct sp; simpl; [|naive_solver]. destruct k; try naive_solver.
  case_bool_decide; simpl; [|naive_solver]. case_bool_decide; [naive_solver|].
  destruct tier; [naive_solver..|].
  destruct ((lim <=? 0) || (lim <=? sent)) eqn:E.
  - apply orb_true_iff in E as [E|E]; bools; naive_solver lia.
  - bools. destruct rd, me; naive_solver.
Qed.

(** ** Waking *)

(** A group message wakes the alter exactly when it is somebody else's, the
    profile lets agents speak, the per-group switch is on, and the stricter of
    the group's wake policy and the member's own mode is met: under [never]
    nothing wakes it, unmentioned traffic wakes it only when both the group and
    the member say [always]. *)
Theorem wakeForGroup_iff (i : GroupWakeInput) :
  wk_wake (wakeForGroup i) = true ↔
  gw_fromSelf i = false ∧ gw_speakAgents i = true ∧ gw_enabled i = true ∧
  gw_wake i ≠ wk_never ∧
  (gw_mentioned i = true ∨ (gw_wake i = wk_always ∧ gw_myMode i = Some my_always)).
Proof. destruct i as [[] [] [] [] [[]|] []]; vm_compute; naive_solver. Qed.

(** A named seat agent is woken exactly when, besides the profile and its
    voice switch, the sender is on its commander list, and it is named or holds
    the duty slot of a group whose policy is [always]; mentioning it never
    bypasses the whitelist. *)
Theorem wakeAgentForGroup_iff (i : AgentWakeInput) :
  wk_wake (wakeAgentForGroup i) = true ↔
  aw_fromSelf i = false ∧ aw_speakAgents i = true ∧ aw_enabled i = true ∧
  aw_commander i = true ∧ aw_wake i ≠ wk_never ∧
  (aw_mentioned i = true ∨ (aw_wake i = wk_always ∧ aw_duty i = true)).
Proof. destruct i as [[] [] [] [] [] [] []]; vm_compute; naive_solver. Qed.

(** Whenever a route does not wake, it says why. *)
Lemma wakeForGroup_reason i : wk_wake (wakeForGroup i) = false ↔ is_Some (wk_reason (wakeForGroup i)).
Proof. destruct i as [[] [] [] [] [[]|] []]; vm_compute; split; intros H; try done; try (by eexists); by destruct H. Qed.

(** ** The agent-rounds rule *)

Lemma rounds_loop_iff l n s :
  s < n →
  rounds_loop l n s = true ↔
  ∃ k rest, l = k ++ rest ∧ Z.of_nat (length k) = n - s ∧ ∀ e, e ∈ k → by_alter e = true.
Proof.
  revert s. induction l as [|e l IH]; intros s Hs; simpl.
  - split; [done|]. intros (k & rest & Hk & Hlen & _). symmetry in Hk.
    apply app_eq_nil in Hk as [-> _]. simpl in Hlen. lia.
  - destruct (by_alter e) eqn:Eb; simpl.
    + destruct (n <=? s + 1) eqn:E; bools.
      * split; [intros _|done]. exists [e], l. split_and!; [done|simpl; lia|].
        intros e'. rewrite list_elem_of_singleton. by intros ->.
      * rewrite IH by lia. split; intros (k & rest & Hk & Hlen & Hall).
        -- exists (e :: k), rest. split_and!; [by simplify_eq/=|simpl; lia|].
           intros e'. rewrite elem_of_cons. naive_solver.
        -- destruct k as [|e0 k]; [simpl in Hlen; lia|]. simplify_eq/=.
           exists k, rest. split_and!; [done|lia|]. intros e' He'. apply Hall, elem_of_cons. by right.
    + split; [done|]. intros (k & rest & Hk & Hlen & Hall).
      destruct k as [|e0 k]; [simpl in Hlen; lia|]. simplify_eq/=.
      rewrite (Hall e0) in Eb; [done|]. apply elem_of_cons. by left.
Qed.

(** The agent-rounds rule trips exactly when [rounds] is positive and the
    archive ends with [rounds] entries that are all agent posts; any human
    message among them resets it. *)
Theorem agentRoundsExceeded_iff (entries : list GroupCapEntry) (rounds : Z) :
  agentRoundsExceeded entries rounds = true ↔
  0 < rounds ∧ ∃ front tail, entries = front ++ tail ∧ Z.of_nat (length tail) = rounds ∧
                             ∀ e, e ∈ tail → by_alter e = true.
Proof.
  unfold agentRoundsExceeded. destruct (rounds <=? 0) eqn:E; bools; [split; [done|lia]|].
  rewrite rounds_loop_iff by lia. rewrite Z.sub_0_r. split.
  - intros (k & rest & Hk & Hlen & Hall). split; [lia|]. exists (reverse rest), (reverse k).
    rewrite <- reverse_app, <- Hk, reverse_involutive, length_reverse. split_and!; [done..|].
    intros e. rewrite elem_of_reverse. apply Hall.
  - intros (_ & front & tl & -> & Hlen & Hall). exists (reverse tl), (reverse front).
    rewrite reverse_app, length_reverse. split_and!; [done..|].
    intros e. rewrite elem_of_reverse. apply Hall.
Qed.

(** ** Sliding windows: a cap checked at each hit bounds every window *)

(** Inside the window that ends at [t]: at most [w] old, not in the future. *)
Definition in_window (w t ts : Z) : bool := (t - ts <? w) && (0 <=? t - ts).
Definition window (w t : Z) (l : list Z) : list Z := filterb (in_window w t) l.

Lemma window_later w t t' l :
  (∀ ts, ts ∈ l → ts <= t) → t <= t' → (length (window w t' l) ≤ length (window w t l))%nat.
Proof.
  unfold window. induction l as [|x l IH]; intros Hall Hle; simpl; [lia|].
  assert (x <= t) by (apply Hall, elem_of_cons; by left).
  assert (length (filterb (in_window w t') l) ≤ length (filterb (in_window w t) l))%nat.
  { apply IH; [|done]. intros ts Hts. apply Hall, elem_of_cons. by right. }
  destruct (in_window w t' x) eqn:E'.
  - assert (in_window w t x = true) as ->.
    { unfold in_window in *. bools. apply andb_true_iff. rewrite Z.ltb_lt, Z.leb_le. lia. }
    simpl. lia.
  - destruct (in_window w t x); simpl; lia.
Qed.

Lemma window_snoc_bound w cap now l :
  (∀ ts, ts ∈ l → ts <= now) →
  (∀ t, Z.of_nat (length (window w t l)) <= cap) →
  Z.of_nat (length (window w now l)) < cap →
  ∀ t, Z.of_nat (length (window w t (l ++ [now]))) <= cap.
Proof.
  intros Hall Hcap Hnow t. unfold window. rewrite filterb_app, length_app. simpl.
  destruct (decide (t < now)) as [Hlt|Hge].
  - assert (in_window w t now = false) as ->.
    { unfold in_window. apply andb_false_iff. right. apply Z.leb_gt. lia. }
    specialize (Hcap t). unfold window in Hcap. simpl. lia.
  - pose proof (window_later w now t l Hall ltac:(lia)) as Hle. unfold window in Hle, Hnow.
    destruct (in_window w t now); simpl; lia.
Qed.

(** The timestamps [countAutoInWindow] counts. *)
Definition auto_posts (entries : list GroupCapEntry) : list Z :=
  map cap_ts (filterb (λ e, bool_decide (cap_dir e = dir_out) && bool_decide (cap_auto e = Some true) && by_alter e) entries).

Lemma countAutoInWindow_window entries now w :
  countAutoInWindow entries now w = Z.of_nat (length (window w now (auto_posts entries))).
Proof.
  unfold countAutoInWindow. rewrite <- (Z.add_0_l (Z.of_nat _)). generalize 0 as c.
  induction entries as [|e es IH]; intros c; simpl; [lia|].
  rewrite IH. unfold auto_posts, counts_auto, window. simpl.
  destruct (bool_decide (cap_dir e = dir_out) && bool_decide (cap_auto e = Some true) && by_alter e) eqn:E;
    simpl; [|done].
  unfold in_window at 2. destruct (now - cap_ts e <? w), (0 <=? now - cap_ts e); simpl; lia.
Qed.

Lemma auto_posts_snoc entries e :
  auto_posts (entries ++ [e]) =
  auto_posts entries ++
    (if bool_decide (cap_dir e = dir_out) && bool_decide (cap_auto e = Some true) && by_alter e
     then [cap_ts e] else []).
Proof. unfold auto_posts. rewrite filterb_app, map_app. simpl. by case_match. Qed.
