(* ===== verification/AlterState.v ===== *)
(** * What the owner sees of the alter (alter-state.ts)

    Folds over the durable event log of the alter session: what woke the
    current turn ([triggerOf]), the latest state ([latestFromEvents]) and the
    transcript the page renders ([chatFromEvents]). *)

From S2P Require Import Prelude JsString Json Policy.
#[local] Open Scope Z_scope.

(** ** Event envelopes *)

Record EventLike := mkEvent {
  ev_type : list Z; ev_seq : Z; ev_time : Z; ev_data : option json }.

Definition SOULMIRROR_PLUGIN : list Z := js "soulmirror".
Definition RELAY_FORM : list Z := js "relay".

(** [rec], [str], [num]: total narrowing of [unknown]. *)
Definition rec (v : option json) : list (list Z * json) :=
  match v with Some (JObj o) => o | _ => [] end.
Definition str (v : option json) : list Z := as_string v ?? [].
Definition num (v : option json) (fallback : number) : number :=
  match v with Some (JNum n) => if isFinite n then n else fallback | _ => fallback end.

Notation "o .[ k ]" := (prop_of o (js k)) (at level 9, format "o .[ k ]") : dsh_scope.
Notation zero := (num_of_Z 0).

(** The text blocks ([ty] = "text") or reasoning blocks of a message content. *)
Definition blocks_text (ty : list Z) (content : option json) : list Z :=
  match content with
  | Some (JArr l) =>
      trim (jjoin [10] (filterb (λ t, negb (jeqb t []))
        (map (λ block, let b := rec (Some block) in
                       if is_str b.["type"] ty then str b.["text"] else []) l)))
  | _ => []
  end.

Definition textOf (content : option json) : list Z := blocks_text (js "text") content.
Definition reasoningOf (content : option json) : list Z := blocks_text (js "reasoning") content.

(** ** Relay metadata *)

Record RelayMeta := mkRelay {
  rm_fp : list Z; rm_id : list Z; rm_ts : number; rm_name : list Z; rm_auto : bool;
  rm_type : option (list Z); rm_gid : option (list Z); rm_by : option (list Z);
  rm_agent : option (list Z); rm_note : option (list Z); rm_draftId : option (list Z) }.

(** [typeof x === 'string' && x !== '' ? { x } : {}]. *)
Definition opt_string (v : option json) : option (list Z) :=
  match as_string v with Some s => non_empty s | None => None end.

Definition relayMetaOf (data : option json) : option RelayMeta :=
  let source := rec (rec data).["source"] in
  if negb (is_str source.["kind"] (js "plugin"))
     || negb (is_str source.["plugin"] SOULMIRROR_PLUGIN)
     || negb (is_str source.["form"] RELAY_FORM)
  then None
  else
    let a2a := rec source.["a2a"] in
    Some (mkRelay (str a2a.["fp"]) (str a2a.["id"]) (num a2a.["ts"] zero)
            (str source.["senderSessionId"]) (is_true a2a.["auto"])
            (as_string a2a.["type"]) (opt_string a2a.["gid"]) (opt_string a2a.["by"])
            (opt_string a2a.["agent"]) (as_string a2a.["note"]) (as_string a2a.["draftId"])).

Inductive MessageClass := ClOwner | ClInbound | ClInboundAuto | ClGroup | ClNote | ClOther.
#[export] Instance MessageClass_eq_dec : EqDecision MessageClass.
Proof. solve_decision. Defined.

Definition classifyUserMessage (data : option json) : MessageClass :=
  let source := rec (rec data).["source"] in
  if is_str source.["kind"] (js "user") then ClOwner
  else match relayMetaOf data with
  | None => ClOther
  | Some relay =>
      if bool_decide (is_Some (rm_note relay)) then ClNote
      else if bool_decide (is_Some (rm_gid relay)) then ClGroup
      else if rm_auto relay then ClInboundAuto else ClInbound
  end.

(** ** triggerOf *)

Definition is_type (e : EventLike) (t : list Z) : bool := jeqb (ev_type e) t.
Definition is_turn_start (e : EventLike) : bool := is_type e (js "turn/start").

(** The events after the last [turn/start] (the backwards scan), if any. *)
Fixpoint after_last_start (rev_events acc : list EventLike) : option (list EventLike) :=
  match rev_events with
  | [] => None
  | e :: rest => if is_turn_start e then Some acc else after_last_start rest (e :: acc)
  end.

(** The forward scan of the turn: the body of the second loop. *)
Fixpoint first_trigger (events : list EventLike) : TurnTrigger :=
  match events with
  | [] => UNKNOWN_TRIGGER
  | e :: rest =>
      if negb (is_type e (js "user/message")) then first_trigger rest
      else match classifyUserMessage (ev_data e), relayMetaOf (ev_data e) with
      | ClOther, _ | ClNote, _ => first_trigger rest
      | ClOwner, _ => trigger_kind Owner
      | ClGroup, Some r => mkTrigger Group (Some (rm_fp r)) (Some (rm_name r)) (Some (rm_id r)) (rm_gid r)
      | ClInbound, Some r => mkTrigger Inbound (Some (rm_fp r)) (Some (rm_name r)) (Some (rm_id r)) None
      | ClInboundAuto, Some r => mkTrigger InboundAuto (Some (rm_fp r)) (Some (rm_name r)) (Some (rm_id r)) None
      | _, None => UNKNOWN_TRIGGER (* [relayMetaOf(event.data)!]: not reached *)
      end
  end.

Definition triggerOf (events : list EventLike) : TurnTrigger :=
  match after_last_start (reverse events) [] with
  | None => UNKNOWN_TRIGGER
  | Some turn => first_trigger turn
  end.

(** ** Tool outcomes *)

Inductive SendOutcome := OSent | ODraftQueued | ORefused | OFailed.

Record OutcomeInfo := mkOutcome {
  oi_outcome : SendOutcome; oi_gate : option (list Z);
  oi_draftId : option (list Z); oi_detail : option (list Z) }.

Section with_text.
Context `{JsonText}.

Definition first_block (message : list (list Z * json)) : option json :=
  match as_array message.["content"] with Some (b :: _) => Some b | _ => None end.

Definition outcomeOf (data : list (list Z * json)) : OutcomeInfo :=
  let message := rec data.["message"] in
  let first := rec (first_block message) in
  let resultText := textOf first.["content"] in
  let parsed := rec (JSON_parse resultText) in
  let errored := bool_decide (is_Some data.["error"]) || is_true first.["isError"] in
  let gate := non_empty (str parsed.["gate"]) in
  let draftId := non_empty (str parsed.["draftId"]) in
  if errored then
    let err := rec data.["error"] in
    let detail := or_str (str err.["message"])
                    (or_str (str parsed.["message"]) (take 200 resultText)) in
    mkOutcome OFailed gate None (non_empty detail)
  else
    let reported := str parsed.["outcome"] in
    if is_true parsed.["ok"] && jeqb reported (js "draft-queued")
    then mkOutcome ODraftQueued gate draftId None
    else if is_true parsed.["ok"] then mkOutcome OSent gate None None
    else mkOutcome ORefused gate None (non_empty (or_str (str parsed.["message"]) reported)).

Definition turnEndMessage (reason : list (list Z * json)) : option (list Z) :=
  let cause := reason.["reason"] in
  match as_string cause with
  | Some c => Some c
  | None =>
      match as_string reason.["message"] with
      | Some m => Some m
      | None =>
          match as_string (rec cause).["message"] with
          | Some m => Some m
          | None => as_string (rec reason.["error"]).["message"]
          end
      end
  end.

(** ** The latest state *)

Record AlterNote := mkNote { no_text : list Z; no_ts : Z; no_seq : Z; no_turn : number }.
Record AlterInstruction := mkInstruction { in_text : list Z; in_ts : Z; in_seq : Z }.
Record AlterSend := mkSend {
  se_body : list Z; se_fingerprint : option (list Z); se_ts : Z;
  se_outcome : option SendOutcome; se_gate : option (list Z);
  se_draftId : option (list Z); se_detail : option (list Z) }.
Record AlterTurn := mkTurn {
  tu_turn : number; tu_reason : list Z; tu_failed : bool; tu_ts : Z;
  tu_message : option (list Z); tu_open : bool }.

Record AlterLatest := mkLatest {
  la_instruction : option AlterInstruction; la_note : option AlterNote;
  la_sent : option AlterSend; la_turn : option AlterTurn;
  la_trigger : TurnTrigger; la_seq : Z }.

(** The mutable variables of the fold. *)
Record LatestState := mkLState {
  ls_instruction : option AlterInstruction; ls_note : option AlterNote;
  ls_sent : option AlterSend; ls_callId : option (list Z); ls_turn : option AlterTurn }.

(** [{ ...a, ...b }] on one optional property. *)
Definition over {A} (new old : option A) : option A := match new with Some x => Some x | None => old end.

Definition merge_outcome (s : AlterSend) (o : OutcomeInfo) : AlterSend :=
  mkSend (se_body s) (se_fingerprint s) (se_ts s) (Some (oi_outcome o))
    (over (oi_gate o) (se_gate s)) (over (oi_draftId o) (se_draftId s)) (over (oi_detail o) (se_detail s)).

Definition open_turn (t : option AlterTurn) : number :=
  match t with Some t => tu_turn t | None => zero end.

Definition latest_step (s : LatestState) (e : EventLike) : LatestState :=
  let '(mkLState instruction note sent callId turn) := s in
  let data := rec (ev_data e) in
  if is_type e (js "turn/start") then
    mkLState instruction note sent callId
      (Some (mkTurn (num data.["turn"] zero) (js "open") false (ev_time e) None true))
  else if is_type e (js "turn/end") then
    let reason := rec data.["reason"] in
    let k := or_str (str reason.["kind"]) (js "unknown") in
    mkLState instruction note sent callId
      (Some (mkTurn (num data.["turn"] (open_turn turn)) k (negb (jeqb k (js "completed")))
               (ev_time e) (turnEndMessage reason) false))
  else if is_type e (js "user/message") then
    if negb (bool_decide (classifyUserMessage (ev_data e) = ClOwner)) then s
    else
      let text := textOf data.["content"] in
      if jeqb text [] then s
      else mkLState (Some (mkInstruction text (ev_time e) (ev_seq e))) note sent callId turn
  else if is_type e (js "assistant/message") then
    let message := rec data.["message"] in
    let text := textOf message.["content"] in
    if jeqb text [] then s
    else mkLState instruction
           (Some (mkNote text (ev_time e) (ev_seq e) (num data.["turn"] (open_turn turn)))) sent callId turn
  else if is_type e (js "tool/call") then
    if negb (is_str data.["name"] (js "soulmirror_send_message")) then s
    else
      let args := rec (JSON_parse (str data.["arguments"])) in
      mkLState instruction note
        (Some (mkSend (str args.["body"]) (non_empty (str args.["fingerprint"])) (ev_time e) None None None None))
        (Some (str data.["callId"])) turn
  else if is_type e (js "tool/result") then
    match sent, callId with
    | Some se, Some c =>
        let source := rec (rec data.["message"]).["source"] in
        if negb (jeqb (str source.["callId"]) c) then s
        else mkLState instruction note (Some (merge_outcome se (outcomeOf data))) callId turn
    | _, _ => s
    end
  else s.

(** [events.length === 0 ? 0 : events[events.length - 1].seq + 1]. *)
Definition last_seq (events : list EventLike) : Z :=
  match last events with Some e => ev_seq e + 1 | None => 0 end.

Definition latestFromEvents (events : list EventLike) : AlterLatest :=
  let s := fold_left latest_step events (mkLState None None None None None) in
  mkLatest (ls_instruction s) (ls_note s) (ls_sent s) (ls_turn s) (triggerOf events) (last_seq events).

End with_text.

(** * Theorems *)

(** ** What woke the turn *)

(** The trigger kind a [user/message] of this class gives its turn, if any. *)
Definition class_kind (c : MessageClass) : option TriggerKind :=
  match c with
  | ClOwner => Some Owner
  | ClInbound => Some Inbound
  | ClInboundAuto => Some InboundAuto
  | ClGroup => Some Group
  | ClNote | ClOther => None
  end.

(** The trigger kind one event of a turn gives, if any. *)
Definition event_kind (e : EventLike) : option TriggerKind :=
  if is_type e (js "user/message") then class_kind (classifyUserMessage (ev_data e)) else None.

(** [tail] is the current turn: what follows the last [turn/start]. *)
Definition current_turn (events tail : list EventLike) : Prop :=
  ∃ pre st, events = pre ++ st :: tail ∧ is_turn_start st = true ∧
            ∀ e, e ∈ tail → is_turn_start e = false.

Lemma after_last_start_Some l acc tail :
  (∀ e, e ∈ acc → is_turn_start e = false) →
  after_last_start l acc = Some tail ↔
  ∃ pre st, reverse l ++ acc = pre ++ st :: tail ∧ is_turn_start st = true ∧
            ∀ e, e ∈ tail → is_turn_start e = false.
Proof.
  revert acc. induction l as [|x l IH]; intros acc Hacc; simpl.
  - split; [done|]. intros (pre & st & Heq & Hst & _).
    rewrite (Hacc st) in Hst; [done|]. change (acc = pre ++ st :: tail) in Heq. rewrite Heq. set_solver.
  - rewrite reverse_cons, <- app_assoc. simpl. destruct (is_turn_start x) eqn:Ex.
    + split.
      * intros [= <-]. by exists (reverse l), x.
      * intros (pre & st & Heq & Hst & Htail). f_equal.
        destruct (app_eq_inv _ _ _ _ Heq) as [(k & Hpre & Hk)|(k & Hpre & Hk)].
        -- destruct k as [|y k]; simplify_eq/=; [done|].
           specialize (Htail x). rewrite Htail in Ex; [done|]. set_solver.
        -- destruct k as [|y k]; simplify_eq/=; [done|].
           rewrite (Hacc st) in Hst; [done|]. set_solver.
    + rewrite IH; [done|]. intros e. rewrite elem_of_cons. naive_solver.
Qed.

Lemma after_last_start_turn events tail :
  after_last_start (reverse events) [] = Some tail ↔ current_turn events tail.
Proof.
  rewrite after_last_start_Some by set_solver.
  rewrite reverse_involutive, app_nil_r. done.
Qed.

Lemma classify_relay data c :
  classifyUserMessage data = c → c ≠ ClOwner → c ≠ ClOther → is_Some (relayMetaOf data).
Proof. unfold classifyUserMessage. intros <-. repeat case_match; naive_solver. Qed.

Lemma first_trigger_skip e events : event_kind e = None → first_trigger (e :: events) = first_trigger events.
Proof.
  unfold event_kind. simpl. destruct (is_type e (js "user/message")); simpl; [|done].
  by destruct (classifyUserMessage (ev_data e)).
Qed.

Lemma first_trigger_hit e events k :
  event_kind e = Some k → tr_kind (first_trigger (e :: events)) = k ∧
  ∀ events', first_trigger (e :: events) = first_trigger (e :: events').
Proof.
  unfold event_kind. simpl. destruct (is_type e (js "user/message")); simpl; [|done].
  destruct (classifyUserMessage (ev_data e)) eqn:Ec; simpl; intros; simplify_eq;
    try (destruct (classify_relay _ _ Ec) as [r Hr]; [done..|rewrite Hr]); done.
Qed.

Lemma first_trigger_iff events k :
  k ≠ Unknown →
  tr_kind (first_trigger events) = k ↔
  ∃ mid e post, events = mid ++ e :: post ∧ event_kind e = Some k ∧ ∀ m, m ∈ mid → event_kind m = None.
Proof.
  intros Hk. induction events as [|x events IH].
  - split; [intros Hn; by destruct Hk|]. intros (mid & e & post & Heq & _). by destruct mid.
  - destruct (event_kind x) as [kx|] eqn:Ex.
    + destruct (first_trigger_hit x events kx Ex) as [-> _]. split.
      * intros ->. exists [], x, events. split_and!; [done..|set_solver].
      * intros (mid & e & post & Heq & He & Hmid). destruct mid as [|y mid]; simplify_eq/=; [done|].
        rewrite Hmid in Ex; [done|]. set_solver.
    + rewrite first_trigger_skip, IH by done. split; intros (mid & e & post & Heq & He & Hmid).
      * exists (x :: mid), e, post. split_and!; [by simplify_eq/=|done|]. set_solver.
      * destruct mid as [|y mid]; simplify_eq/=. exists mid, e, post. split_and!; [done..|set_solver].
Qed.

(** C25. A turn is attributed to the owner, a friend's mail, an automatic mail
    or a group exactly when its first attributable [user/message] after the
    last [turn/start] is of that kind: only unattributable messages (plugin
    notes, foreign sources, tool traffic) may precede it. *)
Theorem triggerOf_kind_iff (events : list EventLike) (k : TriggerKind) (Hk : k ≠ Unknown) :
  tr_kind (triggerOf events) = k ↔
  ∃ tail mid e post, current_turn events tail ∧ tail = mid ++ e :: post ∧
    event_kind e = Some k ∧ ∀ m, m ∈ mid → event_kind m = None.
Proof.
  unfold triggerOf. destruct (after_last_start (reverse events) []) as [tail|] eqn:E.
  - pose proof E as Ht. apply after_last_start_turn in Ht.
    rewrite first_trigger_iff by done. split; [naive_solver|].
    intros (tail' & mid & e & post & Hturn & -> & ?). apply after_last_start_turn in Hturn.
    rewrite E in Hturn. naive_solver.
  - split; [intros Hu; by destruct Hk|]. intros (tail & mid & e & post & Hturn & _).
    apply after_last_start_turn in Hturn. congruence.
Qed.

(** A one-turn log: a plugin note, then the owner speaking. *)
Definition sample_source (fields : list (list Z * json)) : option json :=
  Some (JObj [(js "source", JObj fields)]).
Definition sample_owner : EventLike :=
  mkEvent (js "user/message") 3 30 (sample_source [(js "kind", JStr (js "user"))]).
Definition sample_mail : EventLike :=
  mkEvent (js "user/message") 4 40
    (sample_source [(js "kind", JStr (js "plugin")); (js "plugin", JStr SOULMIRROR_PLUGIN);
                    (js "form", JStr RELAY_FORM); (js "a2a", JObj [(js "fp", JStr (js "F1"))])]).
Definition sample_start : EventLike := mkEvent (js "turn/start") 1 10 None.
Definition sample_tool : EventLike := mkEvent (js "tool/call") 2 20 None.

Lemma triggerOf_kind_iff_witness :
  Owner ≠ Unknown ∧ tr_kind (triggerOf [sample_mail; sample_start; sample_tool; sample_owner]) = Owner.
Proof.
  split; [done|]. apply (triggerOf_kind_iff _ Owner ltac:(done)).
  exists [sample_tool; sample_owner], [sample_tool], sample_owner, [].
  split_and!; [exists [sample_mail], sample_start; split_and!|..]; try (vm_compute; reflexivity).
  - intros e. rewrite !elem_of_cons, elem_of_nil. intros [->|[->|[]]]; vm_compute; reflexivity.
  - intros e. rewrite elem_of_cons, elem_of_nil. intros [->|[]]; vm_compute; reflexivity.
Defined.

Lemma first_trigger_app l l' :
  tr_kind (first_trigger l) ≠ Unknown → first_trigger (l ++ l') = first_trigger l.
Proof.
  induction l as [|x l IH]; intros Hk; [done|].
  destruct (event_kind x) as [kx|] eqn:Ex.
  - destruct (first_trigger_hit x l kx Ex) as [_ Hany]. symmetry. apply Hany.
  - rewrite (first_trigger_skip x l) in * by done.
    change ((x :: l) ++ l') with (x :: (l ++ l')). rewrite first_trigger_skip by done. by apply IH.
Qed.

Lemma current_turn_app events tail l :
  current_turn events tail → (∀ e, e ∈ l → is_turn_start e = false) → current_turn (events ++ l) (tail ++ l).
Proof.
  intros (pre & st & -> & Hst & Htail) Hl. exists pre, st. rewrite <- app_assoc. split_and!; [done..|].
  intros e. rewrite elem_of_app. naive_solver.
Qed.

(** Once a turn is attributed, nothing logged later in the same turn (an
    owner steer, more mail, tool traffic) changes what the send gates read: the
    whole trigger stays the same until the next [turn/start]. *)
Theorem triggerOf_stable (events later : list EventLike)
    (Hattr : tr_kind (triggerOf events) ≠ Unknown)
    (Hsame : ∀ e, e ∈ later → is_turn_start e = false) :
  triggerOf (events ++ later) = triggerOf events.
Proof.
  unfold triggerOf in *. destruct (after_last_start (reverse events) []) as [tail|] eqn:E; [|done].
  apply after_last_start_turn in E. apply (current_turn_app _ _ later) in E; [|done].
  apply after_last_start_turn in E. rewrite E. by apply first_trigger_app.
Qed.

Lemma triggerOf_stable_witness :
  tr_kind (triggerOf [sample_start; sample_mail]) = Inbound ∧
  triggerOf ([sample_start; sample_mail] ++ [sample_owner]) = triggerOf [sample_start; sample_mail].
Proof.
  split; [vm_compute; reflexivity|]. apply triggerOf_stable.
  - vm_compute. discriminate.
  - intros e. rewrite elem_of_cons, elem_of_nil. intros [->|[]]; vm_compute; reflexivity.
Defined.

Lemma triggerOf_unattributed events e :
  is_turn_start e = false → event_kind e = None → triggerOf (events ++ [e]) = triggerOf events.
Proof.
  intros Hst Hk. unfold triggerOf. rewrite reverse_app. simpl. rewrite Hst.
  destruct (after_last_start (reverse events) []) as [tail|] eqn:E.
  - apply after_last_start_turn in E. apply (current_turn_app _ _ [e]) in E.
    2:{ intros e'. rewrite list_elem_of_singleton. by intros ->. }
    apply after_last_start_turn in E. rewrite reverse_app in E. simpl in E. rewrite Hst in E. rewrite E.
    clear E. induction tail as [|x tail IH]; [by rewrite app_nil_l, first_trigger_skip|].
    destruct (event_kind x) as [kx|] eqn:Ex.
    + destruct (first_trigger_hit x tail kx Ex) as [_ Hany]. symmetry. apply Hany.
    + change ((x :: tail) ++ [e]) with (x :: (tail ++ [e])). by rewrite !first_trigger_skip.
  - destruct (after_last_start (reverse events) [e]) as [tail|] eqn:E'; [|done]. exfalso.
    apply after_last_start_Some in E' as (pre & st & Heq & Hst' & Htail).
    2:{ intros e'. rewrite list_elem_of_singleton. by intros ->. }
    rewrite reverse_involutive in Heq. destruct tail as [|y tail] using rev_ind.
    + apply app_inj_tail in Heq as [_ ->]. congruence.
    + clear IHtail. change (st :: tail ++ [y]) with ((st :: tail) ++ [y]) in Heq. rewrite app_assoc in Heq. apply app_inj_tail in Heq as [Heq ->].
      assert (current_turn events tail) as Ht.
      { exists pre, st. split_and!; [done..|]. intros e' He'. apply Htail. set_solver. }
      apply after_last_start_turn in Ht. congruence.
Qed.

(** ** The latest send *)

(** A [tool/call] of [soulmirror_send_message]. *)
Definition is_send_call (e : EventLike) : bool :=
  is_type e (js "tool/call") && is_str (rec (ev_data e)).["name"] (js "soulmirror_send_message").

(** A [tool/result] that answers the call [c]. *)
Definition result_for (c : list Z) (e : EventLike) : bool :=
  is_type e (js "tool/result")
  && jeqb (str (rec (rec (rec (ev_data e)).["message"]).["source"]).["callId"]) c.

Section latest_send.
Context `{JsonText}.

(** The send as its call logs it, with no outcome yet. *)
Definition pending_send (call : EventLike) : AlterSend :=
  let args := rec (JSON_parse (str (rec (ev_data call)).["arguments"])) in
  mkSend (str args.["body"]) (non_empty (str args.["fingerprint"])) (ev_time call) None None None None.

Definition call_id (call : EventLike) : list Z := str (rec (ev_data call)).["callId"].

Definition settle (s : AlterSend) (result : EventLike) : AlterSend :=
  merge_outcome s (outcomeOf (rec (ev_data result))).

Lemma is_type_neq e a b : is_type e (js a) = true → js a ≠ js b → is_type e (js b) = false.
Proof. unfold is_type. rewrite jeqb_eq, jeqb_neq. congruence. Qed.

Ltac other_types E := repeat rewrite (is_type_neq _ _ _ E) by (vm_compute; discriminate); simpl.

Lemma latest_step_call s e :
  is_send_call e = true →
  ls_sent (latest_step s e) = Some (pending_send e) ∧ ls_callId (latest_step s e) = Some (call_id e).
Proof.
  unfold is_send_call. rewrite andb_true_iff. intros [E Hn]. destruct s. unfold latest_step.
  other_types E. rewrite E, Hn. done.
Qed.

Lemma latest_step_other s e c se :
  is_send_call e = false → ls_callId s = Some c → ls_sent s = Some se →
  ls_callId (latest_step s e) = Some c ∧
  ls_sent (latest_step s e) = Some (if result_for c e then settle se e else se).
Proof.
  unfold is_send_call, result_for. destruct s. simpl. intros Hc -> ->. unfold latest_step.
  destruct (is_type e (js "tool/result")) eqn:Er; simpl.
  - other_types Er. case_match eqn:Eq; bools; rewrite Eq; simpl; done.
  - destruct (is_type e (js "tool/call")); simpl in *; [rewrite Hc|]; repeat case_match; done.
Qed.

Lemma latest_fold_send post s c se :
  (∀ e, e ∈ post → is_send_call e = false) → ls_callId s = Some c → ls_sent s = Some se →
  ls_sent (fold_left latest_step post s) = Some (fold_left settle (filterb (result_for c) post) se).
Proof.
  revert s se. induction post as [|e post IH]; intros s se Hpost Hc Hs; [done|]. simpl.
  destruct (latest_step_other s e c se) as [Hc' Hs']; [apply Hpost; set_solver|done..|].
  rewrite (IH _ (if result_for c e then settle se e else se)); [|set_solver|done..].
  by destruct (result_for c e).
Qed.

(** The send the page shows is the last [soulmirror_send_message] call of
    the log, settled by exactly the tool results that carry its call id, in
    order: results of earlier calls, or of other tools, never settle it, and
    with none it is still pending. *)
Theorem latestFromEvents_sent (pre post : list EventLike) (call : EventLike)
    (Hcall : is_send_call call = true) (Hlast : ∀ e, e ∈ post → is_send_call e = false) :
  la_sent (latestFromEvents (pre ++ call :: post)) =
  Some (fold_left settle (filterb (result_for (call_id call)) post) (pending_send call)).
Proof.
  unfold latestFromEvents. cbn [la_sent]. rewrite fold_left_app. simpl.
  set (s := fold_left latest_step pre _). destruct (latest_step_call s call Hcall) as [Hs Hc].
  by rewrite (latest_fold_send _ _ _ _ Hlast Hc Hs).
Qed.
End latest_send.

Definition sample_call (id : list Z) : EventLike :=
  mkEvent (js "tool/call") 5 50
    (Some (JObj [(js "name", JStr (js "soulmirror_send_message")); (js "callId", JStr id)])).
Definition sample_result (id : list Z) : EventLike :=
  mkEvent (js "tool/result") 6 60
    (Some (JObj [(js "message", JObj [(js "source", JObj [(js "callId", JStr id)])])])).

Lemma latestFromEvents_sent_witness :
  is_send_call (sample_call (js "c2")) = true ∧
  la_sent (@latestFromEvents CodedJson ([sample_call (js "c1")] ++ sample_call (js "c2") :: [sample_result (js "c1")])) =
  Some (@pending_send CodedJson (sample_call (js "c2"))).
Proof.
  split; [vm_compute; reflexivity|]. rewrite (@latestFromEvents_sent CodedJson).
  - reflexivity.
  - vm_compute. reflexivity.
  - intros e. rewrite list_elem_of_singleton. intros ->. vm_compute. reflexivity.
Defined.
