(* ===== verification/AlterChat.v ===== *)
(** * The "My alter" transcript (alter-state.ts, chatFromEvents)

    The fold that turns the session log into the items the page renders: the
    owner's and the alter's words, inbound mail, sends with their outcome,
    notes and failed turns; with [process], also the streamed reasoning and the
    other tool calls.  The transcript is an array updated in place through two
    index maps (send by call id, thinking by phase). *)

From S2P Require Import Prelude JsString Json Policy AlterState.
#[local] Open Scope Z_scope.

(** ** Items *)

Inductive AlterChatItem :=
| ItOwner (key : list Z) (ts : number) (text : list Z) (revise : option (list Z * list Z))
| ItAlter (key : list Z) (ts : number) (text : list Z) (turn : number)
| ItInbound (key : list Z) (ts : number) (fp name id body : list Z) (auto : bool)
    (type gid : option (list Z))
| ItSend (key : list Z) (ts : number) (fp body : list Z) (outcome : option SendOutcome)
    (gate draftId detail : option (list Z)) (auto : bool)
| ItNote (key : list Z) (ts : number) (note fp text : list Z) (draftId : option (list Z))
| ItTurnFailed (key : list Z) (ts : number) (turn : number) (reason : list Z) (message : option (list Z))
| ItThinking (key : list Z) (ts : number) (text : list Z) (streaming : option bool)
| ItTool (key : list Z) (ts : number) (name args : list Z).

Record AlterChat := mkChat { ch_items : list AlterChatItem; ch_running : bool; ch_seq : Z }.

(** ** Text helpers *)

(** [bodyOfRelayText]: drop the first line when there is more than one. *)
Definition bodyOfRelayText (text : list Z) : list Z :=
  if includes text [10]
  then match indexOf text [10] 0 with Some i => drop (i + 1) text | None => drop 0 text end
  else text.

(** [.replace(/^\[SoulMirror note\]\s*/, '')]. *)
Definition strip_note (text : list Z) : list Z :=
  let tag := js "[SoulMirror note]" in
  if startsWith text tag then trimStart (drop (length tag) text) else text.

Definition is_fp_char (c : Z) : bool :=
  is_upper c || is_lower c || is_digit c || (c =? 95) || (c =? 45).

(** The longest prefix of [A-Za-z0-9_-] characters and the rest. *)
Fixpoint span_fp (s : list Z) : list Z * list Z :=
  match s with
  | c :: s' => if is_fp_char c then let '(a, b) := span_fp s' in (c :: a, b) else ([], s)
  | [] => ([], [])
  end.

(** The tail of the pattern after the name: fingerprint, then the feedback
    between the first "My feedback: " and the next "\nSend the revised message". *)
Definition revise_tail (s : list Z) : option (list Z * list Z) :=
  let t0 := js " (fingerprint " in
  if negb (startsWith s t0) then None
  else
    let '(f, rest) := span_fp (drop (length t0) s) in
    if jeqb f [] || negb (startsWith rest (js ").")) then None
    else
      let rest := drop 2 rest in
      let mark := js "My feedback: " in
      match indexOf rest mark 0 with
      | None => None
      | Some i =>
          let after := drop (i + length mark) rest in
          match indexOf after (10 :: js "Send the revised message") 0 with
          | None => None
          | Some j => Some (f, take j after)
          end
      end.

(** ECMAScript line terminators, which [.] does not match. *)
Definition is_lt (c : Z) : bool := (c =? 10) || (c =? 13) || (c =? 8232) || (c =? 8233).

(** [(.+?)]: the shortest non-empty name after which the tail matches. *)
Fixpoint revise_name (acc s : list Z) : option (list Z * list Z * list Z) :=
  match s with
  | [] => None
  | c :: s' =>
      if is_lt c then None
      else
        let acc' := acc ++ [c] in
        match revise_tail s' with
        | Some (f, fb) => Some (acc', f, fb)
        | None => revise_name acc' s'
        end
  end.

(** [REVISE_INSTRUCTION.exec(text)]: name, fingerprint, feedback. *)
Definition revise_exec (text : list Z) : option (list Z * list Z * list Z) :=
  let t0 := js "Revise your draft to " in
  if startsWith text t0 then revise_name [] (drop (length t0) text) else None.

(** ** The fold *)

Record ChatState := mkCS {
  cs_items : list AlterChatItem;
  cs_sendIndex : gmap (list Z) nat;
  cs_thinkIndex : gmap (list Z) nat;
  cs_running : bool;
  cs_turn : number;
}.

Definition with_items (f : list AlterChatItem → list AlterChatItem) (s : ChatState) : ChatState :=
  mkCS (f (cs_items s)) (cs_sendIndex s) (cs_thinkIndex s) (cs_running s) (cs_turn s).

Definition push (it : AlterChatItem) : ChatState → ChatState := with_items (λ l, l ++ [it]).

Definition set_thinking_text (full : list Z) (it : AlterChatItem) : AlterChatItem :=
  match it with
  | ItThinking k ts text _ => ItThinking k ts (if jeqb full [] then text else full) (Some false)
  | it => it
  end.

Definition add_delta (delta : list Z) (it : AlterChatItem) : AlterChatItem :=
  match it with
  | ItThinking k ts text st => ItThinking k ts (text ++ delta) st
  | it => it
  end.

Definition stop_streaming (it : AlterChatItem) : AlterChatItem :=
  match it with
  | ItThinking k ts text (Some true) => ItThinking k ts text (Some false)
  | it => it
  end.

(** [{ ...previous, ...outcome, auto }] on a send item. *)
Definition settle_send (o : OutcomeInfo) (a : bool) (it : AlterChatItem) : AlterChatItem :=
  match it with
  | ItSend k ts f body _ g d de _ =>
      ItSend k ts f body (Some (oi_outcome o)) (over (oi_gate o) g) (over (oi_draftId o) d) (over (oi_detail o) de) a
  | it => it
  end.

Definition finalizeThinking (phase full : list Z) (s : ChatState) : ChatState :=
  match cs_thinkIndex s !! phase with
  | None => s
  | Some i => with_items (alter (set_thinking_text full) i) s
  end.

Definition appendThinking (phase delta : list Z) (ts : number) (s : ChatState) : ChatState :=
  match cs_thinkIndex s !! phase with
  | None =>
      mkCS (cs_items s ++ [ItThinking (js "think:" ++ phase) ts delta (Some true)])
        (cs_sendIndex s) (<[phase := length (cs_items s)]> (cs_thinkIndex s)) (cs_running s) (cs_turn s)
  | Some i => with_items (alter (add_delta delta) i) s
  end.

(** The loop over [thinkingIndexByPhase.values()] at [turn/end]. *)
Definition stop_all (m : gmap (list Z) nat) (l : list AlterChatItem) : list AlterChatItem :=
  foldr (λ p l, alter stop_streaming p.2 l) l (map_to_list m).

Section chat.
Context `{JsonText} `{NumberToString}.

Definition phase_of (data : list (list Z * json)) (turn : number) : list Z :=
  show_number (num data.["turn"] turn) ++ js ":" ++ show_number (num data.["step"] zero).

Definition key_of (tag : list Z) (e : EventLike) : list Z := tag ++ dec (ev_seq e).
Definition ts_of (e : EventLike) : number := num_of_Z (ev_time e).

Definition on_turn_end (s : ChatState) (e : EventLike) : ChatState :=
  let data := rec (ev_data e) in
  let s1 := mkCS (stop_all (cs_thinkIndex s) (cs_items s)) (cs_sendIndex s) (cs_thinkIndex s) false (cs_turn s) in
  let reason := rec data.["reason"] in
  let k := or_str (str reason.["kind"]) (js "unknown") in
  if jeqb k (js "completed") then s1
  else push (ItTurnFailed (key_of (js "turn:") e) (ts_of e) (num data.["turn"] (cs_turn s)) k (turnEndMessage reason)) s1.

Definition on_user_message (s : ChatState) (e : EventLike) : ChatState :=
  let data := rec (ev_data e) in
  let text := textOf data.["content"] in
  match classifyUserMessage (ev_data e), relayMetaOf (ev_data e) with
  | ClOwner, _ =>
      if jeqb text [] then s
      else match revise_exec text with
      | None => push (ItOwner (key_of (js "owner:") e) (ts_of e) text None) s
      | Some (nm, f, fb) => push (ItOwner (key_of (js "owner:") e) (ts_of e) (trim fb) (Some (nm, f))) s
      end
  | ClOther, _ => s
  | ClNote, Some r =>
      push (ItNote (key_of (js "note:") e) (ts_of e) (rm_note r ?? []) (rm_fp r) (strip_note text) (rm_draftId r)) s
  | _, Some r =>
      push (ItInbound (key_of (js "in:") e) (if gt_Z (rm_ts r) 0 then rm_ts r else ts_of e)
              (rm_fp r) (rm_name r) (rm_id r) (bodyOfRelayText text) (rm_auto r) (rm_type r) (rm_gid r)) s
  | _, None => s (* [relayMetaOf(event.data)!]: not reached *)
  end.

Definition on_assistant_message (process : bool) (s : ChatState) (e : EventLike) : ChatState :=
  let data := rec (ev_data e) in
  let message := rec data.["message"] in
  let s1 :=
    if process then
      let thinking := reasoningOf message.["content"] in
      let phase := phase_of data (cs_turn s) in
      if bool_decide (is_Some (cs_thinkIndex s !! phase)) then finalizeThinking phase thinking s
      else if jeqb thinking [] then s
      else push (ItThinking (key_of (js "think:") e) (ts_of e) thinking None) s
    else s in
  let text := textOf message.["content"] in
  if jeqb text [] then s1
  else push (ItAlter (key_of (js "alter:") e) (ts_of e) text (num data.["turn"] (cs_turn s))) s1.

Definition on_assistant_chunk (process : bool) (s : ChatState) (e : EventLike) : ChatState :=
  if negb process then s
  else
    let data := rec (ev_data e) in
    let chunk := rec data.["chunk"] in
    let phase := phase_of data (cs_turn s) in
    let ctype := str chunk.["type"] in
    let block := rec chunk.["block"] in
    if jeqb ctype (js "block-end") && jeqb (str block.["type"]) (js "reasoning") then
      let full := str block.["text"] in
      if bool_decide (is_Some (cs_thinkIndex s !! phase)) then finalizeThinking phase full s
      else if jeqb full [] then s
      else push (ItThinking (js "think:" ++ phase ++ js ":" ++ dec (ev_seq e)) (ts_of e) full None) s
    else
      let delta := if jeqb ctype (js "reasoning-delta")
                   then or_str (str chunk.["text"]) (or_str (str chunk.["textDelta"]) (str chunk.["delta"]))
                   else [] in
      if jeqb delta [] then s else appendThinking phase delta (ts_of e) s.

Definition on_reasoning_chunks (process : bool) (s : ChatState) (e : EventLike) : ChatState :=
  if negb process then s
  else
    let data := rec (ev_data e) in
    let texts := omap (λ v, as_string (Some v)) (as_array data.["texts"] ?? []) in
    match texts with
    | [] => s
    | _ => appendThinking (phase_of data (cs_turn s)) (concat texts) (ts_of e) s
    end.

Definition on_tool_call (process : bool) (s : ChatState) (e : EventLike) : ChatState :=
  let data := rec (ev_data e) in
  let toolName := str data.["name"] in
  if negb (jeqb toolName (js "soulmirror_send_message"))
     && negb (jeqb toolName (js "soulmirror_send_group_message")) then
    if process then push (ItTool (key_of (js "tool:") e) (ts_of e) toolName (take 200 (str data.["arguments"]))) s
    else s
  else
    let args := rec (JSON_parse (str data.["arguments"])) in
    let callId := str data.["callId"] in
    let s1 := push (ItSend (key_of (js "send:") e) (ts_of e)
                      (or_str (str args.["fingerprint"]) (str args.["gid"])) (str args.["body"])
                      None None None None false) s in
    if jeqb callId [] then s1
    else mkCS (cs_items s1) (<[callId := length (cs_items s)]> (cs_sendIndex s1)) (cs_thinkIndex s1)
           (cs_running s1) (cs_turn s1).

Definition on_tool_result (s : ChatState) (e : EventLike) : ChatState :=
  let data := rec (ev_data e) in
  let message := rec data.["message"] in
  let callId := str (rec message.["source"]).["callId"] in
  match cs_sendIndex s !! callId with
  | None => s
  | Some i =>
      let parsed := rec (JSON_parse (textOf (rec (first_block message)).["content"])) in
      with_items (alter (settle_send (outcomeOf data) (is_true parsed.["auto"])) i) s
  end.

Definition chat_step (process : bool) (s : ChatState) (e : EventLike) : ChatState :=
  if is_type e (js "turn/start") then
    mkCS (cs_items s) (cs_sendIndex s) (cs_thinkIndex s) true (num (rec (ev_data e)).["turn"] (cs_turn s))
  else if is_type e (js "turn/end") then on_turn_end s e
  else if is_type e (js "user/message") then on_user_message s e
  else if is_type e (js "assistant/message") then on_assistant_message process s e
  else if is_type e (js "assistant/chunk") then on_assistant_chunk process s e
  else if is_type e (js "reasoning-chunks") then on_reasoning_chunks process s e
  else if is_type e (js "tool/call") then on_tool_call process s e
  else if is_type e (js "tool/result") then on_tool_result s e
  else s.

Definition chat_init : ChatState := mkCS [] ∅ ∅ false zero.

Definition chat_fold (process : bool) (events : list EventLike) : ChatState :=
  fold_left (chat_step process) events chat_init.

Definition chatFromEvents (events : list EventLike) (process : bool) : AlterChat :=
  let s := chat_fold process events in
  mkChat (cs_items s) (cs_running s) (last_seq events).

End chat.

(** * Theorems *)

(** ** In-place updates *)

Definition is_process (it : AlterChatItem) : bool :=
  match it with ItThinking _ _ _ _ | ItTool _ _ _ _ => true | _ => false end.

Definition is_send (it : AlterChatItem) : bool :=
  match it with ItSend _ _ _ _ _ _ _ _ _ => true | _ => false end.

Definition is_streaming (it : AlterChatItem) : bool :=
  match it with ItThinking _ _ _ (Some true) => true | _ => false end.

(** The transcript without the working trace. *)
Definition plain (l : list AlterChatItem) : list AlterChatItem := filterb (λ it, negb (is_process it)) l.

(** An update that touches thinking items only. *)
Definition trace_only (f : AlterChatItem → AlterChatItem) : Prop :=
  ∀ it, is_process (f it) = is_process it ∧ (is_process it = false → f it = it).

Lemma set_thinking_trace full : trace_only (set_thinking_text full).
Proof. by intros []. Qed.
Lemma add_delta_trace d : trace_only (add_delta d).
Proof. by intros []. Qed.
Lemma stop_streaming_trace : trace_only stop_streaming.
Proof. intros []; simpl; try done. by destruct streaming as [[]|]. Qed.

Lemma alter_plain f i l : trace_only f → plain (alter f i l) = plain l.
Proof.
  intros Hf. unfold plain, alter. revert i. induction l as [|x l IH]; intros [|i]; simpl; try done.
  - destruct (Hf x) as [-> Hx]. destruct (is_process x); simpl; [done|]. by rewrite Hx.
  - destruct (is_process x); simpl; by rewrite IH.
Qed.

Lemma alter_plain_take f i l n : trace_only f → plain (take n (alter f i l)) = plain (take n l).
Proof.
  intros Hf. unfold plain, alter. revert i n. induction l as [|x l IH]; intros [|i] [|n]; simpl; try done.
  - destruct (Hf x) as [-> Hx]. destruct (is_process x); simpl; [done|]. by rewrite Hx.
  - destruct (is_process x); simpl; by rewrite IH.
Qed.

(** Where position [i] of the full transcript lands in the plain one. *)
Definition plain_pos (l : list AlterChatItem) (i : nat) : nat := length (plain (take i l)).

Lemma plain_alter_send f i l it :
  l !! i = Some it → is_process it = false → is_process (f it) = false →
  plain (alter f i l) = alter f (plain_pos l i) (plain l).
Proof.
  unfold plain_pos, plain, alter. revert i. induction l as [|x l IH]; intros [|i] Hl Hit Hf; simplify_eq/=.
  - by rewrite Hit, Hf.
  - destruct (is_process x); simpl; [|f_equal]; by apply IH.
Qed.

Lemma plain_pos_alter f i l n :
  (∀ it, is_process (f it) = is_process it) → plain_pos (alter f i l) n = plain_pos l n.
Proof.
  intros Hf. unfold plain_pos, plain, alter. revert i n. induction l as [|x l IH]; intros [|i] [|n]; simpl; try done.
  - rewrite Hf. by destruct (is_process x).
  - destruct (is_process x); simpl; by rewrite IH.
Qed.

Lemma stop_all_plain m l : plain (stop_all m l) = plain l.
Proof.
  unfold stop_all. induction (map_to_list m) as [|p k IH]; simpl; [done|].
  rewrite alter_plain; [done|apply stop_streaming_trace].
Qed.

Lemma plain_app l k : plain (l ++ k) = plain l ++ plain k.
Proof. apply filterb_app. Qed.

Lemma plain_pos_app l k (i : nat) : (i <= length l)%nat → plain_pos (l ++ k) i = plain_pos l i.
Proof. intros Hi. unfold plain_pos. by rewrite take_app_le. Qed.

Lemma plain_pos_length l : plain_pos l (length l) = length (plain l).
Proof. unfold plain_pos. by rewrite firstn_all. Qed.

(** Positions and kinds survive updates that keep each item's kind. *)
Definition keeps (f : AlterChatItem → AlterChatItem) : Prop :=
  ∀ it, is_process (f it) = is_process it ∧ is_send (f it) = is_send it.

Lemma keeps_settle o a : keeps (settle_send o a).
Proof. by intros []. Qed.
Lemma keeps_set_thinking full : keeps (set_thinking_text full).
Proof. by intros []. Qed.
Lemma keeps_add_delta d : keeps (add_delta d).
Proof. by intros []. Qed.
Lemma keeps_stop : keeps stop_streaming.
Proof. intros []; simpl; try done. by destruct streaming as [[]|]. Qed.
#[local] Hint Resolve keeps_settle keeps_set_thinking keeps_add_delta keeps_stop : dsh.
#[local] Hint Resolve set_thinking_trace add_delta_trace stop_streaming_trace : dsh.

(** ** Simulation between the two modes *)

(** Entry [i] of the index map of the full transcript points to a send item
    and corresponds to entry [plain_pos l i] of the plain one. *)
Definition send_index_rel (l : list AlterChatItem) (plain_ix full_ix : gmap (list Z) nat) : Prop :=
  plain_ix = plain_pos l <$> full_ix ∧
  ∀ c i, full_ix !! c = Some i → ∃ it, l !! i = Some it ∧ is_send it = true.

Record mode_rel (p f : ChatState) : Prop := {
  mr_items : cs_items p = plain (cs_items f);
  mr_send : send_index_rel (cs_items f) (cs_sendIndex p) (cs_sendIndex f);
  mr_running : cs_running p = cs_running f;
  mr_turn : cs_turn p = cs_turn f;
  mr_think : cs_thinkIndex p = ∅;
}.

Lemma send_not_process it : is_send it = true → is_process it = false.
Proof. by destruct it. Qed.

Lemma send_index_app l k px fx : send_index_rel l px fx → send_index_rel (l ++ k) px fx.
Proof.
  intros [-> Hs]. split.
  - apply map_eq. intros c. rewrite !lookup_fmap. destruct (fx !! c) as [i|] eqn:E; simpl; [|done].
    destruct (Hs c i E) as (it & Hit & _). f_equal. rewrite plain_pos_app; [done|].
    apply lookup_lt_Some in Hit. lia.
  - intros c i E. destruct (Hs c i E) as (it & Hit & ?). exists it. split; [|done].
    by apply lookup_app_l_Some.
Qed.

Lemma send_index_alter g j l px fx : keeps g → send_index_rel l px fx → send_index_rel (alter g j l) px fx.
Proof.
  intros Hg [-> Hs]. split.
  - apply map_eq. intros c. rewrite !lookup_fmap. destruct (fx !! c); simpl; [|done].
    f_equal. rewrite plain_pos_alter; [done|]. intros it. apply Hg.
  - intros c i E. destruct (Hs c i E) as (it & Hit & Hk). destruct (decide (i = j)) as [->|].
    + exists (g it). rewrite list_lookup_alter, decide_True, Hit by done. split; [done|]. by rewrite (proj2 (Hg it)).
    + exists it. by rewrite list_lookup_alter_ne.
Qed.

Lemma send_index_insert l c k ts fp_ body o g d de a px fx :
  send_index_rel l px fx →
  send_index_rel (l ++ [ItSend k ts fp_ body o g d de a]) (<[c := length (plain l)]> px) (<[c := length l]> fx).
Proof.
  intros Hrel. pose proof (send_index_app l [ItSend k ts fp_ body o g d de a] px fx Hrel) as [-> Hs].
  split.
  - rewrite fmap_insert. f_equal. rewrite plain_pos_app, plain_pos_length by lia. done.
  - intros c' i. destruct (decide (c = c')) as [->|]; [|rewrite lookup_insert_ne by done; apply Hs].
    rewrite lookup_insert_eq. intros [= <-]. eexists. split; [by apply list_lookup_middle|done].
Qed.

Lemma stop_all_send_index m l px fx : send_index_rel l px fx → send_index_rel (stop_all m l) px fx.
Proof.
  intros Hrel. unfold stop_all. induction (map_to_list m) as [|p k IH]; simpl; [done|].
  apply send_index_alter; auto with dsh.
Qed.

Lemma push_rel it p f : is_process it = false → mode_rel p f → mode_rel (push it p) (push it f).
Proof.
  intros Hit []. constructor; simpl; try done.
  - rewrite plain_app, <- mr_items0. unfold plain. simpl. by rewrite Hit.
  - by apply send_index_app.
Qed.

Lemma push_trace_rel it p f : is_process it = true → mode_rel p f → mode_rel p (push it f).
Proof.
  intros Hit []. constructor; simpl; try done.
  - rewrite plain_app, <- mr_items0. unfold plain. simpl. by rewrite Hit, app_nil_r.
  - by apply send_index_app.
Qed.

Lemma alter_trace_rel g i p f : trace_only g → keeps g → mode_rel p f → mode_rel p (with_items (alter g i) f).
Proof.
  intros Hg Hk []. constructor; simpl; try done.
  - by rewrite alter_plain.
  - by apply send_index_alter.
Qed.

Lemma finalizeThinking_rel phase full p f : mode_rel p f → mode_rel p (finalizeThinking phase full f).
Proof. intros Hr. unfold finalizeThinking. case_match; [|done]. apply alter_trace_rel; auto with dsh. Qed.

Lemma appendThinking_rel phase d ts p f : mode_rel p f → mode_rel p (appendThinking phase d ts f).
Proof.
  intros Hr. unfold appendThinking. case_match; [apply alter_trace_rel; auto with dsh|].
  destruct (push_trace_rel (ItThinking (js "think:" ++ phase) ts d (Some true)) p f eq_refl Hr) as [].
  by constructor.
Qed.

Section simulation.
Context `{JsonText} `{NumberToString}.

Lemma on_turn_end_rel p f e : mode_rel p f → mode_rel (on_turn_end p e) (on_turn_end f e).
Proof.
  intros Hr. unfold on_turn_end. rewrite (mr_turn _ _ Hr).
  assert (mode_rel (mkCS (stop_all (cs_thinkIndex p) (cs_items p)) (cs_sendIndex p) (cs_thinkIndex p) false (cs_turn p))
                   (mkCS (stop_all (cs_thinkIndex f) (cs_items f)) (cs_sendIndex f) (cs_thinkIndex f) false (cs_turn f))).
  { destruct Hr. constructor; simpl; try done.
    - rewrite mr_think0, stop_all_plain, <- mr_items0. unfold stop_all. by rewrite map_to_list_empty.
    - by apply stop_all_send_index. }
  rewrite (mr_turn _ _ Hr) in *. case_match; [done|]. by apply push_rel.
Qed.

Lemma on_user_message_rel p f e : mode_rel p f → mode_rel (on_user_message p e) (on_user_message f e).
Proof. intros Hr. unfold on_user_message. repeat case_match; try done; by apply push_rel. Qed.

Lemma on_assistant_message_rel p f e :
  mode_rel p f → mode_rel (on_assistant_message false p e) (on_assistant_message true f e).
Proof.
  intros Hr. unfold on_assistant_message. rewrite (mr_turn _ _ Hr).
  set (f1 := if bool_decide _ then _ else _).
  assert (mode_rel p f1) as Hr1.
  { unfold f1. repeat case_match; [by apply finalizeThinking_rel|done|by apply push_trace_rel]. }
  clearbody f1. case_match; [done|]. by apply push_rel.
Qed.

Lemma on_assistant_chunk_rel p f e : mode_rel p f → mode_rel p (on_assistant_chunk true f e).
Proof.
  intros Hr. unfold on_assistant_chunk. simpl.
  repeat case_match; auto using finalizeThinking_rel, appendThinking_rel, push_trace_rel.
Qed.

Lemma on_reasoning_chunks_rel p f e : mode_rel p f → mode_rel p (on_reasoning_chunks true f e).
Proof. intros Hr. unfold on_reasoning_chunks. simpl. case_match; [done|]. by apply appendThinking_rel. Qed.

Lemma on_tool_call_rel p f e : mode_rel p f → mode_rel (on_tool_call false p e) (on_tool_call true f e).
Proof.
  intros Hr. unfold on_tool_call. case_match; [by apply push_trace_rel|].
  set (it := ItSend _ _ _ _ _ _ _ _ _). assert (mode_rel (push it p) (push it f)) as Hr1 by by apply push_rel.
  case_match; [done|]. destruct Hr1. constructor; simpl in *; try done.
  rewrite (mr_items _ _ Hr). apply send_index_insert. apply Hr.
Qed.

Lemma on_tool_result_rel p f e : mode_rel p f → mode_rel (on_tool_result p e) (on_tool_result f e).
Proof.
  intros Hr. unfold on_tool_result. set (c := str _). set (g := settle_send _ _).
  assert (keeps g) as Hg by apply keeps_settle. clearbody g.
  destruct (mr_send _ _ Hr) as [Hpx Hs]. rewrite Hpx, lookup_fmap.
  destruct (cs_sendIndex f !! c) as [i|] eqn:E; simpl; [|done].
  destruct (Hs c i E) as (it & Hit & Hsend). destruct Hr. constructor; simpl; try done.
  - rewrite mr_items0. symmetry. apply (plain_alter_send _ _ _ it); [done|by apply send_not_process|].
    rewrite (proj1 (Hg it)).
    by apply send_not_process.
  - apply send_index_alter; [done|by split].
Qed.

Lemma chat_step_rel p f e : mode_rel p f → mode_rel (chat_step false p e) (chat_step true f e).
Proof.
  intros Hr. unfold chat_step. case_match.
  { destruct Hr. constructor; simpl; try done. by rewrite mr_turn0. }
  case_match; [by apply on_turn_end_rel|]. case_match; [by apply on_user_message_rel|].
  case_match; [by apply on_assistant_message_rel|]. case_match; [by apply on_assistant_chunk_rel|].
  case_match; [by apply on_reasoning_chunks_rel|]. case_match; [by apply on_tool_call_rel|].
  case_match; [by apply on_tool_result_rel|done].
Qed.

Lemma chat_fold_rel events p f :
  mode_rel p f → mode_rel (fold_left (chat_step false) events p) (fold_left (chat_step true) events f).
Proof.
  revert p f. induction events as [|e events IH]; intros p f Hr; simpl; [done|].
  by apply IH, chat_step_rel.
Qed.

(** C32. The transcript without [process] is exactly the transcript with it,
    less the thinking and tool items: showing the working trace never hides,
    adds, reorders or alters a conversation item, although the in-place updates
    go through different positions of the array. *)
Theorem chatFromEvents_process (events : list EventLike) :
  ch_items (chatFromEvents events false) = plain (ch_items (chatFromEvents events true)) ∧
  ch_running (chatFromEvents events false) = ch_running (chatFromEvents events true).
Proof.
  assert (mode_rel chat_init chat_init) as Hinit.
  { by constructor. }
  destruct (chat_fold_rel events _ _ Hinit). done.
Qed.
End simulation.

Definition DecimalNumbers : NumberToString.
Proof.
  refine {| show_number := λ n, match n with Fin q => dec (Qc_floor q) | PosInf => js "Infinity" | NegInf => js "-Infinity" | NaN => js "NaN" end |}.
  intros z. unfold num_of_Z. by rewrite Qc_floor_Z.
Defined.

Lemma chatFromEvents_process_witness :
  let log := [sample_start; sample_call (js "c"); sample_tool; sample_result (js "c")] in
  length (ch_items (@chatFromEvents CodedJson DecimalNumbers log true)) = 2%nat ∧
  ch_items (@chatFromEvents CodedJson DecimalNumbers log false) =
    plain (ch_items (@chatFromEvents CodedJson DecimalNumbers log true)).
Proof. split; [vm_compute; reflexivity|]. apply (@chatFromEvents_process CodedJson DecimalNumbers). Defined.

(** ** Streaming *)

(** Every item still streaming is registered under its phase. *)
Definition stream_inv (s : ChatState) : Prop :=
  ∀ i it, cs_items s !! i = Some it → is_streaming it = true → ∃ ph, cs_thinkIndex s !! ph = Some i.

(** An update that never starts a stream. *)
Definition quiet (g : AlterChatItem → AlterChatItem) : Prop :=
  ∀ it, is_streaming (g it) = true → is_streaming it = true.

Lemma quiet_settle o a : quiet (settle_send o a).
Proof. by intros []. Qed.
Lemma quiet_set_thinking full : quiet (set_thinking_text full).
Proof. by intros []. Qed.
Lemma quiet_add_delta d : quiet (add_delta d).
Proof. by intros []. Qed.
Lemma quiet_stop : quiet stop_streaming.
Proof. intros []; simpl; try done. by destruct streaming as [[]|]. Qed.
#[local] Hint Resolve quiet_settle quiet_set_thinking quiet_add_delta quiet_stop : dsh.

Lemma push_stream it s : is_streaming it = false → stream_inv s → stream_inv (push it s).
Proof.
  intros Hit Hs i it' Hl Hst. simpl in *. apply lookup_app_Some in Hl as [Hl|[Hle Hl]]; [by apply (Hs i it')|].
  apply list_lookup_singleton_Some in Hl as [_ <-]. congruence.
Qed.

Lemma alter_streaming g j (l : list AlterChatItem) (i : nat) it :
  quiet g → alter g j l !! i = Some it → is_streaming it = true →
  ∃ it0, l !! i = Some it0 ∧ is_streaming it0 = true.
Proof.
  intros Hg Hl Hst. destruct (decide (i = j)) as [->|Hne].
  - rewrite list_lookup_alter, decide_True in Hl by done.
    apply fmap_Some in Hl as (it0 & Hl & ->). eauto.
  - rewrite list_lookup_alter_ne in Hl by done. eauto.
Qed.

Lemma alter_stream g j s : quiet g → stream_inv s → stream_inv (with_items (alter g j) s).
Proof.
  intros Hg Hs i it Hl Hst. destruct (alter_streaming _ _ _ _ _ Hg Hl Hst) as (it0 & Hl0 & Hst0).
  by apply (Hs i it0).
Qed.

Lemma stop_all_streaming m l i it :
  stop_all m l !! i = Some it → is_streaming it = true →
  ∃ it0, l !! i = Some it0 ∧ is_streaming it0 = true ∧ ∀ ph, m !! ph ≠ Some i.
Proof.
  unfold stop_all. intros Hl Hst.
  assert (∃ it0, l !! i = Some it0 ∧ is_streaming it0 = true ∧ ∀ p, p ∈ map_to_list m → p.2 ≠ i) as (it0 & ? & ? & Hm).
  { revert Hl. induction (map_to_list m) as [|p k IH]; simpl; intros Hl.
    - exists it. split_and!; [done..|]. intros p. by rewrite elem_of_nil.
    - destruct (decide (p.2 = i)) as [Heq|Hne].
      + exfalso. rewrite list_lookup_alter, decide_True in Hl by done.
        apply fmap_Some in Hl as (it0 & _ & ->). revert Hst.
        destruct it0 as [| | | | | |? ? ? [[]|]|]; done.
      + rewrite list_lookup_alter_ne in Hl by done. destruct (IH Hl) as (it0 & ? & ? & Hk).
        exists it0. split_and!; [done..|]. intros q. rewrite elem_of_cons. naive_solver. }
  exists it0. split_and!; [done..|]. intros ph Hph. apply (Hm (ph, i)); [|done].
  by apply elem_of_map_to_list.
Qed.

Lemma appendThinking_stream ph d ts s : stream_inv s → stream_inv (appendThinking ph d ts s).
Proof.
  intros Hs. unfold appendThinking. destruct (cs_thinkIndex s !! ph) as [i|] eqn:E.
  { apply alter_stream; auto with dsh. }
  intros i it Hl Hst. simpl in *. apply lookup_app_Some in Hl as [Hl|[Hle Hl]].
  - destruct (Hs i it Hl Hst) as [ph' Hph]. exists ph'. rewrite lookup_insert_ne; [done|]. congruence.
  - apply list_lookup_singleton_Some in Hl as [Hi _]. exists ph. rewrite lookup_insert_eq. f_equal. lia.
Qed.

Lemma finalizeThinking_stream ph full s : stream_inv s → stream_inv (finalizeThinking ph full s).
Proof. intros Hs. unfold finalizeThinking. case_match; [|done]. apply alter_stream; auto with dsh. Qed.

#[local] Hint Resolve push_stream finalizeThinking_stream appendThinking_stream : dsh.

Section streaming.
Context `{JsonText} `{NumberToString}.

Lemma on_turn_end_quiet s e it :
  stream_inv s → it ∈ cs_items (on_turn_end s e) → is_streaming it = false.
Proof.
  intros Hs Hit.
  assert (∀ it, it ∈ stop_all (cs_thinkIndex s) (cs_items s) → is_streaming it = false) as Hstop.
  { intros it' Hin. apply list_elem_of_lookup in Hin as [i Hl].
    destruct (is_streaming it') eqn:Est; [|done].
    destruct (stop_all_streaming _ _ _ _ Hl Est) as (it0 & Hl0 & Hst0 & Hno).
    destruct (Hs i it0 Hl0 Hst0) as [ph Hph]. by destruct (Hno ph). }
  revert Hit. unfold on_turn_end. case_match; simpl; [apply Hstop|].
  rewrite elem_of_app, list_elem_of_singleton. intros [?| ->]; [by apply Hstop|done].
Qed.

Lemma chat_step_stream process s e : stream_inv s → stream_inv (chat_step process s e).
Proof.
  intros Hs. unfold chat_step. case_match; [done|]. case_match.
  { intros i it Hl Hst. apply list_elem_of_lookup_2 in Hl.
    rewrite (on_turn_end_quiet _ _ _ Hs Hl) in Hst. done. }
  case_match; [unfold on_user_message; repeat case_match; auto with dsh|].
  case_match.
  { unfold on_assistant_message. repeat case_match; auto 10 with dsh. }
  case_match; [unfold on_assistant_chunk; repeat case_match; auto with dsh|].
  case_match; [unfold on_reasoning_chunks; repeat case_match; auto with dsh|].
  case_match; [unfold on_tool_call; repeat case_match; auto with dsh|].
  - assert (stream_inv (push (ItSend (key_of (js "send:") e) (ts_of e)
      (or_str (str (rec (JSON_parse (str (rec (ev_data e)).["arguments"]))).["fingerprint"])
              (str (rec (JSON_parse (str (rec (ev_data e)).["arguments"]))).["gid"]))
      (str (rec (JSON_parse (str (rec (ev_data e)).["arguments"]))).["body"]) None None None None false) s)) as Hp
      by auto with dsh.
    exact Hp.
  - case_match; [|done]. unfold on_tool_result. case_match; [|done]. apply alter_stream; auto with dsh.
Qed.

Lemma chat_fold_stream process events s : stream_inv s → stream_inv (fold_left (chat_step process) events s).
Proof. revert s. induction events as [|e events IH]; intros s Hs; simpl; [done|]. by apply IH, chat_step_stream. Qed.

(** Right after a [turn/end] the transcript is at rest: the turn is not
    running and no thinking item is left streaming, whichever phases were
    opened before. *)
Theorem chatFromEvents_turn_end (process : bool) (events : list EventLike) (e : EventLike)
    (Hend : is_type e (js "turn/end") = true) :
  ch_running (chatFromEvents (events ++ [e]) process) = false ∧
  ∀ it, it ∈ ch_items (chatFromEvents (events ++ [e]) process) → is_streaming it = false.
Proof.
  unfold chatFromEvents, chat_fold. rewrite fold_left_app. simpl. set (s := fold_left _ _ _).
  assert (stream_inv s) as Hs by (apply chat_fold_stream; intros i it Hl; done).
  unfold chat_step. rewrite (is_type_neq _ _ "turn/start" Hend) by (vm_compute; discriminate).
  rewrite Hend. split.
  - unfold on_turn_end. by case_match.
  - intros it. by apply on_turn_end_quiet.
Qed.
End streaming.

Definition sample_delta : EventLike :=
  mkEvent (js "assistant/chunk") 7 70
    (Some (JObj [(js "chunk", JObj [(js "type", JStr (js "reasoning-delta")); (js "text", JStr (js "hm"))])])).
Definition sample_end : EventLike := mkEvent (js "turn/end") 8 80 None.

Lemma chatFromEvents_turn_end_witness :
  someb is_streaming (ch_items (@chatFromEvents CodedJson DecimalNumbers [sample_start; sample_delta] true)) = true ∧
  ch_running (@chatFromEvents CodedJson DecimalNumbers ([sample_start; sample_delta] ++ [sample_end]) true) = false.
Proof.
  split; [vm_compute; reflexivity|].
  apply (@chatFromEvents_turn_end CodedJson DecimalNumbers). vm_compute. reflexivity.
Defined.
