(* ===== verification/GroupSettings.v ===== *)
(** * Per-group client settings (group-settings.ts)

    Which of my voices take part in a group, who may command them, and the one
    duty voice.  The store is an in-memory map with write-through to
    [dsh-groups.json]; the file's content is a JSON value ([None]: missing or
    unparsable).  [io] says whether a write succeeds. *)

From S2P Require Import Prelude JsString Json.
#[local] Open Scope Z_scope.

Definition VOICE_ALTER : list Z := js "alter".
Definition COMMANDER_ANY : list Z := js "*".

(** [{ on: true, commanders? }]. *)
Record GroupVoiceSetting := mkVoice { vo_commanders : option (list (list Z)) }.

Record GroupSettings := mkGS {
  gs_voices : option (gmap (list Z) GroupVoiceSetting);
  gs_duty : option (list Z);
  gs_muted : option bool;
}.

Definition empty_settings : GroupSettings := mkGS None None None.

(** ** Normalisation of file contents *)

Definition MAX_COMMANDERS : nat := 64.

(** The loop of [normalizeCommanders]; [out] grows by one per push. *)
Fixpoint commanders_loop (raw : list json) (out : list (list Z)) : list (list Z) :=
  match raw with
  | [] => out
  | JStr c :: raw' =>
      let v := trim c in
      if jeqb v [] || bool_decide (v ∈ out) then commanders_loop raw' out
      else
        let out' := out ++ [v] in
        if bool_decide (length out' = MAX_COMMANDERS) then out' else commanders_loop raw' out'
  | _ :: raw' => commanders_loop raw' out
  end.

Definition normalizeCommanders (raw : option json) : list (list Z) :=
  match raw with Some (JArr l) => commanders_loop l [] | _ => [] end.

(** [...(commanders.length === 0 ? {} : { commanders })]. *)
Definition opt_list {A} (l : list A) : option (list A) := match l with [] => None | _ => Some l end.

(** One entry of [voices] ([undefined]: not written). *)
Definition normalize_voice (name : list Z) (entry : json) : option GroupVoiceSetting :=
  if jeqb (trim name) [] then None
  else match entry with
  | JBool true => Some (mkVoice None)
  | JObj _ | JArr _ =>
      if is_true (get entry (js "on"))
      then Some (mkVoice (opt_list (normalizeCommanders (get entry (js "commanders")))))
      else None
  | _ => None
  end.

(** [...(Object.keys(voices).length === 0 ? {} : { voices })]. *)
Definition opt_map {V} (m : gmap (list Z) V) : option (gmap (list Z) V) :=
  if bool_decide (m = ∅) then None else Some m.

Definition drop_duty (voices : gmap (list Z) GroupVoiceSetting) (duty : option (list Z)) : option (list Z) :=
  match duty with
  | Some d => match voices !! d with Some _ => Some d | None => None end
  | None => None
  end.

Definition normalizeEntry (value : json) : option GroupSettings :=
  if negb (is_object value) then None
  else
    let voices0 := match get value (js "voices") with
                   | Some v => if is_object v then read_entries normalize_voice (entries v) else ∅
                   | None => ∅
                   end in
    let voices := if is_true (get value (js "alter")) then <[VOICE_ALTER := mkVoice None]> voices0 else voices0 in
    let duty0 := match as_string (get value (js "duty")) with Some d => d | None => [] end in
    let duty1 := if jeqb duty0 [] && is_str (get value (js "mode")) (js "always")
                    && bool_decide (is_Some (voices !! VOICE_ALTER))
                 then VOICE_ALTER else duty0 in
    let duty := drop_duty voices (non_empty duty1) in
    let muted := is_true (get value (js "muted")) in
    if bool_decide (voices = ∅) && negb muted then None
    else Some (mkGS (opt_map voices) duty (if muted then Some true else None)).

Definition normalize (raw : json) : gmap (list Z) GroupSettings :=
  if is_object raw then read_entries (λ _, normalizeEntry) (entries raw) else ∅.

(** ** What [JSON.stringify] writes *)

Definition encode_voice (v : GroupVoiceSetting) : json :=
  JObj ([(js "on", JBool true)] ++ opt_prop (js "commanders") (λ l, JArr (map JStr l)) (vo_commanders v)).

Definition encode_entry (s : GroupSettings) : json :=
  JObj (opt_prop (js "voices") (obj_of_map encode_voice) (gs_voices s)
        ++ opt_prop (js "duty") JStr (gs_duty s) ++ opt_prop (js "muted") JBool (gs_muted s)).

(** ** The store *)

Record GroupSettingsStore := mkGStore {
  st_data : gmap (list Z) GroupSettings;
  st_loaded : bool;
  st_file : option json;
}.

Definition store_at (file : option json) : GroupSettingsStore := mkGStore ∅ false file.

Definition load (s : GroupSettingsStore) : GroupSettingsStore :=
  mkGStore (match st_file s with Some raw => normalize raw | None => ∅ end) true (st_file s).

Definition get_group (s : GroupSettingsStore) (gid : list Z) : GroupSettings := st_data s !! gid ?? empty_settings.

Definition voice_of (s : GroupSettingsStore) (gid name : list Z) : option GroupVoiceSetting :=
  g ← st_data s !! gid; vs ← gs_voices g; vs !! name.

Definition voiceOn (s : GroupSettingsStore) (gid name : list Z) : bool := bool_decide (is_Some (voice_of s gid name)).
Definition commandersOf (s : GroupSettingsStore) (gid name : list Z) : list (list Z) :=
  (voice_of s gid name ≫= vo_commanders) ?? [].
Definition dutyOf (s : GroupSettingsStore) (gid : list Z) : option (list Z) := st_data s !! gid ≫= gs_duty.
Definition alterOn (s : GroupSettingsStore) (gid : list Z) : bool := voiceOn s gid VOICE_ALTER.

Inductive GroupAlterMode := ModeMention | ModeAlways.
Definition modeOf (s : GroupSettingsStore) (gid : list Z) : GroupAlterMode :=
  if bool_decide (dutyOf s gid = Some VOICE_ALTER) then ModeAlways else ModeMention.

(** ** Patches *)

Record VoicePatch := mkVP { vp_name : list Z; vp_on : bool; vp_commanders : option (list (list Z)) }.

(** [duty?: string | null]. *)
Inductive DutyPatch := DutyKeep | DutyClear | DutySet (name : list Z).

Record GroupSettingsPatch := mkPatch {
  pa_alter : option bool; pa_mode : option GroupAlterMode; pa_voice : option VoicePatch;
  pa_duty : DutyPatch; pa_muted : option bool }.

(** The locals [voices] and [duty] that [switchVoice] updates. *)
Notation locals := (gmap (list Z) GroupVoiceSetting * option (list Z))%type.

Definition switchVoice (name : list Z) (on : bool) (commanders : option (list (list Z))) (l : locals) : locals :=
  let '(voices, duty) := l in
  if jeqb (trim name) [] then l
  else if on then
    let kept := match commanders with
                | None => voices !! name ≫= vo_commanders
                | Some cs => Some (normalizeCommanders (Some (JArr (map JStr cs))))
                end in
    (<[name := mkVoice (kept ≫= opt_list)]> voices, duty)
  else (delete name voices, if bool_decide (duty = Some name) then None else duty).

Definition apply_alter (p : GroupSettingsPatch) (l : locals) : locals :=
  match pa_alter p with Some on => switchVoice VOICE_ALTER on None l | None => l end.

Definition apply_mode (p : GroupSettingsPatch) (l : locals) : locals :=
  match pa_mode p with
  | Some ModeAlways => ((switchVoice VOICE_ALTER true None l).1, Some VOICE_ALTER)
  | Some ModeMention => (l.1, if bool_decide (l.2 = Some VOICE_ALTER) then None else l.2)
  | None => l
  end.

Definition apply_voice (p : GroupSettingsPatch) (l : locals) : locals :=
  match pa_voice p with Some v => switchVoice (vp_name v) (vp_on v) (vp_commanders v) l | None => l end.

Definition apply_duty (p : GroupSettingsPatch) (l : locals) : locals :=
  match pa_duty p with
  | DutyKeep => l
  | DutyClear => (l.1, None)
  | DutySet d => if jeqb (trim d) [] then l else ((switchVoice d true None l).1, Some d)
  end.

(** The entry [set] builds from the current one. *)
Definition patched (current : GroupSettings) (p : GroupSettingsPatch) : GroupSettings :=
  let l0 : locals := (gs_voices current ?? ∅, gs_duty current) in
  let '(voices, duty0) := apply_duty p (apply_voice p (apply_mode p (apply_alter p l0))) in
  let duty := drop_duty voices duty0 in
  let muted := match pa_muted p with Some b => Some b | None => gs_muted current end in
  mkGS (opt_map voices) duty (if bool_decide (muted = Some true) then Some true else None).

#[export] Instance GroupVoiceSetting_eq_dec : EqDecision GroupVoiceSetting.
Proof. solve_decision. Defined.
#[export] Instance GroupSettings_eq_dec : EqDecision GroupSettings.
Proof. solve_decision. Defined.

Definition put_entry (gid : list Z) (e : GroupSettings) (m : gmap (list Z) GroupSettings) : gmap (list Z) GroupSettings :=
  if bool_decide (e = empty_settings) then delete gid m else <[gid := e]> m.

(** [mkdir] then [writeFile]: on failure the exception leaves memory changed
    and the file as it was. *)
Definition persist (io : bool) (s : GroupSettingsStore) : GroupSettingsStore :=
  if io then mkGStore (st_data s) (st_loaded s) (Some (obj_of_map encode_entry (st_data s))) else s.

(** [set]: the new store and the returned settings ([None]: it threw). *)
Definition set_group (io : bool) (gid : list Z) (p : GroupSettingsPatch) (s : GroupSettingsStore)
  : GroupSettingsStore * option GroupSettings :=
  let s1 := mkGStore (put_entry gid (patched (get_group s gid) p) (st_data s)) (st_loaded s) (st_file s) in
  let s2 := persist io s1 in
  (s2, if io then Some (get_group s2 gid) else None).

Definition remove_group (io : bool) (gid : list Z) (s : GroupSettingsStore) : GroupSettingsStore :=
  match st_data s !! gid with
  | None => s
  | Some _ => persist io (mkGStore (delete gid (st_data s)) (st_loaded s) (st_file s))
  end.

(** * Theorems *)

(** ** The well-formedness invariant *)

Definition commanders_wf (l : list (list Z)) : Prop :=
  NoDup l ∧ (length l <= MAX_COMMANDERS)%nat ∧ ∀ c, c ∈ l → c ≠ [] ∧ trim c = c.

Definition voice_wf (v : GroupVoiceSetting) : Prop :=
  ∀ l, vo_commanders v = Some l → l ≠ [] ∧ commanders_wf l.

Definition voices_wf (vs : gmap (list Z) GroupVoiceSetting) : Prop :=
  map_Forall (λ n v, trim n ≠ [] ∧ voice_wf v) vs.

(** An entry: non-empty; its voices well-formed; duty implies participation. *)
Definition entry_wf (s : GroupSettings) : Prop :=
  (∀ vs, gs_voices s = Some vs → vs ≠ ∅ ∧ voices_wf vs) ∧
  (∀ d, gs_duty s = Some d → ∃ vs, gs_voices s = Some vs ∧ is_Some (vs !! d)) ∧
  (gs_muted s = None ∨ gs_muted s = Some true) ∧
  s ≠ empty_settings.

Definition store_wf (s : GroupSettingsStore) : Prop := map_Forall (λ _, entry_wf) (st_data s).

Lemma commanders_loop_wf raw out :
  commanders_wf out → (length out < MAX_COMMANDERS)%nat → commanders_wf (commanders_loop raw out).
Proof.
  revert out. induction raw as [|v raw IH]; intros out Hwf Hlt; simpl; [done|].
  destruct v; try by apply IH.
  case_match eqn:Ec; [by apply IH|]. bools. apply jeqb_neq in H.
  assert (commanders_wf (out ++ [trim s])) as Hwf'.
  { destruct Hwf as (Hnd & Hlen & Hall). split_and!.
    - apply NoDup_app. split_and!; [done| |apply NoDup_singleton]. intros x Hx. rewrite list_elem_of_singleton. by intros ->.
    - rewrite length_app. simpl. lia.
    - intros c. rewrite elem_of_app, list_elem_of_singleton. intros [?| ->]; [auto|]. split; [done|apply trim_idem]. }
  case_bool_decide as Hl; [done|]. apply IH; [done|]. destruct Hwf' as (_ & ? & _). lia.
Qed.

Lemma normalizeCommanders_wf raw : commanders_wf (normalizeCommanders raw).
Proof.
  assert (commanders_wf []) as Hnil by (split_and!; [constructor|simpl; lia|set_solver]).
  unfold normalizeCommanders. destruct raw as [[]|]; try done. apply commanders_loop_wf; [done|unfold MAX_COMMANDERS; simpl; lia].
Qed.

Lemma opt_list_wf l : commanders_wf l → voice_wf (mkVoice (opt_list l)).
Proof. intros Hwf k. destruct l; simpl; intros; by simplify_eq. Qed.

Lemma commanders_loop_id l out :
  commanders_wf (out ++ l) → (length out < MAX_COMMANDERS)%nat → commanders_loop (map JStr l) out = out ++ l.
Proof.
  revert out. induction l as [|c l IH]; intros out (Hnd & Hlen & Hall) Hlt; simpl; [by rewrite app_nil_r|].
  destruct (Hall c) as [Hc Ht]; [set_solver|]. rewrite Ht.
  assert (jeqb c [] = false) as -> by by apply jeqb_neq. simpl.
  rewrite bool_decide_eq_false_2.
  2:{ apply NoDup_app in Hnd as (_ & Hdis & _). intros Hin. apply (Hdis c Hin). set_solver. }
  rewrite length_app in Hlen. simpl in Hlen.
  case_bool_decide as Hl.
  - rewrite length_app in Hl. simpl in Hl. destruct l; [done|]. simpl in Hlen. lia.
  - rewrite IH; [by rewrite <- app_assoc| |].
    + rewrite <- app_assoc. split_and!; [done| |done]. rewrite length_app. simpl. lia.
    + rewrite length_app in *. simpl in *. lia.
Qed.

Lemma normalizeCommanders_id l : commanders_wf l → normalizeCommanders (Some (JArr (map JStr l))) = l.
Proof. intros Hwf. apply (commanders_loop_id l []); [done|]. unfold MAX_COMMANDERS. simpl. lia. Qed.

Lemma normalize_voice_wf n e v : normalize_voice n e = Some v → trim n ≠ [] ∧ voice_wf v.
Proof.
  unfold normalize_voice. case_match eqn:En; [done|]. apply jeqb_neq in En. intros Hv. split; [done|].
  repeat case_match; simplify_eq; try done; apply opt_list_wf, normalizeCommanders_wf.
Qed.

Lemma read_voices_wf o : voices_wf (read_entries normalize_voice o).
Proof. apply read_entries_all. apply normalize_voice_wf. Qed.

Lemma voices_wf_insert n v vs : trim n ≠ [] → voice_wf v → voices_wf vs → voices_wf (<[n := v]> vs).
Proof. intros ? ? ?. by apply map_Forall_insert_2. Qed.

Lemma voice_wf_plain : voice_wf (mkVoice None).
Proof. by intros l. Qed.

Lemma opt_map_Some {V} (m vs : gmap (list Z) V) : opt_map m = Some vs ↔ m = vs ∧ vs ≠ ∅.
Proof. unfold opt_map. case_bool_decide; naive_solver. Qed.

Lemma opt_map_None {V} (m : gmap (list Z) V) : opt_map m = None ↔ m = ∅.
Proof. unfold opt_map. case_bool_decide; naive_solver. Qed.

Lemma drop_duty_Some vs o d : drop_duty vs o = Some d ↔ o = Some d ∧ is_Some (vs !! d).
Proof.
  unfold drop_duty. destruct o as [d'|]; [destruct (vs !! d') as [v|] eqn:E|]; split; intros Hd; simplify_eq.
  - split; [done|by exists v].
  - by destruct Hd as [[= ->] _].
  - destruct Hd as [[= ->] [v Hv]]. congruence.
  - by destruct Hd.
Qed.

(** The three fields of an entry built from final locals are well-formed. *)
Lemma built_entry_wf vs duty (muted : bool) :
  voices_wf vs → mkGS (opt_map vs) (drop_duty vs duty) (if muted then Some true else None) ≠ empty_settings →
  entry_wf (mkGS (opt_map vs) (drop_duty vs duty) (if muted then Some true else None)).
Proof.
  intros Hvs Hne. split_and!; simpl; [| |by destruct muted; [right|left]|done].
  - intros vs' [-> ?]%opt_map_Some. done.
  - intros d [_ Hd]%drop_duty_Some. exists vs. split; [|done]. apply opt_map_Some. split; [done|].
    intros ->. rewrite lookup_empty in Hd. by destruct Hd.
Qed.

Lemma normalizeEntry_wf v s : normalizeEntry v = Some s → entry_wf s.
Proof.
  unfold normalizeEntry. case_match; [done|].
  set (voices0 := match get v (js "voices") with Some _ => _ | None => _ end).
  assert (voices_wf voices0) as H0.
  { unfold voices0. repeat case_match; [apply read_voices_wf|apply map_Forall_empty..]. }
  set (voices := if is_true (get v (js "alter")) then _ else _).
  assert (voices_wf voices) as Hvs.
  { unfold voices. case_match; [|done]. apply voices_wf_insert; [vm_compute; discriminate|apply voice_wf_plain|done]. }
  clearbody voices0 voices. set (duty1 := if _ && _ && _ then _ else _). clearbody duty1.
  case_match eqn:Ek; [done|]. intros [= <-].
  apply (built_entry_wf voices (non_empty duty1)); [done|]. intros [= Hm _ Hmu]. destruct (is_true (get v (js "muted"))); [done|].
  rewrite andb_true_r in Ek. apply bool_decide_eq_false in Ek. apply Ek.
  unfold opt_map in Hm. by case_bool_decide.
Qed.

Lemma normalize_wf raw : map_Forall (λ _, entry_wf) (normalize raw).
Proof.
  unfold normalize. case_match; [|apply map_Forall_empty]. apply read_entries_all.
  intros k v x. apply normalizeEntry_wf.
Qed.

(** ** Patches *)

Lemma switchVoice_wf name on cs l : voices_wf l.1 → voices_wf (switchVoice name on cs l).1.
Proof.
  destruct l as [vs duty]. simpl. intros Hvs. unfold switchVoice. case_match eqn:En; [done|].
  apply jeqb_neq in En. destruct on; simpl; [|by apply map_Forall_delete].
  apply voices_wf_insert; [done| |done]. destruct cs as [cs|]; simpl.
  - apply opt_list_wf, (normalizeCommanders_wf (Some (JArr (map JStr cs)))).
  - destruct (vs !! name) as [[[l|]]|] eqn:E; simpl; try apply voice_wf_plain.
    destruct (Hvs name _ E) as [_ Hv]. destruct (Hv l eq_refl). by apply opt_list_wf.
Qed.

Lemma patched_wf cur p :
  (cur = empty_settings ∨ entry_wf cur) → patched cur p ≠ empty_settings → entry_wf (patched cur p).
Proof.
  intros Hcur. unfold patched. set (l0 := (gs_voices cur ?? ∅, gs_duty cur)).
  assert (voices_wf l0.1) as H0.
  { unfold l0. simpl. destruct Hcur as [->|(Hv & _)]; [apply map_Forall_empty|].
    destruct (gs_voices cur) as [vs|] eqn:E; simpl; [by apply Hv|apply map_Forall_empty]. }
  set (l1 := apply_alter p l0). assert (voices_wf l1.1) as H1.
  { unfold l1, apply_alter. case_match; [by apply switchVoice_wf|done]. }
  set (l2 := apply_mode p l1). assert (voices_wf l2.1) as H2.
  { unfold l2, apply_mode. repeat case_match; simpl; try done. by apply switchVoice_wf. }
  set (l3 := apply_voice p l2). assert (voices_wf l3.1) as H3.
  { unfold l3, apply_voice. case_match; [by apply switchVoice_wf|done]. }
  set (l4 := apply_duty p l3). assert (voices_wf l4.1) as H4.
  { unfold l4, apply_duty. repeat case_match; simpl; try done. by apply switchVoice_wf. }
  destruct l4 as [vs duty]. simpl in *. set (m := match pa_muted p with Some _ => _ | None => _ end).
  intros Hne. destruct (bool_decide (m = Some true)); [apply (built_entry_wf vs duty true)|apply (built_entry_wf vs duty false)]; done.
Qed.

Lemma get_group_wf s gid : store_wf s → get_group s gid = empty_settings ∨ entry_wf (get_group s gid).
Proof. intros Hs. unfold get_group. destruct (st_data s !! gid) eqn:E; simpl; [right; by apply (Hs gid)|by left]. Qed.

Lemma put_entry_wf gid e m :
  map_Forall (λ _, entry_wf) m → (e ≠ empty_settings → entry_wf e) → map_Forall (λ _, entry_wf) (put_entry gid e m).
Proof.
  intros Hm He. unfold put_entry. case_bool_decide; [by apply map_Forall_delete|]. apply map_Forall_insert_2; auto.
Qed.

Lemma persist_data io s : st_data (persist io s) = st_data s.
Proof. by destruct io. Qed.

(** ** Reachability *)

Inductive store_step : GroupSettingsStore → GroupSettingsStore → Prop :=
| step_load s : store_step s (load s)
| step_set s io gid p : store_step s (set_group io gid p s).1
| step_remove s io gid : store_step s (remove_group io gid s).

Lemma store_step_wf s s' : store_step s s' → store_wf s → store_wf s'.
Proof.
  intros [s0|s0 io gid p|s0 io gid] Hs; unfold store_wf.
  - unfold load. simpl. case_match; [apply normalize_wf|apply map_Forall_empty].
  - simpl. rewrite persist_data. simpl. apply put_entry_wf; [done|].
    intros Hne. apply patched_wf; [|done]. by apply get_group_wf.
  - unfold remove_group. case_match; [|done]. rewrite persist_data. simpl. by apply map_Forall_delete.
Qed.

(** Whatever the settings file contained and whatever sequence of loads,
    patches and removals (with failing or succeeding writes) follows, every
    stored entry is well-formed: no empty entry or empty voice map, commander
    lists deduplicated, trimmed, non-empty and at most 64 long, and the duty
    voice is always one of the voices switched on. *)
Theorem reachable_store_wf (file : option json) (s : GroupSettingsStore)
    (Hreach : rtc store_step (store_at file) s) : store_wf s.
Proof.
  assert (store_wf (store_at file)) as H0 by apply map_Forall_empty.
  induction Hreach as [|s1 s2 s3 Hstep _ IH]; [done|]. apply IH. by apply (store_step_wf s1).
Qed.

(** A file with every legacy shape: v1 toggle and mode, v2 voices, junk. *)
Definition sample_file : json :=
  JObj [(js "g1", JObj [(js "alter", JBool true); (js "mode", JStr (js "always"))]);
        (js "g2", JObj [(js "voices", JObj [(js "Bob", JObj [(js "on", JBool true);
            (js "commanders", JArr [JStr (js " fp1 "); JStr (js "fp1"); JNull])]); (js " ", JBool true)])]);
        (js "g3", JNull)].

Lemma reachable_store_wf_witness :
  let s := (set_group true (js "g2") (mkPatch None None None (DutySet (js "Bob")) None) (load (store_at (Some sample_file)))).1 in
  store_wf s ∧ dutyOf s (js "g1") = Some VOICE_ALTER ∧ commandersOf s (js "g2") (js "Bob") = [js "fp1"] ∧
  dutyOf s (js "g2") = Some (js "Bob") ∧ voiceOn s (js "g3") VOICE_ALTER = false.
Proof.
  split; [|vm_compute; done]. apply (reachable_store_wf (Some sample_file)).
  eapply rtc_l; [apply step_load|]. eapply rtc_l; [|apply rtc_refl]. apply step_set.
Defined.

(** ** Round trip through the file *)

Lemma normalize_encode_voice n v : trim n ≠ [] → voice_wf v → normalize_voice n (encode_voice v) = Some v.
Proof.
  intros Hn Hv. unfold normalize_voice. rewrite (proj2 (jeqb_neq _ _) Hn).
  unfold encode_voice. destruct v as [[l|]]; cbn [app opt_prop get prop_of vo_commanders]; js_keys; simpl.
  - destruct (Hv l eq_refl) as [Hne Hwf]. rewrite (commanders_loop_id l []); [|done|unfold MAX_COMMANDERS; simpl; lia].
    by destruct l.
  - done.
Qed.

Lemma read_encoded_voices vs :
  voices_wf vs → read_entries normalize_voice (entries (obj_of_map encode_voice vs)) = vs.
Proof. intros Hwf. apply read_obj_of_map. intros n v Hv. destruct (Hwf n v Hv). by apply normalize_encode_voice. Qed.

Lemma get_encode_entry s :
  let e := encode_entry s in
  get e (js "voices") = obj_of_map encode_voice <$> gs_voices s ∧ get e (js "duty") = JStr <$> gs_duty s ∧
  get e (js "muted") = JBool <$> gs_muted s ∧ get e (js "alter") = None ∧ get e (js "mode") = None.
Proof.
  destruct s as [vs du mu]. unfold encode_entry, get. simpl.
  destruct vs, du, mu; cbn [opt_prop app prop_of gs_voices gs_duty gs_muted fmap option_fmap option_map]; js_keys; done.
Qed.

Lemma normalize_encode_entry s : entry_wf s → normalizeEntry (encode_entry s) = Some s.
Proof.
  intros (Hv & Hd & Hm & Hne). unfold normalizeEntry. change (is_object (encode_entry s)) with true. cbn [negb].
  destruct (get_encode_entry s) as (-> & -> & -> & -> & ->).
  destruct s as [vs du mu]. simpl in *.
  assert (match obj_of_map encode_voice <$> vs with Some v => if is_object v then read_entries normalize_voice (entries v) else ∅ | None => ∅ end
          = vs ?? ∅) as Hvs.
  { destruct vs as [vs|]; cbn [fmap option_fmap option_map nullish]; [|done]. apply read_encoded_voices. by apply Hv. }
  change (match obj_of_map encode_voice <$> vs with Some v => if is_object v then read_entries normalize_voice (entries v) else ∅ | None => ∅ end = vs ?? ∅) in Hvs.
  rewrite Hvs. clear Hvs.
  assert (opt_map (vs ?? ∅) = vs) as Hopt.
  { destruct vs as [vs|]; simpl; [|done]. apply opt_map_Some. split; [done|]. by apply Hv. }
  assert (is_true (JBool <$> mu) = match mu with Some b => b | None => false end) as -> by by destruct mu as [[]|].
  assert (drop_duty (vs ?? ∅) (non_empty (match as_string (JStr <$> du) with Some d => d | None => [] end)) = du) as Hdu.
  { destruct du as [d|]; simpl; [|done]. destruct (Hd d eq_refl) as (vs' & -> & Hin). simpl.
    apply drop_duty_Some. split; [|done]. apply non_empty_Some. split; [done|].
    intros ->. destruct Hin as [v Hin]. destruct (Hv vs' eq_refl) as [_ Hwf]. by destruct (Hwf [] v Hin). }
  rewrite andb_false_r. cbn [andb]. rewrite Hdu, Hopt.
  destruct Hm as [-> | ->]; simpl; [|by rewrite andb_false_r].
  rewrite andb_true_r. case_bool_decide as He; [|done]. exfalso. apply Hne.
  unfold empty_settings. assert (vs = None) as ->.
  { rewrite <- Hopt, He. unfold opt_map. by rewrite bool_decide_eq_true_2. }
  simpl in Hdu. f_equal. destruct du as [d|]; [|done]. by destruct (Hd d eq_refl) as (? & ? & _).
Qed.

Lemma load_persisted s : store_wf s → st_data (load (persist true s)) = st_data s.
Proof.
  intros Hs. unfold load. simpl. unfold normalize. simpl.
  apply (read_obj_of_map encode_entry (λ _, normalizeEntry)). intros k e He. apply normalize_encode_entry. by apply (Hs k).
Qed.

(** A patch that was written survives a restart: loading the file a
    successful [set] left behind gives back exactly the in-memory map. *)
Theorem set_group_reload (s : GroupSettingsStore) (gid : list Z) (p : GroupSettingsPatch) (Hs : store_wf s) :
  st_data (load (set_group true gid p s).1) = st_data (set_group true gid p s).1.
Proof.
  change ((set_group true gid p s).1) with
    (persist true (mkGStore (put_entry gid (patched (get_group s gid) p) (st_data s)) (st_loaded s) (st_file s))).
  rewrite load_persisted; [done|]. apply put_entry_wf; [done|]. intros Hne.
  apply patched_wf; [|done]. by apply get_group_wf.
Qed.

Lemma set_group_reload_witness :
  let s := load (store_at (Some sample_file)) in
  store_wf s ∧
  st_data (load (set_group true (js "g9") (mkPatch (Some true) None None DutyKeep (Some true)) s).1) =
  st_data (set_group true (js "g9") (mkPatch (Some true) None None DutyKeep (Some true)) s).1.
Proof. split; [|apply set_group_reload]; apply normalize_wf. Defined.

(** ** What a voice switch does *)

Lemma lookup_put_entry gid e m g :
  put_entry gid e m !! g = if decide (gid = g) then (if bool_decide (e = empty_settings) then None else Some e) else m !! g.
Proof.
  unfold put_entry. repeat case_bool_decide; case_decide; subst;
    rewrite ?lookup_delete_eq, ?lookup_insert_eq, ?lookup_delete_ne, ?lookup_insert_ne by done; done.
Qed.

Lemma get_put_entry s gid e l f : get_group (mkGStore (put_entry gid e (st_data s)) l f) gid = e.
Proof.
  unfold get_group. simpl. rewrite lookup_put_entry, decide_True by done. case_bool_decide; [by subst|done].
Qed.

Lemma patched_voice cur n on cs :
  patched cur (mkPatch None None (Some (mkVP n on cs)) DutyKeep None) =
  let l := switchVoice n on cs (gs_voices cur ?? ∅, gs_duty cur) in
  mkGS (opt_map l.1) (drop_duty l.1 l.2) (if bool_decide (gs_muted cur = Some true) then Some true else None).
Proof. unfold patched, apply_duty, apply_voice, apply_mode, apply_alter. cbn [pa_duty pa_voice pa_mode pa_alter pa_muted vp_name vp_on vp_commanders]. by destruct (switchVoice _ _ _ _). Qed.

(** Switching one voice changes exactly that voice of that group: it is
    on afterwards iff it was switched on, every other voice keeps its switch,
    a voice switched off does not keep the duty slot, and the other groups'
    settings are untouched; also when writing the file fails. *)
Theorem set_group_voice (s : GroupSettingsStore) (io : bool) (gid name : list Z) (on : bool)
    (cs : option (list (list Z))) (Hname : trim name ≠ []) :
  let s' := (set_group io gid (mkPatch None None (Some (mkVP name on cs)) DutyKeep None) s).1 in
  (∀ n, voiceOn s' gid n = if decide (n = name) then on else voiceOn s gid n) ∧
  (on = false → dutyOf s' gid ≠ Some name) ∧
  (∀ g, g ≠ gid → st_data s' !! g = st_data s !! g).
Proof.
  set (p := mkPatch None None _ _ _). intros s'.
  assert (st_data s' = put_entry gid (patched (get_group s gid) p) (st_data s)) as Hd by apply persist_data.
  assert (∀ n, voice_of s' gid n = (switchVoice name on cs (gs_voices (get_group s gid) ?? ∅, gs_duty (get_group s gid))).1 !! n) as Hvo.
  { intros n. unfold voice_of. rewrite Hd, lookup_put_entry, decide_True by done.
    unfold p. rewrite patched_voice. cbv zeta.
    set (vs := (switchVoice _ _ _ _).1). set (du := (switchVoice _ _ _ _).2).
    set (mu := if bool_decide (gs_muted _ = _) then _ else _). clearbody vs du mu.
    case_bool_decide as He; simpl.
    - injection He as Hv _ _. apply opt_map_None in Hv. by rewrite Hv, lookup_empty.
    - unfold opt_map. case_bool_decide as Hv; simpl; [by rewrite Hv, lookup_empty|done]. }
  assert (∀ n, voice_of s gid n = (gs_voices (get_group s gid) ?? ∅) !! n) as Hvo0.
  { intros n. unfold voice_of, get_group. destruct (st_data s !! gid) as [[[vs|] ? ?]|]; simpl; done. }
  assert (∀ l, switchVoice name on cs l =
    if on then (<[name := mkVoice ((match cs with None => l.1 !! name ≫= vo_commanders
        | Some cs => Some (normalizeCommanders (Some (JArr (map JStr cs)))) end) ≫= opt_list)]> l.1, l.2)
    else (delete name l.1, if bool_decide (l.2 = Some name) then None else l.2)) as Hsw.
  { intros [vs du]. unfold switchVoice. by rewrite (proj2 (jeqb_neq _ _) Hname). }
  split_and!.
  - intros n. unfold voiceOn. rewrite Hvo, Hvo0, Hsw. destruct on; simpl; case_decide; subst;
      rewrite ?lookup_insert_eq, ?lookup_delete_eq, ?lookup_insert_ne, ?lookup_delete_ne by done; done.
  - intros ->. unfold dutyOf. rewrite Hd, lookup_put_entry, decide_True by done.
    unfold p. rewrite patched_voice, Hsw. cbn [fst snd]. case_bool_decide; simpl; [done|].
    intros [Hdu [v Hv]]%drop_duty_Some. by rewrite lookup_delete_eq in Hv.
  - intros g Hg. rewrite Hd, lookup_put_entry, decide_False by done. done.
Qed.

Lemma set_group_voice_witness :
  let s := load (store_at (Some sample_file)) in
  let p := mkPatch None None (Some (mkVP VOICE_ALTER false None)) DutyKeep None in
  trim VOICE_ALTER ≠ [] ∧ dutyOf s (js "g1") = Some VOICE_ALTER ∧
  dutyOf (set_group false (js "g1") p s).1 (js "g1") ≠ Some VOICE_ALTER.
Proof.
  split_and!; [vm_compute; discriminate|vm_compute; reflexivity|].
  apply (set_group_voice (load (store_at (Some sample_file))) false (js "g1") VOICE_ALTER false None); [vm_compute; discriminate|reflexivity].
Defined.
