(* ===== verification/FriendSettings.v ===== *)
(** * Per-friend settings and the protocol file (friend-settings.ts)

    The reply tier and the do-not-disturb switch per friend, written through to
    [dsh-friends.json], and the diplomacy protocol file with its cache keyed by
    modification time and size. *)

From S2P Require Import Prelude JsString Json Policy.
#[local] Open Scope Z_scope.

(** ** The store *)

Record FriendSettings := mkFS { fs_tier : option ReplyTier; fs_muted : option bool }.
#[export] Instance FriendSettings_eq_dec : EqDecision FriendSettings.
Proof. solve_decision. Defined.

Definition no_settings : FriendSettings := mkFS None None.

Record FriendSettingsStore := mkFStore {
  fst_friends : gmap (list Z) FriendSettings;
  fst_loaded : bool;
  fst_file : option json;
}.

Definition friend_store_at (file : option json) : FriendSettingsStore := mkFStore ∅ false file.

(** One entry of the file; anything that is no object reads as [{}]. *)
Definition read_friend (value : json) : FriendSettings :=
  mkFS (match get value (js "tier") with
        | Some t => Some (normalizeTier (Some t) DEFAULT_REPLY_TIER)
        | None => None
        end)
       (if is_true (get value (js "muted")) then Some true else None).

(** [raw.friends ?? {}] ([raw === null] throws, and the catch empties the map). *)
Definition read_friends_file (file : option json) : gmap (list Z) FriendSettings :=
  match file with
  | None | Some JNull => ∅
  | Some raw =>
      match get raw (js "friends") with
      | None | Some JNull => ∅
      | Some v => read_entries (λ _ x, Some (read_friend x)) (entries v)
      end
  end.

Definition load_friends (s : FriendSettingsStore) : FriendSettingsStore :=
  mkFStore (read_friends_file (fst_file s)) true (fst_file s).

Definition get_friend (s : FriendSettingsStore) (f : list Z) : FriendSettings := fst_friends s !! f ?? no_settings.

Definition tier_for (s : FriendSettingsStore) (f : list Z) (fallback : ReplyTier) : ReplyTier :=
  (fst_friends s !! f ≫= fs_tier) ?? fallback.

(** A patch: the outer option is the key's presence ([in]), the inner one
    [undefined]. *)
Record FriendPatch := mkFP { fpa_tier : option (option ReplyTier); fpa_muted : option (option bool) }.

Definition encode_friend (f : FriendSettings) : json :=
  JObj (opt_prop (js "tier") (λ t, JStr (tier_str t)) (fs_tier f) ++ opt_prop (js "muted") JBool (fs_muted f)).

Definition persist_friends (io : bool) (s : FriendSettingsStore) : FriendSettingsStore :=
  if io then mkFStore (fst_friends s) (fst_loaded s)
               (Some (JObj [(js "friends", obj_of_map encode_friend (fst_friends s))]))
  else s.

(** [{ ...a, ...b }]: a property of [b] that is present overrides. *)
Definition spread {A} (old new : option A) : option A := match new with Some x => Some x | None => old end.

Definition set_friend (io : bool) (f : list Z) (p : FriendPatch) (s : FriendSettingsStore)
  : FriendSettingsStore * option FriendSettings :=
  let current := get_friend s f in
  let tier := fpa_tier p ?? fs_tier current in
  let muted := fpa_muted p ?? fs_muted current in
  let next := mkFS tier muted in
  let data := if bool_decide (next = no_settings) then delete f (fst_friends s)
              else <[f := mkFS (spread (fs_tier current) (fs_tier next))
                               (spread (fs_muted current) (fs_muted next))]> (fst_friends s) in
  let s' := persist_friends io (mkFStore data (fst_loaded s) (fst_file s)) in
  (s', if io then Some (get_friend s' f) else None).

Definition remove_friend (io : bool) (f : list Z) (s : FriendSettingsStore) : FriendSettingsStore :=
  match fst_friends s !! f with
  | None => s
  | Some _ => persist_friends io (mkFStore (delete f (fst_friends s)) (fst_loaded s) (fst_file s))
  end.

(** ** The protocol file *)

Record Stamped := mkStamped { sp_mtime : Z; sp_size : Z; sp_text : list Z }.

Record ProtocolFile := mkProto {
  pf_disk : option Stamped;  (** the file as [stat] and [readFile] see it *)
  pf_cache : option Stamped;
}.

Definition read_protocol (p : ProtocolFile) : list Z * ProtocolFile :=
  match pf_disk p with
  | None => ([], mkProto None None)
  | Some d =>
      match pf_cache p with
      | Some c =>
          if (sp_mtime c =? sp_mtime d) && (sp_size c =? sp_size d) then (sp_text c, p)
          else (sp_text d, mkProto (Some d) (Some d))
      | None => (sp_text d, mkProto (Some d) (Some d))
      end
  end.

Definition protocol_exists (p : ProtocolFile) : bool := bool_decide (is_Some (pf_disk p)).

(** [write]: the file system stamps the new text; the cache is dropped. *)
Definition write_protocol (mtime size : Z) (text : list Z) (p : ProtocolFile) : ProtocolFile :=
  mkProto (Some (mkStamped mtime size text)) None.

#[export] Instance Stamped_eq_dec : EqDecision Stamped.
Proof. solve_decision. Defined.

(** * Theorems *)

(** ** Equivalence of settings: [muted: false] means [muted] absent *)

#[export] Instance fs_equiv : Equiv FriendSettings :=
  λ a b, fs_tier a = fs_tier b ∧ (fs_muted a = Some true ↔ fs_muted b = Some true).

#[export] Instance fs_equivalence : Equivalence (≡@{FriendSettings}).
Proof.
  split.
  - by intros a.
  - intros a b []. by split.
  - intros a b c [H1 H2] [H3 H4]. split; [congruence|]. by rewrite H2.
Qed.

(** Two stores answer every question about every friend alike. *)
Definition friends_equiv (m1 m2 : gmap (list Z) FriendSettings) : Prop :=
  ∀ f, (m1 !! f ?? no_settings) ≡ (m2 !! f ?? no_settings).

#[export] Instance friends_equiv_equivalence : Equivalence friends_equiv.
Proof.
  split.
  - intros m f. reflexivity.
  - intros m1 m2 H f. by symmetry.
  - intros m1 m2 m3 H1 H2 f. by transitivity (m2 !! f ?? no_settings).
Qed.

Lemma tier_for_get s f fallback : tier_for s f fallback = fs_tier (get_friend s f) ?? fallback.
Proof. unfold tier_for, get_friend. by destruct (fst_friends s !! f). Qed.

#[export] Instance tier_for_proper f fallback :
  Proper ((λ s1 s2, friends_equiv (fst_friends s1) (fst_friends s2)) ==> (=)) (λ s, tier_for s f fallback).
Proof.
  intros s1 s2 Hs. rewrite !tier_for_get. destruct (Hs f) as [Ht _]. unfold get_friend. by rewrite Ht.
Qed.

Lemma read_encode_friend x : read_friend (encode_friend x) ≡ x.
Proof.
  destruct x as [t m]. unfold read_friend, encode_friend, get. cbn [fs_tier fs_muted].
  destruct t as [t|], m as [[]|]; cbn [opt_prop app prop_of]; js_keys; split; simpl; try done;
    unfold normalizeTier; by rewrite tier_of_str.
Qed.

Lemma load_persisted_friends s :
  friends_equiv (fst_friends (load_friends (persist_friends true s))) (fst_friends s).
Proof.
  intros f. change (fst_friends (load_friends (persist_friends true s))) with
    (read_entries (λ _ x, Some (read_friend x)) (entries (obj_of_map encode_friend (fst_friends s)))).
  rewrite lookup_read_obj_of_map. destruct (fst_friends s !! f); simpl; [apply read_encode_friend|reflexivity].
Qed.

(** Settings written by a successful [set] survive a restart up to the
    difference between [muted: false] and no [muted]: every friend has the same
    effective tier under every default, and the same muted state. *)
Theorem set_friend_reload (s : FriendSettingsStore) (f : list Z) (p : FriendPatch) :
  let s' := (set_friend true f p s).1 in
  (∀ f' fallback, tier_for (load_friends s') f' fallback = tier_for s' f' fallback) ∧
  (∀ f', fs_muted (get_friend (load_friends s') f') = Some true ↔ fs_muted (get_friend s' f') = Some true).
Proof.
  intros s'. set (s1 := mkFStore (fst_friends s') (fst_loaded s') (fst_file s)).
  assert (friends_equiv (fst_friends (load_friends s')) (fst_friends s')) as He
    by apply (load_persisted_friends s1).
  split; [intros f' fb; by apply tier_for_proper|intros f'; apply (He f')].
Qed.

(** ** What a patch does *)

Lemma set_friend_data io f p s :
  fst_friends (set_friend io f p s).1 =
  let cur := get_friend s f in
  if bool_decide (mkFS (fpa_tier p ?? fs_tier cur) (fpa_muted p ?? fs_muted cur) = no_settings)
  then delete f (fst_friends s)
  else <[f := mkFS (spread (fs_tier cur) (fpa_tier p ?? fs_tier cur))
                   (spread (fs_muted cur) (fpa_muted p ?? fs_muted cur))]> (fst_friends s).
Proof. unfold set_friend. by destruct io. Qed.

(** A patch changes the named friend only.  A tier given in it is the
    friend's tier afterwards; a patch without a tier key keeps it; a patch that
    clears the tier of a friend with no [muted] value (old or new) really falls
    back to the global default.  Holds in memory also when the write fails. *)
Theorem set_friend_tier (io : bool) (f : list Z) (p : FriendPatch) (s : FriendSettingsStore) (fallback : ReplyTier) :
  let s' := (set_friend io f p s).1 in
  (∀ f', f' ≠ f → fst_friends s' !! f' = fst_friends s !! f') ∧
  (∀ t, fpa_tier p = Some (Some t) → tier_for s' f fallback = t) ∧
  (fpa_tier p = None → tier_for s' f fallback = tier_for s f fallback) ∧
  (fpa_tier p = Some None → fpa_muted p ?? fs_muted (get_friend s f) = None → tier_for s' f fallback = fallback).
Proof.
  intros s'. split_and!.
  - intros f' Hne. unfold s'. rewrite set_friend_data. cbv zeta. case_bool_decide;
      by rewrite ?lookup_delete_ne, ?lookup_insert_ne.
  - intros t Ht. unfold s', tier_for. rewrite set_friend_data, Ht. cbv zeta. simpl.
    by rewrite lookup_insert_eq.
  - intros Ht. rewrite !tier_for_get. unfold s', get_friend at 1. rewrite set_friend_data, Ht. cbv zeta. simpl.
    case_bool_decide as Hn; [injection Hn as Hn _|]; rewrite ?lookup_delete_eq, ?lookup_insert_eq; simpl;
      [by rewrite Hn|]. by destruct (fs_tier (get_friend s f)).
  - intros Ht Hm. rewrite tier_for_get. unfold s', get_friend. rewrite set_friend_data, Ht. cbv zeta.
    change (Some None ?? ?x) with (@None ReplyTier). rewrite Hm.
    rewrite bool_decide_eq_true_2 by done. by rewrite lookup_delete_eq.
Qed.

Lemma set_friend_tier_witness :
  tier_for (set_friend true (js "F") (mkFP (Some (Some Auto)) None) (friend_store_at None)).1 (js "F") Draft = Auto.
Proof.
  apply (set_friend_tier true (js "F") (mkFP (Some (Some Auto)) None) (friend_store_at None) Draft). reflexivity.
Defined.

(** Clearing the stored tier ([tier: undefined]) has no effect on a friend
    who has a [muted] value, although the method's contract says the friend
    goes back to the global default: the spread of the old entry brings the
    old tier back. *)
Theorem set_friend_clear_lost (io : bool) (f : list Z) (s : FriendSettingsStore) (t : ReplyTier) (m : bool)
    (fallback : ReplyTier) (Hcur : fst_friends s !! f = Some (mkFS (Some t) (Some m))) :
  tier_for (set_friend io f (mkFP (Some None) None) s).1 f fallback = t.
Proof.
  unfold tier_for. rewrite set_friend_data. unfold get_friend. rewrite Hcur. simpl.
  by rewrite lookup_insert_eq.
Qed.

Lemma set_friend_clear_lost_witness :
  let s := mkFStore {[js "F" := mkFS (Some Auto) (Some true)]} true None in
  fst_friends s !! js "F" = Some (mkFS (Some Auto) (Some true)) ∧
  tier_for (set_friend true (js "F") (mkFP (Some None) None) s).1 (js "F") Notify = Auto.
Proof. split; [reflexivity|]. apply (set_friend_clear_lost _ _ _ _ true). reflexivity. Defined.

(** ** Cache coherence of the protocol file *)

(** Between our calls the file may be replaced or removed by others. *)
Inductive proto_step : ProtocolFile → ProtocolFile → Prop :=
| ps_read p : proto_step p (read_protocol p).2
| ps_write p mtime size text : proto_step p (write_protocol mtime size text p)
| ps_external p d : proto_step p (mkProto d (pf_cache p)).

Section coherence.
(** The text a (mtime, size) stamp stands for: files with the same stamp are
    assumed to be the same text, which is what the cache key relies on. *)
Context (text_of : Z → Z → list Z).

Definition faithful (d : option Stamped) : Prop :=
  ∀ x, d = Some x → sp_text x = text_of (sp_mtime x) (sp_size x).

Definition proto_ok (p : ProtocolFile) : Prop := faithful (pf_disk p) ∧ faithful (pf_cache p).

(** The runs in which every file that appears respects the stamp. *)
Inductive proto_run : ProtocolFile → Prop :=
| pr_start d : faithful d → proto_run (mkProto d None)
| pr_step p p' : proto_run p → proto_step p p' → faithful (pf_disk p') → proto_run p'.

Lemma proto_run_ok p : proto_run p → proto_ok p.
Proof.
  induction 1 as [d Hd|p p' _ [Hd Hc] Hstep Hd']; [by split|]. split; [done|].
  destruct Hstep as [p|p mt sz tx|p d]; simpl in *; [|by intros x|done].
  unfold read_protocol. destruct (pf_disk p) as [d|]; [|by intros x].
  destruct (pf_cache p) as [c|] eqn:Ec; [case_match|]; simpl; rewrite ?Ec; done.
Qed.

(** As long as a (mtime, size) stamp identifies a text, [read] always
    returns the current text of the file (empty when there is none), through
    every interleaving of reads, writes and outside changes. *)
Theorem read_protocol_current (p : ProtocolFile) (Hrun : proto_run p) :
  (read_protocol p).1 = match pf_disk p with Some d => sp_text d | None => [] end.
Proof.
  destruct (proto_run_ok p Hrun) as [Hd Hc]. unfold read_protocol.
  destruct (pf_disk p) as [d|]; [|done]. destruct (pf_cache p) as [c|]; [|done].
  case_match eqn:E; [|done]. simpl. bools. rewrite (Hd d eq_refl), (Hc c eq_refl). by f_equal.
Qed.
End coherence.

Lemma read_protocol_current_witness :
  let text_of := λ m _ : Z, if m =? 1 then js "old" else js "new" in
  let p0 := mkProto (Some (mkStamped 1 3 (js "old"))) None in
  let p := write_protocol 2 3 (js "new") (read_protocol p0).2 in
  proto_run text_of p ∧ (read_protocol p).1 = js "new".
Proof.
  intros text_of p0 p. assert (proto_run text_of p) as Hrun.
  { eapply pr_step; [|apply ps_write|by intros x [= <-]].
    eapply pr_step; [|apply ps_read|by intros x [= <-]].
    apply pr_start. by intros x [= <-]. }
  split; [exact Hrun|]. apply (read_protocol_current text_of p Hrun).
Defined.
