(* ===== verification/AgentRegistry.v ===== *)
(** * The seat agent registry (agent-registry.ts)

    Named agents of a seat: name validation, normalisation of the registry
    file, and the write-through store keyed case-insensitively by name. *)

From S2P Require Import Prelude JsString Json Policy.
#[local] Open Scope Z_scope.

(** Why a name is refused, in the order of the checks. *)
Inductive NameError := NameEmpty | NameUntrimmed | NameTooLong | NameReserved | NameSeparator | NameControl.

Record SeatAgent := mkAgent {
  ag_name : list Z; ag_preset : option (list Z); ag_cwd : option (list Z);
  ag_prompt : option (list Z); ag_approval : option bool }.
#[export] Instance SeatAgent_eq_dec : EqDecision SeatAgent.
Proof. solve_decision. Defined.

Definition RESERVED : list (list Z) := [js "all"; js "alter"; js "owner"; js "everyone"].

(** [/[\s@·]/] and the control characters 0x00-0x1f, 0x7f. *)
Definition is_separator (c : Z) : bool := is_ws c || (c =? 64) || (c =? 183).
Definition is_control (c : Z) : bool := ((0 <=? c) && (c <=? 31)) || (c =? 127).

Definition MAX_PROMPT : nat := Z.to_nat 8000.

Definition strj (v : option json) : list Z := as_string v ?? [].

Definition encode_agent (a : SeatAgent) : json :=
  JObj ([(js "name", JStr (ag_name a))] ++ opt_prop (js "preset") JStr (ag_preset a)
        ++ opt_prop (js "cwd") JStr (ag_cwd a) ++ opt_prop (js "prompt") JStr (ag_prompt a)
        ++ opt_prop (js "approval") JBool (ag_approval a)).

(** The store: the list, and the file it is written through to. *)
Record AgentRegistryStore := mkReg { rg_agents : list SeatAgent; rg_loaded : bool; rg_file : option json }.

Section registry.
Context `{LowerCase}.

Definition agentNameError (name : list Z) : option NameError :=
  let n := trim name in
  if jeqb n [] then Some NameEmpty
  else if negb (jeqb n name) then Some NameUntrimmed
  else if (32 <? Z.of_nat (length n)) then Some NameTooLong
  else if bool_decide (toLowerCase n ∈ RESERVED) then Some NameReserved
  else if someb is_separator n then Some NameSeparator
  else if someb is_control n then Some NameControl
  else None.

Definition normalizeAgent (value : json) : option SeatAgent :=
  if negb (is_object value) then None
  else
    let name := trim (strj (get value (js "name"))) in
    if jeqb name [] || bool_decide (is_Some (agentNameError name)) then None
    else
      let prompt := trim (strj (get value (js "prompt"))) in
      Some (mkAgent name (non_empty (strj (get value (js "preset")))) (non_empty (strj (get value (js "cwd"))))
              (if jeqb prompt [] then None else Some (take MAX_PROMPT prompt))
              (if is_true (get value (js "approval")) then Some true else None)).

Definition key_of_agent (a : SeatAgent) : list Z := toLowerCase (ag_name a).

(** The loop of [normalize]: [seen] holds the keys of [out]. *)
Fixpoint normalize_loop (l : list json) (out : list SeatAgent) (seen : list (list Z)) : list SeatAgent :=
  match l with
  | [] => out
  | item :: l' =>
      match normalizeAgent item with
      | None => normalize_loop l' out seen
      | Some a =>
          if bool_decide (key_of_agent a ∈ seen) then normalize_loop l' out seen
          else normalize_loop l' (out ++ [a]) (seen ++ [key_of_agent a])
      end
  end.

Definition normalize_agents (raw : json) : list SeatAgent :=
  if negb (is_object raw) then []
  else match get raw (js "agents") with Some (JArr l) => normalize_loop l [] [] | _ => [] end.

Definition load_agents (s : AgentRegistryStore) : AgentRegistryStore :=
  mkReg (match rg_file s with Some raw => normalize_agents raw | None => [] end) true (rg_file s).

Definition get_agent (s : AgentRegistryStore) (name : list Z) : option SeatAgent :=
  let key := toLowerCase (trim name) in
  findb (λ a, jeqb (key_of_agent a) key) (rg_agents s).

Definition persist_agents (io : bool) (s : AgentRegistryStore) : AgentRegistryStore :=
  if io then mkReg (rg_agents s) (rg_loaded s) (Some (JObj [(js "agents", JArr (map encode_agent (rg_agents s)))]))
  else s.

(** [findIndex], then replace in place or push. *)
Fixpoint upsert (key : list Z) (r : SeatAgent) (l : list SeatAgent) : list SeatAgent :=
  match l with
  | [] => [r]
  | a :: l' => if jeqb (key_of_agent a) key then r :: l' else a :: upsert key r l'
  end.

Inductive SetError := BadName (e : NameError) | BadRecord | WriteFailed.

Definition set_agent (io : bool) (input : SeatAgent) (s : AgentRegistryStore)
  : AgentRegistryStore * (SetError + SeatAgent) :=
  match agentNameError (ag_name input) with
  | Some e => (s, inl (BadName e))
  | None =>
      match normalizeAgent (encode_agent input) with
      | None => (s, inl BadRecord)
      | Some r =>
          let s' := persist_agents io (mkReg (upsert (key_of_agent r) r (rg_agents s)) (rg_loaded s) (rg_file s)) in
          (s', if io then inr r else inl WriteFailed)
      end
  end.

(** [remove]: whether it existed ([None]: the write threw). *)
Definition remove_agent (io : bool) (name : list Z) (s : AgentRegistryStore) : AgentRegistryStore * option bool :=
  let key := toLowerCase (trim name) in
  let agents := filterb (λ a, negb (jeqb (key_of_agent a) key)) (rg_agents s) in
  let s1 := mkReg agents (rg_loaded s) (rg_file s) in
  if bool_decide (length agents = length (rg_agents s)) then (s1, Some false)
  else (persist_agents io s1, if io then Some true else None).

(** * Theorems *)

(** ** The invariant *)

Definition agent_wf (a : SeatAgent) : Prop :=
  agentNameError (ag_name a) = None ∧ ag_preset a ≠ Some [] ∧ ag_cwd a ≠ Some [] ∧
  (∀ p, ag_prompt a = Some p → p ≠ [] ∧ (length p <= MAX_PROMPT)%nat ∧ trimStart p = p) ∧
  (ag_approval a = None ∨ ag_approval a = Some true).

(** Every agent is valid and no two names differ only in case. *)
Definition registry_wf (l : list SeatAgent) : Prop :=
  (∀ a, a ∈ l → agent_wf a) ∧ NoDup (map key_of_agent l).

Lemma MAX_PROMPT_pos : (0 < MAX_PROMPT)%nat.
Proof. unfold MAX_PROMPT. lia. Qed.

Lemma take_nonempty n (s : list Z) : (0 < n)%nat → s ≠ [] → take n s ≠ [].
Proof. destruct n, s; simpl; try done. lia. Qed.

Lemma non_empty_nil s : non_empty s ≠ Some [].
Proof. intros [_ Hn]%non_empty_Some. done. Qed.

Lemma trimStart_trim s : trimStart (trim s) = trim s.
Proof. apply trimStart_id. apply trim_trimmed. Qed.

Lemma trimStart_take n s : trimStart s = s → trimStart (take n s) = take n s.
Proof.
  intros Hs. apply trimStart_id. intros c Hc. apply (trimStart_head s). rewrite Hs.
  destruct s, n; simpl in *; by simplify_eq.
Qed.

Lemma normalizeAgent_wf v a : normalizeAgent v = Some a → agent_wf a.
Proof.
  unfold normalizeAgent. case_match; [done|]. case_match eqn:Eg; [done|]. bools.
  intros [= <-]. split_and!; simpl; try apply non_empty_nil.
  - by destruct (agentNameError _); [destruct H2|].
  - intros p. case_match eqn:Ep; [done|]. intros [= <-]. apply jeqb_neq in Ep. split_and!.
    + apply take_nonempty; [apply MAX_PROMPT_pos|done].
    + rewrite length_take. lia.
    + apply trimStart_take, trimStart_trim.
  - case_match; [by right|by left].
Qed.

Lemma normalize_loop_wf l out :
  registry_wf out → registry_wf (normalize_loop l out (map key_of_agent out)).
Proof.
  revert out. induction l as [|item l IH]; intros out [Hall Hnd]; simpl; [by split|].
  destruct (normalizeAgent item) as [a|] eqn:Ea; [|apply IH; by split].
  case_bool_decide as Hin; [apply IH; by split|].
  replace (map key_of_agent out ++ [key_of_agent a]) with (map key_of_agent (out ++ [a])) by by rewrite map_app.
  apply IH. split.
  - intros x. rewrite elem_of_app, list_elem_of_singleton. intros [?| ->]; [auto|]. by eapply normalizeAgent_wf.
  - rewrite map_app. apply NoDup_app. split_and!; [done| |apply NoDup_singleton].
    intros k Hk. simpl. rewrite list_elem_of_singleton. by intros ->.
Qed.

Lemma normalize_agents_wf raw : registry_wf (normalize_agents raw).
Proof.
  assert (registry_wf []) as Hnil by (split; [set_solver|constructor]).
  unfold normalize_agents. repeat case_match; try done. by apply (normalize_loop_wf _ []).
Qed.

Lemma upsert_key k r l : key_of_agent r = k →
  map key_of_agent (upsert k r l) = if bool_decide (k ∈ map key_of_agent l) then map key_of_agent l else map key_of_agent l ++ [k].
Proof.
  intros Hk. induction l as [|a l IH]; simpl.
  - by rewrite Hk.
  - destruct (jeqb (key_of_agent a) k) eqn:E.
    + apply jeqb_eq in E. rewrite bool_decide_eq_true_2 by (rewrite E; set_solver). simpl. by rewrite Hk, E.
    + apply jeqb_neq in E. simpl. rewrite IH. repeat case_bool_decide; set_solver.
Qed.

Lemma elem_of_upsert k r l a : a ∈ upsert k r l → a = r ∨ a ∈ l.
Proof. induction l as [|b l IH]; simpl; [set_solver|]. case_match; set_solver. Qed.

Lemma upsert_wf r l : agent_wf r → registry_wf l → registry_wf (upsert (key_of_agent r) r l).
Proof.
  intros Hr [Hall Hnd]. split.
  - intros a [->|?]%elem_of_upsert; auto.
  - rewrite upsert_key by done. case_bool_decide; [done|]. apply NoDup_app. split_and!; [done| |apply NoDup_singleton].
    intros k Hk. rewrite list_elem_of_singleton. by intros ->.
Qed.

Lemma filterb_registry_wf f l : registry_wf l → registry_wf (filterb f l).
Proof.
  intros [Hall Hnd]. split.
  - intros a [? _]%elem_of_filterb. auto.
  - induction l as [|a l IH]; simpl in *; [done|]. apply NoDup_cons in Hnd as [Ha Hnd].
    assert (NoDup (map key_of_agent (filterb f l))) by (apply IH; [set_solver|done]).
    destruct (f a); simpl; [|done]. constructor; [|done]. rewrite list_elem_of_In, in_map_iff in *.
    intros (x & Hx & Hin). apply Ha. exists x. split; [done|].
    apply list_elem_of_In in Hin. apply elem_of_filterb in Hin as [Hin _]. by apply list_elem_of_In.
Qed.

Inductive registry_step : AgentRegistryStore → AgentRegistryStore → Prop :=
| rs_load s : registry_step s (load_agents s)
| rs_set io input s : registry_step s (set_agent io input s).1
| rs_remove io name s : registry_step s (remove_agent io name s).1.

Lemma persist_agents_agents io s : rg_agents (persist_agents io s) = rg_agents s.
Proof. by destruct io. Qed.

Lemma registry_step_wf s s' : registry_step s s' → registry_wf (rg_agents s) → registry_wf (rg_agents s').
Proof.
  intros [s0|io input s0|io name s0] Hwf.
  - unfold load_agents. simpl. case_match; [apply normalize_agents_wf|]. split; [set_solver|constructor].
  - unfold set_agent. case_match; [done|]. case_match eqn:En; [|done]. simpl.
    rewrite persist_agents_agents. simpl. apply upsert_wf; [by eapply normalizeAgent_wf|done].
  - unfold remove_agent. case_match; simpl; [|rewrite persist_agents_agents]; simpl; by apply filterb_registry_wf.
Qed.

(** In every reachable registry each agent has a valid mention name (no
    white space, separator or control character, not reserved, at most 32
    units), a bounded prompt, and no two agents have names equal up to case,
    whatever the file held and whatever writes failed. *)
Theorem reachable_registry_wf (file : option json) (s : AgentRegistryStore)
    (Hreach : rtc registry_step (mkReg [] false file) s) : registry_wf (rg_agents s).
Proof.
  assert (registry_wf (rg_agents (mkReg [] false file))) as H0 by (split; [set_solver|constructor]).
  induction Hreach as [|s1 s2 s3 Hstep _ IH]; [done|]. apply IH. by apply (registry_step_wf s1).
Qed.

(** ** Lookup after [set] *)

Lemma get_encode_agent a :
  let e := encode_agent a in
  get e (js "name") = Some (JStr (ag_name a)) ∧ get e (js "preset") = JStr <$> ag_preset a ∧
  get e (js "cwd") = JStr <$> ag_cwd a ∧ get e (js "prompt") = JStr <$> ag_prompt a ∧
  get e (js "approval") = JBool <$> ag_approval a.
Proof.
  destruct a as [n pr cw pt ap]. unfold encode_agent, get.
  destruct pr, cw, pt, ap; cbn [opt_prop app prop_of ag_name ag_preset ag_cwd ag_prompt ag_approval fmap option_fmap option_map];
    js_keys; done.
Qed.

Lemma agentNameError_trim n : agentNameError n = None → trim n = n ∧ n ≠ [].
Proof.
  unfold agentNameError. destruct (jeqb (trim n) []) eqn:E1; [done|].
  destruct (jeqb (trim n) n) eqn:E2; [|done]. apply jeqb_neq in E1. apply jeqb_eq in E2.
  intros _. split; [done|]. congruence.
Qed.

Lemma normalize_encode_agent a :
  agentNameError (ag_name a) = None → ∃ r, normalizeAgent (encode_agent a) = Some r ∧ ag_name r = ag_name a.
Proof.
  intros Hn. destruct (agentNameError_trim _ Hn) as [Ht Hne]. unfold normalizeAgent.
  change (is_object (encode_agent a)) with true. cbn [negb].
  destruct (get_encode_agent a) as (-> & _). unfold strj at 1 2 3. cbn [as_string nullish]. rewrite Ht, Hn.
  rewrite (proj2 (jeqb_neq _ _) Hne). rewrite bool_decide_eq_false_2 by (intros [? ?]; done). cbn [orb]. eauto.
Qed.

Lemma findb_upsert k r l k' :
  key_of_agent r = k →
  findb (λ a, jeqb (key_of_agent a) k') (upsert k r l) =
  if decide (k' = k) then Some r else findb (λ a, jeqb (key_of_agent a) k') l.
Proof.
  intros Hk. induction l as [|a l IH]; simpl.
  - rewrite Hk. destruct (jeqb k k') eqn:E; [apply jeqb_eq in E|apply jeqb_neq in E]; case_decide; congruence.
  - destruct (jeqb (key_of_agent a) k) eqn:E; simpl.
    + apply jeqb_eq in E. rewrite Hk, E.
      destruct (jeqb k k') eqn:E'; [apply jeqb_eq in E'|apply jeqb_neq in E']; case_decide; congruence.
    + rewrite IH. apply jeqb_neq in E. destruct (jeqb (key_of_agent a) k') eqn:E'; [|done].
      apply jeqb_eq in E'. case_decide; congruence.
Qed.

(** Setting an agent with a valid name always stores a record under that
    name: every spelling of it (any case, padded) then finds that record and
    every other lookup answers as before; the "invalid agent record" error is
    never raised. *)
Theorem set_agent_lookup (io : bool) (input : SeatAgent) (s : AgentRegistryStore)
    (Hname : agentNameError (ag_name input) = None) :
  ∃ r, (set_agent io input s).2 = (if io then inr r else inl WriteFailed) ∧ ag_name r = ag_name input ∧
  ∀ nm, get_agent (set_agent io input s).1 nm =
        if decide (toLowerCase (trim nm) = toLowerCase (ag_name input)) then Some r else get_agent s nm.
Proof.
  destruct (normalize_encode_agent input Hname) as (r & Hr & Hrn). exists r.
  unfold set_agent. rewrite Hname, Hr. split_and!; [done..|]. intros nm. unfold get_agent. simpl.
  rewrite persist_agents_agents. simpl. rewrite findb_upsert by done.
  assert (key_of_agent r = toLowerCase (ag_name input)) as -> by (unfold key_of_agent; by rewrite Hrn). done.
Qed.

(** ** Round trip through the file *)

Definition trim_prompt (a : SeatAgent) : SeatAgent :=
  mkAgent (ag_name a) (ag_preset a) (ag_cwd a) (trim <$> ag_prompt a) (ag_approval a).

Lemma non_empty_strj o : o ≠ Some [] → non_empty (strj (JStr <$> o)) = o.
Proof.
  destruct o as [x|]; simpl; [|done]. intros Hx. unfold non_empty, strj. simpl.
  rewrite (proj2 (jeqb_neq x [])); [done|]. congruence.
Qed.

Lemma normalize_encode_agent_wf a : agent_wf a → normalizeAgent (encode_agent a) = Some (trim_prompt a).
Proof.
  intros (Hn & Hpre & Hcwd & Hpr & Hap). destruct (agentNameError_trim _ Hn) as [Ht Hne]. unfold normalizeAgent.
  change (is_object (encode_agent a)) with true. cbn [negb].
  destruct (get_encode_agent a) as (-> & -> & -> & -> & ->).
  change (strj (Some (JStr (ag_name a)))) with (ag_name a). rewrite Ht, Hn.
  rewrite (proj2 (jeqb_neq _ _) Hne). rewrite bool_decide_eq_false_2 by (intros [? ?]; done). cbn [orb].
  rewrite !non_empty_strj by done. f_equal. unfold trim_prompt. f_equal.
  - destruct (ag_prompt a) as [p|]; [|done]. destruct (Hpr p eq_refl) as (Hp & Hlen & Hs).
    change (strj (JStr <$> Some p)) with p. rewrite (proj2 (jeqb_neq _ _)) by by apply trim_nonempty.
    rewrite take_ge; [done|]. etransitivity; [apply trim_length|done].
  - by destruct Hap as [-> | ->].
Qed.

Lemma normalize_loop_encoded l out :
  registry_wf l → (∀ a, a ∈ l → key_of_agent a ∉ map key_of_agent out) →
  normalize_loop (map encode_agent l) out (map key_of_agent out) = out ++ map trim_prompt l.
Proof.
  revert out. induction l as [|a l IH]; intros out [Hall Hnd] Hdis; simpl; [by rewrite app_nil_r|].
  simpl in Hnd. apply NoDup_cons in Hnd as [Ha Hnd].
  rewrite normalize_encode_agent_wf by (apply Hall; set_solver).
  change (key_of_agent (trim_prompt a)) with (key_of_agent a).
  rewrite bool_decide_eq_false_2 by (apply Hdis; set_solver).
  replace (map key_of_agent out ++ [key_of_agent a]) with (map key_of_agent (out ++ [trim_prompt a])) by by rewrite map_app.
  rewrite IH; [by rewrite <- app_assoc|split; [set_solver|done]|].
  intros b Hb. rewrite map_app. simpl. change (key_of_agent (trim_prompt a)) with (key_of_agent a).
  rewrite elem_of_app, list_elem_of_singleton. intros [Hin|Heq].
  - revert Hin. apply Hdis. set_solver.
  - apply Ha. rewrite <- Heq. rewrite list_elem_of_In, in_map_iff. exists b. split; [done|]. by apply list_elem_of_In.
Qed.

(** Reloading the file that a registry write left gives the same agents
    in the same order, except that a prompt is trimmed (which only matters for
    one cut at 8000 units right after a blank); a second reload changes nothing
    more. *)
Theorem persist_agents_reload (s : AgentRegistryStore) (Hwf : registry_wf (rg_agents s)) :
  rg_agents (load_agents (persist_agents true s)) = map trim_prompt (rg_agents s) ∧
  (∀ a, trim_prompt (trim_prompt a) = trim_prompt a).
Proof.
  split.
  - unfold load_agents, persist_agents. cbn [rg_file rg_agents]. unfold normalize_agents, get. cbn [is_object negb prop_of].
    js_keys. apply (normalize_loop_encoded _ []); [done|]. intros a _. simpl. apply not_elem_of_nil.
  - intros [n pr cw [p|] ap]; unfold trim_prompt; simpl; [by rewrite trim_idem|done].
Qed.
End registry.

Definition sample_agent : SeatAgent := mkAgent (js "Coder") None (Some (js "/repo")) (Some (js " be brief ")) None.
Definition sample_registry : AgentRegistryStore :=
  (@set_agent AsciiLowerCase true sample_agent (mkReg [] true None)).1.

Lemma reachable_registry_wf_witness :
  rg_agents sample_registry = [mkAgent (js "Coder") None (Some (js "/repo")) (Some (js "be brief")) None] ∧
  @registry_wf AsciiLowerCase (rg_agents sample_registry).
Proof.
  split; [vm_compute; reflexivity|]. apply (@reachable_registry_wf AsciiLowerCase None).
  eapply rtc_l; [apply rs_load|]. eapply rtc_l; [|apply rtc_refl].
  apply (@rs_set AsciiLowerCase true sample_agent).
Defined.

Lemma set_agent_lookup_witness :
  @agentNameError AsciiLowerCase (ag_name sample_agent) = None ∧
  is_Some (@get_agent AsciiLowerCase sample_registry (js " cODER ")).
Proof.
  split; [vm_compute; reflexivity|].
  destruct (@set_agent_lookup AsciiLowerCase true sample_agent (mkReg [] true None) eq_refl) as (r & _ & _ & Hget).
  unfold sample_registry. rewrite Hget. exists r. vm_compute. reflexivity.
Defined.

Lemma persist_agents_reload_witness :
  @registry_wf AsciiLowerCase (rg_agents sample_registry) ∧
  rg_agents (@load_agents AsciiLowerCase (persist_agents true sample_registry)) = map trim_prompt (rg_agents sample_registry).
Proof.
  assert (@registry_wf AsciiLowerCase (rg_agents sample_registry)) as Hwf.
  { apply upsert_wf; [|split; [set_solver|constructor]]. by apply (normalizeAgent_wf (encode_agent sample_agent)). }
  split; [exact Hwf|]. by apply (@persist_agents_reload AsciiLowerCase).
Defined.
