(* ===== verification/AgentSessions.v ===== *)
(** * The sessions behind the voices (sessions/index.ts)

    The alter has one session, every seat agent a direct session and one per
    group it works in.  Their ids are kept in maps and in dsh-sessions.json;
    [ensureAlter] and [ensureAgentSession] resume or create the session of a
    voice, serialised per voice by the promise of the run under way.  Each
    [await] of such a run is a point where anything else may happen: a run is
    a job with a stage, and a step of the machine is one answer of the host,
    one call, or one change of the host's own. *)

From S2P Require Import Prelude JsString JsMap Json AgentRegistry.
#[local] Open Scope Z_scope.

(** ** The session map *)

(** Which session: the alter's, or an agent's direct one ([None]) or one in a group. *)
Inductive Target := TgAlter | TgAgent (name : list Z) (gid : option (list Z)).
#[export] Instance Target_eq_dec : EqDecision Target.
Proof. solve_decision. Defined.

Record SessionMaps := mkMaps {
  sm_alterId : option (list Z);
  sm_agents : list (list Z * list Z);                    (** [agentSessionIds] *)
  sm_groups : list (list Z * list (list Z * list Z));    (** [agentGroupSessionIds] *)
  sm_legacy : list (list Z * json) }.

Definition known (t : Target) (m : SessionMaps) : option (list Z) :=
  match t with
  | TgAlter => sm_alterId m
  | TgAgent n None => map_get (sm_agents m) n
  | TgAgent n (Some g) => map_get (sm_groups m) n ≫= λ byGid, map_get byGid g
  end.

(** [remember], and [alterId = sessionId]. *)
Definition remember (t : Target) (id : list Z) (m : SessionMaps) : SessionMaps :=
  match t with
  | TgAlter => mkMaps (Some id) (sm_agents m) (sm_groups m) (sm_legacy m)
  | TgAgent n None => mkMaps (sm_alterId m) (map_set (sm_agents m) n id) (sm_groups m) (sm_legacy m)
  | TgAgent n (Some g) =>
      mkMaps (sm_alterId m) (sm_agents m) (map_set (sm_groups m) n (map_set (map_get (sm_groups m) n ?? []) g id)) (sm_legacy m)
  end.

(** [forget], and [alterId = undefined]. *)
Definition forget (t : Target) (m : SessionMaps) : SessionMaps :=
  match t with
  | TgAlter => mkMaps None (sm_agents m) (sm_groups m) (sm_legacy m)
  | TgAgent n None => mkMaps (sm_alterId m) (map_delete (sm_agents m) n) (sm_groups m) (sm_legacy m)
  | TgAgent n (Some g) =>
      match map_get (sm_groups m) n with
      | None => m
      | Some byGid => mkMaps (sm_alterId m) (sm_agents m) (map_set (sm_groups m) n (map_delete byGid g)) (sm_legacy m)
      end
  end.

(** The deletions of [removeAgent], by the lower-cased name. *)
Definition remove_sessions `{LowerCase} (name : list Z) (m : SessionMaps) : SessionMaps :=
  let key := toLowerCase (trim name) in
  let keep {A} (kv : list Z * A) := negb (jeqb (toLowerCase kv.1) key) in
  mkMaps (sm_alterId m) (filterb keep (sm_agents m)) (filterb keep (sm_groups m)) (sm_legacy m).

(** ** dsh-sessions.json *)

Definition fromEntries (l : list (list Z * list Z)) : json := JObj (map (λ kv, (kv.1, JStr kv.2)) l).

(** What [persistMap] writes. *)
Definition session_map_json (m : SessionMaps) : json :=
  let groupSessions := map (λ nb, (nb.1, fromEntries nb.2)) (filterb (λ nb, negb (bool_decide (nb.2 = []))) (sm_groups m)) in
  JObj (opt_prop (js "alterSessionId") JStr (sm_alterId m)
    ++ (match sm_agents m with [] => [] | l => [(js "agentSessions", fromEntries l)] end)
    ++ (match groupSessions with [] => [] | l => [(js "agentGroupSessions", JObj l)] end)
    ++ (match sm_legacy m with [] => [] | l => [(js "legacyFriendSessions", JObj l)] end)).

(** [for ([k, id] of entries) if (typeof id === 'string' && id !== '') map.set(k, id)]. *)
Definition read_ids (o : list (list Z * json)) : list (list Z * list Z) :=
  fold_left (λ acc kv, match kv.2 with JStr (c :: s) => map_set acc kv.1 (c :: s) | _ => acc end) o [].

Definition read_group_ids (o : list (list Z * json)) : list (list Z * list (list Z * list Z)) :=
  fold_left (λ acc kv, if is_object kv.2
                       then match read_ids (entries kv.2) with [] => acc | l => map_set acc kv.1 l end
                       else acc) o [].

Definition object_entries (v : option json) : list (list Z * json) :=
  match v with Some x => if is_object x then entries x else [] | None => [] end.

(** The map read at start-up; a file that does not parse is a first run. *)
Definition load_session_map (file : option json) : SessionMaps :=
  match file with
  | None => mkMaps None [] [] []
  | Some raw =>
      let old := match get raw (js "legacyFriendSessions") with
                 | Some JNull | None => get raw (js "sessions")
                 | o => o
                 end in
      mkMaps (as_string (get raw (js "alterSessionId")) ≫= non_empty)
        (read_ids (object_entries (get raw (js "agentSessions"))))
        (read_group_ids (object_entries (get raw (js "agentGroupSessions"))))
        (match old with Some o => entries o | None => [] end)
  end.

(** ** Ensuring a session *)

(** Where a run of [ensureAlterInner] / [ensureAgentSessionInner] waits. *)
Inductive Stage :=
| StResume (id : list Z)                    (** [ctx.agents.resume] *)
| StCreate (id : list Z)                    (** [ctx.agents.create] *)
| StWrite (id : list Z) (data : json)       (** [persistMap], with the data it took *)
| StDone (result : option (list Z)).        (** settled; [None]: rejected *)

Record Job := mkJob { jb_target : Target; jb_stage : Stage }.

Record Voices := mkVoices {
  vs_maps : SessionMaps;
  vs_file : option json;
  vs_live : list (list Z);                  (** sessions with a live agent on the host *)
  vs_created : list (Target * list Z);      (** sessions created so far *)
  vs_forgotten : list Target;               (** targets whose id was given up *)
  vs_jobs : list Job;                       (** [ensuring], [ensuringAgents] *)
  vs_writes : list json;                    (** other writes of the map under way *)
  vs_uuids : nat }.

Definition with_maps (m : SessionMaps) (s : Voices) : Voices :=
  mkVoices m (vs_file s) (vs_live s) (vs_created s) (vs_forgotten s) (vs_jobs s) (vs_writes s) (vs_uuids s).
Definition with_file (f : option json) (s : Voices) : Voices :=
  mkVoices (vs_maps s) f (vs_live s) (vs_created s) (vs_forgotten s) (vs_jobs s) (vs_writes s) (vs_uuids s).
Definition with_live (l : list (list Z)) (s : Voices) : Voices :=
  mkVoices (vs_maps s) (vs_file s) l (vs_created s) (vs_forgotten s) (vs_jobs s) (vs_writes s) (vs_uuids s).
Definition with_jobs (l : list Job) (s : Voices) : Voices :=
  mkVoices (vs_maps s) (vs_file s) (vs_live s) (vs_created s) (vs_forgotten s) l (vs_writes s) (vs_uuids s).
Definition with_writes (l : list json) (s : Voices) : Voices :=
  mkVoices (vs_maps s) (vs_file s) (vs_live s) (vs_created s) (vs_forgotten s) (vs_jobs s) l (vs_uuids s).
Definition abandon (t : Target) (s : Voices) : Voices :=
  mkVoices (forget t (vs_maps s)) (vs_file s) (vs_live s) (vs_created s) (t :: vs_forgotten s) (vs_jobs s) (vs_writes s) (vs_uuids s).
Definition publish (t : Target) (id : list Z) (s : Voices) : Voices :=
  mkVoices (remember t id (vs_maps s)) (vs_file s) (id :: vs_live s) ((t, id) :: vs_created s) (vs_forgotten s) (vs_jobs s)
    (vs_writes s) (vs_uuids s).
Definition bump_uuid (s : Voices) : Voices :=
  mkVoices (vs_maps s) (vs_file s) (vs_live s) (vs_created s) (vs_forgotten s) (vs_jobs s) (vs_writes s) (vs_uuids s + 1).

Definition boot (file : option json) : Voices := mkVoices (load_session_map file) file [] [] [] [] [] 0.

(** The key of a run in [ensuringAgents]; the alter has a variable of its own. *)
Definition ensure_key (t : Target) : option (list Z) :=
  match t with
  | TgAlter => None
  | TgAgent n None => Some n
  | TgAgent n (Some g) => Some (n ++ [0] ++ g)
  end.

Definition job_of (t : Target) (l : list Job) : option Job := findb (λ j, bool_decide (ensure_key (jb_target j) = ensure_key t)) l.
Definition set_stage (t : Target) (st : Stage) (l : list Job) : list Job :=
  map (λ j, if bool_decide (ensure_key (jb_target j) = ensure_key t) then mkJob (jb_target j) st else j) l.
Definition drop_job (t : Target) (l : list Job) : list Job :=
  filterb (λ j, negb (bool_decide (ensure_key (jb_target j) = ensure_key t))) l.

Section machine.
Context (uuid : nat → list Z).

Definition fresh_session (s : Voices) : list Z := js "session-" ++ uuid (vs_uuids s).

(** From the start of a run to its first wait. *)
Definition first_stage (t : Target) (s : Voices) : Stage * Voices :=
  match known t (vs_maps s) with
  | Some id => (if bool_decide (id ∈ vs_live s) then StDone (Some id) else StResume id, s)
  | None => (StCreate (fresh_session s), bump_uuid s)
  end.

(** [ensureAlter] / [ensureAgentSession]: a caller joins the run under way. *)
Definition ensure (t : Target) (s : Voices) : Voices :=
  match job_of t (vs_jobs s) with
  | Some _ => s
  | None => let '(st, s1) := first_stage t s in with_jobs (vs_jobs s1 ++ [mkJob t st]) s1
  end.

(** The host answers the run's [resume]. *)
Definition resumed (ok : bool) (t : Target) (s : Voices) : Voices :=
  match jb_stage <$> job_of t (vs_jobs s) with
  | Some (StResume id) =>
      if ok then with_live (id :: vs_live s) (with_jobs (set_stage t (StDone (Some id)) (vs_jobs s)) s)
      else if bool_decide (id ∈ vs_live s) then with_jobs (set_stage t (StDone (Some id)) (vs_jobs s)) s  (* lost a race: reuse *)
      else
        let s1 := abandon t s in
        bump_uuid (with_jobs (set_stage t (StCreate (fresh_session s1)) (vs_jobs s1)) s1)
  | _ => s
  end.

(** The host answers the run's [create]. *)
Definition created (ok : bool) (t : Target) (s : Voices) : Voices :=
  match jb_stage <$> job_of t (vs_jobs s) with
  | Some (StCreate id) =>
      if ok then
        let s1 := publish t id s in
        with_jobs (set_stage t (StWrite id (session_map_json (vs_maps s1))) (vs_jobs s1)) s1
      else with_jobs (set_stage t (StDone None) (vs_jobs s)) s
  | _ => s
  end.

(** The run's write of the map settles. *)
Definition written (ok : bool) (t : Target) (s : Voices) : Voices :=
  match jb_stage <$> job_of t (vs_jobs s) with
  | Some (StWrite id data) =>
      let s1 := with_jobs (set_stage t (StDone (if ok then Some id else None)) (vs_jobs s)) s in
      if ok then with_file (Some data) s1 else s1
  | _ => s
  end.

(** [.finally]: the next caller starts a run of its own. *)
Definition settle (t : Target) (s : Voices) : Voices :=
  match jb_stage <$> job_of t (vs_jobs s) with
  | Some (StDone _) => with_jobs (drop_job t (vs_jobs s)) s
  | _ => s
  end.
End machine.

(** [removeAgent], once the registry removed the record. *)
Definition removeAgent `{LowerCase} (name : list Z) (s : Voices) : Voices :=
  let m := remove_sessions name (vs_maps s) in
  let gone := filterb (λ t, match known t (vs_maps s), known t m with Some _, None => true | _, _ => false end)
                (map (λ kv, TgAgent kv.1 None) (sm_agents (vs_maps s))
                 ++ concat (map (λ nb, map (λ gi, TgAgent nb.1 (Some gi.1)) nb.2) (sm_groups (vs_maps s)))) in
  mkVoices m (vs_file s) (vs_live s) (vs_created s) (gone ++ vs_forgotten s) (vs_jobs s)
    (vs_writes s ++ [session_map_json m]) (vs_uuids s).

(** A write that no run waits for lands. *)
Definition write_lands (i : nat) (s : Voices) : Voices :=
  match vs_writes s !! i with
  | Some data => with_writes (take i (vs_writes s) ++ drop (S i) (vs_writes s)) (with_file (Some data) s)
  | None => s
  end.

(** * Theorems *)

(** ** The maps *)

Lemma map_get_filter {A} (f : list Z → bool) (m : list (list Z * A)) k :
  map_get (filterb (λ kv, f kv.1) m) k = if f k then map_get m k else None.
Proof.
  induction m as [|[k0 v0] m IH]; simpl; [by destruct (f k)|].
  destruct (jeqb k0 k) eqn:E.
  - apply jeqb_eq in E as ->. destruct (f k) eqn:Ef; simpl; [by rewrite jeqb_refl|]. by rewrite IH.
  - destruct (f k0); simpl; rewrite ?E; apply IH.
Qed.

Lemma known_remember t t' id m : known t' (remember t id m) = if decide (t = t') then Some id else known t' m.
Proof.
  destruct (decide (t = t')) as [->|Hne].
  - destruct t' as [|n [g|]]; simpl; rewrite ?map_get_set, ?jeqb_refl; simpl; rewrite ?map_get_set, ?jeqb_refl; done.
  - destruct t as [|n [g|]], t' as [|n' [g'|]]; simpl; try done; rewrite ?map_get_set;
      destruct (jeqb n n') eqn:E; try done; apply jeqb_eq in E as <-; simpl; [|congruence].
    rewrite map_get_set. destruct (jeqb g g') eqn:Eg; [apply jeqb_eq in Eg; congruence|].
    by destruct (map_get (sm_groups m) n).
Qed.

Lemma known_forget_group n g m t' :
  known t' (forget (TgAgent n (Some g)) m) = if decide (TgAgent n (Some g) = t') then None else known t' m.
Proof.
  unfold forget. destruct (map_get (sm_groups m) n) as [b|] eqn:Em; [|case_decide; [subst; simpl; by rewrite Em|done]].
  case_decide as Ht.
  - subst. simpl. rewrite map_get_set, jeqb_refl. simpl. by rewrite map_get_delete, jeqb_refl.
  - destruct t' as [|n' [g'|]]; simpl; try done. rewrite map_get_set. destruct (jeqb n n') eqn:En; [|done].
    apply jeqb_eq in En as <-. simpl. rewrite map_get_delete, Em. simpl.
    destruct (jeqb g g') eqn:Eg; [|done]. apply jeqb_eq in Eg. congruence.
Qed.

Lemma known_forget t t' m : known t' (forget t m) = if decide (t = t') then None else known t' m.
Proof.
  destruct t as [|n [g|]]; [|apply known_forget_group|]; case_decide as Ht; subst; simpl;
    rewrite ?map_get_delete, ?jeqb_refl; try done.
  - by destruct t'.
  - destruct t' as [|n' [g'|]]; try done. simpl. rewrite map_get_delete.
    destruct (jeqb n n') eqn:En; [|done]. apply jeqb_eq in En. congruence.
Qed.

Definition removed_by `{LowerCase} (name : list Z) (t : Target) : bool :=
  match t with TgAlter => false | TgAgent n _ => jeqb (toLowerCase n) (toLowerCase (trim name)) end.

Lemma known_remove `{LowerCase} name t m : known t (remove_sessions name m) = if removed_by name t then None else known t m.
Proof.
  destruct t as [|n [g|]]; simpl; [done|..];
    rewrite (map_get_filter (λ k, negb (jeqb (toLowerCase k) (toLowerCase (trim name)))));
    by destruct (jeqb (toLowerCase n) (toLowerCase (trim name))).
Qed.

(** ** dsh-sessions.json round trip *)

Record maps_wf (m : SessionMaps) : Prop := {
  mw_alter : sm_alterId m ≠ Some [];
  mw_agents : NoDup (sm_agents m).*1 ∧ Forall (λ kv, kv.2 ≠ []) (sm_agents m);
  mw_groups : NoDup (sm_groups m).*1 ∧
    Forall (λ nb, nb.2 ≠ [] ∧ NoDup nb.2.*1 ∧ Forall (λ kv, kv.2 ≠ []) nb.2) (sm_groups m);
}.

Lemma map_set_fresh {A} (m : list (list Z * A)) k x : k ∉ m.*1 → map_set m k x = m ++ [(k, x)].
Proof.
  induction m as [|[k0 v0] m IH]; simpl; [done|]. intros [Hne Hk]%not_elem_of_cons.
  destruct (jeqb k0 k) eqn:E; [by apply jeqb_eq in E as ->|]. by rewrite IH.
Qed.

(** Folding [map.set] over entries with distinct keys rebuilds the entries. *)
Lemma fold_set_fresh {A B} (enc : A → B) (f : list (list Z * A) → list Z * B → list (list Z * A)) (l : list (list Z * A)) :
  (∀ acc kv, kv ∈ l → f acc (kv.1, enc kv.2) = map_set acc kv.1 kv.2) → NoDup l.*1 →
  fold_left f (map (λ kv, (kv.1, enc kv.2)) l) [] = l.
Proof.
  intros Hf Hnd.
  assert (∀ l2 acc, (∀ a kv, kv ∈ l2 → f a (kv.1, enc kv.2) = map_set a kv.1 kv.2) → NoDup (acc ++ l2).*1 →
          fold_left f (map (λ kv, (kv.1, enc kv.2)) l2) acc = acc ++ l2) as Hgo; [|by apply (Hgo l [])].
  clear Hf Hnd l. induction l2 as [|[k x] l2 IH]; intros acc Hf Hnd; simpl; [by rewrite app_nil_r|].
  rewrite (Hf acc (k, x) ltac:(by left) : f acc (k, enc x) = map_set acc k x). rewrite fmap_app in Hnd. apply NoDup_app in Hnd as (Hn1 & Hn2 & Hn3).
  rewrite map_set_fresh by (intros Hk; apply (Hn2 k Hk); simpl; by left). rewrite IH.
  - by rewrite <- app_assoc.
  - intros a kv Hin. apply Hf. by right.
  - rewrite <- app_assoc, fmap_app. simpl. by apply NoDup_app.
Qed.

Lemma read_ids_roundtrip l : NoDup l.*1 → Forall (λ kv, kv.2 ≠ []) l → read_ids (map (λ kv, (kv.1, JStr kv.2)) l) = l.
Proof.
  intros Hnd Hne. apply (fold_set_fresh JStr); [|done]. intros acc [k x] Hin. rewrite Forall_forall in Hne.
  specialize (Hne _ Hin). simpl in *. by destruct x.
Qed.

Lemma read_group_ids_roundtrip l :
  NoDup l.*1 → Forall (λ nb, nb.2 ≠ [] ∧ NoDup nb.2.*1 ∧ Forall (λ kv, kv.2 ≠ []) nb.2) l →
  read_group_ids (map (λ nb, (nb.1, fromEntries nb.2)) l) = l.
Proof.
  intros Hnd Hall. apply (fold_set_fresh fromEntries); [|done]. intros acc [n b] Hin. rewrite Forall_forall in Hall.
  destruct (Hall _ Hin) as (Hne & Hb & Hids). simpl in *. rewrite read_ids_roundtrip by done. by destruct b.
Qed.

(** Writing the session map and reading it back at the next start gives
    the same sessions for the alter and every agent, directly and per group, and
    the legacy sessions untouched. *)
Theorem session_map_roundtrip (m : SessionMaps) (Hm : maps_wf m) : load_session_map (Some (session_map_json m)) = m.
Proof.
  destruct Hm as [Ha [Hn Hi] [Hgn Hg]]. unfold load_session_map, session_map_json. cbn [get].
  assert (filterb (λ nb, negb (bool_decide (nb.2 = []))) (sm_groups m) = sm_groups m) as ->.
  { apply filterb_all. intros nb Hin. rewrite Forall_forall in Hg. destruct (Hg _ Hin) as [Hne _].
    by rewrite bool_decide_eq_false_2. }
  rewrite !prop_of_app, !prop_of_opt.
  assert (read_ids (map (λ kv, (kv.1, JStr kv.2)) (sm_agents m)) = sm_agents m) as E1 by (by apply read_ids_roundtrip).
  assert (read_group_ids (map (λ nb, (nb.1, fromEntries nb.2)) (sm_groups m)) = sm_groups m) as E2 by (by apply read_group_ids_roundtrip).
  destruct m as [alter agents groups legacy]; simpl in *.
  destruct alter as [[|c a]|]; [done|..]; destruct agents as [|x1 a1], groups as [|y1 g1], legacy as [|z1 l1];
    cbn -[read_ids read_group_ids] in *; js_keys; cbn -[read_ids read_group_ids]; by rewrite ?E1, ?E2.
Qed.

(** ** Runs are keyed by their voice *)

(** No control character is part of a seat agent's name. *)
Definition target_ok (t : Target) : Prop := match t with TgAlter => True | TgAgent n _ => 0 ∉ n end.

Lemma agent_name_target `{LowerCase} n g : agentNameError n = None → target_ok (TgAgent n g).
Proof.
  unfold agentNameError. intros Hn Hin. destruct (jeqb (trim n) []); [done|].
  destruct (jeqb (trim n) n) eqn:E; [|done]. apply jeqb_eq in E. simpl in Hn. rewrite E in Hn.
  destruct (_ <? _); [done|]. destruct (bool_decide _); [done|]. destruct (someb is_separator n); [done|].
  destruct (someb is_control n) eqn:Ec; [done|]. rewrite someb_false in Ec. by specialize (Ec 0 Hin).
Qed.

Lemma ensure_key_inj t t' : target_ok t → target_ok t' → ensure_key t = ensure_key t' → t = t'.
Proof.
  destruct t as [|n [g|]], t' as [|n' [g'|]]; simpl; intros Hn Hn' Hk; simplify_eq; try done.
  - pose proof (f_equal (split_on 0) Hk) as Hs. rewrite !split_on_app in Hs by done. injection Hs as -> _.
    apply app_inv_head in Hk. congruence.
  - exfalso. apply Hn'. set_solver.
  - exfalso. apply Hn. set_solver.
Qed.

(** ** Jobs *)

Definition jobs_ok (l : list Job) : Prop := Forall (λ j, target_ok (jb_target j)) l ∧ NoDup (map jb_target l).

Lemma key_decide t j (l : list Job) :
  jobs_ok l → target_ok t → j ∈ l → bool_decide (ensure_key (jb_target j) = ensure_key t) = bool_decide (jb_target j = t).
Proof.
  intros [Hl _] Ht Hj. rewrite Forall_forall in Hl. specialize (Hl j Hj). apply bool_decide_ext.
  split; [by apply ensure_key_inj|by intros ->].
Qed.

Lemma job_of_Some t l j : jobs_ok l → target_ok t → job_of t l = Some j → j ∈ l ∧ jb_target j = t.
Proof.
  intros Hl Ht [Hj He]%findb_Some. split; [done|]. rewrite (key_decide t j l) in He by done. by apply bool_decide_eq_true in He.
Qed.

Lemma job_of_None t l : job_of t l = None → t ∉ map jb_target l.
Proof.
  intros Hn Hin. apply list_elem_of_In, in_map_iff in Hin as (j & <- & Hj). apply list_elem_of_In in Hj.
  pose proof (proj1 (findb_None _ _) Hn j Hj) as Hk. simpl in Hk. by rewrite bool_decide_eq_true_2 in Hk.
Qed.

Lemma set_stage_targets t st l : map jb_target (set_stage t st l) = map jb_target l.
Proof. unfold set_stage. rewrite map_map. apply map_ext. intros j. by case_match. Qed.

Lemma elem_set_stage t st l j :
  jobs_ok l → target_ok t → j ∈ set_stage t st l → (j = mkJob t st) ∨ (jb_target j ≠ t ∧ j ∈ l).
Proof.
  intros Hl Ht Hj. apply list_elem_of_In, in_map_iff in Hj as (j0 & <- & Hj0). apply list_elem_of_In in Hj0.
  rewrite (key_decide t j0 l) by done. case_bool_decide as E; [left; by rewrite E|by right].
Qed.

Lemma set_stage_ok t st l : jobs_ok l → jobs_ok (set_stage t st l).
Proof.
  intros [Hl Hn]. split; [|by rewrite set_stage_targets]. apply Forall_map.
  eapply Forall_impl; [exact Hl|]. intros j Hj. by case_bool_decide.
Qed.

Lemma drop_job_ok t l : jobs_ok l → jobs_ok (drop_job t l).
Proof.
  intros [Hl Hn]. split.
  - apply Forall_forall. intros j [Hj _]%elem_of_filterb. rewrite Forall_forall in Hl. by apply Hl.
  - unfold drop_job. induction l as [|j l IH]; simpl; [constructor|].
    apply Forall_cons in Hl as [_ Hl]. apply NoDup_cons in Hn as [Hj Hn].
    destruct (negb _); simpl; [|by apply IH]. constructor; [|by apply IH].
    intros Hin. apply Hj. apply list_elem_of_In, in_map_iff in Hin as (j' & Ej & Hj').
    apply list_elem_of_In, elem_of_filterb in Hj' as [Hj' _]. rewrite <- Ej. apply list_elem_of_In, in_map. by apply list_elem_of_In.
Qed.

Lemma push_job_ok t st l : jobs_ok l → target_ok t → job_of t l = None → jobs_ok (l ++ [mkJob t st]).
Proof.
  intros [Hl Hn] Ht Hj. split; [apply Forall_app; split; [done|by constructor]|].
  rewrite map_app. apply NoDup_app. split_and!; [done| |apply NoDup_singleton].
  intros x Hx Hin. apply list_elem_of_singleton in Hin as ->. by apply (job_of_None t l Hj).
Qed.

(** ** One session per voice *)

Inductive VoiceOp :=
| VoEnsure (t : Target)
| VoResumed (ok : bool) (t : Target)
| VoCreated (ok : bool) (t : Target)
| VoWritten (ok : bool) (t : Target)
| VoSettle (t : Target)
| VoRemove (name : list Z)
| VoLands (i : nat)
| VoAppears (id : list Z)     (** the browser reopens a session *)
| VoVanishes (id : list Z).   (** the host unregisters an idle agent *)

Definition voice_step `{LowerCase} (uuid : nat → list Z) (s : Voices) (o : VoiceOp) : Voices :=
  match o with
  | VoEnsure t => ensure uuid t s
  | VoResumed ok t => resumed uuid ok t s
  | VoCreated ok t => created ok t s
  | VoWritten ok t => written ok t s
  | VoSettle t => settle t s
  | VoRemove name => removeAgent name s
  | VoLands i => write_lands i s
  | VoAppears id => with_live (id :: vs_live s) s
  | VoVanishes id => with_live (filterb (λ x, negb (jeqb x id)) (vs_live s)) s
  end.

Definition op_ok (o : VoiceOp) : Prop :=
  match o with
  | VoEnsure t | VoResumed _ t | VoCreated _ t | VoWritten _ t | VoSettle t => target_ok t
  | _ => True
  end.

Definition times (t : Target) (l : list Target) : nat := length (filterb (λ x, bool_decide (x = t)) l).
Definition has_id (t : Target) (m : SessionMaps) : nat := if known t m then 1 else 0.

Lemma times_cons t x l : times t (x :: l) = ((if decide (x = t) then 1 else 0) + times t l)%nat.
Proof. unfold times. simpl. case_bool_decide; case_decide; done. Qed.
Lemma times_app t l k : times t (l ++ k) = (times t l + times t k)%nat.
Proof. unfold times. by rewrite filterb_app, length_app. Qed.
Lemma times_elem t l : t ∈ l → (1 <= times t l)%nat.
Proof.
  induction l as [|x l IH]; [by intros ?%elem_of_nil|]. rewrite times_cons, elem_of_cons.
  intros [->|Hx]; [rewrite decide_True by done; lia|]. specialize (IH Hx). lia.
Qed.

(** [base] is the map of the start. *)
Record voices_ok (base : SessionMaps) (s : Voices) : Prop := {
  vk_jobs : jobs_ok (vs_jobs s);
  vk_create : ∀ t id, mkJob t (StCreate id) ∈ vs_jobs s → known t (vs_maps s) = None;
  vk_count : ∀ t, (times t (map fst (vs_created s)) + has_id t base <= times t (vs_forgotten s) + has_id t (vs_maps s))%nat;
}.

Lemma stage_ok base s t st :
  voices_ok base s → target_ok t → (∀ id, st ≠ StCreate id) → voices_ok base (with_jobs (set_stage t st (vs_jobs s)) s).
Proof.
  intros [Hj Hc Hn] Ht Hst. constructor; simpl; [by apply set_stage_ok| |done].
  intros t' id Hin. apply elem_set_stage in Hin as [Hin|[_ Hin]]; [|by eapply Hc|done..].
  injection Hin as -> He. by destruct (Hst id).
Qed.

Lemma ensure_ok base uuid s t : voices_ok base s → target_ok t → voices_ok base (ensure uuid t s).
Proof.
  intros [Hj Hc Hn] Ht. unfold ensure. destruct (job_of t (vs_jobs s)) eqn:Ej; [done|].
  unfold first_stage. destruct (known t (vs_maps s)) as [id|] eqn:Ek; constructor; simpl; try done;
    try (by apply push_job_ok); intros t' id' Hin; apply elem_of_app in Hin as [Hin|Hin%list_elem_of_singleton];
    try (by eapply Hc); simplify_eq; try done; case_bool_decide; done.
Qed.

Lemma resumed_ok base uuid s ok t : voices_ok base s → target_ok t → voices_ok base (resumed uuid ok t s).
Proof.
  intros Hs Ht. unfold resumed. destruct (job_of t (vs_jobs s)) as [j|] eqn:Ej; [|done]. simpl.
  destruct (jb_stage j) as [id|id|id d|r] eqn:Est; try done.
  destruct ok; [pose proof (stage_ok base s t (StDone (Some id)) Hs Ht ltac:(done)) as [? ? ?]; by constructor|].
  destruct (bool_decide _); [by apply stage_ok|]. destruct Hs as [Hj Hc Hn]. constructor; simpl.
  - by apply set_stage_ok.
  - intros t' id' Hin. rewrite known_forget. case_decide; [done|].
    apply elem_set_stage in Hin as [Hin|[_ Hin]]; [|by eapply Hc|done..]. congruence.
  - intros t'. specialize (Hn t'). rewrite times_cons. unfold has_id in *. rewrite known_forget.
    case_decide; subst; [|lia]. destruct (known t' (vs_maps s)); simpl in *; lia.
Qed.

Lemma created_ok base s ok t : voices_ok base s → target_ok t → voices_ok base (created ok t s).
Proof.
  intros Hs Ht. unfold created. destruct (job_of t (vs_jobs s)) as [j|] eqn:Ej; [|done]. simpl.
  destruct (jb_stage j) as [id|id|id d|r] eqn:Est; try done. destruct ok; [|by apply stage_ok].
  pose proof (job_of_Some _ _ _ (vk_jobs _ _ Hs) Ht Ej) as [Hin Htg].
  destruct Hs as [Hj Hc Hn]. assert (known t (vs_maps s) = None) as Hk.
  { apply (Hc t id). destruct j as [tj sj]; simpl in *; by subst. }
  constructor; simpl; [by apply set_stage_ok|..].
  - intros t' id' Hin'. apply elem_set_stage in Hin' as [Hin'|[Hne Hin']]; [done| |done..]. simpl in Hne.
    rewrite known_remember, decide_False by congruence. by eapply Hc.
  - intros t'. specialize (Hn t'). rewrite times_cons. unfold has_id in *. rewrite known_remember.
    case_decide; subst; [|lia]. rewrite Hk in Hn. simpl in *. lia.
Qed.

Lemma written_ok base s ok t : voices_ok base s → target_ok t → voices_ok base (written ok t s).
Proof.
  intros Hs Ht. unfold written. destruct (job_of t (vs_jobs s)) as [j|]; [|done]. simpl.
  destruct (jb_stage j) as [id|id|id d|r]; try done.
  pose proof (stage_ok base s t (StDone (if ok then Some id else None)) Hs Ht ltac:(by destruct ok)) as [Hj Hc Hn].
  destruct ok; by constructor.
Qed.

Lemma settle_ok base s t : voices_ok base s → voices_ok base (settle t s).
Proof.
  intros Hs. unfold settle. destruct (job_of t (vs_jobs s)) as [j|]; [|done]. simpl.
  destruct (jb_stage j); try done. destruct Hs as [Hj Hc Hn]. constructor; simpl; [by apply drop_job_ok| |done].
  intros t' id [Hin _]%elem_of_filterb. by eapply Hc.
Qed.

(** What [removeAgent] takes out of the maps is accounted as given up. *)
Lemma known_listed t m id :
  known t m = Some id → t ≠ TgAlter →
  t ∈ map (λ kv, TgAgent kv.1 None) (sm_agents m) ++ concat (map (λ nb, map (λ gi, TgAgent nb.1 (Some gi.1)) nb.2) (sm_groups m)).
Proof.
  intros Hk Hne. destruct t as [|n [g|]]; [done|..]; simpl in Hk; apply elem_of_app; [right|left].
  - destruct (map_get (sm_groups m) n) as [b|] eqn:Eb; [|done]. simpl in Hk. apply map_get_elem in Eb, Hk.
    apply list_elem_of_In, in_concat. eexists. split; [apply in_map; by apply list_elem_of_In|].
    apply in_map_iff. exists (g, id). split; [done|]. by apply list_elem_of_In.
  - apply map_get_elem in Hk. apply list_elem_of_In, in_map_iff. exists (n, id). split; [done|]. by apply list_elem_of_In.
Qed.

Lemma remove_ok `{LowerCase} base s name : voices_ok base s → voices_ok base (removeAgent name s).
Proof.
  intros [Hj Hc Hn]. unfold removeAgent. constructor; cbn [vs_jobs vs_maps vs_created vs_forgotten]; [done|..].
  - intros t id Hin. rewrite known_remove, (Hc t id Hin). by case_match.
  - intros t. specialize (Hn t). unfold has_id in *. rewrite known_remove, times_app.
    destruct (removed_by name t) eqn:Er; [|lia]. destruct (known t (vs_maps s)) as [id|] eqn:Ek; [|lia].
    match goal with |- context [(times t ?l + _)%nat] => assert (1 <= times t l)%nat; [|lia] end.
    apply times_elem, elem_of_filterb. rewrite Ek, known_remove, Er. split; [|done].
    apply (known_listed t _ id Ek). by intros ->.
Qed.

Lemma voice_step_ok `{LowerCase} base uuid s o : op_ok o → voices_ok base s → voices_ok base (voice_step uuid s o).
Proof.
  intros Ho Hs. destruct o; simpl in *;
    [by apply ensure_ok|by apply resumed_ok|by apply created_ok|by apply written_ok|by apply settle_ok|by apply remove_ok|..];
    destruct Hs as [Hj Hc Hn]; unfold write_lands; repeat case_match; by constructor.
Qed.

Lemma voices_run_ok `{LowerCase} uuid file ops :
  Forall op_ok ops → voices_ok (load_session_map file) (fold_left (voice_step uuid) ops (boot file)).
Proof.
  intros Hops. assert (voices_ok (load_session_map file) (boot file)) as Hs.
  { constructor; simpl; [split; [done|constructor]|by intros ? ? ?%elem_of_nil|]. intros t. unfold times. simpl. lia. }
  revert Hs. generalize (boot file). induction Hops as [|o ops Ho Hops IH]; intros s Hs; simpl; [done|].
  by apply IH, voice_step_ok.
Qed.


(** ** Voices never share a session *)

Section ids.
Context `{LowerCase} (uuid : nat → list Z) (uuid_inj : ∀ a b, uuid a = uuid b → a = b).
Notation sess n := (js "session-" ++ uuid n).

Record ids_ok (s : Voices) : Prop := {
  ik_fresh : ∀ t n, known t (vs_maps s) = Some (sess n) → (n < vs_uuids s)%nat;
  ik_job : ∀ t id, mkJob t (StCreate id) ∈ vs_jobs s → ∃ n, (n < vs_uuids s)%nat ∧ id = sess n ∧ ∀ t', known t' (vs_maps s) ≠ Some id;
  ik_jobs : ∀ t1 t2 id, mkJob t1 (StCreate id) ∈ vs_jobs s → mkJob t2 (StCreate id) ∈ vs_jobs s → t1 = t2;
  ik_inj : ∀ t1 t2 id, known t1 (vs_maps s) = Some id → known t2 (vs_maps s) = Some id → t1 = t2;
}.

(** A step that only loses ids and runs under way. *)
Lemma ids_shrink s s' :
  ids_ok s → (∀ t id, known t (vs_maps s') = Some id → known t (vs_maps s) = Some id) →
  (∀ t id, mkJob t (StCreate id) ∈ vs_jobs s' → mkJob t (StCreate id) ∈ vs_jobs s) → vs_uuids s' = vs_uuids s → ids_ok s'.
Proof.
  intros [Hf Hj Hi Hk] Hm Hjobs Hu. constructor; rewrite ?Hu; naive_solver.
Qed.

Lemma sess_inj a b : sess a = sess b → a = b.
Proof. intros E%app_inv_head. by apply uuid_inj. Qed.

(** A step that starts one creation, with an id of its own. *)
Lemma ids_create s s' t :
  ids_ok s → (∀ t id, known t (vs_maps s') = Some id → known t (vs_maps s) = Some id) → vs_uuids s' = S (vs_uuids s) →
  (∀ t' id, mkJob t' (StCreate id) ∈ vs_jobs s' → (t' = t ∧ id = sess (vs_uuids s)) ∨ mkJob t' (StCreate id) ∈ vs_jobs s) → ids_ok s'.
Proof.
  intros [Hf Hj Hi Hk] Hm Hu Hjobs.
  assert (∀ t0, mkJob t0 (StCreate (sess (vs_uuids s))) ∉ vs_jobs s) as Hnew.
  { intros t0 Hin%Hj. destruct Hin as (n & Hn & E%sess_inj & _). lia. }
  constructor; rewrite ?Hu.
  - intros t0 n Hk0%Hm%Hf. lia.
  - intros t0 id [[-> ->]|Hin%Hj]%Hjobs.
    + exists (vs_uuids s). split_and!; [lia|done|]. intros t' Hk'%Hm%Hf. lia.
    + destruct Hin as (n & Hn & -> & Hno). exists n. split_and!; [lia|done|]. intros t' Hk'%Hm. by apply (Hno t').
  - intros t1 t2 id H1 H2. apply Hjobs in H1 as [[-> ->]|H1], H2 as [[-> E]|H2]; try done; [by apply Hnew in H2|by subst; apply Hnew in H1|by eapply Hi].
  - naive_solver.
Qed.

Lemma set_stage_create t st l t' id :
  jobs_ok l → target_ok t → mkJob t' (StCreate id) ∈ set_stage t st l → (t' = t ∧ st = StCreate id) ∨ mkJob t' (StCreate id) ∈ l.
Proof. intros Hl Ht Hin. apply elem_set_stage in Hin as [[= -> <-]|[_ Hin]]; auto. Qed.

Lemma ids_step base s o : op_ok o → voices_ok base s → ids_ok s → ids_ok (voice_step uuid s o).
Proof.
  intros Ho [Hjobs Hcreate _] Hs. destruct o as [t|ok t|ok t|ok t|t|name|i|id|id]; simpl in *.
  - unfold ensure. destruct (job_of t (vs_jobs s)); [done|]. unfold first_stage. destruct (known t (vs_maps s)) as [id|] eqn:Ek.
    + apply (ids_shrink s); simpl; try done. intros t' id' [Hin|Hin%list_elem_of_singleton]%elem_of_app; [done|]. by case_bool_decide.
    + apply (ids_create s _ t); simpl; [done..|lia|].
      intros t' id' [Hin|Hin%list_elem_of_singleton]%elem_of_app; [by right|left]. by simplify_eq.
  - unfold resumed. destruct (job_of t (vs_jobs s)) as [j|]; [|done]. simpl. destruct (jb_stage j) as [id|id|id d|r]; try done.
    destruct ok; [|destruct (bool_decide _)].
    1,2: apply (ids_shrink s); simpl; try done; intros t' id' [[_ ?]|?]%set_stage_create; done.
    apply (ids_create s _ t); simpl; [done| |lia|].
    + intros t' id'. rewrite known_forget. by case_decide.
    + intros t' id' [[-> [= <-]]|Hin]%set_stage_create; auto.
  - unfold created. destruct (job_of t (vs_jobs s)) as [j|] eqn:Ej; [|done]. simpl. destruct (jb_stage j) as [id|id|id d|r] eqn:Est; try done.
    destruct ok; [|apply (ids_shrink s); simpl; try done; intros t' id' [[_ ?]|?]%set_stage_create; done].
    apply job_of_Some in Ej as [Hin Htg]; [|done..]. assert (mkJob t (StCreate id) ∈ vs_jobs s) as Hme
      by (destruct j; simpl in *; by subst). destruct Hs as [Hf Hj Hi Hk]. destruct (Hj t id Hme) as (n & Hn & Hid & Hno).
    assert (∀ t' id', mkJob t' (StCreate id') ∈ set_stage t (StWrite id (session_map_json (remember t id (vs_maps s)))) (vs_jobs s) →
            mkJob t' (StCreate id') ∈ vs_jobs s ∧ t' ≠ t) as Hold.
    { intros t' id' [[= -> ?]|[Hne Hin']]%elem_set_stage; done. }
    constructor; simpl.
    + intros t' n'. rewrite known_remember. case_decide; [|apply Hf]. intros [= E]. subst id. apply sess_inj in E. by subst.
    + intros t' id' [Hin' Hne]%Hold. destruct (Hj t' id' Hin') as (n' & Hn' & -> & Hno'). exists n'. split_and!; [done..|].
      intros t2. rewrite known_remember. case_decide; [|apply Hno']. intros [= ->]. by apply Hne, (Hi t' t (sess n')).
    + intros t1 t2 id' [H1 _]%Hold [H2 _]%Hold. by eapply Hi.
    + intros t1 t2 id'. rewrite !known_remember. repeat case_decide; subst; intros K1 K2; simplify_eq; try done; [exfalso; by eapply Hno..|by eauto].
  - unfold written. destruct (job_of t (vs_jobs s)) as [j|]; [|done]. simpl. destruct (jb_stage j) as [id|id|id d|r]; try done.
    destruct ok; apply (ids_shrink s); simpl; try done; intros t' id' [[_ ?]|?]%set_stage_create; done.
  - unfold settle. destruct (job_of t (vs_jobs s)) as [j|]; [|done]. simpl. destruct (jb_stage j); try done.
    apply (ids_shrink s); simpl; try done. by intros t' id' [? _]%elem_of_filterb.
  - apply (ids_shrink s); try done. intros t id. unfold removeAgent. cbn [vs_maps]. rewrite known_remove. by case_match.
  - unfold write_lands. destruct (vs_writes s !! i); [|done]. by apply (ids_shrink s).
  - by apply (ids_shrink s).
  - by apply (ids_shrink s).
Qed.

(** When the session map read at start-up is free of duplicates, no two
    voices ever share a session, however their runs interleave: a session is
    attributed to one voice at most. *)
Theorem voices_never_share (file : option json) (ops : list VoiceOp) (t1 t2 : Target) (id : list Z)
    (Hops : Forall op_ok ops)
    (Hfile : ∀ a b i, known a (load_session_map file) = Some i → known b (load_session_map file) = Some i → a = b)
    (Hnew : ∀ a n, known a (load_session_map file) ≠ Some (sess n)) :
  let s := fold_left (voice_step uuid) ops (boot file) in
  known t1 (vs_maps s) = Some id → known t2 (vs_maps s) = Some id → t1 = t2.
Proof.
  intros s. assert (ids_ok s) as Hs; [|by apply (ik_inj s Hs)]. unfold s.
  assert (ids_ok (boot file)) as Hb.
  { constructor; simpl; [by intros t n ?%Hnew|by intros ? ? ?%elem_of_nil|by intros ? ? ? ?%elem_of_nil|exact Hfile]. }
  assert (voices_ok (load_session_map file) (boot file)) as Hv by exact (voices_run_ok uuid file [] ltac:(constructor)).
  clear s. revert Hb Hv. generalize (boot file). induction Hops as [|o ops Ho Hops IH]; intros s Hb Hv; simpl; [done|].
  apply IH; [by eapply ids_step|by apply voice_step_ok].
Qed.
End ids.

(** ** Witnesses and a lost write *)

Definition unary_uuid (n : nat) : list Z := replicate n 97.
Lemma unary_uuid_inj a b : unary_uuid a = unary_uuid b → a = b.
Proof. unfold unary_uuid. intros E%(f_equal length). by rewrite !length_replicate in E. Qed.

Definition coder : Target := TgAgent (js "Coder") None.
Definition writer : Target := TgAgent (js "Writer") (Some (js "g")).

(** Two agents' sessions are created at the same time, and the map written for
    the second lands before the one written for the first. *)
Definition overlapping : list VoiceOp :=
  [VoEnsure coder; VoEnsure writer; VoEnsure coder; VoCreated true coder; VoCreated true writer;
   VoWritten true writer; VoWritten true coder; VoSettle coder; VoSettle writer].

(** [persistMap] writes are not serialised: when two sessions are created at
    the same time, the write that took its data first can land last.  All runs
    have settled and both sessions are known, yet the file has lost one of them,
    and the next start creates another session for that voice. *)
Theorem session_map_overwritten :
  let s := fold_left (@voice_step AsciiLowerCase unary_uuid) overlapping (boot None) in
  vs_jobs s = [] ∧ vs_writes s = [] ∧
  known writer (vs_maps s) = Some (js "session-a") ∧ known coder (vs_maps s) = Some (js "session-") ∧
  known writer (load_session_map (vs_file s)) = None ∧
  (let s' := fold_left (@voice_step AsciiLowerCase (λ n, js "b" ++ unary_uuid n)) [VoEnsure writer; VoCreated true writer]
               (boot (vs_file s)) in
   known writer (vs_maps s') = Some (js "session-b")).
Proof. vm_compute. done. Qed.

Lemma session_map_roundtrip_witness :
  let m := mkMaps (Some (js "s1")) [(js "Coder", js "s2")] [(js "Coder", [(js "g", js "s3")])] [] in
  load_session_map (Some (session_map_json m)) = m.
Proof. intros m. apply session_map_roundtrip. constructor; simpl; [done|split; [apply NoDup_singleton|by repeat constructor]|].
  split; [apply NoDup_singleton|]. repeat constructor; simpl; try done; set_solver. Defined.

Lemma overlapping_ok : Forall op_ok overlapping.
Proof. repeat apply Forall_cons_2; try apply Forall_nil_2; apply (bool_decide_unpack _); vm_compute; exact I. Qed.


Lemma voices_never_share_witness :
  let s := fold_left (@voice_step AsciiLowerCase unary_uuid) overlapping (boot None) in
  known coder (vs_maps s) ≠ known writer (vs_maps s).
Proof.
  intros s E. assert (known coder (vs_maps s) = Some (js "session-")) as Hc by (vm_compute; reflexivity).
  assert (coder = writer); [|done].
  apply (@voices_never_share AsciiLowerCase unary_uuid unary_uuid_inj None overlapping coder writer (js "session-"));
    [apply overlapping_ok
    |intros [|n [g|]] b i; vm_compute; done|intros [|n [g|]] k; vm_compute; done|exact Hc|exact (eq_trans (eq_sym E) Hc)].
Defined.
