(* ===== verification/Drafts.v ===== *)
(** * Pending drafts (drafts.ts)

    The alter's replies that wait for the owner.  The store keeps them in
    memory and serialises its writes: [flush] takes a snapshot when it is
    called and chains the write behind the earlier ones, swallowing failures.
    The chain is the queue [ds_queue] of snapshots not yet written. *)

From S2P Require Import Prelude JsString Json.
#[local] Open Scope Z_scope.

Record PendingDraft := mkDraft {
  pd_id : list Z; pd_fp : list Z; pd_gid : option (list Z); pd_name : list Z; pd_body : list Z;
  pd_createdAt : list Z; pd_reason : list Z; pd_trigger : option json;
  pd_sessionId : option (list Z); pd_agent : option (list Z) }.

Definition strd (v : option json) : list Z := as_string v ?? [].

(** [new Date(0).toISOString()]. *)
Definition EPOCH_ISO : list Z := js "1970-01-01T00:00:00.000Z".

Definition normalize_draft (value : json) : option PendingDraft :=
  if negb (is_object value) then None
  else
    let id := strd (get value (js "id")) in
    let f := strd (get value (js "fp")) in
    if jeqb id [] || jeqb f [] then None
    else
      let trigger := match get value (js "trigger") with
                     | Some t => if is_object t then Some t else None
                     | None => None
                     end in
      Some (mkDraft id f (non_empty (strd (get value (js "gid")))) (or_str (strd (get value (js "name"))) f)
              (strd (get value (js "body"))) (or_str (strd (get value (js "createdAt"))) EPOCH_ISO)
              (or_str (strd (get value (js "reason"))) (js "unknown-trigger")) trigger
              (non_empty (strd (get value (js "sessionId")))) (non_empty (strd (get value (js "agent"))))).

Definition encode_draft (d : PendingDraft) : json :=
  JObj ([(js "fp", JStr (pd_fp d)); (js "name", JStr (pd_name d)); (js "body", JStr (pd_body d));
         (js "reason", JStr (pd_reason d)); (js "id", JStr (pd_id d)); (js "createdAt", JStr (pd_createdAt d))]
        ++ opt_prop (js "gid") JStr (pd_gid d) ++ opt_prop (js "trigger") id (pd_trigger d)
        ++ opt_prop (js "sessionId") JStr (pd_sessionId d) ++ opt_prop (js "agent") JStr (pd_agent d)).

Definition encode_pending (l : list PendingDraft) : json := JObj [(js "drafts", JArr (map encode_draft l))].

Record DraftStore := mkDS {
  ds_drafts : list PendingDraft;
  ds_loaded : bool;
  ds_queue : list json;       (** snapshots chained on [writing], oldest first *)
  ds_file : option json;
}.

(** [raw.drafts] of a parsed file ([null] throws and reads as empty). *)
Definition read_drafts (file : option json) : list PendingDraft :=
  match file with
  | Some raw => match get raw (js "drafts") with Some (JArr l) => omap normalize_draft l | _ => [] end
  | None => []
  end.

Definition load_drafts (s : DraftStore) : DraftStore :=
  mkDS (read_drafts (ds_file s)) true (ds_queue s) (ds_file s).

Definition list_drafts (f : option (list Z)) (s : DraftStore) : list PendingDraft :=
  match f with None => ds_drafts s | Some f => filterb (λ d, jeqb (pd_fp d) f) (ds_drafts s) end.

Definition get_draft (id : list Z) (s : DraftStore) : option PendingDraft :=
  findb (λ d, jeqb (pd_id d) id) (ds_drafts s).

Definition count_drafts (f : option (list Z)) (s : DraftStore) : nat := length (list_drafts f s).

(** The loop of [counts]. *)
Definition counts (s : DraftStore) : gmap (list Z) nat :=
  fold_left (λ out d, <[pd_fp d := ((out !! pd_fp d ?? 0) + 1)%nat]> out) (ds_drafts s) ∅.

Definition flush (s : DraftStore) : DraftStore :=
  mkDS (ds_drafts s) (ds_loaded s) (ds_queue s ++ [encode_pending (ds_drafts s)]) (ds_file s).

(** [add]: [fresh] is the generated id, [now] the ISO time, both used when the
    caller gave none ([None] in [id], [createdAt]). *)
Definition add_draft (fresh now : list Z) (id createdAt : option (list Z)) (d : PendingDraft) (s : DraftStore)
  : DraftStore * PendingDraft :=
  let record := mkDraft (id ?? fresh) (pd_fp d) (pd_gid d) (pd_name d) (pd_body d) (createdAt ?? now)
                  (pd_reason d) (pd_trigger d) (pd_sessionId d) (pd_agent d) in
  (flush (mkDS (ds_drafts s ++ [record]) (ds_loaded s) (ds_queue s) (ds_file s)), record).

Definition remove_draft (id : list Z) (s : DraftStore) : DraftStore * option PendingDraft :=
  match get_draft id s with
  | None => (s, None)
  | Some found =>
      (flush (mkDS (filterb (λ d, negb (jeqb (pd_id d) id)) (ds_drafts s)) (ds_loaded s) (ds_queue s) (ds_file s)),
       Some found)
  end.

Definition removeAll_drafts (f : list Z) (s : DraftStore) : DraftStore * nat :=
  let kept := filterb (λ d, negb (jeqb (pd_fp d) f)) (ds_drafts s) in
  let s1 := mkDS kept (ds_loaded s) (ds_queue s) (ds_file s) in
  let s2 := if bool_decide (length kept = length (ds_drafts s)) then s1 else flush s1 in
  (s2, (length (ds_drafts s) - length kept)%nat).

(** The next chained write runs; [ok]: [mkdir] and [writeFile] succeed. *)
Definition write_next (ok : bool) (s : DraftStore) : DraftStore :=
  match ds_queue s with
  | [] => s
  | snap :: rest => mkDS (ds_drafts s) (ds_loaded s) rest (if ok then Some snap else ds_file s)
  end.

(** * Theorems *)

(** ** Round trip of one draft *)

Definition draft_wf (d : PendingDraft) : Prop :=
  pd_id d ≠ [] ∧ pd_fp d ≠ [] ∧ pd_gid d ≠ Some [] ∧ pd_name d ≠ [] ∧ pd_createdAt d ≠ [] ∧ pd_reason d ≠ [] ∧
  (∀ t, pd_trigger d = Some t → is_object t = true) ∧ pd_sessionId d ≠ Some [] ∧ pd_agent d ≠ Some [].

Lemma get_encode_draft d :
  let e := encode_draft d in
  get e (js "id") = Some (JStr (pd_id d)) ∧ get e (js "fp") = Some (JStr (pd_fp d)) ∧
  get e (js "gid") = JStr <$> pd_gid d ∧ get e (js "name") = Some (JStr (pd_name d)) ∧
  get e (js "body") = Some (JStr (pd_body d)) ∧ get e (js "createdAt") = Some (JStr (pd_createdAt d)) ∧
  get e (js "reason") = Some (JStr (pd_reason d)) ∧ get e (js "trigger") = pd_trigger d ∧
  get e (js "sessionId") = JStr <$> pd_sessionId d ∧ get e (js "agent") = JStr <$> pd_agent d.
Proof.
  destruct d as [i f g n b c r t s a]. unfold encode_draft, get.
  destruct g, t, s, a;
    cbn [opt_prop app prop_of pd_id pd_fp pd_gid pd_name pd_body pd_createdAt pd_reason pd_trigger pd_sessionId pd_agent fmap option_fmap option_map id];
    js_keys; done.
Qed.

Lemma or_str_id s t : s ≠ [] → or_str s t = s.
Proof. intros Hs. unfold or_str. by rewrite (proj2 (jeqb_neq _ _) Hs). Qed.

Lemma non_empty_strd o : o ≠ Some [] → non_empty (strd (JStr <$> o)) = o.
Proof.
  destruct o as [x|]; simpl; [|done]. intros Hx. apply non_empty_Some. split; [done|]. congruence.
Qed.

Lemma normalize_encode_draft d : draft_wf d → normalize_draft (encode_draft d) = Some d.
Proof.
  intros (Hid & Hfp & Hg & Hn & Hc & Hr & Ht & Hs & Ha). unfold normalize_draft.
  change (is_object (encode_draft d)) with true. cbn [negb].
  destruct (get_encode_draft d) as (-> & -> & -> & -> & -> & -> & -> & -> & -> & ->).
  change (strd (Some (JStr ?x))) with x. rewrite (proj2 (jeqb_neq _ _) Hid), (proj2 (jeqb_neq _ _) Hfp). cbn [orb].
  rewrite !or_str_id, !non_empty_strd by done.
  assert (match pd_trigger d with Some t => if is_object t then Some t else None | None => None end = pd_trigger d) as ->.
  { destruct (pd_trigger d) as [t|]; [by rewrite (Ht t)|done]. }
  by destruct d.
Qed.

Lemma or_str_nonempty s t : t ≠ [] → or_str s t ≠ [].
Proof. intros Ht. unfold or_str. destruct (jeqb s []) eqn:E; [done|]. by apply jeqb_neq in E. Qed.

Lemma normalize_draft_wf v d : normalize_draft v = Some d → draft_wf d.
Proof.
  unfold normalize_draft. case_match; [done|]. case_match eqn:E; [done|]. bools.
  apply jeqb_neq in H0. apply jeqb_neq in H1. intros [= <-].
  repeat split; simpl; try done; try (intros [_ ?]%non_empty_Some; done); try (by apply or_str_nonempty).
  intros t. destruct (get v (js "trigger")) as [t'|]; [|done]. case_match; [|done]. by intros [= <-].
Qed.

Lemma read_encode_pending l : (∀ d, d ∈ l → draft_wf d) → read_drafts (Some (encode_pending l)) = l.
Proof.
  intros Hall. change (read_drafts (Some (encode_pending l))) with (omap normalize_draft (map encode_draft l)).
  induction l as [|d l IH]; simpl; [done|].
  rewrite normalize_encode_draft by (apply Hall; set_solver). f_equal. apply IH. set_solver.
Qed.

(** ** The write chain *)

(** Steps of the store and of its write chain.  Drafts come in well-formed. *)
Inductive draft_step : DraftStore → DraftStore → Prop :=
| dst_add fresh now id createdAt d s :
    draft_wf (add_draft fresh now id createdAt d s).2 → draft_step s (add_draft fresh now id createdAt d s).1
| dst_remove id s : draft_step s (remove_draft id s).1
| dst_removeAll f s : draft_step s (removeAll_drafts f s).1
| dst_write s : draft_step s (write_next true s).

(** The newest snapshot (queued, or else written) is the current list. *)
Definition chain_ok (s : DraftStore) : Prop :=
  (∀ d, d ∈ ds_drafts s → draft_wf d) ∧
  match last (ds_queue s) with
  | Some snap => snap = encode_pending (ds_drafts s)
  | None => read_drafts (ds_file s) = ds_drafts s
  end.

Lemma flush_chain_ok s : (∀ d, d ∈ ds_drafts s → draft_wf d) → chain_ok (flush s).
Proof. intros Hall. split; [done|]. simpl. by rewrite last_snoc. Qed.

Lemma filterb_length_eq {A} (f : A → bool) l : length (filterb f l) = length l → filterb f l = l.
Proof.
  induction l as [|x l IH]; simpl; [done|]. destruct (f x); simpl; intros Hl; [f_equal; apply IH; lia|].
  pose proof (filterb_length f l). lia.
Qed.

Lemma draft_step_ok s s' : draft_step s s' → chain_ok s → chain_ok s'.
Proof.
  intros Hstep [Hall Hq]. destruct Hstep as [fresh now id createdAt d s Hd|id s|f s|s].
  - apply flush_chain_ok. simpl. intros x. rewrite elem_of_app, list_elem_of_singleton. intros [?| ->]; auto.
  - unfold remove_draft. destruct (get_draft id s); [|exact (conj Hall Hq)]. apply flush_chain_ok. simpl.
    intros x [? _]%elem_of_filterb. auto.
  - unfold removeAll_drafts. simpl. case_bool_decide as Hl.
    + apply filterb_length_eq in Hl. rewrite Hl. by split.
    + apply flush_chain_ok. simpl. intros x [? _]%elem_of_filterb. auto.
  - unfold write_next. destruct (ds_queue s) as [|snap rest] eqn:E; [split; [done|by rewrite E]|].
    split; [done|]. simpl. rewrite last_cons in Hq. destruct (last rest) eqn:El; [done|].
    simpl in Hq. rewrite Hq. by apply read_encode_pending.
Qed.

(** The chained writes never let an older snapshot win: starting from a
    loaded store, after any interleaving of additions, removals and completed
    writes, once the chain has drained a restart reads exactly the drafts in
    memory (and until then the newest queued snapshot holds them). *)
Theorem drafts_drained (file : option json) (s : DraftStore)
    (Hreach : rtc draft_step (load_drafts (mkDS [] false [] file)) s) (Hdrained : ds_queue s = []) :
  ds_drafts (load_drafts s) = ds_drafts s.
Proof.
  assert (chain_ok (load_drafts (mkDS [] false [] file))) as H0.
  { split; [|done]. intros d Hd. simpl in Hd. unfold read_drafts in Hd. repeat case_match; try set_solver.
    apply list_elem_of_omap in Hd as (v & _ & Hv). by eapply normalize_draft_wf. }
  assert (chain_ok s) as [_ Hs].
  { clear Hdrained. induction Hreach as [|s1 s2 s3 Hstep _ IH]; [done|]. apply IH. by apply (draft_step_ok s1). }
  rewrite Hdrained in Hs. done.
Qed.

Definition sample_draft : PendingDraft :=
  mkDraft [] (js "F1") None (js "Ann") (js "hello") [] (js "draft-tier") None None None.

Lemma drafts_drained_witness :
  let s0 := load_drafts (mkDS [] false [] None) in
  let s1 := (add_draft (js "d1") (js "t") None None sample_draft s0).1 in
  let s := write_next true (write_next true (remove_draft (js "d1") s1).1) in
  ds_queue s = [] ∧ ds_drafts (load_drafts s) = [] ∧ ds_drafts (load_drafts s) = ds_drafts s.
Proof.
  intros s0 s1 s. split_and!; [reflexivity|vm_compute; reflexivity|]. apply (drafts_drained None s); [|reflexivity].
  eapply rtc_l; [apply (dst_add (js "d1") (js "t") None None sample_draft)|].
  { vm_compute. repeat split; congruence. }
  eapply rtc_l; [apply (dst_remove (js "d1"))|].
  eapply rtc_l; [apply dst_write|]. eapply rtc_l; [apply dst_write|]. apply rtc_refl.
Defined.

(** ** Counting *)

Lemma counts_fold (l : list PendingDraft) (m : gmap (list Z) nat) (f : list Z) :
  (fold_left (λ out d, <[pd_fp d := ((out !! pd_fp d ?? 0) + 1)%nat]> out) l m !! f ?? 0%nat) =
  ((m !! f ?? 0%nat) + length (filterb (λ d, jeqb (pd_fp d) f) l))%nat.
Proof.
  revert m. induction l as [|d l IH]; intros m; simpl; [lia|]. rewrite IH.
  destruct (jeqb (pd_fp d) f) eqn:E.
  - apply jeqb_eq in E as <-. rewrite lookup_insert_eq. simpl. lia.
  - apply jeqb_neq in E. by rewrite lookup_insert_ne.
Qed.

Lemma removeAll_kept f s :
  ds_drafts (removeAll_drafts f s).1 = filterb (λ d, negb (jeqb (pd_fp d) f)) (ds_drafts s).
Proof. unfold removeAll_drafts. simpl. by case_bool_decide. Qed.

(** The per-friend badge equals the number of drafts listed for that
    friend, and removing a friend's drafts reports exactly that number and
    leaves the other friends' drafts, in order. *)
Theorem counts_list (s : DraftStore) (f : list Z) :
  (counts s !! f ?? 0%nat) = count_drafts (Some f) s ∧
  (removeAll_drafts f s).2 = count_drafts (Some f) s ∧
  ∀ g, list_drafts (Some g) (removeAll_drafts f s).1 = if decide (g = f) then [] else list_drafts (Some g) s.
Proof.
  split_and!.
  - unfold counts. rewrite counts_fold, lookup_empty. done.
  - unfold removeAll_drafts, count_drafts, list_drafts. simpl.
    induction (ds_drafts s) as [|d l IH]; simpl; [done|].
    pose proof (filterb_length (λ d, negb (jeqb (pd_fp d) f)) l).
    destruct (jeqb (pd_fp d) f); simpl; lia.
  - intros g. unfold list_drafts. rewrite removeAll_kept.
    induction (ds_drafts s) as [|d l IH]; simpl; [by case_decide|].
    destruct (jeqb (pd_fp d) f) eqn:E; simpl; rewrite IH.
    + apply jeqb_eq in E. case_decide; [done|]. rewrite (proj2 (jeqb_neq (pd_fp d) g)) by congruence. done.
    + apply jeqb_neq in E. case_decide as Hg; [|done]. subst. by rewrite (proj2 (jeqb_neq _ _) E).
Qed.
