(* ===== verification/Settings.v ===== *)
(** * User settings (settings.ts)

    [resolveSettings] fills the defaults of a partial settings section.  The
    string fields are optional strings; the enum fields are the strings the
    section may hold, narrowed here. *)

From S2P Require Import Prelude JsString Json Policy.
#[local] Open Scope Z_scope.

Definition DEFAULT_RELAY : list Z := js "https://relay.startupworld.cn".
Definition DEFAULT_PAYGATE_PORT : Z := 9001.

Inductive BackendKind := BSoulnet | BFake.
Inductive CdpNetwork := NetSepolia | NetBase.
Inductive AlterMode := ModeComms | ModeFull.

Record SoulmirrorSettings := mkSettings {
  se_relay : list Z; se_displayName : list Z; se_backend : BackendKind; se_peerBinary : list Z; se_home : list Z;
  se_defaultTier : ReplyTier; se_autoReplyPerHour : Z; se_directSend : bool; se_paygateBinary : list Z;
  se_paygatePort : Z; se_paygateProxy : list Z; se_cdpKeyId : list Z; se_cdpKeySecret : list Z;
  se_cdpWalletSecret : list Z; se_cdpNetwork : CdpNetwork; se_alterMode : AlterMode }.

(** [Partial<SoulmirrorSettings>]. *)
Record PartialSettings := mkPartial {
  pa_relay : option (list Z); pa_displayName : option (list Z); pa_backend : option (list Z);
  pa_peerBinary : option (list Z); pa_home : option (list Z); pa_defaultTier : option json;
  pa_autoReplyPerHour : option number; pa_directSend : option bool; pa_paygateBinary : option (list Z);
  pa_paygatePort : option number; pa_paygateProxy : option (list Z); pa_cdpKeyId : option (list Z);
  pa_cdpKeySecret : option (list Z); pa_cdpWalletSecret : option (list Z); pa_cdpNetwork : option (list Z);
  pa_alterMode : option (list Z) }.

Definition empty_partial : PartialSettings :=
  mkPartial None None None None None None None None None None None None None None None None.

Definition is_opt (o : option (list Z)) (s : list Z) : bool := match o with Some x => jeqb x s | None => false end.

Definition resolveSettings (partial : option PartialSettings) : SoulmirrorSettings :=
  let p := partial ?? empty_partial in
  let perHour := match pa_autoReplyPerHour p with
                 | Some (Fin q) => Z.max 0 (Qc_floor q)
                 | _ => DEFAULT_AUTO_REPLY_PER_HOUR
                 end in
  let port := match pa_paygatePort p with
              | Some (Fin q) => if gt_Z (Fin q) 0 then Qc_floor q else DEFAULT_PAYGATE_PORT
              | _ => DEFAULT_PAYGATE_PORT
              end in
  mkSettings
    (match pa_relay p with Some r => if jeqb (trim r) [] then DEFAULT_RELAY else trim r | None => DEFAULT_RELAY end)
    (pa_displayName p ?? []) (if is_opt (pa_backend p) (js "fake") then BFake else BSoulnet)
    (pa_peerBinary p ?? []) (pa_home p ?? []) (normalizeTier (pa_defaultTier p) DEFAULT_REPLY_TIER) perHour
    (bool_decide (pa_directSend p = Some true)) (pa_paygateBinary p ?? []) port (pa_paygateProxy p ?? [])
    (pa_cdpKeyId p ?? []) (pa_cdpKeySecret p ?? []) (pa_cdpWalletSecret p ?? [])
    (if is_opt (pa_cdpNetwork p) (js "base") then NetBase else NetSepolia)
    (if is_opt (pa_alterMode p) (js "full") then ModeFull else ModeComms).

(** A resolved section, given back as a partial one. *)
Definition as_partial (s : SoulmirrorSettings) : PartialSettings :=
  mkPartial (Some (se_relay s)) (Some (se_displayName s))
    (Some (match se_backend s with BFake => js "fake" | BSoulnet => js "soulnet" end))
    (Some (se_peerBinary s)) (Some (se_home s)) (Some (JStr (tier_str (se_defaultTier s))))
    (Some (num_of_Z (se_autoReplyPerHour s))) (Some (se_directSend s)) (Some (se_paygateBinary s))
    (Some (num_of_Z (se_paygatePort s))) (Some (se_paygateProxy s)) (Some (se_cdpKeyId s)) (Some (se_cdpKeySecret s))
    (Some (se_cdpWalletSecret s))
    (Some (match se_cdpNetwork s with NetBase => js "base" | NetSepolia => js "base-sepolia" end))
    (Some (match se_alterMode s with ModeFull => js "full" | ModeComms => js "comms" end)).

(** * Theorems *)

Lemma resolve_relay_trimmed partial : trim (se_relay (resolveSettings partial)) = se_relay (resolveSettings partial)
  ∧ se_relay (resolveSettings partial) ≠ [].
Proof.
  unfold resolveSettings. simpl. destruct (pa_relay _) as [r|]; [|split; [reflexivity|discriminate]].
  destruct (jeqb (trim r) []) eqn:E; [split; [reflexivity|discriminate]|].
  apply jeqb_neq in E. split; [apply trim_idem|done].
Qed.

Lemma resolve_port_nonneg partial : 0 <= se_paygatePort (resolveSettings partial).
Proof.
  unfold resolveSettings, DEFAULT_PAYGATE_PORT. simpl. destruct (pa_paygatePort _) as [[q| | |]|]; try lia.
  case_match eqn:E; [|lia]. by apply gt_Z_floor.
Qed.

(** The resolved section is always usable: the hourly cap is a
    non-negative integer, the port is a non-negative integer, the relay is
    non-empty and trimmed; and resolving a resolved section again changes
    nothing, except that a port that was rounded down to 0 becomes the default. *)
Theorem resolveSettings_normal (partial : option PartialSettings) :
  let s := resolveSettings partial in
  0 <= se_autoReplyPerHour s ∧ 0 <= se_paygatePort s ∧ se_relay s ≠ [] ∧
  resolveSettings (Some (as_partial s)) =
    mkSettings (se_relay s) (se_displayName s) (se_backend s) (se_peerBinary s) (se_home s) (se_defaultTier s)
      (se_autoReplyPerHour s) (se_directSend s) (se_paygateBinary s)
      (if se_paygatePort s =? 0 then DEFAULT_PAYGATE_PORT else se_paygatePort s)
      (se_paygateProxy s) (se_cdpKeyId s) (se_cdpKeySecret s) (se_cdpWalletSecret s) (se_cdpNetwork s) (se_alterMode s).
Proof.
  intros s. destruct (resolve_relay_trimmed partial) as [Ht Hne]. pose proof (resolve_port_nonneg partial) as Hport.
  assert (0 <= se_autoReplyPerHour s) as Hcap.
  { unfold s, resolveSettings, DEFAULT_AUTO_REPLY_PER_HOUR. simpl. destruct (pa_autoReplyPerHour _) as [[q| | |]|]; lia. }
  fold s in Ht, Hne, Hport. clearbody s. split_and!; [done..|]. destruct s. unfold resolveSettings, as_partial. simpl in *.
  rewrite Ht, (proj2 (jeqb_neq _ _) Hne). f_equal.
  - by destruct se_backend0.
  - unfold normalizeTier. by rewrite tier_of_str.
  - rewrite Qc_floor_Z. lia.
  - by destruct se_directSend0.
  - pose proof (gt_Z_int se_paygatePort0 0) as Hg. unfold num_of_Z in Hg. simpl in Hg. rewrite Hg, Qc_floor_Z.
    destruct (se_paygatePort0 =? 0) eqn:E, (0 <? se_paygatePort0) eqn:E'; bools; try done; lia.
  - by destruct se_cdpNetwork0.
  - by destruct se_alterMode0.
Qed.
