(* ===== verification/GroupContract.v ===== *)
(** * The group profile contract (group-contract.ts)

    Normalisation of a group's profile into the governance view the gates
    enforce, and the paid-join marker carried as the first line of the rules
    on relays that know no paid groups. *)

From S2P Require Import Prelude JsString Json Policy.
#[local] Open Scope Z_scope.

Definition DEFAULT_GROUP_AUTO_PER_HOUR : Z := 10.
Definition DEFAULT_GROUP_AGENT_ROUNDS : Z := 3.
Definition PAID_JOIN_PREFIX : list Z := js "#paid-join ".

Record PaidJoinInfo := mkPaid { pj_price : list Z; pj_addr : list Z }.
#[export] Instance PaidJoinInfo_eq_dec : EqDecision PaidJoinInfo.
Proof. solve_decision. Defined.

(** One line: the marker's price and address, when it is well-formed. *)
Definition paid_line (line : list Z) : option PaidJoinInfo :=
  let t := trim line in
  if startsWith t PAID_JOIN_PREFIX then
    let rest := split_ws (trim (drop (length PAID_JOIN_PREFIX) t)) in
    match rest !! 0%nat, rest !! 1%nat with
    | Some price, Some addr =>
        if startsWith addr (js "0x") && negb (jeqb price []) then Some (mkPaid price addr) else None
    | _, _ => None
    end
  else None.

(** The loop over the lines returns the first well-formed marker. *)
Fixpoint first_paid (lines : list (list Z)) : option PaidJoinInfo :=
  match lines with
  | [] => None
  | l :: ls => match paid_line l with Some p => Some p | None => first_paid ls end
  end.

Definition paidJoinFromRules (rules : option (list Z)) : option PaidJoinInfo :=
  match rules with
  | None => None
  | Some r => if jeqb r [] then None else first_paid (split_on 10 r)
  end.

(** The profile fields [paidJoinConfig] reads. *)
Record PaidFields := mkPaidFields {
  pf_joinPrice : option (list Z); pf_joinAddr : option (list Z); pf_rules : option (list Z); pf_join : option (list Z) }.

Definition paidJoinConfig (profile : option PaidFields) : option PaidJoinInfo :=
  match profile with
  | None => None
  | Some p =>
      match pf_joinPrice p, pf_joinAddr p with
      | Some price, Some addr =>
          if match pf_join p with Some j => jeqb j (js "paid") | None => false end && startsWith addr (js "0x")
          then Some (mkPaid price addr)
          else paidJoinFromRules (pf_rules p)
      | _, _ => paidJoinFromRules (pf_rules p)
      end
  end.

Definition is_marker (l : list Z) : bool := startsWith (trim l) PAID_JOIN_PREFIX.

Definition rulesWithoutPaidJoin (rules : option (list Z)) : list Z :=
  match rules with
  | None => []
  | Some r => if jeqb r [] then [] else trim (jjoin [10] (filterb (λ l, negb (is_marker l)) (split_on 10 r)))
  end.

Definition rulesWithPaidJoin (rules : option (list Z)) (price addr : list Z) : list Z :=
  let base := rulesWithoutPaidJoin rules in
  let marker := PAID_JOIN_PREFIX ++ price ++ js " " ++ addr in
  if jeqb base [] then marker else marker ++ [10] ++ base.

(** ** The governance view *)

Inductive SpeakWho := WhoAll | WhoOwner | WhoAdmins.
Inductive JoinPolicy := JoinInvite | JoinApply | JoinOpen | JoinPaid.

Record GroupProfileView := mkView {
  gp_speakHumans : bool; gp_speakAgents : bool; gp_speakWho : SpeakWho; gp_agentWake : GroupAgentWake;
  gp_agentTier : ReplyTier; gp_autoPerHour : Z; gp_agentRounds : Z; gp_rules : list Z;
  gp_admins : list (list Z); gp_room : list Z; gp_join : JoinPolicy; gp_paidJoin : option PaidJoinInfo }.

Definition is_false (v : option json) : bool := match v with Some (JBool false) => true | _ => false end.

(** [typeof n === 'number' && Number.isFinite(n) && n > 0 ? Math.floor(n) : d]. *)
Definition pos_floor (v : option json) (d : Z) : Z :=
  match v with
  | Some (JNum (Fin q)) => if gt_Z (Fin q) 0 then Qc_floor q else d
  | _ => d
  end.

Definition recj (v : option json) : json := match v with Some (JObj o) => JObj o | _ => JObj [] end.

Definition normalizeGroupProfile (raw : option json) : GroupProfileView :=
  let p := recj raw in
  let who := get p (js "speakWho") in
  let rules := as_string (get p (js "rules")) ?? [] in
  let paidJoin := paidJoinFromRules (Some rules) in
  let wireJoin := get p (js "join") in
  let join_ := match paidJoin with
               | Some _ => JoinPaid
               | None => if is_str wireJoin (js "invite") then JoinInvite
                         else if is_str wireJoin (js "apply") then JoinApply
                         else if is_str wireJoin (js "open") then JoinOpen else JoinInvite
               end in
  mkView (negb (is_false (get p (js "speakHumans")))) (negb (is_false (get p (js "speakAgents"))))
    (if is_str who (js "owner") then WhoOwner else if is_str who (js "admins") then WhoAdmins else WhoAll)
    (normalizeGroupWake (get p (js "agentWake")) wk_mention) (normalizeTier (get p (js "agentTier")) Draft)
    (pos_floor (get p (js "autoPerHour")) DEFAULT_GROUP_AUTO_PER_HOUR)
    (pos_floor (get p (js "agentRounds")) DEFAULT_GROUP_AGENT_ROUNDS)
    rules (omap (λ a, as_string (Some a)) (as_array (get p (js "admins")) ?? []))
    (match as_string (get p (js "room")) with Some r => if jeqb r [] then js "chat" else r | None => js "chat" end)
    join_ paidJoin.

(** [groupProfileOf]: the [profile] of a group row. *)
Definition groupProfileOf (group : json) : GroupProfileView := normalizeGroupProfile (get (recj (Some group)) (js "profile")).

(** [entryBy]: the provenance of an archived entry. *)
Definition entryBy (entry : json) : option (list Z) :=
  match as_string (get (recj (Some entry)) (js "by")) with Some b => non_empty b | None => None end.

(** * Theorems *)

Lemma filtered_lines_nonl r l : l ∈ filterb (λ l, negb (is_marker l)) (split_on 10 r) → 10 ∉ l.
Proof. intros [Hl _]%elem_of_filterb. by apply split_on_pieces in Hl. Qed.

(** No line of the displayed rules is a marker. *)
Lemma rulesWithoutPaidJoin_clean rules l :
  l ∈ split_on 10 (rulesWithoutPaidJoin rules) → is_marker l = false.
Proof.
  unfold rulesWithoutPaidJoin. assert (∀ l, l ∈ split_on 10 [] → is_marker l = false) as Hnil.
  { intros x. simpl. rewrite list_elem_of_singleton. by intros ->. }
  destruct rules as [r|]; [|apply Hnil]. destruct (jeqb r []); [apply Hnil|].
  intros (l0 & Hl0 & Ht)%split_on_trim. unfold is_marker. rewrite Ht. fold (is_marker l0).
  set (ls := filterb (λ l, negb (is_marker l)) (split_on 10 r)) in *.
  destruct ls as [|x xs] eqn:E; [by apply Hnil|].
  rewrite split_on_jjoin in Hl0; [|done|intros y Hy; apply (filtered_lines_nonl r); unfold ls in E; by rewrite E].
  rewrite <- E in Hl0. apply elem_of_filterb in Hl0 as [_ Hm]. by apply negb_true_iff.
Qed.

Lemma rulesWithoutPaidJoin_trimmed rules : trim (rulesWithoutPaidJoin rules) = rulesWithoutPaidJoin rules.
Proof. unfold rulesWithoutPaidJoin. repeat case_match; try done. apply trim_idem. Qed.

Lemma without_clean_text s :
  trim s = s → (∀ l, l ∈ split_on 10 s → is_marker l = false) → rulesWithoutPaidJoin (Some s) = s.
Proof.
  intros Ht Hl. unfold rulesWithoutPaidJoin. destruct (jeqb s []) eqn:E; [by apply jeqb_eq in E|].
  rewrite filterb_all by (intros l Hin; by rewrite Hl). by rewrite jjoin_split_on.
Qed.

Lemma rulesWithoutPaidJoin_idem rules :
  rulesWithoutPaidJoin (Some (rulesWithoutPaidJoin rules)) = rulesWithoutPaidJoin rules.
Proof. apply without_clean_text; [apply rulesWithoutPaidJoin_trimmed|apply rulesWithoutPaidJoin_clean]. Qed.

(** What makes a price and an address representable in a marker line. *)
Definition paid_ok (price addr : list Z) : Prop :=
  no_ws price = true ∧ price ≠ [] ∧ no_ws addr = true ∧ startsWith addr (js "0x") = true.

Lemma trim_no_ws_ends a b :
  (∀ c, head a = Some c → is_ws c = false) → a ≠ [] → (∀ c, last b = Some c → is_ws c = false) → b ≠ [] →
  trim (a ++ b) = a ++ b.
Proof.
  intros Ha Hane Hb Hbne. apply trim_id. split; intros c.
  - destruct a; [done|]. simpl. intros [= <-]. by apply Ha.
  - rewrite last_app. destruct (last b) eqn:E; [|by apply last_None in E]. naive_solver.
Qed.

Lemma addr_nonempty addr : startsWith addr (js "0x") = true → addr ≠ [].
Proof. by intros H ->. Qed.

Lemma marker_trim price addr :
  paid_ok price addr → trim (PAID_JOIN_PREFIX ++ price ++ js " " ++ addr) = PAID_JOIN_PREFIX ++ price ++ js " " ++ addr.
Proof.
  intros (Hp & Hpne & Ha & H0). pose proof (addr_nonempty _ H0) as Hane.
  rewrite (app_assoc price), (app_assoc PAID_JOIN_PREFIX). apply trim_no_ws_ends; [|by vm_compute| |done].
  - intros c. vm_compute. by intros [= <-].
  - apply no_ws_trimmed in Ha as [_ Hl]. done.
Qed.

Lemma paid_line_marker price addr :
  paid_ok price addr → paid_line (PAID_JOIN_PREFIX ++ price ++ js " " ++ addr) = Some (mkPaid price addr).
Proof.
  intros Hok. pose proof Hok as (Hp & Hpne & Ha & H0). pose proof (addr_nonempty _ H0) as Hane.
  unfold paid_line. rewrite marker_trim by done. rewrite startsWith_app. rewrite drop_app_length.
  assert (trim (price ++ js " " ++ addr) = price ++ js " " ++ addr) as ->.
  { rewrite app_assoc. apply trim_no_ws_ends; [|by destruct price| |done].
    - apply no_ws_trimmed in Hp as [Hh _]. destruct price; [done|]. apply Hh.
    - by apply no_ws_trimmed in Ha as [_ ?]. }
  assert (split_ws (price ++ js " " ++ addr) = [price; addr]) as ->.
  { unfold split_ws. rewrite split_ws_go_word by done. simpl. rewrite <- (app_nil_r addr) at 1.
    change (split_ws_go (js " " ++ addr ++ []) price false) with (price :: split_ws_go (addr ++ []) [] true).
    rewrite split_ws_go_word by done. done. }
  cbn [lookup list_lookup]. rewrite H0. by rewrite (proj2 (jeqb_neq _ _) Hpne).
Qed.

Lemma no_ws_no_nl s : no_ws s = true → 10 ∉ s.
Proof.
  intros Hs Hin. pose proof (proj1 (everyb_true _ s) Hs 10 Hin) as Hc. by vm_compute in Hc.
Qed.

Lemma marker_no_nl price addr : paid_ok price addr → 10 ∉ PAID_JOIN_PREFIX ++ price ++ js " " ++ addr.
Proof.
  intros (Hp & _ & Ha & _). rewrite !not_elem_of_app. split_and!; try (by apply no_ws_no_nl);
    intros Hin; vm_compute in Hin; set_unfold in Hin; naive_solver lia.
Qed.

Lemma split_rulesWith rules price addr :
  paid_ok price addr →
  split_on 10 (rulesWithPaidJoin rules price addr) =
  (PAID_JOIN_PREFIX ++ price ++ js " " ++ addr) ::
    (if jeqb (rulesWithoutPaidJoin rules) [] then [] else split_on 10 (rulesWithoutPaidJoin rules)).
Proof.
  intros Hok. unfold rulesWithPaidJoin. set (marker := PAID_JOIN_PREFIX ++ _). case_match.
  - apply split_on_none. by apply marker_no_nl.
  - change ([10] ++ rulesWithoutPaidJoin rules) with (10 :: rulesWithoutPaidJoin rules).
    rewrite split_on_app; [done|]. by apply marker_no_nl.
Qed.

Lemma rulesWith_nonempty rules price addr : jeqb (rulesWithPaidJoin rules price addr) [] = false.
Proof. apply jeqb_neq. unfold rulesWithPaidJoin. case_match; vm_compute; discriminate. Qed.

Lemma marker_is_marker price addr : paid_ok price addr → is_marker (PAID_JOIN_PREFIX ++ price ++ js " " ++ addr) = true.
Proof. intros Hok. unfold is_marker. rewrite marker_trim by done. apply startsWith_app. Qed.

(** The paid-join encoding is a lossless overlay on the rules: for a price
    and an address without white space (the address starting with 0x), reading
    the encoded rules gives back exactly that price and address, and hiding the
    marker gives back exactly the rules shown before; encoding again replaces
    the old marker. *)
Theorem paid_join_roundtrip (rules : option (list Z)) (price addr : list Z) (Hok : paid_ok price addr) :
  paidJoinFromRules (Some (rulesWithPaidJoin rules price addr)) = Some (mkPaid price addr) ∧
  rulesWithoutPaidJoin (Some (rulesWithPaidJoin rules price addr)) = rulesWithoutPaidJoin rules ∧
  paidJoinFromRules (Some (rulesWithoutPaidJoin rules)) = None.
Proof.
  split_and!.
  - unfold paidJoinFromRules. rewrite rulesWith_nonempty, split_rulesWith by done. cbn [first_paid]. by rewrite paid_line_marker.
  - unfold rulesWithoutPaidJoin at 1. rewrite rulesWith_nonempty, split_rulesWith by done. cbn [filterb].
    rewrite marker_is_marker by done. cbn [negb].
    pose proof (rulesWithoutPaidJoin_idem rules) as Hid. unfold rulesWithoutPaidJoin in Hid at 1.
    destruct (jeqb (rulesWithoutPaidJoin rules) []) eqn:E; [|done]. apply jeqb_eq in E. by rewrite E.
  - unfold paidJoinFromRules. case_match; [done|].
    assert (∀ l, l ∈ split_on 10 (rulesWithoutPaidJoin rules) → paid_line l = None) as Hl.
    { intros l Hl%rulesWithoutPaidJoin_clean. unfold paid_line. unfold is_marker in Hl. by rewrite Hl. }
    induction (split_on 10 (rulesWithoutPaidJoin rules)) as [|l ls IH]; simpl; [done|].
    rewrite Hl by (by left). apply IH. intros x Hx. apply Hl. by right.
Qed.

Lemma paid_join_roundtrip_witness :
  paid_ok (js "1.5") (js "0xAb") ∧
  rulesWithPaidJoin (Some (js "be kind")) (js "1.5") (js "0xAb") = PAID_JOIN_PREFIX ++ js "1.5 0xAb" ++ [10] ++ js "be kind" ∧
  paidJoinFromRules (Some (rulesWithPaidJoin (Some (js "be kind")) (js "1.5") (js "0xAb"))) =
    Some (mkPaid (js "1.5") (js "0xAb")).
Proof.
  assert (paid_ok (js "1.5") (js "0xAb")) as Hok by (vm_compute; repeat split; discriminate).
  split_and!; [exact Hok|vm_compute; reflexivity|]. by apply paid_join_roundtrip.
Defined.

Lemma pos_floor_nonneg v d : 0 <= d → 0 <= pos_floor v d.
Proof.
  intros Hd. unfold pos_floor. repeat case_match; try done. by apply gt_Z_floor.
Qed.

(** Whatever a profile contains, the enforced view has non-negative
    integer caps and a join policy that is [paid] exactly when the rules carry
    a well-formed marker; a missing or malformed profile is the standard
    template (agents allowed, wake on mention, draft tier, 10 posts an hour, 3
    rounds, invite). *)
Theorem normalizeGroupProfile_sound (raw : option json) :
  let v := normalizeGroupProfile raw in
  0 <= gp_autoPerHour v ∧ 0 <= gp_agentRounds v ∧ gp_room v ≠ [] ∧
  (gp_join v = JoinPaid ↔ is_Some (gp_paidJoin v)) ∧
  gp_paidJoin v = paidJoinFromRules (Some (gp_rules v)) ∧
  ((∀ o, raw ≠ Some (JObj o)) →
   v = mkView true true WhoAll wk_mention Draft 10 3 [] [] (js "chat") JoinInvite None).
Proof.
  intros v. split_and!.
  - by apply pos_floor_nonneg.
  - by apply pos_floor_nonneg.
  - unfold v, normalizeGroupProfile. simpl. repeat case_match; try (vm_compute; discriminate). by apply jeqb_neq.
  - unfold v, normalizeGroupProfile. cbn [gp_join gp_paidJoin].
    destruct (paidJoinFromRules _) as [p|]; [split; [by exists p|done]|].
    split; [by repeat case_match|]. intros [? ?]. done.
  - done.
  - intros Hraw. unfold v, normalizeGroupProfile. assert (recj raw = JObj []) as ->.
    { destruct raw as [[]|]; try done. by destruct (Hraw o). }
    vm_compute. reflexivity.
Qed.

Lemma normalizeGroupProfile_sound_witness :
  normalizeGroupProfile (Some JNull) = mkView true true WhoAll wk_mention Draft 10 3 [] [] (js "chat") JoinInvite None.
Proof. apply normalizeGroupProfile_sound. discriminate. Defined.

(** A profile whose wire join policy is [paid] but whose rules carry no
    marker is enforced as [invite], although the view documents "paid when the
    wire says paid or rules carry the marker"; [paidJoinConfig] on the same
    profile does report a price. *)
Theorem native_paid_join_lost (price addr : list Z) (Haddr : startsWith addr (js "0x") = true) :
  gp_join (normalizeGroupProfile (Some (JObj [(js "join", JStr (js "paid")); (js "joinPrice", JStr price); (js "joinAddr", JStr addr)])))
    = JoinInvite ∧
  paidJoinConfig (Some (mkPaidFields (Some price) (Some addr) None (Some (js "paid")))) = Some (mkPaid price addr).
Proof.
  split; [reflexivity|]. unfold paidJoinConfig. cbn [pf_joinPrice pf_joinAddr pf_join]. rewrite Haddr, andb_true_r. done.
Qed.

Lemma native_paid_join_lost_witness :
  startsWith (js "0x1") (js "0x") = true ∧
  paidJoinConfig (Some (mkPaidFields (Some (js "2")) (Some (js "0x1")) None (Some (js "paid")))) = Some (mkPaid (js "2") (js "0x1")).
Proof. split; [reflexivity|]. apply native_paid_join_lost. reflexivity. Defined.
