(* ===== verification/Memory.v ===== *)
(** * The alter's memory (memory/store.ts)

    Memories with a visibility scope in one SQLite table, a full-text index
    beside it, and the CJK-friendly segmentation both sides of a search use.
    The SQL statements are operations on the rows; the full-text match, its
    ranking and the sort are SQLite's (class [Sqlite], with the documented
    behaviour relied on). *)

From S2P Require Import Prelude JsString Json.
From stdpp Require Import sorting.
From Stdlib Require Import QArith Qcanon.
#[local] Open Scope Z_scope.

(** ** Segmentation *)

Definition is_cjk (c : Z) : bool := (19968 <=? c) && (c <=? 40959).
Definition is_alnum (c : Z) : bool := is_lower c || is_upper c || is_digit c.

(** The pairs of neighbours of a run. *)
Fixpoint bigrams (run : list Z) : list (list Z) :=
  match run with
  | a :: (b :: _) as rest => [a; b] :: bigrams rest
  | _ => []
  end.

Definition flushCjk (run : list Z) : list (list Z) :=
  match run with [_] => [run] | _ => bigrams run end.

(** [toLowerCase] of a run of ASCII letters and digits. *)
Definition flushWord (run : list Z) : list (list Z) :=
  if jeqb run [] then [] else [map ascii_lower run].

(** The loop over the text; [out], [cjk], [word] are its locals. *)
Fixpoint segment_loop (text : list Z) (out : list (list Z)) (cjk word : list Z) : list (list Z) :=
  match text with
  | [] => out ++ flushWord word ++ flushCjk cjk
  | ch :: rest =>
      if is_cjk ch then segment_loop rest (out ++ flushWord word) (cjk ++ [ch]) []
      else if is_alnum ch then segment_loop rest (out ++ flushCjk cjk) [] (word ++ [ch])
      else segment_loop rest (out ++ flushWord word ++ flushCjk cjk) [] []
  end.

Definition tokens (text : list Z) : list (list Z) := segment_loop text [] [] [].
Definition segment (text : list Z) : list Z := jjoin [32] (tokens text).

(** A word of one script, as segmentation produces them. *)
Definition plain_word (w : list Z) : bool :=
  negb (jeqb w []) && (forallb is_cjk w || forallb (λ c, is_lower c || is_digit c) w).

(** ** Scopes *)

Inductive MemoryScope :=
| ScGlobal | ScAgent (name : list Z) | ScFriend (fp : list Z) | ScGroup (gid : list Z).
#[export] Instance MemoryScope_eq_dec : EqDecision MemoryScope.
Proof. solve_decision. Defined.

Definition scopeKind (s : MemoryScope) : list Z :=
  match s with
  | ScGlobal => js "global" | ScAgent _ => js "agent"
  | ScFriend _ => js "shared-friend" | ScGroup _ => js "shared-group"
  end.

Definition scopeKey (s : MemoryScope) : option (list Z) :=
  match s with ScGlobal => None | ScAgent n => Some n | ScFriend f => Some f | ScGroup g => Some g end.

Definition decodeScope (kind : list Z) (key : option (list Z)) : MemoryScope :=
  if jeqb kind (js "global") then ScGlobal
  else if jeqb kind (js "agent") then ScAgent (key ?? [])
  else if jeqb kind (js "shared-friend") then ScFriend (key ?? [])
  else if jeqb kind (js "shared-group") then ScGroup (key ?? [])
  else ScGlobal.

(** ** Rows *)

Inductive Origin := OrAuto | OrManual.

Record Row := mkRow {
  r_id : Z; r_uid : list Z; r_kind : list Z; r_content : list Z; r_scope_kind : list Z; r_scope_key : option (list Z);
  r_source_ch : list Z; r_source_ref : list Z; r_weight : Qc; r_origin : Origin;
  r_created_at : Z; r_last_hit_at : option Z; r_hit_count : Z }.

Record MemoryRecord := mkMem {
  m_id : Z; m_uid : list Z; m_kind : list Z; m_content : list Z; m_scope : MemoryScope; m_sourceCh : list Z;
  m_sourceRef : list Z; m_weight : Qc; m_origin : Origin; m_createdAt : Z; m_lastHitAt : option Z; m_hitCount : Z }.

Definition rowToRecord (r : Row) : MemoryRecord :=
  mkMem (r_id r) (r_uid r) (r_kind r) (r_content r) (decodeScope (r_scope_kind r) (r_scope_key r)) (r_source_ch r)
    (r_source_ref r) (r_weight r) (r_origin r) (r_created_at r) (r_last_hit_at r) (r_hit_count r).

(** What may be recalled; anything not named is refused. *)
Record AllowScopes := mkAllow {
  al_global : bool; al_agent : option (list Z); al_friend : option (list Z); al_group : option (list Z) }.

(** [sc.sql = '0']: no clause at all. *)
Definition nothing_allowed (a : AllowScopes) : bool :=
  match a with mkAllow false None None None => true | _ => false end.

(** [scope_kind = k AND scope_key = ?] ([NULL = ?] is not true). *)
Definition key_clause (k : list Z) (p : option (list Z)) (r : Row) : bool :=
  match p, r_scope_key r with
  | Some v, Some key => jeqb (r_scope_kind r) k && jeqb key v
  | _, _ => false
  end.

(** The WHERE fragment [scopeClause] builds. *)
Definition scopeClause (a : AllowScopes) (r : Row) : bool :=
  (al_global a && jeqb (r_scope_kind r) (js "global"))
  || key_clause (js "agent") (al_agent a) r
  || key_clause (js "shared-friend") (al_friend a) r
  || key_clause (js "shared-group") (al_group a) r.

(** ** The store *)

Record MemoryStore := mkStore {
  db_rows : list Row;                        (** table memories *)
  db_fts : list (list Z * list Z);           (** memories_fts: (uid, content) *)
  db_next : Z;                               (** AUTOINCREMENT *)
}.

(** SQLite's full-text match and ranking, and ORDER BY. *)
Class Sqlite := {
  fts_match : list Z → list Z → bool;        (** query, indexed content *)
  bm25 : list (list Z * list Z) → list Z → list Z → Qc;  (** table, query, content *)
  order_by : (Row → Row → bool) → list Row → list Row;
  order_by_perm : ∀ le l, Permutation (order_by le l) l;
  (** A bareword query matches the contents that have all of its words. *)
  fts_match_words : ∀ q c : list (list Z),
    (∀ w, w ∈ q ++ c → plain_word w = true) → q ≠ [] →
    fts_match (jjoin [32] q) (jjoin [32] c) = true ↔ ∀ w, w ∈ q → w ∈ c;
}.

Record NewMemory := mkNew {
  nm_kind : list Z; nm_content : list Z; nm_scope : MemoryScope; nm_sourceCh : list Z;
  nm_sourceRef : option (list Z); nm_weight : option Qc; nm_origin : option Origin }.

Inductive MemError := EmptyContent | UidTaken.

(** [SELECT ... WHERE scope_kind = ? AND scope_key IS ? AND content = ? LIMIT 1]. *)
Definition same_memory (scope : MemoryScope) (content : list Z) (r : Row) : bool :=
  jeqb (r_scope_kind r) (scopeKind scope) && bool_decide (r_scope_key r = scopeKey scope) && jeqb (r_content r) content.

(** [add]; [uid] is the random id, [now] the clock. *)
Definition add (uid : list Z) (now : Z) (input : NewMemory) (s : MemoryStore) : MemoryStore * (MemError + MemoryRecord) :=
  let content := trim (nm_content input) in
  if jeqb content [] then (s, inl EmptyContent)
  else match findb (same_memory (nm_scope input) content) (db_rows s) with
  | Some existing => (s, inr (rowToRecord existing))
  | None =>
      if someb (λ r, jeqb (r_uid r) uid) (db_rows s) then (s, inl UidTaken)
      else
        let row := mkRow (db_next s) uid (nm_kind input) content (scopeKind (nm_scope input)) (scopeKey (nm_scope input))
                     (nm_sourceCh input) (nm_sourceRef input ?? []) (nm_weight input ?? 1%Qc) (nm_origin input ?? OrAuto)
                     now None 0 in
        (mkStore (db_rows s ++ [row]) (db_fts s ++ [(uid, segment content)]) (db_next s + 1), inr (rowToRecord row))
  end.

(** [UPDATE memories SET last_hit_at = ?, hit_count = hit_count + 1 WHERE id = ?]. *)
Definition touch_row (now id : Z) (r : Row) : Row :=
  if r_id r =? id
  then mkRow (r_id r) (r_uid r) (r_kind r) (r_content r) (r_scope_kind r) (r_scope_key r) (r_source_ch r) (r_source_ref r)
         (r_weight r) (r_origin r) (r_created_at r) (Some now) (r_hit_count r + 1)
  else r.

Definition touchHit (now : Z) (ids : list Z) (s : MemoryStore) : MemoryStore :=
  mkStore (fold_left (λ rows id, map (touch_row now id) rows) ids (db_rows s)) (db_fts s) (db_next s).

Definition qc_ltb (a b : Qc) : bool := negb (Qle_bool (this b) (this a)).

(** [weight DESC, created_at DESC]. *)
Definition newer (a b : Row) : bool :=
  qc_ltb (r_weight b) (r_weight a)
  || (bool_decide (r_weight a = r_weight b) && (r_created_at b <=? r_created_at a)).

Section store.
Context `{Sqlite}.

(** The join of a row with its index entries that match. *)
Definition joined (q : list Z) (s : MemoryStore) (r : Row) : list Row :=
  map (λ _, r) (filterb (λ f, jeqb f.1 (r_uid r) && fts_match q f.2) (db_fts s)).

Definition fts_content (s : MemoryStore) (r : Row) : list Z :=
  match findb (λ f, jeqb f.1 (r_uid r)) (db_fts s) with Some f => f.2 | None => [] end.

(** [bm25(memories_fts), m.weight DESC, m.created_at DESC]. *)
Definition ranked (q : list Z) (s : MemoryStore) (a b : Row) : bool :=
  let ba := bm25 (db_fts s) q (fts_content s a) in
  let bb := bm25 (db_fts s) q (fts_content s b) in
  qc_ltb ba bb || (bool_decide (ba = bb) && newer a b).

Definition recall (now : Z) (rows : list Row) (s : MemoryStore) : MemoryStore * list MemoryRecord :=
  let records := map rowToRecord rows in
  (match records with [] => s | _ => touchHit now (map m_id records) s end, records).

Definition retrieve (now : Z) (allow : AllowScopes) (query : list Z) (k : nat) (s : MemoryStore)
  : MemoryStore * list MemoryRecord :=
  if nothing_allowed allow then (s, [])
  else
    let match_ := segment (trim query) in
    if jeqb match_ [] then recall now (take k (order_by newer (filterb (scopeClause allow) (db_rows s)))) s
    else recall now (take k (order_by (ranked match_ s)
           (filterb (scopeClause allow) (mbind (joined match_ s) (db_rows s))))) s.

Definition list_memories (allow : AllowScopes) (s : MemoryStore) : list MemoryRecord :=
  if nothing_allowed allow then []
  else map rowToRecord (order_by (λ a b, r_created_at b <=? r_created_at a) (filterb (scopeClause allow) (db_rows s))).

Definition count_memories (allow : AllowScopes) (s : MemoryStore) : nat := length (list_memories allow s).

Definition remove (uid : list Z) (s : MemoryStore) : MemoryStore * bool :=
  let rows := filterb (λ r, negb (jeqb (r_uid r) uid)) (db_rows s) in
  if bool_decide (length rows = length (db_rows s)) then (s, false)
  else (mkStore rows (filterb (λ f, negb (jeqb f.1 uid)) (db_fts s)) (db_next s), true).

Definition set_content (uid content : list Z) (scope : option MemoryScope) (r : Row) : Row :=
  if jeqb (r_uid r) uid then
    mkRow (r_id r) (r_uid r) (r_kind r) content
      (match scope with Some sc => scopeKind sc | None => r_scope_kind r end)
      (match scope with Some sc => scopeKey sc | None => r_scope_key r end)
      (r_source_ch r) (r_source_ref r) (r_weight r) (r_origin r) (r_created_at r) (r_last_hit_at r) (r_hit_count r)
  else r.

Definition get_row (uid : list Z) (s : MemoryStore) : option Row := findb (λ r, jeqb (r_uid r) uid) (db_rows s).

(** [update]: [inr None] when no memory has the uid. *)
Definition update (uid content : list Z) (scope : option MemoryScope) (s : MemoryStore)
  : MemoryStore * (MemError + option MemoryRecord) :=
  let next := trim content in
  if jeqb next [] then (s, inl EmptyContent)
  else if negb (someb (λ r, jeqb (r_uid r) uid) (db_rows s)) then (s, inr None)
  else
    let s' := mkStore (map (set_content uid next scope) (db_rows s))
                (filterb (λ f, negb (jeqb f.1 uid)) (db_fts s) ++ [(uid, segment next)]) (db_next s) in
    (s', inr (rowToRecord <$> get_row uid s')).

Definition get_memory (uid : list Z) (s : MemoryStore) : option MemoryRecord := rowToRecord <$> get_row uid s.
End store.

(** * Theorems *)

(** ** Segmentation *)

Lemma segment_loop_out text out cjk word w : w ∈ out → w ∈ segment_loop text out cjk word.
Proof.
  revert out cjk word. induction text as [|c text IH]; intros out cjk word Hw; simpl; [set_solver|].
  repeat case_match; apply IH; set_solver.
Qed.

Lemma bigrams_app a b w : w ∈ bigrams a → w ∈ bigrams (a ++ b).
Proof.
  induction a as [|x [|y a] IH]; simpl; [set_solver..|]. rewrite !elem_of_cons. simpl in IH. naive_solver.
Qed.

Lemma bigrams_suffix a b w : w ∈ bigrams b → w ∈ bigrams (a ++ b).
Proof.
  induction a as [|x a IH]; [done|]. intros Hw%IH. simpl. destruct (a ++ b) eqn:E; [by simpl in Hw|].
  apply elem_of_cons. by right.
Qed.

Lemma flushCjk_bigrams run w : w ∈ bigrams run → w ∈ flushCjk run.
Proof. destruct run as [|a [|b run]]; simpl; [done|set_solver|done]. Qed.

(** The neighbours of the run being collected all end up in the output. *)
Lemma segment_loop_cjk text out cjk w : w ∈ bigrams cjk → w ∈ segment_loop text out cjk [].
Proof.
  revert out cjk. induction text as [|c text IH]; intros out cjk Hw; simpl.
  - rewrite elem_of_app. right. by apply flushCjk_bigrams.
  - destruct (is_cjk c); [apply IH; by apply bigrams_app|].
    apply flushCjk_bigrams in Hw. destruct (is_alnum c); apply segment_loop_out; set_solver.
Qed.

Lemma segment_loop_run q text out cjk word :
  forallb is_cjk q = true → q ≠ [] →
  ∃ out', segment_loop (q ++ text) out cjk word = segment_loop text out' (cjk ++ q) [].
Proof.
  revert out cjk word. induction q as [|c q IH]; [done|]. intros out cjk word Hq _. simpl in *.
  apply andb_true_iff in Hq as [Hc Hq]. rewrite Hc. destruct q as [|d q]; [by eexists|].
  destruct (IH (out ++ flushWord word) (cjk ++ [c]) [] Hq ltac:(done)) as [out' Ho].
  exists out'. rewrite Ho. by rewrite <- app_assoc.
Qed.

Lemma tokens_infix p q r w :
  forallb is_cjk q = true → w ∈ bigrams q → w ∈ tokens (p ++ q ++ r).
Proof.
  intros Hq Hw. unfold tokens. assert (q ≠ []) as Hne by (intros ->; set_solver).
  enough (∀ out cjk word, w ∈ segment_loop (p ++ q ++ r) out cjk word) as Hgen by apply Hgen.
  induction p as [|c p IH]; intros out cjk word; simpl.
  - destruct (segment_loop_run q r out cjk word Hq Hne) as [out' ->].
    apply segment_loop_cjk. by apply bigrams_suffix.
  - repeat case_match; apply IH.
Qed.

Lemma tokens_cjk q : forallb is_cjk q = true → (2 <= length q)%nat → tokens q = bigrams q.
Proof.
  intros Hq Hlen. unfold tokens. assert (q ≠ []) as Hne by (intros ->; simpl in Hlen; lia).
  assert (∀ t cjk, forallb is_cjk t = true → segment_loop t [] cjk [] = flushCjk (cjk ++ t)) as Hgen.
  { intros t. induction t as [|c t IH]; intros cjk Ht; simpl; [by rewrite app_nil_r|].
    simpl in Ht. apply andb_true_iff in Ht as [Hc Ht]. rewrite Hc. rewrite IH by done. by rewrite <- app_assoc. }
  rewrite Hgen by done. simpl. destruct q as [|a [|b q]]; simpl in *; [lia..|done].
Qed.

(** Every token is a word of one script. *)
Lemma bigrams_plain run w : forallb is_cjk run = true → w ∈ bigrams run → plain_word w = true.
Proof.
  induction run as [|a [|b run] IH]; simpl; [set_solver..|]. intros Hr.
  apply andb_true_iff in Hr as [Ha Hr]. rewrite elem_of_cons. intros [->|Hw]; [|by apply IH].
  unfold plain_word. simpl. apply andb_true_iff in Hr as [Hb _]. by rewrite Ha, Hb.
Qed.

Lemma flushCjk_plain run w : forallb is_cjk run = true → w ∈ flushCjk run → plain_word w = true.
Proof.
  intros Hr. destruct run as [|a [|b run]]; simpl; [set_solver| |by apply (bigrams_plain (a :: b :: run))].
  rewrite list_elem_of_singleton. intros ->. unfold plain_word. simpl in *. by rewrite Hr.
Qed.

Lemma ascii_lower_plain c : is_alnum c = true → is_lower (ascii_lower c) || is_digit (ascii_lower c) = true.
Proof.
  unfold is_alnum, ascii_lower. destruct (is_upper c) eqn:Eu.
  - intros _. unfold is_upper in Eu. unfold is_lower. bools. apply orb_true_iff. left.
    apply andb_true_iff. rewrite !Z.leb_le. lia.
  - by rewrite orb_false_r.
Qed.

Lemma flushWord_plain run w : forallb is_alnum run = true → w ∈ flushWord run → plain_word w = true.
Proof.
  intros Hr. unfold flushWord. destruct (jeqb run []) eqn:E; [set_solver|]. apply jeqb_neq in E.
  rewrite list_elem_of_singleton. intros ->. unfold plain_word. apply andb_true_iff. split.
  - apply negb_true_iff, jeqb_neq. by destruct run.
  - apply orb_true_iff. right. clear E. induction run as [|c run IH]; simpl in *; [done|].
    apply andb_true_iff in Hr as [Hc Hr]. rewrite IH by done. rewrite andb_true_r.
    by apply ascii_lower_plain.
Qed.

Lemma tokens_plain text w : w ∈ tokens text → plain_word w = true.
Proof.
  unfold tokens. assert (∀ t out cjk word,
    (∀ x, x ∈ out → plain_word x = true) → forallb is_cjk cjk = true → forallb is_alnum word = true →
    w ∈ segment_loop t out cjk word → plain_word w = true) as Hgen.
  { intros t. induction t as [|c t IH]; intros out cjk word Ho Hc Hw; simpl.
    - rewrite !elem_of_app. intros [?|[?|?]]; [auto|by eapply flushWord_plain|by eapply flushCjk_plain].
    - destruct (is_cjk c) eqn:Ec; [|destruct (is_alnum c) eqn:Ea]; apply IH; try done.
      + intros x. rewrite elem_of_app. intros [?|?]; [auto|by eapply flushWord_plain].
      + rewrite forallb_app, Hc. simpl. by rewrite Ec.
      + intros x. rewrite elem_of_app. intros [?|?]; [auto|by eapply flushCjk_plain].
      + rewrite forallb_app, Hw. simpl. by rewrite Ea.
      + intros x. rewrite !elem_of_app. intros [?|[?|?]]; [auto|by eapply flushWord_plain|by eapply flushCjk_plain]. }
  by apply Hgen; [intros x; rewrite elem_of_nil|..].
Qed.

Lemma cjk_match `{Sqlite} p q r :
  forallb is_cjk q = true → (2 <= length q)%nat → fts_match (segment q) (segment (p ++ q ++ r)) = true.
Proof.
  intros Hcjk Hlen.
  unfold segment. apply fts_match_words.
  - intros w. rewrite elem_of_app. intros [?|?]; by eapply tokens_plain.
  - rewrite tokens_cjk by done. by destruct q as [|a [|b q]]; simpl in *; [lia..|].
  - intros w Hw. rewrite tokens_cjk in Hw by done. by apply tokens_infix.
Qed.

(** A search for any run of two or more CJK characters finds every text
    that contains it, wherever it sits: the indexed content has all the words
    of the query, so the full-text match succeeds. *)
Theorem segment_cjk_search `{Sqlite} (p q r : list Z)
    (Hcjk : forallb is_cjk q = true) (Hlen : (2 <= length q)%nat) :
  fts_match (segment q) (segment (p ++ q ++ r)) = true.
Proof.
  by apply cjk_match.
Qed.

(** ** The invariant: unique ids, index in step with the table *)

Definition index_entry (r : Row) : list Z * list Z := (r_uid r, segment (r_content r)).

Record db_wf (s : MemoryStore) : Prop := {
  wf_uids : NoDup (map r_uid (db_rows s));
  wf_fts : Permutation (db_fts s) (map index_entry (db_rows s));
  wf_content : ∀ r, r ∈ db_rows s → trim (r_content r) = r_content r ∧ r_content r ≠ [];
}.

Lemma touch_row_keep now id r :
  r_uid (touch_row now id r) = r_uid r ∧ r_content (touch_row now id r) = r_content r ∧
  r_scope_kind (touch_row now id r) = r_scope_kind r ∧ r_scope_key (touch_row now id r) = r_scope_key r.
Proof. unfold touch_row. by case_match. Qed.

Lemma touchHit_map {A} (g : Row → A) now ids s :
  (∀ id r, g (touch_row now id r) = g r) → map g (db_rows (touchHit now ids s)) = map g (db_rows s).
Proof.
  intros Hg. unfold touchHit. simpl. generalize (db_rows s) as rows.
  induction ids as [|id ids IH]; intros rows; simpl; [done|].
  rewrite IH, map_map. apply map_ext. auto.
Qed.

Lemma map_content_wf rows rows' :
  map r_content rows' = map r_content rows →
  (∀ r, r ∈ rows → trim (r_content r) = r_content r ∧ r_content r ≠ []) →
  ∀ r, r ∈ rows' → trim (r_content r) = r_content r ∧ r_content r ≠ [].
Proof.
  intros Heq Hwf r Hr. assert (r_content r ∈ map r_content rows) as Hin.
  { rewrite <- Heq. apply list_elem_of_In, in_map, list_elem_of_In, Hr. }
  apply list_elem_of_In, in_map_iff in Hin as (r0 & <- & Hr0). apply Hwf. by apply list_elem_of_In.
Qed.

Lemma touchHit_wf now ids s : db_wf s → db_wf (touchHit now ids s).
Proof.
  intros [Hu Hf Hc]. constructor.
  - rewrite (touchHit_map r_uid); [done|]. intros id r. apply touch_row_keep.
  - rewrite (touchHit_map index_entry); [done|]. intros id r. unfold index_entry.
    destruct (touch_row_keep now id r) as (-> & -> & _). done.
  - eapply map_content_wf; [apply touchHit_map; intros id r; apply touch_row_keep|done].
Qed.

Lemma recall_wf now rows s : db_wf s → db_wf (recall now rows s).1.
Proof. intros Hs. unfold recall. simpl. case_match; [done|]. by apply touchHit_wf. Qed.

Lemma filter_map_uid {A B} (f : A → bool) (g : B → bool) (h : A → B) l :
  (∀ x, g (h x) = f x) → filterb g (map h l) = map h (filterb f l).
Proof. intros Hfg. induction l as [|x l IH]; simpl; [done|]. rewrite Hfg, IH. by destruct (f x). Qed.

Lemma NoDup_map_filterb {A} (g : A → list Z) f l : NoDup (map g l) → NoDup (map g (filterb f l)).
Proof.
  induction l as [|x l IH]; simpl; [done|]. intros [Hx Hnd]%NoDup_cons.
  destruct (f x); simpl; [|auto]. constructor; [|auto]. intros Hin. apply Hx.
  apply list_elem_of_In, in_map_iff in Hin as (y & <- & Hy). apply list_elem_of_In, elem_of_filterb in Hy as [Hy _].
  apply list_elem_of_In, in_map. by apply list_elem_of_In.
Qed.

Lemma add_wf uid now input s : db_wf s → db_wf (add uid now input s).1.
Proof.
  intros [Hu Hf Hc]. unfold add. case_match eqn:Ec; [by constructor|]. apply jeqb_neq in Ec.
  case_match; [by constructor|]. case_match eqn:Eu; [by constructor|]. constructor; simpl.
  - rewrite map_app. apply NoDup_app. split_and!; [done| |apply NoDup_singleton].
    intros x Hx. simpl. rewrite list_elem_of_singleton. intros ->.
    apply list_elem_of_In, in_map_iff in Hx as (r & Hr & Hin). apply list_elem_of_In in Hin.
    pose proof (proj1 (someb_false _ _) Eu r Hin) as Hn. cbn beta in Hn. by rewrite Hr, jeqb_refl in Hn.
  - rewrite map_app. by apply Permutation_app.
  - intros r. rewrite elem_of_app, list_elem_of_singleton. intros [?| ->]; [auto|]. simpl. split; [apply trim_idem|done].
Qed.

Lemma remove_wf uid s : db_wf s → db_wf (remove uid s).1.
Proof.
  intros [Hu Hf Hc]. unfold remove. case_bool_decide; [by constructor|]. constructor; simpl.
  - by apply NoDup_map_filterb.
  - rewrite (filterb_permutation _ _ _ Hf). by rewrite (filter_map_uid (λ r, negb (jeqb (r_uid r) uid))).
  - intros r [? _]%elem_of_filterb. auto.
Qed.

Lemma set_content_uid uid c sc r : r_uid (set_content uid c sc r) = r_uid r.
Proof. unfold set_content. by case_match. Qed.

(** Replacing one row's content and its index entry keeps them in step. *)
Lemma reindex_perm uid c sc rows :
  NoDup (map r_uid rows) → uid ∈ map r_uid rows →
  Permutation (filterb (λ f, negb (jeqb f.1 uid)) (map index_entry rows) ++ [(uid, segment c)])
              (map index_entry (map (set_content uid c sc) rows)).
Proof.
  induction rows as [|r rows IH]; simpl; [set_solver|]. intros [Hr Hnd]%NoDup_cons Hin.
  unfold set_content at 1. destruct (jeqb (r_uid r) uid) eqn:E; simpl.
  - apply jeqb_eq in E. subst uid.
    assert (filterb (λ f, negb (jeqb f.1 (r_uid r))) (map index_entry rows) = map index_entry rows) as ->.
    { apply filterb_all. intros f Hf. apply list_elem_of_In, in_map_iff in Hf as (r0 & <- & Hr0). simpl.
      apply negb_true_iff, jeqb_neq. intros Heq. apply Hr. rewrite <- Heq. apply list_elem_of_In. by apply in_map. }
    assert (map (set_content (r_uid r) c sc) rows = rows) as ->.
    { clear IH Hnd Hin. induction rows as [|x rows IH2]; simpl; [done|]. rewrite IH2 by set_solver. f_equal.
      unfold set_content. rewrite (proj2 (jeqb_neq _ _)); [done|]. set_solver. }
    unfold index_entry at 2. simpl. by rewrite Permutation_app_comm.
  - apply jeqb_neq in E. constructor. apply IH; [done|]. apply elem_of_cons in Hin as [?|?]; [done|done].
Qed.

Lemma update_wf uid c sc s : db_wf s → db_wf (update uid c sc s).1.
Proof.
  intros [Hu Hf Hc]. unfold update. case_match eqn:Ec; [by constructor|]. apply jeqb_neq in Ec.
  case_match eqn:Eu; [by constructor|]. apply negb_false_iff, someb_true in Eu as (r & Hr & Huid).
  apply jeqb_eq in Huid. constructor; simpl.
  - rewrite map_map. rewrite (map_ext _ r_uid); [done|]. intros. apply set_content_uid.
  - rewrite (filterb_permutation _ _ _ Hf). apply reindex_perm; [done|]. rewrite <- Huid.
    apply list_elem_of_In, in_map. by apply list_elem_of_In.
  - intros x Hx. apply list_elem_of_In, in_map_iff in Hx as (r0 & <- & Hr0). apply list_elem_of_In in Hr0.
    unfold set_content. case_match; simpl; [split; [apply trim_idem|done]|auto].
Qed.

Section memory_theorems.
Context `{Sqlite}.

Inductive memory_step : MemoryStore → MemoryStore → Prop :=
| ms_add uid now input s : memory_step s (add uid now input s).1
| ms_retrieve now allow q k s : memory_step s (retrieve now allow q k s).1
| ms_remove uid s : memory_step s (remove uid s).1
| ms_update uid c sc s : memory_step s (update uid c sc s).1.

Lemma memory_step_wf s s' : memory_step s s' → db_wf s → db_wf s'.
Proof.
  intros [uid now input s0|now allow q k s0|uid s0|uid c sc s0] Hs.
  - by apply add_wf.
  - unfold retrieve. repeat case_match; try done; by apply recall_wf.
  - by apply remove_wf.
  - by apply update_wf.
Qed.

Definition empty_db : MemoryStore := mkStore [] [] 1.

Lemma memory_run_wf s : rtc memory_step empty_db s → db_wf s.
Proof.
  intros Hreach. assert (db_wf empty_db) as H0 by (constructor; simpl; [constructor|done|set_solver]).
  induction Hreach as [|s1 s2 s3 Hstep _ IH]; [done|]. apply IH. by apply (memory_step_wf s1).
Qed.

(** Every reachable memory store keeps its full-text index in step with
    its table (one index entry per memory, holding the segmentation of its
    current text), unique ids, and only trimmed non-empty contents. *)
Theorem reachable_db_wf (s : MemoryStore) (Hreach : rtc memory_step empty_db s) : db_wf s.
Proof. by apply memory_run_wf. Qed.

(** ** Scope isolation *)

Definition allowed (a : AllowScopes) (sc : MemoryScope) : Prop :=
  match sc with
  | ScGlobal => al_global a = true
  | ScAgent n => al_agent a = Some n
  | ScFriend f => al_friend a = Some f
  | ScGroup g => al_group a = Some g
  end.

Lemma key_clause_true k p r :
  key_clause k p r = true → r_scope_kind r = k ∧ ∃ v, p = Some v ∧ r_scope_key r = Some v.
Proof.
  unfold key_clause. repeat case_match; try done. intros [E1%jeqb_eq E2%jeqb_eq]%andb_true_iff. subst. eauto.
Qed.

Lemma scopeClause_allowed a r : scopeClause a r = true → allowed a (m_scope (rowToRecord r)).
Proof.
  unfold scopeClause. rewrite !orb_true_iff. simpl. unfold decodeScope.
  intros [[[[Hg E%jeqb_eq]%andb_true_iff|Hk]|Hk]|Hk]; [rewrite E; js_keys; done|..];
    apply key_clause_true in Hk as (-> & v & Hp & ->); js_keys; done.
Qed.

Lemma elem_of_take_in {A} (l : list A) n x : x ∈ take n l → x ∈ l.
Proof. intros Hx. rewrite <- (take_drop n l). apply elem_of_app. by left. Qed.

Lemma elem_of_order_by le l x : x ∈ order_by le l ↔ x ∈ l.
Proof. by rewrite (order_by_perm le l). Qed.

Lemma rows_allowed allow rows m :
  m ∈ map rowToRecord rows → (∀ r, r ∈ rows → scopeClause allow r = true) → allowed allow (m_scope m).
Proof.
  intros Hin Hall. apply list_elem_of_In, in_map_iff in Hin as (r & <- & Hr).
  apply scopeClause_allowed, Hall. by apply list_elem_of_In.
Qed.

Lemma retrieve_allowed now allow q k s m : m ∈ (retrieve now allow q k s).2 → allowed allow (m_scope m).
Proof.
  intros Hm. unfold retrieve in Hm. destruct (nothing_allowed allow); [set_solver|].
  case_match; simpl in Hm; apply (rows_allowed _ _ _ Hm);
    intros r Hr%elem_of_take_in%elem_of_order_by%elem_of_filterb; naive_solver.
Qed.

(** C33. Recall and browsing never cross scopes: every memory they return has a
    scope the caller explicitly allowed (global, that agent, that friend or that
    group); with nothing allowed they return nothing. *)
Theorem memory_isolation (now : Z) (allow : AllowScopes) (q : list Z) (k : nat) (s : MemoryStore) (m : MemoryRecord)
    (Hm : m ∈ (retrieve now allow q k s).2 ∨ m ∈ list_memories allow s) : allowed allow (m_scope m).
Proof.
  destruct Hm as [Hm|Hm]; [by eapply retrieve_allowed|].
  unfold list_memories in Hm. destruct (nothing_allowed allow); [set_solver|].
  apply (rows_allowed _ _ _ Hm). intros r Hr%elem_of_order_by%elem_of_filterb. naive_solver.
Qed.

(** ** Recall is complete for CJK substrings *)

Lemma NoDup_fst_filter (l : list (list Z * list Z)) u g :
  NoDup (map fst l) → (length (filterb (λ f, jeqb f.1 u && g f.2) l) <= 1)%nat.
Proof.
  induction l as [|[a b] l IH]; simpl; [lia|]. intros [Ha Hnd]%NoDup_cons.
  destruct (jeqb a u && g b) eqn:E; [|auto]. apply andb_true_iff in E as [E%jeqb_eq _]. subst. simpl.
  assert (filterb (λ f, jeqb f.1 u && g f.2) l = []) as ->; [|simpl; lia].
  clear IH Hnd. induction l as [|[c d] l IH]; simpl in *; [done|].
  rewrite (proj2 (jeqb_neq c u)) by set_solver. simpl. apply IH. set_solver.
Qed.

Lemma wf_fts_uids s : db_wf s → NoDup (map fst (db_fts s)).
Proof.
  intros [Hu Hf _]. assert (Permutation (map fst (db_fts s)) (map r_uid (db_rows s))) as Hp.
  { rewrite Hf, map_map. apply Permutation_refl'. by apply map_ext. }
  by rewrite Hp.
Qed.

Lemma mbind_joined_length q s rows :
  NoDup (map fst (db_fts s)) → (length (mbind (joined q s) rows) <= length rows)%nat.
Proof.
  intros Hnd. induction rows as [|r rows IH]; simpl; [lia|]. rewrite length_app. unfold joined at 1.
  rewrite length_map. pose proof (NoDup_fst_filter (db_fts s) (r_uid r) (fts_match q) Hnd). 
  change (length (mbind (joined q s) rows) <= length rows)%nat in IH.
  change (length (filterb (λ f, jeqb f.1 (r_uid r) && fts_match q f.2) (db_fts s))
          + length (mbind (joined q s) rows) <= S (length rows))%nat. lia.
Qed.

Lemma trim_cjk q : forallb is_cjk q = true → trim q = q.
Proof.
  intros Hq. apply trim_id, no_ws_trimmed. apply everyb_true. intros c Hc.
  pose proof (proj1 (everyb_true is_cjk q) Hq c Hc) as Hk. apply negb_true_iff.
  unfold is_cjk in Hk. apply andb_true_iff in Hk as [Hlo%Z.leb_le Hhi%Z.leb_le]. unfold is_ws.
  repeat (apply orb_false_iff; split); try (apply Z.eqb_neq; lia); apply andb_false_iff; right; apply Z.leb_gt; lia.
Qed.

Lemma order_by_length le l : length (order_by le l) = length l.
Proof. by rewrite (order_by_perm le l). Qed.

(** In every reachable store, a query of two or more CJK characters
    recalls each visible memory whose text contains it, when the limit covers
    the store: neither the index, the segmentation, the join nor the scope
    filter loses one. *)
Theorem retrieve_complete (s : MemoryStore) (now : Z) (allow : AllowScopes) (r : Row) (p q x : list Z) (k : nat)
    (Hreach : rtc memory_step empty_db s) (Hrow : r ∈ db_rows s) (Hvis : scopeClause allow r = true)
    (Htext : r_content r = p ++ q ++ x) (Hcjk : forallb is_cjk q = true) (Hlen : (2 <= length q)%nat)
    (Hk : (length (db_rows s) <= k)%nat) :
  rowToRecord r ∈ (retrieve now allow q k s).2.
Proof.
  pose proof (memory_run_wf s Hreach) as Hwf.
  assert (nothing_allowed allow = false) as Hna.
  { destruct allow as [[] [] [] []]; done. }
  unfold retrieve. rewrite Hna, trim_cjk by done.
  assert (jeqb (segment q) [] = false) as ->.
  { apply jeqb_neq. unfold segment. rewrite tokens_cjk by done.
    destruct q as [|a [|b [|c q]]]; simpl in *; try lia; done. }
  cbn [recall fst snd]. unfold recall. cbn [snd].
  apply list_elem_of_In, in_map, list_elem_of_In.
  rewrite take_ge.
  2:{ rewrite order_by_length. etransitivity; [apply filterb_length|].
      etransitivity; [apply mbind_joined_length; by apply wf_fts_uids|done]. }
  apply elem_of_order_by, elem_of_filterb. split; [|done].
  apply list_elem_of_bind. exists r. split; [|done]. unfold joined.
  apply list_elem_of_In, in_map_iff. exists (index_entry r). split; [done|].
  apply list_elem_of_In, elem_of_filterb. split.
  - rewrite (wf_fts _ Hwf). apply list_elem_of_In, in_map. by apply list_elem_of_In.
  - simpl. rewrite jeqb_refl, Htext. by apply cjk_match.
Qed.

(** ** Deduplication *)

(** Adding the same text (up to surrounding blanks) to the same scope
    again is a no-op that answers the memory stored first: whatever id and time
    the second call brings, the store does not change. *)
Theorem add_idempotent (uid uid' : list Z) (now now' : Z) (input : NewMemory) (s : MemoryStore) (m : MemoryRecord)
    (Hadd : (add uid now input s).2 = inr m) :
  add uid' now' input (add uid now input s).1 = ((add uid now input s).1, inr m).
Proof.
  unfold add in *. destruct (jeqb (trim (nm_content input)) []) eqn:Ec; [done|].
  destruct (findb (same_memory (nm_scope input) (trim (nm_content input))) (db_rows s)) as [e|] eqn:Ef.
  - simpl in *. simplify_eq. by rewrite Ef.
  - destruct (someb (λ r, jeqb (r_uid r) uid) (db_rows s)) eqn:Eu; [done|]. cbn [fst snd db_rows] in *.
    set (row := mkRow _ _ _ _ _ _ _ _ _ _ _ _ _) in *.
    assert (findb (same_memory (nm_scope input) (trim (nm_content input))) (db_rows s ++ [row]) = Some row) as ->.
    { rewrite findb_None in Ef. revert Ef. generalize (db_rows s) as rows. intros rows.
      induction rows as [|r0 rows IH]; intros Hn; simpl.
      - unfold same_memory, row. cbn [r_scope_kind r_scope_key r_content].
        rewrite !jeqb_refl, bool_decide_eq_true_2 by done. done.
      - rewrite (Hn r0) by (by left). apply IH. intros y Hy. apply Hn. by right. }
    congruence.
Qed.
End memory_theorems.

(** ** A concrete engine *)

Lemma plain_word_no_space w : plain_word w = true → w ≠ [] ∧ 32 ∉ w.
Proof.
  unfold plain_word. intros [Hne Hc]%andb_true_iff. apply negb_true_iff, jeqb_neq in Hne. split; [done|].
  intros Hin. apply orb_true_iff in Hc as [Hc|Hc]; [change (forallb is_cjk w) with (everyb is_cjk w) in Hc|
    change (everyb (λ c, is_lower c || is_digit c) w = true) in Hc]; rewrite everyb_true in Hc; by apply Hc in Hin.
Qed.

Definition WordMatch : Sqlite.
Proof.
  refine {| fts_match := λ q c, everyb (λ w, bool_decide (w ∈ split_on 32 c)) (split_on 32 q);
            bm25 := λ _ _ _, 0%Qc;
            order_by := λ le l, @merge_sort Row (λ a b, le a b = true) (λ a b, decide (le a b = true)) l |}.
  - intros le l. apply merge_sort_Permutation.
  - intros q c Hw Hq. rewrite everyb_true.
    rewrite split_on_jjoin; [|done|intros w Hin; apply plain_word_no_space, Hw, elem_of_app; by left].
    destruct (decide (c = [])) as [->|Hc].
    + simpl. split; [|intros Hall w Hin; by apply Hall in Hin; rewrite elem_of_nil in Hin].
      intros Hall. exfalso. destruct q as [|w q]; [done|]. specialize (Hall w ltac:(by left)).
      apply bool_decide_eq_true in Hall. apply list_elem_of_singleton in Hall as ->.
      specialize (Hw [] ltac:(by left)). done.
    + rewrite split_on_jjoin; [|done|intros w Hin; apply plain_word_no_space, Hw, elem_of_app; by right].
      split; intros Hall w Hin; [by apply Hall, bool_decide_eq_true in Hin|by apply bool_decide_eq_true, Hall].
Defined.

Definition sample_memory : NewMemory :=
  mkNew (js "preference") (js " owner 喜欢打篮球 ") (ScAgent (js "dev")) (js "agent") None None None.
Definition sample_db : MemoryStore := (add (js "u1") 7 sample_memory empty_db).1.

Lemma sample_db_reachable : rtc (@memory_step WordMatch) empty_db sample_db.
Proof. eapply rtc_l; [apply (@ms_add WordMatch (js "u1") 7 sample_memory)|apply rtc_refl]. Qed.

Lemma segment_cjk_search_witness :
  forallb is_cjk (js "篮球") = true ∧ (2 <= length (js "篮球"))%nat ∧
  @fts_match WordMatch (segment (js "篮球")) (segment (js "我喜欢" ++ js "篮球" ++ js "吗")) = true.
Proof.
  split_and!; [reflexivity|vm_compute; lia|]. apply (@segment_cjk_search WordMatch); [reflexivity|vm_compute; lia].
Defined.

Lemma reachable_db_wf_witness : db_wf sample_db ∧ length (db_rows sample_db) = 1%nat.
Proof. split; [|reflexivity]. apply (@reachable_db_wf WordMatch). apply sample_db_reachable. Defined.

Lemma memory_isolation_witness :
  let allow := mkAllow false (Some (js "dev")) None None in
  ∃ m, m ∈ (@retrieve WordMatch 9 allow (js "篮球") 8 sample_db).2 ∧ allowed allow (m_scope m).
Proof.
  intros allow. assert (∃ m, (@retrieve WordMatch 9 allow (js "篮球") 8 sample_db).2 = [m]) as [m Hm]
    by (eexists; vm_compute; reflexivity).
  exists m. split; [rewrite Hm; by left|].
  apply (@memory_isolation WordMatch 9 allow (js "篮球") 8 sample_db). left. rewrite Hm. by left.
Defined.

Lemma retrieve_complete_witness :
  ∃ r, r ∈ db_rows sample_db ∧
  rowToRecord r ∈ (@retrieve WordMatch 9 (mkAllow false (Some (js "dev")) None None) (js "打篮") 8 sample_db).2.
Proof.
  assert (∃ r, db_rows sample_db = [r]) as [r Hr] by (eexists; vm_compute; reflexivity).
  assert (r ∈ db_rows sample_db) as Hin by (rewrite Hr; by left).
  exists r. split; [exact Hin|].
  assert (db_rows sample_db = [r]) as Hr2 by exact Hr. vm_compute in Hr2. injection Hr2 as <-.
  apply (@retrieve_complete WordMatch sample_db 9 (mkAllow false (Some (js "dev")) None None) _ (js "owner 喜欢") (js "打篮") (js "球") 8%nat);
    [apply sample_db_reachable|exact Hin|vm_compute; reflexivity..|vm_compute; lia|vm_compute; lia].
Defined.

Lemma add_idempotent_witness :
  ∃ m, (add (js "u1") 7 sample_memory empty_db).2 = inr m ∧
  add (js "u2") 8 sample_memory (add (js "u1") 7 sample_memory empty_db).1 = ((add (js "u1") 7 sample_memory empty_db).1, inr m).
Proof. eexists. split; [vm_compute; reflexivity|]. apply add_idempotent. vm_compute. reflexivity. Defined.
