(* ===== verification/MemoryExtract.v ===== *)
(** * Extraction of memories from a conversation (memory/extract.ts)

    Parsing the model's answer, and the one streaming call around it.  The
    language model is a parameter: a function from the request to the chunks it
    streams. *)

From S2P Require Import Prelude JsString Json Memory.
From Stdlib Require Import Qcanon.
#[local] Open Scope Z_scope.

(** Literals that hold double quotes are written with back quotes. *)
Definition jsq (s : string) : list Z := map (λ c, if c =? 96 then 34 else c) (js s).

Definition KINDS : list (list Z) := [js "fact"; js "preference"; js "summary"; js "decision"; js "promise"].

(** [.replace(/^```(?:json)?/i, '')]. *)
Definition fence : list Z := [96; 96; 96].
Definition strip_open (s : list Z) : list Z :=
  if startsWith s fence then
    let r := drop 3 s in
    if startsWith (map ascii_lower (take 4 r)) (js "json") then drop 4 r else r
  else s.

(** [.replace(/```$/i, '')]. *)
Definition strip_close (s : list Z) : list Z :=
  if endsWith s fence then take (length s - 3) s else s.

(** [s.lastIndexOf(c)]. *)
Fixpoint lastIndexOf (s : list Z) (c : Z) (i : nat) (found : option nat) : option nat :=
  match s with
  | [] => found
  | d :: s' => lastIndexOf s' c (S i) (if d =? c then Some i else found)
  end.

Section extract.
Context `{JsonText}.

(** The parsed answer; [None] when nothing parses. *)
Definition parse_answer (text : list Z) : option json :=
  let cleaned := trim (strip_close (strip_open (trim text))) in
  match JSON_parse cleaned with
  | Some v => Some v
  | None =>
      match indexOf cleaned [123] 0, lastIndexOf cleaned 125 0 None with
      | Some start, Some end_ =>
          if (start <? end_)%nat then JSON_parse (slice cleaned start (end_ + 1)) else None
      | _, _ => None
      end
  end.

(** The loop over the list; reading [raw.kind] of a [null] item throws. *)
Fixpoint collect (l : list json) : option (list (list Z * list Z)) :=
  match l with
  | [] => Some []
  | JNull :: _ => None
  | item :: l' =>
      match as_string (get item (js "content")), as_string (get item (js "kind")) with
      | Some content, Some kind =>
          if jeqb (trim content) [] || negb (bool_decide (kind ∈ KINDS)) then collect l'
          else out ← collect l'; Some ((kind, trim content) :: out)
      | _, _ => collect l'
      end
  end.

(** [parseMemories]: (kind, content) pairs, [None] when it throws. *)
Definition parseMemories (text : list Z) : option (list (list Z * list Z)) :=
  match parse_answer text with
  | None => Some []
  | Some parsed =>
      match get parsed (js "memories") with
      | Some (JArr l) => collect l
      | _ => Some []
      end
  end.

(** ** The streaming call *)

Inductive StreamChunk :=
| TextDelta (text : list Z)
| Finish (reason : list Z)
| OtherChunk.

Definition systemPromptFor (scope : MemoryScope) : list Z :=
  let focus := match scope with
    | ScGroup _ => js "long-term memories relevant to this GROUP — facts about the group and its members, shared decisions, promises, and context"
    | _ => js "long-term memories about the owner — facts, preferences, decisions, promises, and summaries"
    end in
  jjoin [10]
    [js "You are a memory extractor. From the given conversation summary, extract ONLY new, reusable, " ++ focus ++ js ".";
     js "Rules:";
     js "- Ignore transient chatter, greetings, and anything already covered by the EXISTING memories.";
     js "- Write each memory as one concrete, self-contained sentence in the language of the summary (Chinese or English).";
     js "- Do not invent; only state what the conversation actually said.";
     js "- If nothing new is worth keeping, return an empty list.";
     jsq "- Answer with ONLY a JSON object of the shape {`memories`:[{`kind`:`fact|preference|decision|promise|summary`,`content`:`...`}]}, no prose, no markdown fences."].

Definition extract_prompt (summary : list Z) (existing : list (list Z)) : list Z :=
  let existingBlock := match existing with
    | [] => js "(none)"
    | _ => jjoin [10] (imap (λ i c, dec (Z.of_nat i + 1) ++ js ". " ++ c) existing)
    end in
  jjoin [10] [js "CONVERSATION SUMMARY:"; (if jeqb (trim summary) [] then js "(empty)" else trim summary); [];
             js "EXISTING MEMORIES (do not repeat these):"; existingBlock].

(** The text of the stream; [None] when it was aborted or failed. *)
Fixpoint stream_text (chunks : list StreamChunk) (text : list Z) : option (list Z) :=
  match chunks with
  | [] => Some text
  | TextDelta t :: rest => stream_text rest (text ++ t)
  | Finish r :: rest =>
      if jeqb r (js "stop") || jeqb r (js "max-tokens") then stream_text rest text else None
  | OtherChunk :: rest => stream_text rest text
  end.

(** [llm prompt system] are the chunks the model streams. *)
Definition extractMemories (llm : list Z → list Z → list StreamChunk) (summary : list Z) (existing : list (list Z))
    (scope : MemoryScope) : option (list NewMemory) :=
  match stream_text (llm (extract_prompt summary existing) (systemPromptFor scope)) [] with
  | None => Some []
  | Some text =>
      memories ← parseMemories text;
      Some (map (λ m, mkNew m.1 m.2 scope
                       (match scope with ScGlobal => js "alter" | ScGroup _ => js "group" | _ => js "agent" end)
                       None (Some 1%Qc) (Some OrAuto)) memories)
  end.

(** * Theorems *)

Lemma collect_sound l out kc : collect l = Some out → kc ∈ out → kc.1 ∈ KINDS ∧ kc.2 ≠ [] ∧ trim kc.2 = kc.2.
Proof.
  revert out. induction l as [|v l IH]; intros out; simpl; [intros [= <-]; by rewrite elem_of_nil|].
  assert (∀ c k, (if jeqb (trim c) [] || negb (bool_decide (k ∈ KINDS)) then collect l
                  else out ← collect l; Some ((k, trim c) :: out)) = Some out → kc ∈ out →
                 kc.1 ∈ KINDS ∧ kc.2 ≠ [] ∧ trim kc.2 = kc.2) as Hstep.
  { intros c k. case_match eqn:E; [apply IH|]. apply orb_false_iff in E as [Ec Ek].
    apply jeqb_neq in Ec. apply negb_false_iff, bool_decide_eq_true in Ek.
    destruct (collect l) as [o|] eqn:Eo; simpl; [|done]. intros [= <-]. rewrite elem_of_cons.
    intros [->|Hin]; [simpl; split_and!; [done..|apply trim_idem]|]. by apply (IH o). }
  destruct v as [| | | | |o]; try done; try apply IH.
  destruct (as_string (get (JObj o) (js "content"))), (as_string (get (JObj o) (js "kind"))); try apply IH. apply Hstep.
Qed.

Lemma collect_throws l : collect l = None ↔ JNull ∈ l.
Proof.
  induction l as [|v l IH]; simpl; [split; [done|by rewrite elem_of_nil]|]. rewrite elem_of_cons.
  assert (∀ A (f : list (list Z * list Z) → A), (o ← collect l; Some (f o)) = None ↔ collect l = None) as Hbind.
  { intros A f. by destruct (collect l). }
  destruct v as [| | | | |o]; [by split; [left|]|rewrite IH; naive_solver..|].
  repeat case_match; rewrite ?Hbind, IH; naive_solver.
Qed.

(** Every memory extracted from a model answer is storable: its kind is
    one of the five kinds and its text is non-empty and trimmed, so [add]
    accepts it; it carries the requested scope. *)
Theorem extractMemories_sound (llm : list Z → list Z → list StreamChunk) (summary : list Z) (existing : list (list Z))
    (scope : MemoryScope) (out : list NewMemory) (Hout : extractMemories llm summary existing scope = Some out) :
  ∀ m, m ∈ out → nm_kind m ∈ KINDS ∧ trim (nm_content m) = nm_content m ∧ nm_content m ≠ [] ∧ nm_scope m = scope ∧
    (∀ uid now s, (add uid now m s).2 ≠ inl EmptyContent).
Proof.
  intros m Hm. unfold extractMemories in Hout. case_match; [|simplify_eq; by rewrite elem_of_nil in Hm].
  destruct (parseMemories _) as [ms|] eqn:Ep; simpl in Hout; [|done]. simplify_eq.
  apply list_elem_of_In, in_map_iff in Hm as (kc & <- & Hin). apply list_elem_of_In in Hin. simpl.
  assert (kc.1 ∈ KINDS ∧ kc.2 ≠ [] ∧ trim kc.2 = kc.2) as (Hk & Hne & Ht).
  { unfold parseMemories in Ep. repeat case_match; simplify_eq; try (by rewrite elem_of_nil in Hin).
    by eapply collect_sound. }
  split_and!; [done..|]. intros uid now s. unfold add. simpl. rewrite Ht, (proj2 (jeqb_neq _ _) Hne).
  repeat case_match; done.
Qed.

(** One [null] in the model's list makes the whole extraction throw
    (reading a property of null) instead of skipping the item as every other
    malformed item is skipped. *)
Theorem parseMemories_null_throws (text : list Z) (l : list json)
    (Hparse : parse_answer text = Some (JObj [(js "memories", JArr l)])) :
  parseMemories text = None ↔ JNull ∈ l.
Proof.
  unfold parseMemories. rewrite Hparse. change (get (JObj [(js "memories", JArr l)]) (js "memories")) with (Some (JArr l)).
  apply collect_throws.
Qed.
End extract.

Definition sample_answer : json :=
  JObj [(js "memories", JArr [JObj [(js "kind", JStr (js "fact")); (js "content", JStr (js " likes tea "))]; JBool true])].
Definition sample_llm (prompt system : list Z) : list StreamChunk :=
  [TextDelta (@JSON_stringify CodedJson sample_answer); Finish (js "stop")].

Lemma extractMemories_sound_witness :
  ∃ out, @extractMemories CodedJson sample_llm (js "chat") [] ScGlobal = Some out ∧
  ∀ m, m ∈ out → nm_kind m ∈ KINDS.
Proof.
  eexists. split; [vm_compute; reflexivity|]. intros m Hm.
  apply (@extractMemories_sound CodedJson sample_llm (js "chat") [] ScGlobal _ eq_refl m Hm).
Defined.

Lemma parseMemories_null_throws_witness :
  let text := @JSON_stringify CodedJson (JObj [(js "memories", JArr [JNull])]) in
  @parse_answer CodedJson text = Some (JObj [(js "memories", JArr [JNull])]) ∧ @parseMemories CodedJson text = None.
Proof.
  intros text. assert (@parse_answer CodedJson text = Some (JObj [(js "memories", JArr [JNull])])) as Hp by (vm_compute; reflexivity).
  split; [exact Hp|]. apply (@parseMemories_null_throws CodedJson text [JNull] Hp). by left.
Defined.
