(* ===== verification/PageState.v ===== *)
(** * Page state of the browser half (client/page-state.ts)

    The message thread of one conversation: archive pages, live frames and
    optimistic bubbles folded into one list, plus the selection rules, the tab
    sets and the day separators. *)

From S2P Require Import Prelude JsSort JsString Json Policy.
From stdpp Require Import sorting.
#[local] Open Scope Z_scope.

Inductive Provenance := ByOwner | ByAlter.
#[export] Instance Provenance_eq_dec : EqDecision Provenance.
Proof. solve_decision. Defined.

Record ThreadEntry := mkTE {
  te_seq : Z; te_dir : Dir; te_id : list Z; te_body : list Z; te_ts : Z; te_from : option (list Z);
  te_type : option (list Z); te_auto : option bool; te_by : option Provenance; te_agent : option (list Z);
  te_status : option (list Z); te_artifactName : option (list Z); te_clientId : option (list Z); te_error : option (list Z) }.
#[export] Instance ThreadEntry_eq_dec : EqDecision ThreadEntry.
Proof. solve_decision. Defined.

(** One archive entry as the host's API answers it. *)
Record ApiEntry := mkAE {
  ae_seq : Z; ae_dir : Dir; ae_id : list Z; ae_body : list Z; ae_ts : Z; ae_from : option (list Z);
  ae_type : option (list Z); ae_auto : option bool; ae_by : option Provenance; ae_agent : option (list Z);
  ae_status : option (list Z); ae_artifactName : option (list Z) }.

Record ThreadState := mkTS {
  ts_entries : list ThreadEntry; ts_window : Z; ts_complete : bool; ts_loading : bool; ts_loaded : bool;
  ts_error : option (list Z) }.

Definition EMPTY_THREAD : ThreadState := mkTS [] 0 false false false None.
Definition PAGE_SIZE : Z := 50.

(** [x === true ? { x: true } : {}]. *)
Definition only_true (b : option bool) : option bool := match b with Some true => Some true | _ => None end.

Definition entryFromApi (e : ApiEntry) : ThreadEntry :=
  mkTE (ae_seq e) (ae_dir e) (ae_id e) (ae_body e) (ae_ts e) (ae_from e) (ae_type e) (only_true (ae_auto e)) (ae_by e)
    (ae_agent e) (ae_status e) (ae_artifactName e) None None.

Definition with_entries (s : ThreadState) (l : list ThreadEntry) : ThreadState :=
  mkTS l (ts_window s) (ts_complete s) (ts_loading s) (ts_loaded s) (ts_error s).

(** [{ ...previous, ...entry, clientId? }]: present properties override. *)
Definition override {A} (old new : option A) : option A := match new with Some x => Some x | None => old end.

Definition merge_entry (p e : ThreadEntry) : ThreadEntry :=
  mkTE (te_seq e) (te_dir e) (te_id e) (te_body e) (te_ts e) (override (te_from p) (te_from e))
    (override (te_type p) (te_type e)) (override (te_auto p) (te_auto e)) (override (te_by p) (te_by e))
    (override (te_agent p) (te_agent e)) (override (te_status p) (te_status e))
    (override (te_artifactName p) (te_artifactName e))
    (match te_clientId p with Some c => Some c | None => te_clientId e end)
    (override (te_error p) (te_error e)).

Section sort_thread.
Context `{LocaleCompare}.

(** The comparator of [sortThread]: is [a] at or before [b]. *)
Definition thread_le (a b : ThreadEntry) : bool :=
  let pa := if 0 <? te_seq a then 0 else 1 in
  let pb := if 0 <? te_seq b then 0 else 1 in
  if negb (pa =? pb) then pa <=? pb
  else if (pa =? 0) && negb (te_seq a =? te_seq b) then te_seq a <=? te_seq b
  else if negb (te_ts a =? te_ts b) then te_ts a <=? te_ts b
  else localeCompare (te_id a) (te_id b) <=? 0.

Definition sortThread (entries : list ThreadEntry) : list ThreadEntry := js_sort thread_le entries.

(** ** mergeEntries *)

Record MergeState := mkMS { ms_next : list ThreadEntry; ms_bySeq : gmap Z nat; ms_byId : gmap (list Z) nat }.

(** [forEach((e, i) => map.set(key(e), i))]: later entries override. *)
Definition index_by {K} `{Countable K} (key : ThreadEntry → option K) (l : list ThreadEntry) : gmap K nat :=
  foldl (λ m ie, match key ie.2 with Some k => <[k := ie.1]> m | None => m end) ∅ (imap pair l).

Definition seq_key (e : ThreadEntry) : option Z := if 0 <? te_seq e then Some (te_seq e) else None.
Definition id_key (e : ThreadEntry) : option (list Z) := Some (te_id e).

(** The index of the loaded entries. *)
Definition index_entries (l : list ThreadEntry) : MergeState := mkMS l (index_by seq_key l) (index_by id_key l).

(** One round of the loop over the incoming entries. *)
Definition merge_step (m : MergeState) (entry : ThreadEntry) : MergeState :=
  let seqIndex := if 0 <? te_seq entry then ms_bySeq m !! te_seq entry else None in
  let idIndex := ms_byId m !! te_id entry in
  match (match seqIndex with Some i => Some i | None => idIndex end) with
  | None =>
      let i := length (ms_next m) in
      mkMS (ms_next m ++ [entry]) (if 0 <? te_seq entry then <[te_seq entry := i]> (ms_bySeq m) else ms_bySeq m)
        (<[te_id entry := i]> (ms_byId m))
  | Some i =>
      match ms_next m !! i with
      | None => m (* [next[index]!]: an index is always in range *)
      | Some previous =>
          let merged := merge_entry previous entry in
          let byId := <[te_id merged := i]> (ms_byId m) in
          mkMS (<[i := merged]> (ms_next m))
            (if 0 <? te_seq merged then <[te_seq merged := i]> (ms_bySeq m) else ms_bySeq m)
            (if jeqb (te_id previous) (te_id merged) then byId else delete (te_id previous) byId)
      end
  end.

Definition mergeEntries (existing incoming : list ThreadEntry) : list ThreadEntry :=
  sortThread (ms_next (foldl merge_step (index_entries existing) incoming)).

(** ** Folds of the thread *)

Definition applyArchive (s : ThreadState) (entries : list ApiEntry) (window : Z) : ThreadState :=
  let incoming := map entryFromApi entries in
  mkTS (mergeEntries (ts_entries s) incoming) window (Z.of_nat (length incoming) <? window) false true None.

(** An inbound frame: [seq], [from] and the rest as the SSE event carries them. *)
Record InboundFrame := mkIn {
  if_id : list Z; if_from : option (list Z); if_body : list Z; if_ts : Z; if_seq : option Z; if_type : option (list Z);
  if_auto : option bool; if_by : option Provenance; if_agent : option (list Z); if_artifactName : option (list Z) }.

Definition entry_of_frame (m : InboundFrame) : ThreadEntry :=
  mkTE (if_seq m ?? 0) dir_in (if_id m) (if_body m) (if_ts m) (if_from m ≫= non_empty) (if_type m)
    (only_true (if_auto m)) (if_by m) (if_agent m ≫= non_empty) None (if_artifactName m) None None.

Definition applyInbound (s : ThreadState) (m : InboundFrame) : ThreadState :=
  with_entries s (mergeEntries (ts_entries s) [entry_of_frame m]).

Definition applyOutbound (s : ThreadState) (e : ApiEntry) : ThreadState :=
  with_entries s (mergeEntries (ts_entries s) [entryFromApi e]).

Definition optimistic (clientId body : list Z) (ts : Z) : ThreadEntry :=
  mkTE 0 dir_out clientId body ts None None None None None (Some (js "sending")) None (Some clientId) None.

Definition addOptimistic (s : ThreadState) (clientId body : list Z) (ts : Z) : ThreadState :=
  with_entries s (ts_entries s ++ [optimistic clientId body ts]).

Definition has_client (c : list Z) (e : ThreadEntry) : bool := bool_decide (te_clientId e = Some c).

Definition with_client (c : list Z) (e : ThreadEntry) : ThreadEntry :=
  mkTE (te_seq e) (te_dir e) (te_id e) (te_body e) (te_ts e) (te_from e) (te_type e) (te_auto e) (te_by e) (te_agent e)
    (te_status e) (te_artifactName e) (Some c) (te_error e).

(** [findIndex]. *)
Fixpoint find_index (f : ThreadEntry → bool) (l : list ThreadEntry) : option nat :=
  match l with
  | [] => None
  | e :: l' => if f e then Some 0%nat else S <$> find_index f l'
  end.

(** [filter((e, i) => i === index || ...)]. *)
Definition same_message (a e : ThreadEntry) : bool := ((0 <? te_seq e) && (te_seq e =? te_seq a)) || jeqb (te_id e) (te_id a).

Fixpoint filter_except (index : nat) (f : ThreadEntry → bool) (l : list ThreadEntry) : list ThreadEntry :=
  match l with
  | [] => []
  | e :: l' =>
      match index with
      | O => e :: filterb f l'
      | S i => if f e then e :: filter_except i f l' else filter_except i f l'
      end
  end.

Definition reconcileSend (s : ThreadState) (clientId : list Z) (entry : ApiEntry) : ThreadState :=
  let archived := entryFromApi entry in
  match find_index (has_client clientId) (ts_entries s) with
  | None => with_entries s (mergeEntries (ts_entries s) [archived])
  | Some index =>
      let next := <[index := with_client clientId archived]> (ts_entries s) in
      with_entries s (sortThread (filter_except index (λ e, negb (same_message archived e)) next))
  end.

Definition failSend (s : ThreadState) (clientId error : list Z) : ThreadState :=
  with_entries s (map (λ e, if has_client clientId e then
    mkTE (te_seq e) (te_dir e) (te_id e) (te_body e) (te_ts e) (te_from e) (te_type e) (te_auto e) (te_by e) (te_agent e)
      (Some (js "failed")) (te_artifactName e) (te_clientId e) (Some error) else e) (ts_entries s)).

Definition dropEntry (s : ThreadState) (clientId : list Z) : ThreadState :=
  with_entries s (filterb (λ e, negb (has_client clientId e)) (ts_entries s)).

Definition lastSeq (s : ThreadState) : Z :=
  fold_left (λ mx e, if mx <? te_seq e then te_seq e else mx) (ts_entries s) 0.
End sort_thread.

(** ** Selection *)

Definition ALTER_KEY : list Z := js "alter".
Definition GROUP_PREFIX : list Z := js "g:".
Definition AGENT_PREFIX : list Z := js "a:".
Definition groupKey (gid : list Z) : list Z := GROUP_PREFIX ++ gid.
Definition agentKey (name : list Z) : list Z := AGENT_PREFIX ++ name.

Definition strip_prefix (p : list Z) (selected : option (list Z)) : option (list Z) :=
  match selected with
  | Some s => if startsWith s p then Some (drop (length p) s) else None
  | None => None
  end.

Definition gidOf : option (list Z) → option (list Z) := strip_prefix GROUP_PREFIX.
Definition agentOf : option (list Z) → option (list Z) := strip_prefix AGENT_PREFIX.

Definition resolveSelection (friends groups agents : list (list Z)) (selected : option (list Z)) : list Z :=
  match selected with
  | None => ALTER_KEY
  | Some s =>
      if jeqb s ALTER_KEY then ALTER_KEY
      else match gidOf selected with
      | Some g => if someb (jeqb g) groups then s else ALTER_KEY
      | None =>
          match agentOf selected with
          | Some a => if someb (jeqb a) agents then s else ALTER_KEY
          | None => if someb (jeqb s) friends then s else ALTER_KEY
          end
      end
  end.

Inductive SelectionKind := KAlter | KFriend | KGroup | KAgent.
Inductive PaneTab := TChat | TAnnounce | THome | TMembers | TAdmin | TInfo | TSettings | TMemory.
#[export] Instance PaneTab_eq_dec : EqDecision PaneTab.
Proof. solve_decision. Defined.
Definition DEFAULT_PANE_TAB : PaneTab := TChat.

Definition kindOf (selected : option (list Z)) : SelectionKind :=
  match selected with
  | None => KAlter
  | Some s =>
      if jeqb s ALTER_KEY then KAlter
      else match gidOf selected with
      | Some _ => KGroup
      | None => match agentOf selected with Some _ => KAgent | None => KFriend end
      end
  end.

Definition tabsFor (k : SelectionKind) (canAdmin : bool) : list PaneTab :=
  match k with
  | KAlter => [TChat; THome; TMemory; TSettings]
  | KFriend => [TChat; THome; TMemory]
  | KGroup => if canAdmin then [TChat; TAnnounce; THome; TMemory; TMembers; TAdmin]
              else [TChat; TAnnounce; THome; TMemory; TMembers]
  | KAgent => [TChat; TMemory; TInfo]
  end.

(** ** Days (the local time zone is the browser's) *)

Class LocalTime := {
  getFullYear : Z → Z; getMonth : Z → Z; getDate : Z → Z; getHours : Z → Z; getMinutes : Z → Z }.

(** [String(n).padStart(2, '0')]. *)
Definition pad2 (n : Z) : list Z := let s := dec n in replicate (2 - length s) 48 ++ s.

Inductive ThreadRow :=
| RowDay (key : list Z) (ts : Z)
| RowEntry (key : list Z) (entry : ThreadEntry).

Section days.
Context `{LocalTime}.

Definition dayKey (ts : Z) : list Z :=
  dec (getFullYear ts) ++ js "-" ++ pad2 (getMonth ts + 1) ++ js "-" ++ pad2 (getDate ts).

Definition row_key (e : ThreadEntry) : list Z :=
  te_clientId e ?? (if 0 <? te_seq e then js "seq:" ++ dec (te_seq e) else js "id:" ++ te_id e).

(** The loop; [lastDay] is its local. *)
Fixpoint day_rows (entries : list ThreadEntry) (lastDay : option (list Z)) : list ThreadRow :=
  match entries with
  | [] => []
  | e :: rest =>
      let day := dayKey (te_ts e) in
      if bool_decide (lastDay = Some day) then RowEntry (row_key e) e :: day_rows rest lastDay
      else RowDay (js "day:" ++ day) (te_ts e) :: RowEntry (row_key e) e :: day_rows rest (Some day)
  end.

Definition withDaySeparators (entries : list ThreadEntry) : list ThreadRow := day_rows entries None.

Definition formatClock (ts : Z) : list Z := pad2 (getHours ts) ++ js ":" ++ pad2 (getMinutes ts).

Definition formatDay (ts now : Z) (today yesterday : list Z) : list Z :=
  let key := dayKey ts in
  if jeqb key (dayKey now) then today
  else if jeqb key (dayKey (now - 24 * 60 * 60 * 1000)) then yesterday
  else
    let md := dec (getMonth ts + 1) ++ js "/" ++ dec (getDate ts) in
    if getFullYear ts =? getFullYear now then md else dec (getFullYear ts) ++ js "/" ++ md.
End days.

(** * Theorems *)

(** ** The thread order *)

Section order.
Context `{LocaleCompare}.

(** The comparator, as the lexicographic order it is. *)
Lemma thread_le_iff a b :
  thread_le a b = true ↔
  (0 < te_seq a ∧ te_seq b <= 0) ∨
  ((0 < te_seq a ↔ 0 < te_seq b) ∧
   ((0 < te_seq a ∧ te_seq a < te_seq b) ∨
    ((0 < te_seq a → te_seq a = te_seq b) ∧
     (te_ts a < te_ts b ∨ (te_ts a = te_ts b ∧ localeCompare (te_id a) (te_id b) <= 0))))).
Proof.
  unfold thread_le. destruct (Z.ltb_spec 0 (te_seq a)), (Z.ltb_spec 0 (te_seq b)); simpl.
  - destruct (Z.eqb_spec (te_seq a) (te_seq b)); simpl.
    + destruct (Z.eqb_spec (te_ts a) (te_ts b)); simpl; rewrite Z.leb_le; lia.
    + rewrite Z.leb_le. lia.
  - split; [|done]. intros _. left. lia.
  - split; [done|]. lia.
  - destruct (Z.eqb_spec (te_ts a) (te_ts b)); simpl; rewrite Z.leb_le; lia.
Qed.

Lemma thread_le_total a b : thread_le a b = true ∨ thread_le b a = true.
Proof.
  rewrite !thread_le_iff. pose proof (localeCompare_anti (te_id b) (te_id a)).
  destruct (Z.le_gt_cases (localeCompare (te_id a) (te_id b)) 0); lia.
Qed.

Lemma thread_le_trans a b c : thread_le a b = true → thread_le b c = true → thread_le a c = true.
Proof.
  rewrite !thread_le_iff. pose proof (localeCompare_trans (te_id a) (te_id b) (te_id c)). lia.
Qed.

Lemma sortThread_sorted l : StronglySorted (le_rel thread_le) (sortThread l).
Proof. apply js_sort_sorted; [apply thread_le_total|apply thread_le_trans]. Qed.

Lemma elem_of_sortThread l e : e ∈ sortThread l ↔ e ∈ l.
Proof. apply elem_of_js_sort. Qed.
End order.

(** ** Merging archive pages *)

(** No two bubbles of a thread are the same message or the same archive line. *)
Definition thread_wf (l : list ThreadEntry) : Prop :=
  NoDup (map te_id l) ∧ NoDup (map te_seq (filterb (λ e, 0 <? te_seq e) l)).

Lemma index_by_spec {K} `{Countable K} (key : ThreadEntry → option K) l k i :
  (∀ i j a b k, l !! i = Some a → l !! j = Some b → key a = Some k → key b = Some k → i = j) →
  index_by key l !! k = Some i ↔ ∃ e, l !! i = Some e ∧ key e = Some k.
Proof.
  revert i. induction l as [|x l IH] using rev_ind; intros i Hinj.
  - unfold index_by. simpl. rewrite lookup_empty. split; [done|]. intros (e & He & _). by rewrite lookup_nil in He.
  - assert (∀ i, index_by key l !! k = Some i ↔ ∃ e, l !! i = Some e ∧ key e = Some k) as IH'.
    { intros i'. apply IH. intros i1 i2 a b k' Ha Hb. apply Hinj; by apply lookup_app_l_Some. }
    unfold index_by in *. rewrite imap_app, foldl_app. simpl. rewrite Nat.add_0_r.
    set (m := foldl _ ∅ (imap pair l)) in *. clearbody m.
    assert ((∃ e, (l ++ [x]) !! i = Some e ∧ key e = Some k) ↔
            (∃ e, l !! i = Some e ∧ key e = Some k) ∨ (i = length l ∧ key x = Some k)) as Hsplit.
    { split.
      - intros (e & [He|[? He]]%lookup_app_Some & Hk); [eauto|].
        apply list_lookup_singleton_Some in He as [? <-]. right. split; [lia|done].
      - intros [(e & He & Hk)|[-> Hk]]; [exists e; split; [by apply lookup_app_l_Some|done]|].
        exists x. split; [by apply list_lookup_middle|done]. }
    rewrite Hsplit, <- IH'. destruct (key x) as [kx|] eqn:Ex; [|naive_solver].
    destruct (decide (kx = k)) as [->|Hne].
    + rewrite lookup_insert_eq. split; [naive_solver|]. intros [Hm|[-> _]]; [|done]. exfalso.
      apply IH' in Hm as (e & He & Hk). apply lookup_lt_Some in He as Hlt.
      assert (i = length l) by (eapply (Hinj i (length l) e x k); [by apply lookup_app_l_Some|by apply list_lookup_middle|done|done]). lia.
    + rewrite lookup_insert_ne by done. naive_solver.
Qed.

Lemma index_snoc {K} `{Countable K} (m : gmap K nat) (l : list ThreadEntry) (P : ThreadEntry → K → Prop) k e :
  (∀ k i, m !! k = Some i ↔ ∃ x, l !! i = Some x ∧ P x k) → m !! k = None → (∀ k', P e k' ↔ k' = k) →
  ∀ k' i, <[k := length l]> m !! k' = Some i ↔ ∃ x, (l ++ [e]) !! i = Some x ∧ P x k'.
Proof.
  intros Hm Hk HP k' i. assert ((∃ x, (l ++ [e]) !! i = Some x ∧ P x k') ↔
    (∃ x, l !! i = Some x ∧ P x k') ∨ (i = length l ∧ P e k')) as ->.
  { split.
    - intros (x & [Hx|[? Hx]]%lookup_app_Some & ?); [eauto|].
      apply list_lookup_singleton_Some in Hx as [? <-]. right. split; [lia|done].
    - intros [(x & Hx & ?)|[-> ?]]; [exists x; split; [by apply lookup_app_l_Some|done]|].
      exists e. split; [by apply list_lookup_middle|done]. }
  rewrite <- Hm, HP. destruct (decide (k = k')) as [<-|Hne].
  - rewrite lookup_insert_eq, Hk. naive_solver.
  - rewrite lookup_insert_ne by done. naive_solver.
Qed.

Section merge.
Context `{LocaleCompare}.
(** The archive: line [n] holds the message [lineId n], each message once. *)
Context (lineId : Z → list Z).
Hypothesis lineId_inj : ∀ m n, 0 < m → 0 < n → lineId m = lineId n → m = n.

Definition archived_ok (e : ThreadEntry) : Prop := 0 < te_seq e → te_id e = lineId (te_seq e).

(** The two index maps agree with the list they index. *)
Record merge_inv (m : MergeState) : Prop := {
  mi_ok : ∀ e, e ∈ ms_next m → archived_ok e;
  mi_id : ∀ x i, ms_byId m !! x = Some i ↔ ∃ e, ms_next m !! i = Some e ∧ te_id e = x;
  mi_seq : ∀ q i, ms_bySeq m !! q = Some i ↔ ∃ e, ms_next m !! i = Some e ∧ te_seq e = q ∧ 0 < q;
}.

Lemma merge_inv_wf m : merge_inv m → thread_wf (ms_next m).
Proof.
  intros [Hok Hid Hseq].
  assert (∀ i j a b, ms_next m !! i = Some a → ms_next m !! j = Some b → te_id a = te_id b → i = j) as Hinj.
  { intros i j a b Ha Hb Heq. assert (ms_byId m !! te_id a = Some i) by (apply Hid; eauto).
    assert (ms_byId m !! te_id a = Some j) by (apply Hid; eauto). congruence. }
  assert (NoDup (map te_id (ms_next m))) as Hnd.
  { apply NoDup_alt. intros i j x. change (map te_id (ms_next m)) with (te_id <$> ms_next m).
    rewrite !list_lookup_fmap. intros (a & Ha & ->)%fmap_Some_1 Hb. apply fmap_Some in Hb as (b & Hb & Heq). eauto. }
  split; [done|]. clear Hid Hseq Hinj. induction (ms_next m) as [|e l IH]; simpl in *; [constructor|].
  apply NoDup_cons in Hnd as [He Hnd]. assert (NoDup (map te_seq (filterb (λ e, 0 <? te_seq e) l))) as HIH.
  { apply IH; [|done]. intros x Hx. apply Hok. by right. }
  destruct (Z.ltb_spec 0 (te_seq e)); simpl; [|done]. constructor; [|done]. intros Hin.
  apply list_elem_of_In, in_map_iff in Hin as (x & Hx & Hl). apply list_elem_of_In, elem_of_filterb in Hl as [Hl _].
  apply He. apply list_elem_of_In, in_map_iff. exists x. split; [|by apply list_elem_of_In].
  rewrite (Hok e), (Hok x); [by f_equal|by right|lia|by left|lia].
Qed.

Lemma index_entries_inv l :
  thread_wf l → (∀ e, e ∈ l → archived_ok e) → merge_inv (index_entries l).
Proof.
  intros [Hid Hseq] Hok. constructor; simpl; [done|..].
  - intros x i. rewrite index_by_spec; [unfold id_key; naive_solver|].
    intros i1 i2 a b k Ha Hb [= <-] [= Heq].
    apply (NoDup_lookup (te_id <$> l) i1 i2 (te_id a)); [done|..]; rewrite list_lookup_fmap; [by rewrite Ha|rewrite Hb; simpl; by f_equal].
  - intros q i. rewrite index_by_spec.
    + unfold seq_key. split; intros (e & He & Hq); exists e; (split; [done|]);
        destruct (Z.ltb_spec 0 (te_seq e)); naive_solver lia.
    + intros i1 i2 a b k Ha Hb Hka Hkb. unfold seq_key in *.
      destruct (Z.ltb_spec 0 (te_seq a)), (Z.ltb_spec 0 (te_seq b)); try done. simplify_eq.
      assert (te_id a = te_id b) as Heq.
      { rewrite (Hok a), (Hok b); [by f_equal|by eapply list_elem_of_lookup_2|lia|by eapply list_elem_of_lookup_2|lia]. }
      apply (NoDup_lookup (te_id <$> l) i1 i2 (te_id a)); [done|..]; rewrite list_lookup_fmap; [by rewrite Ha|rewrite Hb; simpl; by f_equal].
Qed.

(** Replacing the entry at [i] by one with the same id. *)
Lemma merge_inv_replace m i p e :
  merge_inv m → ms_next m !! i = Some p → te_id p = te_id e → 0 < te_seq e → archived_ok e →
  (0 < te_seq p → te_seq p = te_seq e) →
  merge_inv (mkMS (<[i := merge_entry p e]> (ms_next m)) (<[te_seq e := i]> (ms_bySeq m)) (<[te_id e := i]> (ms_byId m))).
Proof.
  intros [Hok HI HS] Hp Hid Hpos Hoke Hseq. pose proof (lookup_lt_Some _ _ _ Hp) as Hlt.
  assert (∀ j, j ≠ i → <[i := merge_entry p e]> (ms_next m) !! j = ms_next m !! j) as Hne
    by (intros j Hj; by rewrite list_lookup_insert_ne).
  assert (<[i := merge_entry p e]> (ms_next m) !! i = Some (merge_entry p e)) as Hi by by apply list_lookup_insert_eq.
  constructor; simpl.
  - intros x [j Hj]%list_elem_of_lookup. destruct (decide (j = i)) as [->|Hji].
    + rewrite Hi in Hj. injection Hj as <-. done.
    + rewrite Hne in Hj by done. apply Hok. by eapply list_elem_of_lookup_2.
  - intros x j. destruct (decide (te_id e = x)) as [<-|Hx].
    + rewrite lookup_insert_eq. split.
      * intros [= <-]. rewrite Hi. by exists (merge_entry p e).
      * intros (e' & Hj & He'). destruct (decide (j = i)) as [->|Hji]; [done|]. exfalso. rewrite Hne in Hj by done.
        assert (ms_byId m !! te_id e = Some i) as H1 by (apply HI; eauto).
        assert (ms_byId m !! te_id e = Some j) as H2 by (apply HI; eauto). congruence.
    + rewrite lookup_insert_ne by done. rewrite HI. split; intros (e' & Hj & He').
      * exists e'. split; [|done]. rewrite Hne; [done|]. intros ->. congruence.
      * destruct (decide (j = i)) as [->|Hji]; [rewrite Hi in Hj; injection Hj as <-; done|].
        rewrite Hne in Hj by done. eauto.
  - intros q j. destruct (decide (te_seq e = q)) as [<-|Hq].
    + rewrite lookup_insert_eq. split.
      * intros [= <-]. rewrite Hi. by exists (merge_entry p e).
      * intros (e' & Hj & He' & _). destruct (decide (j = i)) as [->|Hji]; [done|]. exfalso. rewrite Hne in Hj by done.
        assert (te_id e' = te_id e) as Heq.
        { rewrite (Hok e'), Hoke; [by f_equal|done|by eapply list_elem_of_lookup_2|lia]. }
        assert (ms_byId m !! te_id e = Some i) as H1 by (apply HI; eauto).
        assert (ms_byId m !! te_id e = Some j) as H2 by (apply HI; eauto). congruence.
    + rewrite lookup_insert_ne by done. rewrite HS. split; intros (e' & Hj & He' & Hq').
      * exists e'. split; [|done]. rewrite Hne; [done|]. intros ->. assert (e' = p) by congruence. subst. lia.
      * destruct (decide (j = i)) as [->|Hji]; [rewrite Hi in Hj; injection Hj as <-; done|].
        rewrite Hne in Hj by done. eauto.
Qed.

Lemma merge_inv_push m e :
  merge_inv m → 0 < te_seq e → archived_ok e → ms_byId m !! te_id e = None → ms_bySeq m !! te_seq e = None →
  merge_inv (mkMS (ms_next m ++ [e]) (<[te_seq e := length (ms_next m)]> (ms_bySeq m)) (<[te_id e := length (ms_next m)]> (ms_byId m))).
Proof.
  intros [Hok HI HS] Hpos Hoke Hni Hns. constructor; simpl.
  - intros x. rewrite elem_of_app, list_elem_of_singleton. intros [?| ->]; auto.
  - apply (index_snoc (ms_byId m) (ms_next m) (λ e x, te_id e = x)); [done..|naive_solver].
  - apply (index_snoc (ms_bySeq m) (ms_next m) (λ e q, te_seq e = q ∧ 0 < q)); [done..|naive_solver].
Qed.

(** [y] is still in the list: same message, same React key, same line. *)
Definition kept (l : list ThreadEntry) (y : ThreadEntry) : Prop :=
  ∃ z, z ∈ l ∧ te_id z = te_id y ∧ (∀ c, te_clientId y = Some c → te_clientId z = Some c) ∧
       (0 < te_seq y → te_seq z = te_seq y).

Lemma merge_step_replace m e i p :
  merge_inv m → ms_next m !! i = Some p → te_id p = te_id e → (0 < te_seq p → te_seq p = te_seq e) →
  let l := <[i := merge_entry p e]> (ms_next m) in
  (∀ y, y ∈ ms_next m → kept l y) ∧ ∃ y, y ∈ l ∧ te_id y = te_id e ∧ te_seq y = te_seq e.
Proof.
  intros [Hok HI HS] Hp Hid Hseq l. assert (l !! i = Some (merge_entry p e)) as Hi.
  { apply list_lookup_insert_eq. by eapply lookup_lt_Some. }
  split.
  - intros y [j Hj]%list_elem_of_lookup. destruct (decide (j = i)) as [->|Hji].
    + assert (y = p) as -> by congruence. exists (merge_entry p e). split_and!; [by eapply list_elem_of_lookup_2|done|..].
      * intros c Hc. simpl. by rewrite Hc.
      * intros Hpos. simpl. symmetry. auto.
    + exists y. split_and!; [|done..]. apply (list_elem_of_lookup_2 _ j). unfold l. by rewrite list_lookup_insert_ne.
  - exists (merge_entry p e). split; [by eapply list_elem_of_lookup_2|done].
Qed.

Lemma merge_step_inv m e :
  merge_inv m → 0 < te_seq e → archived_ok e →
  merge_inv (merge_step m e) ∧ (∀ y, y ∈ ms_next m → kept (ms_next (merge_step m e)) y) ∧
  ∃ y, y ∈ ms_next (merge_step m e) ∧ te_id y = te_id e ∧ te_seq y = te_seq e.
Proof.
  intros Hinv Hpos Hoke. pose proof Hinv as [Hok HI HS].
  assert (∀ i p, ms_next m !! i = Some p → te_id p = te_id e → (0 < te_seq p → te_seq p = te_seq e)) as Hline.
  { intros i p Hp Hid Hpp. apply lineId_inj; [done..|]. rewrite <- (Hok p), <- Hoke; [done..|by eapply list_elem_of_lookup_2|done]. }
  unfold merge_step. rewrite (proj2 (Z.ltb_lt _ _) Hpos).
  assert (∀ i, (ms_bySeq m !! te_seq e = Some i ∨ ms_byId m !! te_id e = Some i) →
               ∃ p, ms_next m !! i = Some p ∧ te_id p = te_id e) as Hfound.
  { intros i [(p & Hp & Hq & _)%HS|(p & Hp & Hx)%HI]; exists p; (split; [done|]); [|done].
    rewrite (Hok p), Hoke; [by f_equal|done|by eapply list_elem_of_lookup_2|lia]. }
  destruct (match ms_bySeq m !! te_seq e with Some i => Some i | None => ms_byId m !! te_id e end) as [i|] eqn:Ei.
  - destruct (Hfound i) as (p & Hp & Hid); [destruct (ms_bySeq m !! te_seq e); naive_solver|].
    rewrite Hp. cbn [te_id te_seq merge_entry]. rewrite (proj2 (Z.ltb_lt _ _) Hpos), Hid, jeqb_refl. cbn [ms_next].
    split; [apply merge_inv_replace; eauto|]. apply (merge_step_replace m e i p); eauto.
  - destruct (ms_bySeq m !! te_seq e) eqn:Es; [done|]. cbn [ms_next]. split; [by apply merge_inv_push|]. split.
    + intros y Hy. exists y. split; [apply elem_of_app; by left|done].
    + exists e. split; [apply elem_of_app; right; by left|done].
Qed.

Lemma kept_trans l l' y : kept l y → (∀ z, z ∈ l → kept l' z) → kept l' y.
Proof.
  intros (z & Hz & Hid & Hc & Hs) Hl. destruct (Hl z Hz) as (z' & Hz' & Hid' & Hc' & Hs').
  exists z'. split_and!; [done|congruence|auto|]. intros Hpos. rewrite Hs'; [auto|]. rewrite Hs; done.
Qed.

Lemma merge_fold_inv incoming m :
  merge_inv m → (∀ e, e ∈ incoming → 0 < te_seq e ∧ archived_ok e) →
  let m' := foldl merge_step m incoming in
  merge_inv m' ∧ (∀ y, y ∈ ms_next m → kept (ms_next m') y) ∧
  (∀ e, e ∈ incoming → ∃ y, y ∈ ms_next m' ∧ te_id y = te_id e ∧ te_seq y = te_seq e).
Proof.
  revert m. induction incoming as [|e incoming IH]; intros m Hinv Hall; simpl.
  - split_and!; [done| |set_solver]. intros y Hy. by exists y.
  - destruct (Hall e) as [Hpos Hoke]; [by left|]. destruct (merge_step_inv m e Hinv Hpos Hoke) as (Hinv1 & Hk1 & Hrep1).
    destruct (IH (merge_step m e) Hinv1) as (Hinv2 & Hk2 & Hrep2); [intros x Hx; apply Hall; by right|].
    split_and!; [done| |].
    + intros y Hy. by eapply kept_trans; [apply Hk1|].
    + intros x [->|Hx]%elem_of_cons; [|by apply Hrep2]. destruct Hrep1 as (y & Hy & Hid & Hs).
      destruct (Hk2 y Hy) as (z & Hz & Hid' & _ & Hs'). exists z. split_and!; [done|congruence|]. rewrite Hs'; lia.
Qed.

(** Folding an archive page into a thread is lossless and duplicate-free:
    if the archive numbers each message once, the result is sorted (archived
    lines by number, unsent bubbles last), has no message and no line twice,
    holds every line of the page, and keeps every loaded bubble under the same
    React key and, if archived, at the same line. *)
Theorem mergeEntries_archive (existing incoming : list ThreadEntry)
    (Hwf : thread_wf existing) (Hok : ∀ e, e ∈ existing → archived_ok e)
    (Hin : ∀ e, e ∈ incoming → 0 < te_seq e ∧ archived_ok e) :
  let result := mergeEntries existing incoming in
  thread_wf result ∧ StronglySorted (le_rel thread_le) result ∧
  (∀ e, e ∈ incoming → ∃ y, y ∈ result ∧ te_id y = te_id e ∧ te_seq y = te_seq e) ∧
  (∀ y, y ∈ existing → kept result y).
Proof.
  intros result. pose proof (index_entries_inv existing Hwf Hok) as Hinv.
  destruct (merge_fold_inv incoming _ Hinv Hin) as (Hinv' & Hk & Hrep).
  set (m' := foldl merge_step (index_entries existing) incoming) in *.
  assert (Permutation result (ms_next m')) as Hp by apply js_sort_perm.
  split_and!.
  - destruct (merge_inv_wf m' Hinv') as [H1 H2]. split.
    + assert (Permutation (map te_id result) (map te_id (ms_next m'))) as Hpi by by rewrite Hp. by rewrite Hpi.
    + assert (Permutation (map te_seq (filterb (λ e, 0 <? te_seq e) result))
                (map te_seq (filterb (λ e, 0 <? te_seq e) (ms_next m')))) as Hps.
      { apply Permutation_map, filterb_permutation, Hp. }
      by rewrite Hps.
  - apply sortThread_sorted.
  - intros e He. destruct (Hrep e He) as (y & Hy & ?). exists y. split; [by rewrite Hp|done].
  - intros y Hy. destruct (Hk y Hy) as (z & Hz & ?). exists z. split; [by rewrite Hp|done].
Qed.
End merge.

(** A collation (by length) that satisfies the contract. *)
Definition ByLength : LocaleCompare.
Proof.
  refine {| localeCompare := λ a b, Z.of_nat (length a) - Z.of_nat (length b) |}; intros; lia.
Defined.

Definition sample_entry (seq : Z) (id : list Z) (client : option (list Z)) : ThreadEntry :=
  mkTE seq dir_out id (js "hi") 5 None None None None None None None client None.

Lemma mergeEntries_archive_witness :
  let lineId := λ n : Z, [n] in
  let existing := [sample_entry 0 [2] (Some (js "c1"))] in
  let incoming := [sample_entry 1 [1] None; sample_entry 2 [2] None] in
  map te_id (@mergeEntries ByLength existing incoming) = [[1]; [2]] ∧
  kept (@mergeEntries ByLength existing incoming) (sample_entry 0 [2] (Some (js "c1"))).
Proof.
  intros lineId existing incoming. split; [vm_compute; reflexivity|].
  apply (@mergeEntries_archive ByLength lineId).
  - intros m n _ _ [= ->]. done.
  - split; [apply NoDup_singleton|constructor].
  - intros e ->%list_elem_of_singleton. intros Hpos. simpl in Hpos. lia.
  - intros e. unfold incoming. rewrite !elem_of_cons, elem_of_nil.
    intros [->|[->|[]]]; (split; [simpl; lia|intros _; vm_compute; reflexivity]).
  - by left.
Defined.

(** ** Reconciling a send *)

Section reconcile.
Context `{LocaleCompare}.

Lemma find_index_lookup f l i : find_index f l = Some i → ∃ e, l !! i = Some e ∧ f e = true.
Proof.
  revert i. induction l as [|e l IH]; intros i; simpl; [done|]. destruct (f e) eqn:E.
  - intros [= <-]. by exists e.
  - intros Hi. apply fmap_Some in Hi as (j & Hj & ->). by apply IH.
Qed.

(** The filter keeps the entry at [index] and what passes the test. *)
Lemma filterb_filter_except index f g l x :
  l !! index = Some x → g x = true → (∀ e, f e = true → g e = false) →
  filterb g (filter_except index f l) = [x].
Proof.
  revert index. induction l as [|e l IH]; intros [|i] Hx Hgx Hfg; simpl in *; simplify_eq; try done.
  - rewrite Hgx. f_equal. clear IH Hgx. induction l as [|y l IH]; simpl; [done|].
    destruct (f y) eqn:Ey; simpl; [|done]. by rewrite (Hfg y Ey).
  - destruct (f e) eqn:Ee; simpl; [rewrite (Hfg e Ee)|]; by apply IH.
Qed.

Lemma elem_of_filter_except index f l e :
  e ∈ l → f e = true → e ∈ filter_except index f l.
Proof.
  revert index. induction l as [|x l IH]; intros [|i]; simpl; [set_solver..| |];
    rewrite elem_of_cons; intros [->|Hin] Hf.
  - by left.
  - right. apply elem_of_filterb. done.
  - rewrite Hf. by left.
  - destruct (f x); [right|]; by apply IH.
Qed.

(** When the host acknowledges a send, exactly one bubble stands for that
    message afterwards, at its archive line and under the bubble's own key, even
    if an [outbound] frame for it had raced in; bubbles of other messages stay. *)
Theorem reconcileSend_unique (s : ThreadState) (clientId : list Z) (entry : ApiEntry)
    (Hbubble : ∃ e, e ∈ ts_entries s ∧ te_clientId e = Some clientId) :
  let archived := entryFromApi entry in
  let after := ts_entries (reconcileSend s clientId entry) in
  filterb (same_message archived) after = [with_client clientId archived] ∧
  (∀ e, e ∈ ts_entries s → te_clientId e ≠ Some clientId → same_message archived e = false → e ∈ after).
Proof.
  intros archived after. unfold after, reconcileSend. fold archived.
  destruct (find_index (has_client clientId) (ts_entries s)) as [i|] eqn:Ei.
  - destruct (find_index_lookup _ _ _ Ei) as (b & Hb & Hc). pose proof (lookup_lt_Some _ _ _ Hb) as Hlt.
    cbn [ts_entries with_entries]. split.
    + unfold sortThread. rewrite filterb_js_sort by (apply thread_le_total || apply thread_le_trans).
      rewrite (filterb_filter_except i _ _ _ (with_client clientId archived)); [done|by apply list_lookup_insert_eq| |].
      * unfold same_message. simpl. by rewrite jeqb_refl, orb_true_r.
      * intros e. apply negb_true_iff.
    + intros e He Hne Hs. apply elem_of_sortThread, elem_of_filter_except; [|by rewrite Hs].
      apply list_elem_of_lookup in He as [j Hj]. apply (list_elem_of_lookup_2 _ j).
      rewrite list_lookup_insert_ne; [done|]. intros ->. assert (e = b) as -> by congruence.
      apply Hne. unfold has_client in Hc. by apply bool_decide_eq_true in Hc.
  - exfalso. destruct Hbubble as (e & He & Hc). clear -Ei He Hc.
    induction (ts_entries s) as [|x l IH]; [set_solver|]. simpl in Ei. unfold has_client at 1 in Ei.
    case_bool_decide as Hx; [done|]. destruct (find_index (has_client clientId) l) eqn:E; [done|].
    apply elem_of_cons in He as [->|He]; [done|]. by apply IH.
Qed.

(** A live frame that carries no line number demotes the archived bubble
    of the same message to an unsent one: its line number becomes 0, so it sorts
    after every archived line and the read cursor can go back. *)
Theorem applyInbound_demotes (s : ThreadState) (e : ThreadEntry) (m : InboundFrame)
    (Honly : ts_entries s = [e]) (Hseq : 0 < te_seq e) (Hsame : if_id m = te_id e) (Hnoseq : if_seq m = None) :
  lastSeq s = te_seq e ∧ lastSeq (applyInbound s m) = 0.
Proof.
  split; [unfold lastSeq; rewrite Honly; simpl; by rewrite (proj2 (Z.ltb_lt _ _) Hseq)|].
  unfold applyInbound, mergeEntries, lastSeq. rewrite Honly. cbn [foldl].
  unfold merge_step, entry_of_frame. rewrite Hnoseq. cbn [te_seq nullish te_id]. rewrite Hsame.
  unfold index_entries, index_by. cbn [imap foldl id_key te_id ms_byId ms_next].
  rewrite lookup_insert_eq. cbn [lookup list_lookup]. done.
Qed.
End reconcile.

Lemma reconcileSend_unique_witness :
  let s := addOptimistic EMPTY_THREAD (js "c1") (js "hi") 5 in
  let ack := mkAE 7 dir_out (js "m7") (js "hi") 6 None None None None None None None in
  (∃ e, e ∈ ts_entries s ∧ te_clientId e = Some (js "c1")) ∧
  filterb (same_message (entryFromApi ack)) (ts_entries (@reconcileSend ByLength s (js "c1") ack)) =
    [with_client (js "c1") (entryFromApi ack)].
Proof.
  intros s ack. assert (∃ e, e ∈ ts_entries s ∧ te_clientId e = Some (js "c1")) as Hb
    by (exists (optimistic (js "c1") (js "hi") 5); split; [by left|done]).
  split; [exact Hb|]. by apply (@reconcileSend_unique ByLength s (js "c1") ack).
Defined.

Lemma applyInbound_demotes_witness :
  let s := mkTS [sample_entry 7 (js "m7") None] 50 true false true None in
  let m := mkIn (js "m7") None (js "hi") 6 None None None None None None in
  lastSeq s = 7 ∧ lastSeq (@applyInbound ByLength s m) = 0.
Proof. intros s m. apply (@applyInbound_demotes ByLength s (sample_entry 7 (js "m7") None) m); reflexivity. Defined.

(** ** Selection and separators *)

(** The page never shows a stale selection: it resolves to the alter, or
    to a friend, group or agent that still exists and of the kind the key says;
    and a group or agent key always gives back the id it was built from. *)
Theorem resolveSelection_exists (friends groups agents : list (list Z)) (selected : option (list Z)) :
  let r := resolveSelection friends groups agents selected in
  (r = ALTER_KEY ∨
   match kindOf (Some r) with
   | KAlter => False
   | KGroup => ∃ g, gidOf (Some r) = Some g ∧ g ∈ groups
   | KAgent => ∃ a, agentOf (Some r) = Some a ∧ a ∈ agents
   | KFriend => r ∈ friends
   end) ∧
  (∀ g, gidOf (Some (groupKey g)) = Some g ∧ kindOf (Some (groupKey g)) = KGroup) ∧
  (∀ a, agentOf (Some (agentKey a)) = Some a ∧ kindOf (Some (agentKey a)) = KAgent).
Proof.
  intros r. assert (∀ x l, someb (jeqb x) l = true → x ∈ l) as Hsome.
  { intros x l (y & Hy & E%jeqb_eq)%someb_true. by subst. }
  split_and!; [|intros g; split; [by unfold gidOf; simpl; rewrite drop_0|done]
               |intros a; split; [by unfold agentOf; simpl; rewrite drop_0|done]].
  unfold r, resolveSelection. destruct selected as [s|]; [|by left].
  destruct (jeqb s ALTER_KEY) eqn:Ea; [by left|].
  destruct (gidOf (Some s)) as [g|] eqn:Eg.
  - destruct (someb (jeqb g) groups) eqn:E; [|by left]. right. unfold kindOf. rewrite Ea, Eg. eauto.
  - destruct (agentOf (Some s)) as [a|] eqn:Eag.
    + destruct (someb (jeqb a) agents) eqn:E; [|by left]. right. unfold kindOf. rewrite Ea, Eg, Eag. eauto.
    + destruct (someb (jeqb s) friends) eqn:E; [|by left]. right. unfold kindOf. rewrite Ea, Eg, Eag. auto.
Qed.

Definition row_entry (r : ThreadRow) : option ThreadEntry := match r with RowEntry _ e => Some e | RowDay _ _ => None end.

Lemma day_rows_entries `{LocalTime} entries d : omap row_entry (day_rows entries d) = entries.
Proof. revert d. induction entries as [|e l IH]; intros d; simpl; [done|]. case_bool_decide; simpl; by rewrite IH. Qed.
