(* ===== verification/PageStore.v ===== *)
(** * The page's store (client/page-store.ts)

    [PageStore] holds the selection, the threads and the alter's transcript of
    the SoulMirror page.  Every request is two steps: the call that starts it,
    which leaves a [Call] outstanding, and the answer, which may come any time
    later or never.  Timers are flags and steps that fire them.  The folds of
    a thread are those of PageState. *)

From S2P Require Import Prelude JsString JsMap JsSort Json Policy AlterChat PageState.
#[local] Open Scope Z_scope.

(** ** State *)

Inductive Col2Tab := TabMessages | TabContacts.
#[export] Instance Col2Tab_eq_dec : EqDecision Col2Tab.
Proof. solve_decision. Defined.

Record AlterView := mkView {
  av_sessionId : option (list Z); av_running : bool; av_chat : AlterChat; av_loading : bool; av_loaded : bool; av_instructing : bool;
  av_error : option (list Z) }.
Definition EMPTY_ALTER : AlterView := mkView None false (mkChat [] false 0) false false false None.

Record Nav := mkNav { nv_open : bool; nv_selected : option (list Z); nv_col2 : Col2Tab; nv_pane : PaneTab }.

(** Requests that have not been answered. *)
Inductive Call :=
| CHistory
| CInstruct
| CDecide (id : list Z)
| CThread (key : list Z) (size : Z)
| CSend (key clientId : list Z).
#[export] Instance Call_eq_dec : EqDecision Call.
Proof. solve_decision. Defined.

Record Page := mkPage {
  pg_nav : Nav;
  pg_threads : list (list Z * ThreadState);
  pg_alter : AlterView;
  pg_deciding : list (list Z);
  pg_inflight : list (list Z);               (** [inflightThreads] *)
  pg_sentAt : list (list Z * Z);             (** [typingSentAt] *)
  pg_idle : list (list Z);                   (** armed [typingIdle] timers *)
  pg_historyDue : bool;                      (** [historyTimer] is set *)
  pg_historyAgain : bool;
  pg_persistDue : bool;
  pg_stored : option json;                   (** localStorage *)
  pg_seq : Z;
  pg_calls : list Call;
  pg_fetches : nat;                          (** transcript requests made so far *)
  pg_typed : list (list Z * bool);           (** [api.typing] calls, oldest first *)
  pg_outbound : list (list Z * ApiEntry);    (** [networkStore.applyOutbound] *)
  pg_refreshes : nat }.                      (** [networkStore.refresh] *)

(** [set]: replace parts of the snapshot; every change arms the persist timer. *)
Definition set_nav (n : Nav) (s : Page) : Page :=
  mkPage n (pg_threads s) (pg_alter s) (pg_deciding s) (pg_inflight s) (pg_sentAt s) (pg_idle s) (pg_historyDue s) (pg_historyAgain s) true
    (pg_stored s) (pg_seq s) (pg_calls s) (pg_fetches s) (pg_typed s) (pg_outbound s) (pg_refreshes s).
Definition set_threads (t : list (list Z * ThreadState)) (s : Page) : Page :=
  mkPage (pg_nav s) t (pg_alter s) (pg_deciding s) (pg_inflight s) (pg_sentAt s) (pg_idle s) (pg_historyDue s) (pg_historyAgain s) true
    (pg_stored s) (pg_seq s) (pg_calls s) (pg_fetches s) (pg_typed s) (pg_outbound s) (pg_refreshes s).
Definition set_view (v : AlterView) (s : Page) : Page :=
  mkPage (pg_nav s) (pg_threads s) v (pg_deciding s) (pg_inflight s) (pg_sentAt s) (pg_idle s) (pg_historyDue s) (pg_historyAgain s) true
    (pg_stored s) (pg_seq s) (pg_calls s) (pg_fetches s) (pg_typed s) (pg_outbound s) (pg_refreshes s).
Definition set_deciding (d : list (list Z)) (s : Page) : Page :=
  mkPage (pg_nav s) (pg_threads s) (pg_alter s) d (pg_inflight s) (pg_sentAt s) (pg_idle s) (pg_historyDue s) (pg_historyAgain s) true
    (pg_stored s) (pg_seq s) (pg_calls s) (pg_fetches s) (pg_typed s) (pg_outbound s) (pg_refreshes s).
(** The private fields. *)
Definition with_inflight (i : list (list Z)) (s : Page) : Page :=
  mkPage (pg_nav s) (pg_threads s) (pg_alter s) (pg_deciding s) i (pg_sentAt s) (pg_idle s) (pg_historyDue s) (pg_historyAgain s) (pg_persistDue s)
    (pg_stored s) (pg_seq s) (pg_calls s) (pg_fetches s) (pg_typed s) (pg_outbound s) (pg_refreshes s).
Definition with_typing (a : list (list Z * Z)) (i : list (list Z)) (l : list (list Z * bool)) (s : Page) : Page :=
  mkPage (pg_nav s) (pg_threads s) (pg_alter s) (pg_deciding s) (pg_inflight s) a i (pg_historyDue s) (pg_historyAgain s) (pg_persistDue s)
    (pg_stored s) (pg_seq s) (pg_calls s) (pg_fetches s) l (pg_outbound s) (pg_refreshes s).
Definition with_history (due again : bool) (s : Page) : Page :=
  mkPage (pg_nav s) (pg_threads s) (pg_alter s) (pg_deciding s) (pg_inflight s) (pg_sentAt s) (pg_idle s) due again (pg_persistDue s)
    (pg_stored s) (pg_seq s) (pg_calls s) (pg_fetches s) (pg_typed s) (pg_outbound s) (pg_refreshes s).
Definition with_storage (due : bool) (j : option json) (s : Page) : Page :=
  mkPage (pg_nav s) (pg_threads s) (pg_alter s) (pg_deciding s) (pg_inflight s) (pg_sentAt s) (pg_idle s) (pg_historyDue s) (pg_historyAgain s) due
    j (pg_seq s) (pg_calls s) (pg_fetches s) (pg_typed s) (pg_outbound s) (pg_refreshes s).
Definition with_calls (q : Z) (c : list Call) (n : nat) (s : Page) : Page :=
  mkPage (pg_nav s) (pg_threads s) (pg_alter s) (pg_deciding s) (pg_inflight s) (pg_sentAt s) (pg_idle s) (pg_historyDue s) (pg_historyAgain s) (pg_persistDue s)
    (pg_stored s) q c n (pg_typed s) (pg_outbound s) (pg_refreshes s).
Definition with_network (o : list (list Z * ApiEntry)) (n : nat) (s : Page) : Page :=
  mkPage (pg_nav s) (pg_threads s) (pg_alter s) (pg_deciding s) (pg_inflight s) (pg_sentAt s) (pg_idle s) (pg_historyDue s) (pg_historyAgain s) (pg_persistDue s)
    (pg_stored s) (pg_seq s) (pg_calls s) (pg_fetches s) (pg_typed s) o n.

Definition request (c : Call) (s : Page) : Page := with_calls (pg_seq s) (pg_calls s ++ [c]) (pg_fetches s) s.
(** The answer of [c] arrives: it is outstanding no more. *)
Definition answered (c : Call) (s : Page) : Page := with_calls (pg_seq s) (filterb (λ x, negb (bool_decide (x = c))) (pg_calls s)) (pg_fetches s) s.

(** ** Navigation and its persistence *)

Definition pane_str (t : PaneTab) : list Z :=
  match t with
  | TChat => js "chat" | TAnnounce => js "announce" | THome => js "home" | TMembers => js "members" | TAdmin => js "admin"
  | TInfo => js "info" | TMemory => js "memory" | TSettings => js "settings"
  end.
Definition PANE_TABS : list PaneTab := [TChat; TAnnounce; THome; TMembers; TAdmin; TInfo; TMemory; TSettings].
Definition col2_str (t : Col2Tab) : list Z := match t with TabMessages => js "messages" | TabContacts => js "contacts" end.

Definition clampPaneTab (tab : option json) (selected : option (list Z)) : PaneTab :=
  match findb (λ t, is_str tab (pane_str t)) PANE_TABS with
  | Some t => if bool_decide (t ∈ tabsFor (kindOf selected) false) then t else DEFAULT_PANE_TAB
  | None => DEFAULT_PANE_TAB
  end.
Definition HOME : Nav := mkNav false None TabMessages DEFAULT_PANE_TAB.
(** [loadPersistedPage]: [None] when nothing is stored or it does not parse; a stored [null] throws. *)
Definition loadPersistedPage (raw : option json) : Nav :=
  match raw with
  | None | Some JNull => HOME
  | Some p =>
      let selected := as_string (get p (js "selected")) in
      mkNav (is_true (get p (js "open"))) selected
        (if is_str (get p (js "col2Tab")) (js "contacts") then TabContacts else TabMessages)
        (clampPaneTab (get p (js "paneTab")) selected)
  end.
Definition persist (n : Nav) : json :=
  JObj ([(js "open", JBool (nv_open n))] ++ opt_prop (js "selected") JStr (nv_selected n)
    ++ [(js "col2Tab", JStr (col2_str (nv_col2 n))); (js "paneTab", JStr (pane_str (nv_pane n)))]).
Definition persist_fires (s : Page) : Page := if pg_persistDue s then with_storage false (Some (persist (pg_nav s))) s else s.

Definition new_page (stored : option json) : Page :=
  mkPage (loadPersistedPage stored) [] EMPTY_ALTER [] [] [] [] false false false stored 0 [] 0 [] [] 0.

Section store.
Context `{LocaleCompare} (base36 : Z → list Z).

Definition thread (s : Page) (key : list Z) : ThreadState := map_get (pg_threads s) key ?? EMPTY_THREAD.
Definition setThread (key : list Z) (t : ThreadState) (s : Page) : Page := set_threads (map_set (pg_threads s) key t) s.
(** Change a thread that is cached. *)
Definition patchThread (key : list Z) (f : ThreadState → ThreadState) (s : Page) : Page :=
  match map_get (pg_threads s) key with Some t => setThread key (f t) s | None => s end.

(** ** The transcript *)

Definition view_loading (b : bool) (v : AlterView) : AlterView :=
  mkView (av_sessionId v) (av_running v) (av_chat v) b (av_loaded v) (av_instructing v) (av_error v).
Definition start_history (s : Page) : Page :=
  let s1 := set_view (view_loading true (pg_alter s)) s in
  with_calls (pg_seq s1) (pg_calls s1 ++ [CHistory]) (pg_fetches s1 + 1) s1.
Definition loadAlter (s : Page) : Page :=
  if av_loading (pg_alter s) then with_history (pg_historyDue s) true s else start_history s.
Definition history_view (r : list Z + option (list Z) * bool * AlterChat) (v : AlterView) : AlterView :=
  match r with
  | inl e => mkView (av_sessionId v) (av_running v) (av_chat v) false true (av_instructing v) (Some e)
  | inr (sid, running, chat) => mkView sid running chat false true (av_instructing v) None
  end.
Definition history_answer (r : list Z + option (list Z) * bool * AlterChat) (s : Page) : Page :=
  if negb (bool_decide (CHistory ∈ pg_calls s)) then s
  else
    let s1 := set_view (history_view r (pg_alter s)) (answered CHistory s) in
    if pg_historyAgain s1 then loadAlter (with_history (pg_historyDue s1) false s1) else s1.
Definition scheduleHistory (s : Page) : Page := with_history true (pg_historyAgain s) s.
Definition history_fires (s : Page) : Page := if pg_historyDue s then loadAlter (with_history false (pg_historyAgain s) s) else s.

Definition instruct (text : list Z) (s : Page) : Page :=
  if jeqb (trimEnd text) [] then s
  else
    let v := pg_alter s in
    request CInstruct (set_view (mkView (av_sessionId v) (av_running v) (av_chat v) (av_loading v) (av_loaded v) true None) s).
Definition instruct_answer (err : option (list Z)) (s : Page) : Page :=
  if negb (bool_decide (CInstruct ∈ pg_calls s)) then s
  else
    let s1 := answered CInstruct s in
    let v := pg_alter s1 in
    match err with
    | None => scheduleHistory (set_view (mkView (av_sessionId v) (av_running v) (av_chat v) (av_loading v) true false (av_error v)) s1)
    | Some e => set_view (mkView (av_sessionId v) (av_running v) (av_chat v) (av_loading v) (av_loaded v) false (Some e)) s1
    end.

(** ** Drafts *)

Definition decideDraft (id : list Z) (s : Page) : Page :=
  if bool_decide (id ∈ pg_deciding s) then s else request (CDecide id) (set_deciding (pg_deciding s ++ [id]) s).
(** The answer: the draft's friend and the archived entry of an approval. *)
Definition decide_answer (id : list Z) (r : list Z + list Z * option ApiEntry) (s : Page) : Page :=
  if negb (bool_decide (CDecide id ∈ pg_calls s)) then s
  else
    let s1 := answered (CDecide id) s in
    let s2 := match r with
      | inl e => let v := pg_alter s1 in
                 set_view (mkView (av_sessionId v) (av_running v) (av_chat v) (av_loading v) (av_loaded v) (av_instructing v) (Some e)) s1
      | inr (fp, entry) =>
          let s2 := match entry with
                    | Some e => let t := patchThread fp (λ t, applyOutbound t e) s1 in with_network (pg_outbound t ++ [(fp, e)]) (pg_refreshes t) t
                    | None => s1
                    end in
          let s3 := scheduleHistory s2 in with_network (pg_outbound s3) (pg_refreshes s3 + 1) s3
      end in
    set_deciding (filterb (λ d, negb (jeqb d id)) (pg_deciding s2)) s2.

(** ** Threads *)

Definition loading (t : ThreadState) : ThreadState := mkTS (ts_entries t) (ts_window t) (ts_complete t) true (ts_loaded t) (ts_error t).
Definition size_of (window : option Z) (t : ThreadState) : Z := window ?? (if 0 <? ts_window t then ts_window t else PAGE_SIZE).
(** [load] (key = fingerprint) and [loadGroup] (key = [g:gid]). *)
Definition load (key : list Z) (window : option Z) (s : Page) : Page :=
  if bool_decide (key ∈ pg_inflight s) then s
  else
    let t := thread s key in
    request (CThread key (size_of window t)) (setThread key (loading t) (with_inflight (pg_inflight s ++ [key]) s)).
Definition loadGroup (gid : list Z) (window : option Z) : Page → Page := load (groupKey gid) window.
Definition thread_answer (key : list Z) (size : Z) (r : list Z + list ApiEntry) (s : Page) : Page :=
  if negb (bool_decide (CThread key size ∈ pg_calls s)) then s
  else
    let s1 := answered (CThread key size) s in
    let t := thread s1 key in
    let s2 := setThread key (match r with
                | inr entries => applyArchive t entries size
                | inl e => mkTS (ts_entries t) (ts_window t) (ts_complete t) false true (Some e)
                end) s1 in
    with_inflight (filterb (λ k, negb (jeqb k key)) (pg_inflight s2)) s2.
(** [loadOlder] and [loadOlderGroup]. *)
Definition loadOlder (key : list Z) (s : Page) : Page :=
  let t := thread s key in
  if ts_complete t || ts_loading t then s else load key (Some ((if 0 <? ts_window t then ts_window t else PAGE_SIZE) + PAGE_SIZE)) s.
(** [prefetchFriend] and [prefetchGroup]. *)
Definition prefetch (key : list Z) (s : Page) : Page :=
  if ts_loaded (thread s key) || bool_decide (key ∈ pg_inflight s) then s else load key None s.

Fixpoint refetch (keys : list (list Z * ThreadState)) (s : Page) : Page :=
  match keys with
  | [] => s
  | (key, t) :: keys' =>
      refetch keys' (if negb (ts_loaded t) then s
                     else match gidOf (Some key), agentOf (Some key) with None, Some _ => s | _, _ => load key None s end)
  end.
Definition refetchLoadedThreads (s : Page) : Page := refetch (pg_threads s) s.

Definition prime (selection : list Z) (s : Page) : Page :=
  if jeqb selection ALTER_KEY then (if av_loaded (pg_alter s) then s else loadAlter s)
  else match gidOf (Some selection) with
  | Some gid => loadGroup gid None s
  | None => match agentOf (Some selection) with Some _ => s | None => load selection None s end
  end.
Definition open_page (selection : option (list Z)) (s : Page) : Page :=
  let n := pg_nav s in
  let selected := match selection with Some x => x | None => nv_selected n ?? ALTER_KEY end in
  prime selected (set_nav (mkNav true (Some selected) (nv_col2 n) (nv_pane n)) s).
Definition close_page (s : Page) : Page :=
  let n := pg_nav s in if nv_open n then set_nav (mkNav false (nv_selected n) (nv_col2 n) (nv_pane n)) s else s.
Definition toggle (s : Page) : Page := if nv_open (pg_nav s) then close_page s else open_page None s.
Definition select (selection : list Z) (s : Page) : Page :=
  let n := pg_nav s in
  if bool_decide (nv_selected n = Some selection) then s
  else prime selection (set_nav (mkNav (nv_open n) (Some selection) (nv_col2 n) DEFAULT_PANE_TAB) s).
Definition setCol2Tab (t : Col2Tab) (s : Page) : Page :=
  let n := pg_nav s in if bool_decide (t = nv_col2 n) then s else set_nav (mkNav (nv_open n) (nv_selected n) t (nv_pane n)) s.
Definition setPaneTab (t : PaneTab) (s : Page) : Page :=
  let n := pg_nav s in if bool_decide (t = nv_pane n) then s else set_nav (mkNav (nv_open n) (nv_selected n) (nv_col2 n) t) s.

(** ** Typing *)

Definition TYPING_RESEND_MS : Z := 4000.
Definition stopTyping (fp : list Z) (s : Page) : Page :=
  let idle := filterb (λ k, negb (jeqb k fp)) (pg_idle s) in
  if map_has (pg_sentAt s) fp then with_typing (map_delete (pg_sentAt s) fp) idle (pg_typed s ++ [(fp, false)]) s
  else with_typing (pg_sentAt s) idle (pg_typed s) s.
Definition noteTyping (fp : list Z) (now : Z) (s : Page) : Page :=
  let idle := filterb (λ k, negb (jeqb k fp)) (pg_idle s) ++ [fp] in
  if TYPING_RESEND_MS <? now - (map_get (pg_sentAt s) fp ?? 0)
  then with_typing (map_set (pg_sentAt s) fp now) idle (pg_typed s ++ [(fp, true)]) s
  else with_typing (pg_sentAt s) idle (pg_typed s) s.
Definition typing_fires (fp : list Z) (s : Page) : Page := if bool_decide (fp ∈ pg_idle s) then stopTyping fp s else s.

(** ** Sending *)

Definition client_id (now seq : Z) : list Z := js "local-" ++ base36 now ++ js "-" ++ dec seq.
Definition start_send (key text : list Z) (now : Z) (s : Page) : Page * list Z :=
  let q := pg_seq s + 1 in
  let c := client_id now q in
  let s1 := with_calls q (pg_calls s) (pg_fetches s) s in
  (setThread key (addOptimistic (thread s1 key) c text now) s1, c).
Definition send (fp body : list Z) (now : Z) (s : Page) : Page :=
  if jeqb (trimEnd body) [] then s
  else let '(s1, c) := start_send fp (trimEnd body) now s in request (CSend fp c) (stopTyping fp s1).
Definition sendGroup (gid body : list Z) (now : Z) (s : Page) : Page :=
  if jeqb (trimEnd body) [] then s
  else let '(s1, c) := start_send (groupKey gid) (trimEnd body) now s in request (CSend (groupKey gid) c) s1.
Definition send_answer (fp c : list Z) (r : list Z + ApiEntry) (s : Page) : Page :=
  if negb (bool_decide (CSend fp c ∈ pg_calls s)) then s
  else
    let s1 := answered (CSend fp c) s in
    match r with
    | inl e => setThread fp (failSend (thread s1 fp) c e) s1
    | inr e => let s2 := setThread fp (reconcileSend (thread s1 fp) c e) s1 in with_network (pg_outbound s2 ++ [(fp, e)]) (pg_refreshes s2) s2
    end.
Definition sendGroup_answer (key c : list Z) (r : list Z + option ApiEntry) (s : Page) : Page :=
  if negb (bool_decide (CSend key c ∈ pg_calls s)) then s
  else
    let s1 := answered (CSend key c) s in
    match r with
    | inl e => setThread key (failSend (thread s1 key) c e) s1
    | inr None => setThread key (failSend (thread s1 key) c (js "not archived")) s1
    | inr (Some e) => let s2 := setThread key (reconcileSend (thread s1 key) c e) s1 in with_network (pg_outbound s2) (pg_refreshes s2 + 1) s2
    end.
Definition discard (fp c : list Z) (s : Page) : Page * option (list Z) :=
  (setThread fp (dropEntry (thread s fp) c) s, te_body <$> findb (has_client c) (ts_entries (thread s fp))).

(** ** Frames *)

Inductive PageFrame :=
| PfMessage (fp : list Z) (m : InboundFrame)
| PfOutbound (fp : list Z) (e : ApiEntry)
| PfAlter (sessionId : list Z) (running : bool)
| PfDraft
| PfGroupMessage (gid : list Z) (m : InboundFrame)
| PfGroupOutbound (gid : list Z) (e : ApiEntry)
| PfOther.

Definition onFrame (f : PageFrame) (s : Page) : Page :=
  match f with
  | PfMessage fp m =>
      let s1 := patchThread fp (λ t, applyInbound t m) s in if av_loaded (pg_alter s1) then scheduleHistory s1 else s1
  | PfOutbound fp e => patchThread fp (λ t, applyOutbound t e) s
  | PfAlter sid running =>
      let v := pg_alter s in
      let s1 := set_view (mkView (Some sid) running (av_chat v) (av_loading v) (av_loaded v) (av_instructing v) (av_error v)) s in
      if av_loaded (pg_alter s1) || nv_open (pg_nav s1) then scheduleHistory s1 else s1
  | PfDraft => if av_loaded (pg_alter s) then scheduleHistory s else s
  | PfGroupMessage gid m => patchThread (groupKey gid) (λ t, applyInbound t m) s
  | PfGroupOutbound gid e => patchThread (groupKey gid) (λ t, applyOutbound t e) s
  | PfOther => s
  end.

(** ** Runs *)

Inductive PageOp :=
| OOpen (selection : option (list Z)) | OClose | OToggle | OSelect (selection : list Z) | OCol2 (t : Col2Tab) | OPane (t : PaneTab)
| OLoadAlter | OHistoryTimer | OHistory (r : list Z + option (list Z) * bool * AlterChat)
| OInstruct (text : list Z) | OInstructed (err : option (list Z))
| ODecide (id : list Z) | ODecided (id : list Z) (r : list Z + list Z * option ApiEntry)
| OLoad (key : list Z) (window : option Z) | OLoadOlder (key : list Z) | OPrefetch (key : list Z) | OReconnect
| OThread (key : list Z) (size : Z) (r : list Z + list ApiEntry)
| OSend (fp body : list Z) (now : Z) | OSent (fp c : list Z) (r : list Z + ApiEntry)
| OSendGroup (gid body : list Z) (now : Z) | OSentGroup (key c : list Z) (r : list Z + option ApiEntry)
| ODiscard (fp c : list Z) | OType (fp : list Z) (now : Z) | OTypeTimer (fp : list Z) | OStopTyping (fp : list Z)
| OFrame (f : PageFrame) | OPersist.

Definition page_step (s : Page) (o : PageOp) : Page :=
  match o with
  | OOpen sel => open_page sel s | OClose => close_page s | OToggle => toggle s | OSelect x => select x s | OCol2 t => setCol2Tab t s | OPane t => setPaneTab t s
  | OLoadAlter => loadAlter s | OHistoryTimer => history_fires s | OHistory r => history_answer r s
  | OInstruct t => instruct t s | OInstructed e => instruct_answer e s
  | ODecide id => decideDraft id s | ODecided id r => decide_answer id r s
  | OLoad k w => load k w s | OLoadOlder k => loadOlder k s | OPrefetch k => prefetch k s | OReconnect => refetchLoadedThreads s
  | OThread k z r => thread_answer k z r s
  | OSend f b n => send f b n s | OSent f c r => send_answer f c r s
  | OSendGroup g b n => sendGroup g b n s | OSentGroup k c r => sendGroup_answer k c r s
  | ODiscard f c => (discard f c s).1 | OType f n => noteTyping f n s | OTypeTimer f => typing_fires f s | OStopTyping f => stopTyping f s
  | OFrame f => onFrame f s | OPersist => persist_fires s
  end.
End store.

(** * Theorems *)

(** ** The restored page *)

Lemma pane_found t : findb (λ x, is_str (Some (JStr (pane_str t))) (pane_str x)) PANE_TABS = Some t.
Proof. destruct t; vm_compute; reflexivity. Qed.

(** After a reload the page is where it was: whatever was stored, the tab that
    is shown is one the selection offers, and the stored navigation comes back
    except for a tab the selection does not offer, which gives way to the chat. *)
Theorem page_restored (raw : option json) (n : Nav) :
  nv_pane (loadPersistedPage raw) ∈ tabsFor (kindOf (nv_selected (loadPersistedPage raw))) false ∧
  loadPersistedPage (Some (persist n)) =
    mkNav (nv_open n) (nv_selected n) (nv_col2 n)
      (if bool_decide (nv_pane n ∈ tabsFor (kindOf (nv_selected n)) false) then nv_pane n else DEFAULT_PANE_TAB).
Proof.
  assert (∀ k, TChat ∈ tabsFor k false) as Hchat by (intros []; by left).
  split.
  - unfold loadPersistedPage. destruct raw as [p|]; [|apply Hchat]. destruct p; try apply Hchat; cbn [nv_pane nv_selected]; unfold clampPaneTab;
      (destruct (findb _ _) as [t|]; [case_bool_decide; [done|]|]; apply Hchat).
  - destruct n as [open_ selected col2 pane]. unfold loadPersistedPage, persist, get. cbn [nv_open nv_selected nv_col2 nv_pane].
    rewrite !prop_of_app, !prop_of_opt. cbn [prop_of]. eval_keys. cbv iota.
    assert (as_string match JStr <$> selected with Some v => Some v | None => None end = selected) as -> by by destruct selected.
    f_equal; [by destruct open_|by destruct col2|]. unfold clampPaneTab. by rewrite pane_found.
Qed.

(** ** What every run keeps *)

Definition thread_calls (l : list Call) : list (list Z) := omap (λ c, match c with CThread k _ => Some k | _ => None end) l.

Record fetch_ok (s : Page) : Prop := {
  fo_calls : thread_calls (pg_calls s) = pg_inflight s;
  fo_nodup : NoDup (pg_inflight s);
  fo_loading : ∀ k, ts_loading (thread s k) = bool_decide (k ∈ pg_inflight s) }.
Definition history_ok (s : Page) : Prop := av_loading (pg_alter s) = bool_decide (CHistory ∈ pg_calls s).
Definition last_signal (fp : list Z) (l : list (list Z * bool)) : bool :=
  fold_left (λ b x, if jeqb x.1 fp then x.2 else b) l false.
Definition typing_ok (s : Page) : Prop := ∀ fp,
  (map_has (pg_sentAt s) fp = true → fp ∈ pg_idle s) ∧ last_signal fp (pg_typed s) = map_has (pg_sentAt s) fp.
Definition page_ok (s : Page) : Prop := fetch_ok s ∧ history_ok s ∧ typing_ok s.

Record same (s s' : Page) : Prop := {
  sm_loading : ∀ k, ts_loading (thread s' k) = ts_loading (thread s k);
  sm_inflight : pg_inflight s' = pg_inflight s;
  sm_calls : thread_calls (pg_calls s') = thread_calls (pg_calls s);
  sm_view : av_loading (pg_alter s') = av_loading (pg_alter s);
  sm_history : CHistory ∈ pg_calls s' ↔ CHistory ∈ pg_calls s;
  sm_sent : pg_sentAt s' = pg_sentAt s;
  sm_idle : pg_idle s' = pg_idle s;
  sm_typed : pg_typed s' = pg_typed s }.
#[export] Instance same_preorder : PreOrder same.
Proof.
  split; [by intros s; split|]. intros a b c [] []. split; try congruence; try (intros k; congruence). naive_solver.
Qed.

Lemma same_ok s s' : same s s' → page_ok s → page_ok s'.
Proof.
  intros [Hl Hi Hc Hv Hh Hs Hd Ht] [[F1 F2 F3] [HH HT]]. split; [|split].
  - split; [congruence|congruence|]. intros k. rewrite Hl, Hi. apply F3.
  - unfold history_ok in *. rewrite Hv, HH. apply bool_decide_ext. by rewrite Hh.
  - intros fp. rewrite Hs, Hd, Ht. apply HT.
Qed.

Lemma thread_set key t s k : thread (setThread key t s) k = if jeqb key k then t else thread s k.
Proof. unfold thread, setThread. cbn. rewrite map_get_set. by destruct (jeqb key k). Qed.

Lemma same_setThread key t s : ts_loading t = ts_loading (thread s key) → same s (setThread key t s).
Proof. intros Ht. split; try done. intros k. rewrite thread_set. destruct (jeqb key k) eqn:E; [|done]. apply jeqb_eq in E as ->. done. Qed.
Lemma same_patch key f s : (∀ t, ts_loading (f t) = ts_loading t) → same s (patchThread key f s).
Proof.
  intros Hf. unfold patchThread. destruct (map_get (pg_threads s) key) as [t|] eqn:E; [|done].
  apply same_setThread. rewrite Hf. unfold thread. by rewrite E.
Qed.

Lemma thread_calls_cons x l : thread_calls (x :: l) = match x with CThread k _ => k :: thread_calls l | _ => thread_calls l end.
Proof. by destruct x. Qed.
Lemma thread_calls_filter c l : (∀ k z, c ≠ CThread k z) → thread_calls (filterb (λ x, negb (bool_decide (x = c))) l) = thread_calls l.
Proof.
  intros Hc. induction l as [|x l IH]; [done|]. cbn [filterb]. destruct (bool_decide (x = c)) eqn:E; cbn [negb]; rewrite ?thread_calls_cons, IH; [|done].
  apply bool_decide_eq_true in E as ->. destruct c; try done. by destruct (Hc key size).
Qed.
Lemma same_request c s : (∀ k z, c ≠ CThread k z) → c ≠ CHistory → same s (request c s).
Proof.
  intros Hc Hh. split; try done; cbn.
  - unfold thread_calls. rewrite omap_app. destruct c; cbn; rewrite ?app_nil_r; try done. by destruct (Hc key size).
  - rewrite elem_of_app, list_elem_of_singleton. naive_solver.
Qed.
Lemma same_answered c s : (∀ k z, c ≠ CThread k z) → c ≠ CHistory → same s (answered c s).
Proof.
  intros Hc Hh. split; try done; cbn; [by apply thread_calls_filter|].
  rewrite elem_of_filterb, negb_true_iff, bool_decide_eq_false. naive_solver.
Qed.
Lemma same_view v s : av_loading v = av_loading (pg_alter s) → same s (set_view v s).
Proof. intros Hv. by split. Qed.

(** [good f]: [f] keeps the invariants. *)
Definition good (f : Page → Page) : Prop := ∀ s, page_ok s → page_ok (f s).
Lemma good_same f : (∀ s, same s (f s)) → good f.
Proof. intros Hf s. by apply same_ok. Qed.


Lemma good_load key window : good (load key window).
Proof.
  intros s [[F1 F2 F3] [HH HT]]. unfold load. case_bool_decide as Ek; [done|]. split; [|split; [|done]].
  - split; cbn.
    + unfold thread_calls in *. rewrite omap_app, F1. done.
    + apply NoDup_app. split_and!; [done|set_solver|apply NoDup_singleton].
    + intros k. change (ts_loading (thread (setThread key (loading (thread s key)) (with_inflight (pg_inflight s ++ [key]) s)) k) = bool_decide (k ∈ pg_inflight s ++ [key])).
      rewrite thread_set. destruct (jeqb key k) eqn:E.
      * apply jeqb_eq in E as <-. symmetry. apply bool_decide_eq_true. set_solver.
      * apply jeqb_neq in E. change (thread (with_inflight (pg_inflight s ++ [key]) s) k) with (thread s k). rewrite F3. apply bool_decide_ext. set_solver.
  - unfold history_ok in *. cbn. rewrite HH. apply bool_decide_ext. rewrite elem_of_app, list_elem_of_singleton. naive_solver.
Qed.

Lemma thread_calls_elem k l : k ∈ thread_calls l ↔ ∃ z, CThread k z ∈ l.
Proof.
  induction l as [|x l IH]; [set_solver|]. rewrite thread_calls_cons. destruct x; rewrite ?elem_of_cons, IH; set_solver.
Qed.
Lemma thread_calls_answered k z l :
  NoDup (thread_calls l) → CThread k z ∈ l →
  thread_calls (filterb (λ x, negb (bool_decide (x = CThread k z))) l) = filterb (λ x, negb (jeqb x k)) (thread_calls l).
Proof.
  induction l as [|x l IH]; intros Hn Hin; [set_solver|]. rewrite thread_calls_cons in *. cbn [filterb].
  assert (∀ l, k ∉ thread_calls l → thread_calls (filterb (λ x, negb (bool_decide (x = CThread k z))) l) = filterb (λ x, negb (jeqb x k)) (thread_calls l)) as Hno.
  { clear. induction l as [|y l IH]; intros Hk; [done|]. rewrite thread_calls_cons in *. cbn [filterb].
    rewrite bool_decide_eq_false_2 by (intros ->; set_solver). cbn [negb]. rewrite thread_calls_cons.
    destruct y; try (by rewrite IH). cbn [filterb]. rewrite (proj2 (jeqb_neq _ _)) by set_solver. cbn [negb]. by rewrite IH by set_solver. }
  destruct (decide (x = CThread k z)) as [->|Hx].
  - rewrite bool_decide_eq_true_2 by done. cbn [negb filterb]. rewrite jeqb_refl. cbn [negb]. apply NoDup_cons in Hn as [Hk Hn]. by apply Hno.
  - rewrite bool_decide_eq_false_2 by done. cbn [negb]. rewrite thread_calls_cons. assert (CThread k z ∈ l) as Hl by set_solver.
    destruct x; try (by apply IH). apply NoDup_cons in Hn as [Hk Hn]. cbn [filterb]. rewrite (proj2 (jeqb_neq _ _)); [cbn [negb]; by rewrite IH|].
    intros ->. apply Hk, thread_calls_elem. eauto.
Qed.

Section runs.
Context `{LocaleCompare} (base36 : Z → list Z).

Lemma good_thread_answer key size r : good (thread_answer key size r).
Proof.
  intros s [[F1 F2 F3] [HH HT]]. unfold thread_answer. case_bool_decide as Ec; [|done]. cbn [negb].
  split; [|split; [|done]].
  - split.
    + cbn. rewrite thread_calls_answered; [by rewrite F1| |done]. by rewrite F1.
    + cbn. by apply filterb_NoDup.
    + intros k. match goal with |- context [setThread key ?t ?s1] =>
        change (ts_loading (thread (setThread key t s1) k) = bool_decide (k ∈ filterb (λ k, negb (jeqb k key)) (pg_inflight s))) end.
      rewrite thread_set. destruct (jeqb key k) eqn:E.
      * apply jeqb_eq in E as <-. transitivity false; [by destruct r|]. symmetry. apply bool_decide_eq_false. rewrite elem_of_filterb, jeqb_refl. naive_solver.
      * apply jeqb_neq in E. change (thread (answered (CThread key size) s) k) with (thread s k). rewrite F3. apply bool_decide_ext.
        rewrite elem_of_filterb, negb_true_iff, jeqb_neq. naive_solver.
  - unfold history_ok in *. cbn. rewrite HH. apply bool_decide_ext. rewrite elem_of_filterb, negb_true_iff, bool_decide_eq_false. naive_solver.
Qed.

(** *** The transcript *)

Lemma good_start s : page_ok s → page_ok (start_history s).
Proof.
  intros [[F1 F2 F3] [HH HT]]. split; [|split; [|done]].
  - split; [|done|done]. cbn. unfold thread_calls in *. rewrite omap_app, F1. apply app_nil_r.
  - unfold history_ok. cbn. symmetry. apply bool_decide_eq_true. set_solver.
Qed.
Lemma good_loadAlter : good loadAlter.
Proof. intros s Hs. unfold loadAlter. destruct (av_loading (pg_alter s)); [by apply (same_ok s)|by apply good_start]. Qed.
Lemma good_history_answer r : good (history_answer r).
Proof.
  intros s Hs. unfold history_answer. case_bool_decide as Ec; [|done]. cbn [negb].
  set (s1 := set_view (history_view r (pg_alter s)) (answered CHistory s)).
  assert (page_ok s1) as H1.
  { destruct Hs as [[F1 F2 F3] [HH HT]]. split; [|split; [|done]].
    - split; [|done|done]. cbn. rewrite thread_calls_filter; [done|]. intros k z [=].
    - unfold history_ok. cbn. transitivity false; [by destruct r as [|[[? ?] ?]]|]. symmetry. apply bool_decide_eq_false.
      rewrite elem_of_filterb. rewrite bool_decide_eq_true_2 by done. naive_solver. }
  destruct (pg_historyAgain s1); [|done]. apply good_loadAlter. by apply (same_ok s1).
Qed.
Lemma good_history_fires : good history_fires.
Proof. intros s Hs. unfold history_fires. destruct (pg_historyDue s); [|done]. apply good_loadAlter. by apply (same_ok s). Qed.

(** *** Typing *)

Lemma last_signal_snoc fp l x : last_signal fp (l ++ [x]) = if jeqb x.1 fp then x.2 else last_signal fp l.
Proof. unfold last_signal. by rewrite fold_left_app. Qed.
Lemma good_stopTyping fp : good (stopTyping fp).
Proof.
  intros s (HF & HH & HT). unfold stopTyping. destruct (map_has (pg_sentAt s) fp) eqn:E; (split; [by destruct HF|split; [done|]]); intros k; destruct (HT k) as [T1 T2]; cbn [pg_sentAt pg_idle pg_typed with_typing].
  - unfold map_has in *. rewrite map_get_delete, last_signal_snoc. cbn [fst snd]. destruct (jeqb fp k) eqn:Ek.
    + split; [|by rewrite bool_decide_eq_false_2 by (by intros [? ?])]. intros Hk%bool_decide_eq_true. by destruct Hk.
    + split; [|done]. intros Hk%T1. apply elem_of_filterb. split; [done|]. apply jeqb_neq in Ek. apply negb_true_iff, jeqb_neq. congruence.
  - split; [|done]. intros Hk. apply elem_of_filterb. split; [by apply T1|]. apply negb_true_iff, jeqb_neq. intros ->. congruence.
Qed.
Lemma good_noteTyping fp now : good (noteTyping fp now).
Proof.
  intros s (HF & HH & HT). unfold noteTyping. destruct (_ <? _) eqn:E; (split; [by destruct HF|split; [done|]]); intros k; destruct (HT k) as [T1 T2]; cbn [pg_sentAt pg_idle pg_typed with_typing].
  - unfold map_has in *. rewrite map_get_set, last_signal_snoc. cbn [fst snd]. rewrite elem_of_app, elem_of_filterb, list_elem_of_singleton.
    destruct (jeqb fp k) eqn:Ek.
    + apply jeqb_eq in Ek as ->. split; [by right|]. symmetry. by apply bool_decide_eq_true.
    + split; [|done]. intros Hk%T1. left. split; [done|]. apply jeqb_neq in Ek. apply negb_true_iff, jeqb_neq. congruence.
  - split; [|done]. intros Hk%T1. rewrite elem_of_app, elem_of_filterb, list_elem_of_singleton. destruct (decide (k = fp)); [by right|left].
    split; [done|]. by apply negb_true_iff, jeqb_neq.
Qed.

(** *** Every operation *)

Lemma good_refetch keys : good (refetch keys).
Proof.
  induction keys as [|[k t] keys IH]; intros s Hs; [done|]. cbn [refetch]. apply IH. destruct (negb _); [done|].
  destruct (gidOf _); [by apply good_load|]. destruct (agentOf _); [done|by apply good_load].
Qed.
Lemma good_prime x : good (prime x).
Proof.
  intros s Hs. unfold prime. destruct (jeqb _ _); [destruct (av_loaded _); [done|by apply good_loadAlter]|].
  destruct (gidOf _); [by apply good_load|]. destruct (agentOf _); [done|by apply good_load].
Qed.
Lemma good_open x : good (open_page x).
Proof. intros s Hs. unfold open_page. apply good_prime. by apply (same_ok s). Qed.
Lemma same_close s : same s (close_page s).
Proof. unfold close_page. destruct (nv_open _); [by split|done]. Qed.

Lemma same_start key text now s : same s (start_send base36 key text now s).1.
Proof. unfold start_send. cbn [fst]. etrans; [|apply same_setThread; reflexivity]. by split. Qed.
Lemma good_send fp body now : good (send base36 fp body now).
Proof.
  intros s Hs. unfold send. destruct (jeqb _ _); [done|]. destruct (start_send base36 fp (trimEnd body) now s) as [s1 c] eqn:E.
  apply (same_ok (stopTyping fp s1)); [by apply same_request|]. apply good_stopTyping. eapply same_ok; [|exact Hs].
  change s1 with (s1, c).1. rewrite <- E. apply same_start.
Qed.
Lemma good_sendGroup gid body now : good (sendGroup base36 gid body now).
Proof.
  intros s Hs. unfold sendGroup. destruct (jeqb _ _); [done|]. destruct (start_send base36 (groupKey gid) (trimEnd body) now s) as [s1 c] eqn:E.
  apply (same_ok s1); [by apply same_request|]. eapply same_ok; [|exact Hs]. change s1 with (s1, c).1. rewrite <- E. apply same_start.
Qed.
Lemma same_failed key c e s : same s (setThread key (failSend (thread s key) c e) s).
Proof. by apply same_setThread. Qed.
Lemma same_reconciled key c e s : same s (setThread key (reconcileSend (thread s key) c e) s).
Proof. apply same_setThread. unfold reconcileSend. by case_match. Qed.

Lemma same_send_answer fp c r s : same s (send_answer fp c r s).
Proof.
  unfold send_answer. case_bool_decide; [|done]. cbn [negb]. etrans; [by apply (same_answered (CSend fp c))|].
  destruct r as [e|e]; [apply same_failed|]. etrans; [apply same_reconciled|by split].
Qed.
Lemma same_sendGroup_answer key c r s : same s (sendGroup_answer key c r s).
Proof.
  unfold sendGroup_answer. case_bool_decide; [|done]. cbn [negb]. etrans; [by apply (same_answered (CSend key c))|].
  destruct r as [e|[e|]]; [apply same_failed| |apply same_failed]. etrans; [apply same_reconciled|by split].
Qed.
Lemma same_decide_answer id r s : same s (decide_answer id r s).
Proof.
  unfold decide_answer. case_bool_decide; [|done]. cbn [negb]. etrans; [by apply (same_answered (CDecide id))|].
  destruct r as [e|[fp [e|]]]; [by split| |by split].
  etrans; [apply (same_patch fp (λ t, applyOutbound t e)); done|by split].
Qed.
Lemma same_instruct_answer e s : same s (instruct_answer e s).
Proof. unfold instruct_answer. case_bool_decide; [|done]. cbn [negb]. etrans; [by apply (same_answered CInstruct)|]. by destruct e. Qed.
Lemma same_frame f s : same s (onFrame f s).
Proof.
  destruct f as [fp m|fp e|sid running| |gid m|gid e|]; cbn [onFrame]; try (by apply same_patch); try done.
  - etrans; [apply (same_patch fp (λ t, applyInbound t m)); done|]. by destruct (av_loaded _).
  - destruct (_ || _); by split.
  - by destruct (av_loaded _).
Qed.

Lemma good_step o : good (λ s, page_step base36 s o).
Proof.
  intros s Hs. destruct o; cbn [page_step].
  - by apply good_open.
  - by apply (same_ok s), Hs; apply same_close.
  - unfold toggle. destruct (nv_open _); [apply (same_ok s); [apply same_close|done]|by apply good_open].
  - unfold select. case_bool_decide; [done|]. apply good_prime. by apply (same_ok s).
  - unfold setCol2Tab. case_bool_decide; [done|]. by apply (same_ok s).
  - unfold setPaneTab. case_bool_decide; [done|]. by apply (same_ok s).
  - by apply good_loadAlter.
  - by apply good_history_fires.
  - by apply good_history_answer.
  - unfold instruct. destruct (jeqb _ _); [done|]. apply (same_ok s); [|done]. etrans; [|by apply same_request]. by split.
  - apply (same_ok s); [apply same_instruct_answer|done].
  - unfold decideDraft. case_bool_decide; [done|]. apply (same_ok s); [|done]. etrans; [|by apply same_request]. by split.
  - apply (same_ok s); [apply same_decide_answer|done].
  - by apply good_load.
  - unfold loadOlder. destruct (_ || _); [done|by apply good_load].
  - unfold prefetch. destruct (_ || _); [done|by apply good_load].
  - by apply good_refetch.
  - by apply good_thread_answer.
  - by apply good_send.
  - apply (same_ok s); [apply same_send_answer|done].
  - by apply good_sendGroup.
  - apply (same_ok s); [apply same_sendGroup_answer|done].
  - apply (same_ok s); [by apply same_setThread|done].
  - by apply good_noteTyping.
  - unfold typing_fires. case_bool_decide; [by apply good_stopTyping|done].
  - by apply good_stopTyping.
  - apply (same_ok s); [apply same_frame|done].
  - unfold persist_fires. destruct (pg_persistDue s); [by apply (same_ok s)|done].
Qed.

Definition run_page (stored : option json) (ops : list PageOp) : Page := fold_left (page_step base36) ops (new_page stored).

Lemma run_page_ok stored ops : page_ok (run_page stored ops).
Proof.
  apply (run_inv _ page_ok); [|intros s o; apply good_step]. split; [split; [done|constructor|done]|split; [done|]]. intros fp. by split.
Qed.

(** C19. Whatever the owner does and in whatever order answers and frames come, at
    most one archive request per thread is outstanding, and a thread shows the
    loading mark exactly while one is. *)
Theorem one_fetch_per_thread (stored : option json) (ops : list PageOp) (key : list Z) :
  let s := run_page stored ops in
  NoDup (thread_calls (pg_calls s)) ∧ (ts_loading (thread s key) = true ↔ ∃ size, CThread key size ∈ pg_calls s).
Proof.
  intros s. destruct (run_page_ok stored ops) as [[F1 F2 F3] _]. fold s in F1, F2, F3. split; [by rewrite F1|].
  rewrite F3, bool_decide_eq_true, <- F1. apply thread_calls_elem.
Qed.

(** A change of the alter's state is never missed: once its frame arrived, the
    transcript is fetched again after the timer fires, at once or, when an
    older request is still out, as soon as that one is answered. *)
Theorem transcript_catches_up (stored : option json) (ops : list PageOp) (sid : list Z) (running : bool) (r : list Z + option (list Z) * bool * AlterChat) :
  let s := run_page stored ops in
  av_loaded (pg_alter s) || nv_open (pg_nav s) = true →
  let s' := history_fires (onFrame (PfAlter sid running) s) in
  pg_fetches s' = (pg_fetches s + 1)%nat ∨ pg_fetches (history_answer r s') = (pg_fetches s + 1)%nat.
Proof.
  intros s Hl s'. destruct (run_page_ok stored ops) as (_ & HH & _). fold s in HH. unfold history_ok in HH.
  subst s'. unfold onFrame. cbn [pg_alter set_view av_loaded pg_nav]. rewrite Hl. unfold scheduleHistory, history_fires. cbn [pg_historyDue with_history].
  unfold loadAlter. cbn [pg_alter with_history set_view av_loading]. destruct (av_loading (pg_alter s)) eqn:El; [right|by left].
  symmetry in HH. apply bool_decide_eq_true in HH. unfold history_answer. cbn [pg_calls with_history set_view]. rewrite bool_decide_eq_true_2 by done. cbn [negb pg_historyAgain set_view answered with_calls with_history].
  unfold loadAlter. cbn [pg_alter with_history set_view av_loading answered with_calls]. by destruct r as [|[[? ?] ?]].
Qed.

(** A friend who was told that the owner types is told when it ends: while the
    last signal is on, the timer that withdraws it is armed, and firing it
    sends the withdrawal. *)
Theorem typing_is_withdrawn (stored : option json) (ops : list PageOp) (fp : list Z) :
  let s := run_page stored ops in
  last_signal fp (pg_typed s) = true → fp ∈ pg_idle s ∧ last_signal fp (pg_typed (typing_fires fp s)) = false.
Proof.
  intros s Hl. destruct (run_page_ok stored ops) as (_ & _ & HT). fold s in HT. destruct (HT fp) as [T1 T2]. rewrite Hl in T2. symmetry in T2.
  split; [by apply T1|]. unfold typing_fires. rewrite bool_decide_eq_true_2 by (by apply T1). unfold stopTyping. rewrite T2. cbn [pg_typed with_typing].
  rewrite last_signal_snoc. cbn [fst snd]. by rewrite jeqb_refl.
Qed.
End runs.

(** ** Witnesses *)

Definition demo36 (z : Z) : list Z := dec z.
Definition busy_ops : list PageOp := [OOpen None; OType (js "f1") 9000; OLoad (js "f1") None; OLoadOlder (js "f1")].

Lemma transcript_catches_up_witness :
  let s := @run_page ByLength demo36 None busy_ops in
  let s' := history_fires (@onFrame ByLength (PfAlter (js "s1") true) s) in
  av_loading (pg_alter s) = true ∧
  (pg_fetches s' = (pg_fetches s + 1)%nat ∨ pg_fetches (history_answer (inl (js "down")) s') = (pg_fetches s + 1)%nat).
Proof.
  intros s s'. split; [vm_compute; reflexivity|].
  apply (@transcript_catches_up ByLength demo36 None busy_ops (js "s1") true (inl (js "down"))). vm_compute. reflexivity.
Defined.

Lemma typing_is_withdrawn_witness :
  let s := @run_page ByLength demo36 None busy_ops in
  js "f1" ∈ pg_idle s ∧ last_signal (js "f1") (pg_typed (typing_fires (js "f1") s)) = false.
Proof. intros s. apply (@typing_is_withdrawn ByLength demo36 None busy_ops (js "f1")). vm_compute. reflexivity. Defined.
