(* ===== verification/Timeline.v ===== *)
(** * The group room's timeline (client/rooms/timeline.ts)

    Archive entries merged with the local work traces of my agents, with day
    separators and sender runs. *)

From S2P Require Import Prelude JsSort JsString Json Policy PageState.
From stdpp Require Import sorting.
#[local] Open Scope Z_scope.

Definition RUN_GAP_MS : Z := 5 * 60000.

(** The transcript items a work feed shows; other kinds are not rendered. *)
Inductive WorkKind :=
| WkThinking | WkTool | WkAlter (text : list Z) | WkTurnFailed (reason : list Z) (message : option (list Z)) | WkOther.
Record WorkItem := mkWork { wi_key : list Z; wi_ts : Z; wi_kind : WorkKind }.

Inductive Slot :=
| SlEntry (ts : Z) (e : ThreadEntry)
| SlWork (ts : Z) (agent : list Z) (item : WorkItem).

Definition slot_ts (s : Slot) : Z := match s with SlEntry ts _ => ts | SlWork ts _ _ => ts end.

Inductive TimelineRow :=
| TlDay (key : list Z) (ts : Z)
| TlEntry (key : list Z) (entry : ThreadEntry) (showHeader : bool)
| TlWorkHead (key : list Z) (ts : Z) (agent : list Z)
| TlProcess (key : list Z) (ts : Z) (item : WorkItem)
| TlNote (key : list Z) (ts : Z) (agent text : list Z)
| TlWorkFailed (key : list Z) (ts : Z) (agent reason : list Z).

(** The monotone display clock: [clamp] is the loop's local. *)
Fixpoint entry_slots (entries : list ThreadEntry) (clamp : Z) : list Slot :=
  match entries with
  | [] => []
  | e :: rest => let c := Z.max (te_ts e) (clamp + 1) in SlEntry c e :: entry_slots rest c
  end.

Definition work_slots (feeds : list (list Z * list WorkItem)) : list Slot :=
  mbind (λ f : list Z * list WorkItem, map (λ item, SlWork (wi_ts item) f.1 item) f.2) feeds.

(** [sort((a, b) => a.ts - b.ts)]. *)
Definition slot_le (a b : Slot) : bool := slot_ts a <=? slot_ts b.

Definition merged_slots (entries : list ThreadEntry) (feeds : list (list Z * list WorkItem)) : list Slot :=
  js_sort slot_le (entry_slots entries 0 ++ work_slots feeds).

(** The locals of the row loop. *)
Record RunState := mkRun { ru_lastDay : option (list Z); ru_from : option (list Z); ru_ts : Z }.

Definition sender_key (e : ThreadEntry) : option (list Z) :=
  if bool_decide (te_by e = Some ByAlter)
  then Some (js "voice:" ++ (match te_dir e with dir_out => js "me" | dir_in => te_from e ?? [] end)
             ++ js ":" ++ (te_agent e ?? js "alter"))
  else match te_dir e with dir_out => None | dir_in => te_from e end.

(** A new run starts: another sender, or too long since its last row. *)
Definition new_run (r : RunState) (key : list Z) (ts : Z) : bool :=
  negb (bool_decide (ru_from r = Some key)) || (RUN_GAP_MS <? ts - ru_ts r).

Definition work_row (agent : list Z) (item : WorkItem) (ts : Z) : option TimelineRow :=
  match wi_kind item with
  | WkThinking | WkTool => Some (TlProcess (js "p:" ++ agent ++ js ":" ++ wi_key item) ts item)
  | WkAlter text => if jeqb (trim text) [] then None else Some (TlNote (js "n:" ++ agent ++ js ":" ++ wi_key item) ts agent text)
  | WkTurnFailed reason message => Some (TlWorkFailed (js "f:" ++ agent ++ js ":" ++ wi_key item) ts agent (message ?? reason))
  | WkOther => None
  end.

Section timeline.
Context `{LocalTime}.

(** The day separator in front of a slot. *)
Definition open_day (r : RunState) (ts : Z) : RunState * list TimelineRow :=
  let day := dayKey ts in
  if bool_decide (ru_lastDay r = Some day) then (r, [])
  else (mkRun (Some day) None (ru_ts r), [TlDay (js "day:" ++ day) ts]).

Definition entry_rows (r : RunState) (ts : Z) (e : ThreadEntry) : RunState * list TimelineRow :=
  match sender_key e with
  | None => (mkRun (ru_lastDay r) None (ru_ts r), [TlEntry (row_key e) e false])
  | Some key => (mkRun (ru_lastDay r) (Some key) ts, [TlEntry (row_key e) e (new_run r key ts)])
  end.

Definition work_rows (r : RunState) (ts : Z) (agent : list Z) (item : WorkItem) : RunState * list TimelineRow :=
  match work_row agent item ts with
  | None => (r, [])
  | Some row =>
      let wKey := js "voice:me:" ++ agent in
      (mkRun (ru_lastDay r) (Some wKey) ts,
       (if new_run r wKey ts then [TlWorkHead (js "wh:" ++ agent ++ js ":" ++ wi_key item) ts agent] else []) ++ [row])
  end.

Definition slot_rows (r : RunState) (s : Slot) : RunState * list TimelineRow :=
  let '(r1, day) := open_day r (slot_ts s) in
  let '(r2, rows) := match s with
                     | SlEntry ts e => entry_rows r1 ts e
                     | SlWork ts agent item => work_rows r1 ts agent item
                     end in
  (r2, day ++ rows).

Fixpoint timeline_loop (slots : list Slot) (r : RunState) : list TimelineRow :=
  match slots with
  | [] => []
  | s :: rest => let '(r', rows) := slot_rows r s in rows ++ timeline_loop rest r'
  end.

Definition buildTimeline (entries : list ThreadEntry) (feeds : list (list Z * list WorkItem)) : list TimelineRow :=
  timeline_loop (merged_slots entries feeds) (mkRun None None 0).

(** * Theorems *)

Definition slot_entry (s : Slot) : option ThreadEntry := match s with SlEntry _ e => Some e | SlWork _ _ _ => None end.
Definition tl_entry (r : TimelineRow) : option ThreadEntry := match r with TlEntry _ e _ => Some e | _ => None end.
Definition is_entry (s : Slot) : bool := match s with SlEntry _ _ => true | SlWork _ _ _ => false end.

Lemma slot_rows_entries r s : omap tl_entry (slot_rows r s).2 = option_list (slot_entry s).
Proof.
  unfold slot_rows, open_day. case_bool_decide; destruct s as [ts e|ts agent item]; simpl.
  1,3: unfold entry_rows; by destruct (sender_key e).
  all: unfold work_rows, work_row; repeat case_match; try done; simplify_eq/=; by repeat case_match.
Qed.

Lemma timeline_loop_entries slots r : omap tl_entry (timeline_loop slots r) = omap slot_entry slots.
Proof.
  revert r. induction slots as [|s slots IH]; intros r; simpl; [done|].
  pose proof (slot_rows_entries r s) as Hs. destruct (slot_rows r s) as [r' rows]. simpl in Hs.
  rewrite omap_app, Hs, IH. destruct s; done.
Qed.

Lemma omap_filterb_entry l : omap slot_entry (filterb is_entry l) = omap slot_entry l.
Proof. induction l as [|s l IH]; simpl; [done|]. destruct s; simpl; [f_equal|]; apply IH. Qed.

Lemma filterb_entry_slots entries c : filterb is_entry (entry_slots entries c) = entry_slots entries c.
Proof. revert c. induction entries as [|e l IH]; intros c; simpl; [done|]. by rewrite IH. Qed.

Lemma filterb_work_slots feeds : filterb is_entry (work_slots feeds) = [].
Proof.
  induction feeds as [|[a items] feeds IH]; simpl; [done|]. unfold work_slots in IH. simpl in IH.
  change (filterb is_entry (map (λ item, SlWork (wi_ts item) a item) items ++ work_slots feeds) = []).
  rewrite filterb_app. unfold work_slots. rewrite IH, app_nil_r. clear. by induction items.
Qed.

Lemma entry_slots_later entries c s : s ∈ entry_slots entries c → c < slot_ts s.
Proof.
  revert c. induction entries as [|e l IH]; intros c; simpl; [by rewrite elem_of_nil|].
  rewrite elem_of_cons. intros [->|Hs]; simpl; [lia|]. apply IH in Hs. lia.
Qed.

Lemma entry_slots_sorted entries c : StronglySorted (le_rel slot_le) (entry_slots entries c).
Proof.
  revert c. induction entries as [|e l IH]; intros c; simpl; constructor; [apply IH|].
  apply List.Forall_forall. intros s Hs. apply list_elem_of_In, entry_slots_later in Hs.
  unfold le_rel, slot_le. simpl. apply Z.leb_le. lia.
Qed.

Lemma entry_slots_entries entries c : omap slot_entry (entry_slots entries c) = entries.
Proof. revert c. induction entries as [|e l IH]; intros c; simpl; [done|]. f_equal. apply IH. Qed.

Lemma slot_le_total a b : slot_le a b = true ∨ slot_le b a = true.
Proof. unfold slot_le. rewrite !Z.leb_le. lia. Qed.
Lemma slot_le_trans a b c : slot_le a b = true → slot_le b c = true → slot_le a c = true.
Proof. unfold slot_le. rewrite !Z.leb_le. lia. Qed.

(** The timeline shows every archive entry exactly once and in archive
    order, whatever the senders' clocks say and however the agents' work traces
    interleave. *)
Theorem buildTimeline_entries (entries : list ThreadEntry) (feeds : list (list Z * list WorkItem)) :
  omap tl_entry (buildTimeline entries feeds) = entries.
Proof.
  unfold buildTimeline. rewrite timeline_loop_entries, <- omap_filterb_entry. unfold merged_slots.
  rewrite filterb_js_sort by (apply slot_le_total || apply slot_le_trans).
  rewrite filterb_app, filterb_entry_slots, filterb_work_slots, app_nil_r.
  rewrite js_sort_id by apply entry_slots_sorted. apply entry_slots_entries.
Qed.

(** Work never appears without its title: every burst of an agent's rows is
    announced by a head row or continues that agent's run. *)
Lemma work_rows_headed r ts agent item :
  (work_rows r ts agent item).2 ≠ [] →
  ru_from (work_rows r ts agent item).1 = Some (js "voice:me:" ++ agent) ∧
  (ru_from r ≠ Some (js "voice:me:" ++ agent) →
   ∃ key row, (work_rows r ts agent item).2 = [TlWorkHead key ts agent; row]).
Proof.
  unfold work_rows. destruct (work_row agent item ts) as [row|]; [|done]. intros _. split; [done|].
  intros Hne. simpl. unfold new_run. rewrite bool_decide_eq_false_2 by done. simpl. eauto.
Qed.
End timeline.

Definition UTC : LocalTime :=
  {| getFullYear := λ t, 1970 + t / 31536000000; getMonth := λ _, 0; getDate := λ t, t / 86400000;
     getHours := λ t, (t / 3600000) mod 24; getMinutes := λ t, (t / 60000) mod 60 |}.

Lemma buildTimeline_entries_witness :
  let e1 := mkTE 1 dir_in [1] (js "a") 900 (Some (js "F")) None None None None None None None None in
  let e2 := mkTE 2 dir_in [2] (js "b") 100 (Some (js "G")) None None None None None None None None in
  let feeds := [(js "dev", [mkWork (js "k") 500 WkThinking])] in
  length (@buildTimeline UTC [e1; e2] feeds) = 5%nat ∧
  omap tl_entry (@buildTimeline UTC [e1; e2] feeds) = [e1; e2].
Proof. split; [vm_compute; reflexivity|]. apply (@buildTimeline_entries UTC). Defined.
