(* ===== verification/InboxState.v ===== *)
(** * Inbox state of the browser half (client/inbox-state.ts)

    The friend and group lists folded with the live frames, the badges, the
    list helpers of client/page-state.ts that work on friend rows, and the
    pure group-room helpers (client/group-room.ts). *)

From S2P Require Import Prelude JsSort JsString Json Policy PageState.
#[local] Open Scope Z_scope.

Record InboxFriend := mkFriend {
  f_fp : list Z; f_name : list Z; f_remark : option (list Z); f_cardName : option (list Z); f_online : option bool;
  f_unread : Z; f_count : Z; f_lastTs : option Z; f_lastBody : option (list Z); f_muted : option bool;
  f_protocol : option (list Z); f_tier : option ReplyTier; f_tierExplicit : option bool; f_drafts : option nat }.

Record ApiGroup := mkGroup {
  g_gid : list Z; g_name : list Z; g_ownerFp : list Z; g_mine : bool; g_version : Z; g_members : Z; g_unread : Z;
  g_count : Z; g_lastTs : option Z; g_lastBody : option (list Z); g_muted : option bool }.

Record ApiPending := mkPending { p_id : list Z; p_fp : list Z; p_name : list Z; p_greeting : list Z }.

(** The slice of a draft the inbox reads (its target friend or gid). *)
Record ApiDraft := mkApiDraft { d_id : list Z; d_fp : list Z; d_body : list Z }.

Record InboxState := mkInbox {
  ib_friends : list InboxFriend; ib_groups : list ApiGroup; ib_pending : list ApiPending; ib_drafts : list ApiDraft;
  ib_alterSessionId : option (list Z); ib_typing : gmap (list Z) bool; ib_groupApps : gmap (list Z) nat }.

Definition EMPTY_INBOX : InboxState := mkInbox [] [] [] [] None ∅ ∅.

Record MailNotice := mkNotice {
  n_id : list Z; n_fp : list Z; n_gid : option (list Z); n_name : list Z; n_body : list Z; n_ts : Z; n_sessionId : option (list Z) }.

(** The network state answered by the host, as the inbox reads it. *)
Record ApiState := mkApiState {
  as_friends : list InboxFriend; as_groups : option (list ApiGroup); as_pending : list ApiPending;
  as_drafts : option (list ApiDraft); as_sessionId : option (list Z) }.

Record FrameMessage := mkFM { fm_id : list Z; fm_from : list Z; fm_name : list Z; fm_body : list Z; fm_ts : Z }.

Inductive Frame :=
| FrMessage (m : FrameMessage)
| FrOutbound (fp : list Z) (ts : Z) (body : list Z)
| FrTyping (fp : list Z) (on : bool)
| FrRequest (request : ApiPending)
| FrAccept (friend : InboxFriend)
| FrPresence (fp : list Z) (online : bool)
| FrDraft (added : bool) (draft : ApiDraft)
| FrGroupMessage (gid : list Z) (m : FrameMessage)
| FrGroupOutbound (gid : list Z) (ts : Z) (body : list Z)
| FrGroupUpdate (gid : list Z)
| FrGroupApplication (gid : list Z)
| FrOther.

(** ** Rows *)

Definition unread_of (u : Z) (muted : option bool) : Z := if (0 <? u) && negb (bool_decide (muted = Some true)) then u else 0.

Definition unreadTotal (friends : list InboxFriend) : Z :=
  fold_left (λ total f, total + unread_of (f_unread f) (f_muted f)) friends 0.

Definition inbox_le `{LocaleCompare} (a b : InboxFriend) : bool :=
  let ua := if 0 <? f_unread a then 1 else 0 in
  let ub := if 0 <? f_unread b then 1 else 0 in
  if negb (ua =? ub) then ub <=? ua
  else
    let ta := f_lastTs a ?? 0 in let tb := f_lastTs b ?? 0 in
    if negb (ta =? tb) then tb <=? ta else localeCompare (f_name a) (f_name b) <=? 0.

Definition sortInbox `{LocaleCompare} (friends : list InboxFriend) : list InboxFriend := js_sort inbox_le friends.

Definition filterFriends `{LowerCase} (friends : list InboxFriend) (query : list Z) : list InboxFriend :=
  let q := toLowerCase (trim query) in
  if jeqb q [] then friends
  else filterb (λ f, includes (toLowerCase (f_name f)) q
    || match f_remark f with Some r => includes (toLowerCase r) q | None => false end
    || match f_cardName f with Some c => includes (toLowerCase c) q | None => false end
    || startsWith (toLowerCase (f_fp f)) q) friends.

Definition listRows `{LowerCase} `{LocaleCompare} (friends : list InboxFriend) (query : list Z) : list InboxFriend :=
  filterFriends (sortInbox friends) query.

Definition draftsFor (s : InboxState) (fp : list Z) : list ApiDraft := filterb (λ d, jeqb (d_fp d) fp) (ib_drafts s).

Definition with_drafts (n : option nat) (f : InboxFriend) : InboxFriend :=
  mkFriend (f_fp f) (f_name f) (f_remark f) (f_cardName f) (f_online f) (f_unread f) (f_count f) (f_lastTs f) (f_lastBody f)
    (f_muted f) (f_protocol f) (f_tier f) (f_tierExplicit f) n.

Definition withoutDrafts (f : InboxFriend) : InboxFriend := with_drafts None f.

Definition with_online (o : option bool) (f : InboxFriend) : InboxFriend :=
  mkFriend (f_fp f) (f_name f) (f_remark f) (f_cardName f) o (f_unread f) (f_count f) (f_lastTs f) (f_lastBody f)
    (f_muted f) (f_protocol f) (f_tier f) (f_tierExplicit f) (f_drafts f).

(** The unread, count and preview part of a row. *)
Definition with_mail (unread count : Z) (lastTs : option Z) (lastBody : option (list Z)) (f : InboxFriend) : InboxFriend :=
  mkFriend (f_fp f) (f_name f) (f_remark f) (f_cardName f) (f_online f) unread count lastTs lastBody
    (f_muted f) (f_protocol f) (f_tier f) (f_tierExplicit f) (f_drafts f).

Definition group_mail (unread count : Z) (lastTs : option Z) (lastBody : option (list Z)) (g : ApiGroup) : ApiGroup :=
  mkGroup (g_gid g) (g_name g) (g_ownerFp g) (g_mine g) (g_version g) (g_members g) unread count lastTs lastBody (g_muted g).

(** The loop that counts drafts per target. *)
Definition draft_counts (drafts : list ApiDraft) : gmap (list Z) nat :=
  fold_left (λ m d, <[d_fp d := ((m !! d_fp d ?? 0%nat) + 1)%nat]> m) drafts ∅.

Definition fromApiState (previous : InboxState) (s : ApiState) : InboxState :=
  let known := fold_left (λ m f, <[f_fp f := f_online f]> m) (ib_friends previous) (∅ : gmap (list Z) (option bool)) in
  let drafts := as_drafts s ?? [] in
  let counts := draft_counts drafts in
  mkInbox
    (map (λ f, let row := match counts !! f_fp f with None => withoutDrafts f | Some n => with_drafts (Some n) f end in
               match f_online row with
               | Some _ => row
               | None => match known !! f_fp f with Some (Some was) => with_online (Some was) row | _ => row end
               end) (as_friends s))
    (as_groups s ?? []) (as_pending s) drafts (as_sessionId s) (ib_typing previous) (ib_groupApps previous).

Definition patchFriend (friends : list InboxFriend) (fp : list Z) (patch : InboxFriend → InboxFriend) : list InboxFriend :=
  map (λ f, if jeqb (f_fp f) fp then patch f else f) friends.
Definition patchGroup (groups : list ApiGroup) (gid : list Z) (patch : ApiGroup → ApiGroup) : list ApiGroup :=
  map (λ g, if jeqb (g_gid g) gid then patch g else g) groups.

(** [{ ...f, ...friend }]. *)
Definition over_friend (f g : InboxFriend) : InboxFriend :=
  mkFriend (f_fp g) (f_name g) (override (f_remark f) (f_remark g)) (override (f_cardName f) (f_cardName g))
    (override (f_online f) (f_online g)) (f_unread g) (f_count g) (override (f_lastTs f) (f_lastTs g))
    (override (f_lastBody f) (f_lastBody g)) (override (f_muted f) (f_muted g)) (override (f_protocol f) (f_protocol g))
    (override (f_tier f) (f_tier g)) (override (f_tierExplicit f) (f_tierExplicit g)) (override (f_drafts f) (f_drafts g)).

Definition with_friends (s : InboxState) (l : list InboxFriend) : InboxState :=
  mkInbox l (ib_groups s) (ib_pending s) (ib_drafts s) (ib_alterSessionId s) (ib_typing s) (ib_groupApps s).
Definition with_groups (s : InboxState) (l : list ApiGroup) : InboxState :=
  mkInbox (ib_friends s) l (ib_pending s) (ib_drafts s) (ib_alterSessionId s) (ib_typing s) (ib_groupApps s).

Definition has_fp (fp : list Z) (f : InboxFriend) : bool := jeqb (f_fp f) fp.

(** ** applyFrame *)

Definition on_message (s : InboxState) (m : FrameMessage) : InboxState * option MailNotice :=
  let friends :=
    if someb (has_fp (fm_from m)) (ib_friends s)
    then patchFriend (ib_friends s) (fm_from m)
           (λ f, with_mail (f_unread f + 1) (f_count f + 1) (Some (fm_ts m)) (Some (fm_body m)) f)
    else ib_friends s ++ [mkFriend (fm_from m) (fm_name m) None None None 1 1 (Some (fm_ts m)) (Some (fm_body m))
                            None None None None None] in
  let name := (f_name <$> findb (has_fp (fm_from m)) (ib_friends s)) ?? fm_name m in
  (with_friends s friends, Some (mkNotice (fm_id m) (fm_from m) None name (fm_body m) (fm_ts m) (ib_alterSessionId s))).

Definition on_draft (s : InboxState) (added : bool) (d : ApiDraft) : InboxState :=
  let without := filterb (λ x, negb (jeqb (d_id x) (d_id d))) (ib_drafts s) in
  let drafts := if added then without ++ [d] else without in
  let n := length (filterb (λ x, jeqb (d_fp x) (d_fp d)) drafts) in
  let friends := patchFriend (ib_friends s) (d_fp d) (λ f, match n with O => withoutDrafts f | _ => with_drafts (Some n) f end) in
  mkInbox friends (ib_groups s) (ib_pending s) drafts (ib_alterSessionId s) (ib_typing s) (ib_groupApps s).

Definition on_group_message (s : InboxState) (gid : list Z) (m : FrameMessage) : InboxState * option MailNotice :=
  let groups := patchGroup (ib_groups s) gid
    (λ g, group_mail (g_unread g + 1) (g_count g + 1) (Some (fm_ts m)) (Some (fm_body m)) g) in
  (with_groups s groups,
   match findb (λ g, jeqb (g_gid g) gid) (ib_groups s) with
   | None => None
   | Some g => Some (mkNotice (fm_id m) (fm_from m) (Some gid) (fm_name m ++ js " · " ++ g_name g) (fm_body m) (fm_ts m)
                       (ib_alterSessionId s))
   end).

Definition applyFrame (s : InboxState) (f : Frame) : InboxState * option MailNotice :=
  match f with
  | FrMessage m => on_message s m
  | FrTyping fp on => (mkInbox (ib_friends s) (ib_groups s) (ib_pending s) (ib_drafts s) (ib_alterSessionId s)
                         (<[fp := on]> (ib_typing s)) (ib_groupApps s), None)
  | FrPresence fp online => (with_friends s (patchFriend (ib_friends s) fp (with_online (Some online))), None)
  | FrAccept friend =>
      let friends := if someb (has_fp (f_fp friend)) (ib_friends s)
                     then patchFriend (ib_friends s) (f_fp friend) (λ f, over_friend f friend)
                     else ib_friends s ++ [friend] in
      (mkInbox friends (ib_groups s) (filterb (λ p, negb (jeqb (p_fp p) (f_fp friend))) (ib_pending s)) (ib_drafts s)
         (ib_alterSessionId s) (ib_typing s) (ib_groupApps s), None)
  | FrRequest r =>
      (if someb (λ p, jeqb (p_id p) (p_id r)) (ib_pending s) then s
       else mkInbox (ib_friends s) (ib_groups s) (ib_pending s ++ [r]) (ib_drafts s) (ib_alterSessionId s) (ib_typing s)
              (ib_groupApps s), None)
  | FrOutbound fp ts body =>
      (with_friends s (patchFriend (ib_friends s) fp (λ f,
         if (f_lastTs f ?? 0) <=? ts then with_mail (f_unread f) (f_count f + 1) (Some ts) (Some body) f
         else with_mail (f_unread f) (f_count f + 1) (f_lastTs f) (f_lastBody f) f)), None)
  | FrDraft added d => (on_draft s added d, None)
  | FrGroupMessage gid m => on_group_message s gid m
  | FrGroupOutbound gid ts body =>
      (with_groups s (patchGroup (ib_groups s) gid (λ g,
         if (g_lastTs g ?? 0) <=? ts then group_mail (g_unread g) (g_count g + 1) (Some ts) (Some body) g
         else group_mail (g_unread g) (g_count g + 1) (g_lastTs g) (g_lastBody g) g)), None)
  | FrGroupUpdate _ => (s, None)
  | FrGroupApplication gid =>
      (mkInbox (ib_friends s) (ib_groups s) (ib_pending s) (ib_drafts s) (ib_alterSessionId s) (ib_typing s)
         (<[gid := ((ib_groupApps s !! gid ?? 0) + 1)%nat]> (ib_groupApps s)), None)
  | FrOther => (s, None)
  end.

Definition clearGroupApps (s : InboxState) (gid : list Z) : InboxState :=
  match ib_groupApps s !! gid with
  | None => s
  | Some _ => mkInbox (ib_friends s) (ib_groups s) (ib_pending s) (ib_drafts s) (ib_alterSessionId s) (ib_typing s)
                (delete gid (ib_groupApps s))
  end.

Definition markReadGroupLocal (s : InboxState) (gid : list Z) : InboxState :=
  if negb (someb (λ g, jeqb (g_gid g) gid && (0 <? g_unread g)) (ib_groups s)) then s
  else with_groups s (patchGroup (ib_groups s) gid (λ g, group_mail 0 (g_count g) (g_lastTs g) (g_lastBody g) g)).

Definition markReadLocal (s : InboxState) (fp : list Z) : InboxState :=
  if negb (someb (λ f, jeqb (f_fp f) fp && (0 <? f_unread f)) (ib_friends s)) then s
  else with_friends s (patchFriend (ib_friends s) fp (λ f, with_mail 0 (f_count f) (f_lastTs f) (f_lastBody f) f)).

Definition shouldNotify (n : MailNotice) (current : option (list Z)) : bool :=
  match n_sessionId n with None => true | Some _ => negb (bool_decide (n_sessionId n = current)) end.

Definition formatAge `{LocalTime} (ts : option Z) (now : Z) : list Z :=
  match ts with
  | None => []
  | Some ts =>
      if ts <=? 0 then []
      else
        let diff := Z.max 0 (now - ts) in
        let minute := 60000 in
        if diff <? minute then js "now"
        else if diff <? 60 * minute then dec (diff / minute) ++ js "m"
        else if diff <? 24 * 60 * minute then dec (diff / (60 * minute)) ++ js "h"
        else if diff <? 7 * 24 * 60 * minute then dec (diff / (24 * 60 * minute)) ++ js "d"
        else dec (getMonth ts + 1) ++ js "/" ++ dec (getDate ts)
  end.

(** [body.replace(/\s+/g, ' ')]. *)
Fixpoint collapse_ws (s : list Z) (in_ws : bool) : list Z :=
  match s with
  | [] => []
  | c :: s' => if is_ws c then if in_ws then collapse_ws s' true else 32 :: collapse_ws s' true
               else c :: collapse_ws s' false
  end.

Definition previewOf (body : option (list Z)) (max : nat) : list Z :=
  match body with
  | None => []
  | Some b =>
      let flat := trim (collapse_ws b false) in
      if (max <? length flat)%nat then take (max - 1) flat ++ js "…" else flat
  end.

(** ** Group-room helpers (client/group-room.ts) *)

Inductive GroupRole := RoleOwner | RoleAdmin | RoleMember.
Inductive Who := WAll | WOwner | WAdmins.
Record RoomProfile := mkRoom { ro_room : option (list Z); ro_speakWho : option Who; ro_speakHumans : bool; ro_speakAgents : bool;
                               ro_admins : option (list (list Z)) }.

Definition roomKeyOf (p : option RoomProfile) : list Z :=
  match p ≫= ro_room with None => js "chat" | Some r => if jeqb r [] then js "chat" else r end.

Definition canSpeakAs (p : option RoomProfile) (role : GroupRole) (by_ : Provenance) : bool :=
  match p with
  | None => true
  | Some p =>
      match ro_speakWho p ?? WAll, role with
      | WOwner, RoleAdmin | WOwner, RoleMember | WAdmins, RoleMember => false
      | _, _ => match by_ with ByAlter => ro_speakAgents p | ByOwner => ro_speakHumans p end
      end
  end.

Definition roleOf (mine : bool) (p : option RoomProfile) (myFp : option (list Z)) : GroupRole :=
  if mine then RoleOwner
  else match myFp with
  | Some fp => if bool_decide (fp ∈ (p ≫= ro_admins) ?? []) then RoleAdmin else RoleMember
  | None => RoleMember
  end.

(** * Theorems *)

(** ** The draft badges *)

(** What the row of a friend with [n] waiting drafts carries. *)
Definition badge (n : nat) : option nat := match n with O => None | _ => Some n end.

Definition badges_ok (s : InboxState) : Prop :=
  ∀ f, f ∈ ib_friends s → f_drafts f = badge (length (draftsFor s (f_fp f))).

(** The frames of the host: a draft keeps its id and its target, a row that
    is new to the list has no drafts waiting. *)
Definition frame_ok (s : InboxState) (fr : Frame) : Prop :=
  match fr with
  | FrDraft _ d => ∀ x, x ∈ ib_drafts s → d_id x = d_id d → d_fp x = d_fp d
  | FrMessage m => someb (has_fp (fm_from m)) (ib_friends s) = false → draftsFor s (fm_from m) = []
  | FrAccept f => f_drafts f = None ∧ (someb (has_fp (f_fp f)) (ib_friends s) = false → draftsFor s (f_fp f) = [])
  | _ => True
  end.

Fixpoint frames_ok (s : InboxState) (frs : list Frame) : Prop :=
  match frs with
  | [] => True
  | fr :: rest => frame_ok s fr ∧ frames_ok (applyFrame s fr).1 rest
  end.

Definition run_frames (s : InboxState) (frs : list Frame) : InboxState :=
  fold_left (λ s fr, (applyFrame s fr).1) frs s.

Lemma draft_counts_from (drafts : list ApiDraft) (m : gmap (list Z) nat) (fp : list Z) :
  fold_left (λ m d, <[d_fp d := ((m !! d_fp d ?? 0%nat) + 1)%nat]> m) drafts m !! fp =
  match length (filterb (λ d, jeqb (d_fp d) fp) drafts) with
  | O => m !! fp
  | n => Some ((m !! fp ?? 0%nat) + n)%nat
  end.
Proof.
  revert m. induction drafts as [|d drafts IH]; intros m; simpl; [done|].
  rewrite IH. destruct (jeqb (d_fp d) fp) eqn:E; simpl.
  - apply jeqb_eq in E as ->. rewrite lookup_insert_eq. simpl.
    destruct (length _); simpl; f_equal; lia.
  - apply jeqb_neq in E. rewrite lookup_insert_ne by done. done.
Qed.

Lemma draft_counts_lookup (drafts : list ApiDraft) (fp : list Z) :
  draft_counts drafts !! fp = badge (length (filterb (λ d, jeqb (d_fp d) fp) drafts)).
Proof. unfold draft_counts. rewrite draft_counts_from, lookup_empty. by destruct (length _). Qed.

Lemma fromApiState_badges previous s : badges_ok (fromApiState previous s).
Proof.
  intros f Hf. unfold fromApiState in Hf. simpl in Hf.
  apply list_elem_of_In, in_map_iff in Hf as (g & <- & _).
  unfold draftsFor. simpl. rewrite draft_counts_lookup.
  destruct (badge _) eqn:E; simpl; repeat case_match; simpl in *; congruence.
Qed.

Lemma elem_of_patchFriend l fp p f :
  f ∈ patchFriend l fp p ↔ ∃ g, g ∈ l ∧ f = if jeqb (f_fp g) fp then p g else g.
Proof. unfold patchFriend. rewrite list_elem_of_In, in_map_iff. setoid_rewrite list_elem_of_In. naive_solver. Qed.

(** A patch that keeps fingerprint and badge keeps the invariant. *)
Lemma badges_patch s t fp p :
  badges_ok s → ib_drafts t = ib_drafts s → ib_friends t = patchFriend (ib_friends s) fp p →
  (∀ f, jeqb (f_fp f) fp = true → f_fp (p f) = f_fp f ∧ f_drafts (p f) = f_drafts f) → badges_ok t.
Proof.
  intros Hs Hd Hf Hp f Hin. rewrite Hf in Hin. apply elem_of_patchFriend in Hin as (g & Hg & ->).
  specialize (Hs g Hg). unfold draftsFor in *. rewrite Hd.
  destruct (jeqb (f_fp g) fp) eqn:E; [|done]. destruct (Hp g E) as [-> ->]. done.
Qed.

Lemma badges_append s t f :
  badges_ok s → ib_drafts t = ib_drafts s → ib_friends t = ib_friends s ++ [f] →
  f_drafts f = None → draftsFor s (f_fp f) = [] → badges_ok t.
Proof.
  intros Hs Hd Hf Hn H0 g Hin. rewrite Hf in Hin. unfold draftsFor in *. rewrite Hd.
  apply elem_of_app in Hin as [Hin|Hin%list_elem_of_singleton]; [by apply Hs|]. subst. by rewrite Hn, H0.
Qed.

Lemma badges_same s t :
  badges_ok s → ib_drafts t = ib_drafts s → ib_friends t = ib_friends s → badges_ok t.
Proof. intros Hs Hd Hf f. unfold badges_ok, draftsFor in *. rewrite Hd, Hf. apply Hs. Qed.

Lemma on_draft_badges s added d :
  (∀ x, x ∈ ib_drafts s → d_id x = d_id d → d_fp x = d_fp d) → badges_ok s → badges_ok (on_draft s added d).
Proof.
  intros Hid Hs f Hin. unfold on_draft in Hin. simpl in Hin.
  apply elem_of_patchFriend in Hin as (g & Hg & ->). unfold draftsFor. cbn [on_draft ib_drafts].
  set (drafts := if added then _ else _) in *. fold drafts.
  destruct (jeqb (f_fp g) (d_fp d)) eqn:E.
  - apply jeqb_eq in E. destruct (length (filterb _ drafts)) eqn:En; simpl; rewrite E, En; done.
  - rewrite (Hs g Hg). do 2 f_equal. unfold draftsFor, drafts. apply jeqb_neq in E.
    transitivity (filterb (λ x, jeqb (d_fp x) (f_fp g)) (filterb (λ x, negb (jeqb (d_id x) (d_id d))) (ib_drafts s))).
    + symmetry. clear drafts. induction (ib_drafts s) as [|x l IH]; simpl; [done|].
      assert (filterb (λ x, jeqb (d_fp x) (f_fp g)) (filterb (λ x, negb (jeqb (d_id x) (d_id d))) l)
              = filterb (λ x, jeqb (d_fp x) (f_fp g)) l) as IH' by (apply IH; set_solver).
      destruct (jeqb (d_id x) (d_id d)) eqn:Ei; simpl; rewrite IH'; [|done].
      apply jeqb_eq in Ei. rewrite (Hid x) by set_solver.
      destruct (jeqb (d_fp d) (f_fp g)) eqn:E2; [apply jeqb_eq in E2; congruence|done].
    + destruct added; [|done]. rewrite filterb_app. simpl.
      destruct (jeqb (d_fp d) (f_fp g)) eqn:E2; [apply jeqb_eq in E2; congruence|]. by rewrite app_nil_r.
Qed.

Lemma applyFrame_badges s fr : frame_ok s fr → badges_ok s → badges_ok (applyFrame s fr).1.
Proof.
  intros Hok Hs. destruct fr; simpl in *; try done;
    try (by eapply badges_same; [exact Hs|..]);
    try (by eapply badges_patch; [exact Hs|..]).
  - unfold on_message. simpl. destruct (someb _ _) eqn:E.
    + by eapply badges_patch; [exact Hs|..].
    + eapply badges_append; [exact Hs|done..|by apply Hok].
  - eapply badges_patch; [exact Hs|done..|]. intros f _. cbv beta. by case_match.
  - destruct (someb _ _); [done|]. by eapply badges_same; [exact Hs|..].
  - destruct Hok as [Hn H0]. destruct (someb _ _) eqn:E.
    + eapply badges_patch; [exact Hs|done..|]. intros f Ef. apply jeqb_eq in Ef. simpl. by rewrite Hn.
    + eapply badges_append; [exact Hs|done..|by apply H0].
  - by apply on_draft_badges.
Qed.

(** The badge of every friend row is the number of drafts waiting for that
    friend, absent when there are none: a fresh [/state] answer establishes it
    whatever was folded before, and every sequence of frames keeps it. *)
Theorem inbox_badges (previous : InboxState) (api : ApiState) (frs : list Frame) :
  frames_ok (fromApiState previous api) frs →
  badges_ok (run_frames (fromApiState previous api) frs).
Proof.
  generalize (fromApiState_badges previous api). generalize (fromApiState previous api) as s.
  unfold run_frames. induction frs as [|fr frs IH]; intros s Hs Hok; simpl in *; [done|].
  destruct Hok as [Hfr Hok]. apply IH; [|done]. by apply applyFrame_badges.
Qed.

Definition demo_friend (fp : list Z) : InboxFriend :=
  mkFriend fp fp None None None 0 0 None None None None None None (Some 7%nat).

Lemma inbox_badges_witness :
  let s := fromApiState EMPTY_INBOX (mkApiState [demo_friend (js "a"); demo_friend (js "b")] None []
             (Some [mkApiDraft (js "1") (js "a") []]) None) in
  let frs := [FrDraft true (mkApiDraft (js "2") (js "a") []); FrDraft false (mkApiDraft (js "1") (js "a") []);
              FrMessage (mkFM (js "m") (js "c") (js "C") (js "hi") 5)] in
  badges_ok (run_frames s frs) ∧ map f_drafts (ib_friends (run_frames s frs)) = [Some 1%nat; None; None].
Proof.
  split; [|by vm_compute]. apply inbox_badges.
  cbn [frames_ok frame_ok]. split_and!; try done.
  - intros x Hx. vm_compute in Hx. apply list_elem_of_singleton in Hx as ->. done.
  - intros x Hx. apply elem_of_cons in Hx as [->|Hx]; [done|]. apply list_elem_of_singleton in Hx as ->. done.
Defined.

(** ** Unread accounting *)

Lemma unreadTotal_from (l : list InboxFriend) (c : Z) :
  fold_left (λ total f, total + unread_of (f_unread f) (f_muted f)) l c = c + unreadTotal l.
Proof.
  unfold unreadTotal. revert c. induction l as [|f l IH]; intros c; simpl; [lia|]. rewrite IH, (IH (0 + _)). lia.
Qed.

Lemma unreadTotal_cons f l : unreadTotal (f :: l) = unread_of (f_unread f) (f_muted f) + unreadTotal l.
Proof. unfold unreadTotal at 1. simpl. by rewrite unreadTotal_from. Qed.

Lemma unreadTotal_app l k : unreadTotal (l ++ k) = unreadTotal l + unreadTotal k.
Proof. induction l as [|f l IH]; simpl; [done|]. rewrite !unreadTotal_cons, IH. lia. Qed.

Lemma patchFriend_absent l fp p : fp ∉ map f_fp l → patchFriend l fp p = l.
Proof.
  induction l as [|f l IH]; simpl; [done|]. intros Hn.
  assert (jeqb (f_fp f) fp = false) as -> by (apply jeqb_neq; set_solver).
  f_equal. apply IH. set_solver.
Qed.

(** Patching one row of a list with distinct fingerprints. *)
Lemma patchFriend_one l fp p f :
  NoDup (map f_fp l) → f ∈ l → f_fp f = fp →
  ∃ l1 l2, l = l1 ++ f :: l2 ∧ patchFriend l fp p = l1 ++ p f :: l2.
Proof.
  intros Hnd [l1 [l2 ->]]%list_elem_of_split Hfp. exists l1, l2. split; [done|].
  rewrite map_app in Hnd. simpl in Hnd. apply NoDup_app in Hnd as (_ & Hd & Hnd).
  apply NoDup_cons in Hnd as [Hn _]. unfold patchFriend. rewrite map_app. simpl.
  rewrite (proj2 (jeqb_eq _ _) Hfp). subst.
  pose proof (patchFriend_absent l1 (f_fp f) p) as H1. pose proof (patchFriend_absent l2 (f_fp f) p) as H2.
  unfold patchFriend in H1, H2. rewrite H1, H2; [done|done|]. intros Hin. apply (Hd _ Hin). set_solver.
Qed.

(** Reading a conversation takes exactly its unread count off the sidebar
    number; a later message frame from the same friend puts one back on (none
    while the friend is muted), and no other row moves. *)
Theorem unread_accounting (s : InboxState) (f : InboxFriend) (m : FrameMessage) :
  NoDup (map f_fp (ib_friends s)) → f ∈ ib_friends s → 0 <= f_unread f → fm_from m = f_fp f →
  let read := markReadLocal s (f_fp f) in
  unreadTotal (ib_friends read) = unreadTotal (ib_friends s) - unread_of (f_unread f) (f_muted f) ∧
  unreadTotal (ib_friends (on_message read m).1) =
    unreadTotal (ib_friends read) + (if bool_decide (f_muted f = Some true) then 0 else 1).
Proof.
  intros Hnd Hin Hu Hm. simpl.
  assert (∃ l1 l2 f', ib_friends s = l1 ++ f :: l2 ∧ ib_friends (markReadLocal s (f_fp f)) = l1 ++ f' :: l2 ∧
            f_unread f' = 0 ∧ f_muted f' = f_muted f ∧ f_fp f' = f_fp f) as (l1 & l2 & f' & Hl & Hr & Hu' & Hmu & Hfp).
  { unfold markReadLocal. destruct (negb _) eqn:E.
    - apply list_elem_of_split in Hin as (l1 & l2 & Hl). exists l1, l2, f. split_and!; try done.
      apply negb_true_iff in E. rewrite someb_false in E.
      specialize (E f). rewrite jeqb_refl, Hl in E. simpl in E. specialize (E ltac:(set_solver)). bools. lia.
    - destruct (patchFriend_one (ib_friends s) (f_fp f) (λ f, with_mail 0 (f_count f) (f_lastTs f) (f_lastBody f) f) f)
        as (l1 & l2 & Hl & Hp); [done..|]. exists l1, l2, (with_mail 0 (f_count f) (f_lastTs f) (f_lastBody f) f).
      simpl. by rewrite Hp. }
  rewrite Hr, Hl, !unreadTotal_app, !unreadTotal_cons, Hu', Hmu. split.
  { change (unread_of 0 (f_muted f)) with 0. lia. }
  rewrite Hm.
  assert (someb (has_fp (f_fp f)) (l1 ++ f' :: l2) = true) as ->.
  { apply someb_true. exists f'. split; [set_solver|]. unfold has_fp. by apply jeqb_eq. }
  assert (NoDup (map f_fp (l1 ++ f' :: l2))) as Hnd'.
  { rewrite Hl, map_app in Hnd. rewrite map_app. simpl in *. by rewrite Hfp. }
  set (p := λ g, with_mail _ _ _ _ g).
  assert (patchFriend (l1 ++ f' :: l2) (f_fp f) p = l1 ++ p f' :: l2) as ->.
  { rewrite map_app in Hnd'. simpl in Hnd'. apply NoDup_app in Hnd' as (_ & Hd & [Hn _]%NoDup_cons).
    unfold patchFriend. rewrite map_app. simpl. rewrite (proj2 (jeqb_eq _ _) Hfp).
    fold (patchFriend l1 (f_fp f) p) (patchFriend l2 (f_fp f) p).
    rewrite !patchFriend_absent; [done| |].
    - rewrite <- Hfp. done.
    - intros Hc. apply (Hd _ Hc). rewrite <- Hfp. set_solver. }
  rewrite unreadTotal_app, unreadTotal_cons. unfold p. simpl. rewrite Hu', Hmu. unfold unread_of. simpl.
  destruct (bool_decide (f_muted f = Some true)); simpl; lia.
Qed.

Lemma unread_accounting_witness :
  let f := with_mail 3 9 None None (demo_friend (js "a")) in
  let s := with_friends EMPTY_INBOX [demo_friend (js "b"); f] in
  unreadTotal (ib_friends (on_message (markReadLocal s (js "a")) (mkFM (js "m") (js "a") [] (js "hi") 5)).1) = 1.
Proof.
  intros f s. destruct (unread_accounting s f (mkFM (js "m") (js "a") [] (js "hi") 5)) as [_ H].
  - vm_compute. repeat constructor; set_solver.
  - apply elem_of_cons. right. by apply list_elem_of_singleton.
  - by vm_compute.
  - done.
  - exact H.
Defined.

(** ** Previews *)

(** A preview never exceeds its limit and contains no line break. *)
Lemma previewOf_length body max : (1 ≤ max)%nat → (length (previewOf body max) ≤ max)%nat.
Proof.
  intros Hm. destruct body as [b|]; simpl; [|lia].
  destruct (max <? length (trim (collapse_ws b false)))%nat eqn:E.
  - apply Nat.ltb_lt in E. rewrite length_app, length_take. change (length (js "…")) with 1%nat. lia.
  - by apply Nat.ltb_ge in E.
Qed.
