(* ===== verification/Network.v ===== *)
(** * The network interface (network/types.ts, network/send.ts)

    The data every backend exchanges with the host plugins, the [NetworkClient]
    interface as a class of operations over a backend state, and
    [sendAndArchive], the send shared by the page and the alter's tool.
    An asynchronous call is a state transformer that may fail with a
    [NetworkError]; what happens between two calls is a step of its own in the
    theorems that need it. *)

From S2P Require Import Prelude JsString Json Policy GroupContract.
#[local] Open Scope Z_scope.

(** ** Calls that may reject *)

Record NetworkError := mkErr { err_message : list Z; err_code : Z }.
#[export] Instance NetworkError_eq_dec : EqDecision NetworkError.
Proof. solve_decision. Defined.

Definition IO (S A : Type) : Type := S → (NetworkError + A) * S.

#[export] Instance io_ret S : MRet (IO S) := λ A a s, (inr a, s).
#[export] Instance io_bind S : MBind (IO S) := λ A B k m s,
  match m s with
  | (inl e, s') => (inl e, s')
  | (inr a, s') => k a s'
  end.

Definition throw {S A} (e : NetworkError) : IO S A := λ s, (inl e, s).
(** [try { m } catch { h }]. *)
Definition catch {S A} (m : IO S A) (h : NetworkError → IO S A) : IO S A := λ s,
  match m s with
  | (inl e, s') => h e s'
  | (inr a, s') => (inr a, s')
  end.
(** One step given by its state function; running a sequence of steps. *)
(** The outcome as a value: [Promise.allSettled] for one promise. *)
Definition attempt {S A} (m : IO S A) : IO S (NetworkError + A) := λ s, let '(r, s') := m s in (inr r, s').

Definition io {S A} (f : S → (NetworkError + A) * S) : IO S A := f.
Definition exec {S A} (m : IO S A) (s : S) : (NetworkError + A) * S := m s.
Definition get_state {S} : IO S S := λ s, (inr s, s).
Definition gets {S A} (f : S → A) : IO S A := λ s, (inr (f s), s).
Definition modify {S} (f : S → S) : IO S unit := λ s, (inr tt, f s).

Lemma io_bind_ok {S A B} (m : IO S A) (k : A → IO S B) s b s' :
  (m ≫= k) s = (inr b, s') ↔ ∃ a s1, m s = (inr a, s1) ∧ k a s1 = (inr b, s').
Proof. unfold mbind, io_bind. destruct (m s) as [[e|a] s1]; naive_solver. Qed.

(** Splits a successful run of a sequence of calls into its calls. *)
Ltac io_inv :=
  repeat match goal with
  | H : (_ ≫= _) _ = (inr _, _) |- _ =>
      apply io_bind_ok in H; let a := fresh "a" in let s := fresh "s" in let E := fresh "E" in
      destruct H as (a & s & E & H)
  | H : mret _ _ = (inr _, _) |- _ => unfold mret, io_ret in H; simplify_eq/=
  | H : throw _ _ = (inr _, _) |- _ => discriminate H
  | H : gets _ _ = (inr _, _) |- _ => unfold gets in H; simplify_eq/=
  | H : modify _ _ = (inr _, _) |- _ => unfold modify in H; simplify_eq/=
  end.

(** ** Frames: calls that only move the state along a preorder *)

Section moves.
Context {S : Type} (R : S → S → Prop) `{!PreOrder R}.

Definition moves {A} (m : IO S A) : Prop := ∀ s, R s (m s).2.

Lemma moves_ret {A} (a : A) : moves (mret a).
Proof. intros s. done. Qed.
Lemma moves_throw {A} e : moves (throw e : IO S A).
Proof. intros s. done. Qed.
Lemma moves_gets {A} (f : S → A) : moves (gets f).
Proof. intros s. done. Qed.
Lemma moves_modify f : (∀ s, R s (f s)) → moves (modify f).
Proof. intros Hf s. apply Hf. Qed.
Lemma moves_bind {A B} (m : IO S A) (k : A → IO S B) : moves m → (∀ a, moves (k a)) → moves (m ≫= k).
Proof.
  intros Hm Hk s. unfold mbind, io_bind. specialize (Hm s). destruct (m s) as [[e|a] s1]; simpl in *; [done|]. etrans; [exact Hm|apply Hk].
Qed.
Lemma moves_catch {A} (m : IO S A) h : moves m → (∀ e, moves (h e)) → moves (catch m h).
Proof.
  intros Hm Hh s. unfold catch. specialize (Hm s). destruct (m s) as [[e|a] s1]; simpl in *; [|done]. etrans; [exact Hm|apply Hh].
Qed.
Lemma moves_attempt {A} (m : IO S A) : moves m → moves (attempt m).
Proof. intros Hm s. unfold attempt. specialize (Hm s). by destruct (m s) as [r s1]. Qed.
End moves.

Create HintDb frames discriminated.
#[export] Hint Resolve moves_ret moves_throw moves_gets moves_bind moves_catch moves_attempt : frames.

(** Error codes of the peer's JSON-RPC table. *)
Module NetworkErrorCode.
Definition noIdentity : Z := -32001.
Definition notFriend : Z := -32002.
Definition identityExists : Z := -32003.
Definition notFound : Z := -32004.
Definition badCard : Z := -32005.
Definition network : Z := -32006.
Definition badFile : Z := -32007.
Definition noProfile : Z := -32008.
Definition peerUnavailable : Z := -32099.
End NetworkErrorCode.

(** ** Data *)

Record Identity := mkIdentity { id_fp : list Z; id_name : list Z; id_cardUri : list Z; id_createdAt : option (list Z) }.

Record Friend := mkNFriend {
  fr_fp : list Z; fr_name : list Z; fr_remark : option (list Z); fr_cardName : option (list Z);
  fr_protocol : option (list Z); fr_online : option bool; fr_unread : Z; fr_count : Z;
  fr_lastTs : option Z; fr_lastBody : option (list Z); fr_typing : option bool; fr_addedAt : option (list Z) }.

Record PendingRequest := mkRequest {
  rq_id : list Z; rq_fp : list Z; rq_name : list Z; rq_greeting : list Z; rq_createdAt : option (list Z) }.

Record InboundMessage := mkInbound {
  im_id : list Z; im_from : list Z; im_name : list Z; im_body : list Z; im_ts : Z; im_seq : option Z;
  im_auto : option bool; im_by : option (list Z); im_agent : option (list Z); im_type : option (list Z);
  im_artifactPath : option (list Z); im_artifactName : option (list Z) }.

Record ConversationEntry := mkEntry {
  ce_seq : Z; ce_dir : Dir; ce_id : list Z; ce_body : list Z; ce_ts : Z; ce_from : option (list Z);
  ce_type : option (list Z); ce_auto : option bool; ce_by : option (list Z); ce_agent : option (list Z);
  ce_status : option (list Z); ce_artifactName : option (list Z) }.

Record GroupProfile := mkProfile {
  gpf_template : option (list Z); gpf_room : option (list Z); gpf_speakHumans : bool; gpf_speakAgents : bool;
  gpf_speakWho : option (list Z); gpf_join : option (list Z); gpf_joinPrice : option (list Z);
  gpf_joinAddr : option (list Z); gpf_joinNote : option (list Z); gpf_agentWake : option (list Z);
  gpf_agentTier : option (list Z); gpf_autoPerHour : option number; gpf_agentRounds : option number;
  gpf_admins : option (list (list Z)); gpf_public : option bool; gpf_tags : option (list (list Z));
  gpf_rules : option (list Z) }.

Record GroupPin := mkPin { pin_id : list Z; pin_from : list Z; pin_ts : Z; pin_body : list Z }.

Record JoinPaymentProof := mkProof { jp_message : list Z; jp_pubkey : list Z; jp_sig : list Z }.
Record JoinPayment := mkPayment {
  pay_tx_hash : list Z; pay_amount : list Z; pay_to : list Z; pay_payer : option (list Z);
  pay_proof : option JoinPaymentProof; pay_note : option (list Z) }.

Record GroupApplication := mkApplication {
  ap_fp : list Z; ap_name : list Z; ap_note : list Z; ap_ts : option Z; ap_payment : option JoinPayment }.

Record GroupMember := mkMember { mb_fp : list Z; mb_name : list Z; mb_agents : option (list (list Z)) }.

Record GroupRow := mkGroupRow {
  gr_gid : list Z; gr_name : list Z; gr_ownerFp : list Z; gr_mine : bool; gr_version : Z; gr_members : Z;
  gr_unread : Z; gr_count : Z; gr_lastTs : option Z; gr_lastBody : option (list Z); gr_profile : option GroupProfile }.

Inductive MemberRole := MrOwner | MrAdmin | MrMember.
#[export] Instance MemberRole_eq_dec : EqDecision MemberRole.
Proof. solve_decision. Defined.

Record GroupInfo := mkGroupInfo {
  gi_row : GroupRow; gi_memberList : list GroupMember; gi_pins : list GroupPin; gi_myRole : MemberRole;
  gi_applications : option (list GroupApplication) }.

(** A group's public card; what a stranger sees before applying. *)
Record GroupCardView := mkCard {
  gc_gid : list Z; gc_name : list Z; gc_join : list Z; gc_members : Z; gc_joinPrice : option (list Z);
  gc_joinAddr : option (list Z); gc_joinNote : option (list Z); gc_rulesHead : option (list Z) }.

Record SendOptions := mkSendOptions { so_file : option (list Z); so_auto : option bool }.
Record GroupSendOptions := mkGroupSendOptions { go_by : option (list Z); go_auto : option bool; go_agent : option (list Z) }.
Record SendReceipt := mkReceipt { rc_id : list Z; rc_seq : option Z; rc_status : list Z }.
Record ConvOptions := mkConv { cv_since : option Z; cv_limit : option Z }.

Inductive NetworkEvent :=
| EvMessage (m : InboundMessage)
| EvTyping (fp : list Z) (on : bool)
| EvFriendRequest (r : PendingRequest)
| EvFriendAccept (f : Friend)
| EvPresence (fp : list Z) (online : bool)
| EvStatus
| EvGroupMessage (gid : list Z) (m : InboundMessage)
| EvGroupTyping (gid fp : list Z) (agent : option (list Z)) (on : bool)
| EvGroupUpdate (gid : list Z)
| EvGroupApplication (gid : list Z) (a : GroupApplication).

(** The profile as the structural readers of group-contract.ts see it. *)
Definition profile_json (p : GroupProfile) : json :=
  JObj (opt_prop (js "template") JStr (gpf_template p) ++ opt_prop (js "room") JStr (gpf_room p)
    ++ [(js "speakHumans", JBool (gpf_speakHumans p)); (js "speakAgents", JBool (gpf_speakAgents p))]
    ++ opt_prop (js "speakWho") JStr (gpf_speakWho p) ++ opt_prop (js "join") JStr (gpf_join p)
    ++ opt_prop (js "joinPrice") JStr (gpf_joinPrice p) ++ opt_prop (js "joinAddr") JStr (gpf_joinAddr p)
    ++ opt_prop (js "joinNote") JStr (gpf_joinNote p) ++ opt_prop (js "agentWake") JStr (gpf_agentWake p)
    ++ opt_prop (js "agentTier") JStr (gpf_agentTier p) ++ opt_prop (js "autoPerHour") JNum (gpf_autoPerHour p)
    ++ opt_prop (js "agentRounds") JNum (gpf_agentRounds p)
    ++ opt_prop (js "admins") (λ l, JArr (map JStr l)) (gpf_admins p) ++ opt_prop (js "public") JBool (gpf_public p)
    ++ opt_prop (js "tags") (λ l, JArr (map JStr l)) (gpf_tags p) ++ opt_prop (js "rules") JStr (gpf_rules p)).

Definition row_profile (g : GroupRow) : GroupProfileView := normalizeGroupProfile (profile_json <$> gr_profile g).

(** [entryBy] of a typed entry. *)
Definition entry_by (e : ConversationEntry) : option (list Z) :=
  match ce_by e with Some b => non_empty b | None => None end.

(** ** The interface *)

Class NetworkClient (S : Type) := {
  Date_now : S → Z;
  net_identity : IO S (option Identity);
  net_parseCard : list Z → IO S (list Z * list Z);
  net_friends_list : IO S (list Friend);
  net_friends_add : list Z → option (list Z) → IO S Friend;
  net_presence : list (list Z) → IO S (gmap (list Z) bool);
  net_send : list Z → list Z → option SendOptions → IO S SendReceipt;
  net_conversation : list Z → ConvOptions → IO S (list ConversationEntry * bool);
  net_groups_info : list Z → IO S GroupInfo;
  net_groups_send : list Z → list Z → option GroupSendOptions → IO S SendReceipt;
  net_groups_conversation : list Z → ConvOptions → IO S (list ConversationEntry);
  net_status : S → json;
  net_createIdentity : list Z → IO S Identity;
  net_friends_pending : IO S (list PendingRequest);
  net_friends_accept : list Z → option (list Z) → IO S Friend;
  net_friends_reject : list Z → IO S unit;
  net_friends_set : list Z → option (list Z) → option (list Z) → IO S Friend;  (** remark, protocol *)
  net_friends_card : list Z → IO S (list Z * list Z * list Z);
  (** Capability profiles are free-form objects; the peer signs what it gets. *)
  net_profile_get : IO S (option json);
  net_profile_save : json → IO S json;
  net_directory_fetch : list Z → IO S (option json);
  net_directory_publish : IO S unit;
  net_groups_list : IO S (list GroupRow);
  net_groups_create : list Z → list (list Z) → option GroupProfile → IO S GroupInfo;
  net_groups_markRead : list Z → Z → IO S unit;
  net_groups_announceVoices : list Z → list (list Z) → IO S unit;
  net_groups_typing : list Z → bool → option (list Z) → IO S unit;
  net_groups_leave : list Z → IO S unit;
  net_groups_kick : list Z → list Z → IO S unit;
  net_groups_setProfile : list Z → GroupProfile → IO S unit;
  net_groups_pin : list Z → list Z → IO S unit;
  net_groups_unpin : list Z → list Z → IO S unit;
  net_groups_lookup : list Z → IO S (option GroupCardView);
  net_groups_apply : list Z → option (list Z) → option JoinPayment → IO S (list Z);
  net_groups_applications : list Z → IO S (list GroupApplication);
  net_groups_approve : list Z → list Z → IO S unit;
  net_groups_applicationReject : list Z → list Z → IO S unit;
  net_groups_invite : list Z → list Z → IO S unit;
  net_typing : list Z → bool → IO S unit;
  net_markRead : list Z → Z → IO S unit;
  net_relaunch : option (IO S unit);  (** absent when the peer offers no [host.relaunch] *)
}.

(** The archive slice both [conversation] calls answer: entries after [since],
    then the last [limit] of them. *)
Definition archive_slice (entries : list ConversationEntry) (o : ConvOptions) : list ConversationEntry :=
  let es := match cv_since o with Some s => filterb (λ e, s <? ce_seq e) entries | None => entries end in
  match cv_limit o with
  | Some l => if (0 <? l) && (l <? Z.of_nat (length es)) then drop (length es - Z.to_nat l) es else es
  | None => es
  end.

(** ** sendAndArchive *)

Section send.
Context {S : Type} `{NetworkClient S}.

(** The entry built when the read-back misses. *)
Definition constructed_entry (receipt : SendReceipt) (body : list Z) (options : option SendOptions) (now : Z) : ConversationEntry :=
  mkEntry (rc_seq receipt ?? 0) dir_out (rc_id receipt) body now None None
    (if bool_decide ((options ≫= so_auto) = Some true) then Some true else None) None None (Some (rc_status receipt)) None.

Definition read_back (fp : list Z) (receipt : SendReceipt) : IO S (option ConversationEntry) :=
  match rc_seq receipt with
  | Some seq =>
      if 0 <? seq then
        catch (r ← net_conversation fp (mkConv (Some (seq - 1)) (Some 1));
               mret (findb (λ e, ce_seq e =? seq) r.1))
              (λ _, mret None)
      else mret None
  | None => mret None
  end.

Definition sendAndArchive (fp body : list Z) (options : option SendOptions) : IO S (ConversationEntry * SendReceipt) :=
  receipt ← net_send fp body options;
  entry ← read_back fp receipt;
  now ← gets Date_now;
  mret (entry ?? constructed_entry receipt body options now, receipt).
End send.

(** ** What an archiving backend promises its clients *)

(** The entry of one successful send. *)
Definition is_sent (body : list Z) (options : option SendOptions) (receipt : SendReceipt) (e : ConversationEntry) : Prop :=
  ce_dir e = dir_out ∧ ce_id e = rc_id receipt ∧ ce_body e = body ∧ rc_seq receipt = Some (ce_seq e) ∧
  (ce_auto e = Some true ↔ (options ≫= so_auto) = Some true).

(** A send appends one entry to the archive, and until the next send to the
    same friend reading back from just before its [seq] answers that entry. *)
Class ArchivingClient (S : Type) `{NetworkClient S} (inv : S → Prop) := {
  send_archives : ∀ fp body options s receipt s1,
    inv s → net_send fp body options s = (inr receipt, s1) →
    ∃ e t s2, 0 < ce_seq e ∧ is_sent body options receipt e ∧
      net_conversation fp (mkConv (Some (ce_seq e - 1)) (Some 1)) s1 = (inr ([e], t), s2);
}.

(** On an archiving backend [sendAndArchive] succeeds exactly when the send
    does, and hands out the archived line itself: the receipt's [seq] and id,
    the body, and the [auto] mark exactly when it was asked for. *)
Lemma sendAndArchive_archived {S : Type} `{ArchivingClient S inv} fp body options s receipt s1 :
  inv s → net_send fp body options s = (inr receipt, s1) →
  ∃ e s2, sendAndArchive fp body options s = (inr (e, receipt), s2) ∧ is_sent body options receipt e.
Proof.
  intros Hinv Hsend. destruct (send_archives fp body options s receipt s1 Hinv Hsend) as (e & t & s2 & Hpos & He & Hc).
  exists e, s2. split; [|done]. destruct He as (_ & _ & _ & Hseq & _).
  unfold sendAndArchive, mbind, io_bind. rewrite Hsend. unfold read_back. rewrite Hseq.
  assert ((0 <? ce_seq e) = true) as -> by (by apply Z.ltb_lt).
  unfold catch, mbind, io_bind. rewrite Hc. simpl. by rewrite Z.eqb_refl.
Qed.

(** Without the promise: the entry handed out is an outbound line of the
    receipt's [seq] whenever the read-back finds it, and otherwise carries the
    body and the [auto] mark of this very send. *)
Lemma sendAndArchive_ok {S : Type} `{NetworkClient S} fp body options s e receipt s2 :
  sendAndArchive fp body options s = (inr (e, receipt), s2) →
  ∃ s1, net_send fp body options s = (inr receipt, s1) ∧
  (rc_seq receipt = Some (ce_seq e) ∨ is_sent body options (mkReceipt (rc_id receipt) (Some (ce_seq e)) (rc_status receipt)) e).
Proof.
  intros Hs. unfold sendAndArchive in Hs. io_inv. exists s0. split; [done|].
  destruct a0 as [e0|]; simpl.
  - left. unfold read_back in E0. destruct (rc_seq receipt) as [seq|]; [|by io_inv].
    destruct (0 <? seq); [|by io_inv]. unfold catch, mbind, io_bind in E0.
    destruct (net_conversation fp _ _) as [[err|r] s4]; unfold mret, io_ret in E0; simplify_eq.
    match goal with Hf : findb _ _ = Some e0 |- _ => apply findb_Some in Hf as [_ Hseq] end. apply Z.eqb_eq in Hseq. by rewrite Hseq.
  - right. unfold is_sent, constructed_entry. simpl. split_and!; try done.
    by destruct (bool_decide ((options ≫= so_auto) = Some true)) eqn:Eb; bools.
Qed.
