(* ===== verification/FakeNetwork.v ===== *)
(** * The in-memory backend (network/fake.ts)

    [createFakeNetworkClient]: its closure state as a record, every operation
    as a state transformer, the timers it schedules as pending actions that
    fire later.  Groups are mutable objects the timers keep a reference to, so
    they live in a heap and the group table maps a gid to a reference. *)

From S2P Require Import Prelude JsString JsMap Json Policy GroupContract Network.
#[local] Open Scope Z_scope.

(** ** [encodeURIComponent] *)

Definition hex_digit (n : Z) : Z := if n <? 10 then 48 + n else 55 + n.
Definition pct (b : Z) : list Z := [37; hex_digit (b / 16); hex_digit (b mod 16)].
Definition utf8 (cp : Z) : list Z :=
  if cp <? 128 then [cp]
  else if cp <? 2048 then [192 + cp / 64; 128 + cp mod 64]
  else if cp <? 65536 then [224 + cp / 4096; 128 + cp / 64 mod 64; 128 + cp mod 64]
  else [240 + cp / 262144; 128 + cp / 4096 mod 64; 128 + cp / 64 mod 64; 128 + cp mod 64].
Definition is_upper (c : Z) : bool := (65 <=? c) && (c <=? 90).
Definition uri_unreserved (c : Z) : bool :=
  is_lower c || is_upper c || is_digit c || bool_decide (c ∈ [45; 95; 46; 33; 126; 42; 39; 40; 41]).

(** [None]: a lone surrogate throws [URIError]. *)
Fixpoint encodeURIComponent (s : list Z) : option (list Z) :=
  match s with
  | [] => Some []
  | c :: s' =>
      if uri_unreserved c then (c ::.) <$> encodeURIComponent s'
      else if (56320 <=? c) && (c <=? 57343) then None
      else if (55296 <=? c) && (c <=? 56319) then
        match s' with
        | d :: s'' =>
            if (56320 <=? d) && (d <=? 57343)
            then app (concat (map pct (utf8 ((c - 55296) * 1024 + (d - 56320) + 65536)))) <$> encodeURIComponent s''
            else None
        | [] => None
        end
      else app (concat (map pct (utf8 c))) <$> encodeURIComponent s'
  end.

(** ** State *)

Record FakeGroup := mkFG {
  fg_name : list Z; fg_ownerFp : list Z; fg_version : Z; fg_memberList : list GroupMember;
  fg_entries : list ConversationEntry; fg_unread : Z; fg_profile : GroupProfile; fg_pins : list GroupPin;
  fg_applications : list GroupApplication; fg_applicationSeeded : bool }.

(** What a [setTimeout] callback does when it fires. *)
Inductive TimerAction :=
| TAccept (f : Friend)
| TDeliver (from body : list Z) (auto : bool)
| TGroupEcho (gid : list Z) (g : nat) (other : GroupMember) (body : list Z)
| TApplication (gid : list Z) (g : nat).
Record Timer := mkTimer { tm_due : Z; tm_action : TimerAction }.

Record FakeState := mkFake {
  fk_friends : list (list Z * Friend);
  fk_pending : list (list Z * PendingRequest);
  fk_conversations : gmap (list Z) (list ConversationEntry);
  fk_identity : option Identity;
  fk_firstInboundFired : bool;
  fk_disposed : bool;
  fk_listeners : nat;
  fk_groups : list (list Z * nat);
  fk_heap : gmap nat FakeGroup;
  fk_next : nat;                      (** next free reference *)
  fk_pinSeq : Z;
  fk_uuids : nat;                     (** uuids drawn so far *)
  fk_timers : list Timer;
  fk_events : list NetworkEvent;      (** emitted, oldest first *)
  fk_now : Z }.

Definition set_friends (v : list (list Z * Friend)) (s : FakeState) : FakeState :=
  mkFake v (fk_pending s) (fk_conversations s) (fk_identity s) (fk_firstInboundFired s) (fk_disposed s) (fk_listeners s)
    (fk_groups s) (fk_heap s) (fk_next s) (fk_pinSeq s) (fk_uuids s) (fk_timers s) (fk_events s) (fk_now s).
Definition set_pending (v : list (list Z * PendingRequest)) (s : FakeState) : FakeState :=
  mkFake (fk_friends s) v (fk_conversations s) (fk_identity s) (fk_firstInboundFired s) (fk_disposed s) (fk_listeners s)
    (fk_groups s) (fk_heap s) (fk_next s) (fk_pinSeq s) (fk_uuids s) (fk_timers s) (fk_events s) (fk_now s).
Definition set_conversation (k : list Z) (v : list ConversationEntry) (s : FakeState) : FakeState :=
  mkFake (fk_friends s) (fk_pending s) (<[k := v]> (fk_conversations s)) (fk_identity s) (fk_firstInboundFired s) (fk_disposed s)
    (fk_listeners s) (fk_groups s) (fk_heap s) (fk_next s) (fk_pinSeq s) (fk_uuids s) (fk_timers s) (fk_events s) (fk_now s).
Definition set_identity (v : option Identity) (s : FakeState) : FakeState :=
  mkFake (fk_friends s) (fk_pending s) (fk_conversations s) v (fk_firstInboundFired s) (fk_disposed s) (fk_listeners s)
    (fk_groups s) (fk_heap s) (fk_next s) (fk_pinSeq s) (fk_uuids s) (fk_timers s) (fk_events s) (fk_now s).
Definition set_listening (fired disposed : bool) (n : nat) (s : FakeState) : FakeState :=
  mkFake (fk_friends s) (fk_pending s) (fk_conversations s) (fk_identity s) fired disposed n
    (fk_groups s) (fk_heap s) (fk_next s) (fk_pinSeq s) (fk_uuids s) (fk_timers s) (fk_events s) (fk_now s).
Definition set_groups (v : list (list Z * nat)) (s : FakeState) : FakeState :=
  mkFake (fk_friends s) (fk_pending s) (fk_conversations s) (fk_identity s) (fk_firstInboundFired s) (fk_disposed s) (fk_listeners s)
    v (fk_heap s) (fk_next s) (fk_pinSeq s) (fk_uuids s) (fk_timers s) (fk_events s) (fk_now s).
(** Field writes through a reference. *)
Definition put (r : nat) (g : FakeGroup) (s : FakeState) : FakeState :=
  mkFake (fk_friends s) (fk_pending s) (fk_conversations s) (fk_identity s) (fk_firstInboundFired s) (fk_disposed s) (fk_listeners s)
    (fk_groups s) (<[r := g]> (fk_heap s)) (fk_next s) (fk_pinSeq s) (fk_uuids s) (fk_timers s) (fk_events s) (fk_now s).
(** [fakeGroups.set(gid, { ... })]: a new object. *)
Definition alloc (gid : list Z) (g : FakeGroup) (s : FakeState) : FakeState :=
  mkFake (fk_friends s) (fk_pending s) (fk_conversations s) (fk_identity s) (fk_firstInboundFired s) (fk_disposed s) (fk_listeners s)
    (map_set (fk_groups s) gid (fk_next s)) (<[fk_next s := g]> (fk_heap s)) (S (fk_next s)) (fk_pinSeq s) (fk_uuids s)
    (fk_timers s) (fk_events s) (fk_now s).
Definition set_pinSeq (v : Z) (s : FakeState) : FakeState :=
  mkFake (fk_friends s) (fk_pending s) (fk_conversations s) (fk_identity s) (fk_firstInboundFired s) (fk_disposed s) (fk_listeners s)
    (fk_groups s) (fk_heap s) (fk_next s) v (fk_uuids s) (fk_timers s) (fk_events s) (fk_now s).
Definition set_uuids (v : nat) (s : FakeState) : FakeState :=
  mkFake (fk_friends s) (fk_pending s) (fk_conversations s) (fk_identity s) (fk_firstInboundFired s) (fk_disposed s) (fk_listeners s)
    (fk_groups s) (fk_heap s) (fk_next s) (fk_pinSeq s) v (fk_timers s) (fk_events s) (fk_now s).
Definition set_timers (v : list Timer) (s : FakeState) : FakeState :=
  mkFake (fk_friends s) (fk_pending s) (fk_conversations s) (fk_identity s) (fk_firstInboundFired s) (fk_disposed s) (fk_listeners s)
    (fk_groups s) (fk_heap s) (fk_next s) (fk_pinSeq s) (fk_uuids s) v (fk_events s) (fk_now s).
Definition emit (ev : NetworkEvent) (s : FakeState) : FakeState :=
  mkFake (fk_friends s) (fk_pending s) (fk_conversations s) (fk_identity s) (fk_firstInboundFired s) (fk_disposed s) (fk_listeners s)
    (fk_groups s) (fk_heap s) (fk_next s) (fk_pinSeq s) (fk_uuids s) (fk_timers s) (fk_events s ++ [ev]) (fk_now s).
Definition set_now (v : Z) (s : FakeState) : FakeState :=
  mkFake (fk_friends s) (fk_pending s) (fk_conversations s) (fk_identity s) (fk_firstInboundFired s) (fk_disposed s) (fk_listeners s)
    (fk_groups s) (fk_heap s) (fk_next s) (fk_pinSeq s) (fk_uuids s) (fk_timers s) (fk_events s) v.

Definition schedule (delay : Z) (a : TimerAction) (s : FakeState) : FakeState :=
  set_timers (fk_timers s ++ [mkTimer (fk_now s + delay) a]) s.

(** ** Fixtures *)

Definition ME_FP : list Z := js "fp-me-0000aaaabbbbcccc".
Definition FAKE_FRIENDS : list Friend :=
  [mkNFriend (js "fp-alice-1f2e3d4c5b6a7988") (js "college friend") (Some (js "college friend")) (Some (js "Alice")) None (Some true)
     0 0 None None None None;
   mkNFriend (js "fp-bob-9a8b7c6d5e4f3021") (js "Bob") None (Some (js "Bob")) None (Some false) 0 0 None None None None].
Definition FAKE_PENDING : list PendingRequest :=
  [mkRequest (js "req-carol-1") (js "fp-carol-5566778899aabbcc") (js "Carol") (js "Hi, Alice gave me your card.") None].

Definition createFakeNetworkClient (noIdentity : bool) (now : Z) : FakeState :=
  mkFake (map (λ f, (fr_fp f, f)) FAKE_FRIENDS) (map (λ p, (rq_id p, p)) FAKE_PENDING) ∅
    (if noIdentity then None
     else Some (mkIdentity ME_FP (js "dsh tester") (js "soulmirror://card?v=1&pk=FAKE&xpk=FAKE&name=dsh%20tester") None))
    false false 0 [] ∅ 0 0 0 [] [] now.

Definition defaultProfile : GroupProfile :=
  mkProfile (Some (js "standard")) (Some (js "chat")) true true (Some (js "all")) (Some (js "invite")) None None None
    (Some (js "mention")) (Some (js "draft")) (Some (num_of_Z 10)) (Some (num_of_Z 3)) None None None None.

Definition alice_hello : list Z := js "Hey, are you around? Hiking this weekend - bring your alter ego too!".

(** ** Helpers of the closure *)

Definition with_archive (count unread : Z) (ts : Z) (body : list Z) (f : Friend) : Friend :=
  mkNFriend (fr_fp f) (fr_name f) (fr_remark f) (fr_cardName f) (fr_protocol f) (fr_online f) unread count (Some ts) (Some body)
    (fr_typing f) (fr_addedAt f).

(** [archive]: the [seq] of the given entry is filled in. *)
Definition archive (peer : list Z) (e : Z → ConversationEntry) (s : FakeState) : ConversationEntry * FakeState :=
  let l := fk_conversations s !! peer ?? [] in
  let full := e (Z.of_nat (length l) + 1) in
  let l' := l ++ [full] in
  let s1 := set_conversation peer l' s in
  (full,
   match map_get (fk_friends s) peer with
   | Some f =>
       set_friends (map_set (fk_friends s1) peer
         (with_archive (Z.of_nat (length l'))
            (if bool_decide (ce_dir full = dir_in) then fr_unread f + 1 else fr_unread f) (ce_ts full) (ce_body full) f)) s1
   | None => s1
   end).

Definition opt_true (b : bool) : option bool := if b then Some true else None.

Definition requireIdentity : IO FakeState Identity := λ s,
  match fk_identity s with
  | None => (inl (mkErr (js "no identity yet (identity.create first)") NetworkErrorCode.noIdentity), s)
  | Some i => (inr i, s)
  end.

(** [s.slice(-n)]. *)
Definition slice_last {A} (n : nat) (l : list A) : list A := drop (length l - n) l.
Definition is_alnum (c : Z) : bool := is_lower c || is_upper c || is_digit c.

Definition friendFromCard (uri : list Z) (remark : option (list Z)) : Friend :=
  mkNFriend (js "fp-" ++ or_str (filterb is_alnum (slice_last 8 uri)) (js "card"))
    (remark ?? (js "card " ++ slice_last 4 uri)) remark (Some (js "card " ++ slice_last 4 uri)) None None 0 0 None None None None.

Definition CARD_PREFIX : list Z := js "soulmirror://card".
Definition bad_card : NetworkError := mkErr (js "invalid card link") NetworkErrorCode.badCard.
Definition not_a_friend_err : NetworkError := mkErr (js "not a friend") NetworkErrorCode.notFriend.
Definition unknown_group : NetworkError := mkErr (js "unknown group") NetworkErrorCode.notFound.
Definition no_request : NetworkError := mkErr (js "no such pending request") NetworkErrorCode.notFound.

Definition myFp (s : FakeState) : list Z := (id_fp <$> fk_identity s) ?? ME_FP.

(** The object behind a gid. *)
Definition group_ref (s : FakeState) (gid : list Z) : option (nat * FakeGroup) :=
  r ← map_get (fk_groups s) gid; g ← fk_heap s !! r; Some (r, g).

Definition groupRow (s : FakeState) (gid : list Z) (g : FakeGroup) : GroupRow :=
  mkGroupRow gid (fg_name g) (fg_ownerFp g) (jeqb (fg_ownerFp g) (myFp s)) (fg_version g)
    (Z.of_nat (length (fg_memberList g))) (fg_unread g) (Z.of_nat (length (fg_entries g)))
    (ce_ts <$> last (fg_entries g)) (ce_body <$> last (fg_entries g)) (Some (fg_profile g)).

Definition roleOf (s : FakeState) (g : FakeGroup) : MemberRole :=
  if jeqb (fg_ownerFp g) (myFp s) then MrOwner
  else if bool_decide (myFp s ∈ gpf_admins (fg_profile g) ?? []) then MrAdmin else MrMember.

Definition groupInfoOf (gid : list Z) : IO FakeState GroupInfo := λ s,
  match group_ref s gid with
  | None => (inl unknown_group, s)
  | Some (_, g) =>
      let role := roleOf s g in
      (inr (mkGroupInfo (groupRow s gid g) (fg_memberList g) (fg_pins g) role
              (if bool_decide (role = MrOwner) then Some (fg_applications g) else None)), s)
  end.

Definition groupOf (gid : list Z) : IO FakeState (nat * FakeGroup) := λ s,
  match group_ref s gid with
  | None => (inl unknown_group, s)
  | Some rg => (inr rg, s)
  end.

Definition with_entries (es : list ConversationEntry) (unread : Z) (g : FakeGroup) : FakeGroup :=
  mkFG (fg_name g) (fg_ownerFp g) (fg_version g) (fg_memberList g) es unread (fg_profile g) (fg_pins g) (fg_applications g)
    (fg_applicationSeeded g).
Definition with_members (ms : list GroupMember) (g : FakeGroup) : FakeGroup :=
  mkFG (fg_name g) (fg_ownerFp g) (fg_version g + 1) ms (fg_entries g) (fg_unread g) (fg_profile g) (fg_pins g) (fg_applications g)
    (fg_applicationSeeded g).
Definition with_profile (p : GroupProfile) (g : FakeGroup) : FakeGroup :=
  mkFG (fg_name g) (fg_ownerFp g) (fg_version g + 1) (fg_memberList g) (fg_entries g) (fg_unread g) p (fg_pins g)
    (fg_applications g) (fg_applicationSeeded g).
Definition with_pins (ps : list GroupPin) (g : FakeGroup) : FakeGroup :=
  mkFG (fg_name g) (fg_ownerFp g) (fg_version g) (fg_memberList g) (fg_entries g) (fg_unread g) (fg_profile g) ps
    (fg_applications g) (fg_applicationSeeded g).
Definition with_applications (aps : list GroupApplication) (seeded : bool) (g : FakeGroup) : FakeGroup :=
  mkFG (fg_name g) (fg_ownerFp g) (fg_version g) (fg_memberList g) (fg_entries g) (fg_unread g) (fg_profile g) (fg_pins g)
    aps seeded.

Definition seedApplication (gid : list Z) (s : FakeState) : FakeState :=
  match group_ref s gid with
  | None => s
  | Some (r, g) =>
      if fg_applicationSeeded g || negb (jeqb (fg_ownerFp g) (myFp s)) then s
      else
        let join_ := gpf_join (fg_profile g) ?? js "invite" in
        if negb (jeqb join_ (js "apply")) && negb (jeqb join_ (js "open")) then s
        else schedule 1200 (TApplication gid r) (put r (with_applications (fg_applications g) true g) s)
  end.

(** ** The operations of the client

    [uuid n] is the n-th value of [crypto.randomUUID], [url_param q k] what
    [new URLSearchParams(q).get(k)] answers; both belong to the platform. *)

Section operations.
Context (uuid : nat → list Z) (url_param : list Z → list Z → option (list Z)).

Definition randomUUID : IO FakeState (list Z) := λ s, (inr (uuid (fk_uuids s)), set_uuids (S (fk_uuids s)) s).
Definition mid : IO FakeState (list Z) := u ← randomUUID; mret (js "a2a-" ++ u).
Definition fresh_gid : IO FakeState (list Z) :=
  u ← randomUUID; mret (js "fake" ++ take 28 (filterb (λ c, negb (c =? 45)) u)).

Definition emit_ (ev : NetworkEvent) : IO FakeState unit := modify (emit ev).

Definition deliver (from body : list Z) (auto : bool) : IO FakeState unit := λ s,
  if fk_disposed s then (inr tt, s)
  else exec (id ← mid;
        io (λ s, let friend := map_get (fk_friends s) from in
             let ts := fk_now s in
             let '(e, s1) := archive from (λ seq, mkEntry seq dir_in id body ts None None (opt_true auto) None None None None) s in
             (inr tt, emit (EvMessage (mkInbound id from ((fr_name <$> friend) ?? from) body ts (Some (ce_seq e)) (opt_true auto)
                                         None None None None None)) s1))) s.

Definition createIdentity (name : list Z) : IO FakeState Identity := λ s,
  match fk_identity s with
  | Some _ => (inl (mkErr (js "identity already exists") NetworkErrorCode.identityExists), s)
  | None =>
      match encodeURIComponent name with
      | None => (inl (mkErr (js "URI malformed") 0), s)
      | Some enc =>
          let i := mkIdentity ME_FP name (js "soulmirror://card?v=1&pk=FAKE&xpk=FAKE&name=" ++ enc) None in
          (inr i, set_identity (Some i) s)
      end
  end.

Definition card : IO FakeState (list Z) := i ← requireIdentity; mret (id_cardUri i).

Definition parseCard (uri : list Z) : IO FakeState (list Z * list Z) :=
  if negb (startsWith uri CARD_PREFIX) then throw bad_card
  else let f := friendFromCard uri None in mret (fr_fp f, fr_cardName f ?? fr_name f).

(** *** Friends *)

Definition friends_list : IO FakeState (list Friend) := gets (λ s, map snd (fk_friends s)).
Definition friends_pending : IO FakeState (list PendingRequest) := gets (λ s, map snd (fk_pending s)).

Definition friends_add (uri : list Z) (remark : option (list Z)) : IO FakeState Friend :=
  _ ← requireIdentity;
  if negb (startsWith uri CARD_PREFIX) then throw bad_card
  else
    let f := friendFromCard uri remark in
    _ ← modify (λ s, schedule 300 (TAccept f) (set_friends (map_set (fk_friends s) (fr_fp f) f) s));
    mret f.

Definition friends_accept (requestId : list Z) (note : option (list Z)) : IO FakeState Friend := λ s,
  match map_get (fk_pending s) requestId with
  | None => (inl no_request, s)
  | Some r =>
      let f := mkNFriend (rq_fp r) (note ?? rq_name r) note (Some (rq_name r)) None None 0 0 None None None None in
      (inr f, set_friends (map_set (fk_friends s) (fr_fp f) f) (set_pending (map_delete (fk_pending s) requestId) s))
  end.

Definition friends_reject (requestId : list Z) : IO FakeState unit := λ s,
  if map_has (fk_pending s) requestId then (inr tt, set_pending (map_delete (fk_pending s) requestId) s)
  else (inl no_request, s).

(** [friends.set]: an empty protocol clears the override. *)
Definition friends_set (id : list Z) (remark protocol : option (list Z)) : IO FakeState Friend := λ s,
  match map_get (fk_friends s) id with
  | None => (inl not_a_friend_err, s)
  | Some cur =>
      let prot := match protocol with
                  | None => fr_protocol cur
                  | Some p => if jeqb (trim p) [] then None else Some p
                  end in
      let next := mkNFriend (fr_fp cur) (remark ?? fr_name cur) (match remark with Some r => Some r | None => fr_remark cur end)
                    (fr_cardName cur) prot (fr_online cur) (fr_unread cur) (fr_count cur) (fr_lastTs cur) (fr_lastBody cur)
                    (fr_typing cur) (fr_addedAt cur) in
      (inr next, set_friends (map_set (fk_friends s) id next) s)
  end.

Definition friends_remove (id : list Z) : IO FakeState unit := λ s,
  if map_has (fk_friends s) id then (inr tt, set_friends (map_delete (fk_friends s) id) s) else (inl not_a_friend_err, s).

Definition friends_card (id : list Z) : IO FakeState (list Z * list Z * list Z) := λ s,
  match map_get (fk_friends s) id with
  | None => (inl not_a_friend_err, s)
  | Some cur =>
      let name := fr_cardName cur ?? fr_name cur in
      match encodeURIComponent name with
      | None => (inl (mkErr (js "URI malformed") 0), s)
      | Some enc => (inr (fr_fp cur, name, js "soulmirror://card?v=1&pk=FAKE-" ++ fr_fp cur ++ js "&xpk=FAKE&name=" ++ enc), s)
      end
  end.

(** *** Private mail *)

Definition send (to body : list Z) (options : option SendOptions) : IO FakeState SendReceipt :=
  _ ← requireIdentity;
  s ← get_state;
  if negb (map_has (fk_friends s) to) then throw (mkErr (js "not a friend (friends.add first)") NetworkErrorCode.notFriend)
  else
    id ← mid;
    io (λ s, let '(e, s1) := archive to (λ seq, mkEntry seq dir_out id body (fk_now s) None None
                           (opt_true (bool_decide ((options ≫= so_auto) = Some true))) None None (Some (js "sent")) None) s in
         (inr (mkReceipt id (Some (ce_seq e)) (js "sent")),
          schedule 600 (TDeliver to (js "(auto-reply) got it: " ++ [34] ++ take 40 body ++ [34]) true) s1)).

Definition typing (to : list Z) (on : bool) : IO FakeState unit := λ s,
  if map_has (fk_friends s) to then (inr tt, s) else (inl not_a_friend_err, s).

Definition conversation (target : list Z) (o : ConvOptions) : IO FakeState (list ConversationEntry * bool) :=
  gets (λ s, (archive_slice (fk_conversations s !! target ?? []) o, false)).

Definition markRead (target : list Z) : IO FakeState unit := λ s,
  match map_get (fk_friends s) target with
  | None => (inl not_a_friend_err, s)
  | Some cur =>
      (inr tt, set_friends (map_set (fk_friends s) target
        (mkNFriend (fr_fp cur) (fr_name cur) (fr_remark cur) (fr_cardName cur) (fr_protocol cur) (fr_online cur) 0 (fr_count cur)
           (fr_lastTs cur) (fr_lastBody cur) (fr_typing cur) (fr_addedAt cur))) s)
  end.

Definition presence (fps : list (list Z)) : IO FakeState (gmap (list Z) bool) :=
  gets (λ s, fold_left (λ m f, <[f := (map_get (fk_friends s) f ≫= fr_online) ?? false]> m) fps ∅).

(** *** Groups *)

Definition groups_list : IO FakeState (list GroupRow) :=
  gets (λ s, omap (λ kr, groupRow s kr.1 <$> fk_heap s !! kr.2) (fk_groups s)).

(** [{ ...defaultProfile(), ...profile }]. *)
Definition over_default (p : GroupProfile) : GroupProfile :=
  let d := defaultProfile in
  let o {A} (a b : option A) := match a with Some _ => a | None => b end in
  mkProfile (o (gpf_template p) (gpf_template d)) (o (gpf_room p) (gpf_room d)) (gpf_speakHumans p) (gpf_speakAgents p)
    (o (gpf_speakWho p) (gpf_speakWho d)) (o (gpf_join p) (gpf_join d)) (o (gpf_joinPrice p) (gpf_joinPrice d))
    (o (gpf_joinAddr p) (gpf_joinAddr d)) (o (gpf_joinNote p) (gpf_joinNote d)) (o (gpf_agentWake p) (gpf_agentWake d))
    (o (gpf_agentTier p) (gpf_agentTier d)) (o (gpf_autoPerHour p) (gpf_autoPerHour d))
    (o (gpf_agentRounds p) (gpf_agentRounds d)) (o (gpf_admins p) (gpf_admins d)) (o (gpf_public p) (gpf_public d))
    (o (gpf_tags p) (gpf_tags d)) (o (gpf_rules p) (gpf_rules d)).

Definition nobody_speaks (p : GroupProfile) : bool := negb (gpf_speakHumans p) && negb (gpf_speakAgents p).
Definition nobody_err : NetworkError := mkErr (js "at least one of speakHumans/speakAgents must be true") (-32602).

Definition groups_create (name : list Z) (members : list (list Z)) (profile : option GroupProfile) : IO FakeState GroupInfo :=
  me ← requireIdentity;
  if match profile with Some p => nobody_speaks p | None => false end then throw nobody_err
  else
    s ← get_state;
    let memberList := mkMember (id_fp me) (id_name me) None
                      :: map (λ m, mkMember m ((fr_name <$> map_get (fk_friends s) m) ?? m) None) members in
    gid ← fresh_gid;
    _ ← modify (alloc gid (mkFG name (id_fp me) 1 memberList [] 0
                             (match profile with Some p => over_default p | None => defaultProfile end) [] [] false));
    _ ← modify (seedApplication gid);
    groupInfoOf gid.

(** The checks of the sending node on the profile switches. *)
Definition send_refusal (s : FakeState) (g : FakeGroup) (by_ : list Z) : option NetworkError :=
  let role := roleOf s g in
  let who := gpf_speakWho (fg_profile g) ?? js "all" in
  if jeqb by_ (js "alter") && negb (gpf_speakAgents (fg_profile g))
  then Some (mkErr (js "agents do not speak in this group") (-32602))
  else if jeqb by_ (js "owner") && negb (gpf_speakHumans (fg_profile g))
  then Some (mkErr (js "humans do not speak in this group (the alter does)") (-32602))
  else if jeqb who (js "owner") && negb (bool_decide (role = MrOwner))
  then Some (mkErr (js "only the owner speaks in this group") (-32602))
  else if jeqb who (js "admins") && bool_decide (role = MrMember)
  then Some (mkErr (js "only the owner and admins speak in this group") (-32602))
  else None.

Definition groups_send (gid body : list Z) (options : option GroupSendOptions) : IO FakeState SendReceipt := λ s,
  match group_ref s gid with
  | None => (inl unknown_group, s)
  | Some (r, g) =>
      let by_ := (options ≫= go_by) ?? js "owner" in
      match send_refusal s g by_ with
      | Some e => (inl e, s)
      | None =>
          exec (id ← mid;
           io (λ s,
             let agent := if jeqb by_ (js "alter") then (options ≫= go_agent) ≫= non_empty else None in
             let e := mkEntry (Z.of_nat (length (fg_entries g)) + 1) dir_out id body (fk_now s) None None
                        (opt_true (bool_decide ((options ≫= go_auto) = Some true))) (Some by_) agent (Some (js "sent")) None in
             let s1 := put r (with_entries (fg_entries g ++ [e]) (fg_unread g) g) s in
             let other := findb (λ m, match fk_identity s with Some i => negb (jeqb (mb_fp m) (id_fp i)) | None => true end)
                            (fg_memberList g) in
             (inr (mkReceipt id (Some (ce_seq e)) (js "sent")),
              match other with Some m => schedule 600 (TGroupEcho gid r m body) s1 | None => s1 end))) s
      end
  end.

Definition groups_conversation (gid : list Z) (o : ConvOptions) : IO FakeState (list ConversationEntry) :=
  '(_, g) ← groupOf gid; mret (archive_slice (fg_entries g) o).

Definition groups_markRead (gid : list Z) : IO FakeState unit :=
  '(r, g) ← groupOf gid; modify (put r (with_entries (fg_entries g) 0 g)).

Definition groups_leave (gid : list Z) : IO FakeState unit := λ s,
  if map_has (fk_groups s) gid then (inr tt, emit (EvGroupUpdate gid) (set_groups (map_delete (fk_groups s) gid) s))
  else (inl unknown_group, s).

Definition groups_kick (gid target : list Z) : IO FakeState unit :=
  '(r, g) ← groupOf gid;
  _ ← modify (put r (with_members (filterb (λ m, negb (jeqb (mb_fp m) target)) (fg_memberList g)) g));
  emit_ (EvGroupUpdate gid).

Definition groups_setProfile (gid : list Z) (profile : GroupProfile) : IO FakeState unit :=
  '(r, g) ← groupOf gid;
  s ← get_state;
  if negb (bool_decide (roleOf s g = MrOwner)) then throw (mkErr (js "only the owner edits the group profile") (-32602))
  else if nobody_speaks profile then throw nobody_err
  else
    _ ← modify (put r (with_profile profile g));
    _ ← emit_ (EvGroupUpdate gid);
    modify (seedApplication gid).

Definition groups_pin (gid body : list Z) : IO FakeState unit :=
  '(r, g) ← groupOf gid;
  s ← get_state;
  if bool_decide (roleOf s g = MrMember) then throw (mkErr (js "only the owner and admins pin in this group") (-32602))
  else
    let n := fk_pinSeq s + 1 in
    _ ← modify (λ s, put r (with_pins (fg_pins g ++ [mkPin (js "pin-" ++ dec n) (myFp s) (fk_now s) body]) g) (set_pinSeq n s));
    emit_ (EvGroupUpdate gid).

Definition groups_unpin (gid id : list Z) : IO FakeState unit :=
  '(r, g) ← groupOf gid;
  _ ← modify (put r (with_pins (filterb (λ p, negb (jeqb (pin_id p) id)) (fg_pins g)) g));
  emit_ (EvGroupUpdate gid).

Definition GROUP_PREFIX : list Z := js "soulmirror://group?".
Definition fake_owner : GroupMember := mkMember (js "fp-owner-1122334455667788") (js "Group owner") None.
Definition joined_profile : GroupProfile :=
  let d := defaultProfile in
  mkProfile (gpf_template d) (gpf_room d) (gpf_speakHumans d) (gpf_speakAgents d) (gpf_speakWho d) (Some (js "apply")) None None None
    (gpf_agentWake d) (gpf_agentTier d) (gpf_autoPerHour d) (gpf_agentRounds d) None (Some true) None None.

Definition groups_apply (uri : list Z) : IO FakeState (list Z) :=
  me ← requireIdentity;
  if negb (startsWith uri GROUP_PREFIX) then throw (mkErr (js "not a group link") NetworkErrorCode.badCard)
  else
    let q := drop (length GROUP_PREFIX) uri in
    gid ← (match url_param q (js "gid") with Some gid => mret gid | None => fresh_gid end);
    _ ← modify (alloc gid (mkFG (url_param q (js "name") ?? js "joined group") (mb_fp fake_owner) 1
                             [fake_owner; mkMember (id_fp me) (id_name me) None] [] 0 joined_profile [] [] true));
    _ ← emit_ (EvGroupUpdate gid);
    mret gid.

Definition groups_applications (gid : list Z) : IO FakeState (list GroupApplication) :=
  '(_, g) ← groupOf gid; mret (fg_applications g).

Definition drop_application (target : list Z) (g : FakeGroup) : FakeGroup :=
  with_applications (filterb (λ a, negb (jeqb (ap_fp a) target)) (fg_applications g)) (fg_applicationSeeded g) g.

Definition groups_approve (gid target : list Z) : IO FakeState unit :=
  '(r, g) ← groupOf gid;
  match findb (λ a, jeqb (ap_fp a) target) (fg_applications g) with
  | None => throw (mkErr (js "no such application") NetworkErrorCode.notFound)
  | Some app_ =>
      _ ← modify (put r (with_members (fg_memberList g ++ [mkMember (ap_fp app_) (ap_name app_) None]) (drop_application target g)));
      emit_ (EvGroupUpdate gid)
  end.

Definition groups_applicationReject (gid target : list Z) : IO FakeState unit :=
  '(r, g) ← groupOf gid;
  _ ← modify (put r (drop_application target g));
  emit_ (EvGroupUpdate gid).

Definition groups_invite (gid target : list Z) : IO FakeState unit :=
  '(r, g) ← groupOf gid;
  s ← get_state;
  match map_get (fk_friends s) target with
  | None => throw not_a_friend_err
  | Some friend =>
      if someb (λ m, jeqb (mb_fp m) target) (fg_memberList g) then mret tt
      else
        _ ← modify (put r (with_members (fg_memberList g ++ [mkMember (fr_fp friend) (fr_name friend) None]) g));
        emit_ (EvGroupUpdate gid)
  end.

(** *** Subscription, disposal and timers *)

Definition subscribe (firstInboundDelayMs : option Z) (s : FakeState) : FakeState :=
  let s1 := set_listening true (fk_disposed s) (S (fk_listeners s)) s in
  if fk_firstInboundFired s then s1
  else
    let delay := firstInboundDelayMs ?? 1500 in
    if 0 <=? delay then schedule delay (TDeliver (js "fp-alice-1f2e3d4c5b6a7988") alice_hello false) s1 else s1.

Definition dispose (s : FakeState) : FakeState := set_listening (fk_firstInboundFired s) true 0 s.

Definition dave : GroupApplication :=
  mkApplication (js "fp-dave-77aa88bb99cc00dd") (js "Dave") (js "Saw your group card - can I join?") None None.

Definition run_timer (a : TimerAction) : IO FakeState unit := λ s,
  match a with
  | TAccept f => (inr tt, if fk_disposed s then s else emit (EvFriendAccept f) s)
  | TDeliver from body auto => deliver from body auto s
  | TApplication gid r =>
      if fk_disposed s || negb (map_has (fk_groups s) gid) then (inr tt, s)
      else match fk_heap s !! r with
      | None => (inr tt, s)
      | Some g =>
          let a := mkApplication (ap_fp dave) (ap_name dave) (ap_note dave) (Some (fk_now s)) None in
          (inr tt, emit (EvGroupApplication gid dave) (put r (with_applications (fg_applications g ++ [a]) (fg_applicationSeeded g) g) s))
      end
  | TGroupEcho gid r other body =>
      if fk_disposed s || negb (map_has (fk_groups s) gid) then (inr tt, s)
      else
        exec (id ← mid;
         io (λ s, match fk_heap s !! r with
              | None => (inr tt, s)
              | Some g =>
                  let by_ := if gpf_speakAgents (fg_profile g) then js "alter" else js "owner" in
                  let e := mkEntry (Z.of_nat (length (fg_entries g)) + 1) dir_in id (js "(group echo) " ++ take 40 body) (fk_now s)
                             None None None (Some by_) None None None in
                  (inr tt, emit (EvGroupMessage gid (mkInbound id (mb_fp other) (mb_name other) (ce_body e) (ce_ts e)
                                                       (Some (ce_seq e)) None (Some by_) None None None None))
                             (put r (with_entries (fg_entries g ++ [e]) (fg_unread g + 1) g) s))
              end)) s
  end.

(** The n-th pending timer fires once it is due. *)
Definition fire (n : nat) (s : FakeState) : FakeState :=
  match fk_timers s !! n with
  | Some t => if tm_due t <=? fk_now s then (run_timer (tm_action t) (set_timers (take n (fk_timers s) ++ drop (S n) (fk_timers s)) s)).2 else s
  | None => s
  end.

(** The interface the host plugins see. *)
#[export] Instance fake_client : NetworkClient FakeState := {|
  Date_now := fk_now;
  net_identity := gets fk_identity;
  net_parseCard := parseCard;
  net_friends_list := friends_list;
  net_friends_add := friends_add;
  net_presence := presence;
  net_send := send;
  net_conversation := conversation;
  net_groups_info := groupInfoOf;
  net_groups_send := groups_send;
  net_groups_conversation := groups_conversation;
  net_status := λ _, JObj [(js "backend", JStr (js "fake")); (js "state", JStr (js "ready")); (js "restarts", JNum (num_of_Z 0))];
  net_createIdentity := createIdentity;
  net_friends_pending := friends_pending;
  net_friends_accept := friends_accept;
  net_friends_reject := friends_reject;
  net_friends_set := friends_set;
  net_friends_card := friends_card;
  net_profile_get := mret None;
  net_profile_save := mret;
  net_directory_fetch := λ _, mret None;
  net_directory_publish := mret tt;
  net_groups_list := groups_list;
  net_groups_create := groups_create;
  net_groups_markRead := λ gid _, groups_markRead gid;
  net_groups_announceVoices := λ _ _, mret tt;
  net_groups_typing := λ _ _ _, mret tt;
  net_groups_leave := groups_leave;
  net_groups_kick := groups_kick;
  net_groups_setProfile := groups_setProfile;
  net_groups_pin := groups_pin;
  net_groups_unpin := groups_unpin;
  net_groups_lookup := λ _, mret None;
  net_groups_apply := λ uri _ _, groups_apply uri;
  net_groups_applications := groups_applications;
  net_groups_approve := groups_approve;
  net_groups_applicationReject := groups_applicationReject;
  net_groups_invite := groups_invite;
  net_typing := typing;
  net_markRead := λ target _, markRead target;
  net_relaunch := None;
|}.
End operations.

(** * Theorems *)

(** ** Archives *)

(** The n-th archived entry has [seq] n (counted from 1). *)
Definition numbered (l : list ConversationEntry) : Prop := ∀ i e, l !! i = Some e → ce_seq e = Z.of_nat i + 1.

Lemma numbered_nil : numbered [].
Proof. intros i e. by rewrite lookup_nil. Qed.

Lemma numbered_snoc l e : numbered l → ce_seq e = Z.of_nat (length l) + 1 → numbered (l ++ [e]).
Proof.
  intros Hl He i x Hx. apply lookup_app_Some in Hx as [Hx|[Hi Hx]]; [by apply Hl|].
  apply list_lookup_singleton_Some in Hx as [Hi' <-]. rewrite He. lia.
Qed.

Lemma numbered_tail x l : numbered (x :: l) → ∀ i e, l !! i = Some e → ce_seq e = Z.of_nat i + 2.
Proof. intros H i e He. rewrite (H (S i) e He). lia. Qed.

Lemma since_offset (l : list ConversationEntry) (k : Z) (n : nat) :
  (∀ i e, l !! i = Some e → ce_seq e = Z.of_nat i + k) →
  filterb (λ e, Z.of_nat n + (k - 1) <? ce_seq e) l = drop n l.
Proof.
  revert k n. induction l as [|x l IH]; intros k n Hl; simpl; [by destruct n|].
  pose proof (Hl 0%nat x eq_refl) as Hx. simpl in Hx.
  assert (∀ i e, l !! i = Some e → ce_seq e = Z.of_nat i + (k + 1)) as Hl'.
  { intros i e He. rewrite (Hl (S i) e He). lia. }
  destruct n as [|n]; (destruct (_ <? ce_seq x) eqn:E; bools; try lia).
  - simpl. f_equal.
    rewrite <- (IH (k + 1) 0%nat Hl') at 2. apply filterb_ext. intros e [i He]%list_elem_of_lookup.
    rewrite (Hl' i e He). apply eq_true_iff_eq. rewrite !Z.ltb_lt. lia.
  - simpl. rewrite <- (IH (k + 1) n Hl'). apply filterb_ext. intros e _. f_equal. lia.
Qed.

(** Reading [since] a cursor answers exactly what was archived after it: a
    reader that polls with the last [seq] it saw misses nothing and sees
    nothing twice. *)
Lemma archive_since l (n : nat) : numbered l → archive_slice l (mkConv (Some (Z.of_nat n)) None) = drop n l.
Proof.
  intros Hl. unfold archive_slice. simpl. rewrite <- (since_offset l 1 n Hl).
  apply filterb_ext. intros e _. f_equal. lia.
Qed.

(** Reading back the last [seq] answers that entry alone. *)
Lemma archive_read_back l e :
  numbered (l ++ [e]) → archive_slice (l ++ [e]) (mkConv (Some (ce_seq e - 1)) (Some 1)) = [e].
Proof.
  intros Hl. assert (ce_seq e = Z.of_nat (length l) + 1) as He.
  { apply (Hl (length l)). rewrite lookup_app_r, Nat.sub_diag by lia. done. }
  pose proof (archive_since _ (length l) Hl) as Hs. unfold archive_slice in *. simpl in *.
  replace (ce_seq e - 1) with (Z.of_nat (length l)) by lia. rewrite Hs, drop_app_length. done.
Qed.

(** ** The state invariant *)

Definition inbound (l : list ConversationEntry) : Z := Z.of_nat (length (filterb (λ e, bool_decide (ce_dir e = dir_in)) l)).

Lemma inbound_snoc l e : inbound (l ++ [e]) = inbound l + (if bool_decide (ce_dir e = dir_in) then 1 else 0).
Proof. unfold inbound. rewrite filterb_app, length_app. simpl. case_match; simpl; lia. Qed.

Lemma inbound_nonneg l : 0 <= inbound l.
Proof. unfold inbound. lia. Qed.

Definition friend_ok (convs : gmap (list Z) (list ConversationEntry)) (kf : list Z * Friend) : Prop :=
  fr_fp kf.2 = kf.1 ∧ 0 <= fr_unread kf.2 <= inbound (convs !! kf.1 ?? []) ∧
  0 <= fr_count kf.2 <= Z.of_nat (length (convs !! kf.1 ?? [])).

Definition group_ok (g : FakeGroup) : Prop :=
  numbered (fg_entries g) ∧ 0 <= fg_unread g <= inbound (fg_entries g) ∧ nobody_speaks (fg_profile g) = false ∧ 1 <= fg_version g.

Record fake_wf (s : FakeState) : Prop := {
  wf_convs : map_Forall (λ _, numbered) (fk_conversations s);
  wf_friends : Forall (friend_ok (fk_conversations s)) (fk_friends s);
  wf_groups : map_Forall (λ _, group_ok) (fk_heap s);
}.

Lemma group_ref_ok s gid r g : fake_wf s → group_ref s gid = Some (r, g) → group_ok g.
Proof.
  intros Hs Hg. unfold group_ref in Hg. destruct (map_get (fk_groups s) gid) as [r'|]; [|done]. simpl in Hg.
  destruct (fk_heap s !! r') as [g'|] eqn:E; [|done]. simplify_eq/=. by apply (wf_groups s Hs r g).
Qed.

Lemma put_wf r g s : fake_wf s → group_ok g → fake_wf (put r g s).
Proof. intros [Hc Hf Hg] Hok. constructor; simpl; try done. by apply map_Forall_insert_2. Qed.

Lemma alloc_wf gid g s : fake_wf s → group_ok g → fake_wf (alloc gid g s).
Proof. intros [Hc Hf Hg] Hok. constructor; simpl; try done. by apply map_Forall_insert_2. Qed.

Lemma set_friend_wf k f s :
  fake_wf s → friend_ok (fk_conversations s) (k, f) → fake_wf (set_friends (map_set (fk_friends s) k f) s).
Proof. intros [Hc Hf Hg] Hok. constructor; simpl; try done. by apply map_set_Forall. Qed.

(** A write that leaves friends, archives and groups alone. *)
Lemma same_wf s t :
  fake_wf s → fk_friends t = fk_friends s → fk_conversations t = fk_conversations s → fk_heap t = fk_heap s → fake_wf t.
Proof. intros [Hc Hf Hg] E1 E2 E3. constructor; by rewrite ?E1, ?E2, ?E3. Qed.

Lemma friend_get_ok s k f : fake_wf s → map_get (fk_friends s) k = Some f → friend_ok (fk_conversations s) (k, f).
Proof. intros Hs Hk%map_get_elem. pose proof (wf_friends s Hs) as Hf. rewrite Forall_forall in Hf. by apply Hf. Qed.

Lemma archive_wf peer e s :
  fake_wf s → (∀ n, ce_seq (e n) = n) → fake_wf (archive peer e s).2.
Proof.
  intros Hs He. pose proof Hs as [Hc Hf Hg]. unfold archive.
  set (l := fk_conversations s !! peer ?? []). set (full := e _).
  assert (numbered l) as Hl.
  { unfold l. destruct (fk_conversations s !! peer) as [l0|] eqn:E; simpl; [by apply (Hc peer)|apply numbered_nil]. }
  assert (numbered (l ++ [full])) as Hl' by (apply numbered_snoc; [done|apply He]).
  assert (∀ kf, friend_ok (fk_conversations s) kf → friend_ok (<[peer := l ++ [full]]> (fk_conversations s)) kf) as Hmono.
  { intros [k f] (Hk & Hu & Hn). unfold friend_ok. simpl in *. destruct (decide (k = peer)) as [->|Hne].
    - rewrite lookup_insert_eq. simpl. fold l in Hu, Hn. rewrite inbound_snoc, length_app. simpl.
      split_and!; [done|lia|case_match; lia|lia|lia].
    - by rewrite lookup_insert_ne. }
  assert (Forall (friend_ok (<[peer := l ++ [full]]> (fk_conversations s))) (fk_friends s)) as Hf'.
  { eapply Forall_impl; [exact Hf|]. exact Hmono. }
  destruct (map_get (fk_friends s) peer) as [f|] eqn:E; cbn [snd].
  - constructor; simpl; [by apply map_Forall_insert_2| |done]. apply map_set_Forall; [done|].
    destruct (friend_get_ok s peer f Hs E) as (Hk & Hu & Hn). fold l in Hu, Hn.
    unfold friend_ok. simpl in *. rewrite lookup_insert_eq. simpl. fold l in Hu, Hn. rewrite inbound_snoc, length_app. simpl.
    split_and!; [done|case_match; lia|case_match; lia|lia|lia].
  - constructor; simpl; [by apply map_Forall_insert_2|done|done].
Qed.

Lemma seedApplication_wf gid s : fake_wf s → fake_wf (seedApplication gid s).
Proof.
  intros Hs. unfold seedApplication. destruct (group_ref s gid) as [[r g]|] eqn:E; [|done].
  repeat case_match; try done. eapply same_wf; [apply (put_wf r)|done..]; [done|].
  exact (group_ref_ok s gid r g Hs E).
Qed.

(** ** Every operation, timer and clock tick keeps the invariant *)

Section reachable.
Context (uuid : nat → list Z) (url_param : list Z → list Z → option (list Z)).

Inductive FakeOp :=
| OpCreateIdentity (name : list Z)
| OpFriendAdd (uri : list Z) (remark : option (list Z))
| OpFriendAccept (id : list Z) (note : option (list Z))
| OpFriendReject (id : list Z)
| OpFriendSet (id : list Z) (remark protocol : option (list Z))
| OpFriendRemove (id : list Z)
| OpSend (to body : list Z) (o : option SendOptions)
| OpMarkRead (id : list Z)
| OpCreateGroup (name : list Z) (members : list (list Z)) (p : option GroupProfile)
| OpGroupSend (gid body : list Z) (o : option GroupSendOptions)
| OpGroupMarkRead (gid : list Z)
| OpLeave (gid : list Z)
| OpKick (gid target : list Z)
| OpSetProfile (gid : list Z) (p : GroupProfile)
| OpPin (gid body : list Z)
| OpUnpin (gid id : list Z)
| OpApply (uri : list Z)
| OpApprove (gid target : list Z)
| OpReject (gid target : list Z)
| OpInvite (gid target : list Z)
| OpInject (from body : list Z)
| OpSubscribe (delay : option Z)
| OpDispose
| OpFire (n : nat)
| OpTick (now : Z).

Definition run_op (o : FakeOp) (s : FakeState) : FakeState :=
  match o with
  | OpCreateIdentity n => (createIdentity n s).2
  | OpFriendAdd u r => (friends_add u r s).2
  | OpFriendAccept i n => (friends_accept i n s).2
  | OpFriendReject i => (friends_reject i s).2
  | OpFriendSet i r p => (friends_set i r p s).2
  | OpFriendRemove i => (friends_remove i s).2
  | OpSend t b o => (send uuid t b o s).2
  | OpMarkRead i => (markRead i s).2
  | OpCreateGroup n ms p => (groups_create uuid n ms p s).2
  | OpGroupSend g b o => (groups_send uuid g b o s).2
  | OpGroupMarkRead g => (groups_markRead g s).2
  | OpLeave g => (groups_leave g s).2
  | OpKick g t => (groups_kick g t s).2
  | OpSetProfile g p => (groups_setProfile g p s).2
  | OpPin g b => (groups_pin g b s).2
  | OpUnpin g i => (groups_unpin g i s).2
  | OpApply u => (groups_apply uuid url_param u s).2
  | OpApprove g t => (groups_approve g t s).2
  | OpReject g t => (groups_applicationReject g t s).2
  | OpInvite g t => (groups_invite g t s).2
  | OpInject f b => (deliver uuid f b false s).2
  | OpSubscribe d => subscribe d s
  | OpDispose => dispose s
  | OpFire n => fire uuid n s
  | OpTick now => set_now (Z.max now (fk_now s)) s
  end.

(** A call sequence whose steps keep the invariant keeps it. *)
Definition keeps {A} (m : IO FakeState A) : Prop := ∀ s, fake_wf s → fake_wf (m s).2.

Lemma keeps_bind {A B} (m : IO FakeState A) (k : A → IO FakeState B) :
  keeps m → (∀ a, keeps (k a)) → keeps (m ≫= k).
Proof.
  intros Hm Hk s Hs. unfold mbind, io_bind. specialize (Hm s Hs). destruct (m s) as [[e|a] s1]; simpl in *; [done|].
  by apply Hk.
Qed.
Lemma keeps_ret {A} (a : A) : keeps (mret a).
Proof. by intros s Hs. Qed.
Lemma keeps_throw {A} e : keeps (throw e : IO FakeState A).
Proof. by intros s Hs. Qed.
Lemma keeps_get : keeps get_state.
Proof. by intros s Hs. Qed.
Lemma keeps_emit ev : keeps (emit_ ev).
Proof. intros s Hs. by eapply same_wf. Qed.
Lemma keeps_identity : keeps requireIdentity.
Proof. intros s Hs. unfold requireIdentity. by destruct (fk_identity s). Qed.
Lemma keeps_uuid : keeps (randomUUID uuid).
Proof. intros s Hs. by eapply same_wf. Qed.
Lemma keeps_seed gid : keeps (modify (seedApplication gid)).
Proof. intros s Hs. by apply seedApplication_wf. Qed.
Lemma keeps_info gid : keeps (groupInfoOf gid).
Proof. intros s Hs. unfold groupInfoOf. by destruct (group_ref s gid) as [[]|]. Qed.
Lemma keeps_alloc gid g : group_ok g → keeps (modify (alloc gid g)).
Proof. intros Hg s Hs. by apply alloc_wf. Qed.

(** What an operation on an existing group may rely on. *)
Lemma keeps_groupOf {B} gid (k : nat * FakeGroup → IO FakeState B) :
  (∀ r g, group_ok g → keeps (k (r, g))) → keeps (groupOf gid ≫= k).
Proof.
  intros Hk s Hs. unfold mbind, io_bind, groupOf. destruct (group_ref s gid) as [[r g]|] eqn:E; [|done].
  apply Hk; [|done]. by eapply group_ref_ok.
Qed.
Lemma keeps_put r g : group_ok g → keeps (modify (put r g)).
Proof. intros Hg s Hs. by apply put_wf. Qed.

Lemma fresh_group_ok name fp ms p seeded :
  nobody_speaks p = false → group_ok (mkFG name fp 1 ms [] 0 p [] [] seeded).
Proof. intros Hp. split_and!; simpl; try done. Qed.
Lemma with_members_ok ms g : group_ok g → group_ok (with_members ms g).
Proof. intros (? & ? & ? & ?). split_and!; simpl; try done; lia. Qed.
Lemma with_pins_ok ps g : group_ok g → group_ok (with_pins ps g).
Proof. done. Qed.
Lemma with_applications_ok aps b g : group_ok g → group_ok (with_applications aps b g).
Proof. done. Qed.
Lemma with_profile_ok p g : nobody_speaks p = false → group_ok g → group_ok (with_profile p g).
Proof. intros Hp (? & ? & ? & ?). split_and!; simpl; try done; lia. Qed.
Lemma with_entry_ok g e unread :
  group_ok g → ce_seq e = Z.of_nat (length (fg_entries g)) + 1 →
  0 <= unread <= fg_unread g + (if bool_decide (ce_dir e = dir_in) then 1 else 0) →
  group_ok (with_entries (fg_entries g ++ [e]) unread g).
Proof.
  intros (Hn & Hu & Hp & Hv) He Hr. split_and!; simpl; try done; [by apply numbered_snoc|lia|].
  rewrite inbound_snoc. lia.
Qed.
Lemma with_read_ok g : group_ok g → group_ok (with_entries (fg_entries g) 0 g).
Proof. intros (Hn & Hu & Hp & Hv). split_and!; simpl; try done. apply inbound_nonneg. Qed.

Create HintDb fake.
Hint Resolve keeps_bind keeps_ret keeps_throw keeps_get keeps_emit keeps_identity keeps_uuid keeps_seed keeps_info keeps_alloc
  keeps_groupOf keeps_put fresh_group_ok with_members_ok with_pins_ok with_applications_ok with_profile_ok with_read_ok : fake.

Lemma new_friend_ok convs f : fr_unread f = 0 → fr_count f = 0 → friend_ok convs (fr_fp f, f).
Proof.
  intros Hu Hn. unfold friend_ok. simpl. rewrite Hu, Hn.
  pose proof (inbound_nonneg (convs !! fr_fp f ?? [])). split_and!; [done|lia..].
Qed.

Lemma keeps_add_friend u r : keeps (friends_add u r).
Proof.
  unfold friends_add. apply keeps_bind; [apply keeps_identity|]. intros _. case_match; [apply keeps_throw|].
  apply keeps_bind; [|intros; apply keeps_ret]. intros s Hs. unfold modify. cbn [snd].
  eapply same_wf; [apply (set_friend_wf (fr_fp (friendFromCard u r)) (friendFromCard u r) s Hs); by apply new_friend_ok|done..].
Qed.

Lemma keeps_mid_io {B} (k : list Z → IO FakeState B) : (∀ id, keeps (k id)) → keeps (mid uuid ≫= k).
Proof. intros Hk. apply keeps_bind; [|done]. unfold mid. eauto with fake. Qed.

Lemma keeps_send t b o : keeps (send uuid t b o).
Proof.
  unfold send. apply keeps_bind; [apply keeps_identity|]. intros _. apply keeps_bind; [apply keeps_get|]. intros s0.
  case_match; [apply keeps_throw|]. apply keeps_mid_io. intros id s Hs. unfold io.
  pose proof (archive_wf t (λ seq, mkEntry seq dir_out id b (fk_now s) None None
    (opt_true (bool_decide ((o ≫= so_auto) = Some true))) None None (Some (js "sent")) None) s Hs ltac:(done)) as Ha.
  destruct (archive t _ s) as [e s1]. simpl in *. by eapply same_wf.
Qed.

Lemma keeps_deliver f b a : keeps (deliver uuid f b a).
Proof.
  intros s Hs. unfold deliver. destruct (fk_disposed s); [done|]. unfold exec. revert s Hs.
  apply keeps_mid_io. intros id s Hs. unfold io.
  pose proof (archive_wf f (λ seq, mkEntry seq dir_in id b (fk_now s) None None (opt_true a) None None None None) s Hs
    ltac:(done)) as Ha.
  destruct (archive f _ s) as [e s1]. simpl in *. by eapply same_wf.
Qed.

Lemma keeps_groups_send gid b o : keeps (groups_send uuid gid b o).
Proof.
  intros s Hs. unfold groups_send. destruct (group_ref s gid) as [[r g]|] eqn:E; [|done].
  pose proof (group_ref_ok s gid r g Hs E) as Hg. destruct (send_refusal _ _ _); [done|]. unfold exec. revert s Hs E.
  intros s Hs _. revert s Hs. apply keeps_mid_io. intros id s Hs. unfold io. cbn [snd].
  assert (fake_wf (put r (with_entries (fg_entries g ++ [mkEntry (Z.of_nat (length (fg_entries g)) + 1) dir_out id b (fk_now s) None None
    (opt_true (bool_decide ((o ≫= go_auto) = Some true))) (Some ((o ≫= go_by) ?? js "owner"))
    (if jeqb ((o ≫= go_by) ?? js "owner") (js "alter") then (o ≫= go_agent) ≫= non_empty else None) (Some (js "sent")) None])
    (fg_unread g) g) s)) as Hw.
  { apply put_wf; [done|]. apply with_entry_ok; [done|done|]. destruct Hg as (_ & ? & _). simpl. lia. }
  cbv zeta. destruct (findb _ (fg_memberList g)); [by eapply same_wf|done].
Qed.

Lemma keeps_groups_create n ms p : keeps (groups_create uuid n ms p).
Proof.
  unfold groups_create. apply keeps_bind; [apply keeps_identity|]. intros me. case_match eqn:Ep; [apply keeps_throw|].
  apply keeps_bind; [apply keeps_get|]. intros s0. apply keeps_bind; [unfold fresh_gid; eauto with fake|]. intros gid.
  apply keeps_bind; [apply keeps_alloc, fresh_group_ok|eauto with fake]. by destruct p.
Qed.

Lemma keeps_groups_apply u : keeps (groups_apply uuid url_param u).
Proof.
  unfold groups_apply. apply keeps_bind; [apply keeps_identity|]. intros me. case_match; [apply keeps_throw|].
  apply keeps_bind; [case_match; unfold fresh_gid; eauto with fake|]. intros gid.
  apply keeps_bind; [by apply keeps_alloc, fresh_group_ok|eauto with fake].
Qed.

Lemma keeps_setProfile gid p : keeps (groups_setProfile gid p).
Proof.
  apply keeps_groupOf. intros r g Hg. apply keeps_bind; [apply keeps_get|]. intros s0.
  case_match; [apply keeps_throw|]. case_match; [apply keeps_throw|]. eauto 8 with fake.
Qed.

Lemma keeps_pin gid b : keeps (groups_pin gid b).
Proof.
  apply keeps_groupOf. intros r g Hg. apply keeps_bind; [apply keeps_get|]. intros s0.
  case_match; [apply keeps_throw|]. apply keeps_bind; [|eauto with fake]. intros s Hs. unfold modify. cbn [snd].
  apply put_wf; [by eapply same_wf|by apply with_pins_ok].
Qed.

Lemma keeps_timer a : keeps (run_timer uuid a).
Proof.
  intros s Hs. destruct a as [f|from b au|gid r other b|gid r]; simpl.
  - case_match; [done|by eapply same_wf].
  - by apply keeps_deliver.
  - case_match; [done|]. unfold exec. revert s Hs H. intros s Hs _. revert s Hs. apply keeps_mid_io.
    intros id s Hs. unfold io. destruct (fk_heap s !! r) as [g|] eqn:E; [|done]. cbn [snd].
    pose proof (wf_groups s Hs r g E) as Hg. eapply same_wf; [apply put_wf; [exact Hs|]|done..].
    apply with_entry_ok; [exact Hg|done|]. destruct Hg as (_ & ? & _). simpl. lia.
  - case_match; [done|]. destruct (fk_heap s !! r) as [g|] eqn:E; [|done]. cbn [snd].
    eapply same_wf; [apply put_wf; [exact Hs|]|done..]. apply with_applications_ok. by apply (wf_groups s Hs r g).
Qed.

Lemma run_op_wf o s : fake_wf s → fake_wf (run_op o s).
Proof.
  intros Hs. destruct o; simpl.
  - unfold createIdentity. repeat case_match; try done. by eapply same_wf.
  - by apply keeps_add_friend.
  - unfold friends_accept. case_match; [|done]. cbn [snd].
    apply (set_friend_wf _ _ (set_pending _ s)); [by eapply same_wf|by apply new_friend_ok].
  - unfold friends_reject. case_match; [|done]. by eapply same_wf.
  - unfold friends_set. destruct (map_get (fk_friends s) id) as [f|] eqn:E; [|done].
    apply set_friend_wf; [done|]. exact (friend_get_ok s id f Hs E).
  - unfold friends_remove. case_match; [|done]. destruct Hs as [Hc Hf Hg]. constructor; simpl; try done.
    by apply map_delete_Forall.
  - by apply keeps_send.
  - unfold markRead. destruct (map_get (fk_friends s) id) as [f|] eqn:E; [|done].
    apply set_friend_wf; [done|]. destruct (friend_get_ok s id f Hs E) as (? & ? & ?). split_and!; simpl in *; try done; lia.
  - by apply keeps_groups_create.
  - by apply keeps_groups_send.
  - revert s Hs. change (keeps (groups_markRead gid)). apply keeps_groupOf. eauto with fake.
  - unfold groups_leave. case_match; [|done]. by eapply same_wf.
  - revert s Hs. change (keeps (groups_kick gid target)). apply keeps_groupOf. eauto with fake.
  - by apply keeps_setProfile.
  - by apply keeps_pin.
  - revert s Hs. change (keeps (groups_unpin gid id)). apply keeps_groupOf. eauto with fake.
  - by apply keeps_groups_apply.
  - revert s Hs. change (keeps (groups_approve gid target)). apply keeps_groupOf. intros r g Hg.
    case_match; unfold drop_application; eauto with fake.
  - revert s Hs. change (keeps (groups_applicationReject gid target)). apply keeps_groupOf.
    unfold drop_application. eauto with fake.
  - revert s Hs. change (keeps (groups_invite gid target)). apply keeps_groupOf. intros r g Hg.
    apply keeps_bind; [apply keeps_get|]. intros s0. repeat case_match; eauto with fake.
  - by apply keeps_deliver.
  - unfold subscribe. repeat case_match; by eapply same_wf.
  - by eapply same_wf.
  - unfold fire. repeat case_match; try done. apply keeps_timer. by eapply same_wf.
  - by eapply same_wf.
Qed.

(** In every state the in-memory backend reaches, whatever calls, timers and
    clock ticks came before, each private and group archive is numbered 1, 2,
    3, ... in order, unread counts never exceed the inbound entries archived,
    and every group still lets humans or agents speak. *)
Theorem fake_reachable_wf (noIdentity : bool) (now : Z) (ops : list FakeOp) :
  fake_wf (fold_left (λ s o, run_op o s) ops (createFakeNetworkClient noIdentity now)).
Proof.
  assert (fake_wf (createFakeNetworkClient noIdentity now)) as Hs.
  { constructor; simpl; [apply map_Forall_empty| |apply map_Forall_empty]. unfold FAKE_FRIENDS. simpl.
    rewrite !Forall_cons. unfold friend_ok. simpl. by split_and!. }
  revert Hs. generalize (createFakeNetworkClient noIdentity now) as s.
  induction ops as [|o ops IH]; intros s Hs; simpl; [done|]. by apply IH, run_op_wf.
Qed.
End reachable.

(** ** The in-memory backend keeps the archiving promise *)

Section archiving.
Context (uuid : nat → list Z) (url_param : list Z → list Z → option (list Z)).

Lemma send_run to body o s receipt s1 :
  send uuid to body o s = (inr receipt, s1) →
  ∃ e, fk_conversations s1 = <[to := (fk_conversations s !! to ?? []) ++ [e]]> (fk_conversations s) ∧
    is_sent body o receipt e ∧ ce_seq e = Z.of_nat (length (fk_conversations s !! to ?? [])) + 1.
Proof.
  unfold send, mbind, io_bind, requireIdentity, get_state, mid, randomUUID, mret, io_ret, io, archive.
  intros H. destruct (fk_identity s); [|done]. destruct (negb _); [done|]. simplify_eq/=.
  set (au := opt_true _). set (id := js "a2a-" ++ uuid (fk_uuids s)).
  exists (mkEntry (Z.of_nat (length (fk_conversations s !! to ?? [])) + 1) dir_out id body (fk_now s) None None au None None (Some (js "sent")) None).
  split; [by case_match|]. split; [|done]. split_and!; try done. simpl. unfold au.
  by destruct (bool_decide ((o ≫= so_auto) = Some true)) eqn:Eb; bools.
Qed.

#[export] Instance fake_archiving : @ArchivingClient FakeState (fake_client uuid url_param) fake_wf.
Proof.
  constructor. intros fp body o s receipt s1 Hs Hsend.
  destruct (send_run fp body o s receipt s1 Hsend) as (e & Hc & He & Hseq).
  assert (fake_wf s1) as Hs1.
  { pose proof (keeps_send uuid fp body o s Hs) as Hk. cbn [net_send fake_client] in Hsend. by rewrite Hsend in Hk. }
  exists e, false, s1. split; [rewrite Hseq; lia|]. split; [done|].
  cbn [net_conversation fake_client]. unfold conversation, gets. rewrite Hc, lookup_insert_eq. simpl. do 3 f_equal.
  apply archive_read_back. apply (wf_convs s1 Hs1 fp). by rewrite Hc, lookup_insert_eq.
Qed.
End archiving.
