(* ===== verification/Sessions.v ===== *)
(** * The alter's sessions (sessions/index.ts)

    The service that turns inbound mail into turns of the alter and of the
    seat agents: the messages it builds for the session log, the waking of
    voices for private and group mail, the conversation receipts, the pending
    drafts and what the owner decides about them.

    The agent runtime of the host is not part of the repository: a wake is
    recorded with the voice and the message handed to it, and the log of a
    session is a list of its events. *)

From S2P Require Import Prelude JsString JsMap Json Policy AlterState GroupSettings FriendSettings.
From S2P Require Import AgentRegistry Drafts GroupContract Network.
#[local] Open Scope Z_scope.

(** ** The messages written into a session log *)

Definition Q : list Z := [34].
Definition NL : list Z := [10].

(** The [source] of a relayed message. *)
Definition relay_source (sender : list Z) (a2a : list (list Z * json)) : json :=
  JObj [(js "kind", JStr (js "plugin")); (js "plugin", JStr SOULMIRROR_PLUGIN); (js "form", JStr RELAY_FORM);
        (js "senderSessionId", JStr sender); (js "a2a", JObj a2a)].

Definition user_message (id text : list Z) (source : json) : json :=
  JObj [(js "id", JStr id); (js "role", JStr (js "user"));
        (js "content", JArr [JObj [(js "type", JStr (js "text")); (js "text", JStr text)]]); (js "source", source)].

Definition is_auto (m : InboundMessage) : bool := bool_decide (im_auto m = Some true).
Definition auto_prop (m : InboundMessage) : list (list Z * json) := if is_auto m then [(js "auto", JBool true)] else [].

Definition userMessageFor (uuid : list Z) (m : InboundMessage) (displayName : list Z) : json :=
  let a2a := [(js "id", JStr (im_id m)); (js "fp", JStr (im_from m)); (js "ts", JNum (num_of_Z (im_ts m)))]
             ++ auto_prop m ++ opt_prop (js "type") JStr (im_type m) in
  let attachment := match im_artifactPath m with
                    | None => []
                    | Some p => NL ++ js "[attachment: " ++ (im_artifactName m ?? js "file") ++ js " at " ++ p ++ js "]"
                    end in
  user_message uuid
    (js "[SoulMirror A2A inbound] from friend " ++ Q ++ displayName ++ Q ++ js " (fingerprint " ++ im_from m ++ js ")"
       ++ (if is_auto m then js " (peer auto-reply)" else []) ++ js ":" ++ NL ++ im_body m ++ attachment)
    (relay_source displayName a2a).

Definition groupMessageFor (uuid : list Z) (m : InboundMessage) (gid groupName : list Z) : json :=
  let by_ := im_by m ≫= non_empty in
  let agent := im_agent m ≫= non_empty in
  let a2a := [(js "id", JStr (im_id m)); (js "fp", JStr (im_from m)); (js "ts", JNum (num_of_Z (im_ts m))); (js "gid", JStr gid)]
             ++ auto_prop m ++ opt_prop (js "by") JStr by_ ++ opt_prop (js "agent") JStr agent
             ++ opt_prop (js "type") JStr (im_type m) in
  user_message uuid
    (js "[SoulMirror A2A inbound] group " ++ Q ++ groupName ++ Q ++ js " (gid " ++ gid ++ js ") from " ++ Q ++ im_name m ++ Q
       ++ (if bool_decide (im_by m = Some (js "alter"))
           then match agent with Some a => js "'s agent " ++ Q ++ a ++ Q | None => js "'s alter" end else [])
       ++ js " (fingerprint " ++ im_from m ++ js ")" ++ (if is_auto m then js " (automatic post)" else []) ++ js ":" ++ NL ++ im_body m)
    (relay_source (im_name m ++ js " in " ++ groupName) a2a).

Definition ownerMessageFor (uuid text : list Z) : json :=
  user_message uuid text (JObj [(js "kind", JStr (js "user"))]).

Inductive A2ANoteKind := draft_approved | draft_rejected | draft_revise.
Definition note_str (n : A2ANoteKind) : list Z :=
  match n with
  | draft_approved => js "draft-approved" | draft_rejected => js "draft-rejected" | draft_revise => js "draft-revise"
  end.

Definition noteMessageFor (uuid : list Z) (now : Z) (note : A2ANoteKind) (draft : PendingDraft) (text : list Z) : json :=
  user_message uuid (js "[SoulMirror note] " ++ text)
    (relay_source (js "SoulMirror")
       [(js "id", JStr (js "note-" ++ uuid)); (js "fp", JStr (pd_fp draft)); (js "ts", JNum (num_of_Z now));
        (js "note", JStr (note_str note)); (js "draftId", JStr (pd_id draft))]).

(** The event of such a message in the log. *)
Definition message_event (seq ts : Z) (m : json) : EventLike := mkEvent (js "user/message") seq ts (Some m).

(** ** State *)

Inductive Voice := VAlter | VAgent (a : SeatAgent).

Record AwaitReceipt := mkAwait { aw_myAgent : list Z; aw_fp : list Z; aw_token : list Z; aw_ts : Z }.
Record Expect := mkExpect { ex_fp : list Z; ex_token : list Z }.
Record ReplyWatch := mkWatch { wa_gid : list Z; wa_groupName : list Z; wa_nudged : bool }.

(** [agent.followup(message)]: a voice is woken with a message. *)
Record Wake := mkWakeUp { wu_voice : list Z; wu_gid : option (list Z); wu_message : json }.

Inductive SessionsEvent :=
| SeOutbound (fp : list Z) (gid : option (list Z)) (e : ConversationEntry)
| SeDraftAdded (d : PendingDraft)
| SeDraftRemoved (d : PendingDraft) (decision : list Z)
(** [phase], [count], the memories (id, content), the clue. *)
| SeMemory (phase : list Z) (count : Z) (memories : option (list (list Z * list Z))) (clue : option (list Z)).

Record Sessions := mkSessions {
  se_alterId : option (list Z);
  se_agentSessionIds : list (list Z * list Z);
  se_agentGroupSessionIds : list (list Z * list (list Z * list Z));
  se_canonical : gmap (list Z) (list Z);  (** session id behind an agent handle *)
  se_events : gmap (list Z) (list EventLike);  (** the logs *)
  se_registry : AgentRegistryStore;
  se_groups : GroupSettingsStore;
  se_friends : FriendSettingsStore;
  se_defaultTier : ReplyTier;
  se_friendsByFp : list (list Z * Friend);
  se_groupsByGid : list (list Z * (list Z * GroupProfileView));
  se_drafts : DraftStore;
  se_autoReplies : HourlyWindow;
  se_awaitReply : gmap (list Z) (list AwaitReceipt);
  se_watch : list (list Z * ReplyWatch);  (** [groupReplyWatch] *)
  se_myFp : list Z;
  se_ownerName : list Z;
  se_unread : gmap (list Z) Z;
  se_wakes : list Wake;  (** followups, oldest first *)
  se_appended : list json;  (** appended to the alter's log without a wake *)
  se_emitted : list SessionsEvent;
}.

Definition set_caches (fs : list (list Z * Friend)) (gs : list (list Z * (list Z * GroupProfileView))) (s : Sessions) : Sessions :=
  mkSessions (se_alterId s) (se_agentSessionIds s) (se_agentGroupSessionIds s) (se_canonical s) (se_events s)
    (se_registry s) (se_groups s) (se_friends s) (se_defaultTier s) fs gs (se_drafts s)
    (se_autoReplies s) (se_awaitReply s) (se_watch s) (se_myFp s) (se_ownerName s) (se_unread s)
    (se_wakes s) (se_appended s) (se_emitted s).
Definition set_owner (f : list Z) (n : list Z) (s : Sessions) : Sessions :=
  mkSessions (se_alterId s) (se_agentSessionIds s) (se_agentGroupSessionIds s) (se_canonical s) (se_events s)
    (se_registry s) (se_groups s) (se_friends s) (se_defaultTier s) (se_friendsByFp s)
    (se_groupsByGid s) (se_drafts s) (se_autoReplies s) (se_awaitReply s) (se_watch s) f n (se_unread s)
    (se_wakes s) (se_appended s) (se_emitted s).
Definition set_drafts (d : DraftStore) (s : Sessions) : Sessions :=
  mkSessions (se_alterId s) (se_agentSessionIds s) (se_agentGroupSessionIds s) (se_canonical s) (se_events s)
    (se_registry s) (se_groups s) (se_friends s) (se_defaultTier s) (se_friendsByFp s)
    (se_groupsByGid s) d (se_autoReplies s) (se_awaitReply s) (se_watch s) (se_myFp s) (se_ownerName s)
    (se_unread s) (se_wakes s) (se_appended s) (se_emitted s).
Definition set_window (w : HourlyWindow) (s : Sessions) : Sessions :=
  mkSessions (se_alterId s) (se_agentSessionIds s) (se_agentGroupSessionIds s) (se_canonical s) (se_events s)
    (se_registry s) (se_groups s) (se_friends s) (se_defaultTier s) (se_friendsByFp s)
    (se_groupsByGid s) (se_drafts s) w (se_awaitReply s) (se_watch s) (se_myFp s) (se_ownerName s)
    (se_unread s) (se_wakes s) (se_appended s) (se_emitted s).
Definition set_await (a : gmap (list Z) (list AwaitReceipt)) (s : Sessions) : Sessions :=
  mkSessions (se_alterId s) (se_agentSessionIds s) (se_agentGroupSessionIds s) (se_canonical s) (se_events s)
    (se_registry s) (se_groups s) (se_friends s) (se_defaultTier s) (se_friendsByFp s)
    (se_groupsByGid s) (se_drafts s) (se_autoReplies s) a (se_watch s) (se_myFp s) (se_ownerName s)
    (se_unread s) (se_wakes s) (se_appended s) (se_emitted s).
Definition set_watch (w : list (list Z * ReplyWatch)) (s : Sessions) : Sessions :=
  mkSessions (se_alterId s) (se_agentSessionIds s) (se_agentGroupSessionIds s) (se_canonical s) (se_events s)
    (se_registry s) (se_groups s) (se_friends s) (se_defaultTier s) (se_friendsByFp s)
    (se_groupsByGid s) (se_drafts s) (se_autoReplies s) (se_awaitReply s) w (se_myFp s) (se_ownerName s)
    (se_unread s) (se_wakes s) (se_appended s) (se_emitted s).
Definition set_unread (u : gmap (list Z) Z) (s : Sessions) : Sessions :=
  mkSessions (se_alterId s) (se_agentSessionIds s) (se_agentGroupSessionIds s) (se_canonical s) (se_events s)
    (se_registry s) (se_groups s) (se_friends s) (se_defaultTier s) (se_friendsByFp s)
    (se_groupsByGid s) (se_drafts s) (se_autoReplies s) (se_awaitReply s) (se_watch s) (se_myFp s)
    (se_ownerName s) u (se_wakes s) (se_appended s) (se_emitted s).
Definition set_wakes (w : list Wake) (s : Sessions) : Sessions :=
  mkSessions (se_alterId s) (se_agentSessionIds s) (se_agentGroupSessionIds s) (se_canonical s) (se_events s)
    (se_registry s) (se_groups s) (se_friends s) (se_defaultTier s) (se_friendsByFp s)
    (se_groupsByGid s) (se_drafts s) (se_autoReplies s) (se_awaitReply s) (se_watch s) (se_myFp s)
    (se_ownerName s) (se_unread s) w (se_appended s) (se_emitted s).
Definition set_appended (l : list json) (s : Sessions) : Sessions :=
  mkSessions (se_alterId s) (se_agentSessionIds s) (se_agentGroupSessionIds s) (se_canonical s) (se_events s)
    (se_registry s) (se_groups s) (se_friends s) (se_defaultTier s) (se_friendsByFp s)
    (se_groupsByGid s) (se_drafts s) (se_autoReplies s) (se_awaitReply s) (se_watch s) (se_myFp s)
    (se_ownerName s) (se_unread s) (se_wakes s) l (se_emitted s).
Definition set_emitted (l : list SessionsEvent) (s : Sessions) : Sessions :=
  mkSessions (se_alterId s) (se_agentSessionIds s) (se_agentGroupSessionIds s) (se_canonical s) (se_events s)
    (se_registry s) (se_groups s) (se_friends s) (se_defaultTier s) (se_friendsByFp s)
    (se_groupsByGid s) (se_drafts s) (se_autoReplies s) (se_awaitReply s) (se_watch s) (se_myFp s)
    (se_ownerName s) (se_unread s) (se_wakes s) (se_appended s) l.

Record World (S : Type) := mkWorld { w_net : S; w_se : Sessions; w_uuids : nat }.
Arguments mkWorld {S} _ _ _.
Arguments w_net {S} _.
Arguments w_se {S} _.
Arguments w_uuids {S} _.

(** ** Pure parts *)

Definition displayNameOf (friend : option Friend) (fallback : list Z) : list Z :=
  match friend with
  | Some f => fr_remark f ?? fr_name f
  | None => fallback
  end.

Definition tierOf (s : Sessions) (fp : list Z) : ReplyTier := tier_for (se_friends s) fp (se_defaultTier s).

(** The log behind the id a tool hands in. *)
Definition session_id (s : Sessions) (sid : list Z) : list Z := se_canonical s !! sid ?? sid.

Definition trigger_of_session (s : Sessions) (sid : list Z) : TurnTrigger :=
  match se_events s !! session_id s sid with
  | None => UNKNOWN_TRIGGER
  | Some events => triggerOf events
  end.

Section pure.
Context `{LowerCase}.

(** First registered seat among the session maps' matches, in order. *)
Fixpoint first_seat (s : Sessions) (names : list (list Z)) : option Voice :=
  match names with
  | [] => None
  | n :: rest => match get_agent (se_registry s) n with Some a => Some (VAgent a) | None => first_seat s rest end
  end.

Definition voiceOf (s : Sessions) (sessionId : list Z) : option Voice :=
  let sid := session_id s sessionId in
  let is_id (i : list Z) := jeqb i sid || jeqb i sessionId in
  if match se_alterId s with Some a => is_id a | None => false end then Some VAlter
  else first_seat s
         (map fst (filterb (λ ni, is_id ni.2) (se_agentSessionIds s))
          ++ concat (map (λ nb, map (λ _, nb.1) (filterb (λ gi, is_id gi.2) nb.2)) (se_agentGroupSessionIds s))).

(** *** Conversation receipts *)

Definition AWAIT_REPLY_MS : Z := 30 * 60000.

Definition live_receipts (now : Z) (l : list AwaitReceipt) : list AwaitReceipt :=
  filterb (λ w, now - aw_ts w <? AWAIT_REPLY_MS) l.

Definition same_receipt (agentName : list Z) (e : Expect) (w : AwaitReceipt) : bool :=
  jeqb (aw_myAgent w) agentName && jeqb (aw_fp w) (ex_fp e) && jeqb (toLowerCase (aw_token w)) (toLowerCase (ex_token e)).

Definition add_receipt (agentName : list Z) (now : Z) (l : list AwaitReceipt) (e : Expect) : list AwaitReceipt :=
  if someb (same_receipt agentName e) l then l else l ++ [mkAwait agentName (ex_fp e) (ex_token e) now].

Definition noteAwaitReply (now : Z) (gid agentName : list Z) (expects : list Expect) (s : Sessions) : Sessions :=
  match expects with
  | [] => s
  | _ => set_await (<[gid := fold_left (add_receipt agentName now) expects (live_receipts now (se_awaitReply s !! gid ?? []))]>
                      (se_awaitReply s)) s
  end.

(** [[...new Set(l)]]. *)
Fixpoint js_set (seen l : list (list Z)) : list (list Z) :=
  match l with
  | [] => []
  | x :: l' => if bool_decide (x ∈ seen) then js_set seen l' else x :: js_set (x :: seen) l'
  end.

Definition sender_tokens (m : InboundMessage) : list (list Z) :=
  map toLowerCase (filterb (λ t, negb (jeqb t [])) [im_agent m ?? []; im_name m]).

Definition answers (m : InboundMessage) (w : AwaitReceipt) : bool :=
  jeqb (aw_fp w) (im_from m) && bool_decide (toLowerCase (aw_token w) ∈ sender_tokens m).

Definition takeAwaitedRepliers (now : Z) (gid : list Z) (m : InboundMessage) (s : Sessions) : list (list Z) * Sessions :=
  if negb (bool_decide (im_by m = Some (js "alter"))) then ([], s)
  else
    let l := live_receipts now (se_awaitReply s !! gid ?? []) in
    (js_set [] (map aw_myAgent (filterb (answers m) l)),
     set_await (<[gid := filterb (λ w, negb (answers m w)) l]> (se_awaitReply s)) s).

(** Whom a post addresses: member names and announced agents it mentions. *)
Definition expects_of (myFp body : list Z) (members : list GroupMember) : list Expect :=
  concat (map (λ m,
    if negb (jeqb myFp []) && jeqb (mb_fp m) myFp then []
    else omap (λ token, if negb (jeqb token []) && mentionsAgent body token then Some (mkExpect (mb_fp m) token) else None)
           (mb_name m :: (mb_agents m ?? []))) members).
End pure.

(** ** Operations *)

Section operations.
Context {S : Type} `{NetworkClient S} `{LowerCase}.
(** The platform's uuids and ISO times; the host's session of an agent in a group. *)
Context (uuid : nat → list Z) (iso : Z → list Z) (worker : list Z → list Z → list Z).
Notation IOW := (IO (World S)).

Definition net {A} (m : IO S A) : IOW A := λ w, let '(r, n) := m (w_net w) in (r, mkWorld n (w_se w) (w_uuids w)).
Definition ses (f : Sessions → Sessions) : IOW unit := modify (λ w, mkWorld (w_net w) (f (w_se w)) (w_uuids w)).
Definition asks {A} (f : Sessions → A) : IOW A := gets (λ w, f (w_se w)).
Definition now_ : IOW Z := gets (λ w, Date_now (w_net w)).
Definition new_uuid : IOW (list Z) := λ w, (inr (uuid (w_uuids w)), mkWorld (w_net w) (w_se w) (w_uuids w + 1)).
Definition plain_error {A} (msg : list Z) : IOW A := throw (mkErr msg 0).

Definition followup (voice : list Z) (gid : option (list Z)) (m : json) : IOW unit :=
  ses (λ s, set_wakes (se_wakes s ++ [mkWakeUp voice gid m]) s).
Definition append_alter (m : json) : IOW unit := ses (λ s, set_appended (se_appended s ++ [m]) s).
Definition emit_event (e : SessionsEvent) : IOW unit := ses (λ s, set_emitted (se_emitted s ++ [e]) s).

Definition refreshOwner : IOW unit :=
  catch (identity ← net net_identity;
         match identity with
         | Some i => ses (λ s, set_owner (id_fp i) (if jeqb (id_name i) [] then se_ownerName s else id_name i) s)
         | None => mret tt
         end) (λ _, mret tt).

(** *** Private mail *)

Definition find_friend (from : list Z) : IOW (option Friend) :=
  cached ← asks (λ s, map_get (se_friendsByFp s) from);
  match cached with
  | Some f => mret (Some f)
  | None =>
      l ← net net_friends_list;
      match findb (λ f, jeqb (fr_fp f) from) l with
      | Some f => _ ← ses (λ s, set_caches (map_set (se_friendsByFp s) (fr_fp f) f) (se_groupsByGid s) s); mret (Some f)
      | None => mret None
      end
  end.

Definition deliver (m : InboundMessage) : IOW unit :=
  friend ← find_friend (im_from m);
  _ ← ses (λ s, set_unread (<[im_from m := (se_unread s !! im_from m ?? 0) + 1]> (se_unread s)) s);
  tier ← asks (λ s, tierOf s (im_from m));
  let route := routeInbound (mkRouteInput tier (is_auto m) (bool_decide (is_Some friend))) in
  u ← new_uuid;
  let message := userMessageFor u m (displayNameOf friend (im_name m)) in
  match rt_action route with
  | wake_turn => followup (js "alter") None message
  | append_only => append_alter message
  end.

(** *** Group mail *)

Definition groupOf (gid : list Z) : IOW (option (list Z * GroupProfileView)) :=
  cached ← asks (λ s, map_get (se_groupsByGid s) gid);
  match cached with
  | Some g => mret (Some g)
  | None =>
      catch (info ← net (net_groups_info gid);
             let view := (gr_name (gi_row info), row_profile (gi_row info)) in
             _ ← ses (λ s, set_caches (se_friendsByFp s) (map_set (se_groupsByGid s) gid view) s);
             mret (Some view)) (λ _, mret None)
  end.

Definition watch_reply (name gid groupName : list Z) : IOW unit :=
  ses (λ s, set_watch (map_set (se_watch s) (worker name gid) (mkWatch gid groupName false)) s).

Definition my_mode (m : GroupAlterMode) : MyMode := match m with ModeMention => my_mention | ModeAlways => my_always end.

Definition commander_ok (s : Sessions) (gid from : list Z) (seat : SeatAgent) : bool :=
  someb (λ c, jeqb c COMMANDER_ANY || jeqb c from) (commandersOf (se_groups s) gid (ag_name seat)).

(** One iteration of the loop over the seat agents. *)
Definition wake_seat (m : InboundMessage) (gid : list Z) (group : list Z * GroupProfileView) (awaited : list (list Z))
    (seat : SeatAgent) : IOW unit :=
  let name := ag_name seat in
  let profile := group.2 in
  s ← asks id;
  if bool_decide (name ∈ awaited) && voiceOn (se_groups s) gid name && gp_speakAgents profile then
    u ← new_uuid;
    followup name (Some gid) (groupMessageFor u m gid group.1)
  else
    let route := wakeAgentForGroup (mkAgentWake (gp_speakAgents profile) (voiceOn (se_groups s) gid name) false
                   (gp_agentWake profile) (bool_decide (dutyOf (se_groups s) gid = Some name))
                   (mentionsAgent (im_body m) name) (commander_ok s gid (im_from m) seat)) in
    if wk_wake route then
      u ← new_uuid;
      _ ← followup name (Some gid) (groupMessageFor u m gid group.1);
      watch_reply name gid group.1
    else mret tt.

Fixpoint for_seats (f : SeatAgent → IOW unit) (l : list SeatAgent) : IOW unit :=
  match l with
  | [] => mret tt
  | a :: l' => _ ← f a; for_seats f l'
  end.

Definition deliverGroup (gid : list Z) (m : InboundMessage) : IOW unit :=
  me ← asks se_myFp;
  _ ← (if jeqb me [] then refreshOwner else mret tt);
  s ← asks id;
  if jeqb (im_from m) (se_myFp s) then mret tt
  else
    g ← groupOf gid;
    match g with
    | None => mret tt
    | Some group =>
        s ← asks id;
        let profile := group.2 in
        let route := wakeForGroup (mkGroupWake (gp_speakAgents profile) (alterOn (se_groups s) gid) false (gp_agentWake profile)
                       (Some (my_mode (modeOf (se_groups s) gid))) (mentionsMe (im_body m) (se_ownerName s))) in
        _ ← (if wk_wake route
             then u ← new_uuid; followup (js "alter") None (groupMessageFor u m gid group.1)
             else mret tt);
        now ← now_;
        awaited ← asks (λ s, (takeAwaitedRepliers now gid m s).1);
        _ ← ses (λ s, (takeAwaitedRepliers now gid m s).2);
        seats ← asks (λ s, rg_agents (se_registry s));
        for_seats (wake_seat m gid group awaited) seats
    end.

Definition own_message (u : list Z) (s : Sessions) (body : list Z) (now : Z) : InboundMessage :=
  mkInbound (js "own-" ++ u) (se_myFp s) (if jeqb (se_ownerName s) [] then js "the owner" else se_ownerName s) body now
    None None None None None None None.

Definition ownGroupPost (gid body : list Z) : IOW unit :=
  me ← asks se_myFp;
  _ ← (if jeqb me [] then refreshOwner else mret tt);
  g ← groupOf gid;
  match g with
  | None => mret tt
  | Some group =>
      if negb (gp_speakAgents group.2) then mret tt
      else
        seats ← asks (λ s, rg_agents (se_registry s));
        for_seats (λ seat,
          if negb (mentionsAgent body (ag_name seat)) then mret tt
          else
            u ← new_uuid;
            s ← asks id;
            now ← now_;
            u2 ← new_uuid;
            _ ← followup (ag_name seat) (Some gid) (groupMessageFor u2 (own_message u s body now) gid group.1);
            watch_reply (ag_name seat) gid group.1) seats
  end.

Definition instruct (text : list Z) : IOW unit :=
  let body := trimEnd text in
  if jeqb body [] then plain_error (js "instruction must not be empty")
  else
    nm ← asks se_ownerName;
    _ ← (if jeqb nm [] then refreshOwner else mret tt);
    u ← new_uuid;
    followup (js "alter") None (ownerMessageFor u body).

(** *** The group-reply check *)

Definition GROUP_SEND_TOOL : list Z := js "soulmirror_send_group_message".

Definition turnHadGroupSend (events : list EventLike) : bool :=
  match after_last_start (reverse events) [] with
  | None => true
  | Some turn => someb (λ e, is_type e (js "tool/call") && is_str (get (e.(ev_data) ?? JNull) (js "name")) GROUP_SEND_TOOL) turn
  end.

Definition nudge_text (gid : list Z) : list Z :=
  js "[SoulMirror mechanical check] Your turn ENDED without calling soulmirror_send_group_message — NOTHING reached the group; whatever you wrote was only a private note. Post your report into gid "
    ++ gid ++ js " now by actually CALLING soulmirror_send_group_message.".

(** [completed]: the end event's reason; [seat]: the agent of the session. *)
Definition enforceGroupReply (sessionId seat : list Z) (completed : bool) : IOW unit :=
  s ← asks id;
  match map_get (se_watch s) sessionId with
  | None => mret tt
  | Some watch =>
      let unwatch := ses (λ s, set_watch (map_delete (se_watch s) sessionId) s) in
      if negb completed then unwatch
      else match se_events s !! session_id s sessionId with
      | None => unwatch
      | Some events =>
          if turnHadGroupSend events then unwatch
          else if wa_nudged watch then unwatch
          else
            _ ← ses (λ s, set_watch (map_set (se_watch s) sessionId (mkWatch (wa_gid watch) (wa_groupName watch) true)) s);
            u ← new_uuid;
            followup seat (Some (wa_gid watch)) (ownerMessageFor u (nudge_text (wa_gid watch)))
      end
  end.

(** *** Drafts *)

Definition trigger_kind_str (k : TriggerKind) : list Z :=
  match k with
  | Owner => js "owner" | Inbound => js "inbound" | InboundAuto => js "inbound-auto" | Group => js "group" | Unknown => js "unknown"
  end.

Definition trigger_json (t : TurnTrigger) : json :=
  JObj ([(js "kind", JStr (trigger_kind_str (tr_kind t)))] ++ opt_prop (js "fp") JStr (tr_fp t) ++ opt_prop (js "name") JStr (tr_name t)
        ++ opt_prop (js "messageId") JStr (tr_messageId t) ++ opt_prop (js "gid") JStr (tr_gid t)).

Record DraftInput := mkDraftInput {
  di_fp : list Z; di_gid : option (list Z); di_name : option (list Z); di_body : list Z; di_reason : list Z;
  di_trigger : option TurnTrigger; di_sessionId : option (list Z); di_agent : option (list Z) }.

Definition draft_name (s : Sessions) (i : DraftInput) : list Z :=
  di_name i ??
  (match di_gid i with
   | None => displayNameOf (map_get (se_friendsByFp s) (di_fp i)) (di_fp i)
   | Some gid => (fst <$> map_get (se_groupsByGid s) gid) ?? gid
   end).

Definition queueDraft (i : DraftInput) : IOW PendingDraft :=
  u ← new_uuid;
  now ← now_;
  s ← asks id;
  let d := mkDraft [] (di_fp i) (di_gid i) (draft_name s i) (di_body i) [] (di_reason i) (trigger_json <$> di_trigger i)
             (di_sessionId i) (di_agent i) in
  let '(ds, draft) := add_draft (js "draft-" ++ u) (iso now) None None d (se_drafts s) in
  _ ← ses (set_drafts ds);
  _ ← emit_event (SeDraftAdded draft);
  mret draft.

Inductive DraftDecision := Approve (body : option (list Z)) | Reject | Revise (feedback : list Z).

Definition who_of (d : PendingDraft) : list Z :=
  match pd_gid d with
  | None => pd_name d ++ js " (" ++ pd_fp d ++ js ")"
  | Some gid => js "group " ++ pd_name d ++ js " (" ++ gid ++ js ")"
  end.

Definition drop_draft (id : list Z) : IOW unit := ses (λ s, set_drafts (remove_draft id (se_drafts s)).1 s).

Definition appendNote (note : A2ANoteKind) (draft : PendingDraft) (text : list Z) : IOW unit :=
  u ← new_uuid;
  now ← now_;
  append_alter (noteMessageFor u now note draft text).

(** The post of an approved group draft: send, best-effort read-back. *)
Definition post_group (gid body : list Z) (agent : option (list Z)) : IOW ConversationEntry :=
  receipt ← net (net_groups_send gid body (Some (mkGroupSendOptions (Some (js "alter")) None agent)));
  entry ← (match rc_seq receipt with
           | Some seq =>
               if 0 <? seq then
                 catch (es ← net (net_groups_conversation gid (mkConv (Some (seq - 1)) (Some 1)));
                        mret (findb (λ e, ce_seq e =? seq) es)) (λ _, mret None)
               else mret None
           | None => mret None
           end);
  now ← now_;
  mret (entry ?? mkEntry (rc_seq receipt ?? 0) dir_out (rc_id receipt) body now None None None None None (Some (rc_status receipt)) None).

Definition approved_note (draft : PendingDraft) (verb body : list Z) : list Z :=
  if jeqb body (pd_body draft)
  then js "The owner approved your draft " ++ pd_id draft ++ js " to " ++ who_of draft ++ js "; it was " ++ verb ++ js " as written."
  else js "The owner edited your draft " ++ pd_id draft ++ js " to " ++ who_of draft ++ js " and " ++ verb ++ js ": " ++ Q ++ body ++ Q
         ++ js " (your draft was: " ++ Q ++ pd_body draft ++ Q ++ js ").".

Definition note_receipts (gid agent body : list Z) : IOW unit :=
  catch (info ← net (net_groups_info gid);
         now ← now_;
         ses (λ s, noteAwaitReply now gid agent (expects_of (se_myFp s) body (gi_memberList info)) s)) (λ _, mret tt).

Definition approve_draft (draft : PendingDraft) (body : list Z) : IOW (option ConversationEntry) :=
  match pd_gid draft with
  | Some gid =>
      entry ← post_group gid body (pd_agent draft);
      _ ← drop_draft (pd_id draft);
      _ ← (match pd_agent draft with Some a => note_receipts gid a body | None => mret tt end);
      _ ← emit_event (SeOutbound (pd_fp draft) (Some gid) entry);
      _ ← emit_event (SeDraftRemoved draft (js "approved"));
      _ ← appendNote draft_approved draft (approved_note draft (js "posted") body);
      mret (Some entry)
  | None =>
      r ← net (sendAndArchive (pd_fp draft) body None);
      _ ← drop_draft (pd_id draft);
      _ ← emit_event (SeOutbound (pd_fp draft) None r.1);
      _ ← emit_event (SeDraftRemoved draft (js "approved"));
      _ ← appendNote draft_approved draft (approved_note draft (js "sent") body);
      mret (Some r.1)
  end.

Definition revise_text (d : PendingDraft) (feedback : list Z) : list Z :=
  match pd_gid d with
  | None => js "Revise your draft to " ++ pd_name d ++ js " (fingerprint " ++ pd_fp d ++ js "). Your draft was: " ++ Q ++ pd_body d ++ Q
              ++ js ". My feedback: " ++ feedback ++ NL ++ js "Send the revised message to " ++ pd_name d
              ++ js " with soulmirror_send_message, then tell me what you sent."
  | Some gid => js "Revise your draft to group " ++ pd_name d ++ js " (gid " ++ gid ++ js "). Your draft was: " ++ Q ++ pd_body d ++ Q
              ++ js ". My feedback: " ++ feedback ++ NL
              ++ js "Post the revised message into the group with soulmirror_send_group_message, then tell me what you sent."
  end.

Definition decideDraft (id : list Z) (decision : DraftDecision) : IOW (PendingDraft * option ConversationEntry) :=
  found ← asks (λ s, get_draft id (se_drafts s));
  match found with
  | None => plain_error (js "draft " ++ id ++ js " is not pending")
  | Some draft =>
      match decision with
      | Approve b =>
          let body := trimEnd (b ?? pd_body draft) in
          if jeqb body [] then plain_error (js "body must not be empty")
          else entry ← approve_draft draft body; mret (draft, entry)
      | Reject =>
          _ ← drop_draft id;
          _ ← emit_event (SeDraftRemoved draft (js "rejected"));
          _ ← appendNote draft_rejected draft (js "The owner rejected your draft " ++ id ++ js " to " ++ who_of draft
                ++ js "; nothing was sent: " ++ Q ++ pd_body draft ++ Q ++ js ".");
          mret (draft, None)
      | Revise fb =>
          let feedback := trimEnd fb in
          if jeqb feedback [] then plain_error (js "feedback must not be empty")
          else
            _ ← drop_draft id;
            _ ← emit_event (SeDraftRemoved draft (js "revise"));
            _ ← appendNote draft_revise draft (js "The owner sent your draft " ++ id ++ js " to " ++ who_of draft
                  ++ js " back for revision; it was discarded: " ++ Q ++ pd_body draft ++ Q ++ js ".");
            _ ← instruct (revise_text draft feedback);
            mret (draft, None)
      end
  end.
End operations.

(** * Theorems *)

(** ** The log round trip: what [triggerOf] reads back from a message *)

(** The trigger a delivered message stands for. *)
Definition mail_trigger (m : InboundMessage) (displayName : list Z) : TurnTrigger :=
  mkTrigger (if is_auto m then InboundAuto else Inbound) (Some (im_from m)) (Some displayName) (Some (im_id m)) None.
Definition group_trigger (m : InboundMessage) (gid groupName : list Z) : TurnTrigger :=
  mkTrigger Group (Some (im_from m)) (Some (im_name m ++ js " in " ++ groupName)) (Some (im_id m)) (Some gid).

Lemma first_trigger_mail u m dn seq ts rest :
  first_trigger (message_event seq ts (userMessageFor u m dn) :: rest) = mail_trigger m dn.
Proof.
  destruct m as [id from nm body mts mseq au by_ ag ty path an]. unfold mail_trigger, userMessageFor, auto_prop, is_auto. simpl im_auto.
  destruct au as [[]|], ty; reflexivity.
Qed.

Lemma first_trigger_group u m gid gn seq ts rest :
  gid ≠ [] → first_trigger (message_event seq ts (groupMessageFor u m gid gn) :: rest) = group_trigger m gid gn.
Proof.
  intros Hg. destruct gid as [|c gid]; [done|].
  destruct m as [id from nm body mts mseq au by_ ag ty path an]. unfold group_trigger, groupMessageFor, auto_prop, is_auto. simpl im_auto.
  simpl im_by. simpl im_agent. simpl im_type. destruct (by_ ≫= non_empty), (ag ≫= non_empty); destruct au as [[]|], ty; reflexivity.
Qed.

Lemma first_trigger_owner u text seq ts rest :
  first_trigger (message_event seq ts (ownerMessageFor u text) :: rest) = trigger_kind Owner.
Proof. reflexivity. Qed.

Lemma first_trigger_note u now n d text seq ts rest :
  first_trigger (message_event seq ts (noteMessageFor u now n d text) :: rest) = first_trigger rest.
Proof. destruct n; reflexivity. Qed.

(** What the service writes when it wakes a voice. *)
Inductive WakeMessage :=
| WmMail (u : list Z) (m : InboundMessage) (displayName : list Z)
| WmGroup (u : list Z) (m : InboundMessage) (gid groupName : list Z)
| WmOwner (u text : list Z).

Definition wake_json (w : WakeMessage) : json :=
  match w with
  | WmMail u m dn => userMessageFor u m dn
  | WmGroup u m gid gn => groupMessageFor u m gid gn
  | WmOwner u text => ownerMessageFor u text
  end.

Definition wake_trigger (w : WakeMessage) : TurnTrigger :=
  match w with
  | WmMail _ m dn => mail_trigger m dn
  | WmGroup _ m gid gn => group_trigger m gid gn
  | WmOwner _ _ => trigger_kind Owner
  end.

Definition wake_valid (w : WakeMessage) : Prop := match w with WmGroup _ _ gid _ => gid ≠ [] | _ => True end.

(** A draft-decision note in the log. *)
Definition is_note_event (e : EventLike) : Prop :=
  ∃ seq ts u now n d text, e = message_event seq ts (noteMessageFor u now n d text).


Definition sample_message (from body : list Z) (by_ agent : option (list Z)) : InboundMessage :=
  mkInbound (js "m1") from (js "Bob") body 5 None None by_ agent None None None.


(** ** Conversation receipts *)

Section receipts.
Context `{LowerCase}.

Lemma elem_of_js_set seen l x : x ∈ js_set seen l ↔ x ∈ l ∧ x ∉ seen.
Proof.
  revert seen. induction l as [|y l IH]; intros seen; simpl; [set_solver|].
  destruct (bool_decide (y ∈ seen)) eqn:E; bools.
  - rewrite IH. set_solver.
  - rewrite elem_of_cons, IH. destruct (decide (x = y)) as [->|]; set_solver.
Qed.

Lemma js_set_NoDup seen l : NoDup (js_set seen l).
Proof.
  revert seen. induction l as [|y l IH]; intros seen; simpl; [constructor|].
  case_match; [done|]. constructor; [|done]. rewrite elem_of_js_set. set_solver.
Qed.

Lemma add_receipts_spec agent now expects (l : list AwaitReceipt) :
  let l' := fold_left (add_receipt agent now) expects l in
  (∀ w, w ∈ l → w ∈ l') ∧ (∀ w, w ∈ l' → w ∈ l ∨ (aw_ts w = now ∧ aw_myAgent w = agent)) ∧
  (∀ e, e ∈ expects → ∃ w, w ∈ l' ∧ same_receipt agent e w = true).
Proof.
  revert l. induction expects as [|e expects IH]; intros l; cbn [fold_left]; [set_solver|].
  destruct (IH (add_receipt agent now l e)) as (Hkeep & Hfrom & Hall).
  assert ((∀ w, w ∈ l → w ∈ add_receipt agent now l e) ∧
          (∀ w, w ∈ add_receipt agent now l e → w ∈ l ∨ (aw_ts w = now ∧ aw_myAgent w = agent)) ∧
          ∃ w, w ∈ add_receipt agent now l e ∧ same_receipt agent e w = true) as (H1 & H2 & w & Hw & Hs).
  { unfold add_receipt. destruct (someb (same_receipt agent e) l) eqn:E.
    - apply someb_true in E as (w & Hw & Hs). split_and!; [done|by left|by exists w].
    - split_and!; [set_solver| |].
      + intros w. rewrite elem_of_app, list_elem_of_singleton. intros [Hx|Hx]; [by left|right; by subst].
      + exists (mkAwait agent (ex_fp e) (ex_token e) now). split; [set_solver|].
        unfold same_receipt. simpl. by rewrite !jeqb_refl. }
  split_and!.
  - intros x Hx. by apply Hkeep, H1.
  - intros x [Hx|Hx]%Hfrom; [by apply H2|by right].
  - intros x [->|Hx]%elem_of_cons; [exists w; split; [by apply Hkeep|done]|by apply Hall].
Qed.

(** A reply is awaited exactly for the agents with a live receipt on this
    sender whose token is the posting agent's or the member's name. *)
Lemma takeAwaitedRepliers_iff now gid m s a :
  a ∈ (takeAwaitedRepliers now gid m s).1 ↔
  im_by m = Some (js "alter") ∧
  ∃ w, w ∈ (se_awaitReply s !! gid ?? []) ∧ aw_myAgent w = a ∧ now - aw_ts w < AWAIT_REPLY_MS ∧ answers m w = true.
Proof.
  unfold takeAwaitedRepliers. destruct (bool_decide (im_by m = Some (js "alter"))) eqn:E; bools; simpl.
  - rewrite elem_of_js_set, list_elem_of_In, in_map_iff.
    setoid_rewrite <- list_elem_of_In. setoid_rewrite elem_of_filterb. unfold live_receipts.
    setoid_rewrite elem_of_filterb. setoid_rewrite Z.ltb_lt. set_solver.
  - set_solver.
Qed.

(** Taking removes exactly the receipts it answered (and the expired ones). *)
Lemma takeAwaitedRepliers_rest now gid m s w :
  im_by m = Some (js "alter") →
  w ∈ (se_awaitReply (takeAwaitedRepliers now gid m s).2 !! gid ?? []) ↔
  w ∈ (se_awaitReply s !! gid ?? []) ∧ now - aw_ts w < AWAIT_REPLY_MS ∧ answers m w = false.
Proof.
  intros Hby. unfold takeAwaitedRepliers. rewrite bool_decide_eq_true_2 by done. simpl. rewrite lookup_insert_eq. simpl.
  rewrite elem_of_filterb. unfold live_receipts. rewrite elem_of_filterb, Z.ltb_lt, negb_true_iff. naive_solver.
Qed.

End receipts.

Definition sample_sessions (groups : GroupSettingsStore) (agents : list SeatAgent) : Sessions :=
  mkSessions None [] [] ∅ ∅ (mkReg agents true None) groups (friend_store_at None) Draft [] [] (mkDS [] true [] None)
    (newWindow HOUR_MS) ∅ [] (js "fp-me") (js "Me") ∅ [] [] [].


(** ** Who a group message may wake *)

Section group_wakes.
Context {S : Type} `{NetworkClient S} `{LowerCase}.
Context (uuid : nat → list Z) (worker : list Z → list Z → list Z).

(** A triple for the operations: the settings, the registry and the owner do
    not move, receipts are only consumed, and every wake is a permitted one. *)
Section triple.
Context (s0 : Sessions) (me : list Z) (P : Wake → Prop).

Definition inv (s : Sessions) : Prop :=
  se_groups s = se_groups s0 ∧ se_registry s = se_registry s0 ∧ se_myFp s = me ∧
  ∀ gid w, w ∈ (se_awaitReply s !! gid ?? []) → w ∈ (se_awaitReply s0 !! gid ?? []).

Definition tri {A} (m : IO (World S) A) : Prop := ∀ w, inv (w_se w) →
  inv (w_se (m w).2) ∧ ∃ l, se_wakes (w_se (m w).2) = se_wakes (w_se w) ++ l ∧ Forall P l.

Lemma tri_quiet {A} (m : IO (World S) A) :
  (∀ w, inv (w_se w) → inv (w_se (m w).2) ∧ se_wakes (w_se (m w).2) = se_wakes (w_se w)) → tri m.
Proof. intros Hm w Hw. destruct (Hm w Hw) as [? ->]. split; [done|]. exists []. rewrite app_nil_r. by split. Qed.

Lemma tri_bind {A B} (m : IO (World S) A) (k : A → IO (World S) B) : tri m → (∀ a, tri (k a)) → tri (m ≫= k).
Proof.
  intros Hm Hk w Hw. destruct (Hm w Hw) as (Hi & l & Hl & HP). unfold mbind, io_bind.
  destruct (m w) as [[e|a] w1]; simpl in *; [by eauto|].
  destruct (Hk a w1 Hi) as (Hi2 & l2 & Hl2 & HP2). split; [done|]. exists (l ++ l2).
  rewrite Hl2, Hl, <- app_assoc. split; [done|]. by apply Forall_app.
Qed.

Lemma tri_asks {A B} (f : Sessions → A) (k : A → IO (World S) B) : (∀ s, inv s → tri (k (f s))) → tri (asks f ≫= k).
Proof. intros Hk w Hw. unfold mbind, io_bind, asks, gets. by apply Hk. Qed.

Lemma tri_ret {A} (a : A) : tri (mret a).
Proof. apply tri_quiet. by intros w Hw. Qed.
Lemma tri_uuid : tri (new_uuid uuid).
Proof. apply tri_quiet. by intros w Hw. Qed.
Lemma tri_now : tri now_.
Proof. apply tri_quiet. by intros w Hw. Qed.
Lemma tri_net {A} (m : IO S A) : tri (net m).
Proof. apply tri_quiet. intros w Hw. unfold net. by destruct (m (w_net w)). Qed.

Lemma tri_catch {A} (m : IO (World S) A) h : tri m → (∀ e, tri (h e)) → tri (catch m h).
Proof.
  intros Hm Hh w Hw. destruct (Hm w Hw) as (Hi & l & Hl & HP). unfold catch.
  destruct (m w) as [[e|a] w1]; simpl in *; [|by eauto].
  destruct (Hh e w1 Hi) as (Hi2 & l2 & Hl2 & HP2). split; [done|]. exists (l ++ l2).
  rewrite Hl2, Hl, <- app_assoc. split; [done|]. by apply Forall_app.
Qed.

Lemma tri_ses f : (∀ s, inv s → inv (f s) ∧ se_wakes (f s) = se_wakes s) → tri (ses f).
Proof. intros Hf. apply tri_quiet. intros w Hw. by apply Hf. Qed.

Lemma tri_followup v g m : P (mkWakeUp v g m) → tri (followup v g m).
Proof.
  intros HP w Hw. unfold followup, ses, modify. simpl. split; [done|]. eexists. split; [done|]. by constructor.
Qed.

Lemma tri_groupOf gid : tri (groupOf gid).
Proof.
  apply tri_asks. intros s _. case_match; [apply tri_ret|]. apply tri_catch; [|intros; apply tri_ret].
  apply tri_bind; [apply tri_net|]. intros info. apply tri_bind; [by apply tri_ses|intros; apply tri_ret].
Qed.

Lemma tri_watch name gid gn : tri (watch_reply worker name gid gn).
Proof. by apply tri_ses. Qed.

Lemma tri_for_seats f l : (∀ a, a ∈ l → tri (f a)) → tri (for_seats f l).
Proof.
  induction l as [|a l IH]; intros Hf; simpl; [apply tri_ret|].
  apply tri_bind; [apply Hf; set_solver|]. intros _. apply IH. set_solver.
Qed.
End triple.

(** What justifies waking a voice for message [m] of group [gid]: the profile
    lets agents speak, the voice is switched on in this group, and it was
    addressed under its own rules, or a named seat agent is owed this reply. *)
Definition wake_ok (s0 : Sessions) (gid : list Z) (m : InboundMessage) (wu : Wake) : Prop :=
  ∃ (u gname : list Z) (profile : GroupProfileView), wu_message wu = groupMessageFor u m gid gname ∧ gp_speakAgents profile = true ∧
  ((wu_voice wu = js "alter" ∧ wu_gid wu = None ∧ alterOn (se_groups s0) gid = true ∧ gp_agentWake profile ≠ wk_never) ∨
   ∃ seat, seat ∈ rg_agents (se_registry s0) ∧ wu_voice wu = ag_name seat ∧ wu_gid wu = Some gid ∧
     voiceOn (se_groups s0) gid (ag_name seat) = true ∧
     ((commander_ok s0 gid (im_from m) seat = true ∧ gp_agentWake profile ≠ wk_never ∧
       (mentionsAgent (im_body m) (ag_name seat) = true ∨ dutyOf (se_groups s0) gid = Some (ag_name seat))) ∨
      (im_by m = Some (js "alter") ∧
       ∃ w, w ∈ (se_awaitReply s0 !! gid ?? []) ∧ aw_myAgent w = ag_name seat ∧ aw_fp w = im_from m))).

Lemma wakeAgentForGroup_wake i :
  wk_wake (wakeAgentForGroup i) = true →
  aw_speakAgents i = true ∧ aw_enabled i = true ∧ aw_commander i = true ∧ aw_wake i ≠ wk_never ∧
  (aw_mentioned i = true ∨ aw_duty i = true).
Proof. destruct i as [[] [] [] [] [] [] []]; vm_compute; naive_solver. Qed.

Lemma wakeForGroup_wake i :
  wk_wake (wakeForGroup i) = true → gw_speakAgents i = true ∧ gw_enabled i = true ∧ gw_wake i ≠ wk_never.
Proof. destruct i as [[] [] [] [] [[]|] []]; vm_compute; naive_solver. Qed.

Lemma tri_wake_seat s0 me m gid group awaited seat :
  seat ∈ rg_agents (se_registry s0) →
  (∀ a, a ∈ awaited → im_by m = Some (js "alter") ∧
     ∃ w, w ∈ (se_awaitReply s0 !! gid ?? []) ∧ aw_myAgent w = a ∧ aw_fp w = im_from m) →
  tri s0 me (wake_ok s0 gid m) (wake_seat uuid worker m gid group awaited seat).
Proof.
  intros Hseat Haw. apply tri_asks. intros s (Hg & Hr & _). cbn [id].
  destruct (bool_decide _ && _ && _) eqn:E.
  - bools. apply tri_bind; [apply tri_uuid|]. intros u. apply tri_followup. exists u, group.1, group.2.
    split_and!; [done..|]. right. exists seat. rewrite <- Hg. split_and!; [done..|]. right. by apply Haw.
  - clear E. destruct (wk_wake _) eqn:E; [|apply tri_ret]. apply wakeAgentForGroup_wake in E as (Hs & He & Hc & Hw & Hm). simpl in *.
    apply tri_bind; [apply tri_uuid|]. intros u. apply tri_bind; [|intros; apply tri_watch]. apply tri_followup.
    exists u, group.1, group.2. split_and!; [done..|]. right. exists seat. rewrite <- Hg. split_and!; [done..|]. left.
    split_and!; [unfold commander_ok in *; by rewrite <- Hg|done|]. destruct Hm as [Hm|Hm]; [by left|right]. by bools.
Qed.

End group_wakes.

(** A backend that only answers for group cards and applications; every other call rejects. *)
Definition down {S A} : IO S A := throw (mkErr (js "offline") NetworkErrorCode.network).
Definition CardClient (S : Type) (lookup : list Z → IO S (option GroupCardView))
    (apply : list Z → option (list Z) → option JoinPayment → IO S (list Z)) : NetworkClient S :=
  {| Date_now := λ _, 1000; net_identity := down; net_parseCard := λ _, down; net_friends_list := down;
     net_friends_add := λ _ _, down; net_presence := λ _, down; net_send := λ _ _ _, down; net_conversation := λ _ _, down;
     net_groups_info := λ _, down; net_groups_send := λ _ _ _, down; net_groups_conversation := λ _ _, down;
     net_status := λ _, JNull; net_createIdentity := λ _, down; net_friends_pending := down; net_friends_accept := λ _ _, down;
     net_friends_reject := λ _, down; net_friends_set := λ _ _ _, down; net_friends_card := λ _, down; net_profile_get := down;
     net_profile_save := λ _, down; net_directory_fetch := λ _, down; net_directory_publish := down; net_groups_list := down;
     net_groups_create := λ _ _ _, down; net_groups_markRead := λ _ _, down; net_groups_announceVoices := λ _ _, down;
     net_groups_typing := λ _ _ _, down; net_groups_leave := λ _, down; net_groups_kick := λ _ _, down;
     net_groups_setProfile := λ _ _, down; net_groups_pin := λ _ _, down; net_groups_unpin := λ _ _, down;
     net_groups_lookup := lookup; net_groups_apply := apply; net_groups_applications := λ _, down;
     net_groups_approve := λ _ _, down; net_groups_applicationReject := λ _ _, down; net_groups_invite := λ _ _, down;
     net_typing := λ _ _, down; net_markRead := λ _ _, down; net_relaunch := None |}.
(** A backend that answers nothing. *)
Definition Offline : NetworkClient unit := CardClient unit (λ _, down) (λ _ _ _, down).

Definition demo_uuid (n : nat) : list Z := js "u" ++ dec (Z.of_nat n).
Definition demo_worker (name gid : list Z) : list Z := name ++ js "@" ++ gid.

(** A group in which the agent Coder obeys anybody, already in the cache. *)
Definition demo_world : World unit :=
  let voices := <[js "Coder" := mkVoice (Some [js "*"])]> ∅ in
  let groups := mkGStore (<[js "g" := mkGS (Some voices) None None]> ∅) true None in
  mkWorld tt
    (set_caches [] [(js "g", (js "Team", normalizeGroupProfile None))]
       (sample_sessions groups [mkAgent (js "Coder") None None None None])) 0.


(** ** Deciding drafts *)

Lemma get_draft_id id s d : get_draft id s = Some d → pd_id d = id.
Proof. intros [_ Hid]%findb_Some. by apply jeqb_eq. Qed.

Lemma get_draft_removed id s : get_draft id (remove_draft id s).1 = None.
Proof.
  unfold remove_draft. destruct (get_draft id s) eqn:E; simpl; [|done].
  apply findb_None. intros d. simpl. rewrite elem_of_filterb. intros [_ Hd]. by apply negb_true_iff in Hd.
Qed.

Section decide.
Context {S : Type} `{NetworkClient S} `{LowerCase}.
Context (uuid : nat → list Z) (iso : Z → list Z) (worker : list Z → list Z → list Z).
Notation IOW := (IO (World S)).

(** Operations that leave drafts and emitted events alone. *)
Definition quiet {A} (m : IOW A) : Prop := ∀ w,
  se_drafts (w_se (m w).2) = se_drafts (w_se w) ∧ se_emitted (w_se (m w).2) = se_emitted (w_se w).

Lemma quiet_bind {A B} (m : IOW A) (k : A → IOW B) : quiet m → (∀ a, quiet (k a)) → quiet (m ≫= k).
Proof.
  intros Hm Hk w. unfold mbind, io_bind. specialize (Hm w). destruct (m w) as [[e|a] w1]; simpl in *; [done|].
  destruct (Hk a w1) as [-> ->]. done.
Qed.
Lemma quiet_catch {A} (m : IOW A) h : quiet m → (∀ e, quiet (h e)) → quiet (catch m h).
Proof.
  intros Hm Hh w. unfold catch. specialize (Hm w). destruct (m w) as [[e|a] w1]; simpl in *; [|done].
  destruct (Hh e w1) as [-> ->]. done.
Qed.
Lemma quiet_ret {A} (a : A) : quiet (mret a).
Proof. done. Qed.
Lemma quiet_net {A} (m : IO S A) : quiet (net m).
Proof. intros w. unfold net. by destruct (m (w_net w)). Qed.
Lemma quiet_asks {A} (f : Sessions → A) : quiet (asks f).
Proof. done. Qed.
Lemma quiet_now : quiet now_.
Proof. done. Qed.
Lemma quiet_uuid : quiet (new_uuid uuid).
Proof. done. Qed.

Lemma quiet_post_group gid body agent : quiet (post_group gid body agent).
Proof.
  unfold post_group. apply quiet_bind; [apply quiet_net|]. intros r. apply quiet_bind.
  - destruct (rc_seq r) as [seq|]; [|apply quiet_ret]. case_match; [|apply quiet_ret].
    apply quiet_catch; [|intros; apply quiet_ret]. apply quiet_bind; [apply quiet_net|intros; apply quiet_ret].
  - intros e. apply quiet_bind; [apply quiet_now|intros; apply quiet_ret].
Qed.

Lemma quiet_receipts gid a body : quiet (note_receipts gid a body).
Proof.
  unfold note_receipts. apply quiet_catch; [|intros; apply quiet_ret]. apply quiet_bind; [apply quiet_net|]. intros i.
  apply quiet_bind; [apply quiet_now|]. intros n w. unfold ses, modify, noteAwaitReply. simpl. by case_match.
Qed.

Lemma note_receipts_ok gid a body w : ∃ w', note_receipts gid a body w = (inr tt, w').
Proof.
  unfold note_receipts, catch, mbind, io_bind, net. destruct (net_groups_info gid (w_net w)) as [[e|i] n]; simpl; eauto.
Qed.

Lemma quiet_refreshOwner : quiet refreshOwner.
Proof.
  unfold refreshOwner. apply quiet_catch; [|intros; apply quiet_ret]. apply quiet_bind; [apply quiet_net|].
  by intros [i|].
Qed.

Lemma refreshOwner_ok w : ∃ w', refreshOwner w = (inr tt, w').
Proof.
  unfold refreshOwner, catch, mbind, io_bind, net. destruct (net_identity (w_net w)) as [[e|[i|]] n]; simpl; eauto.
Qed.

Lemma instruct_ok text w :
  trimEnd text ≠ [] →
  ∃ w', instruct uuid text w = (inr tt, w') ∧ se_drafts (w_se w') = se_drafts (w_se w) ∧ se_emitted (w_se w') = se_emitted (w_se w).
Proof.
  intros Hne. unfold instruct. destruct (jeqb (trimEnd text) []) eqn:En; [by apply jeqb_eq in En|].
  unfold mbind at 1, io_bind at 1, asks at 1, gets at 1. destruct (jeqb (se_ownerName (w_se w)) []).
  - destruct (refreshOwner_ok w) as [w1 Hr]. pose proof (quiet_refreshOwner w) as Hq. rewrite Hr in Hq.
    unfold mbind at 1, io_bind at 1. rewrite Hr. by eexists.
  - by eexists.
Qed.

(** What a decision leaves in the store and announces. *)
Definition decided (id : list Z) (decision : list Z) (w w' : World S) (draft : PendingDraft) : Prop :=
  se_drafts (w_se w') = (remove_draft id (se_drafts (w_se w))).1 ∧
  ∃ out, se_emitted (w_se w') = se_emitted (w_se w) ++ out ++ [SeDraftRemoved draft decision].

Lemma approve_draft_outcome draft body w :
  let '(r, w') := approve_draft uuid draft body w in
  match r with
  | inl _ => se_drafts (w_se w') = se_drafts (w_se w) ∧ se_emitted (w_se w') = se_emitted (w_se w)
  | inr _ => decided (pd_id draft) (js "approved") w w' draft
  end.
Proof.
  unfold approve_draft, decided. destruct (pd_gid draft) as [gid|].
  - pose proof (quiet_post_group gid body (pd_agent draft) w) as Hq.
    unfold mbind at 1, io_bind at 1. destruct (post_group gid body (pd_agent draft) w) as [[e|entry] w1]; simpl in *; [done|].
    destruct Hq as [Hd He]. unfold mbind, io_bind, drop_draft, ses, modify.
    set (w2 := mkWorld _ _ _). destruct (pd_agent draft) as [a|].
    + destruct (note_receipts_ok gid a body w2) as [w3 Hr]. pose proof (quiet_receipts gid a body w2) as [Hq1 Hq2].
      rewrite Hr in Hq1, Hq2 |- *. simpl in *. rewrite Hq1, Hq2, Hd, He. split; [done|]. eexists [_]. by rewrite <- app_assoc.
    + simpl. rewrite Hd, He. split; [done|]. eexists [_]. by rewrite <- app_assoc.
  - unfold mbind, io_bind, net. destruct (sendAndArchive (pd_fp draft) body None (w_net w)) as [[e|r] n]; simpl; [done|].
    split; [done|]. eexists [_]. by rewrite <- app_assoc.
Qed.

End decide.
