(* ===== verification/SessionFace.v ===== *)
(** * The service face of the sessions plugin (sessions/index.ts)

    What [soulmirrorSessions] offers to the page API and the tools besides
    delivery and drafts: the alter's state and history, the seat agents, the
    switches, the memories, the typing marker of group work, the debounced
    publication of state, and the subscriptions to session, status and network
    events.  The creation of sessions is modelled in AgentSessions; here the
    ids in the maps stand for sessions that exist. *)

From S2P Require Import Prelude JsString JsMap Json Policy AlterState AlterChat GroupSettings FriendSettings.
From S2P Require Import AgentRegistry Drafts GroupContract Memory MemoryExtract Network Sessions.
#[local] Open Scope Z_scope.

(** ** State *)

(** One [groups.typing] call of the plugin. *)
Record TypingSignal := mkSignal { ts_name : list Z; ts_gid : list Z; ts_on : bool }.

Record Face (S : Type) := mkFace {
  fa_w : World S;
  fa_db : MemoryStore;
  fa_io : bool;                             (** whether the stores' files can be written *)
  fa_running : list (list Z);               (** sessions whose agent is running *)
  fa_typing : list (list Z * list Z);       (** [groupWorkTyping] *)
  fa_signals : list TypingSignal;           (** signals sent, oldest first *)
  fa_alterDue : bool;                       (** [alterTimer] is set *)
  fa_agentsDue : list (list Z);             (** [agentTimers] *)
  fa_published : list (option (list Z));    (** [alter] ([None]) and [agent] frames emitted *)
  fa_disposed : bool }.
Arguments mkFace {S} _ _ _ _ _ _ _ _ _ _.
Arguments fa_w {S} _.
Arguments fa_db {S} _.
Arguments fa_io {S} _.
Arguments fa_running {S} _.
Arguments fa_typing {S} _.
Arguments fa_signals {S} _.
Arguments fa_alterDue {S} _.
Arguments fa_agentsDue {S} _.
Arguments fa_published {S} _.
Arguments fa_disposed {S} _.

Section setters.
Context {S : Type}.
Definition with_w (w : World S) (f : Face S) : Face S :=
  mkFace w (fa_db f) (fa_io f) (fa_running f) (fa_typing f) (fa_signals f) (fa_alterDue f) (fa_agentsDue f) (fa_published f) (fa_disposed f).
Definition with_db (d : MemoryStore) (f : Face S) : Face S :=
  mkFace (fa_w f) d (fa_io f) (fa_running f) (fa_typing f) (fa_signals f) (fa_alterDue f) (fa_agentsDue f) (fa_published f) (fa_disposed f).
Definition with_typing (t : list (list Z * list Z)) (l : list TypingSignal) (f : Face S) : Face S :=
  mkFace (fa_w f) (fa_db f) (fa_io f) (fa_running f) t l (fa_alterDue f) (fa_agentsDue f) (fa_published f) (fa_disposed f).
Definition with_running (r : list (list Z)) (f : Face S) : Face S :=
  mkFace (fa_w f) (fa_db f) (fa_io f) r (fa_typing f) (fa_signals f) (fa_alterDue f) (fa_agentsDue f) (fa_published f) (fa_disposed f).
Definition with_due (a : bool) (l : list (list Z)) (p : list (option (list Z))) (f : Face S) : Face S :=
  mkFace (fa_w f) (fa_db f) (fa_io f) (fa_running f) (fa_typing f) (fa_signals f) a l p (fa_disposed f).
End setters.

Definition set_stores (r : AgentRegistryStore) (g : GroupSettingsStore) (fs : FriendSettingsStore) (s : Sessions) : Sessions :=
  mkSessions (se_alterId s) (se_agentSessionIds s) (se_agentGroupSessionIds s) (se_canonical s) (se_events s)
    r g fs (se_defaultTier s) (se_friendsByFp s) (se_groupsByGid s) (se_drafts s) (se_autoReplies s) (se_awaitReply s) (se_watch s)
    (se_myFp s) (se_ownerName s) (se_unread s) (se_wakes s) (se_appended s) (se_emitted s).
Definition set_sessions (a : list (list Z * list Z)) (g : list (list Z * list (list Z * list Z))) (s : Sessions) : Sessions :=
  mkSessions (se_alterId s) a g (se_canonical s) (se_events s) (se_registry s) (se_groups s) (se_friends s) (se_defaultTier s)
    (se_friendsByFp s) (se_groupsByGid s) (se_drafts s) (se_autoReplies s) (se_awaitReply s) (se_watch s)
    (se_myFp s) (se_ownerName s) (se_unread s) (se_wakes s) (se_appended s) (se_emitted s).

Inductive AgentStatus := Idle | Running.
#[export] Instance AgentStatus_eq_dec : EqDecision AgentStatus.
Proof. solve_decision. Defined.

Record AlterState := mkAlterState { as_sessionId : list Z; as_status : AgentStatus; as_latest : AlterLatest }.
Record AlterHistory := mkHistory { ah_sessionId : option (list Z); ah_status : AgentStatus; ah_chat : AlterChat }.
Record AgentInfo := mkInfo { ai_name : list Z; ai_sessionId : option (list Z); ai_status : AgentStatus }.

Definition EMPTY_LATEST : AlterLatest := mkLatest None None None None UNKNOWN_TRIGGER 0.
Definition EMPTY_CHAT : AlterChat := mkChat [] false 0.

(** [limit !== undefined && limit > 0 && l.length > limit ? l.slice(l.length - limit) : l]
    for a whole [limit]; [slice] cuts a fractional one as its ceiling. *)
Definition last_items {A} (limit : option Z) (l : list A) : list A :=
  match limit with
  | Some n => if (0 <? n) && (n <? Z.of_nat (length l)) then drop (length l - Z.to_nat n) l else l
  | None => l
  end.

Section face.
Context {S : Type} `{NetworkClient S} `{LowerCase} `{Sqlite} `{JsonText} `{NumberToString}.
Context (uuid : nat → list Z) (iso : Z → list Z) (worker : list Z → list Z → list Z).
Notation IOF := (IO (Face S)).

Definition inw {A} (m : IO (World S) A) : IOF A := λ f, let '(r, w) := m (fa_w f) in (r, with_w w f).
Definition sess : IOF Sessions := gets (λ f, w_se (fa_w f)).
Definition upd (g : Sessions → Sessions) : IOF unit := inw (ses g).
Definition disk : IOF bool := gets fa_io.
Definition mem {A} (g : MemoryStore → MemoryStore * A) : IOF A := λ f, let '(d, a) := g (fa_db f) in (inr a, with_db d f).
Definition storage_error : NetworkError := mkErr (js "write failed") 0.

Definition status_of (f : Face S) (sid : list Z) : AgentStatus := if bool_decide (sid ∈ fa_running f) then Running else Idle.

(** ** The alter *)

Definition latest (f : Face S) : option AlterState :=
  let s := w_se (fa_w f) in
  (λ sid, mkAlterState sid (status_of f sid)
            (match se_events s !! session_id s sid with Some ev => latestFromEvents ev | None => EMPTY_LATEST end)) <$> se_alterId s.

Definition chat_of (s : Sessions) (sid : option (list Z)) : AlterChat :=
  match sid ≫= λ i, se_events s !! session_id s i with Some ev => chatFromEvents ev true | None => EMPTY_CHAT end.

Definition cut_chat (limit : option Z) (c : AlterChat) : AlterChat := mkChat (last_items limit (ch_items c)) (ch_running c) (ch_seq c).

Definition history (limit : option Z) (f : Face S) : AlterHistory :=
  let s := w_se (fa_w f) in
  mkHistory (se_alterId s) (match se_alterId s with Some i => status_of f i | None => Idle end) (cut_chat limit (chat_of s (se_alterId s))).

(** Bursts of changes give one frame. *)
Definition publishAlter : IOF unit := modify (λ f, with_due true (fa_agentsDue f) (fa_published f) f).
Definition fire_alter (f : Face S) : Face S :=
  if negb (fa_alterDue f) then f
  else with_due false (fa_agentsDue f)
         (if fa_disposed f then fa_published f
          else match latest f with Some _ => fa_published f ++ [None] | None => fa_published f end) f.

(** ** Seat agents *)

Definition publishAgent (name : list Z) : IOF unit :=
  modify (λ f, with_due (fa_alterDue f) (filterb (λ n, negb (jeqb n name)) (fa_agentsDue f) ++ [name]) (fa_published f) f).
Definition publish_name (name : option (list Z)) : IOF unit := match name with Some n => publishAgent n | None => mret tt end.
Definition fire_agent (name : list Z) (f : Face S) : Face S :=
  if negb (bool_decide (name ∈ fa_agentsDue f)) then f
  else with_due (fa_alterDue f) (filterb (λ n, negb (jeqb n name)) (fa_agentsDue f))
         (if fa_disposed f then fa_published f else fa_published f ++ [Some name]) f.

Definition sessions_of (s : Sessions) (name : list Z) : list (list Z) :=
  option_list (map_get (se_agentSessionIds s) name) ++ map snd (map_get (se_agentGroupSessionIds s) name ?? []).

Definition agentsInfo (f : Face S) : list AgentInfo :=
  let s := w_se (fa_w f) in
  map (λ seat, mkInfo (ag_name seat) (map_get (se_agentSessionIds s) (ag_name seat))
                 (if someb (λ i, bool_decide (i ∈ fa_running f)) (sessions_of s (ag_name seat)) then Running else Idle))
    (rg_agents (se_registry s)).

Definition agentHistory (name : list Z) (limit : option Z) (gid : option (list Z)) (f : Face S) : AlterHistory :=
  let s := w_se (fa_w f) in
  let sid := get_agent (se_registry s) name ≫= λ seat,
               match gid with
               | None => map_get (se_agentSessionIds s) (ag_name seat)
               | Some g => map_get (se_agentGroupSessionIds s) (ag_name seat) ≫= λ b, map_get b g
               end in
  match sid with
  | None => mkHistory None Idle EMPTY_CHAT
  | Some i => mkHistory (Some i) (status_of f i) (cut_chat limit (chat_of s (Some i)))
  end.

(** Best effort: a rejected call is only logged. *)
Definition best_effort (m : IO S unit) : IOF unit := catch (inw (net m)) (λ _, mret tt).

Definition enabled_names (s : Sessions) (gid : list Z) : list (list Z) :=
  map ag_name (filterb (λ a, voiceOn (se_groups s) gid (ag_name a)) (rg_agents (se_registry s))).
Definition announceVoices (gid : list Z) : IOF unit := s ← sess; best_effort (net_groups_announceVoices gid (enabled_names s gid)).
Fixpoint for_gids (g : list Z → IOF unit) (l : list (list Z)) : IOF unit :=
  match l with [] => mret tt | x :: l' => _ ← g x; for_gids g l' end.
Definition announceAllGroups : IOF unit := s ← sess; for_gids announceVoices (map fst (se_groupsByGid s)).

Definition load_registry : IOF unit := upd (λ s, if rg_loaded (se_registry s) then s else set_stores (load_agents (se_registry s)) (se_groups s) (se_friends s) s).

Definition setAgent (input : SeatAgent) : IOF SeatAgent :=
  _ ← load_registry;
  s ← sess;
  if negb (jeqb (se_ownerName s) []) && jeqb (toLowerCase (trim (ag_name input))) (toLowerCase (trim (se_ownerName s)))
  then throw (mkErr (js "the owner's name") 0)
  else
    io ← disk;
    let '(r, stored) := set_agent io input (se_registry s) in
    _ ← upd (set_stores r (se_groups s) (se_friends s));
    match stored with
    | inl _ => throw (mkErr (js "invalid agent") 0)
    | inr a => _ ← announceAllGroups; _ ← publishAlter; mret a
    end.

Definition removeAgent (name : list Z) : IOF bool :=
  _ ← load_registry;
  s ← sess;
  io ← disk;
  let '(r, existed) := remove_agent io name (se_registry s) in
  _ ← upd (set_stores r (se_groups s) (se_friends s));
  match existed with
  | None => throw storage_error
  | Some false => mret false
  | Some true =>
      let key := toLowerCase (trim name) in
      _ ← upd (λ s, set_sessions (filterb (λ kv, negb (jeqb (toLowerCase kv.1) key)) (se_agentSessionIds s))
                      (filterb (λ kv, negb (jeqb (toLowerCase kv.1) key)) (se_agentGroupSessionIds s)) s);
      if io then _ ← announceAllGroups; _ ← publishAlter; mret true else throw storage_error
  end.

Definition instructAgent (name text : list Z) : IOF unit :=
  let body := trimEnd text in
  if jeqb body [] then throw (mkErr (js "instruction must not be empty") 0)
  else
    s ← sess;
    match get_agent (se_registry s) name with
    | None => throw (mkErr (js "no seat agent named " ++ name) 0)
    | Some seat =>
        _ ← (if jeqb (se_ownerName s) [] then inw refreshOwner else mret tt);
        u ← inw (new_uuid uuid);
        _ ← inw (followup (ag_name seat) None (ownerMessageFor u body));
        publishAgent (ag_name seat)
    end.

(** ** The typing marker of group work *)

Definition signalGroupWork (name gid : list Z) (on : bool) : IOF unit :=
  _ ← modify (λ f, with_typing (fa_typing f) (fa_signals f ++ [mkSignal name gid on]) f);
  best_effort (net_groups_typing gid on (Some name)).

Definition noteGroupWorkStart (name gid : list Z) : IOF unit :=
  t ← gets fa_typing;
  if bool_decide ((name, gid) ∈ t) then mret tt
  else
    _ ← modify (λ f, with_typing (fa_typing f ++ [(name, gid)]) (fa_signals f) f);
    signalGroupWork name gid true.

Definition agentGroupOfSession (s : Sessions) (sid : list Z) : option (list Z * list Z) :=
  head (concat (map (λ nb, map (λ gi, (nb.1, gi.1)) (filterb (λ gi, jeqb gi.2 sid) nb.2)) (se_agentGroupSessionIds s))).

Definition agentNameOfSession (s : Sessions) (sid : list Z) : option (list Z) :=
  match findb (λ ni, jeqb ni.2 sid) (se_agentSessionIds s) with
  | Some ni => Some ni.1
  | None => fst <$> agentGroupOfSession s sid
  end.

(** [ctx.on('agent/status')]. *)
Definition on_agent_status (sid : list Z) (st : AgentStatus) : IOF unit :=
  _ ← modify (λ f, with_running (if bool_decide (st = Running) then sid :: fa_running f else filterb (λ i, negb (jeqb i sid)) (fa_running f)) f);
  d ← gets fa_disposed;
  s ← sess;
  if (d : bool) then mret tt
  else if bool_decide (se_alterId s = Some sid) then publishAlter
  else
    _ ← publish_name (agentNameOfSession s sid);
    if bool_decide (st = Running) then mret tt
    else match agentGroupOfSession s sid with
    | None => mret tt
    | Some ng =>
        t ← gets fa_typing;
        if negb (bool_decide (ng ∈ t)) then mret tt
        else
          _ ← modify (λ f, with_typing (filterb (λ k, negb (bool_decide (k = ng))) (fa_typing f)) (fa_signals f) f);
          match get_agent (se_registry s) ng.1 with
          | Some seat => signalGroupWork (ag_name seat) ng.2 false
          | None => mret tt
          end
    end.

(** ** Switches *)

Definition markRead (f : list Z) : IOF unit := upd (λ s, set_unread (delete f (se_unread s)) s).
Definition unread (s : Sessions) (f : list Z) : Z := se_unread s !! f ?? 0.
Definition tierStored (s : Sessions) (f : list Z) : option ReplyTier := fs_tier (get_friend (se_friends s) f).
Definition friendMuted (s : Sessions) (f : list Z) : bool := bool_decide (fs_muted (get_friend (se_friends s) f) = Some true).

Definition patch_friend (f : list Z) (p : FriendPatch) : IOF unit :=
  s ← sess;
  io ← disk;
  let '(st, r) := set_friend io f p (se_friends s) in
  _ ← upd (set_stores (se_registry s) (se_groups s) st);
  match r with Some _ => publishAlter | None => throw storage_error end.
Definition setTier (f : list Z) (tier : option ReplyTier) : IOF ReplyTier :=
  _ ← patch_friend f (mkFP (Some tier) None); s ← sess; mret (tierOf s f).
Definition setFriendMuted (f : list Z) (muted : bool) : IOF unit := patch_friend f (mkFP None (Some (Some muted))).

Definition groupVoices (s : Sessions) (gid : list Z) : GroupSettings := get_group (se_groups s) gid.
Definition groupMuted (s : Sessions) (gid : list Z) : bool := bool_decide (gs_muted (get_group (se_groups s) gid) = Some true).
Definition load_groups : IOF unit := upd (λ s, if st_loaded (se_groups s) then s else set_stores (se_registry s) (load (se_groups s)) (se_friends s) s).
Definition patch_group (gid : list Z) (p : GroupSettingsPatch) : IOF GroupSettings :=
  s ← sess;
  io ← disk;
  let '(st, r) := set_group io gid p (se_groups s) in
  _ ← upd (set_stores (se_registry s) st (se_friends s));
  match r with Some x => mret x | None => throw storage_error end.
Definition setGroupVoices (gid : list Z) (p : GroupSettingsPatch) : IOF GroupSettings :=
  _ ← load_groups; stored ← patch_group gid p; _ ← announceVoices gid; _ ← publishAlter; mret stored.
Definition setGroupAlter (gid : list Z) (on : bool) : IOF bool :=
  _ ← patch_group gid (mkPatch (Some on) None None DutyKeep None); _ ← publishAlter; s ← sess; mret (alterOn (se_groups s) gid).
Definition setGroupMuted (gid : list Z) (muted : bool) : IOF bool :=
  _ ← load_groups; _ ← patch_group gid (mkPatch None None None DutyKeep (Some muted)); _ ← publishAlter; mret muted.
Definition noteFriend (f : Friend) : IOF unit :=
  _ ← upd (λ s, set_caches (map_set (se_friendsByFp s) (fr_fp f) f) (se_groupsByGid s) s); publishAlter.

(** ** Memories *)

Fixpoint cancelMemory (ids : list (list Z)) (n : Z) : IOF Z :=
  match ids with
  | [] => mret n
  | i :: ids' => ok ← mem (remove i); cancelMemory ids' (if (ok : bool) then n + 1 else n)
  end.
Definition memoryAdd (kind content : list Z) (scope : MemoryScope) : IOF MemoryRecord :=
  u ← inw (new_uuid uuid);
  now ← inw now_;
  r ← mem (add u now (mkNew kind content scope (js "manual") None None (Some OrManual)));
  match r with inr m => mret m | inl _ => throw (mkErr (js "memory content is empty") 0) end.
Definition memoryUpdate (uid content : list Z) (scope : option MemoryScope) : IOF bool :=
  r ← mem (update uid content scope);
  mret (match r with inr (Some _) => true | _ => false end).
Definition memoryRemove (uid : list Z) : IOF bool := mem (remove uid).

(** [runMemoryExtract] up to the model call, and when the model has answered;
    [model]: a default model and the llm service are there. *)
Definition clue_of (summary : list Z) : option (list Z) :=
  non_empty (take 24 (trim (map (λ c, if c =? 10 then 32 else c) summary))).
Definition extract_start (model : bool) (summary : list Z) : IOF bool :=
  if negb model || jeqb (trim summary) [] then mret false
  else _ ← inw (emit_event (SeMemory (js "extracting") 0 None (clue_of summary))); mret true.
Fixpoint add_all (l : list NewMemory) : IOF (list MemoryRecord) :=
  match l with
  | [] => mret []
  | x :: l' =>
      u ← inw (new_uuid uuid);
      now ← inw now_;
      r ← mem (add u now x);
      match r with inr m => rest ← add_all l'; mret (m :: rest) | inl _ => throw (mkErr (js "memory content is empty") 0) end
  end.
Definition extract_done (answer : option (list NewMemory)) : IOF unit :=
  catch (match answer with
         | None => throw (mkErr (js "extract failed") 0)
         | Some l =>
             saved ← add_all l;
             inw (emit_event (SeMemory (js "extracted") (Z.of_nat (length saved)) (Some (map (λ m, (m_uid m, m_content m)) saved)) None))
         end)
    (λ _, inw (emit_event (SeMemory (js "extracted") 0 None None))).

Definition MEMORY_GROUP_WINDOW : Z := 50.
(** The text summarised when the owner comes back to a busy group. *)
Definition group_summary (entries : list ConversationEntry) : list Z :=
  jjoin NL (map (λ e, (ce_from e ?? js "member") ++ js ": " ++ ce_body e) entries).
Definition summarizeGroupMemories (model : bool) (gid : list Z) : IOF bool :=
  d ← gets fa_disposed;
  if (d : bool) then mret false
  else catch (es ← inw (net (net_groups_conversation gid (mkConv None (Some MEMORY_GROUP_WINDOW))));
              extract_start model (group_summary es)) (λ _, mret false).

(** ** Subscriptions *)

Definition turnHadRemember (events : list EventLike) : bool :=
  match after_last_start (reverse events) [] with
  | None => false
  | Some turn => someb (λ e, is_type e (js "tool/call") && is_str (get (ev_data e ?? JNull) (js "name")) (js "soulmirror_remember")) turn
  end.

Definition ALTER_EVENTS : list (list Z) :=
  [js "turn/start"; js "turn/end"; js "user/message"; js "assistant/message"; js "tool/call"; js "tool/result"].

Definition owner_clue (e : EventLike) : option (list Z) :=
  let text := trim (map (λ c, if c =? 10 then 32 else c) (textOf (get (ev_data e ?? JNull) (js "content")))) in
  non_empty (if 24 <? Z.of_nat (length text) then take 24 text ++ js "…" else text).

(** [ctx.on('session/event')], after the event was appended to the log. *)
Definition on_session_event (sid : list Z) (e : EventLike) : IOF unit :=
  d ← gets fa_disposed;
  s ← sess;
  if (d : bool) then mret tt
  else
    let agent := agentNameOfSession s sid in
    let alter := bool_decide (se_alterId s = Some sid) in
    let events := se_events s !! session_id s sid ?? [] in
    let ours := alter || bool_decide (is_Some agent) in
    _ ← (if ours && is_type e (js "user/message") && bool_decide (classifyUserMessage (ev_data e) = ClOwner)
         then inw (emit_event (SeMemory (js "extracting") 0 None (owner_clue e))) else mret tt);
    _ ← (if ours && is_type e (js "turn/end") && bool_decide (tr_kind (triggerOf events) = Owner) && negb (turnHadRemember events)
         then inw (emit_event (SeMemory (js "extracted") 0 None None)) else mret tt);
    if alter then (if bool_decide (ev_type e ∈ ALTER_EVENTS) then publishAlter else mret tt)
    else if negb (bool_decide (ev_type e ∈ ALTER_EVENTS ++ [js "assistant/chunk"; js "reasoning-chunks"])) then mret tt
    else
      _ ← publish_name agent;
      if is_type e (js "turn/end")
      then
        let completed := is_str (get (get (ev_data e ?? JNull) (js "reason") ?? JNull) (js "kind")) (js "completed") in
        inw (enforceGroupReply uuid sid (agent ?? []) completed)
      else mret tt.

(** What follows each [followup] of a group delivery: the typing marker and the
    publication of the woken voice's state. *)
Fixpoint wake_effects (l : list Wake) : IOF unit :=
  match l with
  | [] => mret tt
  | wu :: l' =>
      _ ← (match wu_gid wu with
           | Some gid => _ ← noteGroupWorkStart (wu_voice wu) gid; publishAgent (wu_voice wu)
           | None => publishAlter
           end);
      wake_effects l'
  end.
Definition with_wakes (m : IO (World S) unit) : IOF unit :=
  before ← sess;
  r ← attempt (inw m);
  after ← sess;
  _ ← wake_effects (drop (length (se_wakes before)) (se_wakes after));
  match r with inl e => throw e | inr _ => mret tt end.

(** The operations of Sessions that end by publishing the alter's state. *)
Definition instruct_alter (text : list Z) : IOF unit := _ ← inw (instruct uuid text); publishAlter.
Definition decide_draft (id : list Z) (d : DraftDecision) : IOF (PendingDraft * option ConversationEntry) :=
  r ← inw (decideDraft uuid id d); _ ← publishAlter; mret r.
Definition own_post (gid body : list Z) : IOF unit := with_wakes (ownGroupPost uuid worker gid body).

Definition refreshGroups : IOF unit :=
  l ← inw (net net_groups_list);
  upd (λ s, set_caches (se_friendsByFp s) (fold_left (λ m g, map_set m (gr_gid g) (gr_name g, row_profile g)) l []) s).

Definition note_friends (l : list Friend) (s : Sessions) : Sessions :=
  fold_left (λ s f, set_unread (if 0 <? fr_unread f then <[fr_fp f := fr_unread f]> (se_unread s) else se_unread s)
                      (set_caches (map_set (se_friendsByFp s) (fr_fp f) f) (se_groupsByGid s) s)) l s.

Definition bootstrapFriends : IOF unit :=
  _ ← inw refreshOwner;
  _ ← catch refreshGroups (λ _, mret tt);
  l ← inw (net net_friends_list);
  d ← gets fa_disposed;
  if (d : bool) && negb (bool_decide (l = [])) then mret tt
  else _ ← upd (note_friends l); announceAllGroups.

(** The subscription to the backend; what a handler rejects with is logged. *)
Definition on_network_event (ready : bool) (ev : NetworkEvent) : IOF unit :=
  d ← gets fa_disposed;
  if (d : bool) then mret tt
  else match ev with
  | EvMessage m => catch (_ ← inw (deliver uuid m); publishAlter) (λ _, mret tt)
  | EvFriendAccept f => noteFriend f
  | EvGroupMessage gid m => catch (with_wakes (deliverGroup uuid worker gid m)) (λ _, mret tt)
  | EvGroupUpdate gid =>
      _ ← upd (λ s, set_caches (se_friendsByFp s) (map_delete (se_groupsByGid s) gid) s);
      _ ← inw (groupOf gid); mret tt
  | EvStatus => if ready then catch bootstrapFriends (λ _, mret tt) else mret tt
  | _ => mret tt
  end.
End face.

(** * Theorems *)

Section theorems.
Context {S : Type} `{NetworkClient S} `{LowerCase} `{Sqlite} `{JsonText} `{NumberToString}.
Context (uuid : nat → list Z).

(** Sessions that are neither the alter's nor a seat agent's are left alone:
    their events change nothing, so an ordinary workspace conversation never
    causes a memory popup, a publication or a nudge. *)
Theorem foreign_session_silent (sid : list Z) (e : EventLike) (f : Face S)
    (Ha : se_alterId (w_se (fa_w f)) ≠ Some sid) (Hn : agentNameOfSession (w_se (fa_w f)) sid = None)
    (Hw : map_get (se_watch (w_se (fa_w f))) sid = None) :
  on_session_event uuid sid e f = (inr tt, f).
Proof.
  unfold on_session_event, mbind, io_bind, sess, gets. destruct (fa_disposed f); [done|].
  rewrite Hn, (bool_decide_eq_false_2 _ Ha). cbn [orb andb bool_decide]. rewrite bool_decide_eq_false_2 by (by intros [? ?]).
  unfold publish_name, mret, io_ret. cbn [orb andb]. destruct (negb _); [done|]. destruct (is_type _ _); [|done].
  unfold inw, enforceGroupReply, mbind, io_bind, asks, gets. cbn [id]. rewrite Hw. by destruct f.
Qed.

(** Whatever the model answered, and whether or not its memories could be
    stored, an extraction ends with exactly one [extracted] frame, so the
    owner's popup always closes. *)
Theorem extraction_always_reports (answer : option (list NewMemory)) (f : Face S) :
  ∃ f' n ms, extract_done uuid answer f = (inr tt, f') ∧
  se_emitted (w_se (fa_w f')) = se_emitted (w_se (fa_w f)) ++ [SeMemory (js "extracted") n ms None].
Proof.
  assert (∀ l g, se_emitted (w_se (fa_w (add_all uuid l g).2)) = se_emitted (w_se (fa_w g))) as Hadd.
  { induction l as [|x l IH]; intros g; [done|]. cbn [add_all]. unfold mbind, io_bind, inw, new_uuid, now_, gets, mem. cbn [fa_w fa_db with_w].
    destruct (add _ _ _ _) as [d [er|m]]; cbn [fa_w with_db with_w]; [done|].
    match goal with |- context [add_all uuid l ?g1] => specialize (IH g1); destruct (add_all uuid l g1) as [[er|ms] g2] end; exact IH. }
  unfold extract_done, catch. destruct answer as [l|]; [|eexists _, _, _; split; reflexivity].
  unfold mbind, io_bind. specialize (Hadd l f). destruct (add_all uuid l f) as [[er|ms] g]; cbn [snd] in Hadd; rewrite <- Hadd;
    eexists _, _, _; split; reflexivity.
Qed.
End theorems.

(** ** The typing marker *)

(** A marker's life: switched on and off in turn, off at first; [None] when a
    signal repeats. *)
Definition marker (l : list bool) : option bool :=
  fold_left (λ st on, match st with Some b => if Bool.eqb b on then None else Some on | None => None end) l (Some false).

Definition signals_of (k : list Z * list Z) (l : list TypingSignal) : list bool :=
  map ts_on (filterb (λ t, bool_decide ((ts_name t, ts_gid t) = k)) l).

Lemma signals_of_snoc k l t :
  signals_of k (l ++ [t]) = signals_of k l ++ (if bool_decide ((ts_name t, ts_gid t) = k) then [ts_on t] else []).
Proof. unfold signals_of. rewrite filterb_app, map_app. simpl. by case_match. Qed.

Lemma marker_snoc l b x : marker l = Some b → marker (l ++ [x]) = if Bool.eqb b x then None else Some x.
Proof. intros Hm. unfold marker in *. rewrite fold_left_app, Hm. done. Qed.

Inductive TypingOp := TyStart (name gid : list Z) | TyStatus (sid : list Z) (st : AgentStatus).

Section typing.
Context {S : Type} `{NetworkClient S} `{LowerCase}.

Definition typing_op (f : Face S) (o : TypingOp) : Face S :=
  match o with
  | TyStart name gid => (noteGroupWorkStart name gid f).2
  | TyStatus sid st => (on_agent_status sid st f).2
  end.

(** The seats of the sessions that work in groups are registered. *)
Definition seats_known (s : Sessions) : Prop :=
  ∀ name gid sid, agentGroupOfSession s sid = Some (name, gid) → ∃ a, get_agent (se_registry s) name = Some a ∧ ag_name a = name.

Definition markers_ok (f : Face S) : Prop :=
  ∀ k, marker (signals_of k (fa_signals f)) = Some (bool_decide (k ∈ fa_typing f)).

Lemma best_effort_run m (f : Face S) :
  ∃ w, best_effort m f = (inr tt, with_w w f) ∧ w_se w = w_se (fa_w f).
Proof.
  unfold best_effort, catch, inw, net. destruct (m (w_net (fa_w f))) as [[e|u] n]; [|destruct u]; eauto.
Qed.

Lemma signal_run name gid on (f : Face S) :
  ∃ w, signalGroupWork name gid on f = (inr tt, with_w w (with_typing (fa_typing f) (fa_signals f ++ [mkSignal name gid on]) f)) ∧
       w_se w = w_se (fa_w f).
Proof.
  unfold signalGroupWork, mbind, io_bind, modify.
  destruct (best_effort_run (net_groups_typing gid on (Some name)) (with_typing (fa_typing f) (fa_signals f ++ [mkSignal name gid on]) f))
    as (w & Hw & Hse). rewrite Hw. by exists w.
Qed.

Lemma publish_name_run o (f : Face S) : ∃ d, publish_name o f = (inr tt, with_due (fa_alterDue f) d (fa_published f) f).
Proof. destruct o as [n|]; [by eexists|]. exists (fa_agentsDue f). by destruct f. Qed.

Lemma start_markers name gid (f : Face S) :
  markers_ok f → markers_ok (noteGroupWorkStart name gid f).2 ∧ w_se (fa_w (noteGroupWorkStart name gid f).2) = w_se (fa_w f).
Proof.
  intros Hf. unfold noteGroupWorkStart, mbind, io_bind, gets. destruct (bool_decide _) eqn:Eb; [done|].
  apply bool_decide_eq_false in Eb. unfold modify.
  destruct (signal_run name gid true (with_typing (fa_typing f ++ [(name, gid)]) (fa_signals f) f)) as (w & Hw & Hse). rewrite Hw. simpl.
  split; [|exact Hse]. intros k. simpl. rewrite signals_of_snoc. simpl. specialize (Hf k).
  destruct (decide ((name, gid) = k)) as [<-|Ek].
  - rewrite (bool_decide_eq_true_2 _ eq_refl), (marker_snoc _ _ _ Hf), (bool_decide_eq_false_2 _ Eb).
    rewrite bool_decide_eq_true_2 by set_solver. done.
  - rewrite (bool_decide_eq_false_2 _ Ek), app_nil_r, Hf. f_equal. apply bool_decide_ext. set_solver.
Qed.

Lemma status_markers sid st (f : Face S) :
  seats_known (w_se (fa_w f)) → markers_ok f →
  markers_ok (on_agent_status sid st f).2 ∧ w_se (fa_w (on_agent_status sid st f).2) = w_se (fa_w f).
Proof.
  intros Hs Hf. unfold on_agent_status, mbind, io_bind, modify, sess, gets. cbv beta iota.
  destruct (fa_disposed _); [done|]. match goal with |- context [bool_decide (se_alterId ?s = ?r)] => destruct (bool_decide (se_alterId s = r)) end; [done|].
  match goal with |- context [publish_name ?o ?h] => destruct (publish_name_run o h) as (d & Hd); rewrite Hd end.
  destruct (bool_decide (st = Running)); [done|].
  destruct (agentGroupOfSession (w_se (fa_w f)) sid) as [[n g]|] eqn:Eg; cbn [w_se fa_w with_due with_running] in *; rewrite Eg; [|done].
  cbn [fa_typing with_due with_running]. destruct (negb _) eqn:Eb; [done|]. apply negb_false_iff, bool_decide_eq_true in Eb.
  destruct (Hs n g sid Eg) as (a & Ha & Hname). cbn [fst snd]. rewrite Ha.
  match goal with |- context [signalGroupWork _ _ _ ?h] => destruct (signal_run (ag_name a) g false h) as (w & Hw & Hse) end.
  rewrite Hw. simpl. split; [|exact Hse]. intros k. simpl. rewrite signals_of_snoc. simpl. rewrite Hname. specialize (Hf k).
  destruct (decide ((n, g) = k)) as [<-|Ek].
  - rewrite (bool_decide_eq_true_2 _ eq_refl), (marker_snoc _ _ _ Hf), (bool_decide_eq_true_2 _ Eb). simpl. f_equal. symmetry. apply bool_decide_eq_false.
    rewrite elem_of_filterb. intros [_ Hk]. by rewrite bool_decide_eq_true_2 in Hk.
  - rewrite (bool_decide_eq_false_2 _ Ek), app_nil_r, Hf. f_equal. apply bool_decide_ext. rewrite elem_of_filterb. split; [|by intros [? _]].
    intros Hin. split; [done|]. rewrite bool_decide_eq_false_2; [done|]. by intros ->.
Qed.

(** The typing marker of a seat agent in a group is switched on and off in
    turn, whatever order work starts and status changes come in, and it is on
    exactly while the agent counts as working there. *)
Theorem typing_marker_alternates (f : Face S) (ops : list TypingOp) (k : list Z * list Z)
    (Hs : seats_known (w_se (fa_w f))) (Ht : fa_typing f = []) (Hl : fa_signals f = []) :
  let f' := fold_left typing_op ops f in
  marker (signals_of k (fa_signals f')) = Some (bool_decide (k ∈ fa_typing f')).
Proof.
  assert (markers_ok f) as Hf by (intros k'; rewrite Ht, Hl; done). clear Ht Hl.
  revert f Hs Hf. induction ops as [|o ops IH]; intros f Hs Hf; simpl; [apply Hf|].
  destruct o as [n g|sid st]; simpl.
  - destruct (start_markers n g f Hf) as [Hm He]. apply IH; [by rewrite He|done].
  - destruct (status_markers sid st f Hs Hf) as [Hm He]. apply IH; [by rewrite He|done].
Qed.
End typing.

(** ** Witnesses *)

(** Coder works in the group g in the session w1. *)
Definition face_sessions : Sessions :=
  set_sessions [] [(js "Coder", [(js "g", js "w1")])] (sample_sessions (store_at None) [mkAgent (js "Coder") None None None None]).
Definition demo_face : Face unit :=
  mkFace (mkWorld tt face_sessions 0) empty_db true [] [] [] false [] [] false.
Definition coder_works : list TypingOp :=
  [TyStart (js "Coder") (js "g"); TyStart (js "Coder") (js "g"); TyStatus (js "w1") Running; TyStatus (js "w1") Idle; TyStatus (js "w1") Idle].

Lemma foreign_session_silent_witness :
  @on_session_event unit demo_uuid (js "workspace-7") (mkEvent (js "turn/end") 3 30 None) demo_face = (inr tt, demo_face).
Proof. apply (@foreign_session_silent unit); [discriminate|reflexivity|reflexivity]. Defined.

Lemma typing_marker_alternates_witness :
  let f' := fold_left (@typing_op unit Offline AsciiLowerCase) coder_works demo_face in
  marker (signals_of (js "Coder", js "g") (fa_signals f')) = Some false ∧ length (fa_signals f') = 2%nat.
Proof.
  intros f'. split; [|reflexivity].
  etransitivity; [apply (@typing_marker_alternates unit Offline AsciiLowerCase demo_face coder_works)|vm_compute; reflexivity]; [|done..].
  intros name gid sid Hg. exists (mkAgent (js "Coder") None None None None).
  change (head (map (λ gi : list Z * list Z, (js "Coder", gi.1)) (if jeqb (js "w1") sid then [(js "g", js "w1")] else []) ++ []) = Some (name, gid)) in Hg.
  destruct (jeqb (js "w1") sid); [|discriminate Hg]. injection Hg as <- <-. split; reflexivity.
Defined.

(** Removing a seat agent while it works leaves its typing marker on: the
    session is no longer known when it goes idle, so the group is never told. *)
Theorem removed_agent_keeps_typing :
  let f1 := fold_left (@typing_op unit Offline AsciiLowerCase) [TyStart (js "Coder") (js "g"); TyStatus (js "w1") Running] demo_face in
  let '(r, f2) := @removeAgent unit Offline AsciiLowerCase (js "Coder") f1 in
  let f3 := @typing_op unit Offline AsciiLowerCase f2 (TyStatus (js "w1") Idle) in
  r = inr true ∧ fa_running f3 = [] ∧ signals_of (js "Coder", js "g") (fa_signals f3) = [true] ∧
  (js "Coder", js "g") ∈ fa_typing f3.
Proof. vm_compute. split_and!; try done. by left. Qed.
