(* ===== verification/ApiRequest.v ===== *)
(** * Requests of the browser API (api/index.ts)

    How the page's HTTP API reads a request: the size limit and the parsing of
    the body, the narrowing of its fields, the query string that stands in for
    the body of a GET.  The routes are in ApiRoutes. *)

From S2P Require Import Prelude JsString JsMap Json Policy GroupSettings Memory Network.
From Stdlib Require Import QArith Qround Qcanon.
#[local] Open Scope Z_scope.

Definition API_PREFIX : list Z := js "/soulmirror/api/".
Definition BODY_LIMIT : Z := 256 * 1024.

(** ** [Number] of a string *)

Definition digit_value (c : Z) : Z :=
  if is_digit c then c - 48 else if is_lower c then c - 87 else if is_upper c then c - 55 else 99.
Definition radix_value (base : Z) (s : list Z) : option Z :=
  if jeqb s [] then None
  else if forallb (λ c, digit_value c <? base) s then Some (fold_left (λ n c, base * n + digit_value c) s 0) else None.

Fixpoint span_digits (s : list Z) : list Z * list Z :=
  match s with
  | c :: s' => if is_digit c then let '(d, r) := span_digits s' in (c :: d, r) else ([], s)
  | [] => ([], [])
  end.

Definition decimal_value (s : list Z) : Z := fold_left (λ n c, 10 * n + (c - 48)) s 0.

(** [e+12]: the exponent, [0] when absent; [None]: no number. *)
Definition exponent (s : list Z) : option Z :=
  match s with
  | [] => Some 0
  | e :: r =>
      if negb ((e =? 101) || (e =? 69)) then None
      else
        let '(neg, ds) := match r with 45 :: r' => (true, r') | 43 :: r' => (false, r') | _ => (false, r) end in
        if jeqb ds [] || negb (forallb is_digit ds) then None
        else Some (if neg : bool then - decimal_value ds else decimal_value ds)
  end.

Definition scaled (m e : Z) : Q := if 0 <=? e then inject_Z (m * 10 ^ e) else m # Z.to_pos (10 ^ (- e)).

(** Decimal literals without a sign. *)
Definition unsigned_decimal (s : list Z) : option Q :=
  let '(whole, r) := span_digits s in
  let '(frac, r') := match r with 46 :: r1 => span_digits r1 | _ => ([], r) end in
  if jeqb (whole ++ frac) [] then None
  else e ← exponent r'; Some (scaled (decimal_value (whole ++ frac)) (e - Z.of_nat (length frac))).

(** Half way between the largest double and its successor. *)
Definition OVERFLOW : Z := 2 ^ 1024 - 2 ^ 970.
Definition to_number (q : Q) : number :=
  if Qle_bool (inject_Z OVERFLOW) q then PosInf else if Qle_bool q (inject_Z (- OVERFLOW)) then NegInf else Fin (Q2Qc q).

(** [Number(s)]; finite values are kept exact, not rounded to a double. *)
Definition Number_of (s : list Z) : number :=
  let t := trim s in
  let radix b := match radix_value b (drop 2 t) with Some n => to_number (inject_Z n) | None => NaN end in
  let signed (f : Q → Q) u := if jeqb u (js "Infinity") then to_number (f (inject_Z OVERFLOW))
                  else match unsigned_decimal u with Some q => to_number (f q) | None => NaN end in
  if jeqb t [] then num_of_Z 0
  else match t with
  | 48 :: c :: _ =>
      if (c =? 120) || (c =? 88) then radix 16 else if (c =? 111) || (c =? 79) then radix 8
      else if (c =? 98) || (c =? 66) then radix 2 else signed id t
  | 45 :: u => signed Qopp u
  | 43 :: u => signed id u
  | _ => signed id t
  end.

(** ** Narrowing *)

Definition text (v : option json) : option (list Z) :=
  match v with Some (JStr s) => if jeqb (trim s) [] then None else Some (trim s) | _ => None end.

Definition num (v : option json) : option Qc :=
  match v with
  | Some (JNum (Fin q)) => Some q
  | Some (JStr s) => if jeqb (trim s) [] then None else match Number_of s with Fin q => Some q | _ => None end
  | _ => None
  end.

(** How the archives ([seq > since], [slice(-limit)]) and the histories
    ([slice(length - limit)]) treat a fraction. *)
Definition Qc_ceiling (q : Qc) : Z := - Qfloor (- this q)%Q.
Definition whole (v : option json) : option Z := Qc_floor <$> num v.
Definition whole_up (v : option json) : option Z := Qc_ceiling <$> num v.

(** [typeof v === 'number' ? v : 0]; an infinite number reaches the peer as [null], which it reads as 0. *)
Definition seq_of (v : option json) : Z := match v with Some (JNum (Fin q)) => Qc_floor q | _ => 0 end.

(** [typeof v === 'string' ? v.replace(/\s+$/, '') : '']. *)
Definition line (v : option json) : list Z := match v with Some (JStr s) => trimEnd s | _ => [] end.

Definition memoryScope (v : option json) : option MemoryScope :=
  match v with
  | Some o =>
      if negb (is_object o) then None
      else match text (get o (js "kind")) with
      | Some k =>
          if jeqb k (js "global") then Some ScGlobal
          else if jeqb k (js "agent") then ScAgent <$> text (get o (js "name"))
          else if jeqb k (js "shared-friend") then ScFriend <$> text (get o (js "fp"))
          else if jeqb k (js "shared-group") then ScGroup <$> text (get o (js "gid"))
          else None
      | None => None
      end
  | None => None
  end.

Definition strings_of (l : list json) : list (list Z) := omap (λ v, as_string (Some v)) l.

Definition fpList (v : option json) : list (list Z) :=
  match v with
  | Some (JArr l) => filterb (λ s, negb (jeqb s [])) (strings_of l)
  | Some (JStr s) => filterb (λ s, negb (jeqb s [])) (map trim (split_on 44 s))
  | _ => []
  end.

(** [profileOf]: the fields of the declared types; the two switches default to off. *)
Definition profileOf (v : option json) : option GroupProfile :=
  match v with
  | Some (JObj o) =>
      let p := JObj o in
      let str k := as_string (get p (js k)) in
      let names k := strings_of <$> as_array (get p (js k)) in
      Some (mkProfile (str "template"%string) (str "room"%string) (is_true (get p (js "speakHumans"))) (is_true (get p (js "speakAgents")))
              (str "speakWho"%string) (str "join"%string) (str "joinPrice"%string) (str "joinAddr"%string) (str "joinNote"%string)
              (str "agentWake"%string) (str "agentTier"%string) (as_number (get p (js "autoPerHour"))) (as_number (get p (js "agentRounds")))
              (names "admins"%string) (as_bool (get p (js "public"))) (names "tags"%string) (str "rules"%string))
  | _ => None
  end.

Definition stamp_template (t : list Z) (p : GroupProfile) : GroupProfile :=
  mkProfile (Some t) (gpf_room p) (gpf_speakHumans p) (gpf_speakAgents p) (gpf_speakWho p) (gpf_join p) (gpf_joinPrice p) (gpf_joinAddr p)
    (gpf_joinNote p) (gpf_agentWake p) (gpf_agentTier p) (gpf_autoPerHour p) (gpf_agentRounds p) (gpf_admins p) (gpf_public p) (gpf_tags p) (gpf_rules p).
Definition create_profile (profile : option GroupProfile) (template : option (list Z)) : option GroupProfile :=
  match profile, template with
  | None, Some t => Some (mkProfile (Some t) None true true None None None None None None None None None None None None None)
  | Some p, Some t => Some (if bool_decide (gpf_template p = None) then stamp_template t p else p)
  | p, None => p
  end.

(** [v === true || v === 'true'], [v === true || v === false ? v : undefined]. *)
Definition truthy_flag (v : option json) : bool := is_true v || is_str v (js "true").
Definition flag (v : option json) : option bool := as_bool v.
(** [v !== false && v !== 'false' && v !== 0]. *)
Definition not_off (v : option json) : bool :=
  match v with
  | Some (JBool false) => false
  | Some (JStr s) => negb (jeqb s (js "false"))
  | Some (JNum n) => negb (bool_decide (n = num_of_Z 0))
  | _ => true
  end.

Definition modeOf (v : option json) : option GroupAlterMode :=
  if is_str v (js "always") then Some ModeAlways else if is_str v (js "mention") then Some ModeMention else None.
Definition voicePatch (v : option json) : option VoicePatch :=
  raw ← v;
  name ← as_string (get raw (js "name"));
  if is_object raw && negb (jeqb name [])
  then Some (mkVP name (truthy_flag (get raw (js "on")))
               (match get raw (js "commanders") with Some (JArr l) => Some (fpList (Some (JArr l))) | _ => None end))
  else None.
Definition dutyPatch (v : option json) : DutyPatch :=
  match v with
  | Some JNull => DutyClear
  | Some (JStr s) => if jeqb s [] then DutyClear else DutySet s
  | _ => DutyKeep
  end.

(** The patch of a [group.settings] request; [None] when it changes nothing. *)
Definition settingsPatch (body : json) : option GroupSettingsPatch :=
  let p := mkPatch (match get body (js "alter") with None => None | v => Some (truthy_flag v) end) (modeOf (get body (js "mode")))
             (voicePatch (get body (js "voice"))) (dutyPatch (get body (js "duty"))) (flag (get body (js "muted"))) in
  match pa_alter p, pa_mode p, pa_voice p, pa_duty p, pa_muted p with
  | None, None, None, DutyKeep, None => None
  | _, _, _, _, _ => Some p
  end.

(** [group.apply]'s payment: [None]: none given; [Some (inl message)]: refused. *)
Definition proofOf (v : option json) : option (option JoinPaymentProof) :=
  match v with
  | Some o =>
      if is_object o
      then Some (m ← text (get o (js "message")); p ← text (get o (js "pubkey")); s ← text (get o (js "sig")); Some (mkProof m p s))
      else None
  | None => None
  end.
Definition paymentOf (v : option json) : option (list Z + JoinPayment) :=
  match v with
  | Some o =>
      if negb (is_object o) then None
      else Some (match text (get o (js "tx_hash")), text (get o (js "amount")), text (get o (js "to")) with
      | Some tx, Some amount, Some to =>
          match proofOf (get o (js "proof")) with
          | Some None => inl (js "payment proof must carry message, pubkey and sig")
          | proof => inr (mkPayment tx amount to (text (get o (js "payer"))) (mjoin proof) None)
          end
      | _, _, _ => inl (js "payment must carry tx_hash, amount and to")
      end)
  | None => None
  end.

Definition allowOf (body : json) : AllowScopes :=
  let key k := as_string (get body (js k)) ≫= non_empty in
  mkAllow (is_true (get body (js "global"))) (key "agent"%string) (key "friend"%string) (key "group"%string).

(** ** Requests *)

Record Request := mkReq { rq_method : list Z; rq_path : list Z; rq_query : list (list Z * list Z); rq_chunks : list (list Z) }.

Definition QUERY_ROUTES : list (list Z) :=
  [js "state"; js "conversation.get"; js "presence"; js "session.latest"; js "session.history"; js "protocol.get"; js "drafts.list";
   js "group.get"; js "group.conversation"; js "group.applications"; js "group.settings"; js "agents.list"; js "agent.history";
   js "upgrade.check"; js "pay.wallet"].

Definition route_of (path : list Z) : list Z := if startsWith path API_PREFIX then drop (length API_PREFIX) path else [].

(** [Object.fromEntries(searchParams.entries())]: a repeated name keeps its last value. *)
Definition query_body (q : list (list Z * list Z)) : json := JObj (fold_left (λ m kv, map_set m kv.1 (JStr kv.2)) q []).

Section read.
Context `{JsonText}.

(** [readJson]: the chunks are the bytes of the body as they arrive. *)
Definition readJson (chunks : list (list Z)) : NetworkError + json :=
  if BODY_LIMIT <? Z.of_nat (length (concat chunks)) then inl (mkErr (js "request body too large") 0)
  else match chunks with
  | [] => inr (JObj [])
  | _ => match JSON_parse (utf16 (concat chunks)) with
         | Some v => inr (if is_object v then v else JObj [])
         | None => inl (mkErr (js "invalid JSON") 0)
         end
  end.

Definition request_body (r : Request) : NetworkError + json :=
  if jeqb (rq_method r) (js "POST") then readJson (rq_chunks r) else inr (query_body (rq_query r)).
End read.

(** * Theorems *)

Lemma text_trimmed v s : text v = Some s → trimmed s ∧ s ≠ [].
Proof.
  unfold text. intros Hv. repeat case_match; simplify_eq. split; [apply trim_trimmed|]. by apply jeqb_neq.
Qed.

Lemma strings_of_map l : strings_of (map JStr l) = l.
Proof. induction l as [|x l IH]; [done|]. cbn. by f_equal. Qed.

Lemma profile_request_whole (p : GroupProfile) : profileOf (Some (profile_json p)) = Some p.
Proof.
  assert (∀ k, get (JObj (match profile_json p with JObj o => o | _ => [] end)) k = get (profile_json p) k) as Hget by done.
  unfold profileOf. change (profile_json p) with (JObj (match profile_json p with JObj o => o | _ => [] end)). cbv iota zeta. rewrite !Hget. clear Hget.
  destruct p. f_equal. f_equal; unfold profile_json, get; rewrite ?prop_of_app, ?prop_of_opt; cbn [prop_of]; eval_keys; cbv iota;
    match goal with |- _ = ?x => destruct x as [|] end; cbn; rewrite ?strings_of_map; done.
Qed.

(** A group profile the page sends survives the request: every field of a
    profile object is read back as it was. *)
Theorem profile_request_roundtrip (p : GroupProfile) : profileOf (Some (profile_json p)) = Some p.
Proof. apply profile_request_whole. Qed.
