(* ===== verification/Tools.v ===== *)
(** * The model-facing tools (tools/define.ts, tools/index.ts)

    Argument validation, and the handlers of the soulmirror tools over the
    network interface and the alter's sessions.  A handler's result keeps the
    fields the program reads back ([outcome], [gate], [auto], ids); the
    explanatory texts for the model are not modelled. *)

From S2P Require Import Prelude JsString JsMap Json Policy AlterState GroupSettings AgentRegistry Drafts GroupContract Network Sessions.
#[local] Open Scope Z_scope.

(** ** Argument validation *)

Inductive ScalarType := TString | TBoolean | TInteger | TNumber.
Record ParamSpec := mkParam { ps_type : ScalarType; ps_optional : bool; ps_enum : option (list (list Z)) }.

Definition isInteger (n : number) : bool := match n with Fin q => bool_decide (n = num_of_Z (Qc_floor q)) | _ => false end.

(** The violation a present value has, if any. *)
Definition type_violation (p : ParamSpec) (value : json) : option (list Z) :=
  match ps_type p, value with
  | TString, JStr s =>
      match ps_enum p with
      | Some e => if bool_decide (s ∈ e) then None else Some (js "expected one of " ++ jjoin (js ", ") e)
      | None => None
      end
  | TString, _ => Some (js "expected string")
  | TBoolean, JBool _ => None
  | TBoolean, _ => Some (js "expected boolean")
  | TInteger, JNum n => if isInteger n then None else Some (js "expected integer")
  | TInteger, _ => Some (js "expected integer")
  | TNumber, JNum n => if isFinite n then None else Some (js "expected number")
  | TNumber, _ => Some (js "expected number")
  end.

(** [undefined] and [null] both count as absent. *)
Definition present (v : option json) : option json := match v with Some JNull => None | _ => v end.

(** One iteration over the specification. *)
Definition check_param (args : json) (kp : list Z * ParamSpec) : list (list Z) * list (list Z * json) :=
  match present (get args kp.1) with
  | None => (if ps_optional kp.2 then [] else [kp.1 ++ js ": required"], [])
  | Some v => (match type_violation kp.2 v with Some e => [kp.1 ++ js ": " ++ e] | None => [] end, [(kp.1, v)])
  end.

Definition unknown_keys (spec : list (list Z * ParamSpec)) (args : json) : list (list Z) :=
  omap (λ kv, if bool_decide (kv.1 ∈ spec.*1) then None else Some (kv.1 ++ js ": unknown argument")) (entries args).

Definition validateArgs (spec : list (list Z * ParamSpec)) (raw : json) : list (list Z) + list (list Z * json) :=
  let args := if is_object raw then raw else JObj [] in
  let checked := map (check_param args) spec in
  let violations := concat (map fst checked) ++ unknown_keys spec args in
  match violations with
  | [] => inr (concat (map snd checked))
  | _ => inl violations
  end.

(** ** Contexts of a tool call *)

Inductive ApprovalOutcome := allowed_once | rejected | cancelled | unavailable.
#[export] Instance ApprovalOutcome_eq_dec : EqDecision ApprovalOutcome.
Proof. solve_decision. Defined.

(** The calling session, whether the sessions service runs, what the host's
    approval seam would answer ([None]: no approval service), the live hourly cap. *)
Record Exec := mkExec {
  ex_agent : option (list Z); ex_face : bool; ex_approval : option ApprovalOutcome; ex_limit : Z }.

Definition approve (x : Exec) : ApprovalOutcome :=
  match ex_approval x, ex_agent x with
  | Some o, Some _ => o
  | _, _ => unavailable
  end.

Inductive ToolResult :=
| RRefused (gate : list Z)
| RDraftQueued (gate draftId : list Z)
| RNotApproved (outcome : ApprovalOutcome) (gate : list Z)
| RSent (gate : list Z) (auto : bool) (receipt : SendReceipt).

Definition draft_reason_str (r : DraftGateReason) : list Z :=
  match r with
  | dr_draft_tier => js "draft-tier" | dr_notify_tier => js "notify-tier" | dr_rate_limited => js "rate-limited"
  | dr_loop_guard_auto => js "loop-guard-auto" | dr_unknown_trigger => js "unknown-trigger" | dr_other_friend => js "other-friend"
  | dr_group_trigger => js "group-trigger"
  end.
Definition allow_reason_str (r : AllowReason) : list Z :=
  match r with owner_initiated => js "owner-initiated" | auto_tier => js "auto-tier" end.
Definition group_draft_str (r : GroupDraftReason) : list Z :=
  match r with
  | gd_draft_tier => js "draft-tier" | gd_rate_limited => js "rate-limited" | gd_agent_rounds => js "agent-rounds"
  | gd_other_group => js "other-group" | gd_unknown_trigger => js "unknown-trigger"
  end.
Definition group_refuse_str (r : GroupRefuseReason) : list Z :=
  match r with gr_agents_muted => js "agents-muted" | gr_notify_tier => js "notify-tier" end.

Section tools.
Context {S : Type} `{NetworkClient S} `{LowerCase}.
Context (uuid : nat → list Z) (iso : Z → list Z).
Notation IOW := (IO (World S)).

(** ** soulmirror_friends, soulmirror_card, soulmirror_add_friend *)

Definition friends_tool (online_only : bool) : IOW (list Friend) :=
  l ← net net_friends_list;
  online ← catch (net (net_presence (map fr_fp l))) (λ _, mret ∅);
  let live f := mkNFriend (fr_fp f) (fr_name f) (fr_remark f) (fr_cardName f) (fr_protocol f)
                  (match online !! fr_fp f with Some b => Some b | None => fr_online f end) (fr_unread f) (fr_count f)
                  (fr_lastTs f) (fr_lastBody f) (fr_typing f) (fr_addedAt f) in
  mret (filterb (λ f, negb online_only || bool_decide (fr_online f = Some true)) (map live l)).

Definition card_tool : IOW Identity :=
  identity ← net net_identity;
  match identity with
  | None => throw (mkErr (js "no SoulMirror identity yet — the user must create one in Settings → SoulMirror network")
                     NetworkErrorCode.noIdentity)
  | Some i => mret i
  end.

Definition addFriend_tool (x : Exec) (card_uri : list Z) (note : option (list Z)) : IOW (ApprovalOutcome * option Friend) :=
  _ ← net (net_parseCard card_uri);
  let outcome := approve x in
  if negb (bool_decide (outcome = allowed_once)) then mret (outcome, None)
  else f ← net (net_friends_add card_uri note); mret (outcome, Some f).

(** ** soulmirror_send_message *)

Definition requireFriend (fingerprint : list Z) : IOW Friend :=
  l ← net net_friends_list;
  match findb (λ f, jeqb (fr_fp f) fingerprint || startsWith (fr_fp f) fingerprint) l with
  | None => throw (mkErr (fingerprint ++ js " is not a friend — add them first (soulmirror_add_friend with their card URI)")
                     NetworkErrorCode.notFriend)
  | Some f => mret f
  end.

(** [autoReplies.count] prunes the window as it counts. *)
Definition count_auto (fp : list Z) : IOW Z := λ w,
  let '(n, h) := count (se_autoReplies (w_se w)) fp (Date_now (w_net w)) in
  (inr n, mkWorld (w_net w) (set_window h (w_se w)) (w_uuids w)).
Definition record_auto (fp : list Z) : IOW unit := λ w,
  let '(_, h) := record (se_autoReplies (w_se w)) fp (Date_now (w_net w)) in
  (inr tt, mkWorld (w_net w) (set_window h (w_se w)) (w_uuids w)).

Definition call_trigger (x : Exec) (s : Sessions) : TurnTrigger :=
  match ex_agent x with
  | Some sid => if ex_face x then trigger_of_session s sid else UNKNOWN_TRIGGER
  | None => UNKNOWN_TRIGGER
  end.
Definition call_voice (x : Exec) (s : Sessions) : option Voice :=
  match ex_agent x with
  | Some sid => if ex_face x then voiceOf s sid else None
  | None => None
  end.

Definition decideSend (x : Exec) (target : list Z) : IOW (SendDecision * TurnTrigger) :=
  s ← asks id;
  let trigger := call_trigger x s in
  let tier := if ex_face x then tierOf s target else DEFAULT_REPLY_TIER in
  n ← (if ex_face x then count_auto target else mret 0);
  mret (sendGate (mkSendGate trigger target tier n (ex_limit x)), trigger).

(** What the handler is about to do when it first leaves the event loop. *)
Inductive SendPlan :=
| PlanRefuse
| PlanDraft (f : Friend) (reason : DraftGateReason) (trigger : TurnTrigger)
| PlanSend (f : Friend) (auto : bool) (reason : AllowReason).

(** Up to and including the gate. *)
Definition sendMessage_plan (x : Exec) (fingerprint : list Z) : IOW SendPlan :=
  s ← asks id;
  if match call_voice x s with
     | Some (VAgent _) => negb (bool_decide (tr_kind (call_trigger x s) = Owner))
     | _ => false
     end
  then mret PlanRefuse
  else
    friend ← requireFriend fingerprint;
    d ← decideSend x (fr_fp friend);
    mret (match d.1 with
          | SendDraft reason => PlanDraft friend reason d.2
          | SendAllow auto reason => PlanSend friend auto reason
          end).

(** What follows the gate. *)
Definition sendMessage_act (x : Exec) (body : list Z) (p : SendPlan) : IOW ToolResult :=
  match p with
  | PlanRefuse => mret (RRefused (js "agent-group-context"))
  | PlanDraft f reason trigger =>
      if ex_face x then
        d ← queueDraft uuid iso (mkDraftInput (fr_fp f) None None body (draft_reason_str reason) (Some trigger) (ex_agent x) None);
        mret (RDraftQueued (draft_reason_str reason) (pd_id d))
      else
        let outcome := approve x in
        if negb (bool_decide (outcome = allowed_once)) then mret (RNotApproved outcome (draft_reason_str reason))
        else
          r ← net (sendAndArchive (fr_fp f) body None);
          mret (RSent (draft_reason_str reason) false r.2)
  | PlanSend f auto reason =>
      r ← net (sendAndArchive (fr_fp f) body (if auto then Some (mkSendOptions None (Some true)) else None));
      _ ← (if ex_face x then
             _ ← (if auto then record_auto (fr_fp f) else mret tt);
             emit_event (SeOutbound (fr_fp f) None r.1)
           else mret tt);
      mret (RSent (allow_reason_str reason) auto r.2)
  end.

Definition sendMessage (x : Exec) (fingerprint body : list Z) : IOW ToolResult :=
  p ← sendMessage_plan x fingerprint; sendMessage_act x body p.

(** ** soulmirror_send_group_message *)

Definition cap_entry (e : ConversationEntry) : GroupCapEntry :=
  mkCap (ce_dir e) (ce_ts e) (if bool_decide (ce_auto e = Some true) then Some true else None) (entry_by e).

Definition agent_name (v : option Voice) : option (list Z) := match v with Some (VAgent a) => Some (ag_name a) | _ => None end.
Definition agent_approval (v : option Voice) : bool :=
  match v with Some (VAgent a) => bool_decide (ag_approval a = Some true) | _ => false end.

Record GroupPlan := mkGroupPlan { pl_info : GroupInfo; pl_trigger : TurnTrigger; pl_agent : option (list Z);
  pl_ownFp : list Z; pl_decision : GroupSendDecision }.

Definition sendGroup_plan (x : Exec) (gid : list Z) : IOW GroupPlan :=
  info ← net (net_groups_info gid);
  let profile := row_profile (gi_row info) in
  s ← asks id;
  let trigger := call_trigger x s in
  let voice := call_voice x s in
  let agentName := agent_name voice in
  let ownFp := if ex_face x then se_myFp s else [] in
  entries ← catch (net (net_groups_conversation gid (mkConv None (Some 200)))) (λ _, mret []);
  let caps := map cap_entry entries in
  let triggerEntry := match tr_messageId trigger with
                      | None => None
                      | Some id => findb (λ e, jeqb (ce_id e) id) entries
                      end in
  myName ← catch (i ← net net_identity; mret ((id_name <$> i) ?? [])) (λ _, mret []);
  now ← now_;
  let decision := groupSendGate (mkGroupGate trigger gid
    (Some (bool_decide (tr_kind trigger = Group) && negb (jeqb ownFp []) && bool_decide (tr_fp trigger = Some ownFp)))
    (gp_speakAgents profile) (effectiveAgentTier (gp_agentTier profile) (agent_approval voice))
    (countAutoInWindow caps now HOUR_MS) (gp_autoPerHour profile) (agentRoundsExceeded caps (gp_agentRounds profile))
    (match triggerEntry with
     | Some e => match agentName with Some a => mentionsAgent (ce_body e) a | None => mentionsMe (ce_body e) myName end
     | None => false
     end)) in
  mret (mkGroupPlan info trigger agentName ownFp decision).

Definition sendGroup_act (x : Exec) (gid body : list Z) (p : GroupPlan) : IOW ToolResult :=
  let opts (auto : bool) := mkGroupSendOptions (Some (js "alter")) (if auto then Some true else None) (pl_agent p) in
  match pl_decision p with
  | GroupRefuse reason => mret (RRefused (group_refuse_str reason))
  | GroupDraft reason =>
      if ex_face x then
        d ← queueDraft uuid iso (mkDraftInput gid (Some gid) (Some (gr_name (gi_row (pl_info p)))) body (group_draft_str reason)
                                   (Some (pl_trigger p)) (ex_agent x) (pl_agent p));
        mret (RDraftQueued (group_draft_str reason) (pd_id d))
      else
        let outcome := approve x in
        if negb (bool_decide (outcome = allowed_once)) then mret (RNotApproved outcome (group_draft_str reason))
        else
          receipt ← net (net_groups_send gid body (Some (opts false)));
          mret (RSent (group_draft_str reason) false receipt)
  | GroupAllow auto reason =>
      receipt ← net (net_groups_send gid body (Some (opts auto)));
      _ ← (if ex_face x then
             now ← now_;
             _ ← emit_event (SeOutbound gid (Some gid)
                   (mkEntry (rc_seq receipt ?? 0) dir_out (rc_id receipt) body now None None (if auto then Some true else None) None
                      (pl_agent p) (Some (rc_status receipt)) None));
             match pl_agent p with
             | Some a => ses (λ s, noteAwaitReply now gid a (expects_of (pl_ownFp p) body (gi_memberList (pl_info p))) s)
             | None => mret tt
             end
           else mret tt);
      mret (RSent (allow_reason_str reason) auto receipt)
  end.

Definition sendGroup (x : Exec) (gid body : list Z) : IOW ToolResult :=
  p ← sendGroup_plan x gid; sendGroup_act x gid body p.

(** ** soulmirror_read_conversation *)

Definition readConversation (fingerprint : list Z) (since limit : option Z) : IOW (Friend * (list ConversationEntry * bool)) :=
  friend ← requireFriend fingerprint;
  c ← net (net_conversation (fr_fp friend) (mkConv since (Some (limit ?? 50))));
  mret (friend, c).
End tools.

(** * Theorems *)

(** ** The hourly cap on automatic replies, under interleaving

    Tool calls are asynchronous: between the gate of one call and the record
    of its send other calls may run.  A run interleaves the two halves of any
    number of calls with anything else the program and the network do. *)

(** Clocks do not go back while a call is under way. *)
Class MonotoneClock (S : Type) `{NetworkClient S} := {
  clock_friends : ∀ s, Date_now s <= Date_now (net_friends_list s).2;
  clock_send : ∀ fp b o s, Date_now s <= Date_now (net_send fp b o s).2;
  clock_conversation : ∀ fp o s, Date_now s <= Date_now (net_conversation fp o s).2;
}.

Section cap.
Context {S : Type} `{MonotoneClock S} `{LowerCase}.
Context (uuid : nat → list Z) (iso : Z → list Z).
Notation clock w := (Date_now (w_net w)).
Notation hourly w := (se_autoReplies (w_se w)).
#[local] Arguments count : simpl never.
#[local] Arguments record : simpl never.

Lemma sendAndArchive_clock fp b o (s : S) : Date_now s <= Date_now (sendAndArchive fp b o s).2.
Proof.
  unfold sendAndArchive, mbind, io_bind. pose proof (clock_send fp b o s) as Hc.
  destruct (net_send fp b o s) as [[e|r] s1]; simpl in *; [done|]. unfold read_back.
  destruct (rc_seq r) as [seq|]; [|done]. destruct (0 <? seq); [|done]. unfold catch, mbind, io_bind.
  pose proof (clock_conversation fp (mkConv (Some (seq - 1)) (Some 1)) s1).
  destruct (net_conversation fp _ s1) as [[e|c] s2]; simpl in *; lia.
Qed.

Lemma decideSend_run x t (w : World S) :
  ex_face x = true →
  ∃ k h, count (hourly w) t (clock w) = (k, h) ∧
    decideSend x t w = (inr (sendGate (mkSendGate (call_trigger x (w_se w)) t (tierOf (w_se w) t) k (ex_limit x)), call_trigger x (w_se w)),
                        mkWorld (w_net w) (set_window h (w_se w)) (w_uuids w)).
Proof.
  intros Hf. destruct (count (hourly w) t (clock w)) as [k h] eqn:Ek. exists k, h. split; [done|].
  unfold decideSend, mbind, io_bind, asks, gets, count_auto. rewrite Hf. cbv beta. by rewrite Ek.
Qed.

(** Only the gate's own count touches the window before the send. *)
Lemma sendMessage_plan_window x fingerprint w r w' :
  sendMessage_plan x fingerprint w = (r, w') →
  clock w <= clock w' ∧
  ((hourly w' = hourly w ∧ ∀ f reason, r ≠ inr (PlanSend f true reason)) ∨
   ∃ target n, count (hourly w) target (clock w') = (n, hourly w') ∧
     ∀ f reason, r = inr (PlanSend f true reason) → fr_fp f = target ∧ ex_face x = true ∧ n < ex_limit x).
Proof.
  unfold sendMessage_plan. unfold mbind at 1, io_bind at 1, asks at 1, gets at 1. cbn [id].
  destruct (match call_voice x (w_se w) with Some (VAgent _) => _ | _ => _ end).
  { unfold mret, io_ret. intros [= <- <-]. split; [done|]. left. naive_solver. }
  unfold mbind at 1, io_bind at 1, requireFriend, net. unfold mbind at 1, io_bind at 1.
  pose proof (clock_friends (w_net w)) as Hc. destruct (net_friends_list (w_net w)) as [[e|l] n1]; simpl in *.
  { intros [= <- <-]. split; [done|]. left. naive_solver. }
  destruct (findb _ l) as [f|]; simpl.
  2:{ intros [= <- <-]. split; [done|]. left. naive_solver. }
  unfold mbind at 1, io_bind at 1. destruct (ex_face x) eqn:Ef.
  - destruct (decideSend_run x (fr_fp f) (mkWorld n1 (w_se w) (w_uuids w)) Ef) as (k & h & Ek & ->).
    intros [= <- <-]. split; [done|]. right. exists (fr_fp f), k. split; [exact Ek|].
    intros f' reason'. cbn [fst snd]. destruct (sendGate _) as [au re|re] eqn:Eg; intros Heq; simplify_eq. split_and!; [done..|].
    unfold sendGate in Eg. simpl in Eg. repeat case_match; simplify_eq; bools; lia.
  - unfold decideSend, mbind, io_bind, asks, gets. rewrite Ef. cbv beta. intros [= <- <-]. split; [done|]. left. split; [done|].
    intros f' reason'. unfold call_trigger. rewrite Ef. by destruct (ex_agent x).
Qed.

(** After the gate the window changes by exactly one record, and only when an
    automatic send went out. *)
Lemma sendMessage_act_window x body p w r w' :
  sendMessage_act uuid iso x body p w = (r, w') →
  clock w <= clock w' ∧
  match p, r with
  | PlanSend f true _, inr _ => ex_face x = true → hourly w' = (record (hourly w) (fr_fp f) (clock w')).2
  | _, _ => hourly w' = hourly w
  end.
Proof.
  destruct p as [|f reason trigger|f auto reason]; simpl.
  - unfold mret, io_ret. by intros [= <- <-].
  - destruct (ex_face x).
    + unfold mbind, io_bind, queueDraft. simpl. unfold mbind, io_bind. simpl. by intros [= <- <-].
    + destruct (negb _); [unfold mret, io_ret; by intros [= <- <-]|].
      unfold mbind, io_bind, net. pose proof (sendAndArchive_clock (fr_fp f) body None (w_net w)) as Hc.
      destruct (sendAndArchive _ _ _ _) as [[e|v] n]; simpl in *; by intros [= <- <-].
  - set (o := if auto then Some (mkSendOptions None (Some true)) else None). unfold mbind at 1, io_bind at 1, net.
    pose proof (sendAndArchive_clock (fr_fp f) body o (w_net w)) as Hc.
    destruct (sendAndArchive (fr_fp f) body o (w_net w)) as [[e|v] n].
    { intros [= <- <-]. simpl in *. by destruct auto. }
    unfold mbind, io_bind. destruct (ex_face x) eqn:Ef, auto; cbv beta; by intros [= <- <-].
Qed.

(** *** Runs *)

(** A call past its gate: how it was called, its text and its plan. *)
Record Flight := mkFlight { fl_exec : Exec; fl_body : list Z; fl_plan : SendPlan }.

(** The ghost log has one entry per automatic send, at the time it is recorded. *)
Record SendRun := mkRun { sr_world : World S; sr_flights : list Flight; sr_log : list (list Z * Z) }.

Definition auto_to (fp : list Z) (fl : Flight) : bool :=
  match fl_plan fl with PlanSend f true _ => jeqb (fr_fp f) fp | _ => false end.
Definition inflight (fp : list Z) (l : list Flight) : Z := Z.of_nat (length (filterb (auto_to fp) l)).

Definition log_of (p : SendPlan) (r : NetworkError + ToolResult) (t : Z) : list (list Z * Z) :=
  match p, r with PlanSend f true _, inr _ => [(fr_fp f, t)] | _, _ => [] end.

(** [L] bounds the configured cap, [k] the calls to one friend under way. *)
Inductive run_step (L k : Z) : SendRun → SendRun → Prop :=
| step_gate w w' fls log x fingerprint body p :
    sendMessage_plan x fingerprint w = (inr p, w') → ex_limit x <= L →
    (∀ fp, inflight fp (fls ++ [mkFlight x body p]) <= k) →
    run_step L k (mkRun w fls log) (mkRun w' (fls ++ [mkFlight x body p]) log)
| step_gate_error w w' fls log x fingerprint e :
    sendMessage_plan x fingerprint w = (inl e, w') →
    run_step L k (mkRun w fls log) (mkRun w' fls log)
| step_act w w' fls1 fls2 fl log r :
    sendMessage_act uuid iso (fl_exec fl) (fl_body fl) (fl_plan fl) w = (r, w') →
    run_step L k (mkRun w (fls1 ++ fl :: fls2) log) (mkRun w' (fls1 ++ fls2) (log ++ log_of (fl_plan fl) r (clock w')))
| step_other w w' fls log :
    clock w <= clock w' → hourly w' = hourly w →
    run_step L k (mkRun w fls log) (mkRun w' fls log).

Inductive reach (L k : Z) : SendRun → Prop :=
| reach_init w : hourly w = newWindow HOUR_MS → reach L k (mkRun w [] [])
| reach_step st st' : reach L k st → run_step L k st st' → reach L k st'.

Definition cap_inv (L k : Z) (st : SendRun) : Prop :=
  let w := sr_world st in
  windowMs (hourly w) = HOUR_MS ∧ window_rel (hourly w) (sr_log st) (clock w) ∧
  (∀ fp t, t ∈ hits_of (sr_log st) fp → t <= clock w) ∧
  (∀ fl, fl ∈ sr_flights st → match fl_plan fl with PlanSend _ true _ => ex_face (fl_exec fl) = true | _ => True end) ∧
  (∀ fp, Z.of_nat (length (live HOUR_MS (clock w) (hits_of (sr_log st) fp))) + inflight fp (sr_flights st) <= L + k - 1) ∧
  (∀ fp t, Z.of_nat (length (window HOUR_MS t (hits_of (sr_log st) fp))) <= L + k - 1).

Lemma live_later (t t' : Z) (l : list Z) : t <= t' → (length (live HOUR_MS t' l) ≤ length (live HOUR_MS t l))%nat.
Proof. intros Hle. rewrite <- (live_live HOUR_MS t t' l Hle). apply filterb_length. Qed.

Lemma live_window (t : Z) (l : list Z) : (∀ x, x ∈ l → x <= t) → live HOUR_MS t l = window HOUR_MS t l.
Proof.
  intros Hl. apply filterb_ext. intros x Hx. unfold in_window. specialize (Hl x Hx).
  assert ((0 <=? t - x) = true) as -> by (apply Z.leb_le; lia). by rewrite andb_true_r.
Qed.

Lemma inflight_app fp l l' : inflight fp (l ++ l') = inflight fp l + inflight fp l'.
Proof. unfold inflight. rewrite filterb_app, length_app. lia. Qed.

Lemma inflight_nonneg fp l : 0 <= inflight fp l.
Proof. unfold inflight. lia. Qed.

(** A later clock and a window that represents the same log. *)
Lemma cap_inv_later L k w w' fls log :
  cap_inv L k (mkRun w fls log) → clock w <= clock w' → windowMs (hourly w') = HOUR_MS →
  window_rel (hourly w') log (clock w') → cap_inv L k (mkRun w' fls log).
Proof.
  intros (_ & _ & Ht & Hf & Hl & Hw) Hle Hms Hrel. split_and!; try done; simpl in *.
  - intros fp t Hin. specialize (Ht fp t Hin). lia.
  - intros fp. specialize (Hl fp). pose proof (live_later _ _ (hits_of log fp) Hle). lia.
Qed.

Lemma window_rel_later h log t t' : window_rel h log t → t <= t' → window_rel h log t'.
Proof. intros Hr Hle k now Hn. apply Hr. lia. Qed.

Lemma count_rel h log t fp now n h' :
  window_rel h log t → t <= now → count h fp now = (n, h') →
  windowMs h' = windowMs h ∧ window_rel h' log now ∧ n = Z.of_nat (length (live (windowMs h) now (hits_of log fp))).
Proof.
  intros Hr Hle Hc. destruct (window_op_rel h log t (OpCount fp) now n h' Hr Hle Hc) as (Hw & log' & [= <- <-] & Hr').
  by split_and!.
Qed.

Lemma record_rel h log t fp now :
  window_rel h log t → t <= now →
  windowMs (record h fp now).2 = windowMs h ∧ window_rel (record h fp now).2 (log ++ [(fp, now)]) now.
Proof.
  intros Hr Hle. destruct (record h fp now) as [n h'] eqn:E.
  destruct (window_op_rel h log t (OpRecord fp) now n h' Hr Hle E) as (Hw & log' & [= <- <-] & Hr'). done.
Qed.

Lemma cap_inv_gate L k w w' fls log x fingerprint body p :
  cap_inv L k (mkRun w fls log) → sendMessage_plan x fingerprint w = (inr p, w') → ex_limit x <= L →
  (∀ fp, inflight fp (fls ++ [mkFlight x body p]) <= k) → cap_inv L k (mkRun w' (fls ++ [mkFlight x body p]) log).
Proof.
  intros Hinv Hplan HL Hk. pose proof Hinv as (Hms & Hrel & _). simpl in Hms, Hrel.
  destruct (sendMessage_plan_window _ _ _ _ _ Hplan) as (Hle & Hcase).
  assert (cap_inv L k (mkRun w' fls log) ∧ (∀ f reason, p = PlanSend f true reason → ex_face x = true ∧
    Z.of_nat (length (live HOUR_MS (clock w') (hits_of log (fr_fp f)))) < L)) as [Hinv' Hp].
  { destruct Hcase as [[Hh Hno]|(target & n & Hc & Hyes)].
    - split; [|intros f re ->; by destruct (Hno f re)].
      apply (cap_inv_later L k w); [done..| |]; rewrite Hh; [done|by eapply window_rel_later].
    - destruct (count_rel _ _ _ _ _ _ _ Hrel Hle Hc) as (Hms' & Hrel' & Hn).
      split; [apply (cap_inv_later L k w); [done..|congruence|done]|].
      intros f re ->. destruct (Hyes f re eq_refl) as (-> & Hf & Hlim). split; [done|]. rewrite <- Hms, <- Hn. lia. }
  destruct Hinv' as (I1 & I2 & I3 & I4 & I5 & I6). split_and!; try done; simpl in *.
  - intros fl. rewrite elem_of_app, list_elem_of_singleton. intros [Hin|Hin]; [by apply I4|]. subst. simpl.
    destruct p as [| |f [] re]; try done. by apply (Hp f re).
  - intros fp. destruct (auto_to fp (mkFlight x body p)) eqn:Ea.
    + destruct p as [| |f [] re]; try done. unfold auto_to in Ea. simpl in Ea. apply jeqb_eq in Ea as <-.
      destruct (Hp f re eq_refl) as [_ Hlt]. specialize (Hk (fr_fp f)). lia.
    + rewrite inflight_app. unfold inflight at 2. simpl. rewrite Ea. simpl. specialize (I5 fp). lia.
Qed.

Lemma cap_inv_act L k w w' fls1 fls2 fl log r :
  cap_inv L k (mkRun w (fls1 ++ fl :: fls2) log) →
  sendMessage_act uuid iso (fl_exec fl) (fl_body fl) (fl_plan fl) w = (r, w') →
  cap_inv L k (mkRun w' (fls1 ++ fls2) (log ++ log_of (fl_plan fl) r (clock w'))).
Proof.
  intros Hinv Hact. destruct (sendMessage_act_window _ _ _ _ _ _ Hact) as (Hle & Hh).
  pose proof Hinv as (Hms & Hrel & Ht & Hf & Hl & Hw). simpl in *.
  assert (∀ fp, inflight fp (fls1 ++ fl :: fls2) = inflight fp (fls1 ++ fls2) + (if auto_to fp fl then 1 else 0)) as Hsplit.
  { intros fp. rewrite !inflight_app. unfold inflight. simpl. destruct (auto_to fp fl); simpl; lia. }
  assert (∀ fl', fl' ∈ fls1 ++ fls2 → fl' ∈ fls1 ++ fl :: fls2) as Hsub by set_solver.
  destruct (decide (log_of (fl_plan fl) r (clock w') = [])) as [Hnil|Hsent].
  - rewrite Hnil, app_nil_r. assert (hourly w' = hourly w) as Hsame.
    { destruct (fl_plan fl) as [| |f [] re]; try done. by destruct r. }
    assert (cap_inv L k (mkRun w' (fls1 ++ fl :: fls2) log)) as (I1 & I2 & I3 & I4 & I5 & I6).
    { apply (cap_inv_later L k w); [done..| |]; rewrite Hsame; [done|by eapply window_rel_later]. }
    split_and!; try done; simpl in *; [intros fl' Hin; by apply I4, Hsub|].
    intros fp. specialize (I5 fp). rewrite Hsplit in I5. case_match; lia.
  - assert (∃ f re, fl_plan fl = PlanSend f true re ∧ log_of (fl_plan fl) r (clock w') = [(fr_fp f, clock w')] ∧
      hourly w' = (record (hourly w) (fr_fp f) (clock w')).2) as (f & re & Hp & Hlog & Hrec).
    { specialize (Hf fl ltac:(set_solver)). destruct (fl_plan fl) as [| |f [] re]; try done.
      destruct r; [done|]. exists f, re. split_and!; [done..|]. by apply Hh. }
    destruct (record_rel (hourly w) log (clock w) (fr_fp f) (clock w') Hrel Hle) as (Hms' & Hrel').
    rewrite Hlog. rewrite <- Hrec in Hms', Hrel'.
    assert (∀ fp t, t ∈ hits_of log fp → t <= clock w') as Ht' by (intros fp t Hin; specialize (Ht fp t Hin); lia).
    assert (∀ fp, auto_to fp fl = jeqb (fr_fp f) fp) as Hauto by (intros fp; unfold auto_to; by rewrite Hp).
    split_and!; try done; simpl in *; [congruence| |intros fl' Hin; by apply Hf, Hsub| |].
    + intros fp t. rewrite hits_of_snoc, elem_of_app. intros [Hin|Hin]; [by apply (Ht' fp)|].
      case_match; [apply list_elem_of_singleton in Hin as ->; done|set_solver].
    + intros fp. rewrite hits_of_snoc, live_app, length_app. specialize (Hl fp). rewrite Hsplit, Hauto in Hl.
      pose proof (live_later _ _ (hits_of log fp) Hle).
      assert ((length (live HOUR_MS (clock w') [clock w']) ≤ 1)%nat) by apply filterb_length.
      destruct (jeqb (fr_fp f) fp); [lia|]. change (length (live HOUR_MS (clock w') [])) with 0%nat. lia.
    + intros fp t. rewrite hits_of_snoc. specialize (Hl fp). rewrite Hsplit, Hauto in Hl.
      destruct (jeqb (fr_fp f) fp) eqn:E; [|rewrite app_nil_r; apply Hw].
      apply window_snoc_bound; [by apply Ht'|apply Hw|].
      rewrite <- live_window by (by apply Ht'). pose proof (live_later _ _ (hits_of log fp) Hle).
      pose proof (inflight_nonneg fp (fls1 ++ fls2)). lia.
Qed.

(** C1. However the halves of concurrent [soulmirror_send_message] calls and
    everything else interleave, no hour ever contains more automatic replies to
    one friend than the configured cap plus the calls to that friend that were
    under way at once, less one; with one call at a time the cap is exact.  The
    bound holds for every hour, not only those that start on the clock. *)
Theorem auto_replies_capped (L k : Z) (st : SendRun) (fp : list Z) (t : Z) :
  0 <= L → 1 <= k → reach L k st →
  Z.of_nat (length (window HOUR_MS t (hits_of (sr_log st) fp))) <= L + k - 1.
Proof.
  intros HL Hk Hr. assert (cap_inv L k st) as Hinv; [|by destruct Hinv as (_ & _ & _ & _ & _ & Hw); apply Hw].
  induction Hr as [w Hw|st st' Hr IH Hs].
  - split_and!; cbn [sr_world sr_flights sr_log]; rewrite ?Hw; [done| |set_solver|set_solver|intros ?; change (0 + 0 <= L + k - 1); lia|intros ? ?; change (0 <= L + k - 1); lia].
    intros fp' now _. simpl. by rewrite lookup_empty.
  - destruct Hs as [w w' fls log x fg body p Hplan HLx Hkx|w w' fls log x fg e Hplan|w w' fls1 fls2 fl log r Hact|w w' fls log Hle Hh].
    + by eapply cap_inv_gate.
    + destruct (sendMessage_plan_window _ _ _ _ _ Hplan) as (Hle & Hcase). pose proof IH as (Hms & Hrel & _). simpl in *.
      destruct Hcase as [[Hh _]|(target & n & Hc & _)].
      * apply (cap_inv_later L k w); [done..| |]; rewrite Hh; [done|by eapply window_rel_later].
      * destruct (count_rel _ _ _ _ _ _ _ Hrel Hle Hc) as (Hms' & Hrel' & _).
        apply (cap_inv_later L k w); [done..|congruence|done].
    + by eapply cap_inv_act.
    + pose proof IH as (Hms & Hrel & _). simpl in *. apply (cap_inv_later L k w); [done..| |]; rewrite Hh; [done|].
      by eapply window_rel_later.
Qed.
End cap.

(** ** What lets a private message leave the machine *)

Section gated.
Context {S : Type} `{NetworkClient S} `{LowerCase}.
Context (uuid : nat → list Z) (iso : Z → list Z).

(** The ground a message to [target] was sent on. *)
Definition send_ground (x : Exec) (s : Sessions) (target : list Z) (auto : bool) : Prop :=
  (auto = false ∧ ex_face x = true ∧ tr_kind (call_trigger x s) = Owner) ∨
  (auto = true ∧ ex_face x = true ∧ tr_kind (call_trigger x s) = Inbound ∧ tierOf s target = Auto ∧
     (∀ from, tr_fp (call_trigger x s) = Some from → from = target) ∧ ∀ a, call_voice x s ≠ Some (VAgent a)) ∨
  (auto = false ∧ ex_face x = false ∧ approve x = allowed_once).

Lemma call_trigger_face x s : tr_kind (call_trigger x s) ≠ Unknown → ex_face x = true.
Proof. unfold call_trigger. by destruct (ex_agent x), (ex_face x). Qed.

Lemma sendGate_ground x s target n auto reason :
  sendGate (mkSendGate (call_trigger x s) target (if ex_face x then tierOf s target else DEFAULT_REPLY_TIER) n (ex_limit x))
    = SendAllow auto reason →
  ex_face x = true ∧
  ((auto = false ∧ tr_kind (call_trigger x s) = Owner) ∨
   (auto = true ∧ tr_kind (call_trigger x s) = Inbound ∧ tierOf s target = Auto ∧
    ∀ from, tr_fp (call_trigger x s) = Some from → from = target)).
Proof.
  intros Hg. assert (ex_face x = true) as Hf.
  { apply (call_trigger_face x s). intros Hu. unfold sendGate in Hg. simpl in Hg. by rewrite Hu in Hg. }
  rewrite Hf in Hg. split; [done|]. unfold sendGate in Hg. simpl in Hg.
  destruct (tr_kind (call_trigger x s)); try done; [left; by simplify_eq|right].
  destruct (tr_fp (call_trigger x s)) as [f|] eqn:Efp.
  - destruct (jeqb f target) eqn:Ej; simpl in Hg; [|done]. apply jeqb_eq in Ej as ->.
    destruct (tierOf s target); try done. destruct (_ && _); simplify_eq. split_and!; naive_solver.
  - destruct (tierOf s target); try done. destruct (_ && _); simplify_eq. split_and!; naive_solver.
Qed.

(** Running the gate reads the network's friend list and nothing else. *)
Lemma sendMessage_plan_net x fingerprint w r w' :
  sendMessage_plan x fingerprint w = (r, w') →
  (w_net w' = w_net w ∨ w_net w' = (net_friends_list (w_net w)).2) ∧
  ∀ p, r = inr p →
  match p with
  | PlanRefuse => True
  | PlanDraft f _ _ => True
  | PlanSend f auto _ => send_ground x (w_se w) (fr_fp f) auto
  end.
Proof.
  unfold sendMessage_plan. unfold mbind at 1, io_bind at 1, asks at 1, gets at 1. cbn [id].
  destruct (match call_voice x (w_se w) with Some (VAgent _) => _ | _ => _ end) eqn:Ev.
  { unfold mret, io_ret. intros [= <- <-]. split; [by left|]. by intros p [= <-]. }
  unfold mbind at 1, io_bind at 1, requireFriend, net. unfold mbind at 1, io_bind at 1.
  destruct (net_friends_list (w_net w)) as [[e|l] n1] eqn:El; simpl in *.
  { intros [= <- <-]. split; [by right|done]. }
  destruct (findb _ l) as [f|]; simpl.
  2:{ intros [= <- <-]. split; [by right|done]. }
  unfold mbind at 1, io_bind at 1. unfold decideSend, mbind, io_bind, asks, gets. cbv beta. cbn [w_se].
  destruct ((if ex_face x then count_auto (fr_fp f) else mret 0) _) as [[e|n] w2] eqn:Ec.
  { unfold mret, io_ret, count_auto in Ec. destruct (ex_face x); [destruct (count _ _ _)|]; done. }
  assert (w_net w2 = n1) as Hn2.
  { unfold mret, io_ret, count_auto in Ec. destruct (ex_face x); [|by simplify_eq].
    destruct (count _ _ _). by simplify_eq. }
  unfold mret, io_ret. intros [= <- <-]. split; [by right|]. intros p [= <-]. cbn [fst snd].
  destruct (sendGate _) as [auto reason|reason] eqn:Eg; [|done].
  apply sendGate_ground in Eg as (Hf & [[-> Ho]|(-> & Hi & Ht & Hfp)]); [left; by split_and!|right; left].
  split_and!; [done..|]. intros a Ha. rewrite Ha in Ev. apply negb_false_iff in Ev. bools. congruence.
Qed.


(** An empty fingerprint is a prefix of every fingerprint: the lookup answers
    the first friend of the list instead of failing. *)
Theorem requireFriend_empty (w : World S) (f : Friend) (l : list Friend) (n : S) :
  net_friends_list (w_net w) = (inr (f :: l), n) →
  (requireFriend [] w).1 = inr f.
Proof.
  intros Hl. unfold requireFriend, mbind, io_bind, net. rewrite Hl. cbn [findb].
  by destruct (jeqb (fr_fp f) []).
Qed.
End gated.

(** ** Argument validation *)

(** A raw argument object fits a specification. *)
Definition args_fit (spec : list (list Z * ParamSpec)) (args : json) : Prop :=
  (∀ k p, (k, p) ∈ spec →
     match present (get args k) with None => ps_optional p = true | Some v => type_violation p v = None end) ∧
  (∀ k v, (k, v) ∈ entries args → k ∈ spec.*1).

Lemma check_params_nil (args : json) (spec : list (list Z * ParamSpec)) :
  concat (map fst (map (check_param args) spec)) = [] ↔
  ∀ k p, (k, p) ∈ spec → match present (get args k) with None => ps_optional p = true | Some v => type_violation p v = None end.
Proof.
  induction spec as [|[k p] spec IH]; cbn [map concat]; [set_solver|]. rewrite app_nil, IH. unfold check_param. simpl. split.
  - intros [H1 H2] k' p' [[= -> ->]|Hin]%elem_of_cons; [|by apply H2].
    destruct (present (get args k)); simpl in H1; [by destruct (type_violation p j)|by destruct (ps_optional p)].
  - intros Hall. split; [|intros k' p' Hin; apply Hall; set_solver]. specialize (Hall k p ltac:(set_solver)).
    destruct (present (get args k)); simpl; by rewrite Hall.
Qed.

Lemma unknown_keys_nil (spec : list (list Z * ParamSpec)) (args : json) :
  unknown_keys spec args = [] ↔ ∀ k v, (k, v) ∈ entries args → k ∈ spec.*1.
Proof.
  unfold unknown_keys. induction (entries args) as [|[k v] l IH]; [set_solver|]. cbn.
  destruct (bool_decide (k ∈ spec.*1)) eqn:E; bools; cbn.
  - unfold omap in IH. rewrite IH. split; [|set_solver]. intros Hl k' v' [[= -> ->]|Hin]%elem_of_cons; [done|by eapply Hl].
  - split; [done|]. intros Hl. destruct E. apply (Hl k v). set_solver.
Qed.

(** The handler runs exactly on arguments that fit: every required argument
    present with its type (and in its enumeration), no unknown argument; it
    then sees the values of the specified arguments that were given. *)
Theorem validateArgs_iff (spec : list (list Z * ParamSpec)) (raw : json) (out : list (list Z * json)) :
  is_object raw = true →
  validateArgs spec raw = inr out ↔
  args_fit spec raw ∧ out = omap (λ kp, pair kp.1 <$> present (get raw kp.1)) spec.
Proof.
  intros Ho. unfold validateArgs, args_fit. rewrite Ho, <- check_params_nil, <- unknown_keys_nil.
  assert (concat (map snd (map (check_param raw) spec)) = omap (λ kp, pair kp.1 <$> present (get raw kp.1)) spec) as ->.
  { induction spec as [|[k p] spec IH]; [done|]. cbn [map concat]. rewrite IH. unfold check_param. cbn.
    by destruct (present (get raw k)). }
  rewrite <- app_nil. destruct (concat _ ++ _); naive_solver.
Qed.

Definition demo_spec : list (list Z * ParamSpec) :=
  [(js "gid", mkParam TString false None); (js "limit", mkParam TInteger true None)].

Lemma validateArgs_iff_witness :
  validateArgs demo_spec (JObj [(js "gid", JStr (js "g1")); (js "limit", JNull)]) = inr [(js "gid", JStr (js "g1"))] ∧
  ¬ args_fit demo_spec (JObj [(js "gid", JNum (num_of_Z 1))]).
Proof.
  split; [by vm_compute|]. intros Hfit.
  pose proof (validateArgs_iff demo_spec (JObj [(js "gid", JNum (num_of_Z 1))]) [(js "gid", JNum (num_of_Z 1))] eq_refl) as Hiff.
  assert (validateArgs demo_spec (JObj [(js "gid", JNum (num_of_Z 1))]) = inr [(js "gid", JNum (num_of_Z 1))]) as Hv
    by (apply Hiff; split; [done|by vm_compute]).
  by vm_compute in Hv.
Defined.
