(* ===== verification/PayTools.v ===== *)
(** * The payment tools (tools/index.ts)

    [soulmirror_wallet], [soulmirror_transfer] and [soulmirror_group] over the
    network interface and the local payment gateway.  The gateway is a
    separate program: its [call] is an argument, a function from method, path
    and body to an answer, acting on the same outside state as the backend.
    Texts for the model are not modelled. *)

From S2P Require Import Prelude JsString JsMap Json Policy AlterState GroupContract Network Sessions Tools.
#[local] Open Scope Z_scope.

(** [PaygateClient.call]; [None]: the backend runs no gateway. *)
Definition PayCall (S : Type) : Type := list Z → list Z → option json → IO S json.

Definition POST : list Z := js "POST".
Definition GET : list Z := js "GET".
Definition P_TRANSFER : list Z := js "/v2/pay/transfer".
Definition P_RECEIPT : list Z := js "/v2/pay/join.receipt".
Definition P_WALLET : list Z := js "/v2/pay/wallet".

Definition no_gateway : NetworkError := mkErr (js "payment gateway unavailable (the fake backend does not run one)") (-32603).
Definition bad_params (msg : list Z) : NetworkError := mkErr msg (-32602).

(** [a === b] on parsed values: objects and arrays of different texts are never identical. *)
Definition strict_eq (a b : option json) : bool :=
  match a, b with
  | None, None | Some JNull, Some JNull => true
  | Some (JBool x), Some (JBool y) => Bool.eqb x y
  | Some (JNum x), Some (JNum y) => bool_decide (x = y) && isFinite x
  | Some (JStr x), Some (JStr y) => jeqb x y
  | _, _ => false
  end.

(** [{ ...o, k: v }] and [delete o[k]]. *)
Definition with_prop (o : json) (k : list Z) (v : json) : json := JObj (map_set (entries o) k v).
Definition without_prop (o : json) (k : list Z) : json := JObj (map_delete (entries o) k).

Definition USDC : list Z := js "usdc_address".

Inductive WalletOp := WGetOrCreate | WBalance | WStatus | WBind (address account_name : option (list Z)).

Inductive TransferResult :=
| TrNoWallet
| TrNotApproved (outcome : ApprovalOutcome)
| TrDone (tx amount to status : option json).

Inductive GroupOp :=
| GSetPrice (gid price address note : option (list Z))
| GPaidJoin (uri price memo : option (list Z))
| GJoinStatus (uri gid : option (list Z)).

Inductive GroupResult :=
| GrPriced (gid price addr : list Z)
| GrNotPaid
| GrFailed
| GrPaid (amount tx : json) (to : list Z)
| GrStatus (gid name join : list Z) (price addr : option (list Z)) (members : Z).

(** The body of a transfer. *)
Definition transfer_body (to amount : list Z) (memo : option (list Z)) : json :=
  JObj ([(js "to_address", JStr to); (js "amount_usdc", JStr amount)] ++ opt_prop (js "memo") JStr memo).

Definition opt_or (o : option json) (d : list Z) : json := o ?? JStr d.
Definition payment_text (j : json) : list Z := match j with JStr s => s | _ => [] end.

(** The wallet receipt of a payment, when the gateway answers a complete one. *)
Definition receipt_proof (rec : json) : option JoinPaymentProof :=
  match get rec (js "message"), get rec (js "pubkey"), get rec (js "sig") with
  | Some m, Some p, Some s => Some (mkProof (payment_text m) (payment_text p) (payment_text s))
  | _, _, _ => None
  end.

(** [{ ...current, join: 'paid', joinPrice, joinAddr }]. *)
Definition priced_profile (current : GroupProfile) (price addr : list Z) : GroupProfile :=
  mkProfile (gpf_template current) (gpf_room current) (gpf_speakHumans current) (gpf_speakAgents current) (gpf_speakWho current)
    (Some (js "paid")) (Some price) (Some addr) (gpf_joinNote current) (gpf_agentWake current) (gpf_agentTier current)
    (gpf_autoPerHour current) (gpf_agentRounds current) (gpf_admins current) (gpf_public current) (gpf_tags current) (gpf_rules current).
Definition open_profile : GroupProfile :=
  mkProfile None None true true None None None None None None None None None None None None None.

(** The payment terms a public card shows. *)
Definition card_terms (c : GroupCardView) : option PaidJoinInfo :=
  if jeqb (gc_join c) (js "paid")
  then match gc_joinPrice c, gc_joinAddr c with Some p, Some a => Some (mkPaid p a) | _, _ => None end
  else paidJoinFromRules (gc_rulesHead c).

Definition arg (o : option (list Z)) : option (list Z) := o ≫= non_empty.

Section pay.
Context {S : Type} `{NetworkClient S}.
Notation IOW := (IO (World S)).

(** ** soulmirror_wallet *)

Definition publish_address (address : json) : IOW unit :=
  catch
    (p ← net net_profile_get;
     let profile := p ?? JObj [] in
     if strict_eq (get profile USDC) (Some address) then mret tt
     else
       _ ← net (net_profile_save (with_prop profile USDC address));
       catch (net net_directory_publish)
         (λ _, _ ← net (net_profile_save (without_prop profile USDC)); net net_directory_publish))
    (λ _, mret tt).

(** Errors without a code are wrapped. *)
Definition wrap_plain {A} (m : IOW A) : IOW A :=
  catch m (λ e, if err_code e =? 0 then throw (mkErr (js "Error: " ++ err_message e) (-32603)) else throw e).

Definition wallet_tool (pay : option (PayCall S)) (status : S → json) (op : WalletOp) : IOW json :=
  match pay with
  | None => throw no_gateway
  | Some call =>
      wrap_plain
        match op with
        | WGetOrCreate =>
            w ← net (call POST (js "/v2/pay/wallet.create") None);
            _ ← (match get w (js "address") with Some a => publish_address a | None => mret tt end);
            mret w
        | WBalance => net (call GET P_WALLET None)
        | WStatus =>
            config ← net (call GET (js "/v2/pay/config") None);
            st ← gets (λ w, status (w_net w));
            mret (JObj [(js "gateway", st); (js "config", config)])
        | WBind address account_name =>
            let a := trim (address ?? []) in
            let n := trim (account_name ?? []) in
            if jeqb a [] && jeqb n [] then throw (bad_params (js "bind needs address or account_name"))
            else if negb (jeqb a []) && negb (jeqb n []) then throw (bad_params (js "bind takes one of address and account_name"))
            else
              result ← net (call POST (js "/v2/pay/wallet.bind")
                              (Some (if jeqb a [] then JObj [(js "account_name", JStr n)] else JObj [(js "address", JStr a)])));
              _ ← (match as_string (get result (js "address")) with
                   | Some addr => if is_true (get result (js "ok")) then publish_address (JStr addr) else mret tt
                   | None => mret tt
                   end);
              mret result
        end
  end.

(** ** soulmirror_transfer *)

(** The published address of a directory entry. *)
Definition hit_address (hit : option json) : list Z :=
  match hit ≫= λ h, get h (js "profile") with
  | Some p => as_string (get p USDC) ?? []
  | None => []
  end.

Definition resolve_address (to_fp : list Z) (to_address : option (list Z)) : IOW (list Z) :=
  let explicit := trim (to_address ?? []) in
  if jeqb explicit [] then hit ← net (net_directory_fetch to_fp); mret (hit_address hit) else mret explicit.

Definition received_text (amount : list Z) (tx : json) : list Z :=
  js "你收到 " ++ amount ++ js " USDC（交易 " ++ payment_text tx ++ js "）".

(** The steps past the approval gate. *)
Definition pay_out (pay : option (PayCall S)) (to_fp toAddress amount : list Z) (memo : option (list Z)) : IOW TransferResult :=
  match pay with
  | None => throw no_gateway
  | Some call =>
      result ← net (call POST P_TRANSFER (Some (transfer_body toAddress amount memo)));
      let tx := get result (js "tx_hash") in
      _ ← (match tx with
           | Some t => catch (r ← net (net_send to_fp (received_text amount t) (Some (mkSendOptions None (Some true)))); mret tt)
                         (λ _, mret tt)
           | None => mret tt
           end);
      mret (TrDone tx (Some (opt_or (get result (js "amount")) amount)) (Some (opt_or (get result (js "to")) toAddress))
              (Some (opt_or (get result (js "status")) (js "processing"))))
  end.

Definition transfer_tool (pay : option (PayCall S)) (x : Exec) (to_fp : list Z) (to_address : option (list Z))
    (amount : list Z) (memo : option (list Z)) : IOW TransferResult :=
  toAddress ← resolve_address to_fp to_address;
  if jeqb toAddress [] then mret TrNoWallet
  else
    s ← asks id;
    if negb (bool_decide (tr_kind (call_trigger x s) = Owner)) && negb (bool_decide (approve x = allowed_once))
    then mret (TrNotApproved (approve x))
    else pay_out pay to_fp toAddress amount memo.

(** ** soulmirror_group *)

Definition set_price (call : PayCall S) (gid price address : option (list Z)) : IOW GroupResult :=
  match arg gid, arg price with
  | None, _ => throw (bad_params (js "gid is required for set_price"))
  | _, None => throw (bad_params (js "price is required"))
  | Some g, Some p =>
      info ← net (net_groups_info g);
      let current := gr_profile (gi_row info) ?? open_profile in
      let explicit := trim (address ?? []) in
      joinAddr ← (if jeqb explicit [] then w ← net (call GET P_WALLET None); mret (as_string (get w (js "address")) ?? [])
                  else mret explicit);
      if jeqb joinAddr [] then mret GrFailed
      else
        _ ← net (net_groups_setProfile g (priced_profile current p joinAddr));
        mret (GrPriced g p joinAddr)
  end.

(** Pay the published terms, fetch the wallet receipt, apply with both. *)
Definition pay_and_apply (call : PayCall S) (uri : list Z) (terms : PaidJoinInfo) (note : json → list Z) (memo : option (list Z))
  : IOW (option (json * json * list Z)) :=
  tx ← net (call POST P_TRANSFER (Some (transfer_body (pj_addr terms) (pj_price terms) memo)));
  match get tx (js "tx_hash") with
  | None => mret None
  | Some hash =>
      proof ← catch (rec ← net (call POST P_RECEIPT (Some (JObj [(js "tx_hash", hash)]))); mret (receipt_proof rec)) (λ _, mret None);
      let amount := opt_or (get tx (js "amount")) (pj_price terms) in
      gid ← net (net_groups_apply uri (Some (note amount))
                   (Some (mkPayment (payment_text hash) (payment_text amount) (pj_addr terms)
                            (payment_text <$> get tx (js "from")) proof None)));
      mret (Some (amount, hash, gid))
  end.

Definition joined_note (amount : json) : list Z := js "已付 " ++ payment_text amount ++ js " USDC 进群".

Definition paid_join (call : PayCall S) (uri price memo : option (list Z)) : IOW GroupResult :=
  match arg uri with
  | None => throw (bad_params (js "uri is required for paid_join"))
  | Some u =>
      card ← net (net_groups_lookup u);
      match card with
      | None => throw (mkErr (js "group card not readable") NetworkErrorCode.notFound)
      | Some c =>
          match card_terms c with
          | None => mret GrNotPaid
          | Some terms =>
              if jeqb (pj_price terms) [] then mret GrFailed
              else
                r ← pay_and_apply call u terms joined_note memo;
                mret (match r with Some (amount, hash, _) => GrPaid amount hash (pj_addr terms) | None => GrFailed end)
          end
      end
  end.

Definition join_status (uri gid : option (list Z)) : IOW GroupResult :=
  match arg uri with
  | Some u =>
      card ← net (net_groups_lookup u);
      mret (match card with
            | None => GrFailed
            | Some c => GrStatus (gc_gid c) (gc_name c) (gc_join c) (gc_joinPrice c) (gc_joinAddr c) (gc_members c)
            end)
  | None =>
      match arg gid with
      | None => throw (bad_params (js "uri or gid is required for join_status"))
      | Some g =>
          info ← net (net_groups_info g);
          let p := gr_profile (gi_row info) in
          let native := bool_decide ((p ≫= gpf_join) = Some (js "paid")) in
          let marked := paidJoinFromRules (p ≫= gpf_rules) in
          mret (GrStatus g (gr_name (gi_row info))
                  (if native || bool_decide (is_Some marked) then js "paid" else (p ≫= gpf_join) ?? js "invite")
                  (if native then p ≫= gpf_joinPrice else pj_price <$> marked)
                  (if native then p ≫= gpf_joinAddr else pj_addr <$> marked) (gr_members (gi_row info)))
      end
  end.

Definition group_tool (pay : option (PayCall S)) (op : GroupOp) : IOW GroupResult :=
  match pay with
  | None => throw no_gateway
  | Some call =>
      match op with
      | GSetPrice gid price address _ => set_price call gid price address
      | GPaidJoin uri price memo => paid_join call uri price memo
      | GJoinStatus uri gid => join_status uri gid
      end
  end.
End pay.

(** * Theorems *)

Section theorems.
Context {S : Type} `{NetworkClient S}.

Lemma resolve_sessions to_fp to_address (w : World S) : w_se (resolve_address to_fp to_address w).2 = w_se w.
Proof.
  unfold resolve_address. case_match; [|done]. unfold mbind, io_bind, net. by destruct (net_directory_fetch to_fp (w_net w)) as [[e|h] s1].
Qed.

Lemma catch_total {T A} (m : IO T A) (a : A) (s : T) : ∃ b s', catch m (λ _, mret a) s = (inr b, s').
Proof. unfold catch. destruct (m s) as [[e|b] s']; [by exists a, s'|by exists b, s']. Qed.

Lemma publish_total a (w : World S) : ∃ w2, publish_address a w = (inr tt, w2).
Proof. unfold publish_address. match goal with |- ∃ _, catch ?m _ w = _ => destruct (catch_total m tt w) as (b & w2 & E) end. destruct b. eauto. Qed.

(** C4. Money leaves through [soulmirror_transfer] only on the owner's direct
    instruction or after the owner approved this very transfer: in any other
    turn the call behaves the same whatever the gateway is, that is, it asks the
    gateway for nothing, and never reports a transfer. *)
Theorem transfer_gated (pay pay' : option (PayCall S)) (x : Exec) (to_fp : list Z) (to_address : option (list Z))
    (amount : list Z) (memo : option (list Z)) (w : World S)
    (Ht : tr_kind (call_trigger x (w_se w)) ≠ Owner) (Ha : approve x ≠ allowed_once) :
  transfer_tool pay x to_fp to_address amount memo w = transfer_tool pay' x to_fp to_address amount memo w ∧
  ∀ tx am to st, (transfer_tool pay x to_fp to_address amount memo w).1 ≠ inr (TrDone tx am to st).
Proof.
  unfold transfer_tool, mbind, io_bind. pose proof (resolve_sessions to_fp to_address w) as Hse.
  destruct (resolve_address to_fp to_address w) as [[e|a] w1]; simpl in *; [done|].
  destruct (jeqb a []); [done|]. unfold asks, gets. cbn [id]. rewrite Hse.
  rewrite (bool_decide_eq_false_2 _ Ht), (bool_decide_eq_false_2 _ Ha). done.
Qed.

(** A transfer the gate let through pays the address it was given once, and
    reports the gateway's answer: the hash, and the amount and the address asked
    for where the gateway does not repeat them.  A recipient that cannot be
    notified does not undo or fail the transfer; a refusal of the gateway is
    passed on. *)
Theorem transfer_reports (call : PayCall S) (x : Exec) (to_fp to amount : list Z) (memo : option (list Z)) (w : World S)
    (Hgate : tr_kind (call_trigger x (w_se w)) = Owner ∨ approve x = allowed_once) (Hto : trim to ≠ []) :
  let body := transfer_body (trim to) amount memo in
  (transfer_tool (Some call) x to_fp (Some to) amount memo w).1 =
  match (call POST P_TRANSFER (Some body) (w_net w)).1 with
  | inl e => inl e
  | inr r => inr (TrDone (get r (js "tx_hash")) (Some (opt_or (get r (js "amount")) amount))
                    (Some (opt_or (get r (js "to")) (trim to))) (Some (opt_or (get r (js "status")) (js "processing"))))
  end.
Proof.
  intros body. unfold transfer_tool, resolve_address, mbind, io_bind. cbn [nullish].
  assert (jeqb (trim to) [] = false) as Hj by by apply jeqb_neq. rewrite Hj. unfold mret, io_ret. rewrite Hj.
  unfold asks, gets. cbn [id].
  replace (negb (bool_decide (tr_kind (call_trigger x (w_se w)) = Owner)) && negb (bool_decide (approve x = allowed_once))) with false.
  2: { destruct Hgate as [-> | ->]; [done|]. by rewrite andb_false_r. }
  unfold pay_out, mbind, io_bind, net. fold body. destruct (call POST P_TRANSFER (Some body) (w_net w)) as [[e|r] s1]; [done|]. cbn [fst].
  destruct (get r (js "tx_hash")); [|done]. unfold catch, mret, io_ret. cbn [w_net]. by destruct (net_send _ _ _ s1) as [[e|rc] s2].
Qed.

(** Creating the wallet answers what the gateway answered, whatever the
    profile store and the directory do. *)
Theorem wallet_create_answers (call : PayCall S) (status : S → json) (w : World S) (answer : json) (s1 : S)
    (Hc : call POST (js "/v2/pay/wallet.create") None (w_net w) = (inr answer, s1)) :
  (wallet_tool (Some call) status WGetOrCreate w).1 = inr answer.
Proof.
  unfold wallet_tool, wrap_plain, catch at 1, mbind, io_bind, net at 1. rewrite Hc.
  destruct (get answer (js "address")) as [a|]; [|done].
  destruct (publish_total a (mkWorld s1 (w_se w) (w_uuids w))) as [w2 Hp]. by rewrite Hp.
Qed.

(** [paid_join] asks the gateway for one transfer, of the price the group
    published to the address it published, and for the receipt of a payment: two
    gateways that agree on these requests cannot be told apart. *)
Theorem paid_join_requests (call call' : PayCall S) (uri : list Z) (price memo : option (list Z)) (w : World S)
    (c : GroupCardView) (terms : PaidJoinInfo) (s1 : S)
    (Hu : uri ≠ []) (Hc : net_groups_lookup uri (w_net w) = (inr (Some c), s1)) (Hterms : card_terms c = Some terms)
    (Hpay : ∀ s, call POST P_TRANSFER (Some (transfer_body (pj_addr terms) (pj_price terms) memo)) s =
                 call' POST P_TRANSFER (Some (transfer_body (pj_addr terms) (pj_price terms) memo)) s)
    (Hrec : ∀ h s, call POST P_RECEIPT (Some (JObj [(js "tx_hash", h)])) s = call' POST P_RECEIPT (Some (JObj [(js "tx_hash", h)])) s) :
  group_tool (Some call) (GPaidJoin (Some uri) price memo) w = group_tool (Some call') (GPaidJoin (Some uri) price memo) w.
Proof.
  unfold group_tool, paid_join, arg. cbn [mbind option_bind]. unfold non_empty.
  assert (jeqb uri [] = false) as -> by by apply jeqb_neq. unfold mbind, io_bind, net. rewrite Hc, Hterms.
  destruct (jeqb (pj_price terms) []); [done|]. unfold pay_and_apply, mbind, io_bind, net. cbn [w_net]. rewrite Hpay.
  destruct (call' POST P_TRANSFER _ s1) as [[e|tx] s2]; [done|]. destruct (get tx (js "tx_hash")) as [h|]; [|done].
  unfold catch. cbn [w_net]. by rewrite Hrec.
Qed.
End theorems.

(** ** A ledger *)

Module Ledger.
(** A gateway that records the payments it makes, and a paid group. *)
Definition ledger_pay : PayCall (list json) := λ method path body s,
  if jeqb path P_TRANSFER
  then (inr (JObj [(js "tx_hash", JStr (js "0xt")); (js "from", JStr (js "0xme"))]), s ++ [body ?? JNull])
  else (inr (JObj [(js "message", JStr (js "m")); (js "pubkey", JStr (js "k")); (js "sig", JStr (js "s"))]), s).
Definition paid_card : GroupCardView := mkCard (js "g9") (js "Club") (js "paid") 3 (Some (js "25.00")) (Some (js "0xclub")) None None.
Definition client : NetworkClient (list json) := CardClient (list json) (λ _, mret (Some paid_card)) (λ _ _ _, mret (js "g9")).

(** The alter's turn was woken by a message of a group. *)
Definition world : World (list json) :=
  let told := message_event 2 11 (groupMessageFor (js "u1") (sample_message (js "fp-bob") (js "join the club!") None None) (js "g") (js "Team")) in
  mkWorld [] (mkSessions (Some (js "s1")) [] [] ∅ (<[js "s1" := [mkEvent (js "turn/start") 1 10 None; told]]> ∅) (AgentRegistry.mkReg [] true None)
    (GroupSettings.store_at None) (FriendSettings.mkFStore ∅ true None) Draft [] [] (Drafts.mkDS [] true [] None) (newWindow HOUR_MS) ∅ []
    (js "fp-me") (js "Me") ∅ [] [] []) 0.
Definition call_of (answer : option ApprovalOutcome) : Exec := mkExec (Some (js "s1")) true answer 10.
End Ledger.
Import Ledger.


Lemma transfer_gated_witness :
  @transfer_tool _ client (Some ledger_pay) (call_of None) (js "fp") (Some (js "0xa")) (js "1.00") None world =
  @transfer_tool _ client None (call_of None) (js "fp") (Some (js "0xa")) (js "1.00") None world.
Proof.
  apply (@transfer_gated _ client (Some ledger_pay) None (call_of None) (js "fp") (Some (js "0xa")) (js "1.00") None world);
    vm_compute; discriminate.
Defined.

Lemma transfer_reports_witness :
  (@transfer_tool _ client (Some ledger_pay) (call_of (Some allowed_once)) (js "fp") (Some (js " 0xa ")) (js "1.00") None world).1 =
  inr (TrDone (Some (JStr (js "0xt"))) (Some (JStr (js "1.00"))) (Some (JStr (js "0xa"))) (Some (JStr (js "processing")))).
Proof.
  etransitivity; [apply (@transfer_reports _ client ledger_pay (call_of (Some allowed_once)) (js "fp") (js " 0xa ") (js "1.00") None world)|].
  - right. reflexivity.
  - vm_compute. discriminate.
  - vm_compute. reflexivity.
Defined.

Lemma wallet_create_answers_witness :
  (@wallet_tool _ client (Some ledger_pay) (λ _, JNull) WGetOrCreate world).1 =
  inr (JObj [(js "message", JStr (js "m")); (js "pubkey", JStr (js "k")); (js "sig", JStr (js "s"))]).
Proof. apply (@wallet_create_answers _ client ledger_pay (λ _, JNull) world _ []). vm_compute. reflexivity. Defined.

Lemma paid_join_requests_witness :
  let quiet : PayCall (list json) := λ method path body s,
    if jeqb path P_TRANSFER || jeqb path P_RECEIPT then ledger_pay method path body s else (inr JNull, s) in
  @group_tool _ client (Some ledger_pay) (GPaidJoin (Some (js "soulmirror://group?gid=g9")) None None) world =
  @group_tool _ client (Some quiet) (GPaidJoin (Some (js "soulmirror://group?gid=g9")) None None) world.
Proof.
  intros quiet.
  apply (@paid_join_requests _ client ledger_pay quiet (js "soulmirror://group?gid=g9") None None world paid_card (mkPaid (js "25.00") (js "0xclub")) []);
    [discriminate|reflexivity|vm_compute; reflexivity|intros s; vm_compute; reflexivity|intros h s; vm_compute; reflexivity].
Defined.
