(* ===== verification/Scenarios.v ===== *)
(** * The parts together

    The tools and the sessions run on the in-memory backend: concrete
    histories on which the general theorems are evaluated, and the
    interleavings that show where the program's guards end. *)

From S2P Require Import Prelude JsString JsMap Json Policy AlterState GroupSettings FriendSettings.
From S2P Require Import AgentRegistry Drafts GroupContract Network FakeNetwork Sessions Tools.
#[local] Open Scope Z_scope.

#[export] Instance demo_client : NetworkClient FakeState := fake_client demo_uuid (λ _ _, None).
#[export] Instance demo_archiving : ArchivingClient FakeState fake_wf := fake_archiving demo_uuid (λ _ _, None).
#[export] Instance demo_lower : LowerCase := AsciiLowerCase.

#[export] Instance fake_monotone : MonotoneClock FakeState.
Proof.
  constructor.
  - intros s. reflexivity.
  - intros fp b o s. cbn [net_send demo_client fake_client].
    unfold send, mbind, io_bind, requireIdentity, get_state, mid, randomUUID, mret, io_ret, io, archive.
    destruct (fk_identity s); [|reflexivity]. destruct (negb _); [reflexivity|]. simpl. case_match; reflexivity.
  - intros fp o s. reflexivity.
Qed.

(** Alice wrote and is answered automatically; the alter's turn runs. *)
Definition alice : list Z := js "fp-alice-1f2e3d4c5b6a7988".
Definition alice_mail : InboundMessage := mkInbound (js "m1") alice (js "Alice") (js "hello") 5 None None None None None None None.
Definition alter_log : list EventLike :=
  [mkEvent (js "turn/start") 1 10 None; message_event 2 11 (userMessageFor (js "u") alice_mail (js "Alice"))].

Definition demo_start : World FakeState :=
  mkWorld (createFakeNetworkClient false 1000)
    (mkSessions (Some (js "s1")) [] [] ∅ (<[js "s1" := alter_log]> ∅) (mkReg [] true None) (store_at None)
       (mkFStore (<[alice := mkFS (Some Auto) None]> ∅) true None) Draft [] [] (mkDS [] true [] None) (newWindow HOUR_MS) ∅ []
       ME_FP (js "Me") ∅ [] [] []) 0.

(** A call of the alter's session, with the hourly cap at one. *)
Definition demo_exec : Exec := mkExec (Some (js "s1")) true None 1.
Definition demo_iso (t : Z) : list Z := dec t.

Definition after {A} (r : (NetworkError + A) * World FakeState) : World FakeState := r.2.
Definition gate (w : World FakeState) := sendMessage_plan demo_exec alice w.
Definition act (p : SendPlan) (w : World FakeState) := sendMessage_act demo_uuid demo_iso demo_exec (js "hi") p w.

(** The plan of the first call. *)
Definition demo_plan : SendPlan := match (gate demo_start).1 with inr p => p | inl _ => PlanRefuse end.

(** Both calls pass the gate before either is recorded. *)
Definition demo_w2 : World FakeState := after (gate (after (gate demo_start))).
Definition demo_w3 : World FakeState := after (act demo_plan demo_w2).
Definition demo_w4 : World FakeState := after (act demo_plan demo_w3).

Lemma run_eq {A W} (x : (NetworkError + A) * W) a : x.1 = inr a → x = (inr a, x.2).
Proof. destruct x. simpl. by intros ->. Qed.

Lemma demo_gates :
  gate demo_start = (inr demo_plan, after (gate demo_start)) ∧
  gate (after (gate demo_start)) = (inr demo_plan, demo_w2).
Proof. split; apply run_eq; vm_compute; reflexivity. Qed.

(** Did a step succeed? *)
Definition succeeded {A} (r : NetworkError + A) : bool := match r with inr _ => true | inl _ => false end.

Lemma demo_acts : succeeded (act demo_plan demo_w2).1 = true ∧ succeeded (act demo_plan demo_w3).1 = true.
Proof. split; vm_compute; reflexivity. Qed.

Lemma demo_is_auto : ∃ f re, demo_plan = PlanSend f true re ∧ fr_fp f = alice.
Proof. eexists _, _. split; vm_compute; reflexivity. Qed.

(** ** Two automatic replies at once *)

Lemma inflight_length fp (l : list Flight) : inflight fp l <= Z.of_nat (length l).
Proof. unfold inflight. pose proof (filterb_length (auto_to fp) l). lia. Qed.

Lemma log_of_plan (r : NetworkError + ToolResult) (t : Z) : succeeded r = true → log_of demo_plan r t = [(alice, t)].
Proof. destruct demo_is_auto as (f & re & -> & <-). by destruct r. Qed.

Definition demo_flight : Flight := mkFlight demo_exec (js "hi") demo_plan.

Lemma demo_reach : reach demo_uuid demo_iso 1 2 (mkRun demo_w4 [] [(alice, 1000); (alice, 1000)]).
Proof.
  destruct demo_gates as [Hg1 Hg2]. destruct demo_acts as [Ha1 Ha2].
  assert (reach demo_uuid demo_iso 1 2 (mkRun demo_w2 [demo_flight; demo_flight] [])) as Hr.
  { eapply reach_step; [eapply reach_step; [apply (reach_init _ _ 1 2 demo_start); vm_compute; reflexivity|]|].
    - apply (step_gate _ _ 1 2 demo_start (after (gate demo_start)) [] [] demo_exec alice (js "hi") demo_plan Hg1); [done|].
      intros fp. etransitivity; [apply inflight_length|done].
    - apply (step_gate _ _ 1 2 _ demo_w2 [demo_flight] [] demo_exec alice (js "hi") demo_plan Hg2); [done|].
      intros fp. etransitivity; [apply inflight_length|done]. }
  assert (reach demo_uuid demo_iso 1 2 (mkRun demo_w3 [demo_flight] [(alice, 1000)])) as Hr2.
  { eapply reach_step; [exact Hr|].
    pose proof (step_act demo_uuid demo_iso 1 2 demo_w2 demo_w3 [] [demo_flight] demo_flight [] (act demo_plan demo_w2).1) as Hs.
    rewrite log_of_plan in Hs by exact Ha1. replace (Date_now (w_net demo_w3)) with 1000 in Hs by (vm_compute; reflexivity).
    apply Hs. unfold demo_w3, after, act. apply surjective_pairing. }
  eapply reach_step; [exact Hr2|].
  pose proof (step_act demo_uuid demo_iso 1 2 demo_w3 demo_w4 [] [] demo_flight [(alice, 1000)] (act demo_plan demo_w3).1) as Hs.
  rewrite log_of_plan in Hs by exact Ha2. replace (Date_now (w_net demo_w4)) with 1000 in Hs by (vm_compute; reflexivity).
  apply Hs. unfold demo_w4, after, act. apply surjective_pairing.
Qed.

Lemma auto_replies_capped_witness :
  Z.of_nat (length (window HOUR_MS 2000 (hits_of [(alice, 1000); (alice, 1000)] alice))) <= 2.
Proof.
  apply (auto_replies_capped demo_uuid demo_iso 1 2 (mkRun demo_w4 [] [(alice, 1000); (alice, 1000)]) alice 2000); [done..|].
  apply demo_reach.
Defined.

(** The bound for concurrent calls is attained: with the cap at one per hour,
    two calls that both pass the gate before the first is recorded send two
    automatic replies within the hour. *)
Theorem concurrent_calls_pass_the_cap :
  ∃ st, reach demo_uuid demo_iso 1 2 st ∧
    length (window HOUR_MS 2000 (hits_of (sr_log st) alice)) = 2%nat ∧
    length (fk_conversations (w_net (sr_world st)) !! alice ?? []) = 2%nat.
Proof. eexists. split; [apply demo_reach|]. split; vm_compute; reflexivity. Qed.

(** ** A draft approved twice *)

Definition demo_draft : PendingDraft :=
  mkDraft (js "draft-1") alice None (js "Alice") (js "see you") (js "t") (js "draft-tier") None None None.
Definition drafted : World FakeState :=
  mkWorld (w_net demo_start) (set_drafts (mkDS [demo_draft] true [] None) (w_se demo_start)) 0.

(** An approval looks the draft up, sends, and removes the draft only when the
    send has been answered: two approvals whose look-ups both precede the first
    removal send the message twice. *)
Theorem approved_twice_sends_twice :
  get_draft (js "draft-1") (se_drafts (w_se drafted)) = Some demo_draft ∧
  let w1 := after (approve_draft demo_uuid demo_draft (js "see you") drafted) in
  let w2 := after (approve_draft demo_uuid demo_draft (js "see you") w1) in
  map ce_body (fk_conversations (w_net w2) !! alice ?? []) = [js "see you"; js "see you"] ∧
  ds_drafts (se_drafts (w_se w1)) = [].
Proof. split; [by vm_compute|]. split; vm_compute; reflexivity. Qed.


(** ** Sending *)


(** The demo backend with its two fixture friends. *)
Lemma requireFriend_empty_witness : (requireFriend [] demo_start).1 = inr (nth 0 FAKE_FRIENDS (nth 1 FAKE_FRIENDS
  (mkNFriend [] [] None None None None 0 0 None None None None))).
Proof.
  apply (requireFriend_empty demo_start (nth 0 FAKE_FRIENDS (nth 1 FAKE_FRIENDS (mkNFriend [] [] None None None None 0 0 None None None None)))
    (tail FAKE_FRIENDS) (w_net demo_start)). reflexivity.
Defined.

Lemma sendAndArchive_archived_witness :
  let s := createFakeNetworkClient false 1000 in
  let receipt := mkReceipt (js "a2a-u0") (Some 1) (js "sent") in
  ∃ e s2, sendAndArchive alice (js "hi") None s = (inr (e, receipt), s2) ∧ is_sent (js "hi") None receipt e.
Proof.
  intros s receipt.
  apply (sendAndArchive_archived alice (js "hi") None s receipt (net_send alice (js "hi") None s).2).
  - apply (fake_reachable_wf demo_uuid (λ _ _, None) false 1000 []).
  - apply run_eq. vm_compute. reflexivity.
Defined.

(** ** The group cap reads the last 200 entries *)

Definition cap_line (i : nat) (dir : Dir) (auto : bool) : ConversationEntry :=
  mkEntry (Z.of_nat i + 1) dir (dec (Z.of_nat i)) (js "x") 1000 None None (if auto then Some true else None)
    (Some (if auto then js "alter" else js "owner")) None None None.
Definition busy_group : list ConversationEntry :=
  map (λ i, cap_line i dir_out true) (seq 0 10) ++ map (λ i, cap_line i dir_in false) (seq 10 200).

(** The hourly group cap counts over the last 200 archived entries only: in a
    group with 200 messages after them, ten automatic posts of the same hour
    are not counted at all. *)
Theorem group_cap_forgets :
  countAutoInWindow (map cap_entry busy_group) 2000 HOUR_MS = 10 ∧
  countAutoInWindow (map cap_entry (archive_slice busy_group (mkConv None (Some 200)))) 2000 HOUR_MS = 0.
Proof. split; vm_compute; reflexivity. Qed.
