(* ===== verification/JsonRpc.v ===== *)
(** * The JSON-RPC endpoint (network/jsonrpc.ts)

    One endpoint over a pair of line streams: requests get increasing ids and
    wait in a map until a response line, a timeout, an abort or the end of the
    stream settles them.  A promise is settled by recording its outcome; the
    lines written, the notifications handed out and the protocol errors are
    recorded in order. *)

From S2P Require Import Prelude JsString Json.
#[local] Open Scope Z_scope.

Definition JSONRPC_CLOSED : Z := -32099.
Definition JSONRPC_TIMEOUT : Z := -32098.

Inductive Outcome :=
| Resolved (value : option json)
| RejectedWith (message : list Z) (code : number) (data : option json).

Inductive ProtocolError := NotJson | NotObject | NoNumericId | UnknownId.

Record PendingCall := mkCall { pc_method : list Z; pc_timer : bool }.

Record Endpoint := mkEndpoint {
  ep_pending : list (Z * PendingCall);       (** in request order *)
  ep_nextId : Z;
  ep_closed : bool;
  ep_settled : list (Z * Outcome);           (** oldest first *)
  ep_written : list json;
  ep_notified : list (list Z * option json);
  ep_errors : list ProtocolError;
  ep_onClose : nat }.

Definition new_endpoint : Endpoint := mkEndpoint [] 1 false [] [] [] [] 0.

Definition find_call (l : list (Z * PendingCall)) (id : Z) : option PendingCall :=
  snd <$> findb (λ p, p.1 =? id) l.
Definition drop_call (l : list (Z * PendingCall)) (id : Z) : list (Z * PendingCall) := filterb (λ p, negb (p.1 =? id)) l.

(** [entry.resolve] / [entry.reject] of one pending call. *)
Definition settle (id : Z) (o : Outcome) (e : Endpoint) : Endpoint :=
  mkEndpoint (drop_call (ep_pending e) id) (ep_nextId e) (ep_closed e) (ep_settled e ++ [(id, o)]) (ep_written e)
    (ep_notified e) (ep_errors e) (ep_onClose e).

(** [this.pending.get(id)?.reject(...)]. *)
Definition settle_pending (id : Z) (o : Outcome) (e : Endpoint) : Endpoint :=
  match find_call (ep_pending e) id with Some _ => settle id o e | None => e end.

Definition closed_error (message : list Z) : Outcome := RejectedWith message (num_of_Z JSONRPC_CLOSED) None.

(** The loop over the pending entries. *)
Definition reject_all (reason : Outcome) (e : Endpoint) : Endpoint :=
  fold_left (λ e p, settle p.1 reason e) (ep_pending e) e.

Definition close (error : option (list Z)) (e : Endpoint) : Endpoint :=
  if ep_closed e then e
  else
    let reason := closed_error (match error with None => js "endpoint closed" | Some m => js "endpoint closed: " ++ m end) in
    let e1 := mkEndpoint (ep_pending e) (ep_nextId e) true (ep_settled e) (ep_written e) (ep_notified e) (ep_errors e) (ep_onClose e) in
    let e2 := reject_all reason e1 in
    mkEndpoint [] (ep_nextId e2) (ep_closed e2) (ep_settled e2) (ep_written e2) (ep_notified e2) (ep_errors e2) (S (ep_onClose e2)).

(** [write]: [io] is what the stream does, [Some message] when it throws. *)
Definition write (io : option (list Z)) (frame : json) (e : Endpoint) : bool * Endpoint :=
  if ep_closed e then (false, e)
  else match io with
  | None => (true, mkEndpoint (ep_pending e) (ep_nextId e) (ep_closed e) (ep_settled e) (ep_written e ++ [frame])
                     (ep_notified e) (ep_errors e) (ep_onClose e))
  | Some m => (false, close (Some m) e)
  end.

Definition frame_of (id : option Z) (method : list Z) (params : option json) : json :=
  JObj ([(js "jsonrpc", JStr (js "2.0"))] ++ opt_prop (js "id") (λ i, JNum (num_of_Z i)) id
        ++ [(js "method", JStr method)] ++ opt_prop (js "params") (λ p, p) params).

(** [request]: the id of the promise, [None] when it is rejected at once
    because the endpoint is closed. *)
Definition request (io : option (list Z)) (method : list Z) (params : option json) (timeoutMs : Z) (aborted : bool) (e : Endpoint)
  : option Z * Endpoint :=
  if ep_closed e then (None, e)
  else
    let id := ep_nextId e in
    let e1 := mkEndpoint (ep_pending e ++ [(id, mkCall method (0 <? timeoutMs))]) (id + 1) (ep_closed e) (ep_settled e)
                (ep_written e) (ep_notified e) (ep_errors e) (ep_onClose e) in
    let e2 := if aborted then settle_pending id (closed_error (method ++ js ": aborted")) e1 else e1 in
    let '(ok, e3) := write io (frame_of (Some id) method params) e2 in
    (Some id, if ok then e3 else settle_pending id (closed_error (method ++ js ": endpoint is closed")) e3).

Definition notify (io : option (list Z)) (method : list Z) (params : option json) (e : Endpoint) : Endpoint :=
  (write io (frame_of None method params) e).2.

(** The abort listener of a call, and its timer (cleared once it is settled). *)
Definition abort (id : Z) (e : Endpoint) : Endpoint :=
  match find_call (ep_pending e) id with
  | Some c => settle id (closed_error (pc_method c ++ js ": aborted")) e
  | None => e
  end.
Definition timeout (id : Z) (text : list Z) (e : Endpoint) : Endpoint :=
  match find_call (ep_pending e) id with
  | Some c => if pc_timer c then settle id (RejectedWith text (num_of_Z JSONRPC_TIMEOUT) None) e else e
  | None => e
  end.

Definition protocol_error (p : ProtocolError) (e : Endpoint) : Endpoint :=
  mkEndpoint (ep_pending e) (ep_nextId e) (ep_closed e) (ep_settled e) (ep_written e) (ep_notified e) (ep_errors e ++ [p]) (ep_onClose e).

Definition no_value (v : option json) : bool := match v with None | Some JNull => true | _ => false end.

Definition response_of (method : list Z) (frame : json) : Outcome :=
  let err := get frame (js "error") in
  if negb (no_value err) then
    let ev := err ?? JNull in
    RejectedWith (as_string (get ev (js "message")) ?? (method ++ js " failed")) (as_number (get ev (js "code")) ?? num_of_Z (-32603))
      (get ev (js "data"))
  else Resolved (get frame (js "result")).

(** [this.pending.get(n)] with the number of the line. *)
Definition find_number (l : list (Z * PendingCall)) (n : number) : option (Z * PendingCall) :=
  findb (λ p, bool_decide (num_of_Z p.1 = n)) l.

Definition handle_frame (frame : json) (e : Endpoint) : Endpoint :=
  if negb (is_object frame) then protocol_error NotObject e
  else
    match get frame (js "method"), no_value (get frame (js "id")) with
    | Some (JStr m), true =>
        mkEndpoint (ep_pending e) (ep_nextId e) (ep_closed e) (ep_settled e) (ep_written e)
          (ep_notified e ++ [(m, get frame (js "params"))]) (ep_errors e) (ep_onClose e)
    | _, _ =>
        match get frame (js "id") with
        | Some (JNum n) =>
            match find_number (ep_pending e) n with
            | None => protocol_error UnknownId e
            | Some (id, c) => settle id (response_of (pc_method c) frame) e
            end
        | _ => protocol_error NoNumericId e
        end
    end.

Definition handleLine `{JsonText} (line : list Z) (e : Endpoint) : Endpoint :=
  let trimmed := trim line in
  if jeqb trimmed [] then e
  else match JSON_parse trimmed with
  | None => protocol_error NotJson e
  | Some frame => handle_frame frame e
  end.

(** * Theorems *)

Inductive RpcOp :=
| RpcRequest (io : option (list Z)) (method : list Z) (params : option json) (timeoutMs : Z) (aborted : bool)
| RpcNotify (io : option (list Z)) (method : list Z) (params : option json)
| RpcLine (line : list Z)
| RpcAbort (id : Z)
| RpcTimeout (id : Z) (text : list Z)
| RpcClose (error : option (list Z)).

Section endpoint.
Context `{JsonText}.

Definition rpc_op (o : RpcOp) (e : Endpoint) : Endpoint :=
  match o with
  | RpcRequest io m p t a => (request io m p t a e).2
  | RpcNotify io m p => notify io m p e
  | RpcLine l => handleLine l e
  | RpcAbort id => abort id e
  | RpcTimeout id t => timeout id t e
  | RpcClose err => close err e
  end.

Definition rpc_run (ops : list RpcOp) : Endpoint := fold_left (λ e o, rpc_op o e) ops new_endpoint.

(** The ids handed out so far: 1, 2, ..., n. *)
Definition issued (e : Endpoint) : list Z := map (λ i, Z.of_nat i + 1) (seq 0 (Z.to_nat (ep_nextId e - 1))).

(** Every issued call is either waiting or settled once, and a closed endpoint
    has nobody waiting. *)
Record rpc_inv (e : Endpoint) : Prop := {
  ri_ids : Permutation (map fst (ep_settled e) ++ map fst (ep_pending e)) (issued e);
  ri_next : 1 <= ep_nextId e;
  ri_closed : ep_closed e = true → ep_pending e = [];
}.

Lemma issued_NoDup e : NoDup (issued e).
Proof.
  unfold issued. change (NoDup ((λ i, Z.of_nat i + 1) <$> seq 0 (Z.to_nat (ep_nextId e - 1)))). apply NoDup_fmap_2; [intros x y Hxy; lia|]. apply NoDup_seq.
Qed.

Lemma find_call_elem l id c : find_call l id = Some c → (id, c) ∈ l.
Proof.
  unfold find_call. intros ([i d] & Hf & Hc)%fmap_Some. apply findb_Some in Hf as [Hin Hid]. simpl in *.
  apply Z.eqb_eq in Hid. by subst.
Qed.

Lemma drop_call_perm (l : list (Z * PendingCall)) id c :
  NoDup (map fst l) → (id, c) ∈ l → Permutation (id :: map fst (drop_call l id)) (map fst l).
Proof.
  induction l as [|[i d] l IH]; simpl; [set_solver|]. intros [Hi Hnd]%NoDup_cons Hin.
  change (drop_call ((i, d) :: l) id) with (if negb (i =? id) then (i, d) :: drop_call l id else drop_call l id).
  destruct (i =? id) eqn:E; bools; cbn [negb map fst].
  - subst. assert (drop_call l id = l) as ->; [|done]. apply filterb_all. intros [j d'] Hj. simpl.
    apply negb_true_iff, Z.eqb_neq. intros ->. apply Hi. apply list_elem_of_fmap. by exists (id, d').
  - apply elem_of_cons in Hin as [[= -> ->]|Hin]; [done|]. rewrite <- (IH Hnd Hin). constructor.
Qed.

Lemma pending_NoDup e : rpc_inv e → NoDup (map fst (ep_pending e)).
Proof. intros [Hp _ _]. pose proof (issued_NoDup e) as Hn. rewrite <- Hp in Hn. by apply NoDup_app in Hn as (_ & _ & ?). Qed.

Lemma settle_inv id c o e : rpc_inv e → (id, c) ∈ ep_pending e → rpc_inv (settle id o e).
Proof.
  intros Hinv Hin. pose proof (pending_NoDup e Hinv) as Hnd. destruct Hinv as [Hp Hn Hc]. constructor; simpl.
  - rewrite map_app. simpl. rewrite <- app_assoc. simpl. rewrite (drop_call_perm _ _ _ Hnd Hin). done.
  - done.
  - intros Hcl. rewrite (Hc Hcl) in Hin. set_solver.
Qed.

Lemma settle_pending_inv id o e : rpc_inv e → rpc_inv (settle_pending id o e).
Proof.
  intros Hinv. unfold settle_pending. destruct (find_call _ id) as [c|] eqn:E; [|done].
  by eapply settle_inv; [|apply find_call_elem].
Qed.

(** Changes that leave the calls alone. *)
Lemma same_calls_inv e e' :
  rpc_inv e → ep_pending e' = ep_pending e → ep_nextId e' = ep_nextId e → ep_settled e' = ep_settled e →
  (ep_closed e' = true → ep_pending e = []) → rpc_inv e'.
Proof. intros [Hp Hn Hc] E1 E2 E3 E4. constructor; rewrite ?E1, ?E2, ?E3; [|done|done]. unfold issued. by rewrite E2. Qed.

Lemma reject_all_spec reason (l : list (Z * PendingCall)) e :
  NoDup (map fst l) →
  let e' := fold_left (λ e p, settle p.1 reason e) l e in
  ep_settled e' = ep_settled e ++ map (λ p, (p.1, reason)) l ∧ ep_nextId e' = ep_nextId e ∧ ep_closed e' = ep_closed e.
Proof.
  revert e. induction l as [|p l IH]; intros e Hnd; simpl; [by rewrite app_nil_r|].
  apply NoDup_cons in Hnd as [_ Hnd]. destruct (IH (settle p.1 reason e) Hnd) as (-> & -> & ->). simpl.
  by rewrite <- app_assoc.
Qed.

Lemma close_inv err e : rpc_inv e → rpc_inv (close err e).
Proof.
  intros Hinv. unfold close. destruct (ep_closed e); [done|]. set (reason := closed_error _). set (e1 := mkEndpoint _ _ true _ _ _ _ _).
  pose proof (pending_NoDup e Hinv) as Hnd. destruct (reject_all_spec reason (ep_pending e) e1 Hnd) as (Hs & Hn & Hc).
  destruct Hinv as [Hp Hn0 _]. unfold reject_all. constructor; simpl.
  - rewrite Hs. simpl. rewrite app_nil_r, map_app, map_map. simpl.
    unfold issued. simpl. rewrite Hn. exact Hp.
  - by rewrite Hn.
  - done.
Qed.

Lemma write_inv io f e : rpc_inv e → rpc_inv (write io f e).2.
Proof.
  intros Hinv. unfold write. destruct (ep_closed e) eqn:E; [done|]. destruct io; simpl; [by apply close_inv|].
  eapply same_calls_inv; [exact Hinv|done..|]. simpl. congruence.
Qed.

Lemma request_inv io m p t a e : rpc_inv e → rpc_inv (request io m p t a e).2.
Proof.
  intros Hinv. unfold request. destruct (ep_closed e) eqn:E; [done|].
  set (e1 := mkEndpoint _ _ _ _ _ _ _ _). assert (rpc_inv e1) as H1.
  { destruct Hinv as [Hp Hn Hc]. constructor; simpl; [|lia|done].
    rewrite map_app, app_assoc, Hp. unfold issued. simpl.
    replace (Z.to_nat (ep_nextId e + 1 - 1)) with (S (Z.to_nat (ep_nextId e - 1))) by lia.
    rewrite seq_S, map_app. simpl. rewrite Z2Nat.id by lia. by replace (ep_nextId e - 1 + 1) with (ep_nextId e) by lia. }
  set (e2 := if a then _ else _). assert (rpc_inv e2) as H2 by (unfold e2; destruct a; [by apply settle_pending_inv|done]).
  pose proof (write_inv io (frame_of (Some (ep_nextId e)) m p) e2 H2) as H3.
  destruct (write io _ e2) as [ok e3]. simpl in *. destruct ok; [done|]. by apply settle_pending_inv.
Qed.

Lemma find_number_elem l n id c : find_number l n = Some (id, c) → (id, c) ∈ l ∧ num_of_Z id = n.
Proof. unfold find_number. intros [Hin Hn]%findb_Some. by bools. Qed.

Lemma handle_frame_inv f e : rpc_inv e → rpc_inv (handle_frame f e).
Proof.
  intros Hinv. assert (∀ p, rpc_inv (protocol_error p e)) as Hpe.
  { intros p. eapply same_calls_inv; [exact Hinv|done..|]. simpl. apply Hinv. }
  unfold handle_frame. destruct (negb (is_object f)); [done|].
  assert (rpc_inv (match get f (js "id") with
    | Some (JNum n) => match find_number (ep_pending e) n with None => protocol_error UnknownId e
                       | Some (id, c) => settle id (response_of (pc_method c) f) e end
    | _ => protocol_error NoNumericId e end)) as Hr.
  { destruct (get f (js "id")) as [[| |n| | |]|]; try done. destruct (find_number _ n) as [[id c]|] eqn:E; [|done].
    apply find_number_elem in E as [Hin _]. by eapply settle_inv. }
  destruct (get f (js "method")) as [[| | |m| |]|], (no_value (get f (js "id"))); try done.
  eapply same_calls_inv; [exact Hinv|done..|]. simpl. apply Hinv.
Qed.

Lemma rpc_op_inv o e : rpc_inv e → rpc_inv (rpc_op o e).
Proof.
  intros Hinv. destruct o; simpl.
  - by apply request_inv.
  - by apply write_inv.
  - unfold handleLine. case_match; [done|]. destruct (JSON_parse _); [by apply handle_frame_inv|].
    eapply same_calls_inv; [exact Hinv|done..|]. simpl. apply Hinv.
  - unfold abort. destruct (find_call _ id) as [c|] eqn:E; [|done]. by eapply settle_inv; [|apply find_call_elem].
  - unfold timeout. destruct (find_call _ id) as [c|] eqn:E; [|done]. case_match; [|done].
    by eapply settle_inv; [|apply find_call_elem].
  - by apply close_inv.
Qed.

(** C7. No request is lost and none is answered twice: after any sequence of
    requests, response lines (well-formed or not, in any order, repeated),
    timeouts, aborts, write failures and closes, every id handed out is either
    still waiting or has exactly one outcome; once the endpoint is closed every
    id has one. *)
Theorem rpc_settled_once (ops : list RpcOp) :
  let e := rpc_run ops in
  NoDup (map fst (ep_settled e) ++ map fst (ep_pending e)) ∧
  (∀ id, 1 <= id < ep_nextId e ↔ id ∈ map fst (ep_settled e) ∨ id ∈ map fst (ep_pending e)) ∧
  (ep_closed e = true → ep_pending e = []).
Proof.
  assert (rpc_inv (rpc_run ops)) as [Hp Hn Hc].
  { apply (run_inv _ rpc_inv); [by constructor|intros e o; apply rpc_op_inv]. }
  simpl. split_and!; [rewrite Hp; apply issued_NoDup| |done]. intros id. rewrite <- elem_of_app, Hp. unfold issued.
  rewrite list_elem_of_In, in_map_iff. setoid_rewrite in_seq. split.
  - intros Hid. exists (Z.to_nat (id - 1)). split; lia.
  - intros (i & <- & Hi). lia.
Qed.

(** A response line settles the call whose id it carries, with its result, and
    no other call; a response to nobody changes no call. *)
Theorem response_correlated (e : Endpoint) (line : list Z) (frame : json) (n : number) :
  rpc_inv e → trim line ≠ [] → JSON_parse (trim line) = Some frame → get frame (js "id") = Some (JNum n) →
  (∀ id c, (id, c) ∈ ep_pending e → num_of_Z id = n →
     ep_settled (handleLine line e) = ep_settled e ++ [(id, response_of (pc_method c) frame)] ∧
     ep_pending (handleLine line e) = drop_call (ep_pending e) id) ∧
  ((∀ id c, (id, c) ∈ ep_pending e → num_of_Z id ≠ n) →
     ep_settled (handleLine line e) = ep_settled e ∧ ep_pending (handleLine line e) = ep_pending e).
Proof.
  intros Hinv Hne Hparse Hid. unfold handleLine. destruct (jeqb (trim line) []) eqn:E; [by apply jeqb_eq in E|]. rewrite Hparse.
  assert (handle_frame frame e = match find_number (ep_pending e) n with None => protocol_error UnknownId e
            | Some (id, c) => settle id (response_of (pc_method c) frame) e end) as ->.
  { unfold handle_frame. assert (is_object frame = true) as -> by (by destruct frame). rewrite Hid. simpl.
    by destruct (get frame (js "method")) as [[]|]. }
  destruct (find_number (ep_pending e) n) as [[id c]|] eqn:Ef.
  - apply find_number_elem in Ef as [Hin Hn]. split; [|intros Hno; by destruct (Hno id c Hin)].
    intros id' c' Hin' Hn'. assert (id' = id) as -> by (apply num_of_Z_inj; congruence).
    assert (c' = c) as ->; [|done]. pose proof (pending_NoDup e Hinv) as Hnd. clear -Hin Hin' Hnd.
    induction (ep_pending e) as [|[i d] l IH]; [set_solver|]. simpl in Hnd. apply NoDup_cons in Hnd as [Hi Hnd].
    assert (∀ x, (i, x) ∈ l → False) as Hfresh.
    { intros x Hx. apply Hi. apply list_elem_of_fmap. by exists (i, x). }
    apply elem_of_cons in Hin as [Hin|Hin], Hin' as [Hin'|Hin']; simplify_eq; try done; [by destruct (Hfresh c')|by destruct (Hfresh c)|by apply IH].
  - split; [|done]. intros id c Hin Hn. unfold find_number in Ef. rewrite findb_None in Ef. specialize (Ef (id, c) Hin).
    simpl in Ef. by bools.
Qed.
End endpoint.

(** Two calls; the second is answered, then the peer goes away. *)
Definition demo_answer : json := JObj [(js "id", JNum (num_of_Z 2)); (js "result", JBool true)].
Definition demo_ops (line : list Z) : list RpcOp :=
  [RpcRequest None (js "a") None 0 false; RpcRequest None (js "b") None 0 false; RpcLine line; RpcLine line; RpcClose None].

Lemma rpc_settled_once_witness :
  let e := @rpc_run CodedJson (demo_ops (@JSON_stringify CodedJson demo_answer)) in
  ep_settled e = [(2, Resolved (Some (JBool true))); (1, closed_error (js "endpoint closed"))] ∧ ep_pending e = [] ∧
  NoDup (map fst (ep_settled e) ++ map fst (ep_pending e)).
Proof.
  intros e. destruct (@rpc_settled_once CodedJson (demo_ops (@JSON_stringify CodedJson demo_answer))) as (Hnd & _ & Hc).
  split; [by vm_compute|]. split; [apply Hc; by vm_compute|exact Hnd].
Defined.

Lemma response_correlated_witness :
  let e := @rpc_run CodedJson (take 2 (demo_ops [])) in
  ep_settled (@handleLine CodedJson (@JSON_stringify CodedJson demo_answer) e) = [(2, Resolved (Some (JBool true)))].
Proof.
  intros e.
  destruct (@response_correlated CodedJson e (@JSON_stringify CodedJson demo_answer) demo_answer (num_of_Z 2)) as [Hin _].
  - constructor; [vm_compute; reflexivity|vm_compute; done|vm_compute; done].
  - by vm_compute.
  - by vm_compute.
  - done.
  - destruct (Hin 2 (mkCall (js "b") false)) as [Hs _]; [vm_compute; right; left|done|]. exact Hs.
Defined.
