(* ===== verification/SoulnetWire.v ===== *)
(** * The wire shapes of the soulnet peer (network/soulnet.ts)

    What the peer answers and notifies is JSON; these functions turn it into
    the data of the network interface and back.  A wire object is a [json]
    value.  Fields the source copies without a test are read at the type its
    wire interface declares (the peer is a Go program with typed structs that
    omits empty fields); counters, sequence numbers and times are integers
    there.  [Date.parse] is a parameter. *)

From S2P Require Import Prelude JsString JsMap Json Policy Network JsonRpc.
From Stdlib Require Import Qcanon.
#[local] Open Scope Z_scope.

(** The integer a JSON number stands for. *)
Definition int_of (n : number) : Z := match n with Fin q => Qc_floor q | _ => 0 end.

Lemma int_of_num z : int_of (num_of_Z z) = z.
Proof. apply Qc_floor_Z. Qed.

(** [str(value, fallback)], [typeof v === 'number' ? v : d]. *)
Definition str (v : option json) (fallback : list Z) : list Z := as_string v ?? fallback.
Definition str0 (v : option json) : list Z := str v [].
Definition int_or (v : option json) (d : Z) : Z := match as_number v with Some n => int_of n | None => d end.

Definition shortFp (value : list Z) : list Z :=
  if 12 <? Z.of_nat (length value) then take 12 value ++ js "…" else value.

(** [v?.key]. *)
Definition getq (v : option json) (k : list Z) : option json := v ≫= λ j, get j k.

(** [v ?? d] treats [null] like [undefined]. *)
Definition present (v : option json) : option json := match v with Some JNull => None | v => v end.

(** A text field that is left out when empty. *)
Definition filled (v : option json) : option (list Z) := as_string v ≫= non_empty.

(** A name, or the shortened fingerprint. *)
Definition name_or_fp (name fp : list Z) : list Z := if jeqb name [] then shortFp fp else name.

(** [list(v)] of [profileFromWire]: the strings of a non-empty array. *)
Definition string_list (v : option json) : option (list (list Z)) :=
  match v with
  | Some (JArr (x :: l)) => Some (omap (λ a, as_string (Some a)) (x :: l))
  | _ => None
  end.

(** [n(v)]: a finite number other than zero. *)
Definition nonzero (v : option json) : option number :=
  match v with
  | Some (JNum n) => if isFinite n && negb (bool_decide (n = num_of_Z 0)) then Some n else None
  | _ => None
  end.

(** One of the literals the field admits. *)
Definition one_of (l : list (list Z)) (s : option (list Z)) : option (list Z) :=
  match s with Some x => if bool_decide (x ∈ l) then Some x else None | None => None end.

Definition who_values : list (list Z) := [js "all"; js "owner"; js "admins"].
Definition join_values : list (list Z) := [js "invite"; js "apply"; js "open"; js "paid"].
Definition wake_values : list (list Z) := [js "mention"; js "always"; js "never"].
Definition tier_values : list (list Z) := [js "notify"; js "draft"; js "auto"].

(** ** Group profiles *)

(** The camel-case profile of a wire object. *)
Definition profile_of_object (p : json) : GroupProfile :=
  let s k := filled (get p k) in
  let join := s (js "join") in
  let paid k := if bool_decide (join = Some (js "paid")) then s k else None in
  mkProfile (s (js "template")) (s (js "room"))
    (is_true (get p (js "speak_humans"))) (is_true (get p (js "speak_agents")))
    (one_of who_values (s (js "speak_who"))) (one_of join_values join)
    (paid (js "join_price")) (paid (js "join_addr")) (paid (js "join_note"))
    (one_of wake_values (s (js "agent_wake"))) (one_of tier_values (s (js "agent_tier")))
    (nonzero (get p (js "auto_per_hour"))) (nonzero (get p (js "agent_rounds")))
    (string_list (get p (js "admins")))
    (if is_true (get p (js "public")) then Some true else None)
    (string_list (get p (js "tags"))) (s (js "rules")).

Definition profileFromWire `{JsonText} (value : option json) : option GroupProfile :=
  let raw := match value with
             | Some (JStr t) => if jeqb (trim t) [] then None else JSON_parse t
             | v => v
             end in
  match raw with
  | Some v => if is_object v then Some (profile_of_object v) else None
  | None => None
  end.

Definition profileToWire (p : GroupProfile) : json :=
  JObj (opt_prop (js "template") JStr (gpf_template p) ++ opt_prop (js "room") JStr (gpf_room p)
    ++ [(js "speak_humans", JBool (gpf_speakHumans p)); (js "speak_agents", JBool (gpf_speakAgents p))]
    ++ opt_prop (js "speak_who") JStr (gpf_speakWho p) ++ opt_prop (js "join") JStr (gpf_join p)
    ++ opt_prop (js "join_price") JStr (gpf_joinPrice p) ++ opt_prop (js "join_addr") JStr (gpf_joinAddr p)
    ++ opt_prop (js "join_note") JStr (gpf_joinNote p) ++ opt_prop (js "agent_wake") JStr (gpf_agentWake p)
    ++ opt_prop (js "agent_tier") JStr (gpf_agentTier p) ++ opt_prop (js "auto_per_hour") JNum (gpf_autoPerHour p)
    ++ opt_prop (js "agent_rounds") JNum (gpf_agentRounds p)
    ++ opt_prop (js "admins") (λ l, JArr (map JStr l)) (gpf_admins p) ++ opt_prop (js "public") JBool (gpf_public p)
    ++ opt_prop (js "tags") (λ l, JArr (map JStr l)) (gpf_tags p) ++ opt_prop (js "rules") JStr (gpf_rules p)).

(** ** Friends, requests, entries, groups *)

Section wire.
Context `{JsonText} (Date_parse : list Z → option Z).

(** [toMs]: a number of milliseconds, a date text, or the current time. *)
Definition toMs (now : Z) (v : option json) : Z :=
  match v with
  | Some (JNum n) => int_of n
  | Some (JStr s) => Date_parse s ?? now
  | _ => now
  end.

Definition friendFromWire (now : Z) (w : json) : Friend :=
  let fingerprint := str0 (get w (js "fingerprint")) in
  let note := str0 (get w (js "note")) in
  let cardName := str0 (getq (get w (js "card")) (js "name")) in
  let last := get w (js "last") in
  mkNFriend fingerprint (if jeqb note [] then name_or_fp cardName fingerprint else note)
    (non_empty note) (non_empty cardName) (non_empty (str0 (get w (js "protocol")))) None
    (int_or (get w (js "unread")) 0) (int_or (get w (js "count")) 0)
    (match getq last (js "ts") with None => None | v => Some (toMs now v) end)
    (as_string (getq last (js "body")))
    (if is_true (get w (js "typing")) then Some true else None)
    (as_string (get w (js "added_at"))).

Definition pendingFromWire (w : json) : PendingRequest :=
  let peer := str0 (get w (js "peer")) in
  let incoming := get w (js "incoming") in
  mkRequest (str0 (get w (js "id"))) peer (name_or_fp (str0 (getq (getq incoming (js "card")) (js "name"))) peer)
    (str0 (getq incoming (js "body"))) (as_string (get w (js "created_at"))).

(** [by]: only the two seats that speak. *)
Definition by_of (v : option json) : option (list Z) := one_of [js "owner"; js "alter"] (as_string v).

Definition entryFromWire (now : Z) (w : json) : ConversationEntry :=
  mkEntry (int_or (get w (js "seq")) 0) (if is_str (get w (js "dir")) (js "out") then dir_out else dir_in)
    (str0 (get w (js "id"))) (str0 (get w (js "body"))) (toMs now (get w (js "ts")))
    (filled (get w (js "from"))) (filled (get w (js "type")))
    (if is_true (get w (js "auto")) then Some true else None) (by_of (get w (js "by")))
    (filled (get w (js "agent"))) (filled (get w (js "status"))) (filled (get w (js "artifact_name"))).

Definition groupFromWire (w : json) : GroupRow :=
  mkGroupRow (str0 (get w (js "gid"))) (str0 (get w (js "name"))) (str0 (get w (js "owner_fp")))
    (is_true (get w (js "mine"))) (int_or (get w (js "version")) 1) (int_or (get w (js "members")) 0)
    (int_or (get w (js "unread")) 0) (int_or (get w (js "count")) 0)
    (match get w (js "last_ts") with Some (JNum n) => if gt_Z n 0 then Some (int_of n) else None | _ => None end)
    (non_empty (str0 (get w (js "last_body")))) (profileFromWire (get w (js "profile"))).

Definition pinFromWire (now : Z) (w : json) : GroupPin :=
  mkPin (str0 (get w (js "id"))) (str0 (get w (js "from"))) (toMs now (get w (js "ts"))) (str0 (get w (js "body"))).

Definition applicationFromWire (now : Z) (w : json) : GroupApplication :=
  let applicant := str0 (get w (js "fp")) in
  let payment := get w (js "payment") in
  mkApplication applicant (name_or_fp (str0 (get w (js "name"))) applicant) (str0 (get w (js "note")))
    (match get w (js "ts") with None => None | v => Some (toMs now v) end)
    (match as_string (getq payment (js "tx_hash")) with
     | None => None
     | Some tx => Some (mkPayment tx (str0 (getq payment (js "amount"))) (str0 (getq payment (js "to"))) None None
                          (as_string (getq payment (js "note"))))
     end).

Definition memberFromWire (m : json) : GroupMember :=
  mkMember (str0 (get m (js "fp"))) (name_or_fp (str0 (get m (js "name"))) (str0 (get m (js "fp"))))
    (match get m (js "agents") with
     | Some (JArr (x :: l)) => Some (omap (λ a, filled (Some a)) (x :: l))
     | _ => None
     end).

Definition groupInfoFromWire (now : Z) (w : json) : GroupInfo :=
  mkGroupInfo (groupFromWire w) (map memberFromWire (as_array (get w (js "member_list")) ?? []))
    (map (pinFromWire now) (as_array (get w (js "pins")) ?? []))
    (if is_str (get w (js "my_role")) (js "owner") then MrOwner
     else if is_str (get w (js "my_role")) (js "admin") then MrAdmin
     else if is_true (get w (js "mine")) then MrOwner else MrMember)
    (map (applicationFromWire now) <$> as_array (get w (js "applications"))).

(** ** Errors *)

(** What a call can throw: an error of the interface, of the JSON-RPC
    endpoint, or anything else with its text. *)
Inductive Thrown :=
| ThrownNetwork (e : NetworkError)
| ThrownRpc (message : list Z) (code : number)
| ThrownOther (text : list Z).

Definition toNetworkError (error : Thrown) (method : list Z) : NetworkError :=
  match error with
  | ThrownNetwork e => e
  | ThrownRpc message code =>
      mkErr message (if bool_decide (code = num_of_Z JSONRPC_CLOSED) || bool_decide (code = num_of_Z JSONRPC_TIMEOUT)
                     then NetworkErrorCode.peerUnavailable else int_of code)
  | ThrownOther text => mkErr (method ++ js ": " ++ text) (-32603)
  end.

(** ** Notifications *)

(** [handleNotification]: the event it emits, if any, and the name cache. *)
Definition payment_of_message (payment : option json) : option JoinPayment :=
  match as_string (getq payment (js "tx_hash")) with
  | None => None
  | Some tx =>
      let proof := getq payment (js "proof") in
      Some (mkPayment tx (str0 (getq payment (js "amount"))) (str0 (getq payment (js "to")))
              (as_string (getq payment (js "payer")))
              (match as_string (getq proof (js "message")), as_string (getq proof (js "pubkey")), as_string (getq proof (js "sig")) with
               | Some m, Some k, Some s => Some (mkProof m k s)
               | _, _, _ => None
               end)
              (as_string (getq payment (js "note"))))
  end.

Definition known_name (names : list (list Z * list Z)) (peer : list Z) : list Z := map_get names peer ?? shortFp peer.

Definition received_message (names : list (list Z * list Z)) (now : Z) (p : json) : InboundMessage :=
  let peer := str0 (get p (js "peer")) in
  let m := present (get p (js "message")) ?? JObj [] in
  let type := str (get m (js "type")) (js "text") in
  let body := str0 (get m (js "body")) in
  mkInbound (str0 (get m (js "id"))) peer (known_name names peer)
    (if jeqb body [] then (if jeqb type (js "app_share") then js "[app share]" else []) else body)
    (toMs now (get m (js "ts"))) (int_of <$> as_number (get p (js "seq")))
    (if is_true (get m (js "auto")) then Some true else None) None None
    (if jeqb type (js "text") then None else Some type)
    (filled (get p (js "artifact_path"))) (filled (get m (js "artifact_name"))).

Definition received_group_message (names : list (list Z * list Z)) (now : Z) (p : json) : InboundMessage :=
  let peer := str0 (get p (js "peer")) in
  let m := present (get p (js "message")) ?? JObj [] in
  mkInbound (str0 (get m (js "id"))) peer (known_name names peer) (str0 (get m (js "body")))
    (toMs now (get m (js "ts"))) (int_of <$> as_number (get p (js "seq")))
    (if is_true (get m (js "auto")) then Some true else None) (by_of (get m (js "by"))) (filled (get m (js "agent")))
    None None None.

Definition handleNotification (now : Z) (method : list Z) (params : option json) (names : list (list Z * list Z))
  : option NetworkEvent * list (list Z * list Z) :=
  let p := match params with Some v => if is_object v then v else JObj [] | None => JObj [] end in
  let peer := str0 (get p (js "peer")) in
  let gid := str0 (get p (js "gid")) in
  let m := present (get p (js "message")) ?? JObj [] in
  let cardName := str0 (getq (get m (js "card")) (js "name")) in
  let on := is_true (get p (js "on")) in
  let tag k := jeqb method (js k) in
  if tag "message.received"%string then (Some (EvMessage (received_message names now p)), names)
  else if tag "friend.request"%string then
    (Some (EvFriendRequest (mkRequest (str0 (get p (js "pending_id"))) peer (name_or_fp cardName peer) (str0 (get m (js "body"))) None)), names)
  else if tag "friend.accepted"%string then
    let friend := friendFromWire now (present (get p (js "friend")) ?? JObj [(js "fingerprint", JStr peer)]) in
    (Some (EvFriendAccept friend), map_set names (fr_fp friend) (fr_name friend))
  else if tag "typing"%string then (Some (EvTyping peer on), names)
  else if tag "presence.changed"%string then (Some (EvPresence peer on), names)
  else if tag "group.message"%string then (Some (EvGroupMessage gid (received_group_message names now p)), names)
  else if tag "group.typing"%string then (Some (EvGroupTyping gid peer (non_empty (str0 (get p (js "agent")))) on), names)
  else if tag "group.updated"%string then (Some (EvGroupUpdate gid), names)
  else if tag "group.application"%string then
    (Some (EvGroupApplication gid (mkApplication peer (name_or_fp cardName peer) (str0 (get m (js "body"))) None
             (payment_of_message (get m (js "payment"))))), names)
  else (None, names).
End wire.

(** ** Profiles survive the wire *)

(** A profile the wire format can carry: the fields that mean nothing when
    empty are left out, enumerations have their literals, the price belongs to
    the paid policy. *)
Record wire_ok (p : GroupProfile) : Prop := {
  ok_template : gpf_template p ≠ Some [];
  ok_room : gpf_room p ≠ Some [];
  ok_who : ∀ x, gpf_speakWho p = Some x → x ∈ who_values;
  ok_join : ∀ x, gpf_join p = Some x → x ∈ join_values;
  ok_paid : gpf_join p ≠ Some (js "paid") → gpf_joinPrice p = None ∧ gpf_joinAddr p = None ∧ gpf_joinNote p = None;
  ok_price : gpf_joinPrice p ≠ Some [] ∧ gpf_joinAddr p ≠ Some [] ∧ gpf_joinNote p ≠ Some [];
  ok_wake : ∀ x, gpf_agentWake p = Some x → x ∈ wake_values;
  ok_tier : ∀ x, gpf_agentTier p = Some x → x ∈ tier_values;
  ok_cap : ∀ n, gpf_autoPerHour p = Some n → isFinite n = true ∧ n ≠ num_of_Z 0;
  ok_rounds : ∀ n, gpf_agentRounds p = Some n → isFinite n = true ∧ n ≠ num_of_Z 0;
  ok_admins : gpf_admins p ≠ Some [];
  ok_public : gpf_public p ≠ Some false;
  ok_tags : gpf_tags p ≠ Some [];
  ok_rules : gpf_rules p ≠ Some [];
}.

Lemma filled_str x : filled (JStr <$> x) = x ↔ x ≠ Some [].
Proof. destruct x as [[|c s]|]; cbn; try done. Qed.
Lemma filled_fix x : filled (JStr <$> x) ≠ Some [].
Proof. destruct x as [[|c s]|]; cbn; done. Qed.

Lemma one_of_id l x : one_of l x = x ↔ ∀ y, x = Some y → y ∈ l.
Proof.
  destruct x as [y|]; simpl; [|naive_solver]. destruct (bool_decide (y ∈ l)) eqn:E; bools; naive_solver.
Qed.
Lemma one_of_in l x y : one_of l x = Some y → y ∈ l ∧ x = Some y.
Proof. destruct x as [z|]; simpl; [|done]. destruct (bool_decide (z ∈ l)) eqn:E; bools; naive_solver. Qed.

Lemma nonzero_id x : nonzero (JNum <$> x) = x ↔ ∀ n, x = Some n → isFinite n = true ∧ n ≠ num_of_Z 0.
Proof.
  destruct x as [n|]; simpl; [|naive_solver]. destruct (isFinite n) eqn:Ef; simpl.
  - destruct (bool_decide (n = num_of_Z 0)) eqn:E; simpl; bools; naive_solver.
  - split; [done|]. intros Hn. destruct (Hn n eq_refl). congruence.
Qed.

Lemma string_list_id x : string_list ((λ l, JArr (map JStr l)) <$> x) = x ↔ x ≠ Some [].
Proof.
  destruct x as [[|s l]|]; cbn; [naive_solver| |naive_solver]. split; [done|]. intros _. do 2 f_equal.
  induction l as [|y l IH]; cbn; [done|]. by rewrite IH.
Qed.

Lemma only_true_id x : (if is_true (JBool <$> x) then Some true else None) = x ↔ x ≠ Some false.
Proof. destruct x as [[]|]; cbn; naive_solver. Qed.

Lemma filled_paid x : filled (JStr <$> x) = Some (js "paid") ↔ x = Some (js "paid").
Proof. destruct x as [[|c s]|]; cbn; [|naive_solver..]. split; [done|]. intros [=]. Qed.

(** What arrives of a profile that was sent. *)
Definition sent_profile (p : GroupProfile) : GroupProfile :=
  let paid x := if bool_decide (gpf_join p = Some (js "paid")) then filled (JStr <$> x) else None in
  mkProfile (filled (JStr <$> gpf_template p)) (filled (JStr <$> gpf_room p)) (gpf_speakHumans p) (gpf_speakAgents p)
    (one_of who_values (filled (JStr <$> gpf_speakWho p))) (one_of join_values (filled (JStr <$> gpf_join p)))
    (paid (gpf_joinPrice p)) (paid (gpf_joinAddr p)) (paid (gpf_joinNote p))
    (one_of wake_values (filled (JStr <$> gpf_agentWake p))) (one_of tier_values (filled (JStr <$> gpf_agentTier p)))
    (nonzero (JNum <$> gpf_autoPerHour p)) (nonzero (JNum <$> gpf_agentRounds p))
    (string_list ((λ l, JArr (map JStr l)) <$> gpf_admins p))
    (if is_true (JBool <$> gpf_public p) then Some true else None)
    (string_list ((λ l, JArr (map JStr l)) <$> gpf_tags p)) (filled (JStr <$> gpf_rules p)).

(** Evaluates one look-up in an object literal with conditional spreads. *)
Ltac lookup_literal :=
  cbn [get]; repeat (first
    [ rewrite prop_of_app, prop_of_opt; js_keys; cbn match
    | rewrite prop_of_opt; js_keys; cbn match
    | progress (cbn [prop_of app]; js_keys) ]);
  repeat match goal with |- context [match ?x with Some v => Some v | None => _ end] => destruct x end; try reflexivity.

Lemma wire_fields p :
  get (profileToWire p) (js "template") = JStr <$> gpf_template p ∧
  get (profileToWire p) (js "room") = JStr <$> gpf_room p ∧
  get (profileToWire p) (js "speak_humans") = Some (JBool (gpf_speakHumans p)) ∧
  get (profileToWire p) (js "speak_agents") = Some (JBool (gpf_speakAgents p)) ∧
  get (profileToWire p) (js "speak_who") = JStr <$> gpf_speakWho p ∧
  get (profileToWire p) (js "join") = JStr <$> gpf_join p ∧
  get (profileToWire p) (js "join_price") = JStr <$> gpf_joinPrice p ∧
  get (profileToWire p) (js "join_addr") = JStr <$> gpf_joinAddr p ∧
  get (profileToWire p) (js "join_note") = JStr <$> gpf_joinNote p ∧
  get (profileToWire p) (js "agent_wake") = JStr <$> gpf_agentWake p ∧
  get (profileToWire p) (js "agent_tier") = JStr <$> gpf_agentTier p ∧
  get (profileToWire p) (js "auto_per_hour") = JNum <$> gpf_autoPerHour p ∧
  get (profileToWire p) (js "agent_rounds") = JNum <$> gpf_agentRounds p ∧
  get (profileToWire p) (js "admins") = (λ l, JArr (map JStr l)) <$> gpf_admins p ∧
  get (profileToWire p) (js "public") = JBool <$> gpf_public p ∧
  get (profileToWire p) (js "tags") = (λ l, JArr (map JStr l)) <$> gpf_tags p ∧
  get (profileToWire p) (js "rules") = JStr <$> gpf_rules p.
Proof. unfold profileToWire. split_and!; lookup_literal. Qed.

Lemma profile_of_sent p : profile_of_object (profileToWire p) = sent_profile p.
Proof.
  pose proof (wire_fields p) as Hf. unfold profile_of_object, sent_profile.
  generalize dependent (profileToWire p). intros w Hf. destruct_and! Hf. cbv zeta.
  repeat match goal with E : get w (js ?k) = _ |- _ => rewrite E; clear E end.
  rewrite (bool_decide_ext _ _ (filled_paid (gpf_join p))).
  by destruct (gpf_speakHumans p), (gpf_speakAgents p).
Qed.

Lemma paid_only_id (paid : bool) x :
  (if paid then filled (JStr <$> x) else None) = x ↔ x ≠ Some [] ∧ (paid = false → x = None).
Proof. destruct paid; [rewrite filled_str; naive_solver|]. destruct x; naive_solver. Qed.

Lemma one_of_filled_id l x : [] ∉ l → one_of l (filled (JStr <$> x)) = x ↔ ∀ y, x = Some y → y ∈ l.
Proof.
  intros Hl. rewrite <- one_of_id. destruct x as [[|c s]|]; cbn; try done.
  destruct (bool_decide ([] ∈ l)) eqn:E; bools; naive_solver.
Qed.

Lemma filled_nonempty v x : filled v = Some x → x ≠ [].
Proof. destruct v as [[]|]; cbn; try done. by intros [-> ?]%non_empty_Some. Qed.

Section profiles.
Context `{JsonText}.

Lemma profile_roundtrip_eq (p : GroupProfile) : sent_profile p = p ↔ wire_ok p.
Proof.
  unfold sent_profile.
  assert (Hn : ∀ l, l ∈ [who_values; join_values; wake_values; tier_values] → [] ∉ l).
  { intros l Hl. repeat (apply elem_of_cons in Hl as [->|Hl]; [apply (bool_decide_unpack _); vm_compute; exact I|]).
    by apply elem_of_nil in Hl. }
  destruct p; cbn. split.
  - intros [= E1 E2 E3 E4 E5 E6 E7 E8 E9 E10 E11 E12 E13 E14 E15].
    rewrite filled_str in E1, E2, E15. rewrite one_of_filled_id in E3, E4, E8, E9 by (apply Hn; set_solver).
    rewrite paid_only_id in E5, E6, E7. rewrite nonzero_id in E10, E11. rewrite string_list_id in E12, E14.
    rewrite only_true_id in E13. rewrite bool_decide_eq_false in E5, E6, E7. constructor; cbn; naive_solver.
  - intros []; cbn in *. f_equal; try by apply filled_str.
    + by apply one_of_filled_id; [apply Hn; set_solver|].
    + by apply one_of_filled_id; [apply Hn; set_solver|].
    + apply paid_only_id. rewrite bool_decide_eq_false. naive_solver.
    + apply paid_only_id. rewrite bool_decide_eq_false. naive_solver.
    + apply paid_only_id. rewrite bool_decide_eq_false. naive_solver.
    + by apply one_of_filled_id; [apply Hn; set_solver|].
    + by apply one_of_filled_id; [apply Hn; set_solver|].
    + by apply nonzero_id.
    + by apply nonzero_id.
    + by apply string_list_id.
    + by apply only_true_id.
    + by apply string_list_id.
Qed.

(** A group profile survives the wire exactly when it is one the wire can
    carry; sending any other profile loses the offending fields. *)
Theorem profile_roundtrip (p : GroupProfile) :
  profileFromWire (Some (profileToWire p)) = Some p ↔ wire_ok p.
Proof.
  rewrite <- profile_roundtrip_eq. unfold profileFromWire. cbn [is_object profileToWire].
  rewrite profile_of_sent. apply (inj_iff Some).
Qed.

(** A list field that is empty says the same as one that is absent. *)
Definition drop_empty (l : option (list (list Z))) : option (list (list Z)) := match l with Some [] => None | l => l end.
Definition tidy (p : GroupProfile) : GroupProfile :=
  mkProfile (gpf_template p) (gpf_room p) (gpf_speakHumans p) (gpf_speakAgents p) (gpf_speakWho p) (gpf_join p) (gpf_joinPrice p)
    (gpf_joinAddr p) (gpf_joinNote p) (gpf_agentWake p) (gpf_agentTier p) (gpf_autoPerHour p) (gpf_agentRounds p)
    (drop_empty (gpf_admins p)) (gpf_public p) (drop_empty (gpf_tags p)) (gpf_rules p).

Lemma sent_tidy p : sent_profile p = sent_profile (tidy p).
Proof. destruct p as [? ? ? ? ? ? ? ? ? ? ? ? ? [[|]|] ? [[|]|] ?]; reflexivity. Qed.

Lemma nonzero_ok v n : nonzero v = Some n → isFinite n = true ∧ n ≠ num_of_Z 0.
Proof.
  destruct v as [[]|]; cbn; try done. destruct (isFinite _) eqn:Ef; [|done]. cbn.
  destruct (bool_decide _) eqn:E; cbn; bools; naive_solver.
Qed.

Lemma decoded_ok v : wire_ok (tidy (profile_of_object v)).
Proof.
  assert (Hf : ∀ w, filled w ≠ Some []) by (intros w Hw; by apply filled_nonempty in Hw).
  constructor; unfold profile_of_object, tidy; cbn; try by apply Hf.
  - by intros x [? _]%one_of_in.
  - by intros x [? _]%one_of_in.
  - intros Hj. rewrite !bool_decide_eq_false_2; [done|]. intros E. apply Hj. rewrite E. reflexivity.
  - case_bool_decide; split_and!; try apply Hf; done.
  - by intros x [? _]%one_of_in.
  - by intros x [? _]%one_of_in.
  - intros n. apply nonzero_ok.
  - intros n. apply nonzero_ok.
  - by destruct (string_list _) as [[|]|].
  - by destruct (is_true _).
  - by destruct (string_list _) as [[|]|].
Qed.

(** Reading a profile and sending it back changes nothing but lists left
    empty: whatever the peer answered, the profile it was read as arrives
    again the same. *)
Theorem profile_resend (v : option json) (p : GroupProfile) :
  profileFromWire v = Some p → profileFromWire (Some (profileToWire p)) = Some (tidy p).
Proof.
  intros Hv. assert (∃ w, p = profile_of_object w) as [w ->].
  { unfold profileFromWire in Hv. repeat case_match; naive_solver. }
  pose proof (proj2 (profile_roundtrip_eq _) (decoded_ok w)) as Hr. cbn [is_object profileToWire profileFromWire] in *.
  unfold profileFromWire. cbn [is_object profileToWire]. by rewrite profile_of_sent, sent_tidy, Hr.
Qed.
End profiles.

(** ** Applications to paid groups *)

(** The two ways an application reaches the owner disagree: the
    notification carries the paying account and its signature, the list of
    waiting applications never does. *)
Theorem listed_application_unproven (Date_parse : list Z → option Z) (now : Z) (w : json) (pay : JoinPayment) :
  ap_payment (applicationFromWire Date_parse now w) = Some pay →
  pay_payer pay = None ∧ pay_proof pay = None ∧
  ∃ pay', payment_of_message (get w (js "payment")) = Some pay' ∧
    pay_tx_hash pay' = pay_tx_hash pay ∧ pay_amount pay' = pay_amount pay ∧ pay_to pay' = pay_to pay ∧
    pay_payer pay' = as_string (getq (get w (js "payment")) (js "payer")).
Proof.
  unfold applicationFromWire, payment_of_message. cbn. destruct (as_string (getq _ (js "tx_hash"))); [|done].
  intros [= <-]. cbn. naive_solver.
Qed.

(** ** Witnesses *)

Definition demo_profile_wire : json :=
  JObj [(js "speak_humans", JBool true); (js "join", JStr (js "paid")); (js "join_price", JStr (js "1.5"));
        (js "agent_wake", JStr (js "sometimes")); (js "admins", JArr [JBool true])].

Definition demo_profile : GroupProfile :=
  mkProfile None None true false None (Some (js "paid")) (Some (js "1.5")) None None None None None None (Some []) None None None.

Lemma profile_resend_witness :
  profileFromWire (H := CodedJson) (Some demo_profile_wire) = Some demo_profile ∧
  profileFromWire (H := CodedJson) (Some (profileToWire demo_profile)) = Some (tidy demo_profile).
Proof.
  assert (Hv : profileFromWire (H := CodedJson) (Some demo_profile_wire) = Some demo_profile) by (vm_compute; reflexivity).
  split; [exact Hv|]. exact (profile_resend (H := CodedJson) _ _ Hv).
Defined.

Definition demo_payment : json :=
  JObj [(js "tx_hash", JStr (js "0xab")); (js "amount", JStr (js "1")); (js "to", JStr (js "acc")); (js "payer", JStr (js "me"))].
Definition demo_application : json := JObj [(js "fp", JStr (js "f1")); (js "payment", demo_payment)].

Lemma listed_application_unproven_witness :
  pay_payer <$> ap_payment (applicationFromWire (λ _, None) 0 demo_application) = Some None ∧
  pay_payer <$> payment_of_message (Some demo_payment) = Some (Some (js "me")).
Proof.
  destruct (listed_application_unproven (λ _, None) 0 demo_application
    (mkPayment (js "0xab") (js "1") (js "acc") None None None) ltac:(vm_compute; reflexivity)) as (_ & _ & pay' & _ & _).
  split; vm_compute; reflexivity.
Defined.
