(* ===== verification/SoulnetClient.v ===== *)
(** * The peer process behind the client (network/soulnet.ts)

    [createSoulnetNetworkClient] keeps one peer process running: it spawns it
    on the first call, restarts it with a growing delay when it dies, makes
    calls wait until the handshake is answered, and stops it on [dispose].
    The closure's variables are a record; every callback (process error and
    exit, the handshake's answer, the restart timer, a waiter's timer, the
    stages of [dispose]) is a step.  What the platform does (where the binary
    is found, whether spawning throws, exit codes, lines of the peer) is an
    argument of the step.  Each process owns a JSON-RPC endpoint. *)

From S2P Require Import Prelude JsString JsMap Json Policy Network JsonRpc SoulnetWire.
From Stdlib Require Import QArith Qround.
#[local] Open Scope Z_scope.

Definition DEFAULT_RELAY : list Z := js "https://relay.startupworld.cn".

Record SoulnetOptions := mkOptions {
  op_home : list Z; op_relay : option (list Z); op_displayName : option (list Z);
  op_requestTimeoutMs : option Z; op_initialMs : option Z; op_maxMs : option Z; op_factor : option Q }.

Definition relay_of (o : SoulnetOptions) : list Z :=
  match op_relay o with
  | Some r => if jeqb (trim r) [] then DEFAULT_RELAY else trim r
  | None => DEFAULT_RELAY
  end.
Definition requestTimeoutMs (o : SoulnetOptions) : Z := op_requestTimeoutMs o ?? 30000.
Definition backoffInitial (o : SoulnetOptions) : Z := op_initialMs o ?? 500.
Definition backoffMax (o : SoulnetOptions) : Z := op_maxMs o ?? 30000.
Definition backoffFactor (o : SoulnetOptions) : Q := op_factor o ?? inject_Z 2.

Inductive BackendState := StStopped | StStarting | StReady | StRestarting | StError.
#[export] Instance BackendState_eq_dec : EqDecision BackendState.
Proof. solve_decision. Defined.

Record BackendStatus := mkStatus {
  bs_state : BackendState; bs_pid : option Z; bs_restarts : Z; bs_lastError : option (list Z);
  bs_relay : list Z; bs_home : list Z; bs_protocol : option (list Z); bs_version : option (list Z);
  bs_binary : option (list Z); bs_binarySource : option (list Z) }.

(** A spawned process: its pid, the [exited] flag of its handlers, its
    endpoint, and whether the handshake's answer has been handled. *)
Record Proc := mkProc { ps_pid : option Z; ps_exited : bool; ps_ep : Endpoint; ps_greeted : bool; ps_killed : bool }.

(** What a call of [ready] was answered. *)
Inductive Ready := ReadyOn (proc : nat) | NotReady (e : NetworkError).

Record Client := mkClient {
  cl_procs : list Proc;                    (** every process ever spawned *)
  cl_child : option nat;
  cl_endpoint : option nat;
  cl_disposed : bool;
  cl_started : bool;
  cl_restarts : Z;
  cl_backoffMs : Z;
  cl_restartTimer : option Z;              (** its delay *)
  cl_status : BackendStatus;
  cl_cachedCardUri : option (list Z);
  cl_friendNames : list (list Z * list Z);
  cl_readyWaiters : list nat;
  cl_nextWaiter : nat;
  cl_answers : list (nat * Ready);         (** settled [ready] promises, in order *)
  cl_statuses : list BackendStatus;        (** status events emitted *)
  cl_events : list NetworkEvent;           (** the other events emitted *)
}.

Section updates.
Implicit Types (c : Client).
Definition with_procs (l : list Proc) c : Client :=
  mkClient l (cl_child c) (cl_endpoint c) (cl_disposed c) (cl_started c) (cl_restarts c) (cl_backoffMs c) (cl_restartTimer c)
    (cl_status c) (cl_cachedCardUri c) (cl_friendNames c) (cl_readyWaiters c) (cl_nextWaiter c) (cl_answers c) (cl_statuses c) (cl_events c).
Definition with_child (x : option nat) c : Client :=
  mkClient (cl_procs c) x (cl_endpoint c) (cl_disposed c) (cl_started c) (cl_restarts c) (cl_backoffMs c) (cl_restartTimer c)
    (cl_status c) (cl_cachedCardUri c) (cl_friendNames c) (cl_readyWaiters c) (cl_nextWaiter c) (cl_answers c) (cl_statuses c) (cl_events c).
Definition with_endpoint (x : option nat) c : Client :=
  mkClient (cl_procs c) (cl_child c) x (cl_disposed c) (cl_started c) (cl_restarts c) (cl_backoffMs c) (cl_restartTimer c)
    (cl_status c) (cl_cachedCardUri c) (cl_friendNames c) (cl_readyWaiters c) (cl_nextWaiter c) (cl_answers c) (cl_statuses c) (cl_events c).
Definition with_flags (disposed started : bool) c : Client :=
  mkClient (cl_procs c) (cl_child c) (cl_endpoint c) disposed started (cl_restarts c) (cl_backoffMs c) (cl_restartTimer c)
    (cl_status c) (cl_cachedCardUri c) (cl_friendNames c) (cl_readyWaiters c) (cl_nextWaiter c) (cl_answers c) (cl_statuses c) (cl_events c).
Definition with_backoff (restarts backoff : Z) (timer : option Z) c : Client :=
  mkClient (cl_procs c) (cl_child c) (cl_endpoint c) (cl_disposed c) (cl_started c) restarts backoff timer
    (cl_status c) (cl_cachedCardUri c) (cl_friendNames c) (cl_readyWaiters c) (cl_nextWaiter c) (cl_answers c) (cl_statuses c) (cl_events c).
Definition with_status (s : BackendStatus) (l : list BackendStatus) c : Client :=
  mkClient (cl_procs c) (cl_child c) (cl_endpoint c) (cl_disposed c) (cl_started c) (cl_restarts c) (cl_backoffMs c) (cl_restartTimer c)
    s (cl_cachedCardUri c) (cl_friendNames c) (cl_readyWaiters c) (cl_nextWaiter c) (cl_answers c) l (cl_events c).
Definition with_card (u : option (list Z)) c : Client :=
  mkClient (cl_procs c) (cl_child c) (cl_endpoint c) (cl_disposed c) (cl_started c) (cl_restarts c) (cl_backoffMs c) (cl_restartTimer c)
    (cl_status c) u (cl_friendNames c) (cl_readyWaiters c) (cl_nextWaiter c) (cl_answers c) (cl_statuses c) (cl_events c).
Definition with_waiters (w : list nat) (next : nat) (a : list (nat * Ready)) c : Client :=
  mkClient (cl_procs c) (cl_child c) (cl_endpoint c) (cl_disposed c) (cl_started c) (cl_restarts c) (cl_backoffMs c) (cl_restartTimer c)
    (cl_status c) (cl_cachedCardUri c) (cl_friendNames c) w next a (cl_statuses c) (cl_events c).
Definition with_events (names : list (list Z * list Z)) (l : list NetworkEvent) c : Client :=
  mkClient (cl_procs c) (cl_child c) (cl_endpoint c) (cl_disposed c) (cl_started c) (cl_restarts c) (cl_backoffMs c) (cl_restartTimer c)
    (cl_status c) (cl_cachedCardUri c) names (cl_readyWaiters c) (cl_nextWaiter c) (cl_answers c) (cl_statuses c) l.
End updates.

Definition createSoulnetNetworkClient (o : SoulnetOptions) : Client :=
  mkClient [] None None false false 0 (backoffInitial o) None
    (mkStatus StStopped None 0 None (relay_of o) (op_home o) None None None None) None [] [] 0 [] [] [].

(** [setStatus] with a patch, and [clearError]. *)
Definition setStatus (patch : BackendStatus → BackendStatus) (c : Client) : Client :=
  let s := patch (cl_status c) in with_status s (cl_statuses c ++ [s]) c.
Definition clearError (c : Client) : Client :=
  let s := cl_status c in
  with_status (mkStatus (bs_state s) (bs_pid s) (bs_restarts s) None (bs_relay s) (bs_home s) (bs_protocol s) (bs_version s)
                 (bs_binary s) (bs_binarySource s)) (cl_statuses c) c.
Definition to_state (st : BackendState) (s : BackendStatus) : BackendStatus :=
  mkStatus st (bs_pid s) (bs_restarts s) (bs_lastError s) (bs_relay s) (bs_home s) (bs_protocol s) (bs_version s) (bs_binary s) (bs_binarySource s).
Definition to_error (message : list Z) (s : BackendStatus) : BackendStatus :=
  mkStatus StError (bs_pid s) (bs_restarts s) (Some message) (bs_relay s) (bs_home s) (bs_protocol s) (bs_version s) (bs_binary s) (bs_binarySource s).
Definition to_restarting (restarts : Z) (reason : list Z) (s : BackendStatus) : BackendStatus :=
  mkStatus StRestarting (bs_pid s) restarts (Some reason) (bs_relay s) (bs_home s) (bs_protocol s) (bs_version s) (bs_binary s) (bs_binarySource s).
Definition to_starting (binary source : list Z) (s : BackendStatus) : BackendStatus :=
  mkStatus StStarting (bs_pid s) (bs_restarts s) (bs_lastError s) (bs_relay s) (bs_home s) (bs_protocol s) (bs_version s) (Some binary) (Some source).

(** Settling a [ready] promise: only the first settlement counts. *)
Definition answered (c : Client) (w : nat) : bool := bool_decide (w ∈ map fst (cl_answers c)).
Definition answer (r : Ready) (c : Client) (w : nat) : Client :=
  if answered c w then c else with_waiters (cl_readyWaiters c) (cl_nextWaiter c) (cl_answers c ++ [(w, r)]) c.
(** [const waiters = readyWaiters; readyWaiters = []; for (w of waiters) ...]. *)
Definition settle_waiters (r : Ready) (c : Client) : Client :=
  fold_left (answer r) (cl_readyWaiters c) (with_waiters [] (cl_nextWaiter c) (cl_answers c) c).
Definition failWaiters (e : NetworkError) (c : Client) : Client := settle_waiters (NotReady e) c.

Definition peer_unavailable (message : list Z) : NetworkError := mkErr message NetworkErrorCode.peerUnavailable.

(** [Math.round]. *)
Definition js_round (q : Q) : Z := Qfloor (q + (1 # 2)).
Definition next_backoff (o : SoulnetOptions) (ms : Z) : Z := Z.min (backoffMax o) (js_round (inject_Z ms * backoffFactor o)).

Definition scheduleRestart (o : SoulnetOptions) (reason : list Z) (c : Client) : Client :=
  if cl_disposed c then c
  else
    let restarts := cl_restarts c + 1 in
    let delay := cl_backoffMs c in
    let c1 := with_backoff restarts (next_backoff o delay) (cl_restartTimer c) c in
    let c2 := setStatus (to_restarting restarts reason) c1 in
    with_backoff (cl_restarts c2) (cl_backoffMs c2) (Some delay) c2.

(** What the platform does when the peer is spawned. *)
Inductive Spawned :=
| NoBinary (message : list Z)
| SpawnThrows (binary source reason : list Z)
| SpawnNoPipes (binary source : list Z) (pid : option Z)
| SpawnOk (binary source : list Z) (pid : option Z) (io : option (list Z)).

Definition initialize_params (o : SoulnetOptions) : json :=
  let name := trim (op_displayName o ?? []) in
  if jeqb name [] then JObj [] else JObj [(js "name", JStr name)].

(** The process of a successful spawn: its endpoint with the handshake sent. *)
Definition greeting (o : SoulnetOptions) (io : option (list Z)) : Endpoint :=
  (request io (js "initialize") (Some (initialize_params o)) 15000 false new_endpoint).2.

Definition spawnPeer (o : SoulnetOptions) (sp : Spawned) (c : Client) : Client :=
  if cl_disposed c then c
  else match sp with
  | NoBinary message => failWaiters (peer_unavailable message) (setStatus (to_error message) c)
  | SpawnThrows binary source reason =>
      scheduleRestart o (js "spawn failed: " ++ reason) (setStatus (to_starting binary source) (clearError c))
  | SpawnNoPipes binary source pid =>
      let c1 := setStatus (to_starting binary source) (clearError c) in
      let c2 := with_procs (cl_procs c1 ++ [mkProc pid true new_endpoint true true]) c1 in
      scheduleRestart o (js "spawned process has no stdio pipes") (with_child (Some (length (cl_procs c))) c2)
  | SpawnOk binary source pid io =>
      let c1 := setStatus (to_starting binary source) (clearError c) in
      let c2 := with_procs (cl_procs c1 ++ [mkProc pid false (greeting o io) false false]) c1 in
      with_endpoint (Some (length (cl_procs c))) (with_child (Some (length (cl_procs c))) c2)
  end.

(** ** Callbacks *)

Definition update_proc (i : nat) (f : Proc → Proc) (c : Client) : Client := with_procs (alter f i (cl_procs c)) c.
(** Closing the endpoint rejects a handshake still under way; its handler
    finds [exited] set and does nothing. *)
Definition exited_with (err : option (list Z)) (p : Proc) : Proc := mkProc (ps_pid p) true (close err (ps_ep p)) true (ps_killed p).
Definition forget_endpoint (i : nat) (c : Client) : Client :=
  if bool_decide (cl_endpoint c = Some i) then with_endpoint None c else c.
Definition forget_child (i : nat) (c : Client) : Client :=
  if bool_decide (cl_child c = Some i) then with_child None c else c.

Definition proc_error (o : SoulnetOptions) (i : nat) (message : list Z) (c : Client) : Client :=
  match cl_procs c !! i with
  | Some p =>
      if ps_exited p then c
      else scheduleRestart o (js "process error: " ++ message) (update_proc i (exited_with (Some message)) (forget_endpoint i c))
  | None => c
  end.

Definition exit_reason (code : option Z) (signal : option (list Z)) : list Z :=
  js "exit code=" ++ ((dec <$> code) ?? js "null") ++ js " signal=" ++ (signal ?? js "none").

Definition proc_exit (o : SoulnetOptions) (i : nat) (code : option Z) (signal : option (list Z)) (c : Client) : Client :=
  match cl_procs c !! i with
  | Some p =>
      if ps_exited p then c
      else
        let c1 := update_proc i (exited_with None) (forget_child i (forget_endpoint i c)) in
        if cl_disposed c1 then setStatus (to_state StStopped) c1
        else scheduleRestart o (exit_reason code signal) c1
  | None => c
  end.

Definition or_else {A} (a b : option A) : option A := match a with Some _ => a | None => b end.

Definition to_ready (pid : option Z) (r : json) (s : BackendStatus) : BackendStatus :=
  mkStatus StReady (or_else pid (bs_pid s)) (bs_restarts s) (bs_lastError s) (as_string (get r (js "relay")) ?? bs_relay s)
    (as_string (get r (js "home")) ?? bs_home s) (or_else (as_string (get r (js "protocol"))) (bs_protocol s))
    (or_else (as_string (get r (js "version"))) (bs_version s)) (bs_binary s) (bs_binarySource s).

(** The settlement of the handshake, request 1 of the endpoint. *)
Definition greeting_answer (p : Proc) : option Outcome := snd <$> findb (λ so, so.1 =? 1) (ep_settled (ps_ep p)).

Definition set_greeted (p : Proc) : Proc := mkProc (ps_pid p) (ps_exited p) (ps_ep p) true (ps_killed p).
Definition set_killed (p : Proc) : Proc := mkProc (ps_pid p) (ps_exited p) (ps_ep p) (ps_greeted p) true.

(** The [then] and [catch] handlers of the handshake: they run right after the
    step that settled it. *)
Definition initialize_done (o : SoulnetOptions) (i : nat) (c : Client) : Client :=
  match cl_procs c !! i with
  | Some p =>
      if ps_greeted p then c
      else match greeting_answer p with
      | None => c
      | Some (Resolved result) =>
          let r := match result with Some v => if is_object v then v else JObj [] | None => JObj [] end in
          let c1 := with_card None (with_backoff (cl_restarts c) (backoffInitial o) (cl_restartTimer c) (update_proc i set_greeted c)) in
          settle_waiters (ReadyOn i) (setStatus (to_ready (ps_pid p) r) c1)
      | Some (RejectedWith _ _ _) =>
          let c1 := update_proc i set_greeted c in
          if ps_exited p || cl_disposed c then c1 else update_proc i set_killed c1
      end
  | None => c
  end.

(** The restart timer fires. *)
Definition restart_fires (o : SoulnetOptions) (sp : Spawned) (c : Client) : Client :=
  match cl_restartTimer c with
  | Some _ => spawnPeer o sp (with_backoff (cl_restarts c) (cl_backoffMs c) None c)
  | None => c
  end.

Definition start (o : SoulnetOptions) (sp : Spawned) (c : Client) : Client :=
  if cl_started c || cl_disposed c then c else spawnPeer o sp (with_flags (cl_disposed c) true c).

Definition is_ready (c : Client) : option nat :=
  i ← cl_endpoint c; p ← cl_procs c !! i;
  if negb (ep_closed (ps_ep p)) && bool_decide (bs_state (cl_status c) = StReady) then Some i else None.

(** [ready] answers with a promise, the next number: settled at once, or
    waiting.  [sp] is what spawning does, should this call start the peer. *)
Definition settled_promise (r : Ready) (c : Client) : Client :=
  with_waiters (cl_readyWaiters c) (S (cl_nextWaiter c)) (cl_answers c ++ [(cl_nextWaiter c, r)]) c.
Definition waiting_promise (c : Client) : Client :=
  with_waiters (cl_readyWaiters c ++ [cl_nextWaiter c]) (S (cl_nextWaiter c)) (cl_answers c) c.

Definition ready (o : SoulnetOptions) (sp : Spawned) (c : Client) : Client :=
  if cl_disposed c then settled_promise (NotReady (peer_unavailable (js "soulnet backend is disposed"))) c
  else match is_ready c with
  | Some i => settled_promise (ReadyOn i) c
  | None =>
      let c1 := if cl_started c then c else start o sp c in
      if bool_decide (bs_state (cl_status c1) = StError)
      then settled_promise (NotReady (peer_unavailable (bs_lastError (cl_status c1) ?? js "soulnet backend unavailable"))) c1
      else waiting_promise c1
  end.

(** A waiter's timer.  The list is filtered by [w.resolve !== resolve], but
    what was pushed is a wrapper around [resolve]: nothing is removed. *)
Definition waiter_timeout (w : nat) (message : list Z) (c : Client) : Client :=
  if bool_decide (w ∈ cl_readyWaiters c) then answer (NotReady (peer_unavailable message)) c w else c.

(** A line of the peer: the endpoint handles it, and a notification becomes an
    event for the listeners. *)
Definition peer_line `{JsonText} (Date_parse : list Z → option Z) (now : Z) (i : nat) (line : list Z) (c : Client) : Client :=
  match cl_procs c !! i with
  | Some p =>
      let ep := handleLine line (ps_ep p) in
      let fresh := drop (length (ep_notified (ps_ep p))) (ep_notified ep) in
      let c1 := update_proc i (λ p, mkProc (ps_pid p) (ps_exited p) ep (ps_greeted p) (ps_killed p)) c in
      fold_left (λ c n, let '(ev, names) := handleNotification Date_parse now n.1 n.2 (cl_friendNames c) in
                        with_events names (cl_events c ++ match ev with Some e => [e] | None => [] end) c) fresh c1
  | None => c
  end.

(** The other things that happen to an endpoint: requests, timeouts, the end
    of the stream. *)
Definition endpoint_step (i : nat) (f : Endpoint → Endpoint) (c : Client) : Client :=
  update_proc i (λ p, mkProc (ps_pid p) (ps_exited p) (f (ps_ep p)) (ps_greeted p) (ps_killed p)) c.

(** [dispose], up to the first [await] and after the exit. *)
Definition dispose (io : option (list Z)) (c : Client) : Client :=
  if cl_disposed c then c
  else
    let c1 := with_backoff (cl_restarts c) (cl_backoffMs c) None (with_flags true (cl_started c) c) in
    let c2 := failWaiters (peer_unavailable (js "soulnet backend is disposed")) c1 in
    match cl_child c with
    | None => setStatus (to_state StStopped) c2
    | Some i =>
        match cl_endpoint c with
        | Some j => endpoint_step j (λ e, if ep_closed e then e else (request io (js "shutdown") None 2000 false e).2) c2
        | None => c2
        end
    end.
Definition dispose_end (j : option nat) (c : Client) : Client :=
  if negb (cl_disposed c) then c else
  let c1 := match j with Some j => endpoint_step j (close None) c | None => c end in
  setStatus (to_state StStopped) c1.

(** ** Runs *)

Inductive ClientOp :=
| OpStart (sp : Spawned)
| OpReady (sp : Spawned)
| OpReadyTimeout (w : nat) (message : list Z)
| OpRestart (sp : Spawned)
| OpProcError (i : nat) (message : list Z)
| OpProcExit (i : nat) (code : option Z) (signal : option (list Z))
| OpLine (now : Z) (i : nat) (line : list Z)
| OpRequest (i : nat) (io : option (list Z)) (method : list Z) (params : option json) (timeoutMs : Z)
| OpRequestTimeout (i : nat) (id : Z) (text : list Z)
| OpStreamEnd (i : nat)
| OpDispose (io : option (list Z))
| OpDisposeEnd (j : option nat).

Section runs.
Context `{JsonText} (Date_parse : list Z → option Z) (o : SoulnetOptions).

(** Handlers of settled handshakes run before the next step. *)
Definition flush (c : Client) : Client := fold_left (λ c i, initialize_done o i c) (seq 0 (length (cl_procs c))) c.

Definition client_op (x : ClientOp) (c : Client) : Client :=
  match x with
  | OpStart sp => start o sp c
  | OpReady sp => ready o sp c
  | OpReadyTimeout w m => waiter_timeout w m c
  | OpRestart sp => restart_fires o sp c
  | OpProcError i m => proc_error o i m c
  | OpProcExit i code sg => proc_exit o i code sg c
  | OpLine now i l => peer_line Date_parse now i l c
  | OpRequest i io m p t => endpoint_step i (λ e, (request io m p t false e).2) c
  | OpRequestTimeout i id t => endpoint_step i (timeout id t) c
  | OpStreamEnd i => endpoint_step i (close None) c
  | OpDispose io => dispose io c
  | OpDisposeEnd j => dispose_end j c
  end.

Definition client_step (x : ClientOp) (c : Client) : Client := flush (client_op x c).

Inductive client_reachable : Client → Prop :=
| reach_init : client_reachable (createSoulnetNetworkClient o)
| reach_step x c : client_reachable c → client_reachable (client_step x c).
End runs.

(** Processes whose end has not been reported. *)
Definition live (c : Client) : nat := length (filterb (λ p, negb (ps_exited p)) (cl_procs c)).
Definition pending_restart (c : Client) : nat := match cl_restartTimer c with Some _ => 1 | None => 0 end.

(** ** The process invariant *)

Definition live_in (l : list Proc) : nat := length (filterb (λ p, negb (ps_exited p)) l).

Lemma live_alter_same f i l : (∀ p, ps_exited (f p) = ps_exited p) → live_in (alter f i l) = live_in l.
Proof. intros Hf. apply count_alter_same. intros p. by rewrite Hf. Qed.

Lemma live_alter_exit f i l p :
  l !! i = Some p → ps_exited p = false → ps_exited (f p) = true → live_in l = S (live_in (alter f i l)).
Proof. intros Hl Hp Hf. eapply (count_alter_drop (λ p, negb (ps_exited p)) f i l p Hl); by rewrite ?Hp, ?Hf. Qed.

Lemma live_pos l i p : l !! i = Some p → ps_exited p = false → (1 ≤ live_in l)%nat.
Proof. intros Hl Hp. rewrite (live_alter_exit (exited_with None) i l p) by done. lia. Qed.

Lemma live_snoc l p : live_in (l ++ [p]) = (live_in l + if ps_exited p then 0 else 1)%nat.
Proof. unfold live_in. rewrite count_snoc. by destruct (ps_exited p). Qed.

(** What the invariant reads. *)
Definition core (c : Client) := (cl_procs c, cl_endpoint c, cl_disposed c, cl_started c, cl_restartTimer c, bs_state (cl_status c)).

Record proc_inv (c : Client) : Prop := {
  pi_one : (live c + pending_restart c ≤ 1)%nat;
  pi_run : cl_started c = true → cl_disposed c = false → bs_state (cl_status c) ≠ StError → (live c + pending_restart c = 1)%nat;
  pi_error : bs_state (cl_status c) = StError → (live c + pending_restart c = 0)%nat;
  pi_idle : cl_started c = false → cl_procs c = [] ∧ cl_restartTimer c = None;
  pi_disposed : cl_disposed c = true → cl_restartTimer c = None;
  pi_greeted : ∀ i p, cl_procs c !! i = Some p → ps_exited p = true → ps_greeted p = true;
  pi_endpoint : ∀ i, cl_endpoint c = Some i → ∃ p, cl_procs c !! i = Some p ∧ ps_exited p = false;
}.

Lemma proc_inv_core c c' : core c' = core c → proc_inv c → proc_inv c'.
Proof.
  unfold core. intros [= E1 E2 E3 E4 E5 E6] [H1 H2 H3 H4 H5 H6 H7].
  constructor; unfold live, pending_restart in *; rewrite ?E1, ?E2, ?E3, ?E4, ?E5, ?E6; auto.
Qed.

Lemma answer_core r c w : core (answer r c w) = core c.
Proof. unfold answer. by destruct (answered c w). Qed.
Lemma answers_core r l c : core (fold_left (answer r) l c) = core c.
Proof. revert c. induction l as [|w l IH]; intros c; simpl; [done|]. by rewrite IH, answer_core. Qed.
Lemma settle_waiters_core r c : core (settle_waiters r c) = core c.
Proof. unfold settle_waiters. by rewrite answers_core. Qed.

(** Scheduling a restart once nothing runs and nothing is scheduled. *)
Lemma scheduleRestart_inv o reason c :
  live c = 0%nat → cl_restartTimer c = None → cl_started c = true → cl_endpoint c = None →
  (∀ i p, cl_procs c !! i = Some p → ps_exited p = true → ps_greeted p = true) →
  (cl_disposed c = true → bs_state (cl_status c) ≠ StError) → proc_inv (scheduleRestart o reason c).
Proof.
  intros Hl Ht Hs He Hg Hd. unfold scheduleRestart. destruct (cl_disposed c) eqn:Ed.
  - constructor; unfold pending_restart; rewrite ?Hl, ?Ht; try done; try lia; try congruence.
  - constructor; unfold live, pending_restart in *; cbn in *; try congruence; try lia; try done.
Qed.

Lemma setStatus_core p c : core (setStatus p c) = (cl_procs c, cl_endpoint c, cl_disposed c, cl_started c, cl_restartTimer c, bs_state (p (cl_status c))).
Proof. done. Qed.

Lemma spawnPeer_inv o sp c :
  live c = 0%nat → cl_restartTimer c = None → cl_started c = true → cl_endpoint c = None →
  (∀ i p, cl_procs c !! i = Some p → ps_exited p = true → ps_greeted p = true) →
  (cl_disposed c = true → bs_state (cl_status c) ≠ StError) → proc_inv (spawnPeer o sp c).
Proof.
  intros Hl Ht Hs He Hg Hd. unfold spawnPeer. destruct (cl_disposed c) eqn:Ed.
  { constructor; unfold pending_restart; rewrite ?Hl, ?Ht; try done; try lia; try congruence. }
  destruct sp as [m|b src r|b src pid|b src pid io].
  - eapply proc_inv_core; [apply settle_waiters_core|].
    constructor; unfold live, pending_restart in *; cbn; rewrite ?Ht; try done; try congruence; lia.
  - by apply scheduleRestart_inv.
  - apply scheduleRestart_inv; try done; cbn; [|intros i p].
    + unfold live in *. cbn. fold (live_in (cl_procs c ++ [mkProc pid true new_endpoint true true])). rewrite live_snoc. cbn.
      unfold live_in. lia.
    + intros [Hi|[_ Hi]]%lookup_app_Some; [by eauto|].
      destruct (i - _)%nat; [by inversion Hi|done].
  - assert (Hlive : live_in (cl_procs c ++ [mkProc pid false (greeting o io) false false]) = 1%nat).
    { rewrite live_snoc. cbn. unfold live_in, live in *. lia. }
    constructor; unfold live, pending_restart in *; cbn; fold (live_in (cl_procs c ++ [mkProc pid false (greeting o io) false false]));
      rewrite ?Hlive, ?Ht; try done; try congruence.
    + intros i p [Hi|[_ Hi]]%lookup_app_Some; [by eauto|].
      destruct (i - _)%nat; [by inversion Hi|done].
    + intros i [= <-]. eexists. split; [by apply list_lookup_middle|done].
Qed.

Lemma endpoint_none c : proc_inv c → live c = 0%nat → cl_endpoint c = None.
Proof.
  intros Hi Hl. destruct (cl_endpoint c) as [i|] eqn:E; [|done].
  destruct (pi_endpoint c Hi i E) as (p & Hp & Hx). pose proof (live_pos _ _ _ Hp Hx). unfold live, live_in in *. lia.
Qed.

(** Steps that leave the ends of processes alone. *)
Lemma update_proc_inv i f c :
  (∀ p, ps_exited (f p) = ps_exited p) → (∀ p, ps_greeted p = true → ps_greeted (f p) = true) →
  proc_inv c → proc_inv (update_proc i f c).
Proof.
  intros Hx Hg Hi. assert (Hl : live (update_proc i f c) = live c) by exact (live_alter_same f i _ Hx).
  destruct Hi as [H1 H2 H3 H4 H5 H6 H7]. constructor; rewrite ?Hl; try done.
  - intros Hs. destruct (H4 Hs) as [Hp Ht]. split; [|done]. cbn. by rewrite Hp.
  - cbn. intros j p. destruct (decide (i = j)) as [->|Hne].
    + rewrite list_lookup_alter_eq. intros (q & Hq & ->)%fmap_Some. rewrite Hx. intros. eapply Hg, H6; eauto.
    + rewrite list_lookup_alter_ne by done. apply H6.
  - cbn. intros j Hj. destruct (H7 j Hj) as (p & Hp & He). destruct (decide (i = j)) as [->|Hne].
    + exists (f p). rewrite list_lookup_alter_eq, Hp. split; [done|]. by rewrite Hx.
    + exists p. by rewrite list_lookup_alter_ne.
Qed.

Lemma start_inv o sp c : proc_inv c → proc_inv (start o sp c).
Proof.
  intros Hi. unfold start. destruct (cl_started c) eqn:Es; [done|]. destruct (cl_disposed c) eqn:Ed; [done|]. cbn [orb].
  destruct (pi_idle c Hi Es) as [Hp Ht]. apply spawnPeer_inv; try done.
  - unfold live. cbn. by rewrite Hp.
  - cbn. apply endpoint_none; [done|]. unfold live. by rewrite Hp.
  - cbn. by rewrite Hp.
Qed.

Lemma restart_fires_inv o sp c : proc_inv c → proc_inv (restart_fires o sp c).
Proof.
  intros Hi. unfold restart_fires. destruct (cl_restartTimer c) as [d|] eqn:Et; [|done].
  assert (Hl : live c = 0%nat) by (pose proof (pi_one c Hi) as H1; unfold pending_restart in H1; rewrite Et in H1; lia).
  apply spawnPeer_inv; try done.
  - cbn. destruct (cl_started c) eqn:Es; [done|]. destruct (pi_idle c Hi Es). congruence.
  - cbn. by apply endpoint_none.
  - cbn. apply (pi_greeted c Hi).
  - cbn. intros Hd. rewrite (pi_disposed c Hi Hd) in Et. done.
Qed.

(** The client once the end of process [i] is known. *)
Lemma exited_facts c c' i p err :
  proc_inv c → cl_procs c !! i = Some p → ps_exited p = false →
  c' = update_proc i (exited_with err) (forget_endpoint i c) ∨ c' = update_proc i (exited_with err) (forget_child i (forget_endpoint i c)) →
  live c' = 0%nat ∧ cl_restartTimer c' = None ∧ cl_started c' = true ∧ cl_endpoint c' = None ∧
  (∀ j q, cl_procs c' !! j = Some q → ps_exited q = true → ps_greeted q = true) ∧ cl_disposed c' = cl_disposed c ∧
  cl_status c' = cl_status c ∧ bs_state (cl_status c) ≠ StError.
Proof.
  intros Hi Hp Hx Hc'.
  assert (Ht : live c = 1%nat ∧ cl_restartTimer c = None).
  { pose proof (pi_one c Hi) as H1. pose proof (live_pos _ _ _ Hp Hx) as H2. unfold live, live_in, pending_restart in *.
    destruct (cl_restartTimer c); [lia|]. split; [lia|done]. }
  assert (Hf : cl_procs c' = alter (exited_with err) i (cl_procs c) ∧ cl_restartTimer c' = cl_restartTimer c ∧ cl_started c' = cl_started c ∧
    cl_disposed c' = cl_disposed c ∧ cl_status c' = cl_status c ∧ cl_endpoint c' = cl_endpoint (forget_endpoint i c)).
  { unfold forget_child, forget_endpoint in *. destruct Hc' as [-> | ->]; repeat case_bool_decide; done. }
  destruct Hf as (E1 & E2 & E3 & E4 & E5 & E6). rewrite E2, E3, E4, E5, E6. split_and!; try done.
  - unfold live. rewrite E1. destruct Ht as [Ht _]. pose proof (live_alter_exit (exited_with err) i _ p Hp Hx eq_refl).
    unfold live, live_in in *. lia.
  - tauto.
  - destruct (cl_started c) eqn:Es; [done|]. destruct (pi_idle c Hi Es) as [Hn _]. by rewrite Hn in Hp.
  - unfold forget_endpoint. case_bool_decide as Hb; [done|]. destruct (cl_endpoint c) as [j|] eqn:Ej; [|done].
    destruct (pi_endpoint c Hi j Ej) as (q & Hq & Hqx). exfalso. apply Hb. f_equal.
    destruct (decide (i = j)) as [->|Hne]; [done|].
    pose proof (live_alter_exit (exited_with err) i _ p Hp Hx eq_refl) as Hl.
    assert (1 ≤ live_in (alter (exited_with err) i (cl_procs c)))%nat by (eapply live_pos; [by rewrite list_lookup_alter_ne|done]).
    destruct Ht. unfold live, live_in in *. lia.
  - rewrite E1. intros j q. destruct (decide (i = j)) as [->|Hne].
    + rewrite list_lookup_alter_eq. intros (q' & _ & ->)%fmap_Some. done.
    + rewrite list_lookup_alter_ne by done. apply (pi_greeted c Hi).
  - intros He. pose proof (pi_error c Hi He). destruct Ht. lia.
Qed.

Lemma proc_error_inv o i m c : proc_inv c → proc_inv (proc_error o i m c).
Proof.
  intros Hi. unfold proc_error. destruct (cl_procs c !! i) as [p|] eqn:Hp; [|done]. destruct (ps_exited p) eqn:Hx; [done|].
  destruct (exited_facts c _ i p (Some m) Hi Hp Hx (or_introl eq_refl)) as (? & ? & ? & ? & ? & Ed & Es & Hn).
  apply scheduleRestart_inv; try done. by rewrite Es.
Qed.

Lemma proc_exit_inv o i code sg c : proc_inv c → proc_inv (proc_exit o i code sg c).
Proof.
  intros Hi. unfold proc_exit. destruct (cl_procs c !! i) as [p|] eqn:Hp; [|done]. destruct (ps_exited p) eqn:Hx; [done|].
  destruct (exited_facts c _ i p None Hi Hp Hx (or_intror eq_refl)) as (Hl & Ht & Hs & He & Hg & Ed & Es & Hn).
  revert Hl Ht Hs He Hg Ed Es. generalize (update_proc i (exited_with None) (forget_child i (forget_endpoint i c))).
  intros c' Hl Ht Hs He Hg Ed Es. cbv zeta. destruct (cl_disposed c') eqn:Ed'.
  - constructor; unfold pending_restart; change (live (setStatus _ c')) with (live c'); cbn; rewrite ?Hl, ?Ht; try done; try lia; congruence.
  - apply scheduleRestart_inv; try done. by rewrite Es.
Qed.

Lemma initialize_done_inv o i c : proc_inv c → proc_inv (initialize_done o i c).
Proof.
  intros Hi. unfold initialize_done. destruct (cl_procs c !! i) as [p|] eqn:Hp; [|done].
  destruct (ps_greeted p) eqn:Hg; [done|]. destruct (greeting_answer p) as [[r|m k d]|]; [| |done].
  - assert (Hx : ps_exited p = false).
    { destruct (ps_exited p) eqn:Hx; [|done]. rewrite (pi_greeted c Hi i p Hp Hx) in Hg. done. }
    eapply proc_inv_core; [apply settle_waiters_core|].
    assert (Hi' : proc_inv (update_proc i set_greeted c)) by (by apply update_proc_inv).
    assert (H1 : (1 ≤ live (update_proc i set_greeted c))%nat).
    { unfold live. change (1 ≤ live_in (alter set_greeted i (cl_procs c)))%nat.
      rewrite live_alter_same by done. by eapply live_pos. }
    destruct Hi' as [G1 G2 G3 G4 G5 G6 G7]. constructor; unfold live, pending_restart in *; cbn in *; try done; intros; lia.
  - destruct (ps_exited p || cl_disposed c); [by apply update_proc_inv|].
    apply update_proc_inv; [done|done|]. by apply update_proc_inv.
Qed.

Lemma flush_inv o c : proc_inv c → proc_inv (flush o c).
Proof.
  unfold flush. generalize (seq 0 (length (cl_procs c))). intros l. revert c.
  induction l as [|i l IH]; intros c Hi; simpl; [done|]. by apply IH, initialize_done_inv.
Qed.

Lemma ready_inv o sp c : proc_inv c → proc_inv (ready o sp c).
Proof.
  intros Hi. unfold ready. destruct (cl_disposed c); [by apply (proc_inv_core c)|].
  destruct (is_ready c); [by apply (proc_inv_core c)|].
  assert (H1 : proc_inv (if cl_started c then c else start o sp c)).
  { destruct (cl_started c); [done|]. by apply start_inv. }
  revert H1. generalize (if cl_started c then c else start o sp c). intros c1 H1. cbv zeta.
  case_bool_decide; by apply (proc_inv_core c1).
Qed.

Lemma dispose_inv io c : proc_inv c → proc_inv (dispose io c).
Proof.
  intros Hi. unfold dispose. destruct (cl_disposed c) eqn:Ed; [done|].
  set (c1 := with_backoff _ _ None _). set (c2 := failWaiters _ c1).
  assert (H1 : proc_inv c1).
  { destruct Hi as [G1 G2 G3 G4 G5 G6 G7]. constructor; unfold live, pending_restart in *; cbn in *; try done; try lia.
    - intros He. specialize (G3 He). lia.
    - intros Hs. split; [by apply G4|done]. }
  assert (H2 : proc_inv c2) by (eapply proc_inv_core; [apply settle_waiters_core|done]).
  assert (Ed2 : cl_disposed c2 = true).
  { pose proof (settle_waiters_core (NotReady (peer_unavailable (js "soulnet backend is disposed"))) c1) as Hc. unfold core in Hc. by inversion Hc. }
  destruct (cl_child c) as [i|].
  - destruct (cl_endpoint c) as [j|]; [|done]. by apply update_proc_inv.
  - destruct H2 as [G1 G2 G3 G4 G5 G6 G7]. unfold live, pending_restart in *.
    constructor; change (live (setStatus (to_state StStopped) c2)) with (live c2); cbn in *; try done; congruence.
Qed.

Lemma stopped_inv c : cl_disposed c = true → proc_inv c → proc_inv (setStatus (to_state StStopped) c).
Proof. intros Hd [G1 G2 G3 G4 G5 G6 G7]. constructor; cbn in *; try done; congruence. Qed.

Lemma dispose_end_inv j c : proc_inv c → proc_inv (dispose_end j c).
Proof.
  intros Hi. unfold dispose_end. destruct (cl_disposed c) eqn:Ed; [|done]. cbn [negb].
  apply stopped_inv; destruct j; try done. by apply update_proc_inv.
Qed.

Lemma events_core {A} (f : Client → A → Client) l c : (∀ c a, core (f c a) = core c) → core (fold_left f l c) = core c.
Proof. intros Hf. revert c. induction l as [|a l IH]; intros c; simpl; [done|]. by rewrite IH, Hf. Qed.

Lemma peer_line_inv `{JsonText} dp now i line c : proc_inv c → proc_inv (peer_line dp now i line c).
Proof.
  intros Hi. unfold peer_line. destruct (cl_procs c !! i) as [p|] eqn:Hp; [|done]. cbv zeta.
  eapply proc_inv_core; [apply events_core|].
  - intros c' n. by destruct (handleNotification dp now n.1 n.2 (cl_friendNames c')).
  - by apply update_proc_inv.
Qed.

Lemma client_step_inv `{JsonText} dp o x c : proc_inv c → proc_inv (client_step dp o x c).
Proof.
  intros Hi. unfold client_step. apply flush_inv. destruct x; cbn [client_op].
  - by apply start_inv.
  - by apply ready_inv.
  - unfold waiter_timeout. case_bool_decide; [|done]. by eapply proc_inv_core; [apply answer_core|].
  - by apply restart_fires_inv.
  - by apply proc_error_inv.
  - by apply proc_exit_inv.
  - by apply peer_line_inv.
  - by apply update_proc_inv.
  - by apply update_proc_inv.
  - by apply update_proc_inv.
  - by apply dispose_inv.
  - by apply dispose_end_inv.
Qed.

Lemma reachable_proc_inv `{JsonText} dp o c : client_reachable dp o c → proc_inv c.
Proof.
  induction 1 as [|x c _ IH]; [|by apply client_step_inv].
  constructor; unfold live, pending_restart; cbn; try done; lia.
Qed.

(** ** The promises of [ready] *)

Record promise_inv (c : Client) : Prop := {
  pr_issued : ∀ w, (w < cl_nextWaiter c)%nat ↔ w ∈ cl_readyWaiters c ∨ w ∈ map fst (cl_answers c);
  pr_once : NoDup (map fst (cl_answers c));
  pr_wait : cl_readyWaiters c ≠ [] → cl_started c = true ∧ cl_disposed c = false ∧ bs_state (cl_status c) ≠ StError;
}.

(** Steps that touch no promise and do not leave the running states. *)
Lemma promise_same c c' :
  cl_readyWaiters c' = cl_readyWaiters c → cl_nextWaiter c' = cl_nextWaiter c → cl_answers c' = cl_answers c →
  (cl_readyWaiters c ≠ [] → cl_started c = true ∧ cl_disposed c = false ∧ bs_state (cl_status c) ≠ StError →
   cl_started c' = true ∧ cl_disposed c' = false ∧ bs_state (cl_status c') ≠ StError) →
  promise_inv c → promise_inv c'.
Proof.
  intros E1 E2 E3 Hw [H1 H2 H3]. constructor; rewrite ?E1, ?E2, ?E3; auto.
Qed.

Lemma answers_spec r l c :
  let c' := fold_left (answer r) l c in
  cl_readyWaiters c' = cl_readyWaiters c ∧ cl_nextWaiter c' = cl_nextWaiter c ∧
  (∀ w, w ∈ map fst (cl_answers c') ↔ w ∈ l ∨ w ∈ map fst (cl_answers c)) ∧
  (NoDup (map fst (cl_answers c)) → NoDup (map fst (cl_answers c'))).
Proof.
  cbv zeta. revert c. induction l as [|w l IH]; intros c; simpl; [set_solver|].
  destruct (IH (answer r c w)) as (-> & -> & Hk & Hn). unfold answer, answered in *. clear IH.
  case_bool_decide as Hb; [set_solver|]. simpl in *. rewrite map_app in *. split_and!; try done.
  - intros w'. rewrite Hk. set_solver.
  - intros Hnd. apply Hn, NoDup_app. split_and!; [done|set_solver|]. apply NoDup_singleton.
Qed.

Lemma settle_waiters_promise r c :
  (∀ w, (w < cl_nextWaiter c)%nat ↔ w ∈ cl_readyWaiters c ∨ w ∈ map fst (cl_answers c)) → NoDup (map fst (cl_answers c)) →
  promise_inv (settle_waiters r c).
Proof.
  intros Hi Hn. unfold settle_waiters. destruct (answers_spec r (cl_readyWaiters c) (with_waiters [] (cl_nextWaiter c) (cl_answers c) c)) as (E1 & E2 & Hk & Hn').
  constructor; [|by auto|by rewrite E1]. intros w. rewrite E1, E2, Hk. simpl. rewrite Hi. set_solver.
Qed.

Lemma answer_promise r c w : (w < cl_nextWaiter c)%nat → promise_inv c → promise_inv (answer r c w).
Proof.
  intros Hw [H1 H2 H3]. destruct (answers_spec r [w] c) as (E1 & E2 & Hk & Hn). simpl in *. pose proof (answer_core r c w) as Hc.
  unfold core in Hc. inversion Hc as [[Ep Ee Ed Es Et Est]]. constructor; [|by auto|by rewrite E1, Ed, Es, Est].
  intros w'. rewrite E1, E2, Hk, H1. split; [set_solver|]. intros [?|[->%list_elem_of_singleton|?]]; [by left|by apply H1|by right].
Qed.

Lemma scheduleRestart_promise o reason c : promise_inv c → promise_inv (scheduleRestart o reason c).
Proof.
  intros Hp. unfold scheduleRestart. destruct (cl_disposed c) eqn:Ed; [done|].
  by apply (promise_same c); cbn; try done; intros _ (? & ? & ?).
Qed.

Lemma spawnPeer_promise o sp c : promise_inv c → promise_inv (spawnPeer o sp c).
Proof.
  intros Hp. unfold spawnPeer. destruct (cl_disposed c) eqn:Ed; [done|]. destruct sp as [m|b src r|b src pid|b src pid io].
  - destruct Hp. by apply settle_waiters_promise.
  - apply scheduleRestart_promise. by apply (promise_same c); cbn; try done; intros _ (? & ? & ?).
  - apply scheduleRestart_promise. by apply (promise_same c); cbn; try done; intros _ (? & ? & ?).
  - by apply (promise_same c); cbn; try done; intros _ (? & ? & ?).
Qed.

Lemma initialize_done_promise o i c : promise_inv c → promise_inv (initialize_done o i c).
Proof.
  intros Hp. unfold initialize_done. destruct (cl_procs c !! i) as [p|]; [|done]. destruct (ps_greeted p); [done|].
  destruct (greeting_answer p) as [[r|m k d]|]; [| |done].
  - destruct Hp. by apply settle_waiters_promise.
  - destruct (ps_exited p || cl_disposed c); by apply (promise_same c).
Qed.

Lemma start_promise o sp c : promise_inv c → promise_inv (start o sp c).
Proof.
  intros Hp. unfold start. destruct (cl_started c || cl_disposed c); [done|]. apply spawnPeer_promise.
  by apply (promise_same c); cbn; try done; intros _ (? & ? & ?).
Qed.

(** [spawnPeer] and [start] keep the flags. *)
Lemma scheduleRestart_flags o reason c :
  cl_disposed (scheduleRestart o reason c) = cl_disposed c ∧ cl_started (scheduleRestart o reason c) = cl_started c.
Proof. unfold scheduleRestart. by destruct (cl_disposed c) eqn:E; cbn; rewrite ?E. Qed.

Lemma settle_waiters_flags r c :
  cl_disposed (settle_waiters r c) = cl_disposed c ∧ cl_started (settle_waiters r c) = cl_started c.
Proof. pose proof (settle_waiters_core r c) as Hc. unfold core in Hc. by inversion Hc. Qed.

Lemma spawnPeer_flags o sp c :
  cl_disposed (spawnPeer o sp c) = cl_disposed c ∧ cl_started (spawnPeer o sp c) = cl_started c.
Proof.
  unfold spawnPeer. destruct (cl_disposed c) eqn:Ed; [done|]. rewrite <- Ed.
  destruct sp as [m|b src r|b src pid|b src pid io]; [| | |done].
  - exact (settle_waiters_flags _ (setStatus (to_error m) c)).
  - exact (scheduleRestart_flags o _ (setStatus (to_starting b src) (clearError c))).
  - unfold scheduleRestart. cbn. by rewrite Ed.
Qed.

Lemma start_flags o sp c : cl_disposed c = false → cl_disposed (start o sp c) = false ∧ cl_started (start o sp c) = true.
Proof.
  intros Hd. unfold start. rewrite Hd, orb_false_r. destruct (cl_started c) eqn:Es; [done|].
  destruct (spawnPeer_flags o sp (with_flags false true c)) as [-> ->]. done.
Qed.

Lemma settled_new r c : promise_inv c → promise_inv (settled_promise r c).
Proof.
  intros [H1 H2 H3]. constructor; cbn; [|rewrite map_app; apply NoDup_app; split_and!|done]; try done.
  - intros w. rewrite map_app, elem_of_app. cbn [map fst]. rewrite list_elem_of_singleton. specialize (H1 w).
    assert (w < S (cl_nextWaiter c) ↔ w < cl_nextWaiter c ∨ w = cl_nextWaiter c)%nat as -> by lia. tauto.
  - intros w Hw ->%list_elem_of_singleton. specialize (H1 (cl_nextWaiter c)). cbn in *. assert (cl_nextWaiter c < cl_nextWaiter c)%nat by tauto. lia.
  - apply NoDup_singleton.
Qed.

Lemma waiting_new c :
  promise_inv c → cl_started c = true → cl_disposed c = false → bs_state (cl_status c) ≠ StError → promise_inv (waiting_promise c).
Proof.
  intros [H1 H2 H3] ? ? ?. constructor; cbn; [|done..]. intros w. rewrite elem_of_app, list_elem_of_singleton. specialize (H1 w).
  assert (w < S (cl_nextWaiter c) ↔ w < cl_nextWaiter c ∨ w = cl_nextWaiter c)%nat as -> by lia. tauto.
Qed.

Lemma ready_promise o sp c : promise_inv c → promise_inv (ready o sp c).
Proof.
  intros Hp. unfold ready. destruct (cl_disposed c) eqn:Ed; [by apply settled_new|]. destruct (is_ready c); [by apply settled_new|]. cbv zeta.
  assert (H1 : let c1 := if cl_started c then c else start o sp c in promise_inv c1 ∧ cl_disposed c1 = false ∧ cl_started c1 = true).
  { cbv zeta. destruct (cl_started c) eqn:Es; [done|]. split; [by apply start_promise|by apply start_flags]. }
  revert H1. generalize (if cl_started c then c else start o sp c). cbv zeta. intros c1 (H1 & H2 & H3).
  case_bool_decide; [by apply settled_new|by apply waiting_new].
Qed.

Lemma dispose_promise io c : promise_inv c → promise_inv (dispose io c).
Proof.
  intros Hp. unfold dispose. destruct (cl_disposed c) eqn:Ed; [done|].
  set (c1 := with_backoff _ _ None _). assert (H2 : promise_inv (failWaiters (peer_unavailable (js "soulnet backend is disposed")) c1)).
  { destruct Hp. by apply settle_waiters_promise. }
  assert (Hn : cl_readyWaiters (failWaiters (peer_unavailable (js "soulnet backend is disposed")) c1) = []).
  { unfold failWaiters, settle_waiters. by destruct (answers_spec (NotReady (peer_unavailable (js "soulnet backend is disposed")))
      (cl_readyWaiters c1) (with_waiters [] (cl_nextWaiter c1) (cl_answers c1) c1)) as (-> & _). }
  destruct (cl_child c); [destruct (cl_endpoint c)|]; try done; by eapply promise_same; [..|exact H2]; cbn; rewrite ?Hn.
Qed.

Lemma events_promise {A} (f : Client → A → Client) l c :
  (∀ c a, promise_inv c → promise_inv (f c a)) → promise_inv c → promise_inv (fold_left f l c).
Proof. intros Hf. revert c. induction l as [|a l IH]; intros c Hc; simpl; auto. Qed.

Lemma client_step_promise `{JsonText} dp o x c : promise_inv c → promise_inv (client_step dp o x c).
Proof.
  intros Hp. unfold client_step, flush. apply events_promise; [intros; by apply initialize_done_promise|].
  destruct x; cbn [client_op]; try by apply (promise_same c).
  - by apply start_promise.
  - by apply ready_promise.
  - unfold waiter_timeout. case_bool_decide; [|done]. apply answer_promise; [|done]. apply (pr_issued c Hp). by left.
  - unfold restart_fires. destruct (cl_restartTimer c); [|done]. apply spawnPeer_promise. by apply (promise_same c).
  - unfold proc_error. destruct (cl_procs c !! i) as [p|]; [|done]. destruct (ps_exited p); [done|].
    apply scheduleRestart_promise. unfold forget_endpoint. by case_bool_decide; apply (promise_same c).
  - unfold proc_exit. destruct (cl_procs c !! i) as [p|]; [|done]. destruct (ps_exited p); [done|]. cbv zeta.
    unfold forget_child, forget_endpoint. repeat case_bool_decide; cbn; destruct (cl_disposed c) eqn:Ed;
      try (apply scheduleRestart_promise); apply (promise_same c); cbn; try done; intros _ (? & ? & ?); done || congruence.
  - unfold peer_line. destruct (cl_procs c !! i) as [p|]; [|done]. cbv zeta. apply events_promise.
    + intros c' n Hc'. destruct (handleNotification dp now n.1 n.2 (cl_friendNames c')). by apply (promise_same c').
    + by apply (promise_same c).
  - by apply dispose_promise.
  - unfold dispose_end. destruct (cl_disposed c) eqn:Ed; [|done]. cbn [negb]. destruct j; apply (promise_same c); cbn; try done; intros _ (? & ? & ?); done || congruence.
Qed.

Lemma reachable_promise_inv `{JsonText} dp o c : client_reachable dp o c → promise_inv c.
Proof.
  induction 1 as [|x c _ IH]; [|by apply client_step_promise].
  constructor; cbn; [|by apply NoDup_nil|done]. intros w. split; [lia|]. set_solver.
Qed.

(** ** The restart delay *)

(** The delay after [k] failures in a row. *)
Definition delay_after (o : SoulnetOptions) (k : nat) : Z := Nat.iter k (next_backoff o) (backoffInitial o).

Definition backoff_inv (o : SoulnetOptions) (c : Client) : Prop :=
  (∃ k, Z.of_nat k <= cl_restarts c ∧ cl_backoffMs c = delay_after o k) ∧
  (∀ d, cl_restartTimer c = Some d → ∃ k, Z.of_nat k < cl_restarts c ∧ d = delay_after o k).

Definition clock (c : Client) := (cl_restarts c, cl_backoffMs c, cl_restartTimer c).

Lemma backoff_same o c c' : clock c' = clock c → backoff_inv o c → backoff_inv o c'.
Proof. unfold clock, backoff_inv. intros [= -> -> ->]. done. Qed.

Lemma answers_clock r l c : clock (fold_left (answer r) l c) = clock c.
Proof.
  revert c. induction l as [|w l IH]; intros c; simpl; [done|]. rewrite IH. unfold answer. by destruct (answered c w).
Qed.

Lemma scheduleRestart_backoff o reason c : backoff_inv o c → backoff_inv o (scheduleRestart o reason c).
Proof.
  intros [(k & Hk & Eb) Ht]. unfold scheduleRestart. destruct (cl_disposed c); [split; eauto|]. split; cbn.
  - exists (S k). split; [lia|]. unfold delay_after in *. simpl. by rewrite <- Eb.
  - intros d [= <-]. exists k. split; [lia|done].
Qed.

Lemma spawnPeer_backoff o sp c : backoff_inv o c → backoff_inv o (spawnPeer o sp c).
Proof.
  intros Hb. unfold spawnPeer. destruct (cl_disposed c); [done|]. destruct sp.
  - eapply backoff_same; [apply answers_clock|]. by apply (backoff_same o c).
  - apply scheduleRestart_backoff. by apply (backoff_same o c).
  - apply scheduleRestart_backoff. by apply (backoff_same o c).
  - by apply (backoff_same o c).
Qed.

Lemma start_backoff o sp c : backoff_inv o c → backoff_inv o (start o sp c).
Proof.
  intros Hb. unfold start. destruct (cl_started c || cl_disposed c); [done|]. apply spawnPeer_backoff. by apply (backoff_same o c).
Qed.

(** Resetting the delay, and clearing the timer. *)
Lemma reset_backoff o c c' :
  0 <= cl_restarts c → cl_restarts c' = cl_restarts c → cl_backoffMs c' = backoffInitial o → cl_restartTimer c' = cl_restartTimer c →
  backoff_inv o c → backoff_inv o c'.
Proof. unfold backoff_inv. intros Hr E1 E2 E3 [_ Ht]. rewrite E1, E2, E3. split; [by exists 0%nat|done]. Qed.

Lemma untimed_backoff o c : backoff_inv o c → backoff_inv o (with_backoff (cl_restarts c) (cl_backoffMs c) None c).
Proof. by intros [Hb _]. Qed.

Lemma backoff_restarts o c : backoff_inv o c → 0 <= cl_restarts c.
Proof. intros [(k & Hk & _) _]. lia. Qed.

Lemma initialize_done_backoff o i c : backoff_inv o c → backoff_inv o (initialize_done o i c).
Proof.
  intros Hb. unfold initialize_done. destruct (cl_procs c !! i) as [p|]; [|done]. destruct (ps_greeted p); [done|].
  destruct (greeting_answer p) as [[r|m k d]|]; [| |done].
  - eapply backoff_same; [apply answers_clock|]. apply (reset_backoff o c); try done. by apply (backoff_restarts o).
  - destruct (ps_exited p || cl_disposed c); by apply (backoff_same o c).
Qed.

Lemma fold_backoff {A} o (f : Client → A → Client) l c :
  (∀ c a, backoff_inv o c → backoff_inv o (f c a)) → backoff_inv o c → backoff_inv o (fold_left f l c).
Proof. intros Hf. revert c. induction l as [|a l IH]; intros c Hc; simpl; auto. Qed.

Lemma client_step_backoff `{JsonText} dp o x c : backoff_inv o c → backoff_inv o (client_step dp o x c).
Proof.
  intros Hb. unfold client_step, flush. apply fold_backoff; [intros; by apply initialize_done_backoff|].
  destruct x; cbn [client_op]; try by apply (backoff_same o c).
  - by apply start_backoff.
  - unfold ready. destruct (cl_disposed c); [by apply (backoff_same o c)|]. destruct (is_ready c); [by apply (backoff_same o c)|].
    cbv zeta. destruct (cl_started c); [by case_bool_decide; apply (backoff_same o c)|].
    case_bool_decide; apply (backoff_same o (start o sp c)); try done; by apply start_backoff.
  - unfold waiter_timeout, answer. case_bool_decide; [|done]. by destruct (answered c w); apply (backoff_same o c).
  - unfold restart_fires. destruct (cl_restartTimer c); [|done]. by apply spawnPeer_backoff, untimed_backoff.
  - unfold proc_error. destruct (cl_procs c !! i) as [p|]; [|done]. destruct (ps_exited p); [done|].
    apply scheduleRestart_backoff. unfold forget_endpoint. by case_bool_decide; apply (backoff_same o c).
  - unfold proc_exit. destruct (cl_procs c !! i) as [p|]; [|done]. destruct (ps_exited p); [done|]. cbv zeta.
    unfold forget_child, forget_endpoint. repeat case_bool_decide; cbn; destruct (cl_disposed c);
      try (apply scheduleRestart_backoff); by apply (backoff_same o c).
  - unfold peer_line. destruct (cl_procs c !! i) as [p|]; [|done]. cbv zeta. apply fold_backoff.
    + intros c' n Hc'. destruct (handleNotification dp now n.1 n.2 (cl_friendNames c')). by apply (backoff_same o c').
    + by apply (backoff_same o c).
  - unfold dispose. destruct (cl_disposed c); [done|]. set (c1 := with_backoff _ _ None _). set (c2 := failWaiters _ c1).
    assert (H2 : backoff_inv o c2).
    { eapply backoff_same; [apply answers_clock|]. apply (backoff_same o (with_backoff (cl_restarts c) (cl_backoffMs c) None c)); [done|].
      by apply untimed_backoff. }
    destruct (cl_child c); [destruct (cl_endpoint c)|]; try done; by apply (backoff_same o c2).
  - unfold dispose_end. destruct (cl_disposed c); [|done]. by destruct j; apply (backoff_same o c).
Qed.

Lemma reachable_backoff `{JsonText} dp o c : client_reachable dp o c → backoff_inv o c.
Proof. induction 1 as [|x c _ IH]; [|by apply client_step_backoff]. split; cbn; [by exists 0%nat|done]. Qed.

Lemma js_round_Z (z : Z) (q : Q) : (q == inject_Z z)%Q → js_round q = z.
Proof.
  intros E. unfold js_round. rewrite (Qfloor_comp (q + (1 # 2)) (inject_Z z + (1 # 2))) by (by rewrite E).
  apply Z.le_antisymm.
  - apply Z.lt_succ_r. rewrite Zlt_Qlt. eapply Qle_lt_trans; [apply Qfloor_le|]. unfold Z.succ. rewrite inject_Z_plus.
    apply Qplus_lt_r. reflexivity.
  - rewrite <- (Qfloor_Z z) at 1. apply Qfloor_resp_le. rewrite <- (Qplus_0_r (inject_Z z)) at 1. apply Qplus_le_r. discriminate.
Qed.

(** With a whole factor the delays are the capped powers. *)
Lemma delay_after_pow o (f : Z) k :
  backoffFactor o = inject_Z f → 1 <= f → 0 <= backoffInitial o <= backoffMax o →
  delay_after o k = Z.min (backoffMax o) (backoffInitial o * f ^ Z.of_nat k).
Proof.
  intros Ef Hf Hi. unfold delay_after. induction k as [|k IH]; [simpl; lia|].
  rewrite Nat.iter_succ, IH. unfold next_backoff. rewrite Ef.
  rewrite (js_round_Z (Z.min (backoffMax o) (backoffInitial o * f ^ Z.of_nat k) * f)) by (by rewrite inject_Z_mult).
  rewrite Nat2Z.inj_succ, Z.pow_succ_r by lia. assert (0 <= f ^ Z.of_nat k) by (by apply Z.pow_nonneg; lia). nia.
Qed.

(** ** After [dispose] *)

Lemma settle_waiters_procs r c : cl_procs (settle_waiters r c) = cl_procs c.
Proof. pose proof (settle_waiters_core r c) as Hc. unfold core in Hc. by inversion Hc. Qed.

Definition ended (n : nat) (c : Client) : Prop := cl_disposed c = true ∧ length (cl_procs c) = n.

Lemma fold_ended {A} n (f : Client → A → Client) l c :
  (∀ c a, ended n c → ended n (f c a)) → ended n c → ended n (fold_left f l c).
Proof. intros Hf. revert c. induction l as [|a l IH]; intros c Hc; simpl; auto. Qed.

Lemma ended_same n c c' : cl_disposed c' = cl_disposed c → length (cl_procs c') = length (cl_procs c) → ended n c → ended n c'.
Proof. unfold ended. intros -> ->. done. Qed.

Lemma initialize_done_ended o n i c : ended n c → ended n (initialize_done o i c).
Proof.
  intros He. unfold initialize_done. destruct (cl_procs c !! i) as [p|]; [|done]. destruct (ps_greeted p); [done|].
  destruct (greeting_answer p) as [[r|m k d]|]; [| |done].
  - apply (ended_same n c); [|rewrite settle_waiters_procs; cbn; by rewrite length_alter|done].
    match goal with |- cl_disposed (settle_waiters ?r ?x) = _ => by rewrite (proj1 (settle_waiters_flags r x)) end.
  - destruct (ps_exited p || cl_disposed c); apply (ended_same n c); cbn; rewrite ?length_alter; done.
Qed.

Lemma client_step_ended `{JsonText} dp o x n c : ended n c → ended n (client_step dp o x c).
Proof.
  intros He. unfold client_step, flush. apply fold_ended; [intros; by apply initialize_done_ended|].
  destruct He as [Hd Hn]. destruct x; cbn [client_op];
    unfold endpoint_step, start, ready, restart_fires, waiter_timeout, proc_error, proc_exit, dispose, dispose_end; rewrite ?Hd, ?orb_true_r;
    try by (split; cbn; rewrite ?length_alter).
  - case_bool_decide; [|done]. unfold answer. by destruct (answered c w).
  - destruct (cl_restartTimer c); [|done]. unfold spawnPeer. cbn. by rewrite Hd.
  - destruct (cl_procs c !! i) as [p|]; [|done]. destruct (ps_exited p); [done|]. unfold forget_endpoint, scheduleRestart.
    case_bool_decide; cbn; rewrite Hd; split; cbn; by rewrite ?length_alter.
  - destruct (cl_procs c !! i) as [p|]; [|done]. destruct (ps_exited p); [done|]. unfold forget_endpoint, forget_child, scheduleRestart.
    repeat case_bool_decide; cbn; rewrite Hd; split; cbn; by rewrite ?length_alter.
  - unfold peer_line. destruct (cl_procs c !! i) as [p|]; [|done]. cbv zeta. apply fold_ended.
    + intros c' m [? ?]. by destruct (handleNotification dp now m.1 m.2 (cl_friendNames c')).
    + split; cbn; by rewrite ?length_alter.
  - cbn [negb]. destruct j; split; cbn; by rewrite ?length_alter.
Qed.

(** ** Theorems *)

Section theorems.
Context `{JsonText} (Date_parse : list Z → option Z) (o : SoulnetOptions).
Notation reachable := (client_reachable Date_parse o).


(** C26. Every promise of [ready] is accounted for: it is settled at most once,
    an unsettled one is in the queue of waiters, and while the queue is not
    empty a peer is running or its restart is scheduled. *)
Theorem ready_accounted (c : Client) :
  reachable c →
  NoDup (map fst (cl_answers c)) ∧
  (∀ w, (w < cl_nextWaiter c)%nat ↔ w ∈ cl_readyWaiters c ∨ w ∈ map fst (cl_answers c)) ∧
  (cl_readyWaiters c ≠ [] → cl_disposed c = false ∧ (live c + pending_restart c = 1)%nat).
Proof.
  intros Hr. pose proof (reachable_proc_inv _ _ _ Hr) as Hi. apply reachable_promise_inv in Hr as [H1 H2 H3].
  split_and!; try done. intros Hw. destruct (H3 Hw) as (? & ? & ?). split; [done|]. by apply (pi_run c Hi).
Qed.

(** C34. [dispose] is final: whatever happens afterwards, no process is
    spawned, no restart is scheduled and no caller is left waiting. *)
Theorem dispose_final (c : Client) (xs : list ClientOp) :
  reachable c → cl_disposed c = true →
  let c' := fold_left (λ c x, client_step Date_parse o x c) xs c in
  length (cl_procs c') = length (cl_procs c) ∧ cl_restartTimer c' = None ∧
  (∀ w, (w < cl_nextWaiter c')%nat → w ∈ map fst (cl_answers c')).
Proof.
  intros Hr Hd c'. assert (He : ended (length (cl_procs c)) c').
  { apply fold_ended; [intros; by apply client_step_ended|done]. }
  assert (Hr' : reachable c').
  { unfold c'. clear Hd He c'. revert c Hr. induction xs as [|x xs IH]; intros c Hr; [done|]. apply IH. by constructor. }
  destruct He as [Hd' Hn]. split_and!; [done|by apply (pi_disposed c' (reachable_proc_inv _ _ _ Hr'))|].
  intros w Hw. pose proof (reachable_promise_inv _ _ _ Hr') as [H1 H2 H3]. apply H1 in Hw as [Hw|]; [|done].
  assert (Hne : cl_readyWaiters c' ≠ []) by (intros Hn'; rewrite Hn' in Hw; by apply elem_of_nil in Hw).
  destruct (H3 Hne) as (_ & Hf & _). congruence.
Qed.

(** The restart delays are the capped powers: a scheduled restart waits
    [min max (initial * factor^k)] for some number [k] of failures smaller than
    the restarts counted so far, so the delay never exceeds the maximum. *)
Theorem restart_delay (c : Client) (f d : Z) :
  reachable c → backoffFactor o = inject_Z f → 1 <= f → 0 <= backoffInitial o <= backoffMax o →
  cl_restartTimer c = Some d →
  backoffInitial o <= d <= backoffMax o ∧
  ∃ k : nat, Z.of_nat k < cl_restarts c ∧ d = Z.min (backoffMax o) (backoffInitial o * f ^ Z.of_nat k).
Proof.
  intros Hr Ef Hf Hi Ht. destruct (reachable_backoff _ _ _ Hr) as [_ Hb]. destruct (Hb d Ht) as (k & Hk & ->).
  rewrite (delay_after_pow o f k) by done. split; [|by exists k].
  assert (1 <= f ^ Z.of_nat k) by (rewrite <- (Z.pow_1_l (Z.of_nat k)) by lia; apply Z.pow_le_mono_l; lia). nia.
Qed.
End theorems.

(** ** Witnesses: a peer that dies once, comes back and answers *)

Definition demo_options : SoulnetOptions := mkOptions (js "/h") None None None None None None.
Definition demo_spawn : Spawned := SpawnOk (js "soulnet") (js "path") (Some 7) None.
Definition demo_greeting : json := JObj [(js "id", JNum (num_of_Z 1)); (js "result", JObj [(js "protocol", JStr (js "soulnet/1"))])].

Definition demo_step (x : ClientOp) (c : Client) : Client := client_step (H := CodedJson) (λ _, None) demo_options x c.
Definition demo_client (xs : list ClientOp) : Client := fold_left (λ c x, demo_step x c) xs (createSoulnetNetworkClient demo_options).

Lemma demo_reachable xs : client_reachable (H := CodedJson) (λ _, None) demo_options (demo_client xs).
Proof.
  unfold demo_client. generalize (reach_init (H := CodedJson) (λ _, None) demo_options).
  generalize (createSoulnetNetworkClient demo_options). induction xs as [|x xs IH]; intros c Hc; [done|]. apply IH. by constructor.
Qed.

Definition demo_died : list ClientOp := [OpReady demo_spawn; OpProcExit 0 (Some 1) None].
Definition demo_back : list ClientOp :=
  demo_died ++ [OpRestart demo_spawn; OpLine 0 1 (JSON_stringify (JsonText := CodedJson) demo_greeting)].


Lemma ready_accounted_witness :
  cl_readyWaiters (demo_client demo_died) = [0%nat] ∧ (live (demo_client demo_died) + pending_restart (demo_client demo_died) = 1)%nat ∧
  cl_answers (demo_client demo_back) = [(0%nat, ReadyOn 1)] ∧ bs_state (cl_status (demo_client demo_back)) = StReady.
Proof.
  assert (Hw : cl_readyWaiters (demo_client demo_died) ≠ []) by (vm_compute; congruence).
  split_and!; [vm_compute; reflexivity| |vm_compute; reflexivity..].
  exact (proj2 (proj2 (proj2 (ready_accounted (H := CodedJson) (λ _, None) demo_options (demo_client demo_died) (demo_reachable demo_died))) Hw)).
Defined.

Lemma dispose_final_witness :
  let c := demo_client (demo_died ++ [OpDispose None]) in
  length (cl_procs c) = 1%nat ∧ 
  length (cl_procs (fold_left (λ c x, client_step (H := CodedJson) (λ _, None) demo_options x c) [OpRestart demo_spawn; OpReady demo_spawn] c))
  = length (cl_procs c).
Proof.
  cbv zeta. split; [vm_compute; reflexivity|].
  assert (Hd : cl_disposed (demo_client (demo_died ++ [OpDispose None])) = true) by (vm_compute; reflexivity).
  exact (proj1 (dispose_final (H := CodedJson) (λ _, None) demo_options _ [OpRestart demo_spawn; OpReady demo_spawn]
    (demo_reachable (demo_died ++ [OpDispose None])) Hd)).
Defined.

Lemma restart_delay_witness : cl_restartTimer (demo_client demo_died) = Some 500 ∧ 500 <= 500 <= 30000.
Proof.
  assert (Ht : cl_restartTimer (demo_client demo_died) = Some 500) by (vm_compute; reflexivity).
  split; [exact Ht|].
  refine (proj1 (restart_delay (H := CodedJson) (λ _, None) demo_options (demo_client demo_died) 2 500 (demo_reachable demo_died) eq_refl _ _ Ht));
    cbn; lia.
Defined.
