(* ===== verification/SoulnetCalls.v ===== *)
(** * The calls of the soulnet client and where its binary is found (network/soulnet.ts)

    Every operation of the network interface as one or two JSON-RPC calls to
    the peer: the parameters that go out, the reading of the answer, the two
    caches (the own card, the friends' names).  The peer is another program:
    [rpc] answers a method and its parameters.  Starting the process, waiting
    for it and its restarts are in SoulnetClient. *)

From S2P Require Import Prelude JsString JsMap Json Policy Network JsonRpc SoulnetWire.
#[local] Open Scope Z_scope.

(** ** Parameters *)

Definition obj (l : list (list Z * json)) : json := JObj l.
Definition one (k : string) (v : list Z) : list (list Z * json) := [(js k, JStr v)].
Definition num_prop (k : string) (n : option Z) : list (list Z * json) := opt_prop (js k) (λ z, JNum (num_of_Z z)) n.
Definition strings (l : list (list Z)) : json := JArr (map JStr l).

Definition proof_to_wire (p : JoinPaymentProof) : json :=
  obj (one "message" (jp_message p) ++ one "pubkey" (jp_pubkey p) ++ one "sig" (jp_sig p)).
Definition payment_to_wire (p : JoinPayment) : json :=
  obj (one "tx_hash" (pay_tx_hash p) ++ one "amount" (pay_amount p) ++ one "to" (pay_to p)
    ++ opt_prop (js "payer") JStr (pay_payer p) ++ opt_prop (js "proof") proof_to_wire (pay_proof p) ++ opt_prop (js "note") JStr (pay_note p)).
Definition apply_params (uri : list Z) (note : option (list Z)) (payment : option JoinPayment) : json :=
  obj (one "uri" uri ++ opt_prop (js "note") JStr note ++ opt_prop (js "payment") payment_to_wire payment).
Definition conv_params (k : string) (id : list Z) (o : ConvOptions) : json :=
  obj (one k id ++ num_prop "since" (cv_since o) ++ num_prop "limit" (cv_limit o)).
Definition auto_true (o : option bool) : list (list Z * json) := if bool_decide (o = Some true) then [(js "auto", JBool true)] else [].
Definition send_params (to body : list Z) (o : option SendOptions) : json :=
  obj (one "to" to ++ one "body" body ++ opt_prop (js "file") JStr (o ≫= so_file) ++ auto_true (o ≫= so_auto)).
Definition group_send_params (gid body : list Z) (o : option GroupSendOptions) : json :=
  obj (one "gid" gid ++ one "body" body ++ opt_prop (js "by") JStr (o ≫= go_by) ++ auto_true (o ≫= go_auto)
    ++ opt_prop (js "agent") JStr ((o ≫= go_agent) ≫= non_empty)).

(** ** Answers *)

Definition receipt_of (r : json) : SendReceipt :=
  mkReceipt (str0 (get r (js "id"))) (int_of <$> as_number (get r (js "seq"))) (str (get r (js "status")) (js "sent")).
Definition card_of (c : json) : GroupCardView :=
  mkCard (str0 (get c (js "gid"))) (str0 (get c (js "name"))) (str0 (get c (js "join"))) (int_or (get c (js "members")) 0)
    (as_string (get c (js "join_price"))) (as_string (get c (js "join_addr"))) (as_string (get c (js "join_note"))) (filled (get c (js "rules_head"))).

Section calls.
Context {P : Type} `{JsonText}.
(** The peer; the clock; the texts of dates; this host's command line for a relaunch. *)
Context (rpc : list Z → option json → P → (Thrown + json) * P) (clock : P → Z) (Date_parse : list Z → option Z) (command : list (list Z * json)).

Record Calls := mkCalls {
  sc_peer : P;
  sc_card : option (list Z);                 (** [cachedCardUri] *)
  sc_names : list (list Z * list Z);         (** [friendNames] *)
  sc_status : json;
  sc_pid : option Z }.                       (** the child's pid *)
Notation IOC := (IO Calls).

Definition with_peer (p : P) (s : Calls) : Calls := mkCalls p (sc_card s) (sc_names s) (sc_status s) (sc_pid s).
Definition with_card (c : option (list Z)) (s : Calls) : Calls := mkCalls (sc_peer s) c (sc_names s) (sc_status s) (sc_pid s).
Definition with_names (n : list (list Z * list Z)) (s : Calls) : Calls := mkCalls (sc_peer s) (sc_card s) n (sc_status s) (sc_pid s).

Definition call (method : string) (params : option json) : IOC json := λ s,
  match rpc (js method) params (sc_peer s) with
  | (inl e, p) => (inl (toNetworkError e (js method)), with_peer p s)
  | (inr v, p) => (inr v, with_peer p s)
  end.
(** Reading a property of [null] throws. *)
Definition type_error : NetworkError := mkErr (js "Cannot read properties of null") 0.
Definition ask (method : string) (params : option json) : IOC json :=
  r ← call method params; match r with JNull => throw type_error | v => mret v end.
Definition tell (method : string) (params : json) : IOC unit := _ ← call method (Some params); mret tt.
(** [(r.k ?? []).map(f)]. *)
Definition rows {A} (f : json → A) (v : option json) : IOC (list A) :=
  match present v with None => mret [] | Some (JArr l) => mret (map f l) | Some _ => throw type_error end.
Definition clock_now : IOC Z := gets (λ s, clock (sc_peer s)).

(** ** Identity and card *)

Definition card : IOC (list Z) :=
  c ← gets sc_card;
  match c with
  | Some u => mret u
  | None => r ← ask "card.get" None; let u := str0 (get r (js "uri")) in _ ← modify (with_card (Some u)); mret u
  end.
Definition identity : IOC (option Identity) :=
  r ← ask "identity.get" None;
  match present (get r (js "identity")) with
  | None => mret None
  | Some i => u ← card; mret (Some (mkIdentity (str0 (get i (js "fingerprint"))) (str0 (get i (js "name"))) u (as_string (get i (js "created_at")))))
  end.
Definition signRequest (method path : list Z) (ts : Z) : IOC (list Z) :=
  r ← ask "identity.signRequest" (Some (obj (one "method" method ++ one "path" path ++ num_prop "ts" (Some ts))));
  let signature := str0 (get r (js "signature")) in
  if jeqb signature [] then throw (mkErr (js "identity.signRequest returned no signature") (-32603)) else mret signature.
Definition createIdentity (name : list Z) : IOC Identity :=
  r ← ask "identity.create" (Some (obj (one "name" name)));
  _ ← modify (with_card None);
  u ← card;
  let i := get r (js "identity") in
  mret (mkIdentity (str0 (getq i (js "fingerprint"))) (str (getq i (js "name")) name) u None).
Definition parseCard (uri : list Z) : IOC (list Z * list Z * list Z) :=
  r ← ask "card.parse" (Some (obj (one "uri" uri)));
  mret (str0 (get r (js "fingerprint")), str0 (getq (get r (js "card")) (js "name")), str (get r (js "uri")) uri).
Definition profile_get : IOC (option json) := r ← ask "profile.get" None; mret (present (get r (js "profile"))).
Definition profile_save (profile : json) : IOC json := r ← ask "profile.save" (Some (obj [(js "profile", profile)])); mret (present (get r (js "profile")) ?? profile).
Definition directory_fetch (fp : list Z) : IOC (option json) := r ← ask "directory.fetch" (Some (obj (one "fp" fp))); mret (present (get r (js "entry"))).
Definition directory_publish : IOC unit := _ ← ask "directory.publish" (Some (obj [])); mret tt.

(** ** Friends *)

Definition rememberNames (l : list Friend) (names : list (list Z * list Z)) : list (list Z * list Z) :=
  fold_left (λ m f, map_set m (fr_fp f) (fr_name f)) l names.
Definition note_names (l : list Friend) : IOC unit := modify (λ s, with_names (rememberNames l (sc_names s)) s).
Definition friends_list : IOC (list Friend) :=
  r ← ask "friends.list" None;
  now ← clock_now;
  l ← rows (friendFromWire Date_parse now) (get r (js "friends"));
  _ ← note_names l;
  mret l.
Definition friends_pending : IOC (list PendingRequest) := r ← ask "friends.pending" None; rows pendingFromWire (get r (js "pending")).
(** The calls that answer one friend. *)
Definition one_friend (method : string) (params : json) : IOC Friend :=
  r ← ask method (Some params);
  now ← clock_now;
  let f := friendFromWire Date_parse now (present (get r (js "friend")) ?? JObj []) in
  _ ← note_names [f];
  mret f.
Definition friends_add (cardUri : list Z) (note : option (list Z)) : IOC Friend :=
  one_friend "friends.add" (obj (one "card_uri" cardUri ++ opt_prop (js "note") JStr note)).
Definition friends_accept (id : list Z) (note : option (list Z)) : IOC Friend :=
  one_friend "friends.accept" (obj (one "id" id ++ opt_prop (js "note") JStr note)).
Definition friends_reject (id : list Z) : IOC unit := tell "friends.reject" (obj (one "id" id)).
Definition friends_set (fp : list Z) (remark protocol : option (list Z)) : IOC Friend :=
  one_friend "friends.set" (obj (one "fp" fp ++ opt_prop (js "note") JStr remark ++ opt_prop (js "protocol") JStr protocol)).
Definition friends_remove (fp : list Z) : IOC unit :=
  _ ← tell "friends.remove" (obj (one "fp" fp)); modify (λ s, with_names (map_delete (sc_names s) fp) s).
Definition friends_card (fp : list Z) : IOC (list Z * list Z * list Z) :=
  r ← ask "friends.card" (Some (obj (one "fp" fp)));
  mret (str (get r (js "fingerprint")) fp, str0 (getq (get r (js "card")) (js "name")), str0 (get r (js "uri"))).

(** ** Groups *)

Definition groups_list : IOC (list GroupRow) := r ← ask "group.list" None; rows groupFromWire (get r (js "groups")).
Definition group_answer (method : string) (params : json) : IOC GroupInfo :=
  r ← ask method (Some params); now ← clock_now; mret (groupInfoFromWire Date_parse now (present (get r (js "group")) ?? JObj [])).
Definition groups_create (name : list Z) (members : list (list Z)) (profile : option GroupProfile) : IOC GroupInfo :=
  group_answer "group.create" (obj (one "name" name ++ [(js "members", strings members)] ++ opt_prop (js "profile") profileToWire profile)).
Definition groups_info (gid : list Z) : IOC GroupInfo := group_answer "group.get" (obj (one "gid" gid)).
Definition groups_send (gid body : list Z) (o : option GroupSendOptions) : IOC SendReceipt :=
  r ← ask "group.send" (Some (group_send_params gid body o)); mret (receipt_of r).
Definition groups_conversation (gid : list Z) (o : ConvOptions) : IOC (list ConversationEntry) :=
  r ← ask "group.conversation" (Some (conv_params "gid" gid o)); now ← clock_now; rows (entryFromWire Date_parse now) (get r (js "entries")).
Definition groups_announceVoices (gid : list Z) (voices : list (list Z)) : IOC unit := tell "group.voicesAnnounce" (obj (one "gid" gid ++ [(js "voices", strings voices)])).
Definition groups_typing (gid : list Z) (on : bool) (agent : option (list Z)) : IOC unit :=
  tell "group.typing" (obj (one "gid" gid ++ [(js "on", JBool on)] ++ opt_prop (js "agent") JStr (agent ≫= non_empty))).
Definition groups_markRead (gid : list Z) (seq : Z) : IOC unit := tell "group.markRead" (obj (one "gid" gid ++ num_prop "seq" (Some seq))).
Definition groups_leave (gid : list Z) : IOC unit := tell "group.leave" (obj (one "gid" gid)).
Definition member_call (method : string) (gid fp : list Z) : IOC unit := tell method (obj (one "gid" gid ++ one "fp" fp)).
Definition groups_setProfile (gid : list Z) (p : GroupProfile) : IOC unit := tell "group.setProfile" (obj (one "gid" gid ++ [(js "profile", profileToWire p)])).
Definition groups_pin (gid body : list Z) : IOC unit := tell "group.pin" (obj (one "gid" gid ++ one "body" body)).
Definition groups_unpin (gid id : list Z) : IOC unit := tell "group.unpin" (obj (one "gid" gid ++ one "id" id)).
Definition groups_lookup (uri : list Z) : IOC (option GroupCardView) :=
  r ← ask "group.lookup" (Some (obj (one "uri" uri))); mret (card_of <$> present (get r (js "card"))).
Definition groups_apply (uri : list Z) (note : option (list Z)) (payment : option JoinPayment) : IOC (list Z) :=
  r ← ask "group.apply" (Some (apply_params uri note payment)); mret (str0 (get r (js "gid"))).
Definition groups_applications (gid : list Z) : IOC (list GroupApplication) :=
  r ← ask "group.applications" (Some (obj (one "gid" gid))); now ← clock_now; rows (applicationFromWire Date_parse now) (get r (js "applications")).

(** ** Messages *)

Definition send (to body : list Z) (o : option SendOptions) : IOC SendReceipt := r ← ask "message.send" (Some (send_params to body o)); mret (receipt_of r).
Definition typing (to : list Z) (on : bool) : IOC unit := tell "message.typing" (obj (one "to" to ++ [(js "on", JBool on)])).
Definition conversation (fp : list Z) (o : ConvOptions) : IOC (list ConversationEntry * bool) :=
  r ← ask "conversation.get" (Some (conv_params "fp" fp o));
  now ← clock_now;
  l ← rows (entryFromWire Date_parse now) (get r (js "entries"));
  mret (l, is_true (get r (js "typing"))).
Definition markRead (fp : list Z) (seq : Z) : IOC unit := tell "conversation.markRead" (obj (one "fp" fp ++ num_prop "seq" (Some seq))).
Definition presence (fps : list (list Z)) : IOC (gmap (list Z) bool) :=
  r ← ask "presence" (Some (obj [(js "fps", strings fps)]));
  mret (match present (get r (js "online")) with Some v => read_entries (λ _ x, as_bool (Some x)) (entries v) | None => ∅ end).
Definition relaunch : IOC unit :=
  pid ← gets sc_pid; tell "host.relaunch" (obj (command ++ num_prop "peer_pid" pid)).

(** The client as an implementation of the interface. *)
Definition SoulnetNetwork : NetworkClient Calls := {|
  Date_now := λ s, clock (sc_peer s);
  net_identity := identity;
  net_parseCard := λ uri, r ← parseCard uri; mret r.1;
  net_friends_list := friends_list;
  net_friends_add := friends_add;
  net_presence := presence;
  net_send := send;
  net_conversation := conversation;
  net_groups_info := groups_info;
  net_groups_send := groups_send;
  net_groups_conversation := groups_conversation;
  net_status := sc_status;
  net_createIdentity := createIdentity;
  net_friends_pending := friends_pending;
  net_friends_accept := friends_accept;
  net_friends_reject := friends_reject;
  net_friends_set := friends_set;
  net_friends_card := friends_card;
  net_profile_get := profile_get;
  net_profile_save := profile_save;
  net_directory_fetch := directory_fetch;
  net_directory_publish := directory_publish;
  net_groups_list := groups_list;
  net_groups_create := groups_create;
  net_groups_markRead := groups_markRead;
  net_groups_announceVoices := groups_announceVoices;
  net_groups_typing := groups_typing;
  net_groups_leave := groups_leave;
  net_groups_kick := member_call "group.kick";
  net_groups_setProfile := groups_setProfile;
  net_groups_pin := groups_pin;
  net_groups_unpin := groups_unpin;
  net_groups_lookup := groups_lookup;
  net_groups_apply := groups_apply;
  net_groups_applications := groups_applications;
  net_groups_approve := member_call "group.approve";
  net_groups_applicationReject := member_call "group.applicationReject";
  net_groups_invite := member_call "group.invite";
  net_typing := typing;
  net_markRead := markRead;
  net_relaunch := Some relaunch |}.
End calls.
Arguments Calls : clear implicits.
Arguments mkCalls {P} _ _ _ _ _.

(** ** Where the binary comes from *)

Inductive SoulnetBinarySource := FromSetting | FromPackage | FromPath | FromPlugin.
#[export] Instance SoulnetBinarySource_eq_dec : EqDecision SoulnetBinarySource.
Proof. solve_decision. Defined.
Record SoulnetBinaryLocation := mkLocation { lo_path : list Z; lo_source : SoulnetBinarySource }.

Definition PLATFORM_PACKAGE_PREFIX : list Z := js "soulnet-peer-".
Definition PLATFORM_PACKAGE_TARGETS : list (list Z) := [js "win32-x64"; js "darwin-arm64"; js "darwin-x64"; js "linux-x64"; js "linux-arm64"].
Definition platformPackageName (platform arch : list Z) : option (list Z) :=
  if bool_decide (platform ++ js "-" ++ arch ∈ PLATFORM_PACKAGE_TARGETS)
  then Some (PLATFORM_PACKAGE_PREFIX ++ (if jeqb platform (js "win32") then js "windows" else platform) ++ js "-" ++ arch)
  else None.

Section locate.
Context `{LowerCase}.
(** The file system and the platform: which files exist, [path.join], [path.isAbsolute],
    the separator of PATH, the directory of an installed package, the roots
    next to this module. *)
Context (file_exists : list Z → bool) (path_join : list Z → list Z → list Z) (isAbsolute : list Z → bool) (delimiter : Z)
  (package_dir : list Z → option (list Z)) (roots : list (list Z)).

Definition defaultSoulnetHome (SOULNET_HOME : option (list Z)) (homedir : list Z) : list Z :=
  match SOULNET_HOME with Some d => if jeqb d [] then path_join homedir (js ".soulnet") else d | None => path_join homedir (js ".soulnet") end.

Definition binary_names (platform : list Z) : list (list Z) := if jeqb platform (js "win32") then [js "soulnet.exe"; js "soulnet"] else [js "soulnet"].
Definition path_dirs (PATH : option (list Z)) : list (list Z) := filterb (λ d, negb (jeqb d [])) (split_on delimiter (PATH ?? [])).

(** The first of the candidate files that exists. *)
Definition first_file (l : list (list Z)) : option (list Z) := findb file_exists l.
Definition in_dirs (dirs names : list (list Z)) : list (list Z) := concat (map (λ d, map (path_join d) names) dirs).

(** The files tried for a bare name from the settings. *)
Definition setting_files (platform candidate : list Z) (dirs : list (list Z)) : list (list Z) :=
  concat (map (λ d, let full := path_join d candidate in
    full :: (if jeqb platform (js "win32") && negb (endsWith (toLowerCase candidate) (js ".exe")) then [full ++ js ".exe"] else [])) dirs).

Definition locateSoulnetBinary (explicit PATH : option (list Z)) (platform arch : list Z) : option SoulnetBinaryLocation :=
  let names := binary_names platform in
  let candidate := trim (explicit ?? []) in
  if negb (jeqb candidate []) then
    if isAbsolute candidate || includes candidate (js "/") || includes candidate [92] then Some (mkLocation candidate FromSetting)
    else Some (mkLocation (first_file (setting_files platform candidate (path_dirs PATH)) ?? candidate) FromSetting)
  else match (d ← platformPackageName platform arch ≫= package_dir; first_file (map (path_join (path_join d (js "bin"))) names)) with
  | Some f => Some (mkLocation f FromPackage)
  | None =>
      match first_file (in_dirs (path_dirs PATH) names) with
      | Some f => Some (mkLocation f FromPath)
      | None => (λ f, mkLocation f FromPlugin) <$> first_file (in_dirs (map (λ r, path_join r (js "bin")) roots) names)
      end
  end.
End locate.

(** * Theorems *)

(** The payment an applicant attaches reaches the owner's client whole: what
    [group.apply] sends is what the notification of the application is read
    back as, the payer and the wallet's proof included. *)
Theorem payment_roundtrip (uri : list Z) (note : option (list Z)) (p : JoinPayment) :
  payment_of_message (get (apply_params uri note (Some p)) (js "payment")) = Some p.
Proof.
  assert (get (apply_params uri note (Some p)) (js "payment") = Some (payment_to_wire p)) as ->.
  { unfold apply_params, obj, get, one. rewrite !prop_of_app, !prop_of_opt. cbn [prop_of]. eval_keys. done. }
  destruct p as [tx amount to payer proof pnote].
  unfold payment_of_message, payment_to_wire, getq, str0, str, obj, one. cbn [mbind option_bind get pay_tx_hash pay_amount pay_to pay_payer pay_proof pay_note].
  rewrite !prop_of_app, !prop_of_opt. cbn [prop_of]. eval_keys. cbv iota. cbn [as_string nullish].
  f_equal. f_equal; [by destruct payer| |by destruct pnote]. destruct proof as [[m k s]|]; [|done]. vm_compute. done.
Qed.

Section names.
Context {P : Type} `{JsonText}.
Context (rpc : list Z → option json → P → (Thrown + json) * P) (clock : P → Z) (Date_parse : list Z → option Z).

Lemma ask_run method params (s s' : Calls P) r : ask rpc method params s = (r, s') → ∃ p, s' = with_peer p s.
Proof.
  unfold ask, call, mbind, io_bind. destruct (rpc _ _ _) as [[e|v] p]; [intros [= <- <-]; by exists p|].
  destruct v; intros [= <- <-]; by exists p.
Qed.
Lemma rows_run {A} (f : json → A) v (s s' : Calls P) l : rows f v s = (inr l, s') → s' = s.
Proof. unfold rows, mret, io_ret, throw. intros Hr. by repeat case_match; simplify_eq. Qed.

Lemma rememberNames_get (l : list Friend) (names : list (list Z * list Z)) (f : Friend) :
  NoDup (map fr_fp l) → f ∈ l → map_get (rememberNames l names) (fr_fp f) = Some (fr_name f).
Proof.
  revert names. induction l as [|x l IH]; intros names Hd Hf; [by apply elem_of_nil in Hf|]. apply NoDup_cons in Hd as [Hx Hd]. cbn.
  apply elem_of_cons in Hf as [<-|Hf]; [|by apply IH].
  assert (∀ l names, fr_fp f ∉ map fr_fp l → map_get (rememberNames l names) (fr_fp f) = map_get names (fr_fp f)) as Hkeep.
  { clear. induction l as [|y l IH]; intros names Hn; [done|]. cbn in *. apply not_elem_of_cons in Hn as [Hy Hn]. rewrite (IH _ Hn), map_get_set.
    rewrite (proj2 (jeqb_neq _ _)); [done|]. by intros E. }
  etrans; [exact (Hkeep _ _ Hx)|]. by rewrite map_get_set, jeqb_refl.
Qed.

(** After a friend list has been fetched the notifications of mail show the
    names of that list. *)
Theorem names_follow_list (s s' : Calls P) (l : list Friend) (f : Friend) (now : Z) (p : json)
    (Hl : friends_list rpc clock Date_parse s = (inr l, s')) (Hd : NoDup (map fr_fp l)) (Hf : f ∈ l)
    (Hp : get p (js "peer") = Some (JStr (fr_fp f))) :
  im_name (received_message Date_parse (sc_names s') now p) = fr_name f.
Proof.
  assert (sc_names s' = rememberNames l (sc_names s)) as ->.
  { unfold friends_list in Hl. io_inv. apply ask_run in E as [q ->]. unfold clock_now, gets in E0. simplify_eq/=. apply rows_run in E1 as ->.
    unfold note_names, modify in E2. by simplify_eq/=. }
  unfold received_message. cbn [im_name]. rewrite Hp. unfold str0, str. cbn [as_string nullish]. unfold known_name.
  by rewrite (rememberNames_get _ _ _ Hd Hf).
Qed.
End names.

(** ** The peer's archive *)

(** What the peer promises of its archive: a sent message has a sequence number, and asking
    for the entry after the one before it answers the message. *)
Class PeerArchive {P : Type} (rpc : list Z → option json → P → (Thrown + json) * P) (inv : P → Prop) := {
  send_kept : ∀ to body o p r p1, inv p → rpc (js "message.send") (Some (send_params to body o)) p = (inr r, p1) →
    ∃ seq e answer p2, 0 < seq ∧ get r (js "seq") = Some (JNum (num_of_Z seq)) ∧
      rpc (js "conversation.get") (Some (conv_params "fp" to (mkConv (Some (seq - 1)) (Some 1)))) p1 = (inr answer, p2) ∧
      get answer (js "entries") = Some (JArr [e]) ∧
      get e (js "seq") = Some (JNum (num_of_Z seq)) ∧ get e (js "dir") = Some (JStr (js "out")) ∧
      str0 (get e (js "id")) = str0 (get r (js "id")) ∧ get e (js "body") = Some (JStr body) ∧
      (get e (js "auto") = Some (JBool true) ↔ (o ≫= so_auto) = Some true);
}.

Lemma is_true_iff v : is_true v = true ↔ v = Some (JBool true).
Proof. unfold is_true. split; [|by intros ->]. by repeat case_match; intros; simplify_eq. Qed.

Lemma ask_ok {P} (rpc : list Z → option json → P → (Thrown + json) * P) method params (s : Calls P) k v r p :
  rpc (js method) params (sc_peer s) = (inr r, p) → get r k = Some v → ask rpc method params s = (inr r, with_peer p s).
Proof. intros Hr Hk. unfold ask, call, mbind, io_bind. rewrite Hr. by destruct r. Qed.

(** Over a peer that keeps its archive the soulnet client meets the contract
    [sendAndArchive] relies on: a send can be read back by its sequence number. *)
Theorem soulnet_archives {P : Type} `{JsonText} (rpc : list Z → option json → P → (Thrown + json) * P) (clock : P → Z)
    (Date_parse : list Z → option Z) (command : list (list Z * json)) (inv : P → Prop) (Hpeer : PeerArchive rpc inv) :
  @ArchivingClient (Calls P) (SoulnetNetwork rpc clock Date_parse command) (λ s, inv (sc_peer s)).
Proof.
  constructor. intros fp body o s receipt s1 Hi Hs. cbn [net_send net_conversation SoulnetNetwork] in *. unfold send in Hs. io_inv.
  destruct (rpc (js "message.send") (Some (send_params fp body o)) (sc_peer s)) as [[e|r] p1] eqn:Er.
  { unfold ask, call, mbind, io_bind in E. rewrite Er in E. discriminate. }
  destruct (send_kept _ _ _ _ _ _ Hi Er) as (seq & e & answer & p2 & Hpos & Hseq & Ha & He & H1 & H2 & H3 & H4 & H5).
  rewrite (ask_ok rpc _ _ s _ _ _ _ Er Hseq) in E. simplify_eq.
  eexists (entryFromWire Date_parse (clock p2) e), _, (with_peer p2 (with_peer p1 s)).
  assert (ce_seq (entryFromWire Date_parse (clock p2) e) = seq) as Hce.
  { cbn. rewrite H1. unfold int_or. cbn [as_number]. apply int_of_num. }
  assert ((if is_true (get e (js "auto")) then Some true else None) = Some true ↔ (o ≫= so_auto) = Some true) as Hauto.
  { rewrite <- H5, <- is_true_iff. by destruct (is_true _). }
  split; [by rewrite Hce|]. split.
  - unfold is_sent. cbn -[int_or is_true]. rewrite H1, H2, Hseq, H3, H4. unfold int_or. cbn [as_number]. rewrite !int_of_num. split_and!; try done.
    change (Some (int_of (num_of_Z seq)) = Some seq). by rewrite int_of_num.
  - rewrite Hce. unfold conversation, mbind, io_bind. rewrite (ask_ok rpc _ _ (with_peer p1 s) _ _ _ _ Ha He). unfold clock_now, gets, rows. rewrite He. done.
Qed.

(** ** Witnesses *)

(** A peer with one archive: it numbers what is sent and answers what comes after a number. *)
Definition demo_rpc (method : list Z) (params : option json) (p : list json) : (Thrown + json) * list json :=
  let arg k := getq params (js k) in
  if jeqb method (js "message.send") then
    let seq := Z.of_nat (length p) + 1 in
    let id := (js "id", JStr (js "m" ++ dec seq)) in
    let sq := (js "seq", JNum (num_of_Z seq)) in
    let entry := JObj ([sq; (js "dir", JStr (js "out")); id; (js "body", JStr (str0 (arg "body"%string)))]
                       ++ (if is_true (arg "auto"%string) then [(js "auto", JBool true)] else [])) in
    (inr (JObj [id; sq; (js "status", JStr (js "sent"))]), p ++ [entry])
  else if jeqb method (js "conversation.get") then
    (inr (JObj [(js "entries", JArr (drop (Z.to_nat (int_or (arg "since"%string) 0)) p))]), p)
  else if jeqb method (js "friends.list") then
    (inr (JObj [(js "friends", JArr [JObj [(js "fingerprint", JStr (js "f1")); (js "card", JObj [(js "name", JStr (js "Ann"))])]])]), p)
  else (inl (ThrownRpc (js "method not found") (num_of_Z (-32601))), p).

Lemma get_send_body to body o : get (send_params to body o) (js "body") = Some (JStr body).
Proof. unfold send_params, obj, get, one. rewrite !prop_of_app, !prop_of_opt. cbn [prop_of]. by eval_keys. Qed.
Lemma get_send_auto to body o : get (send_params to body o) (js "auto") = if bool_decide ((o ≫= so_auto) = Some true) then Some (JBool true) else None.
Proof. unfold send_params, obj, get, one, auto_true. rewrite !prop_of_app, !prop_of_opt. case_bool_decide; cbn [prop_of]; by eval_keys. Qed.
Lemma get_conv_since id z l : get (conv_params "fp" id (mkConv (Some z) (Some l))) (js "since") = Some (JNum (num_of_Z z)).
Proof. reflexivity. Qed.

Lemma demo_keeps : PeerArchive demo_rpc (λ _, True).
Proof.
  constructor. intros to body o p r p1 _ Hs. unfold demo_rpc in Hs. rewrite jeqb_refl in Hs. simplify_eq.
  set (seq := Z.of_nat (length p) + 1). eexists seq, _, _, _.
  split; [lia|]. split; [reflexivity|]. split.
  { unfold demo_rpc. change (jeqb (js "conversation.get") (js "message.send")) with false. rewrite jeqb_refl. cbv iota.
    change (getq (Some ?x) ?k) with (get x k). rewrite get_conv_since. unfold int_or. cbn [as_number]. rewrite int_of_num.
    replace (Z.to_nat (seq - 1)) with (length p) by lia. rewrite drop_app_length. reflexivity. }
  split; [reflexivity|]. change (getq (Some ?x) ?k) with (get x k). rewrite get_send_auto.
  split; [reflexivity|]. split; [reflexivity|]. split; [reflexivity|]. split; [by rewrite get_send_body|].
  case_bool_decide as E; cbn [is_true app]; [done|]. split; [|done]. vm_compute. discriminate.
Qed.

Definition demo_calls : Calls (list json) := mkCalls [] None [] JNull None.

Lemma soulnet_archives_witness :
  @ArchivingClient (Calls (list json)) (@SoulnetNetwork _ CodedJson demo_rpc (λ _, 0) (λ _, None) []) (λ _, True).
Proof. exact (@soulnet_archives _ CodedJson demo_rpc (λ _, 0) (λ _, None) [] (λ _, True) demo_keeps). Defined.

Lemma names_follow_list_witness :
  im_name (received_message (λ _, None) (sc_names (friends_list demo_rpc (λ _, 0) (λ _, None) demo_calls).2) 7 (JObj [(js "peer", JStr (js "f1"))])) = js "Ann".
Proof.
  set (l := match (friends_list demo_rpc (λ _, 0) (λ _, None) demo_calls).1 with inr l => l | inl _ => [] end).
  set (f := friendFromWire (λ _, None) 0 (JObj [(js "fingerprint", JStr (js "f1")); (js "card", JObj [(js "name", JStr (js "Ann"))])])).
  apply (names_follow_list demo_rpc (λ _, 0) (λ _, None) demo_calls _ l f).
  - vm_compute. reflexivity.
  - vm_compute. apply NoDup_singleton.
  - vm_compute. by left.
  - vm_compute. reflexivity.
Defined.

(** ** The binary *)

Section binary.
Context `{LowerCase}.
Context (file_exists : list Z → bool) (path_join : list Z → list Z → list Z) (isAbsolute : list Z → bool) (delimiter : Z)
  (package_dir : list Z → option (list Z)) (roots : list (list Z)).
Notation locate := (locateSoulnetBinary file_exists path_join isAbsolute delimiter package_dir roots).

Lemma fallback_found (on_path beside : list (list Z)) (l : SoulnetBinaryLocation) :
  match first_file file_exists on_path with
  | Some f => Some (mkLocation f FromPath)
  | None => (λ f, mkLocation f FromPlugin) <$> first_file file_exists beside
  end = Some l → lo_source l ≠ FromSetting ∧ file_exists (lo_path l) = true.
Proof.
  destruct (first_file _ on_path) as [f|] eqn:Ep; [intros [= <-]; by apply findb_Some in Ep as [_ Ep]|].
  intros (f & Hf & ->)%fmap_Some. by apply findb_Some in Hf as [_ Hf].
Qed.

(** A binary set by the user is used and nothing else is looked for; without
    one, what is found exists, and the package that was installed for this
    platform wins over PATH and the plugin's own directory. *)
Theorem binary_precedence (explicit PATH : option (list Z)) (platform arch : list Z) :
  (trim (explicit ?? []) ≠ [] → ∃ f, locate explicit PATH platform arch = Some (mkLocation f FromSetting)) ∧
  (trim (explicit ?? []) = [] → ∀ l, locate explicit PATH platform arch = Some l →
     lo_source l ≠ FromSetting ∧ file_exists (lo_path l) = true ∧
     (∀ pkg d n, platformPackageName platform arch = Some pkg → package_dir pkg = Some d → n ∈ binary_names platform →
        file_exists (path_join (path_join d (js "bin")) n) = true → lo_source l = FromPackage)).
Proof.
  unfold locateSoulnetBinary. split.
  - intros Hc. rewrite (proj2 (jeqb_neq _ _) Hc). cbn [negb]. destruct (_ || _); eauto.
  - intros ->. cbn [jeqb negb]. rewrite jeqb_refl. cbn [negb]. intros l.
    destruct (platformPackageName platform arch ≫= package_dir) as [d|] eqn:Ed; cbn [mbind option_bind].
    + destruct (first_file file_exists _) as [f|] eqn:Ef.
      { intros [= <-]. apply findb_Some in Ef as [_ Ef]. done. }
      intros Hl. apply fallback_found in Hl as [H1 H2].
      split_and!; [done..|]. intros pkg d' n Hpkg Hd Hn He. rewrite Hpkg in Ed. cbn in Ed. rewrite Hd in Ed. simplify_eq.
      unfold first_file in Ef. rewrite findb_None in Ef. rewrite (Ef (path_join (path_join d (js "bin")) n)) in He; [done|].
      by apply list_elem_of_fmap_2.
    + intros Hl. apply fallback_found in Hl as [H1 H2].
      split_and!; [done..|]. intros pkg d' n Hpkg Hd _ _. rewrite Hpkg in Ed. cbn in Ed. by rewrite Hd in Ed.
Qed.
End binary.

Definition demo_join (d n : list Z) : list Z := d ++ js "/" ++ n.
Lemma binary_precedence_witness :
  let disk f := jeqb f (js "/usr/bin/soulnet") || jeqb f (js "/pkg/bin/soulnet") in
  let locate := @locateSoulnetBinary AsciiLowerCase disk demo_join (λ p, startsWith p (js "/")) 58 (λ _, Some (js "/pkg")) [] in
  (∃ f, locate (Some (js "/opt/peer")) None (js "linux") (js "x64") = Some (mkLocation f FromSetting)) ∧
  lo_source <$> locate None (Some (js "/usr/bin")) (js "linux") (js "x64") = Some FromPackage.
Proof.
  intros disk locate. split.
  - apply (@binary_precedence AsciiLowerCase disk demo_join (λ p, startsWith p (js "/")) 58 (λ _, Some (js "/pkg")) []). vm_compute. discriminate.
  - vm_compute. reflexivity.
Defined.
