(* ===== verification/Upgrade.v ===== *)
(** * Self-upgrade (api/upgrade.ts)

    The version gate (a regular expression), semantic-version precedence, the
    registry query, the search for the profile directory and the one-at-a-time
    [pnpm] run.  Directories are lists of path segments, innermost first (the
    root is the empty list); the file system is a function from a directory to
    the parsed [package.json], [fetch] a function from a registry to its
    answer.  [Number] is modelled on numerals of decimal digits, exactly (the
    parts of a version stay far below 2^53). *)

From S2P Require Import Prelude JsString Json.
#[local] Open Scope Z_scope.

Definition UPGRADE_PACKAGE : list Z := js "soulnet-dsh".
Definition UPGRADE_REGISTRIES : list (list Z) := [js "https://registry.npmjs.org"; js "https://registry.npmmirror.com"].
Definition OUTPUT_TAIL_LIMIT : nat := 8000.

(** ** Regular expressions *)

Inductive regex :=
| RNone
| REmpty
| RClass (p : Z → bool)
| RSeq (a b : regex)
| RAlt (a b : regex)
| RStar (a : regex).

(** The strings an expression matches from end to end ([^...$]). *)
Inductive matches : regex → list Z → Prop :=
| m_empty : matches REmpty []
| m_class p c : p c = true → matches (RClass p) [c]
| m_seq a b s t : matches a s → matches b t → matches (RSeq a b) (s ++ t)
| m_left a b s : matches a s → matches (RAlt a b) s
| m_right a b s : matches b s → matches (RAlt a b) s
| m_done a : matches (RStar a) []
| m_more a s t : matches a s → matches (RStar a) t → matches (RStar a) (s ++ t).

Fixpoint nullable (r : regex) : bool :=
  match r with
  | RNone | RClass _ => false
  | REmpty | RStar _ => true
  | RSeq a b => nullable a && nullable b
  | RAlt a b => nullable a || nullable b
  end.

(** What remains to be matched after the character [c]. *)
Fixpoint deriv (c : Z) (r : regex) : regex :=
  match r with
  | RNone | REmpty => RNone
  | RClass p => if p c then REmpty else RNone
  | RSeq a b => if nullable a then RAlt (RSeq (deriv c a) b) (deriv c b) else RSeq (deriv c a) b
  | RAlt a b => RAlt (deriv c a) (deriv c b)
  | RStar a => RSeq (deriv c a) (RStar a)
  end.

Definition test (r : regex) (s : list Z) : bool := nullable (fold_left (λ r c, deriv c r) s r).

Lemma nullable_spec r : nullable r = true ↔ matches r [].
Proof.
  split.
  - induction r as [| |p|a IHa b IHb|a IHa b IHb|a IHa]; simpl; intros Hn; try done; [constructor| | |constructor].
    + apply andb_true_iff in Hn as [H1 H2]. change (@nil Z) with ([] ++ @nil Z). constructor; auto.
    + apply orb_true_iff in Hn as [H1|H1]; [apply m_left|apply m_right]; auto.
  - intros Hm. remember (@nil Z) as s eqn:Es. induction Hm; simpl; try done.
    + apply app_eq_nil in Es as [-> ->]. by rewrite IHHm1, IHHm2.
    + by rewrite IHHm.
    + rewrite IHHm by done. apply orb_true_r.
Qed.

Lemma deriv_sound c r s : matches (deriv c r) s → matches r (c :: s).
Proof.
  revert s. induction r as [| |p|a IHa b IHb|a IHa b IHb|a IHa]; simpl; intros s Hm.
  - inversion Hm.
  - inversion Hm.
  - destruct (p c) eqn:Ep; inversion Hm; subst. by constructor.
  - assert (Hs : matches (RSeq (deriv c a) b) s → matches (RSeq a b) (c :: s)).
    { inversion 1; subst. change (c :: s0 ++ t) with ((c :: s0) ++ t). constructor; auto. }
    destruct (nullable a) eqn:Ea; [|auto]. inversion Hm; subst; [auto|].
    change (c :: s) with ([] ++ c :: s). constructor; [by apply nullable_spec|auto].
  - inversion Hm; subst; [apply m_left|apply m_right]; auto.
  - inversion Hm; subst. change (c :: s0 ++ t) with ((c :: s0) ++ t). apply m_more; auto.
Qed.

Lemma deriv_complete c r s : matches r (c :: s) → matches (deriv c r) s.
Proof.
  intros Hm. remember (c :: s) as cs eqn:E. revert c s E.
  induction Hm as [|p d Hp|a b s1 t H1 IH1 H2 IH2|a b s1 H1 IH1|a b s1 H1 IH1|a|a s1 t H1 IH1 H2 IH2]; intros c s E; simpl; try done.
  - simplify_eq. rewrite Hp. constructor.
  - destruct s1 as [|d s1]; simpl in E.
    + apply nullable_spec in H1. rewrite H1. apply m_right. by apply IH2.
    + simplify_eq. assert (matches (RSeq (deriv c a) b) (s1 ++ t)) by (constructor; auto).
      destruct (nullable a); [by apply m_left|done].
  - apply m_left. auto.
  - apply m_right. auto.
  - destruct s1 as [|d s1]; simpl in E; [by apply IH2|]. simplify_eq. constructor; auto.
Qed.

Lemma test_matches r s : test r s = true ↔ matches r s.
Proof.
  unfold test. revert r. induction s as [|c s IH]; intros r; simpl; [apply nullable_spec|].
  rewrite IH. split; [apply deriv_sound|apply deriv_complete].
Qed.

(** ** The version gate *)

Definition RChar (c : Z) : regex := RClass (λ d, d =? c).
Definition RPlus (a : regex) : regex := RSeq a (RStar a).
Definition ROpt (a : regex) : regex := RAlt a REmpty.

Definition digit19 (c : Z) : bool := (49 <=? c) && (c <=? 57).
Definition id_char (c : Z) : bool := is_digit c || is_upper c || is_lower c || (c =? 45).

(** A numeral without leading zeros. *)
Definition NUM_RE : regex := RAlt (RChar 48) (RSeq (RClass digit19) (RStar (RClass is_digit))).
(** Identifiers of letters, digits and hyphens, separated by dots. *)
Definition PRE_RE : regex := RSeq (RPlus (RClass id_char)) (RStar (RSeq (RChar 46) (RPlus (RClass id_char)))).
Definition SEMVER_RE : regex :=
  RSeq NUM_RE (RSeq (RChar 46) (RSeq NUM_RE (RSeq (RChar 46) (RSeq NUM_RE (ROpt (RSeq (RChar 45) PRE_RE)))))).

Definition isValidVersion (version : list Z) : bool := test SEMVER_RE version.

(** ** Precedence *)

Definition is_numeral (s : list Z) : bool := negb (jeqb s []) && forallb is_digit s.

(** [Number] of a numeral (the empty text is zero); [None] is [NaN]. *)
Definition digits_value (s : list Z) : Z := fold_left (λ n c, 10 * n + (c - 48)) s 0.
Definition Number (s : list Z) : option Z := if forallb is_digit s then Some (digits_value s) else None.

(** [a < b ? -1 : a > b ? 1 : 0] on strings compares code units. *)
Fixpoint compare_units (a b : list Z) : comparison :=
  match a, b with
  | [], [] => Eq
  | [], _ => Lt
  | _, [] => Gt
  | x :: a', y :: b' => match x ?= y with Eq => compare_units a' b' | r => r end
  end.
Definition sign (r : comparison) : Z := match r with Lt => -1 | Eq => 0 | Gt => 1 end.

Definition compareIdentifier (a b : list Z) : Z :=
  match is_numeral a, is_numeral b with
  | true, true => sign (digits_value a ?= digits_value b)
  | true, false => -1
  | false, true => 1
  | false, false => sign (compare_units a b)
  end.

(** [s.split('-', 2)]: the text before the first hyphen, and the piece after
    it up to the second one. *)
Definition split2 (s : list Z) : list Z * option (list Z) :=
  match split_on 45 s with
  | [] => ([], None)
  | core :: rest => (core, head rest)
  end.

(** The loop over the three numbers; [None] is a [NaN] difference. *)
Fixpoint compare_core (n : nat) (a b : list (option Z)) : option Z :=
  match n with
  | O => Some 0
  | S n' =>
      match default (Some 0) (head a), default (Some 0) (head b) with
      | Some x, Some y => if x - y =? 0 then compare_core n' (tail a) (tail b) else Some (x - y)
      | _, _ => None
      end
  end.

(** The loop over the prerelease identifiers. *)
Fixpoint compare_ids (a b : list (list Z)) : Z :=
  match a, b with
  | [], [] => 0
  | [], _ :: _ => -1
  | _ :: _, [] => 1
  | x :: a', y :: b' => let d := compareIdentifier x y in if d =? 0 then compare_ids a' b' else d
  end.

Definition compareVersions (a b : list Z) : option Z :=
  let '(coreA, preA) := split2 a in
  let '(coreB, preB) := split2 b in
  match compare_core 3 (map Number (split_on 46 coreA)) (map Number (split_on 46 coreB)) with
  | Some 0 =>
      Some (match preA, preB with
            | None, None => 0
            | None, Some _ => 1
            | Some _, None => -1
            | Some p, Some q => compare_ids (split_on 46 p) (split_on 46 q)
            end)
  | r => r
  end.

(** [compareVersions(...) > 0]. *)
Definition positive (r : option Z) : bool := match r with Some d => 0 <? d | None => false end.

(** ** The registry query *)

(** What a registry does: the request throws, or answers a status and a body
    ([None] when it is not JSON). *)
Inductive Fetched := FetchThrows | FetchAnswer (ok : bool) (body : option json).

(** [data['dist-tags']?.latest] of a body, when it is a string ([data] being
    [null] throws, like a body that is not JSON: the next registry is tried). *)
Definition latest_of (body : json) : option (list Z) :=
  match get body (js "dist-tags") with Some t => as_string (get t (js "latest")) | None => None end.

Fixpoint fetchLatest (fetch : list Z → Fetched) (registries : list (list Z)) : option (list Z * list Z) :=
  match registries with
  | [] => None
  | registry :: rest =>
      match fetch registry with
      | FetchAnswer true (Some body) =>
          match latest_of body with
          | Some latest => if isValidVersion latest then Some (latest, registry) else fetchLatest fetch rest
          | None => fetchLatest fetch rest
          end
      | _ => fetchLatest fetch rest
      end
  end.

(** ** Directories *)

Section directories.
(** The parsed [package.json] of a directory. *)
Context (package_json : list (list Z) → option json).

Record Manifest := mkManifest { mf_name : option (list Z); mf_version : option (list Z); mf_deps : list (list Z) }.

Definition readManifest (dir : list (list Z)) : option Manifest :=
  match package_json dir with
  | Some JNull | None => None
  | Some parsed =>
      Some (mkManifest (as_string (get parsed (js "name"))) (as_string (get parsed (js "version")))
        (match get parsed (js "dependencies") with Some d => map fst (entries d) | None => [] end
         ++ match get parsed (js "devDependencies") with Some d => map fst (entries d) | None => [] end))
  end.

(** [ownVersion]: the loop of at most [n] steps up. *)
Fixpoint own_version (n : nat) (dir : list (list Z)) : option (list Z) :=
  match n with
  | O => None
  | S n' =>
      let found := match readManifest dir with
                   | Some m => if bool_decide (mf_name m = Some UPGRADE_PACKAGE) then mf_version m else None
                   | None => None
                   end in
      match found with
      | Some v => Some v
      | None => match dir with [] => None | _ :: parent => own_version n' parent end
      end
  end.
Definition ownVersion (startDir : list (list Z)) : option (list Z) := own_version 12 startDir.

Definition isProfile (dir : list (list Z)) : bool :=
  match readManifest dir with Some m => bool_decide (UPGRADE_PACKAGE ∈ mf_deps m) | None => false end.

(** The loop of [resolveWebProfileDir]: the outermost match wins. *)
Fixpoint profile_above (n : nat) (dir : list (list Z)) (found : option (list (list Z))) : option (list (list Z)) :=
  match n with
  | O => found
  | S n' =>
      match dir with
      | [] => found
      | name :: parent =>
          profile_above n' parent (if jeqb name (js "node_modules") && isProfile parent then Some parent else found)
      end
  end.

(** [dshHome] is [$DSH_HOME], or [~/.dsh] when it is unset or blank. *)
Definition resolveWebProfileDir (startDir dshHome : list (list Z)) : option (list (list Z)) :=
  match profile_above 24 startDir None with
  | Some d => Some d
  | None => let fallback := js "web" :: js "profiles" :: dshHome in if isProfile fallback then Some fallback else None
  end.

Record UpgradeCheck := mkCheck { uc_current : list Z; uc_latest : list Z; uc_hasUpdate : bool; uc_registry : list Z }.

Definition checkUpgrade (fetch : list Z → Fetched) (startDir : list (list Z)) : option UpgradeCheck :=
  match ownVersion startDir with
  | None => None
  | Some current =>
      match fetchLatest fetch UPGRADE_REGISTRIES with
      | Some (latest, registry) => Some (mkCheck current latest (positive (compareVersions latest current)) registry)
      | None => None
      end
  end.
End directories.

(** ** The run *)

Record RunResult := mkResult { rr_ok : bool; rr_exitCode : Z; rr_output : list Z; rr_version : list Z; rr_profileDir : list (list Z) }.

(** One call that spawned [pnpm]: the argument on its command line, its directory, whether
    the process has ended, the output so far and the settled result. *)
Record Run := mkRun {
  run_arg : list Z; run_version : list Z; run_cwd : list (list Z); run_registry : option (list Z); run_ended : bool; run_timer : bool;
  run_output : list Z; run_result : option RunResult }.

Record Upgrades := mkUpgrades { up_inflight : bool; up_runs : list Run }.
Definition no_upgrades : Upgrades := mkUpgrades false [].

Inductive Refusal := BadVersion | BadRegistry | NoProfile | AlreadyRunning.

(** [output.slice(-OUTPUT_TAIL_LIMIT)]. *)
Definition tail_of (s : list Z) : list Z := drop (length s - OUTPUT_TAIL_LIMIT) s.

Definition finish (i : nat) (exitCode : Z) (u : Upgrades) : Upgrades :=
  if negb (up_inflight u) then u
  else mkUpgrades false (alter (λ r, mkRun (run_arg r) (run_version r) (run_cwd r) (run_registry r) (run_ended r) (run_timer r) (run_output r)
         (match run_result r with Some x => Some x
          | None => Some (mkResult (exitCode =? 0) exitCode (trim (run_output r)) (run_version r) (run_cwd r)) end)) i (up_runs u)).

Definition append (i : nat) (chunk : list Z) (u : Upgrades) : Upgrades :=
  mkUpgrades (up_inflight u) (alter (λ r, mkRun (run_arg r) (run_version r) (run_cwd r) (run_registry r) (run_ended r) (run_timer r)
    (tail_of (run_output r ++ chunk)) (run_result r)) i (up_runs u)).

(** [runUpgrade]: [profileDir] is what the caller or the search gave, [spawn]
    the text of the exception when spawning throws. *)
Definition runUpgrade (version : list Z) (registry : option (list Z)) (profileDir : option (list (list Z))) (spawn : option (list Z)) (u : Upgrades)
  : Refusal + Upgrades :=
  if negb (isValidVersion version) then inl BadVersion
  else if match registry with Some r => negb (bool_decide (r ∈ UPGRADE_REGISTRIES)) | None => false end then inl BadRegistry
  else match profileDir with
  | None => inl NoProfile
  | Some dir =>
  if up_inflight u then inl AlreadyRunning
  else
    let i := length (up_runs u) in
    let run := mkRun (UPGRADE_PACKAGE ++ js "@" ++ version) version dir registry false true [] None in
    let u1 := mkUpgrades true (up_runs u ++ [run]) in
    inr (match spawn with
         | None => u1
         | Some text => finish i 1 (append i text (mkUpgrades true (up_runs u ++
             [mkRun (UPGRADE_PACKAGE ++ js "@" ++ version) version dir registry true false [] None])))
         end)
  end.

(** The callbacks of run [i].  The process has ended once it closed. *)
Definition set_run (i : nat) (ended timer : bool) (u : Upgrades) : Upgrades :=
  mkUpgrades (up_inflight u) (alter (λ r, mkRun (run_arg r) (run_version r) (run_cwd r) (run_registry r) (ended || run_ended r) (timer && run_timer r)
    (run_output r) (run_result r)) i (up_runs u)).

Definition run_times_out (i : nat) (text : list Z) (u : Upgrades) : Upgrades :=
  match up_runs u !! i with
  | Some r => if run_timer r then finish i 124 (append i text (set_run i false false u)) else u
  | None => u
  end.
Definition run_errors (i : nat) (enoent : bool) (text : list Z) (u : Upgrades) : Upgrades :=
  match up_runs u !! i with
  | Some _ => finish i (if enoent then 127 else 1)
      (append i (if enoent then js "pnpm not found on PATH — install pnpm to manage profile plugins" else text) (set_run i false false u))
  | None => u
  end.
Definition run_closes (i : nat) (code : option Z) (u : Upgrades) : Upgrades :=
  match up_runs u !! i with
  | Some r => if run_ended r then u else finish i (code ?? 1) (set_run i true false u)
  | None => u
  end.

(** ** What the gate accepts *)

Lemma matches_seq a b s : matches (RSeq a b) s ↔ ∃ s1 s2, s = s1 ++ s2 ∧ matches a s1 ∧ matches b s2.
Proof. split; [inversion 1; subst; eauto|]. intros (s1 & s2 & -> & ? & ?). by constructor. Qed.
Lemma matches_alt a b s : matches (RAlt a b) s ↔ matches a s ∨ matches b s.
Proof. split; [inversion 1; subst; eauto|]. intros [?|?]; [by apply m_left|by apply m_right]. Qed.
Lemma matches_char c s : matches (RChar c) s ↔ s = [c].
Proof.
  split; [inversion 1; subst; bools; by subst|]. intros ->. constructor. apply Z.eqb_refl.
Qed.
Lemma matches_star_class p s : matches (RStar (RClass p)) s ↔ forallb p s = true.
Proof.
  split.
  - intros Hm. remember (RStar (RClass p)) as r eqn:E. induction Hm; simplify_eq; [done|].
    inversion Hm1; subst. simpl. rewrite H0. by apply IHHm2.
  - induction s as [|c s IH]; simpl; [constructor|]. intros [Hc Hs]%andb_true_iff.
    change (c :: s) with ([c] ++ s). constructor; [by constructor|auto].
Qed.
Lemma matches_plus_class p s : matches (RPlus (RClass p)) s ↔ s ≠ [] ∧ forallb p s = true.
Proof.
  unfold RPlus. rewrite matches_seq. split.
  - intros (s1 & s2 & -> & H1 & H2%matches_star_class). inversion H1; subst. simpl. rewrite H2. split; [done|]. by rewrite H0.
  - intros [Hne Hf]. destruct s as [|c s]; [done|]. simpl in Hf. apply andb_true_iff in Hf as [Hc Hs].
    exists [c], s. split_and!; [done|by constructor|by apply matches_star_class].
Qed.

(** Numerals and prerelease identifiers. *)
Definition numeral (s : list Z) : Prop := s = [48] ∨ ∃ c r, s = c :: r ∧ digit19 c = true ∧ forallb is_digit r = true.
Definition identifier (s : list Z) : Prop := s ≠ [] ∧ forallb id_char s = true.

Lemma matches_num s : matches NUM_RE s ↔ numeral s.
Proof.
  unfold NUM_RE, numeral. rewrite matches_alt, matches_char, matches_seq. setoid_rewrite matches_star_class. split.
  - intros [->|(s1 & s2 & -> & H1 & H2)]; [by left|]. inversion H1; subst. right. eauto.
  - intros [->|(c & r & -> & Hc & Hr)]; [by left|]. right. exists [c], r. split_and!; [done|by constructor|done].
Qed.

Lemma matches_dotted s :
  matches (RStar (RSeq (RChar 46) (RPlus (RClass id_char)))) s ↔
  ∃ ids, Forall identifier ids ∧ s = concat (map (λ i, 46 :: i) ids).
Proof.
  split.
  - intros Hm. remember (RStar (RSeq (RChar 46) (RPlus (RClass id_char)))) as r eqn:E.
    induction Hm; simplify_eq; [by exists []|].
    apply matches_seq in Hm1 as (s1 & s2 & -> & ->%matches_char & Hid%matches_plus_class).
    destruct (IHHm2 eq_refl) as (ids & Hids & ->). exists (s2 :: ids). split; [by constructor|done].
  - intros (ids & Hids & ->). induction Hids as [|i ids Hi _ IH]; simpl; [constructor|].
    change (46 :: i ++ concat (map (λ i, 46 :: i) ids)) with ((46 :: i) ++ concat (map (λ i, 46 :: i) ids)).
    constructor; [|done]. change (46 :: i) with ([46] ++ i). constructor; [by apply matches_char|by apply matches_plus_class].
Qed.

Lemma concat_dotted i ids : i ++ concat (map (λ i, 46 :: i) ids) = jjoin [46] (i :: ids).
Proof.
  revert i. induction ids as [|j ids IH]; intros i; simpl; [by rewrite app_nil_r|]. rewrite IH. by destruct ids.
Qed.

Lemma matches_pre s : matches PRE_RE s ↔ ∃ ids, ids ≠ [] ∧ Forall identifier ids ∧ s = jjoin [46] ids.
Proof.
  unfold PRE_RE. rewrite matches_seq. setoid_rewrite matches_dotted. split.
  - intros (s1 & s2 & -> & H1%matches_plus_class & ids & Hids & ->). exists (s1 :: ids).
    split_and!; [done|by constructor|]. apply concat_dotted.
  - intros ([|i ids] & Hne & Hids & ->); [done|]. apply Forall_cons in Hids as [Hi Hids].
    exists i, (concat (map (λ i, 46 :: i) ids)). split_and!; [by rewrite concat_dotted|by apply matches_plus_class|eauto].
Qed.

(** ** Versions *)

(** A version: its three numerals and its prerelease identifiers. *)
Record Version := mkVersion { v_major : list Z; v_minor : list Z; v_patch : list Z; v_pre : list (list Z) }.
Definition version_ok (v : Version) : Prop :=
  numeral (v_major v) ∧ numeral (v_minor v) ∧ numeral (v_patch v) ∧ Forall identifier (v_pre v).
Definition show_core (v : Version) : list Z := v_major v ++ 46 :: v_minor v ++ 46 :: v_patch v.
Definition show_version (v : Version) : list Z :=
  show_core v ++ match v_pre v with [] => [] | ids => 45 :: jjoin [46] ids end.

Lemma valid_version_iff s : isValidVersion s = true ↔ ∃ v, version_ok v ∧ s = show_version v.
Proof.
  unfold isValidVersion. rewrite test_matches. unfold SEMVER_RE, ROpt, version_ok, show_version, show_core. split.
  - rewrite matches_seq. intros (a & ? & -> & Ha%matches_num & H1). apply matches_seq in H1 as (? & ? & -> & ->%matches_char & H1).
    apply matches_seq in H1 as (b & ? & -> & Hb%matches_num & H1). apply matches_seq in H1 as (? & ? & -> & ->%matches_char & H1).
    apply matches_seq in H1 as (c & ? & -> & Hc%matches_num & H1). apply matches_alt in H1 as [H1|H1].
    + apply matches_seq in H1 as (? & ? & -> & ->%matches_char & (ids & Hne & Hids & ->)%matches_pre).
      exists (mkVersion a b c ids). simpl. split; [done|]. rewrite <- !app_assoc. simpl. rewrite <- !app_assoc. simpl. by destruct ids.
    + inversion H1; subst. exists (mkVersion a b c []). simpl. split; [by repeat split|]. by rewrite !app_nil_r.
  - intros ([a b c ids] & (Ha & Hb & Hc & Hids) & ->). simpl in *.
    apply matches_num in Ha, Hb, Hc. rewrite <- !app_assoc. simpl. rewrite <- !app_assoc. constructor; [done|].
    apply (m_seq _ _ [46]); [by apply matches_char|]. constructor; [done|]. apply (m_seq _ _ [46]); [by apply matches_char|].
    constructor; [done|]. destruct ids as [|i ids]; [apply m_right; constructor|]. apply m_left.
    apply (m_seq _ _ [45]); [by apply matches_char|]. apply matches_pre. by exists (i :: ids).
Qed.

Definition version_char (c : Z) : bool := id_char c || (c =? 46).

Lemma numeral_digits s : numeral s → forallb is_digit s = true ∧ s ≠ [].
Proof.
  intros [->|(c & r & -> & Hc & Hr)]; [done|]. split; [|done]. simpl. rewrite Hr. unfold digit19, is_digit in *. bools.
  rewrite andb_true_r. apply andb_true_iff. split; apply Z.leb_le; lia.
Qed.

Lemma forallb_impl {A} (f g : A → bool) l : (∀ x, f x = true → g x = true) → forallb f l = true → forallb g l = true.
Proof. intros Hi. induction l as [|x l IH]; simpl; [done|]. intros [Hx Hl]%andb_true_iff. by rewrite Hi, IH. Qed.

Lemma valid_version_chars s : isValidVersion s = true → forallb version_char s = true.
Proof.
  intros (v & (Ha & Hb & Hc & Hids) & ->)%valid_version_iff. unfold show_version, show_core.
  assert (Hn : ∀ n, numeral n → forallb version_char n = true).
  { intros n [Hn _]%numeral_digits. revert Hn. apply forallb_impl. intros x Hx. unfold version_char, id_char. by rewrite Hx. }
  rewrite !forallb_app. simpl. rewrite !forallb_app. simpl. rewrite !Hn by done. simpl.
  destruct (v_pre v) as [|i ids]; [done|]. change (forallb version_char (45 :: jjoin [46] (i :: ids)) = true).
  cbn [forallb]. change (version_char 45) with true. cbn [andb]. revert i Hids.
  induction ids as [|j ids IH]; intros i Hids; apply Forall_cons in Hids as [[_ Hi] Hids];
    assert (Hi' : forallb version_char i = true) by (revert Hi; apply forallb_impl; intros x Hx; unfold version_char; by rewrite Hx); [done|].
  change (jjoin [46] (i :: j :: ids)) with (i ++ [46] ++ jjoin [46] (j :: ids)). rewrite !forallb_app, Hi', IH by done. done.
Qed.

(** ** Precedence of versions *)

(** Precedence by the semantic-versioning standard, on structured versions. *)
Definition ident_cmp (a b : list Z) : comparison :=
  match is_numeral a, is_numeral b with
  | true, true => digits_value a ?= digits_value b
  | true, false => Lt
  | false, true => Gt
  | false, false => compare_units a b
  end.
Fixpoint idents_cmp (a b : list (list Z)) : comparison :=
  match a, b with
  | [], [] => Eq
  | [], _ :: _ => Lt
  | _ :: _, [] => Gt
  | x :: a', y :: b' => match ident_cmp x y with Eq => idents_cmp a' b' | r => r end
  end.
Definition then_cmp (r s : comparison) : comparison := match r with Eq => s | r => r end.
Definition semver_cmp (v w : Version) : comparison :=
  then_cmp (digits_value (v_major v) ?= digits_value (v_major w))
  (then_cmp (digits_value (v_minor v) ?= digits_value (v_minor w))
  (then_cmp (digits_value (v_patch v) ?= digits_value (v_patch w))
  (match v_pre v, v_pre w with
   | [], [] => Eq
   | [], _ :: _ => Gt
   | _ :: _, [] => Lt
   | p, q => idents_cmp p q
   end))).

(** The text is split where the structure says, as long as no identifier has a
    hyphen of its own. *)
Definition no_hyphen (v : Version) : Prop := Forall (λ i, 45 ∉ i) (v_pre v).

Lemma digits_no (x : Z) s : forallb is_digit s = true → is_digit x = false → x ∉ s.
Proof.
  induction s as [|c s IH]; simpl; intros Hd Hx; [apply not_elem_of_nil|]. apply andb_true_iff in Hd as [Hc Hd].
  apply not_elem_of_cons. split; [|auto]. intros ->. congruence.
Qed.

Lemma core_split v : version_ok v → split_on 46 (show_core v) = [v_major v; v_minor v; v_patch v] ∧ 45 ∉ show_core v.
Proof.
  intros (Ha & Hb & Hc & _). apply numeral_digits in Ha as [Ha _], Hb as [Hb _], Hc as [Hc _]. unfold show_core. split.
  - rewrite !split_on_app by (by apply digits_no). by rewrite split_on_none by (by apply digits_no).
  - rewrite elem_of_app, elem_of_cons, elem_of_app, elem_of_cons.
    intros [Hx|[Hx|[Hx|[Hx|Hx]]]]; try done; by apply digits_no in Hx.
Qed.

Lemma jjoin_no_hyphen ids : Forall (λ i, 45 ∉ i) ids → 45 ∉ jjoin [46] ids.
Proof.
  induction 1 as [|i ids Hi Hids IH]; simpl; [apply not_elem_of_nil|]. destruct ids as [|j ids]; [done|].
  rewrite elem_of_app, elem_of_cons. intros [?|[?|?]]; done.
Qed.

Lemma split2_show v :
  version_ok v → no_hyphen v →
  split2 (show_version v) = (show_core v, match v_pre v with [] => None | ids => Some (jjoin [46] ids) end).
Proof.
  intros Hv Hh. destruct (core_split v Hv) as [_ Hc]. unfold split2, show_version. unfold no_hyphen in Hh. destruct (v_pre v) as [|i ids].
  - by rewrite app_nil_r, split_on_none.
  - rewrite split_on_app by done. by rewrite split_on_none by (by apply jjoin_no_hyphen).
Qed.

Lemma sign_zero r : (sign r =? 0) = bool_decide (r = Eq).
Proof. by destruct r. Qed.

Lemma compareIdentifier_cmp a b : compareIdentifier a b = sign (ident_cmp a b).
Proof. unfold compareIdentifier, ident_cmp. by destruct (is_numeral a), (is_numeral b). Qed.

Lemma compare_ids_cmp a b : compare_ids a b = sign (idents_cmp a b).
Proof.
  revert b. induction a as [|x a IH]; intros [|y b]; simpl; try done. rewrite compareIdentifier_cmp, IH. by destruct (ident_cmp x y).
Qed.

Lemma identifier_no_dot i : identifier i → 46 ∉ i.
Proof.
  intros [_ Hi] Hin. apply list_elem_of_In in Hin. rewrite forallb_forall in Hi. by specialize (Hi _ Hin).
Qed.

Lemma split_ids ids : ids ≠ [] → Forall identifier ids → split_on 46 (jjoin [46] ids) = ids.
Proof.
  intros Hne Hids. apply split_on_jjoin; [done|]. intros i Hi. apply identifier_no_dot. by eapply Forall_forall in Hids.
Qed.

(** On versions the gate accepts, [compareVersions] decides semantic-version
    precedence, provided no prerelease identifier contains a hyphen. *)
Theorem compareVersions_precedence (v w : Version) :
  version_ok v → version_ok w → no_hyphen v → no_hyphen w →
  ∃ d, compareVersions (show_version v) (show_version w) = Some d ∧ (d ?= 0) = semver_cmp v w.
Proof.
  intros Hv Hw Hhv Hhw. unfold compareVersions. rewrite !split2_show by done.
  destruct (core_split v Hv) as [-> _], (core_split w Hw) as [-> _].
  destruct Hv as (Ha & Hb & Hc & Hi), Hw as (Ha' & Hb' & Hc' & Hi').
  apply numeral_digits in Ha as [Ha _], Hb as [Hb _], Hc as [Hc _], Ha' as [Ha' _], Hb' as [Hb' _], Hc' as [Hc' _].
  cbn [map]. unfold Number. rewrite Ha, Hb, Hc, Ha', Hb', Hc'. cbn [compare_core head tail default id].
  unfold semver_cmp. rewrite (Z.compare_sub (digits_value (v_major v))), (Z.compare_sub (digits_value (v_minor v))), (Z.compare_sub (digits_value (v_patch v))).
  destruct (digits_value (v_major v) - digits_value (v_major w)) eqn:E1; cbn [Z.eqb]; [|eexists; split; reflexivity..].
  destruct (digits_value (v_minor v) - digits_value (v_minor w)) eqn:E2; cbn [Z.eqb]; [|eexists; split; reflexivity..].
  destruct (digits_value (v_patch v) - digits_value (v_patch w)) eqn:E3; cbn [Z.eqb]; [|eexists; split; reflexivity..].
  eexists. split; [done|]. cbn [Z.compare then_cmp].
  destruct (v_pre v) as [|i ids], (v_pre w) as [|j ids']; try done.
  rewrite !split_ids, compare_ids_cmp by done. by destruct (idents_cmp (i :: ids) (j :: ids')).
Qed.

(** Precedence has a direction. *)
Lemma compare_units_opp a b : compare_units b a = CompOpp (compare_units a b).
Proof.
  revert b. induction a as [|x a IH]; intros [|y b]; simpl; try done. rewrite Z.compare_antisym, IH. by destruct (x ?= y).
Qed.
Lemma idents_cmp_opp a b : idents_cmp b a = CompOpp (idents_cmp a b).
Proof.
  revert b. induction a as [|x a IH]; intros [|y b]; simpl; try done.
  assert (ident_cmp y x = CompOpp (ident_cmp x y)) as ->.
  { unfold ident_cmp. destruct (is_numeral x), (is_numeral y); try done; [apply Z.compare_antisym|apply compare_units_opp]. }
  rewrite IH. by destruct (ident_cmp x y).
Qed.
Lemma semver_cmp_opp v w : semver_cmp w v = CompOpp (semver_cmp v w).
Proof.
  unfold semver_cmp. rewrite (Z.compare_antisym (digits_value (v_major v))), (Z.compare_antisym (digits_value (v_minor v))),
    (Z.compare_antisym (digits_value (v_patch v))).
  destruct (digits_value (v_major v) ?= _), (digits_value (v_minor v) ?= _), (digits_value (v_patch v) ?= _); cbn; try done.
  destruct (v_pre v) as [|x l], (v_pre w) as [|y k]; try done. exact (idents_cmp_opp (x :: l) (y :: k)).
Qed.

(** The text after a second hyphen is never compared: [split('-', 2)] drops
    it, so prereleases that differ only there count as the same version. *)
Theorem second_hyphen_ignored (core p x b : list Z) :
  45 ∉ core → 45 ∉ p →
  compareVersions (core ++ 45 :: p ++ 45 :: x) b = compareVersions (core ++ 45 :: p) b.
Proof. intros Hc Hp. unfold compareVersions, split2. by rewrite !split_on_app, (split_on_none 45 p). Qed.

Lemma second_hyphen_ignored_witness :
  isValidVersion (js "1.0.0-rc-2") = true ∧ isValidVersion (js "1.0.0-rc-1") = true ∧
  compareVersions (js "1.0.0-rc-2") (js "1.0.0-rc-1") = Some 0.
Proof.
  split_and!; [vm_compute; reflexivity..|].
  change (js "1.0.0-rc-2") with (js "1.0.0" ++ 45 :: js "rc" ++ 45 :: js "2").
  rewrite (second_hyphen_ignored (js "1.0.0") (js "rc") (js "2") (js "1.0.0-rc-1"))
    by (apply (bool_decide_unpack _); vm_compute; exact I).
  vm_compute; reflexivity.
Defined.

Definition demo_old : Version := mkVersion (js "1") (js "9") (js "0") [js "beta"; js "2"].
Definition demo_new : Version := mkVersion (js "1") (js "10") (js "0") [].

Lemma compareVersions_precedence_witness :
  ∃ d, compareVersions (show_version demo_new) (show_version demo_old) = Some d ∧ (d ?= 0) = Gt.
Proof.
  apply (compareVersions_precedence demo_new demo_old).
  - repeat split; try (right; eexists _, _; split_and!; [reflexivity|vm_compute; reflexivity..]); by constructor.
  - repeat split; try (right; eexists _, _; split_and!; [reflexivity|vm_compute; reflexivity..]); try (by left).
    all: repeat constructor; vm_compute; congruence.
  - constructor.
  - repeat constructor; apply (bool_decide_unpack _); vm_compute; exact I.
Defined.

(** ** One upgrade at a time *)


Inductive UpEvent :=
| UpRun (version : list Z) (registry : option (list Z)) (profileDir : option (list (list Z))) (spawn : option (list Z))
| UpData (i : nat) (chunk : list Z)
| UpTimeout (i : nat) (text : list Z)
| UpError (i : nat) (enoent : bool) (text : list Z)
| UpClose (i : nat) (code : option Z).

Definition up_step (u : Upgrades) (e : UpEvent) : Upgrades :=
  match e with
  | UpRun v r d s => match runUpgrade v r d s u with inr u' => u' | inl _ => u end
  | UpData i c => append i c u
  | UpTimeout i t => run_times_out i t u
  | UpError i n t => run_errors i n t u
  | UpClose i c => run_closes i c u
  end.

(** A run that has already answered reports its end while another one is
    under way. *)
Definition late (u : Upgrades) (e : UpEvent) : bool :=
  match e with
  | UpTimeout i _ | UpError i _ _ | UpClose i _ =>
      up_inflight u && match up_runs u !! i with Some r => negb (bool_decide (run_result r = None)) | None => false end
  | _ => false
  end.

Inductive up_history : Upgrades → Prop :=
| uh_init : up_history no_upgrades
| uh_step u e : up_history u → late u e = false → up_history (up_step u e).

Definition waiting (r : Run) : bool := bool_decide (run_result r = None).
Definition waiting_runs (u : Upgrades) : nat := length (filterb waiting (up_runs u)).
Definition up_inv (u : Upgrades) : Prop := waiting_runs u = if up_inflight u then 1%nat else 0%nat.

(** Changes of output, end and timer keep the invariant. *)
Lemma alter_inv f i u : (∀ r, run_result (f r) = run_result r) → up_inv u → up_inv (mkUpgrades (up_inflight u) (alter f i (up_runs u))).
Proof.
  intros Hf. unfold up_inv, waiting_runs. cbn. rewrite count_alter_same; [done|]. intros r. unfold waiting. by rewrite Hf.
Qed.

Lemma finish_inv i code u r :
  up_inv u → up_runs u !! i = Some r → (up_inflight u = true → run_result r = None) → up_inv (finish i code u).
Proof.
  unfold finish, up_inv, waiting_runs. intros Hu Hr Hw. destruct (up_inflight u) eqn:Eu; cbn [negb up_inflight up_runs]; [|by rewrite Eu].
  erewrite (count_alter_drop waiting _ i _ r Hr) in Hu.
  - injection Hu as Hu. exact Hu.
  - unfold waiting. by rewrite (Hw eq_refl).
  - unfold waiting. cbn. by destruct (run_result r).
Qed.

Lemma late_false u r :
  up_inflight u && negb (bool_decide (run_result r = None)) = false → up_inflight u = true → run_result r = None.
Proof. intros Hl Hu. rewrite Hu in Hl. cbn in Hl. by bools. Qed.

Lemma up_step_inv u e : up_inv u → late u e = false → up_inv (up_step u e).
Proof.
  intros Hu Hl. destruct e as [v rg d s|i ch|i t|i n t|i c]; cbn in Hl; cbn [up_step].
  - destruct (runUpgrade v rg d s u) as [|u'] eqn:E; [done|]. unfold runUpgrade in E.
    destruct (isValidVersion v); [|done]. destruct (match rg with Some r => _ | None => _ end); [done|]. destruct d as [dir|]; [|done]. destruct (up_inflight u) eqn:Eu; [done|]. simplify_eq/=. unfold up_inv, waiting_runs in *. rewrite Eu in Hu.
    destruct s as [text|]; cbn; [|by rewrite count_snoc, Hu].
    rewrite !alter_app_r_alt, !Nat.sub_diag by lia. cbn. by rewrite count_snoc, Hu.
  - by apply alter_inv.
  - unfold run_times_out. destruct (up_runs u !! i) as [r|] eqn:Er; [|done]. destruct (run_timer r); [|done].
    eapply finish_inv; [by repeat apply alter_inv|cbn; by rewrite !list_lookup_alter_eq, Er|]. exact (late_false u r Hl).
  - unfold run_errors. destruct (up_runs u !! i) as [r|] eqn:Er; [|done].
    eapply finish_inv; [by repeat apply alter_inv|cbn; by rewrite !list_lookup_alter_eq, Er|]. exact (late_false u r Hl).
  - unfold run_closes. destruct (up_runs u !! i) as [r|] eqn:Er; [|done]. destruct (run_ended r); [done|].
    eapply finish_inv; [by repeat apply alter_inv|cbn; by rewrite !list_lookup_alter_eq, Er|]. exact (late_false u r Hl).
Qed.

(** As long as no run reports its end after having answered and while
    another one is under way, upgrades do not overlap: at most one call waits
    for its answer, a new call is refused exactly while one waits, and the end
    of the process of a waiting call answers it. *)
Theorem one_upgrade (u : Upgrades) :
  up_history u →
  (waiting_runs u ≤ 1)%nat ∧ (up_inflight u = true ↔ waiting_runs u = 1%nat) ∧
  (∀ i r code, up_runs u !! i = Some r → run_result r = None → run_ended r = false →
     ∃ r', up_runs (run_closes i code u) !! i = Some r' ∧
       run_result r' = Some (mkResult ((code ?? 1) =? 0) (code ?? 1) (trim (run_output r)) (run_version r) (run_cwd r))).
Proof.
  intros Hh. assert (Hu : up_inv u) by (induction Hh; [done|by apply up_step_inv]). unfold up_inv in Hu.
  split_and!; [destruct (up_inflight u); lia|destruct (up_inflight u); split; congruence|].
  intros i r code Hr Hw He. assert (up_inflight u = true) as Hi.
  { destruct (up_inflight u); [done|]. exfalso. unfold waiting_runs in Hu.
    assert (r ∈ filterb waiting (up_runs u)) as Hin.
    { apply elem_of_filterb. split; [by eapply list_elem_of_lookup_2|]. unfold waiting. by apply bool_decide_eq_true. }
    destruct (filterb waiting (up_runs u)); [by apply elem_of_nil in Hin|done]. }
  unfold run_closes. rewrite Hr, He. unfold finish, set_run. cbn. rewrite Hi. cbn.
  eexists. rewrite !list_lookup_alter_eq, Hr. split; [done|]. cbn. by rewrite Hw.
Qed.

(** ** What a late end does *)

Definition demo_version : list Z := js "1.2.3".
Definition demo_run : UpEvent := UpRun demo_version None (Some [js "web"]) None.
Definition demo_up (es : list UpEvent) : Upgrades := fold_left up_step es no_upgrades.

(** The first run times out and answers; a second one starts; then the process
    of the first is reported closed. *)
Definition demo_late : list UpEvent := [demo_run; UpTimeout 0 []; demo_run; UpClose 0 None].

(** A late end releases the guard of a run that is not its own: a third
    [pnpm] starts next to the second, and the second call is never answered. *)
Theorem late_end_releases_guard :
  (∃ u', runUpgrade demo_version None (Some [js "web"]) None (demo_up demo_late) = inr u') ∧
  (run_ended <$> up_runs (demo_up demo_late) !! 1%nat) = Some false ∧
  (run_result <$> up_runs (demo_up (demo_late ++ [UpClose 1 (Some 0)])) !! 1%nat) = Some None.
Proof. split_and!; [eexists; vm_compute; reflexivity|vm_compute; reflexivity..]. Qed.


Lemma one_upgrade_witness :
  waiting_runs (demo_up [demo_run; demo_run]) = 1%nat ∧ up_inflight (demo_up [demo_run; demo_run]) = true.
Proof.
  assert (Hw : waiting_runs (demo_up [demo_run; demo_run]) = 1%nat) by (vm_compute; reflexivity).
  split; [exact Hw|]. apply (one_upgrade (demo_up [demo_run; demo_run])); [|exact Hw].
  apply (uh_step (demo_up [demo_run]) demo_run); [|vm_compute; reflexivity].
  apply (uh_step no_upgrades demo_run); [constructor|vm_compute; reflexivity].
Defined.

(** ** From check to run *)

Lemma fetchLatest_sound fetch registries latest registry :
  fetchLatest fetch registries = Some (latest, registry) →
  isValidVersion latest = true ∧ registry ∈ registries ∧
  ∃ body, fetch registry = FetchAnswer true (Some body) ∧ latest_of body = Some latest.
Proof.
  induction registries as [|r rs IH]; cbn; [done|]. intros Hf.
  assert (Hrec : fetchLatest fetch rs = Some (latest, registry) → isValidVersion latest = true ∧ registry ∈ r :: rs ∧
    ∃ body, fetch registry = FetchAnswer true (Some body) ∧ latest_of body = Some latest).
  { intros Hr. destruct (IH Hr) as (? & ? & ?). split_and!; [done|by right|done]. }
  destruct (fetch r) as [|[] [body|]] eqn:Er; auto. destruct (latest_of body) as [l|] eqn:El; [|auto].
  destruct (isValidVersion l) eqn:Ev; [|auto]. simplify_eq. split_and!; [done|by left|by exists body].
Qed.

Lemma profile_above_sound pj n dir found d :
  (∀ f, found = Some f → isProfile pj f = true) → profile_above pj n dir found = Some d → isProfile pj d = true.
Proof.
  revert dir found. induction n as [|n IH]; intros dir found Hf; cbn; [auto|]. destruct dir as [|name parent]; [auto|].
  apply IH. intros f. destruct (jeqb name (js "node_modules")); cbn; [|auto]. destruct (isProfile pj parent) eqn:Ep; [|auto]. by intros [= <-].
Qed.

(** What [upgrade.check] reports, [upgrade.run] accepts: with a profile
    directory that depends on the package and no upgrade under way, the version
    and registry of the check are installed as they are. *)
Theorem check_then_run (pj : list (list Z) → option json) (fetch : list Z → Fetched) (startDir dshHome dir : list (list Z))
    (c : UpgradeCheck) (u : Upgrades) :
  checkUpgrade pj fetch startDir = Some c → resolveWebProfileDir pj startDir dshHome = Some dir → up_inflight u = false →
  isProfile pj dir = true ∧
  ∃ u', runUpgrade (uc_latest c) (Some (uc_registry c)) (Some dir) None u = inr u' ∧
    run_arg <$> last (up_runs u') = Some (UPGRADE_PACKAGE ++ js "@" ++ uc_latest c).
Proof.
  unfold checkUpgrade. intros Hc Hd Hu. split.
  - unfold resolveWebProfileDir in Hd. destruct (profile_above pj 24 startDir None) as [d|] eqn:Ep.
    + simplify_eq. by apply (profile_above_sound pj 24 startDir None).
    + cbn in Hd. destruct (isProfile pj _) eqn:E; [by simplify_eq|done].
  - destruct (ownVersion pj startDir); [|done]. destruct (fetchLatest fetch UPGRADE_REGISTRIES) as [[latest rg]|] eqn:Ef; [|done].
    apply fetchLatest_sound in Ef as (Hv & Hr & _). injection Hc as <-. cbn [uc_latest uc_registry]. unfold runUpgrade. rewrite Hv, Hu. cbn [negb].
    rewrite bool_decide_eq_true_2 by done. cbn [negb]. eexists. split; [done|]. cbn. by rewrite last_snoc.
Qed.

Definition demo_package (dir : list (list Z)) : option json :=
  if bool_decide (dir = [js "soulnet-dsh"; js "node_modules"; js "web"])
  then Some (JObj [(js "name", JStr UPGRADE_PACKAGE); (js "version", JStr (js "1.0.0"))])
  else if bool_decide (dir = [js "web"]) then Some (JObj [(js "dependencies", JObj [(UPGRADE_PACKAGE, JStr (js "1.0.0"))])])
  else None.
Definition demo_fetch (registry : list Z) : Fetched :=
  if jeqb registry (js "https://registry.npmjs.org") then FetchThrows
  else FetchAnswer true (Some (JObj [(js "dist-tags", JObj [(js "latest", JStr (js "1.0.1"))])])).

Lemma check_then_run_witness :
  let start := [js "lib"; js "soulnet-dsh"; js "node_modules"; js "web"] in
  let c := mkCheck (js "1.0.0") (js "1.0.1") true (js "https://registry.npmmirror.com") in
  checkUpgrade demo_package demo_fetch start = Some c ∧ isProfile demo_package [js "web"] = true.
Proof.
  cbv zeta.
  assert (Hc : checkUpgrade demo_package demo_fetch [js "lib"; js "soulnet-dsh"; js "node_modules"; js "web"]
    = Some (mkCheck (js "1.0.0") (js "1.0.1") true (js "https://registry.npmmirror.com"))) by (vm_compute; reflexivity).
  assert (Hd : resolveWebProfileDir demo_package [js "lib"; js "soulnet-dsh"; js "node_modules"; js "web"] [] = Some [js "web"])
    by (vm_compute; reflexivity).
  split; [exact Hc|]. exact (proj1 (check_then_run demo_package demo_fetch _ [] _ _ no_upgrades Hc Hd eq_refl)).
Defined.
