(* ===== verification/ClientStores.v ===== *)
(** * The network store and the upgrade store of the page (client/api.ts, client/upgrade-store.ts)

    [NetworkStore] keeps the host's last [/state] answer, folded with the event
    frames since, and the event stream itself; [UpgradeStore] drives the
    one-click upgrade.  Requests are answered in a later step; timers are
    flags with a step that fires them. *)

From S2P Require Import Prelude JsString JsMap JsSort Json Policy PageState InboxState Upgrade.
#[local] Open Scope Z_scope.

(** ** The network store *)

(** The frames beside those of the inbox. *)
Inductive StoreFrame :=
| SfInbox (f : Frame)
| SfStatus (ready : bool)
| SfMemory (phase : list Z) (count : Z)
| SfAlter
| SfAgent
| SfGroupTyping.

Record Net := mkNet {
  nt_state : option ApiState;
  nt_loading : bool;
  nt_error : option (list Z);
  nt_typing : gmap (list Z) bool;
  nt_ready : option bool;                   (** the backend's status *)
  nt_revision : Z;
  nt_inbox : InboxState;
  nt_listeners : nat;
  nt_source : bool;                         (** the event stream is open *)
  nt_everConnected : bool;
  nt_refreshDue : bool;                     (** [refreshTimer] *)
  nt_hiddenDue : bool;                      (** [hiddenTimer] *)
  nt_inflight : bool;                       (** a [/state] request is out *)
  nt_hidden : bool;                         (** the tab is hidden *)
  nt_notices : list MailNotice;
  nt_memories : list (list Z * Z);
  nt_reconnects : nat }.

(** The page opens in a tab that is hidden or not. *)
Definition new_net (hidden : bool) : Net := mkNet None false None ∅ None 0 EMPTY_INBOX 0 false false false false false hidden [] [] 0.

Definition set_inbox (i : InboxState) (rev : Z) (s : Net) : Net :=
  mkNet (nt_state s) (nt_loading s) (nt_error s) (nt_typing s) (nt_ready s) rev i (nt_listeners s) (nt_source s) (nt_everConnected s) (nt_refreshDue s)
    (nt_hiddenDue s) (nt_inflight s) (nt_hidden s) (nt_notices s) (nt_memories s) (nt_reconnects s).
Definition set_fetch (st : option ApiState) (ld : bool) (e : option (list Z)) (r : option bool) (inf : bool) (s : Net) : Net :=
  mkNet st ld e (nt_typing s) r (nt_revision s) (nt_inbox s) (nt_listeners s) (nt_source s) (nt_everConnected s) (nt_refreshDue s)
    (nt_hiddenDue s) inf (nt_hidden s) (nt_notices s) (nt_memories s) (nt_reconnects s).
Definition set_stream (n : nat) (src ever : bool) (s : Net) : Net :=
  mkNet (nt_state s) (nt_loading s) (nt_error s) (nt_typing s) (nt_ready s) (nt_revision s) (nt_inbox s) n src ever (nt_refreshDue s)
    (nt_hiddenDue s) (nt_inflight s) (nt_hidden s) (nt_notices s) (nt_memories s) (nt_reconnects s).
Definition set_timers (refresh_ hid hidden : bool) (s : Net) : Net :=
  mkNet (nt_state s) (nt_loading s) (nt_error s) (nt_typing s) (nt_ready s) (nt_revision s) (nt_inbox s) (nt_listeners s) (nt_source s) (nt_everConnected s) refresh_
    hid (nt_inflight s) hidden (nt_notices s) (nt_memories s) (nt_reconnects s).
Definition set_out (t : gmap (list Z) bool) (r : option bool) (l : list MailNotice) (m : list (list Z * Z)) (n : nat) (s : Net) : Net :=
  mkNet (nt_state s) (nt_loading s) (nt_error s) t r (nt_revision s) (nt_inbox s) (nt_listeners s) (nt_source s) (nt_everConnected s) (nt_refreshDue s)
    (nt_hiddenDue s) (nt_inflight s) (nt_hidden s) l m n.

Definition refresh (s : Net) : Net :=
  if nt_inflight s then s else set_fetch (nt_state s) true (nt_error s) (nt_ready s) true s.
(** The answer of [/state], with the status it carries. *)
Definition state_answer (r : list Z + ApiState * bool) (s : Net) : Net :=
  if negb (nt_inflight s) then s
  else match r with
  | inr (st, ready) => set_inbox (fromApiState (nt_inbox s) st) (nt_revision s) (set_fetch (Some st) false None (Some ready) false s)
  | inl e => set_fetch (nt_state s) false (Some e) (nt_ready s) false s
  end.
Definition scheduleRefresh (s : Net) : Net := set_timers true (nt_hiddenDue s) (nt_hidden s) s.
Definition refresh_fires (s : Net) : Net := if nt_refreshDue s then refresh (set_timers false (nt_hiddenDue s) (nt_hidden s) s) else s.

Definition connect (s : Net) : Net := if nt_source s then s else set_stream (nt_listeners s) true (nt_everConnected s) s.
(** The stream's [open] event: every later one tells the reconnect listeners. *)
Definition stream_opens (s : Net) : Net :=
  if negb (nt_source s) then s
  else set_stream (nt_listeners s) true true
         (if nt_everConnected s then set_out (nt_typing s) (nt_ready s) (nt_notices s) (nt_memories s) (nt_reconnects s + 1) s else s).
Definition stream_errors (s : Net) : Net := if nt_source s then scheduleRefresh s else s.
Definition disconnect (s : Net) : Net := set_timers false (nt_hiddenDue s) (nt_hidden s) (set_stream (nt_listeners s) false (nt_everConnected s) s).

Definition subscribe (s : Net) : Net :=
  let s1 := set_stream (nt_listeners s + 1) (nt_source s) (nt_everConnected s) s in
  let s2 := if (nt_listeners s1 =? 1)%nat then connect s1 else s1 in
  match nt_state s2 with None => if nt_loading s2 then s2 else refresh s2 | Some _ => s2 end.
(** A listener that is subscribed leaves. *)
Definition unsubscribe (s : Net) : Net :=
  match nt_listeners s with
  | O => s
  | S n => let s1 := set_stream n (nt_source s) (nt_everConnected s) s in if (n =? 0)%nat then disconnect s1 else s1
  end.

Definition hide (s : Net) : Net :=
  let s1 := set_timers (nt_refreshDue s) (nt_hiddenDue s) true s in
  if negb (nt_source s1) || nt_hiddenDue s1 then s1 else set_timers (nt_refreshDue s1) true true s1.
Definition show (s : Net) : Net :=
  let s1 := set_timers (nt_refreshDue s) false false s in
  if negb (nt_listeners s1 =? 0)%nat && negb (nt_source s1) then scheduleRefresh (connect s1) else s1.
Definition hidden_fires (s : Net) : Net :=
  if negb (nt_hiddenDue s) then s
  else
    let s1 := set_timers (nt_refreshDue s) false (nt_hidden s) s in
    if nt_hidden s1 && nt_source s1 then set_stream (nt_listeners s1) false (nt_everConnected s1) s1 else s1.

(** A frame of the stream. *)
Definition lists_change (f : Frame) : bool :=
  match f with FrTyping _ _ | FrOutbound _ _ _ | FrDraft _ _ | FrOther => false | _ => true end.
Definition receive (f : StoreFrame) (s : Net) : Net :=
  if negb (nt_source s) then s
  else
  let rev := nt_revision s + 1 in
  match f with
  | SfInbox (FrTyping fp on) =>
      set_inbox (applyFrame (nt_inbox s) (FrTyping fp on)).1 rev
        (set_out (<[fp := on]> (nt_typing s)) (nt_ready s) (nt_notices s) (nt_memories s) (nt_reconnects s) s)
  | SfInbox FrOther => s
  | SfInbox f =>
      let '(inbox, notice) := applyFrame (nt_inbox s) f in
      let s1 := set_inbox inbox rev s in
      if lists_change f then scheduleRefresh (set_out (nt_typing s1) (nt_ready s1) (nt_notices s1 ++ option_list notice) (nt_memories s1) (nt_reconnects s1) s1)
      else s1
  | SfStatus ready =>
      let s1 := set_inbox (nt_inbox s) rev (set_out (nt_typing s) (Some ready) (nt_notices s) (nt_memories s) (nt_reconnects s) s) in
      if ready then scheduleRefresh s1 else s1
  | SfMemory phase count => set_out (nt_typing s) (nt_ready s) (nt_notices s) (nt_memories s ++ [(phase, count)]) (nt_reconnects s) s
  | SfAlter => set_inbox (nt_inbox s) rev s
  | SfAgent => scheduleRefresh (set_inbox (nt_inbox s) rev s)
  | SfGroupTyping => s
  end.

Definition markRead (fp : list Z) (s : Net) : Net := set_inbox (markReadLocal (nt_inbox s) fp) (nt_revision s) s.
Definition markReadGroup (gid : list Z) (s : Net) : Net := set_inbox (markReadGroupLocal (nt_inbox s) gid) (nt_revision s) s.
Definition clear_apps (gid : list Z) (s : Net) : Net := set_inbox (clearGroupApps (nt_inbox s) gid) (nt_revision s) s.
Definition applyPresence (online : list (list Z * bool)) (s : Net) : Net :=
  set_inbox (fold_left (λ i x, (applyFrame i (FrPresence x.1 x.2)).1) online (nt_inbox s)) (nt_revision s) s.
Definition own_outbound (fp : list Z) (ts : Z) (body : list Z) (s : Net) : Net := set_inbox (applyFrame (nt_inbox s) (FrOutbound fp ts body)).1 (nt_revision s) s.

Inductive NetOp :=
| NRefresh | NAnswer (r : list Z + ApiState * bool) | NRefreshTimer | NSubscribe | NUnsubscribe | NOpened | NErrored
| NHide | NShow | NHiddenTimer | NFrame (f : StoreFrame) | NRead (fp : list Z) | NReadGroup (gid : list Z) | NClearApps (gid : list Z)
| NPresence (l : list (list Z * bool)) | NOutbound (fp : list Z) (ts : Z) (body : list Z).
Definition net_step (s : Net) (o : NetOp) : Net :=
  match o with
  | NRefresh => refresh s | NAnswer r => state_answer r s | NRefreshTimer => refresh_fires s | NSubscribe => subscribe s | NUnsubscribe => unsubscribe s
  | NOpened => stream_opens s | NErrored => stream_errors s | NHide => hide s | NShow => show s | NHiddenTimer => hidden_fires s
  | NFrame f => receive f s | NRead fp => markRead fp s | NReadGroup gid => markReadGroup gid s | NClearApps gid => clear_apps gid s
  | NPresence l => applyPresence l s | NOutbound fp ts b => own_outbound fp ts b s
  end.

(** ** The upgrade store *)

Inductive UpgradePhase := PhIdle | PhChecking | PhInstalling | PhRestarting | PhReloading | PhDoneManual | PhFailed.
#[export] Instance UpgradePhase_eq_dec : EqDecision UpgradePhase.
Proof. solve_decision. Defined.

Record UpStore := mkUp {
  us_phase : UpgradePhase; us_current : option (list Z); us_latest : option (list Z); us_hasUpdate : bool; us_registry : option (list Z);
  us_error : option (list Z); us_output : option (list Z); us_checked : bool; us_checkedOnce : bool;
  us_checks : list bool;                    (** the [upgrade.check] requests out: whether each is silent *)
  us_runs : nat;                            (** the [upgrade.run] requests out *)
  us_waits : nat;                           (** the calls inside [waitForRestart] *)
  us_installs : list (list Z * option (list Z)) }.   (** every [upgrade.run] request made *)
Definition EMPTY_UP : UpStore := mkUp PhIdle None None false None None None false false [] 0 0 [].

Definition set_snapshot (p : UpgradePhase) (cur : option (list Z)) (has : bool) (e out : option (list Z)) (s : UpStore) : UpStore :=
  mkUp p cur (us_latest s) has (us_registry s) e out (us_checked s) (us_checkedOnce s) (us_checks s) (us_runs s) (us_waits s) (us_installs s).
Definition set_calls (checks : list bool) (runs waits : nat) (s : UpStore) : UpStore :=
  mkUp (us_phase s) (us_current s) (us_latest s) (us_hasUpdate s) (us_registry s) (us_error s) (us_output s) (us_checked s) (us_checkedOnce s) checks runs waits (us_installs s).
Definition set_checked (latest : option (list Z)) (reg : option (list Z)) (checked once : bool) (s : UpStore) : UpStore :=
  mkUp (us_phase s) (us_current s) latest (us_hasUpdate s) reg (us_error s) (us_output s) checked once (us_checks s) (us_runs s) (us_waits s) (us_installs s).
Definition set_installs (l : list (list Z * option (list Z))) (s : UpStore) : UpStore :=
  mkUp (us_phase s) (us_current s) (us_latest s) (us_hasUpdate s) (us_registry s) (us_error s) (us_output s) (us_checked s) (us_checkedOnce s) (us_checks s) (us_runs s) (us_waits s) l.

Definition check (silent refresh_ : bool) (s : UpStore) : UpStore :=
  if bool_decide (us_phase s ∈ [PhChecking; PhInstalling; PhRestarting]) then s
  else if silent && us_checkedOnce s && negb refresh_ then s
  else set_calls (us_checks s ++ [silent]) (us_runs s) (us_waits s)
         (set_snapshot PhChecking (us_current s) (us_hasUpdate s) (if silent then us_error s else None) (us_output s)
           (set_checked (us_latest s) (us_registry s) (us_checked s) true s)).
(** The [i]-th check out is answered. *)
Definition check_answer (i : nat) (r : list Z + UpgradeCheck) (s : UpStore) : UpStore :=
  match us_checks s !! i with
  | None => s
  | Some silent =>
      let s0 := set_calls (delete i (us_checks s)) (us_runs s) (us_waits s) s in
      match r with
      | inr c => set_snapshot PhIdle (Some (uc_current c)) (uc_hasUpdate c) None (us_output s)
                   (set_checked (Some (uc_latest c)) (Some (uc_registry c)) true (us_checkedOnce s) s0)
      | inl e => set_snapshot PhIdle (us_current s) (us_hasUpdate s) (if silent : bool then us_error s else Some e) (us_output s)
                   (set_checked (us_latest s) (us_registry s) true (us_checkedOnce s) s0)
      end
  end.
Definition run_upgrade (s : UpStore) : UpStore :=
  match us_latest s with
  | None => s
  | Some v =>
      if bool_decide (us_phase s ∈ [PhInstalling; PhRestarting]) then s
      else set_installs (us_installs s ++ [(v, us_registry s)])
             (set_calls (us_checks s) (us_runs s + 1) (us_waits s) (set_snapshot PhInstalling (us_current s) (us_hasUpdate s) None None s))
  end.
(** An [upgrade.run] is answered: the result and whether the host restarts. *)
Definition run_answer (r : list Z + RunResult * bool) (s : UpStore) : UpStore :=
  match us_runs s with
  | O => s
  | S n =>
      let s0 := set_calls (us_checks s) n (us_waits s) s in
      match r with
      | inl e => set_snapshot PhFailed (us_current s) (us_hasUpdate s) (Some e) (us_output s) s0
      | inr (x, restarting) =>
          if negb (rr_ok x)
          then set_snapshot PhFailed (us_current s) (us_hasUpdate s) (Some (js "pnpm exit " ++ dec (rr_exitCode x))) (Some (rr_output x)) s0
          else if negb restarting then set_snapshot PhDoneManual (Some (rr_version x)) false (us_error s) (us_output s) s0
          else set_calls (us_checks s) n (us_waits s + 1) (set_snapshot PhRestarting (Some (rr_version x)) false (us_error s) (us_output s) s0)
      end
  end.

Definition RESTART_LIMIT_MS : Z := 3 * 60000.
Definition RESTART_POLL_MS : Z := 2000.
(** [waitForRestart]: each poll is the time when the loop tests the deadline and
    whether the server answered well; [None]: the polls given do not decide. *)
Fixpoint waitForRestart (deadline : Z) (sawDown : bool) (polls : list (Z * bool)) : option UpgradePhase :=
  match polls with
  | [] => None
  | (now, up) :: polls' =>
      if negb (now <? deadline) then Some PhDoneManual
      else if up then (if sawDown then Some PhReloading else waitForRestart deadline sawDown polls')
      else waitForRestart deadline true polls'
  end.
(** A wait that began at [now] ends. *)
Definition restarted (now : Z) (polls : list (Z * bool)) (s : UpStore) : UpStore :=
  match us_waits s with
  | O => s
  | S n =>
      match waitForRestart (now + RESTART_LIMIT_MS) false polls with
      | Some p => set_calls (us_checks s) (us_runs s) n (set_snapshot p (us_current s) (us_hasUpdate s) (us_error s) (us_output s) s)
      | None => s
      end
  end.

Inductive UpOp :=
| UCheck (silent refresh_ : bool) | UChecked (i : nat) (r : list Z + UpgradeCheck) | URun
| URan (r : list Z + RunResult * bool) | UWaited (now : Z) (polls : list (Z * bool)).
Definition up_step (s : UpStore) (o : UpOp) : UpStore :=
  match o with
  | UCheck silent refresh_ => check silent refresh_ s | UChecked i r => check_answer i r s | URun => run_upgrade s
  | URan r => run_answer r s | UWaited now polls => restarted now polls s
  end.

(** * Theorems *)

(** ** The stream and the requests of the network store *)

Record net_ok (s : Net) : Prop := {
  no_source : nt_source s = true → (0 < nt_listeners s)%nat;
  no_watched : (0 < nt_listeners s)%nat → nt_hidden s = false → nt_source s = true;
  no_timer : nt_refreshDue s = true → (0 < nt_listeners s)%nat;
  no_loading : nt_loading s = nt_inflight s }.

(** What the invariant reads. *)
Definition net_view (s : Net) : nat * bool * bool * bool * bool * bool :=
  (nt_listeners s, nt_source s, nt_hidden s, nt_refreshDue s, nt_loading s, nt_inflight s).
Lemma net_ok_view s s' : net_view s' = net_view s → net_ok s → net_ok s'.
Proof. unfold net_view. intros [= E1 E2 E3 E4 E5 E6] [H1 H2 H3 H4]. split; rewrite ?E1, ?E2, ?E3, ?E4, ?E5, ?E6; auto. Qed.

Lemma net_refresh s : net_ok s → net_ok (refresh s).
Proof. unfold refresh. destruct (nt_inflight s); [done|]. intros [H1 H2 H3 H4]. by split. Qed.
Lemma net_scheduled s : nt_source s = true → net_ok s → net_ok (scheduleRefresh s).
Proof. intros Hs [H1 H2 H3 H4]. split; cbn; auto. Qed.
Lemma net_connect s : (0 < nt_listeners s)%nat → nt_refreshDue s = false ∨ net_ok s → nt_loading s = nt_inflight s → net_ok (connect s).
Proof. intros Hl Hd Hi. unfold connect. destruct (nt_source s) eqn:E; split; cbn; rewrite ?E; auto. Qed.

Lemma net_receive f s : net_ok s → net_ok (receive f s).
Proof.
  intros Hs. unfold receive. destruct (nt_source s) eqn:E; [|done]. cbn [negb].
  assert (∀ x, net_view x = net_view s → net_ok (scheduleRefresh x)) as Hsch.
  { intros x Hx. apply net_scheduled; [|by apply (net_ok_view s)]. unfold net_view in Hx. by injection Hx as ?->. }
  destruct f as [f|[]| | | |]; try (by apply (net_ok_view s)); try (by apply Hsch).
  destruct f; cbn [lists_change]; try (by apply (net_ok_view s)); destruct (applyFrame _ _); try (by apply Hsch); by apply (net_ok_view s).
Qed.

Lemma net_step_ok o s : net_ok s → net_ok (net_step s o).
Proof.
  intros Hs. destruct Hs as [H1 H2 H3 H4] eqn:E. clear E. destruct o; cbn [net_step]; try (by apply (net_ok_view s)).
  - by apply net_refresh.
  - unfold state_answer. destruct (nt_inflight s); [|done]. destruct r as [?|[? ?]]; by split.
  - unfold refresh_fires. destruct (nt_refreshDue s); [|done]. apply net_refresh. by split.
  - unfold subscribe. set (s1 := set_stream _ _ _ s).
    assert (net_ok (if (nt_listeners s1 =? 1)%nat then connect s1 else s1)) as Hc.
    { subst s1. destruct (Nat.eqb_spec (nt_listeners (set_stream (nt_listeners s + 1) (nt_source s) (nt_everConnected s) s)) 1) as [En|En];
        cbn [nt_listeners set_stream] in En.
      - unfold connect. cbn [nt_source set_stream]. destruct (nt_source s) eqn:Eq; split; cbn; rewrite ?Eq; intros; try lia; try done.
      - split; cbn; intros; try lia; try done. apply H2; [lia|done]. }
    revert Hc. generalize (if (nt_listeners s1 =? 1)%nat then connect s1 else s1). intros x Hx.
    destruct (nt_state x); [done|]. destruct (nt_loading x); [done|by apply net_refresh].
  - unfold unsubscribe. destruct (nt_listeners s) as [|[|n]] eqn:En; cbn; [done|..]; split; cbn; intros; try lia; try done.
    apply H2; [lia|done].
  - unfold stream_opens. destruct (nt_source s) eqn:Eq; [|done]. cbn [negb]. destruct (nt_everConnected s); split; cbn; auto.
  - unfold stream_errors. destruct (nt_source s) eqn:Eq; [|done]. by apply net_scheduled.
  - unfold hide. cbn [nt_source set_timers]. destruct (_ || _); split; cbn; done.
  - unfold show. cbn [nt_source nt_listeners set_timers]. destruct (Nat.eqb_spec (nt_listeners s) 0) as [En|En]; cbn [negb andb].
    + split; cbn; intros; try lia; auto.
    + destruct (nt_source s) eqn:Eq; cbn [negb]; unfold connect; cbn [nt_source set_timers]; rewrite ?Eq; split; cbn; intros; auto; try lia.
  - unfold hidden_fires. destruct (nt_hiddenDue s); [|done]. cbn [negb nt_hidden nt_source set_timers].
    destruct (nt_hidden s) eqn:Eh, (nt_source s) eqn:Eq; cbn [andb]; split; cbn; rewrite ?Eh, ?Eq; intros; auto; try done.
  - by apply net_receive.
Qed.

Definition run_net (hidden : bool) (ops : list NetOp) : Net := fold_left net_step ops (new_net hidden).
Lemma run_net_ok hidden ops : net_ok (run_net hidden ops).
Proof.
  apply (run_inv _ net_ok); [split; cbn; intros; lia || done|intros s o; apply net_step_ok].
Qed.

(** C28. In every history the event stream is open only while a view watches the
    store, and in a visible tab always then; the refresh timer runs only
    then too; and [loading] is shown exactly while a [/state] request is out. *)
Theorem stream_follows_watchers (hidden : bool) (ops : list NetOp) :
  let s := run_net hidden ops in
  (nt_source s = true → (0 < nt_listeners s)%nat) ∧ ((0 < nt_listeners s)%nat → nt_hidden s = false → nt_source s = true) ∧
  (nt_refreshDue s = true → (0 < nt_listeners s)%nat) ∧ nt_loading s = nt_inflight s.
Proof. intros s. by destruct (run_net_ok hidden ops). Qed.

(** A tab that gave its stream up while it was hidden takes it back when it is
    shown, and asks for the whole state again: a request is out when the
    timer has fired. *)
Theorem shown_tab_catches_up (hidden : bool) (ops : list NetOp) :
  let s := run_net hidden ops in
  (0 < nt_listeners s)%nat → nt_source s = false →
  nt_source (show s) = true ∧ nt_refreshDue (show s) = true ∧ nt_inflight (refresh_fires (show s)) = true.
Proof.
  intros s Hl Hs. unfold show. cbn [nt_listeners nt_source set_timers]. rewrite Hs.
  destruct (Nat.eqb_spec (nt_listeners s) 0); [lia|]. cbn [negb andb].
  unfold connect. cbn [nt_source set_timers]. rewrite Hs. split; [done|]. split; [done|].
  unfold refresh_fires. cbn [nt_refreshDue scheduleRefresh set_timers]. unfold refresh. by case_match.
Qed.

(** A frame that changes the lists can be lost: when it arrives while a
    [/state] request is out and its refresh timer fires before the answer,
    the refresh joins the request already out, whose older answer then
    replaces the lists and leaves no further refresh due. *)
Theorem refresh_joins_older_answer (f : Frame) (s : Net) (st : ApiState) (ready : bool) :
  nt_source s = true → nt_inflight s = true → lists_change f = true →
  let s' := state_answer (inr (st, ready)) (refresh_fires (receive (SfInbox f) s)) in
  nt_refreshDue s' = false ∧ nt_inflight s' = false ∧ ib_pending (nt_inbox s') = as_pending st ∧ ib_groups (nt_inbox s') = as_groups st ?? [] ∧
  map f_fp (ib_friends (nt_inbox s')) = map f_fp (as_friends st).
Proof.
  intros Hs Hi Hf s'.
  assert (∃ x, receive (SfInbox f) s = scheduleRefresh x ∧ nt_inflight x = true) as (x & Ex & Ei).
  { unfold receive. rewrite Hs. cbn [negb]. destruct f; try done; cbn [lists_change]; destruct (applyFrame _ _); by eexists. }
  subst s'. rewrite Ex. unfold refresh_fires. cbn [nt_refreshDue scheduleRefresh set_timers]. unfold refresh. cbn [nt_inflight scheduleRefresh set_timers].
  rewrite Ei. unfold state_answer. cbn [nt_inflight scheduleRefresh set_timers]. rewrite Ei. cbn. repeat split.
  rewrite map_map. apply map_ext. intros g. repeat case_match; done.
Qed.

(** ** The upgrade store *)

Definition reported (ops : list UpOp) (v : list Z) (reg : option (list Z)) : Prop :=
  ∃ i c, UChecked i (inr c) ∈ ops ∧ v = uc_latest c ∧ reg = Some (uc_registry c).
Record up_ok (ops : list UpOp) (s : UpStore) : Prop := {
  uo_latest : ∀ v, us_latest s = Some v → reported ops v (us_registry s);
  uo_installs : ∀ v reg, (v, reg) ∈ us_installs s → reported ops v reg }.

Lemma reported_more ops o v reg : reported ops v reg → reported (ops ++ [o]) v reg.
Proof. intros (i & c & H & ? & ?). exists i, c. split; [|done]. apply elem_of_app. by left. Qed.
Lemma up_same ops o s s' :
  us_latest s' = us_latest s → us_registry s' = us_registry s → us_installs s' = us_installs s → up_ok ops s → up_ok (ops ++ [o]) s'.
Proof. intros E1 E2 E3 [H1 H2]. split; rewrite ?E1, ?E2, ?E3; eauto using reported_more. Qed.

Lemma up_step_ok ops o s : up_ok ops s → up_ok (ops ++ [o]) (up_step s o).
Proof.
  intros Hs. destruct o; cbn [up_step].
  - unfold check. case_bool_decide; [by apply (up_same _ _ s)|]. destruct (_ && _); by apply (up_same _ _ s).
  - unfold check_answer. destruct (us_checks s !! i) as [b|] eqn:E; [|by apply (up_same _ _ s)].
    destruct r as [e|c]; [by apply (up_same _ _ s)|]. split; cbn; [|intros; by apply reported_more, Hs].
    intros v [= <-]. exists i, c. split; [|done]. apply elem_of_app. right. by left.
  - unfold run_upgrade. destruct (us_latest s) as [v|] eqn:E; [|by apply (up_same _ _ s)].
    case_bool_decide; [by apply (up_same _ _ s)|]. split; cbn.
    + intros w Hw. by apply reported_more, Hs.
    + intros w reg [Hw|[= -> ->]%list_elem_of_singleton]%elem_of_app; apply reported_more; by apply Hs.
  - unfold run_answer. destruct (us_runs s); [by apply (up_same _ _ s)|]. destruct r as [e|[x b]]; [by apply (up_same _ _ s)|].
    destruct (negb (rr_ok x)); [by apply (up_same _ _ s)|]. destruct (negb b); by apply (up_same _ _ s).
  - unfold restarted. destruct (us_waits s); [by apply (up_same _ _ s)|]. destruct (waitForRestart _ _ _); by apply (up_same _ _ s).
Qed.

Definition run_up (ops : list UpOp) : UpStore := fold_left up_step ops EMPTY_UP.
Lemma run_up_ok ops : up_ok ops (run_up ops).
Proof.
  induction ops as [|o ops IH] using rev_ind; [split; cbn; [done|]; intros ? ? H; inversion H|].
  unfold run_up. rewrite fold_left_app. cbn. by apply up_step_ok.
Qed.

(** Whatever is clicked and in whatever order answers come, the page asks the
    host to install only a version that a check reported, from the registry
    that reported it. *)
Theorem installs_only_reported (ops : list UpOp) (v : list Z) (reg : option (list Z)) :
  (v, reg) ∈ us_installs (run_up ops) → ∃ i c, UChecked i (inr c) ∈ ops ∧ v = uc_latest c ∧ reg = Some (uc_registry c).
Proof. apply run_up_ok. Qed.

Lemma run_starts s v :
  us_latest s = Some v → us_phase s ≠ PhInstalling → us_phase s ≠ PhRestarting →
  run_upgrade s = set_installs (us_installs s ++ [(v, us_registry s)])
    (set_calls (us_checks s) (us_runs s + 1) (us_waits s) (set_snapshot PhInstalling (us_current s) (us_hasUpdate s) None None s)).
Proof. intros Hv H1 H2. unfold run_upgrade. rewrite Hv. rewrite bool_decide_eq_false_2; [done|]. set_solver. Qed.

(** A check that is out when the owner starts the install ends the busy phase
    with its answer while the install still runs, and a second click then
    asks the host to install again. *)
Theorem check_ends_install_phase (ops : list UpOp) (v : list Z) (i : nat) (r : list Z + UpgradeCheck) :
  let s := run_up ops in
  us_latest s = Some v → us_phase s = PhChecking → is_Some (us_checks s !! i) →
  let s1 := check_answer i r (run_upgrade s) in
  us_phase (run_upgrade s) = PhInstalling ∧ us_phase s1 = PhIdle ∧ us_runs s1 = (us_runs s + 1)%nat ∧
  length (us_installs (run_upgrade s1)) = (length (us_installs s) + 2)%nat.
Proof.
  intros s Hv Hp [b Hb] s1. subst s1. rewrite (run_starts s v) by (rewrite ?Hp; done). split; [done|].
  unfold check_answer. cbn [us_checks set_installs set_calls set_snapshot]. rewrite Hb.
  destruct r as [e|c]; (split; [done|]; split; [done|]);
    (erewrite run_starts; [|cbn; first [exact Hv|reflexivity]|done|done]); cbn; rewrite !length_app; cbn; lia.
Qed.

(** The times of successive polls: the loop sleeps between two tests. *)
Fixpoint spaced (t : Z) (polls : list (Z * bool)) : Prop :=
  match polls with [] => True | (now, _) :: polls' => t ≤ now ∧ spaced (now + RESTART_POLL_MS) polls' end.

Lemma wait_decides deadline polls : ∀ t down n,
  spaced t polls → deadline ≤ t + RESTART_POLL_MS * Z.of_nat n → (n < length polls)%nat → is_Some (waitForRestart deadline down polls).
Proof.
  induction polls as [|[now up] polls IH]; intros t down n Hsp Hd Hn; cbn in *; [lia|]. destruct Hsp as [H1 H2].
  destruct (Z.ltb_spec now deadline) as [Hl|Hl]; cbn; [|by eexists].
  destruct n as [|n]; [unfold RESTART_POLL_MS in *; lia|].
  assert (deadline ≤ now + RESTART_POLL_MS + RESTART_POLL_MS * Z.of_nat n) by (unfold RESTART_POLL_MS in *; lia).
  destruct up, down; try (by eexists); eapply IH; eauto; lia.
Qed.

Lemma wait_reloads deadline polls : ∀ down,
  waitForRestart deadline down polls = Some PhReloading →
  ∃ l1 n l2, polls = l1 ++ (n, true) :: l2 ∧ n < deadline ∧ (down = true ∨ ∃ m, m < deadline ∧ (m, false) ∈ l1).
Proof.
  induction polls as [|[now up] polls IH]; intros down H; cbn in H; [done|].
  destruct (Z.ltb_spec now deadline) as [Hl|Hl]; cbn in H; [|done].
  assert (∀ d, waitForRestart deadline d polls = Some PhReloading → d = down ∨ up = false →
    ∃ l1 n l2, (now, up) :: polls = l1 ++ (n, true) :: l2 ∧ n < deadline ∧ (down = true ∨ ∃ m, m < deadline ∧ (m, false) ∈ l1)) as Hstep.
  { intros d Hd Hor. destruct (IH d Hd) as (l1 & n & l2 & -> & Hn & Hc). exists ((now, up) :: l1), n, l2. split; [done|]. split; [done|].
    destruct Hor as [->| ->]; [|right; exists now; split; [done|by left]].
    destruct Hc as [?|(m & ? & ?)]; [by left|right; exists m; split; [done|by right]]. }
  destruct up; [|by apply (Hstep true H); right]. destruct down; [|by apply (Hstep false H); left].
  exists [], now, polls. split; [done|]. split; [done|by left].
Qed.

(** The wait for the restarted server ends: ninety-one polls, each at least two
    seconds after the last, decide it; and it reloads the page only on a good
    answer that follows a failed one, both before the deadline. *)
Theorem restart_wait_decides (now : Z) (polls : list (Z * bool)) :
  spaced now polls → (91 ≤ length polls)%nat →
  ∃ p, waitForRestart (now + RESTART_LIMIT_MS) false polls = Some p ∧
  (p = PhReloading → ∃ l1 n l2 m, polls = l1 ++ (n, true) :: l2 ∧ (m, false) ∈ l1 ∧ m < now + RESTART_LIMIT_MS ∧ n < now + RESTART_LIMIT_MS) ∧
  (p ≠ PhReloading → p = PhDoneManual).
Proof.
  intros Hsp Hlen. destruct (wait_decides (now + RESTART_LIMIT_MS) polls now false 90) as [p Hp]; [done|unfold RESTART_LIMIT_MS, RESTART_POLL_MS; lia|lia|].
  exists p. split; [done|]. split.
  - intros ->. destruct (wait_reloads _ _ _ Hp) as (l1 & n & l2 & -> & Hn & [?|(m & Hm & Hin)]); [done|]. by exists l1, n, l2, m.
  - intros Hne. clear Hsp Hlen. revert Hp. generalize false. induction polls as [|[t up] polls IH]; intros d Hp; cbn in Hp; [done|].
    destruct (t <? _); cbn in Hp; [|by injection Hp]. destruct up, d; [by injection Hp|..]; by eapply IH.
Qed.

(** ** Witnesses *)

Definition hidden_ops : list NetOp := [NSubscribe; NOpened; NHide; NHiddenTimer].
Lemma shown_tab_catches_up_witness :
  let s := run_net false hidden_ops in
  nt_source (show s) = true ∧ nt_refreshDue (show s) = true ∧ nt_inflight (refresh_fires (show s)) = true.
Proof. intros s. apply (shown_tab_catches_up false hidden_ops); vm_compute; [lia|reflexivity]. Defined.

Definition slow_state : Net := run_net false [NSubscribe; NOpened].
Definition asked : Frame := FrRequest (mkPending (js "p1") (js "f1") (js "Ann") (js "hi")).
Definition early_answer : ApiState := mkApiState [] None [] None None.
Lemma refresh_joins_older_answer_witness :
  ib_pending (nt_inbox (receive (SfInbox asked) slow_state)) ≠ [] ∧
  ib_pending (nt_inbox (state_answer (inr (early_answer, true)) (refresh_fires (receive (SfInbox asked) slow_state)))) = [].
Proof.
  split; [vm_compute; discriminate|].
  apply (refresh_joins_older_answer asked slow_state early_answer true); vm_compute; reflexivity.
Defined.

Definition found : UpgradeCheck := mkCheck (js "1.0.0") (js "1.1.0") true (js "r").
Definition click_ops : list UpOp := [UCheck true false; UChecked 0 (inr found); UCheck true true].
Lemma installs_only_reported_witness :
  ∃ i c, UChecked i (inr c) ∈ click_ops ++ [URun] ∧ js "1.1.0" = uc_latest c ∧ Some (js "r") = Some (uc_registry c).
Proof. apply (installs_only_reported (click_ops ++ [URun])). vm_compute. by left. Defined.

Lemma check_ends_install_phase_witness :
  let s := run_up click_ops in
  let s1 := check_answer 0 (inr found) (run_upgrade s) in
  us_phase s1 = PhIdle ∧ length (us_installs (run_upgrade s1)) = 2%nat.
Proof.
  intros s s1. destruct (check_ends_install_phase click_ops (js "1.1.0") 0 (inr found)) as (_ & H1 & _ & H2);
    [vm_compute; reflexivity|vm_compute; reflexivity|vm_compute; by eexists|]. split; [exact H1|]. etrans; [exact H2|]. vm_compute. reflexivity.
Defined.

Definition all_polls : list (Z * bool) := map (λ i, (2000 * Z.of_nat i, (5 <? i)%nat)) (seq 0 91).
Lemma restart_wait_decides_witness : ∃ p, waitForRestart (0 + RESTART_LIMIT_MS) false all_polls = Some p.
Proof.
  destruct (restart_wait_decides 0 all_polls) as (p & Hp & _); [vm_compute; intuition discriminate|vm_compute; lia|]. by exists p.
Defined.
