(* ===== verification/Paygate.v ===== *)
(** * The payment gateway client (network/paygate.ts)

    The extension spawns a local payment gateway and calls it over HTTP with
    requests the peer signs.  The closure's variables are a record, its
    functions and the process callbacks are steps over it.  What the platform
    does is an argument: whether spawning throws, what the health endpoint
    answers, the parsed [identity.json], the peer's signature, the response. *)

From S2P Require Import Prelude JsString Json.
#[local] Open Scope Z_scope.

Record PaygateSettings := mkPaySettings {
  pg_paygateBinary : list Z; pg_paygatePort : Z; pg_paygateProxy : list Z;
  pg_cdpKeyId : list Z; pg_cdpKeySecret : list Z; pg_cdpWalletSecret : list Z; pg_cdpNetwork : list Z }.

Inductive GatewayState := GwStopped | GwStarting | GwRunning | GwError.
#[export] Instance GatewayState_eq_dec : EqDecision GatewayState.
Proof. solve_decision. Defined.

Record PaygateStatus := mkPayStatus {
  gs_state : GatewayState; gs_port : Z; gs_cdpConfigured : bool; gs_network : list Z; gs_lastError : option (list Z) }.

Record PaygateError := mkPayError { pe_message : list Z; pe_code : Z }.

(** A spawned process: the binary and environment it got, the signals sent to
    it, and whether it has ended ([exitCode !== null]). *)
Record Gateway := mkGateway { gw_binary : list Z; gw_env : list (list Z * list Z); gw_signalled : bool; gw_ended : bool }.

Record Paygate := mkPaygate {
  pay_procs : list Gateway;      (** every process ever spawned *)
  pay_child : option nat;
  pay_disposed : bool;
  pay_started : bool;
  pay_status : PaygateStatus;
  pay_pubCache : option (list Z) }.

Definition createPaygateClient (s : PaygateSettings) : Paygate :=
  mkPaygate [] None false false (mkPayStatus GwStopped (pg_paygatePort s) false (pg_cdpNetwork s) None) None.

(** ** Package name *)

Definition PAYGATE_TARGETS : list (list Z) :=
  [js "darwin-arm64"; js "darwin-x64"; js "linux-arm64"; js "linux-x64"; js "win32-x64"].

Definition paygatePlatformPackageName (platform arch : list Z) : option (list Z) :=
  if bool_decide (platform ++ js "-" ++ arch ∈ PAYGATE_TARGETS)
  then Some (js "soulnet-paygate-" ++ (if jeqb platform (js "win32") then js "windows" else platform) ++ js "-" ++ arch)
  else None.

(** ** Environment *)

Definition cdpConfigured (s : PaygateSettings) : bool :=
  negb (jeqb (pg_cdpKeyId s) []) && negb (jeqb (pg_cdpKeySecret s) []) && negb (jeqb (pg_cdpWalletSecret s) []).

(** [home ++ "/a2a/..."] stands for [join(home, 'a2a', ...)]. *)
Definition envFor (home : list Z) (s : PaygateSettings) : list (list Z * list Z) :=
  [(js "PAYGATE_LISTEN", js "127.0.0.1:" ++ dec (pg_paygatePort s)); (js "PAYGATE_HOME", home ++ js "/a2a/pay");
   (js "PAYGATE_IDENTITY_FILE", home ++ js "/a2a/identity.json"); (js "CDP_NETWORK", pg_cdpNetwork s)]
  ++ (if jeqb (pg_paygateProxy s) [] then [] else [(js "HTTP_PROXY", pg_paygateProxy s); (js "HTTPS_PROXY", pg_paygateProxy s)])
  ++ (if cdpConfigured s
      then [(js "CDP_API_KEY_ID", pg_cdpKeyId s); (js "CDP_API_KEY_SECRET", pg_cdpKeySecret s); (js "CDP_WALLET_SECRET", pg_cdpWalletSecret s)]
      else []).

(** ** The process *)

Definition with_pay_status (st : PaygateStatus) (p : Paygate) : Paygate :=
  mkPaygate (pay_procs p) (pay_child p) (pay_disposed p) (pay_started p) st (pay_pubCache p).
Definition with_pay_child (c : option nat) (p : Paygate) : Paygate :=
  mkPaygate (pay_procs p) c (pay_disposed p) (pay_started p) (pay_status p) (pay_pubCache p).
Definition with_pay_procs (l : list Gateway) (p : Paygate) : Paygate :=
  mkPaygate l (pay_child p) (pay_disposed p) (pay_started p) (pay_status p) (pay_pubCache p).
Definition starting (s : PaygateSettings) : PaygateStatus :=
  mkPayStatus GwStarting (pg_paygatePort s) (cdpConfigured s) (pg_cdpNetwork s) None.
Definition failing (st : GatewayState) (message : list Z) (x : PaygateStatus) : PaygateStatus :=
  mkPayStatus st (gs_port x) (gs_cdpConfigured x) (gs_network x) (Some message).

(** [found] is what the search for the binary answers, [throws] the text when
    spawning throws. *)
Definition spawnGateway (home : list Z) (s : PaygateSettings) (found throws : option (list Z)) (p : Paygate) : Paygate :=
  if pay_disposed p || bool_decide (is_Some (pay_child p)) then p
  else
    let binary := if jeqb (pg_paygateBinary s) [] then found ?? js "paygate" else pg_paygateBinary s in
    let p1 := with_pay_status (starting s) p in
    match throws with
    | Some text => with_pay_child None (with_pay_status (failing GwError text (pay_status p1)) p1)
    | None => with_pay_child (Some (length (pay_procs p)))
                (with_pay_procs (pay_procs p1 ++ [mkGateway binary (envFor home s) false false]) p1)
    end.

Definition signal (g : Gateway) : Gateway := mkGateway (gw_binary g) (gw_env g) true (gw_ended g).
Definition end_gateway (g : Gateway) : Gateway := mkGateway (gw_binary g) (gw_env g) (gw_signalled g) true.

(** The [exit] callback of process [i], and its [error] callback when it could
    not be spawned. *)
Definition gateway_exits (i : nat) (code : list Z) (p : Paygate) : Paygate :=
  match pay_procs p !! i with
  | Some g =>
      if gw_ended g then p
      else
        let p1 := with_pay_child None (with_pay_procs (alter end_gateway i (pay_procs p)) p) in
        if pay_disposed p1 then p1
        else with_pay_status (failing GwStopped (js "paygate exited (code=" ++ code ++ js ")") (pay_status p1)) p1
  | None => p
  end.
Definition gateway_errors (i : nat) (message : list Z) (p : Paygate) : Paygate :=
  match pay_procs p !! i with
  | Some g =>
      if gw_ended g then p
      else
      let p1 := with_pay_child None (with_pay_procs (alter end_gateway i (pay_procs p)) p) in
      if pay_disposed p1 then p1 else with_pay_status (failing GwError message (pay_status p1)) p1
  | None => p
  end.

Definition start (home : list Z) (s : PaygateSettings) (found throws : option (list Z)) (p : Paygate) : Paygate :=
  if pay_started p || pay_disposed p then p
  else spawnGateway home s found throws (mkPaygate (pay_procs p) (pay_child p) (pay_disposed p) true (pay_status p) (pay_pubCache p)).

(** [proc.kill] of the child, unless it has ended. *)
Definition kill_child (p : Paygate) : Paygate :=
  match pay_child p with
  | Some i => with_pay_procs (alter (λ g, if gw_ended g then g else signal g) i (pay_procs p)) p
  | None => p
  end.

Definition restart (home : list Z) (s : PaygateSettings) (found throws : option (list Z)) (p : Paygate) : Paygate :=
  if pay_disposed p then p
  else spawnGateway home s found throws (with_pay_status (starting s) (with_pay_child None (kill_child p))).

(** [dispose]: the child is asked to stop, and killed when it lingers. *)
Definition dispose (p : Paygate) : Paygate :=
  let p1 := kill_child p in
  mkPaygate (pay_procs p1) None true (pay_started p1) (pay_status p1) (pay_pubCache p1).

(** ** Calls *)

(** One round of the loop of [ready]: what the health endpoint did and the
    clock afterwards. *)
Inductive Health := HealthDown | HealthNotOk | HealthOk (data : json).

Inductive ReadyRound := ReadyNow (p : Paygate) | ReadyFails (e : PaygateError) | ReadyAgain (p : Paygate).

Definition ready_round (s : PaygateSettings) (deadline now : Z) (h : Health) (p : Paygate) : ReadyRound :=
  let st := pay_status p in
  if pay_disposed p then ReadyFails (mkPayError (js "paygate disposed") (-32099))
  else if bool_decide (gs_state st = GwError) then ReadyFails (mkPayError (gs_lastError st ?? js "paygate failed to start") (-32099))
  else match h with
  | HealthOk data =>
      ReadyNow (with_pay_status (mkPayStatus GwRunning (gs_port st) (as_bool (get data (js "cdp_configured")) ?? cdpConfigured s)
                  (as_string (get data (js "network")) ?? gs_network st) None) p)
  | _ => if deadline <=? now then ReadyFails (mkPayError (js "paygate not ready") (-32099)) else ReadyAgain p
  end.

(** [readIdentityPub]: the key in the parsed [identity.json]. *)
Definition readIdentityPub (file : option json) : option (list Z) :=
  match file with Some id => as_string (get id (js "ed_pub")) ≫= non_empty | None => None end.

Record HttpRequest := mkHttp { rq_method : list Z; rq_url : list Z; rq_headers : list (list Z * list Z); rq_body : option (list Z) }.

(** The call after [ready]: the request that leaves, or the error. *)
Definition call_request `{JsonText} (method path ts : list Z) (body : option json) (identity : option json)
    (signRequest : list Z → list Z → list Z → PaygateError + list Z) (p : Paygate) : (PaygateError + HttpRequest) * Paygate :=
  let pub := match pay_pubCache p with Some k => Some k | None => readIdentityPub identity end in
  let p1 := mkPaygate (pay_procs p) (pay_child p) (pay_disposed p) (pay_started p) (pay_status p) pub in
  (match pub with
   | None => inl (mkPayError (js "no identity public key (identity.json missing)") (-32001))
   | Some k =>
       match signRequest method path ts with
       | inl e => inl e
       | inr signature =>
           inr (mkHttp method (js "http://127.0.0.1:" ++ dec (gs_port (pay_status p1)) ++ path)
                  [(js "Content-Type", js "application/json"); (js "X-A2A-Pub", k); (js "X-A2A-Timestamp", ts); (js "X-A2A-Signature", signature)]
                  (JSON_stringify <$> body))
       end
   end, p1).

(** The answer of the gateway: [{error, code}] is thrown. *)
Definition call_answer (status : Z) (data : json) : PaygateError + json :=
  match get data (js "error") with
  | None => inr data
  | Some e => inl (mkPayError (as_string (Some e) ?? [])
                     (match get data (js "code") with Some (JNum (Fin q)) => Qc_floor q | _ => status end))
  end.

(** ** Which processes the client still knows *)

Inductive PayOp :=
| PayStart (s : PaygateSettings) (found throws : option (list Z))
| PayRestart (s : PaygateSettings) (found throws : option (list Z))
| PayExit (i : nat) (code : list Z)
| PayError (i : nat) (message : list Z)
| PayReady (s : PaygateSettings) (deadline now : Z) (h : Health)
| PayDispose.

Section runs.
Context (home : list Z).

Definition pay_step (p : Paygate) (o : PayOp) : Paygate :=
  match o with
  | PayStart s f t => start home s f t p
  | PayRestart s f t => restart home s f t p
  | PayExit i c => gateway_exits i c p
  | PayError i m => gateway_errors i m p
  | PayReady s d n h => match ready_round s d n h p with ReadyNow p' | ReadyAgain p' => p' | ReadyFails _ => p end
  | PayDispose => dispose p
  end.

Definition running (g : Gateway) : bool := negb (gw_ended g).
Definition live_gateways (p : Paygate) : nat := length (filterb running (pay_procs p)).

(** Histories in which the client is only restarted once its process has
    ended. *)
Inductive pay_history (s0 : PaygateSettings) : Paygate → Prop :=
| ph_init : pay_history s0 (createPaygateClient s0)
| ph_step p o : pay_history s0 p → (∀ s f t, o = PayRestart s f t → live_gateways p = 0%nat) → pay_history s0 (pay_step p o).

(** Before [dispose] the child is exactly the running process. *)
Record tracked (p : Paygate) : Prop := {
  tr_child : pay_disposed p = false → ∀ i, pay_child p = Some i ↔ ∃ g, pay_procs p !! i = Some g ∧ gw_ended g = false;
  tr_signalled : pay_disposed p = true → ∀ i g, pay_procs p !! i = Some g → gw_ended g = false → gw_signalled g = true;
  tr_gone : pay_disposed p = true → pay_child p = None }.

Lemma tracked_status st p : tracked p → tracked (with_pay_status st p).
Proof. by intros [H1 H2 H3]. Qed.

Lemma live_child p i g : pay_procs p !! i = Some g → gw_ended g = false → (1 ≤ live_gateways p)%nat.
Proof.
  intros Hg He. unfold live_gateways.
  rewrite (count_alter_drop running end_gateway i _ g Hg); [lia|unfold running; by rewrite He|done].
Qed.

Lemma spawnGateway_tracked s f t p :
  (pay_disposed p = false → pay_child p = None → live_gateways p = 0%nat) → tracked p → tracked (spawnGateway home s f t p).
Proof.
  intros Hl Hp. unfold spawnGateway. destruct (pay_disposed p) eqn:Ed; [done|]. cbn [orb].
  case_bool_decide as Hc; [done|]. assert (Hn : pay_child p = None) by (destruct (pay_child p); [by destruct Hc|done]).
  assert (Hg : ∀ i g, pay_procs p !! i = Some g → gw_ended g = true).
  { intros i g Hi. destruct (gw_ended g) eqn:Eg; [done|]. pose proof (live_child p i g Hi Eg). rewrite (Hl eq_refl Hn) in *. lia. }
  destruct t as [text|]; constructor; cbn; try congruence; intros _ i.
  - split; [done|]. intros (g & Hi & He). rewrite (Hg i g Hi) in He. done.
  - split.
    + intros [= <-]. eexists. split; [by apply list_lookup_middle|done].
    + intros (g & [Hi|[Hlen Hi]]%lookup_app_Some & He); [rewrite (Hg i g Hi) in He; done|].
      destruct (i - length (pay_procs p))%nat eqn:E; [|done]. f_equal. lia.
Qed.

Lemma end_tracked i p :
  tracked p → tracked (with_pay_child (if pay_disposed p then None else if bool_decide (pay_child p = Some i) then None else pay_child p)
                         (with_pay_procs (alter end_gateway i (pay_procs p)) p)).
Proof.
  intros [H1 H2 H3]. constructor; cbn.
  - intros Ed. rewrite Ed. intros j. specialize (H1 Ed). destruct (decide (i = j)) as [->|Hne].
    + rewrite list_lookup_alter_eq. split.
      * case_bool_decide; [done|]. intros Hj. by destruct H.
      * intros (g & (g' & _ & ->)%fmap_Some & He). done.
    + rewrite list_lookup_alter_ne by done. rewrite <- H1. case_bool_decide as Hc; [|done]. rewrite Hc. split; [done|]. intros [=]. done.
  - intros Ed j g. destruct (decide (i = j)) as [->|Hne].
    + rewrite list_lookup_alter_eq. intros (g' & _ & ->)%fmap_Some. done.
    + rewrite list_lookup_alter_ne by done. by apply H2.
  - intros ->. done.
Qed.

(** The callbacks clear [child] whatever process they belong to; here that is
    the process itself, because no other runs. *)
Lemma callback_tracked i g p :
  tracked p → pay_procs p !! i = Some g → gw_ended g = false →
  tracked (with_pay_child None (with_pay_procs (alter end_gateway i (pay_procs p)) p)).
Proof.
  intros Hp Hi He. pose proof (end_tracked i p Hp) as Ht. destruct Hp as [H1 _ _]. destruct (pay_disposed p) eqn:Ed; [done|].
  by rewrite (bool_decide_eq_true_2 _ (proj2 (H1 eq_refl i) (ex_intro _ g (conj Hi He)))) in Ht.
Qed.

Lemma dispose_tracked p : tracked p → tracked (dispose p).
Proof.
  intros [H1 H2 H3]. unfold dispose, kill_child. constructor; cbn; [done| |done]. intros _ j g.
  destruct (pay_disposed p) eqn:Ed.
  - rewrite (H3 eq_refl). by apply H2.
  - destruct (pay_child p) as [i|] eqn:Ec; cbn.
    + destruct (decide (i = j)) as [->|Hne].
      * rewrite list_lookup_alter_eq. intros (g' & Hg & ->)%fmap_Some. by destruct (gw_ended g') eqn:E; cbn; [congruence|].
      * rewrite list_lookup_alter_ne by done. intros Hg He. assert (Some i = Some j) by (apply H1; eauto). congruence.
    + intros Hg He. assert (None = Some j) by (apply H1; eauto). done.
Qed.

Lemma child_live p : tracked p → pay_disposed p = false → pay_child p = None → live_gateways p = 0%nat.
Proof.
  intros [H1 _ _] Hd Hn. unfold live_gateways. destruct (filterb running (pay_procs p)) as [|g l] eqn:E; [done|].
  assert (Hin : g ∈ filterb running (pay_procs p)) by (rewrite E; by left).
  apply elem_of_filterb in Hin as [[i Hi]%list_elem_of_lookup Hr]. unfold running in Hr. bools.
  assert (pay_child p = Some i) by (apply H1; eauto). congruence.
Qed.

Lemma pay_step_tracked p o :
  (∀ s f t, o = PayRestart s f t → live_gateways p = 0%nat) → tracked p → tracked (pay_step p o).
Proof.
  intros Hr Hp. destruct o as [s f t|s f t|i c|i m|s d n h|]; cbn [pay_step].
  - unfold start. destruct (pay_started p || pay_disposed p); [done|]. destruct Hp as [H1 H2 H3].
    apply spawnGateway_tracked; [|by constructor]. cbn. apply child_live. by constructor.
  - unfold restart. destruct (pay_disposed p) eqn:Ed; [done|]. specialize (Hr s f t eq_refl).
    assert (Hk : kill_child p = p).
    { unfold kill_child. destruct (pay_child p) as [i|] eqn:Ec; [|done]. destruct (proj1 (tr_child p Hp Ed i) Ec) as (g & Hg & He).
      pose proof (live_child p i g Hg He). lia. }
    rewrite Hk. apply spawnGateway_tracked; [done|]. apply tracked_status. constructor; cbn; [|by rewrite Ed..]. intros _ i. split; [done|].
    intros (g & Hg & He). pose proof (live_child p i g Hg He). lia.
  - unfold gateway_exits. destruct (pay_procs p !! i) as [g|] eqn:Eg; [|done]. destruct (gw_ended g) eqn:Ee; [done|]. cbn.
    pose proof (callback_tracked i g p Hp Eg Ee) as Ht. destruct (pay_disposed p); [done|by apply tracked_status].
  - unfold gateway_errors. destruct (pay_procs p !! i) as [g|] eqn:Eg; [|done]. destruct (gw_ended g) eqn:Ee; [done|]. cbn.
    pose proof (callback_tracked i g p Hp Eg Ee) as Ht. destruct (pay_disposed p); [done|by apply tracked_status].
  - unfold ready_round. destruct (pay_disposed p); [done|]. case_bool_decide; [done|].
    destruct h; [destruct (d <=? n); done..|by apply tracked_status].
  - by apply dispose_tracked.
Qed.

(** As long as the gateway is only restarted once its process has ended, the
    client never loses a process: at most one runs, it is the child, and
    [dispose] signals every process that still runs. *)
Theorem gateway_tracked (s0 : PaygateSettings) (p : Paygate) :
  pay_history s0 p →
  (∀ i j g g', pay_procs p !! i = Some g → pay_procs p !! j = Some g' → gw_ended g = false → gw_ended g' = false → pay_disposed p = false → i = j) ∧
  (∀ i g, pay_procs (dispose p) !! i = Some g → gw_ended g = false → gw_signalled g = true).
Proof.
  intros Hh. assert (Hp : tracked p).
  { induction Hh as [|p o _ IH Hr]; [|by apply pay_step_tracked]. constructor; cbn; [|done..]. intros _ i. split; [done|].
    intros (g & Hg & _). done. }
  split.
  - intros i j g g' Hi Hj He He' Hd. assert (pay_child p = Some i) by (apply (tr_child p Hp Hd); eauto).
    assert (pay_child p = Some j) by (apply (tr_child p Hp Hd); eauto). congruence.
  - apply (tr_signalled _ (dispose_tracked p Hp)). done.
Qed.

(** Restarting a running gateway loses it: when the old process then exits,
    its callback clears the child that is already the new one, so the new
    process runs on unknown to the client and [dispose] does not stop it. *)
Theorem restart_loses_gateway (s : PaygateSettings) (found : option (list Z)) (code : list Z) (p : Paygate) (i : nat) (g : Gateway) :
  pay_disposed p = false → pay_child p = Some i → pay_procs p !! i = Some g → gw_ended g = false →
  let p1 := restart home s found None p in
  let p2 := gateway_exits i code p1 in
  pay_child p1 = Some (length (pay_procs p)) ∧ pay_child p2 = None ∧
  ∃ g', pay_procs (dispose p2) !! length (pay_procs p) = Some g' ∧ gw_ended g' = false ∧ gw_signalled g' = false.
Proof.
  intros Hd Hc Hg He. unfold restart, kill_child. rewrite Hd, Hc. unfold spawnGateway. cbn. rewrite Hd. cbn. rewrite length_alter.
  assert (Hlt : (i < length (pay_procs p))%nat) by (by eapply lookup_lt_Some).
  unfold gateway_exits. cbn. rewrite lookup_app_l by (by rewrite length_alter). rewrite list_lookup_alter_eq, Hg. cbn. rewrite He. cbn. rewrite He, Hd. cbn.
  split_and!; [done|done|]. unfold dispose, kill_child. cbn. rewrite list_lookup_alter_ne by lia.
  eexists. split; [apply list_lookup_middle; by rewrite length_alter|done].
Qed.
End runs.

(** ** Secrets *)

Definition env_value (env : list (list Z * list Z)) (k : list Z) : option (list Z) := snd <$> findb (λ kv, jeqb kv.1 k) env.

(** The gateway gets the three CDP secrets together or not at all, as they
    are in the settings, and it listens on the loopback only. *)
Theorem gateway_secrets (home : list Z) (s : PaygateSettings) :
  let env := envFor home s in
  env_value env (js "PAYGATE_LISTEN") = Some (js "127.0.0.1:" ++ dec (pg_paygatePort s)) ∧
  (env_value env (js "CDP_API_KEY_ID"), env_value env (js "CDP_API_KEY_SECRET"), env_value env (js "CDP_WALLET_SECRET")) =
    (if cdpConfigured s then (Some (pg_cdpKeyId s), Some (pg_cdpKeySecret s), Some (pg_cdpWalletSecret s)) else (None, None, None)) ∧
  (cdpConfigured s = true → pg_cdpKeyId s ≠ [] ∧ pg_cdpKeySecret s ≠ [] ∧ pg_cdpWalletSecret s ≠ []).
Proof.
  cbv zeta. unfold envFor, env_value. split_and!.
  - cbn [app findb fst]. js_keys. done.
  - destruct (jeqb (pg_paygateProxy s) []), (cdpConfigured s); cbn [app findb fst]; js_keys; done.
  - unfold cdpConfigured. intros Hc. apply andb_true_iff in Hc as [[H1 H2]%andb_true_iff H3]. bools. by rewrite !jeqb_neq in *.
Qed.

(** ** The wait for the gateway ends *)

(** The loop of [ready] over the rounds it makes. *)
Fixpoint ready_loop (s : PaygateSettings) (deadline : Z) (rounds : list (Z * Health)) (p : Paygate) : ReadyRound :=
  match rounds with
  | [] => ReadyAgain p
  | (now, h) :: rest =>
      match ready_round s deadline now h p with
      | ReadyAgain p' => ready_loop s deadline rest p'
      | r => r
      end
  end.

Lemma ready_round_again s deadline now h p p' : ready_round s deadline now h p = ReadyAgain p' → p' = p ∧ now < deadline.
Proof.
  unfold ready_round. destruct (pay_disposed p); [done|]. case_bool_decide; [done|]. destruct h; [| |done];
    destruct (deadline <=? now) eqn:E; try done; bools; naive_solver.
Qed.

Lemma ready_loop_again s deadline rounds p p' :
  ready_loop s deadline rounds p = ReadyAgain p' → Forall (λ r, r.1 < deadline) rounds.
Proof.
  revert p. induction rounds as [|[now h] rounds IH]; intros p; cbn; [constructor|].
  destruct (ready_round s deadline now h p) as [?|?|p1] eqn:E; [done|done|]. apply ready_round_again in E as [-> Hn]. constructor; eauto.
Qed.

(** The wait for the gateway ends: since every round takes at least the 200
    ms pause, after [timeoutMs / 200 + 2] rounds the loop has answered, whatever
    the health endpoint did. *)
Theorem ready_decides (s : PaygateSettings) (timeoutMs t0 : Z) (rounds : list (Z * Health)) (p : Paygate) :
  0 <= timeoutMs → (∀ k r, rounds !! k = Some r → t0 + 200 * Z.of_nat k <= r.1) → timeoutMs / 200 + 1 < Z.of_nat (length rounds) →
  ∀ p', ready_loop s (t0 + timeoutMs) rounds p ≠ ReadyAgain p'.
Proof.
  intros Ht Hk Hl p' Hr. apply ready_loop_again in Hr. pose proof (Z.div_pos timeoutMs 200 Ht ltac:(lia)) as Hq.
  assert (Hlt : (Z.to_nat (timeoutMs / 200 + 1) < length rounds)%nat) by lia.
  apply lookup_lt_is_Some in Hlt as [r Hr']. pose proof (Hk _ _ Hr') as H1. eapply Forall_lookup_1 in Hr; [|exact Hr'].
  cbn in Hr. rewrite Z2Nat.id in H1 by lia.
  pose proof (Z.mul_succ_div_gt timeoutMs 200 ltac:(lia)). lia.
Qed.

(** ** Witnesses *)

Definition demo_pay : PaygateSettings := mkPaySettings [] 7402 [] (js "id") (js "secret") (js "wallet") (js "base").
Definition demo_started : Paygate := pay_step [] (createPaygateClient demo_pay) (PayStart demo_pay None None).

Lemma gateway_tracked_witness : gw_signalled <$> pay_procs (dispose demo_started) !! 0%nat = Some true.
Proof.
  assert (Hh : pay_history [] demo_pay demo_started) by (apply ph_step; [constructor|congruence]).
  destruct (pay_procs (dispose demo_started) !! 0%nat) as [g|] eqn:E; [|vm_compute in E; congruence].
  cbn. f_equal. apply (proj2 (gateway_tracked [] demo_pay demo_started Hh) 0%nat g E).
  vm_compute in E. injection E as <-. reflexivity.
Defined.

Lemma restart_loses_gateway_witness :
  pay_child demo_started = Some 0%nat ∧
  pay_child (gateway_exits 0 (js "0") (restart [] demo_pay None None demo_started)) = None.
Proof.
  split; [vm_compute; reflexivity|].
  exact (proj1 (proj2 (restart_loses_gateway [] demo_pay None (js "0") demo_started 0 (mkGateway (js "paygate") (envFor [] demo_pay) false false)
    eq_refl eq_refl eq_refl eq_refl))).
Defined.

Lemma ready_decides_witness :
  ready_loop demo_pay (1000 + 300) [(1000, HealthDown); (1200, HealthDown); (1400, HealthDown)] demo_started ≠ ReadyAgain demo_started.
Proof.
  apply (ready_decides demo_pay 300 1000 [(1000, HealthDown); (1200, HealthDown); (1400, HealthDown)] demo_started); [lia| |vm_compute; reflexivity].
  intros [|[|[|k]]] r Hr; simpl in Hr; try (injection Hr as <-; vm_compute; discriminate). rewrite lookup_nil in Hr. congruence.
Defined.
