(* ===== verification/ApiRoutes.v ===== *)
(** * The browser API (api/index.ts)

    One definition per route of [createApiHandler], the dispatch, the
    Server-Sent-Events stream and the top of the handler.  A route answers a
    status and a typed body; the JSON of the body is not spelled out, and the
    ids [instruct] answers with are left out.  Plain
    errors are errors with code 0.  The routes run one after the other here:
    what interleaves between two awaits of one request is not modelled. *)

From S2P Require Import Prelude JsString JsMap Json Policy AlterState AlterChat GroupSettings FriendSettings.
From S2P Require Import AgentRegistry Drafts Settings GroupContract Memory Network Sessions SessionFace ApiRequest PayTools Upgrade.
#[local] Open Scope Z_scope.

(** ** Frames and the state of the handler *)

Inductive ApiFrame :=
| FNet (e : NetworkEvent)
| FSessions (e : SessionsEvent)
| FState (agent : option (list Z))               (** [alter] ([None]) and [agent] frames *)
| FGroupOutbound (gid : list Z) (e : ConversationEntry)
| FStatus (status : json).                       (** the first frame of a stream *)

Record Api (S : Type) := mkApi {
  api_face : Face S;
  api_mounted : bool;                            (** [options.sessions() !== undefined] *)
  api_groups : GroupSettingsStore;               (** the handler's own store; the file is the sessions' one *)
  api_protocol : ProtocolFile;
  api_sse : list nat;                            (** [sseClients], oldest first *)
  api_broken : list nat;                         (** streams whose [write] throws *)
  api_frames : list (nat * ApiFrame);            (** frames written, oldest first *)
  api_nextStream : nat;
  api_upgrades : Upgrades;
  api_exiting : bool }.
Arguments mkApi {S} _ _ _ _ _ _ _ _ _ _.
Arguments api_face {S} _.
Arguments api_mounted {S} _.
Arguments api_groups {S} _.
Arguments api_protocol {S} _.
Arguments api_sse {S} _.
Arguments api_broken {S} _.
Arguments api_frames {S} _.
Arguments api_nextStream {S} _.
Arguments api_upgrades {S} _.
Arguments api_exiting {S} _.

Section setters.
Context {S : Type}.
Definition set_face (f : Face S) (a : Api S) : Api S :=
  mkApi f (api_mounted a) (api_groups a) (api_protocol a) (api_sse a) (api_broken a) (api_frames a) (api_nextStream a) (api_upgrades a) (api_exiting a).
Definition set_own (g : GroupSettingsStore) (a : Api S) : Api S :=
  mkApi (api_face a) (api_mounted a) g (api_protocol a) (api_sse a) (api_broken a) (api_frames a) (api_nextStream a) (api_upgrades a) (api_exiting a).
Definition set_protocol (p : ProtocolFile) (a : Api S) : Api S :=
  mkApi (api_face a) (api_mounted a) (api_groups a) p (api_sse a) (api_broken a) (api_frames a) (api_nextStream a) (api_upgrades a) (api_exiting a).
Definition set_streams (l : list nat) (fs : list (nat * ApiFrame)) (n : nat) (a : Api S) : Api S :=
  mkApi (api_face a) (api_mounted a) (api_groups a) (api_protocol a) l (api_broken a) fs n (api_upgrades a) (api_exiting a).
Definition set_upgrades (u : Upgrades) (ex : bool) (a : Api S) : Api S :=
  mkApi (api_face a) (api_mounted a) (api_groups a) (api_protocol a) (api_sse a) (api_broken a) (api_frames a) (api_nextStream a) u ex.
Definition set_mounted (m : bool) (a : Api S) : Api S :=
  mkApi (api_face a) m (api_groups a) (api_protocol a) (api_sse a) (api_broken a) (api_frames a) (api_nextStream a) (api_upgrades a) (api_exiting a).
End setters.

(** ** Bodies *)

Record FriendRow := mkFRow { fw_friend : Friend; fw_tier : ReplyTier; fw_explicit : bool; fw_drafts : nat; fw_muted : bool }.
Record AgentRow := mkARow { aw_info : AgentInfo; aw_seat : option SeatAgent }.
Record AlterBody := mkAlterBody {
  al_sessionId : option (list Z); al_status : AgentStatus; al_defaultTier : ReplyTier; al_autoReplyPerHour : Z; al_directSend : bool;
  al_protocolExists : bool }.
Record StateBody := mkState {
  sb_status : json; sb_identity : option Identity; sb_friends : list FriendRow; sb_pending : list PendingRequest;
  sb_groups : list (GroupRow * bool); sb_drafts : list PendingDraft; sb_agents : list AgentRow; sb_alter : AlterBody;
  sb_error : option (list Z) }.

Inductive Body :=
| BError (code : Z) (message : list Z)
| BOk
| BState (s : StateBody)
| BWallet (configured : bool) (wallet : option json) (error : option (list Z))
| BIdentity (i : Identity)
| BCard (c : list Z * list Z)
| BFriend (f : Friend)
| BFriendRow (r : FriendRow)
| BFriendCard (c : list Z * list Z * list Z)
| BConversation (entries : list ConversationEntry) (hasMore : option bool)
| BSent (e : ConversationEntry) (r : SendReceipt)
| BOnline (m : gmap (list Z) bool)
| BAlter (s : option SessionFace.AlterState)
| BHistory (h : AlterHistory)
| BDrafts (l : list PendingDraft)
| BDecided (d : PendingDraft) (e : option ConversationEntry)
| BAgents (infos : list AgentInfo) (registry : list SeatAgent)
| BAgent (a : SeatAgent)
| BRemoved (n : Z)
| BDone (ok : bool)
| BAgentRemoved (removed : bool)
| BMemories (l : list MemoryRecord)
| BMemory (m : MemoryRecord)
| BGroup (g : GroupInfo)
| BGroupSent (r : SendReceipt) (e : option ConversationEntry)
| BGroupCard (c : option GroupCardView)
| BPaidJoin (gid : list Z) (tx amount : json)
| BApplied (gid : list Z)
| BApplications (l : list GroupApplication)
| BSettings (g : GroupSettings)
| BUpgradeCheck (c : UpgradeCheck)
| BUpgrade (r : RunResult) (restarting : bool)
| BProtocol (text : list Z) (exists_ : bool).

(** An answer, or an upgrade whose end the response waits for. *)
Inductive Reply := Answer (status : Z) (b : Body) | AwaitRun (i : nat).

Definition ok (b : Body) : Reply := Answer 200 b.
Definition refuse (code : Z) (msg : list Z) : Reply := Answer 400 (BError code msg).
Definition bad (msg : list Z) : Reply := refuse (-32602) msg.
Definition not_mounted : Reply := Answer 503 (BError (-32603) (js "sessions plugin not mounted")).

(** [error instanceof NetworkError ? 400 : 500] with [errorBody]. *)
Definition error_reply (e : NetworkError) : Reply :=
  if err_code e =? 0 then Answer 500 (BError (-32603) (err_message e)) else Answer 400 (BError (err_code e) (err_message e)).

Definition P_VERIFY : list Z := js "/v2/pay/join.verify".
Definition proof_json (p : JoinPaymentProof) : json :=
  JObj [(js "message", JStr (jp_message p)); (js "pubkey", JStr (jp_pubkey p)); (js "sig", JStr (jp_sig p))].
(** What the gateway verifies: the published terms, and who the applicant says paid. *)
Definition verify_body (terms : PaidJoinInfo) (p : JoinPayment) : json :=
  JObj ([(js "tx_hash", JStr (pay_tx_hash p)); (js "to", JStr (pj_addr terms)); (js "amount", JStr (pj_price terms))]
    ++ opt_prop (js "payer") JStr (pay_payer p) ++ opt_prop (js "proof") proof_json (pay_proof p)).
Definition paid_fields (p : GroupProfile) : PaidFields := mkPaidFields (gpf_joinPrice p) (gpf_joinAddr p) (gpf_rules p) (gpf_join p).
Definition group_terms (g : GroupInfo) : option PaidJoinInfo := paidJoinConfig (paid_fields <$> gr_profile (gi_row g)).
(** The terms of a public card. *)
Definition card_paid (c : GroupCardView) : option PaidJoinInfo :=
  if jeqb (gc_join c) (js "paid")
  then match gc_joinAddr c, gc_joinPrice c with Some a, Some p => Some (mkPaid p a) | _, _ => None end
  else paidJoinConfig (Some (mkPaidFields (gc_joinPrice c) (gc_joinAddr c) (gc_rulesHead c) (Some (gc_join c)))).

Section api.
Context {S : Type} `{NetworkClient S} `{LowerCase} `{Sqlite} `{JsonText} `{NumberToString}.
Context (uuid : nat → list Z) (worker : list Z → list Z → list Z).
(** The gateway, when one runs; the settings; a model for extraction is configured. *)
Context (pay : option (PayCall S)) (cfg : SoulmirrorSettings) (model : bool).
(** The stamps the file system gives a written text; the registries' answer, the
    profile directory and the exception of spawning. *)
Context (stamp : list Z → Z * Z) (check : option UpgradeCheck) (profileDir : option (list (list Z))) (spawn : option (list Z)).
Notation IOA := (IO (Api S)).

(** ** The stream *)

Definition write_frame (fr : ApiFrame) (a : Api S) : Api S :=
  let live := filterb (λ c, negb (bool_decide (c ∈ api_broken a))) (api_sse a) in
  set_streams live (api_frames a ++ map (λ c, (c, fr)) live) (api_nextStream a) a.
Definition broadcast (fr : ApiFrame) : IOA unit := modify (write_frame fr).

(** ** Access to the backend and the sessions plugin *)

Definition cl {A} (m : IO S A) : IOA A := λ a,
  let '(r, w) := net m (fa_w (api_face a)) in (r, set_face (with_w w (api_face a)) a).
(** A call of the sessions plugin; what it emits goes out as frames. *)
Definition inf {A} (m : IO (Face S) A) : IOA A := λ a,
  let '(r, f) := m (api_face a) in
  let new := drop (length (se_emitted (w_se (fa_w (api_face a))))) (se_emitted (w_se (fa_w f))) in
  (r, fold_left (λ a e, write_frame (FSessions e) a) new (set_face f a)).
Definition face_now : IOA (Face S) := gets api_face.
Definition sessions_now : IOA Sessions := gets (λ a, w_se (fa_w (api_face a))).
Definition mounted : IOA bool := gets api_mounted.
Definition with_sessions (m : IOA Reply) : IOA Reply := on ← mounted; if (on : bool) then m else mret not_mounted.
Definition when_mounted {A} (m : IO (Face S) A) : IOA unit := on ← mounted; if (on : bool) then _ ← inf m; mret tt else mret tt.
(** [try { … } catch (error) { return bad(error.message) }]. *)
Definition or_bad (m : IOA Reply) : IOA Reply := catch m (λ e, mret (bad (err_message e))).

(** ** The page state *)

Definition friendRow (s : option Sessions) (f : Friend) : FriendRow :=
  match s with
  | Some s => mkFRow f (tierOf s (fr_fp f)) (bool_decide (is_Some (tierStored s (fr_fp f)))) (count_drafts (Some (fr_fp f)) (se_drafts s)) (friendMuted s (fr_fp f))
  | None => mkFRow f (Settings.se_defaultTier cfg) false 0 false
  end.
Definition current : IOA (option Sessions) := on ← mounted; s ← sessions_now; mret (if (on : bool) then Some s else None).

Definition with_online (m : gmap (list Z) bool) (f : Friend) : Friend :=
  match m !! fr_fp f with
  | Some b => mkNFriend (fr_fp f) (fr_name f) (fr_remark f) (fr_cardName f) (fr_protocol f) (Some b) (fr_unread f) (fr_count f)
                (fr_lastTs f) (fr_lastBody f) (fr_typing f) (fr_addedAt f)
  | None => f
  end.

(** The three lists are fetched together; [groups.list] alone may fail. *)
Definition fetch_lists : IOA (list Friend * list PendingRequest * list GroupRow) :=
  f ← attempt (cl net_friends_list);
  p ← attempt (cl net_friends_pending);
  g ← catch (cl net_groups_list) (λ _, mret []);
  match f, p with
  | inr f, inr p => mret (f, p, g)
  | inl e, _ | _, inl e => throw e
  end.

Record Overview := mkOverview { ov_identity : option Identity; ov_friends : list FriendRow; ov_pending : list PendingRequest; ov_groups : list (GroupRow * bool) }.
Definition overview (s : option Sessions) : IOA (Overview * option (list Z)) :=
  id ← attempt (cl net_identity);
  match id with
  | inl e => mret (mkOverview None [] [] [], Some (err_message e))
  | inr None => mret (mkOverview None [] [] [], None)
  | inr (Some i) =>
      l ← attempt fetch_lists;
      match l with
      | inl e => mret (mkOverview (Some i) [] [] [], Some (err_message e))
      | inr (f, p, g) =>
          online ← (if bool_decide (f = []) then mret ∅ else catch (cl (net_presence (map fr_fp f))) (λ _, mret ∅));
          mret (mkOverview (Some i) (map (λ x, friendRow s (with_online online x)) f) p
                  (map (λ x, (x, match s with Some s => groupMuted s (gr_gid x) | None => false end)) g), None)
      end
  end.

Definition alter_status (f : Face S) : AgentStatus := match latest f with Some st => as_status st | None => Idle end.
Definition agent_rows (f : Face S) : list AgentRow :=
  map (λ i, mkARow i (findb (λ a, jeqb (ag_name a) (ai_name i)) (rg_agents (se_registry (w_se (fa_w f)))))) (agentsInfo f).

Definition state : IOA Reply :=
  status ← gets (λ a, net_status (w_net (fa_w (api_face a))));
  s ← current;
  o ← overview s;
  f ← face_now;
  proto ← gets api_protocol;
  mret (ok (BState (mkState status (ov_identity o.1) (ov_friends o.1) (ov_pending o.1) (ov_groups o.1)
    (match s with Some _ => list_drafts None (se_drafts (w_se (fa_w f))) | None => [] end)
    (match s with Some _ => agent_rows f | None => [] end)
    (mkAlterBody (s ≫= se_alterId) (match s with Some _ => alter_status f | None => Idle end)
       (Settings.se_defaultTier cfg) (se_autoReplyPerHour cfg) (se_directSend cfg) (protocol_exists proto)) o.2))).

(** ** Identity and friends *)

Definition wallet_fields (w : json) : json :=
  let field k := match get w (js k) with Some v => [(js k, v)] | None => [] end in
  JObj (field "address"%string ++ field "network"%string ++ field "balance_usdc"%string ++ field "balance_eth"%string).
Definition pay_wallet : IOA Reply :=
  match pay with
  | None => mret (ok (BWallet false None None))
  | Some call =>
      catch (w ← cl (call GET P_WALLET None);
             match w with
             | JNull => throw (mkErr (js "Cannot read properties of null") 0)
             | _ => mret (ok (BWallet true (Some (wallet_fields w)) None))
             end)
        (λ e, mret (ok (BWallet true None (Some (err_message e)))))
  end.

(** [text(body[k])], or [bad] with the message. *)
Definition need (body : json) (k : list Z) (msg : list Z) (m : list Z → IOA Reply) : IOA Reply :=
  match text (get body k) with Some v => m v | None => mret (bad msg) end.
Definition needs (body : json) (k1 k2 : list Z) (msg : list Z) (m : list Z → list Z → IOA Reply) : IOA Reply :=
  match text (get body k1), text (get body k2) with Some x, Some y => m x y | _, _ => mret (bad msg) end.
Definition answering (m : IOA unit) : IOA Reply := _ ← m; mret (ok BOk).

Definition FP : list Z := js "fp".
Definition GID : list Z := js "gid".
Definition URI : list Z := js "uri".
Definition NAME : list Z := js "name".
Definition empty (k : string) : list Z := js k ++ js " must not be empty".
Definition NO_GID : list Z := empty "gid".
Definition NO_PAIR : list Z := js "gid and fp must not be empty".

Definition identity_create (body : json) : IOA Reply :=
  need body NAME (empty "name") (λ name, i ← cl (net_createIdentity name); mret (ok (BIdentity i))).
Definition card_parse (body : json) : IOA Reply := need body URI (empty "uri") (λ uri, c ← cl (net_parseCard uri); mret (ok (BCard c))).
Definition friends_add (body : json) : IOA Reply :=
  need body (js "card_uri") (empty "card_uri") (λ uri, f ← cl (net_friends_add uri (text (get body (js "note")))); mret (ok (BFriend f))).
Definition friends_accept (body : json) : IOA Reply :=
  need body (js "id") (empty "id") (λ id,
    f ← cl (net_friends_accept id (text (get body (js "note"))));
    _ ← when_mounted (noteFriend f);
    s ← current;
    mret (ok (BFriendRow (friendRow s f)))).
Definition friends_reject (body : json) : IOA Reply := need body (js "id") (empty "id") (λ id, answering (cl (net_friends_reject id))).

Definition tier_valid (v : option json) : bool := match v with None | Some JNull => true | _ => is_str v [] || isReplyTier v end.
Definition friends_set (body : json) : IOA Reply :=
  need body FP (empty "fp") (λ fp,
    let note := text (get body (js "note")) in
    let protocol := as_string (get body (js "protocol")) in
    let tier := get body (js "tier") in
    if negb (tier_valid tier) then mret (bad (js "tier must be notify | draft | auto (empty = default)"))
    else
      l ← cl net_friends_list;
      match findb (λ f, jeqb (fr_fp f) fp) l with
      | None => mret (Answer 404 (BError NetworkErrorCode.notFriend (js "not a friend")))
      | Some f0 =>
          f ← (if bool_decide (note = None) && bool_decide (protocol = None) then mret f0
               else f ← cl (net_friends_set fp note protocol); _ ← when_mounted (noteFriend f); mret f);
          _ ← (match tier with None => mret tt | Some _ => when_mounted (setTier fp (tier_of tier)) end);
          _ ← (match flag (get body (js "muted")) with None => mret tt | Some b => when_mounted (setFriendMuted fp b) end);
          s ← current;
          mret (ok (BFriendRow (friendRow s f)))
      end).
Definition friends_card (body : json) : IOA Reply := need body FP (empty "fp") (λ fp, c ← cl (net_friends_card fp); mret (ok (BFriendCard c))).

(** ** Private conversations *)

Definition conv_options (body : json) : ConvOptions := mkConv (whole (get body (js "since"))) (whole (get body (js "limit"))).
Definition conversation_markRead (body : json) : IOA Reply :=
  need body FP (js "fp required") (λ fp,
    _ ← cl (net_markRead fp (seq_of (get body (js "seq"))));
    answering (when_mounted (markRead fp))).
Definition conversation_get (body : json) : IOA Reply :=
  need body FP (empty "fp") (λ fp, r ← cl (net_conversation fp (conv_options body)); mret (ok (BConversation r.1 (Some r.2)))).

Definition sendDirect (fp body : list Z) : IOA (ConversationEntry * SendReceipt) :=
  r ← cl (sendAndArchive fp body None);
  _ ← broadcast (FSessions (SeOutbound fp None r.1));
  mret r.
Definition message_send (body : json) : IOA Reply :=
  need body FP (empty "fp") (λ fp,
    let msg := line (get body (js "body")) in
    if jeqb msg [] then mret (bad (empty "body")) else r ← sendDirect fp msg; mret (ok (BSent r.1 r.2))).
Definition message_typing (body : json) : IOA Reply := need body FP (empty "fp") (λ fp, answering (cl (net_typing fp (not_off (get body (js "on")))))).
Definition presence (body : json) : IOA Reply := m ← cl (net_presence (fpList (get body (js "fps")))); mret (ok (BOnline m)).

(** ** The alter and the seat agents *)

Definition alter_instruct (body : json) : IOA Reply :=
  let instruction := line (get body (js "text")) in
  if jeqb instruction [] then mret (bad (empty "text"))
  else with_sessions (_ ← inf (instruct_alter uuid instruction); f ← face_now; mret (ok (BAlter (latest f)))).
Definition session_latest : IOA Reply := on ← mounted; f ← face_now; mret (ok (BAlter (if (on : bool) then latest f else None))).
Definition NO_HISTORY : AlterHistory := mkHistory None Idle EMPTY_CHAT.
Definition session_history (body : json) : IOA Reply :=
  on ← mounted; f ← face_now;
  mret (ok (BHistory (if (on : bool) then history (whole_up (get body (js "limit"))) f else NO_HISTORY))).
Definition agent_instruct (body : json) : IOA Reply :=
  need body NAME (empty "name") (λ name,
    let instruction := line (get body (js "text")) in
    if jeqb instruction [] then mret (bad (empty "text"))
    else with_sessions (or_bad (answering (inf (instructAgent uuid name instruction))))).
Definition agent_history (body : json) : IOA Reply :=
  need body NAME (empty "name") (λ name,
    on ← mounted; f ← face_now;
    mret (ok (BHistory (if (on : bool) then agentHistory name (whole_up (get body (js "limit"))) (text (get body GID)) f else NO_HISTORY)))).
Definition drafts_list (body : json) : IOA Reply :=
  s ← current; mret (ok (BDrafts (match s with Some s => list_drafts (text (get body FP)) (se_drafts s) | None => [] end))).
Definition decide (id : list Z) (d : DraftDecision) : IOA Reply := r ← inf (decide_draft uuid id d); mret (ok (BDecided r.1 r.2)).
Definition drafts_decide (body : json) : IOA Reply :=
  need body (js "id") (empty "id") (λ id,
    with_sessions (match text (get body (js "action")) with
    | Some action =>
        if jeqb action (js "approve") then decide id (Approve (as_string (get body (js "body"))))
        else if jeqb action (js "reject") then decide id Reject
        else if jeqb action (js "revise") then need body (js "feedback") (empty "feedback") (λ fb, decide id (Revise fb))
        else mret (bad (js "action must be approve | reject | revise"))
    | None => mret (bad (js "action must be approve | reject | revise"))
    end)).
Definition agents_list : IOA Reply :=
  on ← mounted; f ← face_now;
  mret (ok (if (on : bool) then BAgents (agentsInfo f) (rg_agents (se_registry (w_se (fa_w f)))) else BAgents [] [])).
Definition seat_of (body : json) (name : list Z) : SeatAgent :=
  mkAgent name (text (get body (js "preset"))) (text (get body (js "cwd")))
    (match get body (js "prompt") with Some (JStr p) => non_empty (trim p) | _ => None end)
    (if truthy_flag (get body (js "approval")) then Some true else None).
Definition agents_set (body : json) : IOA Reply :=
  with_sessions (need body NAME (empty "name") (λ name, or_bad (a ← inf (setAgent (seat_of body name)); mret (ok (BAgent a))))).
Definition agents_remove (body : json) : IOA Reply :=
  with_sessions (need body NAME (empty "name") (λ name, r ← inf (SessionFace.removeAgent name); mret (ok (BAgentRemoved r)))).

(** ** Memories *)

Definition memory_cancel (body : json) : IOA Reply :=
  with_sessions (
    let ids := match get body (js "ids") with Some (JArr l) => strings_of l | _ => [] end in
    if bool_decide (ids = []) then mret (bad (js "ids must name at least one memory"))
    else n ← inf (cancelMemory ids 0); mret (ok (BRemoved n))).
Definition memory_list (body : json) : IOA Reply :=
  with_sessions (f ← face_now; mret (ok (BMemories (list_memories (allowOf body) (fa_db f))))).
Definition BAD_SCOPE : list Z := js "scope must be global | agent | shared-friend | shared-group".
Definition memory_add (body : json) : IOA Reply :=
  with_sessions (need body (js "content") (empty "content") (λ content,
    match memoryScope (get body (js "scope")) with
    | None => mret (bad BAD_SCOPE)
    | Some scope => or_bad (m ← inf (memoryAdd uuid (text (get body (js "kind")) ?? js "fact") content scope); mret (ok (BMemory m)))
    end)).
Definition memory_update (body : json) : IOA Reply :=
  with_sessions (needs body (js "uid") (js "content") (js "uid and content required") (λ uid content,
    match get body (js "scope") with
    | None => r ← inf (memoryUpdate uid content None); mret (ok (BDone r))
    | v => match memoryScope v with
           | None => mret (bad BAD_SCOPE)
           | scope => r ← inf (memoryUpdate uid content scope); mret (ok (BDone r))
           end
    end)).
Definition memory_remove (body : json) : IOA Reply :=
  with_sessions (need body (js "uid") (js "uid required") (λ uid, r ← inf (memoryRemove uid); mret (ok (BDone r)))).
Definition memory_summarize (body : json) : IOA Reply :=
  with_sessions (need body GID (js "gid required") (λ gid, _ ← inf (summarizeGroupMemories model gid); mret (ok BOk))).

(** ** Groups *)

Definition group_create (body : json) : IOA Reply :=
  need body NAME (empty "name") (λ name,
    let members := fpList (get body (js "members")) in
    if bool_decide (members = []) then mret (bad (js "members must name at least one friend fingerprint"))
    else
      g ← cl (net_groups_create name members (create_profile (profileOf (get body (js "profile"))) (text (get body (js "template")))));
      mret (ok (BGroup g))).
Definition group_get (body : json) : IOA Reply := need body GID NO_GID (λ gid, g ← cl (net_groups_info gid); mret (ok (BGroup g))).

Definition read_group_entry (gid : list Z) (r : SendReceipt) : IOA (option ConversationEntry) :=
  match rc_seq r with
  | Some q =>
      if 0 <? q
      then l ← catch (cl (net_groups_conversation gid (mkConv (Some (q - 1)) (Some 1)))) (λ _, mret []); mret (findb (λ e, ce_seq e =? q) l)
      else mret None
  | None => mret None
  end.
Definition sender_of (v : option json) : option (list Z) :=
  if is_str v (js "alter") then Some (js "alter") else if is_str v (js "owner") then Some (js "owner") else None.
Definition group_send (body : json) : IOA Reply :=
  need body GID NO_GID (λ gid,
    let msg := line (get body (js "body")) in
    let by_ := sender_of (get body (js "by")) in
    if jeqb msg [] then mret (bad (empty "body"))
    else
      r ← cl (net_groups_send gid msg (Some (mkGroupSendOptions by_ (if is_true (get body (js "auto")) then Some true else None) None)));
      e ← read_group_entry gid r;
      _ ← (match e with Some x => broadcast (FGroupOutbound gid x) | None => mret tt end);
      _ ← (if bool_decide (by_ = Some (js "alter")) then mret tt
           else catch (when_mounted (own_post uuid worker gid msg)) (λ _, mret tt));
      mret (ok (BGroupSent r e))).

Definition group_conversation (body : json) : IOA Reply :=
  need body GID NO_GID (λ gid, l ← cl (net_groups_conversation gid (conv_options body)); mret (ok (BConversation l None))).
Definition group_markRead (body : json) : IOA Reply :=
  need body GID NO_GID (λ gid, answering (cl (net_groups_markRead gid (seq_of (get body (js "seq")))))).
Definition group_leave (body : json) : IOA Reply := need body GID NO_GID (λ gid, answering (cl (net_groups_leave gid))).
Definition group_kick (body : json) : IOA Reply := needs body GID FP NO_PAIR (λ gid fp, answering (cl (net_groups_kick gid fp))).
Definition group_setProfile (body : json) : IOA Reply :=
  need body GID NO_GID (λ gid,
    match profileOf (get body (js "profile")) with
    | None => mret (bad (js "profile must be an object"))
    | Some p => answering (cl (net_groups_setProfile gid p))
    end).
Definition group_pin (body : json) : IOA Reply := needs body GID (js "body") (js "gid and body must not be empty") (λ gid b, answering (cl (net_groups_pin gid b))).
Definition group_unpin (body : json) : IOA Reply := needs body GID (js "id") (js "gid and id must not be empty") (λ gid i, answering (cl (net_groups_unpin gid i))).
Definition group_lookup (body : json) : IOA Reply := need body URI (empty "uri") (λ uri, c ← cl (net_groups_lookup uri); mret (ok (BGroupCard c))).

Definition paid_note (amount : json) : list Z := js "paid " ++ payment_text amount ++ js " USDC to join".
Definition inw_net {A} (m : IO (World S) A) : IOA A := λ a,
  let '(r, w) := m (fa_w (api_face a)) in (r, set_face (with_w w (api_face a)) a).
Definition group_paidJoin (body : json) : IOA Reply :=
  need body URI (empty "uri") (λ uri,
    card ← cl (net_groups_lookup uri);
    match card with
    | None => mret (refuse NetworkErrorCode.notFound (js "找不到该群（无法读取公开群名片）。"))
    | Some c =>
        match card_paid c with
        | None => mret (bad (js "该群不是付费进群模式。"))
        | Some terms =>
            match pay with
            | None => mret (refuse (-32603) (js "本机没有可用钱包：请先让分身创建一个钱包，或改用外部钱包粘贴交易哈希。"))
            | Some call =>
                r ← inw_net (pay_and_apply call uri terms paid_note None);
                mret (match r with
                      | Some (amount, hash, gid) => ok (BPaidJoin gid hash amount)
                      | None => refuse (-32603) (js "payment failed")
                      end)
            end
        end
    end).

Definition group_apply (body : json) : IOA Reply :=
  need body URI (empty "uri") (λ uri,
    match paymentOf (get body (js "payment")) with
    | Some (inl msg) => mret (bad msg)
    | Some (inr p) => gid ← cl (net_groups_apply uri (text (get body (js "note"))) (Some p)); mret (ok (BApplied gid))
    | None => gid ← cl (net_groups_apply uri (text (get body (js "note"))) None); mret (ok (BApplied gid))
    end).
Definition group_applications (body : json) : IOA Reply := need body GID NO_GID (λ gid, l ← cl (net_groups_applications gid); mret (ok (BApplications l))).

Definition applied_payment (fp : list Z) (apps : list GroupApplication) : option JoinPayment :=
  findb (λ a, jeqb (ap_fp a) fp) apps ≫= ap_payment.
(** The payment check of a paid group: [None] when the application may be approved. *)
Definition check_payment (gid fp : list Z) (terms : PaidJoinInfo) : IOA (option Reply) :=
  apps ← cl (net_groups_applications gid);
  match applied_payment fp apps with
  | None => mret (Some (bad (js "该群是付费进群：申请人还没有附上付款证明，不能批准。请申请人先付款（soulmirror_group paid_join）。")))
  | Some p =>
      match pay with
      | None => mret (Some (refuse (-32603) (js "付费进群需要本地支付网关验证到账，当前网关不可用。")))
      | Some call =>
          v ← cl (call POST P_VERIFY (Some (verify_body terms p)));
          mret (if is_true (get v (js "valid")) then None
                else Some (bad (js "paid-join: the applicant payment failed on-chain verification (" ++ (as_string (get v (js "reason")) ?? js "invalid")
                                  ++ js "); cannot approve.")))
      end
  end.
Definition join_notice (fp : list Z) (terms : PaidJoinInfo) (app_ : option GroupApplication) : list Z :=
  let amount := match app_ ≫= ap_payment with Some p => pay_amount p | None => pj_price terms end in
  let who := match app_ ≫= λ a, non_empty (ap_name a) with
             | Some n => n
             | None => if (10 <? length fp)%nat then take 10 fp ++ js "…" else fp
             end in
  js "✅ " ++ who ++ js " paid " ++ amount ++ js " USDC and joined the group".
(** After the approval: tell the group, best effort. *)
Definition announce_joiner (gid fp : list Z) (terms : PaidJoinInfo) : IOA unit :=
  catch (apps ← cl (net_groups_applications gid);
         _ ← cl (net_groups_send gid (join_notice fp terms (findb (λ a, jeqb (ap_fp a) fp) apps))
                   (Some (mkGroupSendOptions (Some (js "owner")) None None)));
         mret tt) (λ _, mret tt).
Definition approve_paid (gid fp : list Z) (terms : PaidJoinInfo) : IOA Reply :=
  _ ← cl (net_groups_approve gid fp); answering (announce_joiner gid fp terms).
Definition group_approve (body : json) : IOA Reply :=
  needs body GID FP NO_PAIR (λ gid fp,
    g ← cl (net_groups_info gid);
    match group_terms g with
    | None => answering (cl (net_groups_approve gid fp))
    | Some terms =>
        refused ← check_payment gid fp terms;
        match refused with
        | Some r => mret r
        | None => approve_paid gid fp terms
        end
    end).
Definition group_applicationReject (body : json) : IOA Reply := needs body GID FP NO_PAIR (λ gid fp, answering (cl (net_groups_applicationReject gid fp))).
Definition group_invite (body : json) : IOA Reply := needs body GID FP NO_PAIR (λ gid fp, answering (cl (net_groups_invite gid fp))).

(** *** Settings of one group: the sessions plugin's store when it is mounted *)

Definition groups_file (a : Api S) : option json := st_file (se_groups (w_se (fa_w (api_face a)))).
Definition with_file (file : option json) (g : GroupSettingsStore) : GroupSettingsStore := mkGStore (st_data g) (st_loaded g) file.
Definition own_load : IOA unit := modify (λ a,
  if st_loaded (api_groups a) then a else set_own (load (with_file (groups_file a) (api_groups a))) a).
(** A write of the handler's own store replaces the shared file. *)
Definition own_set (gid : list Z) (p : GroupSettingsPatch) : IOA GroupSettings := λ a,
  let '(g, r) := set_group (fa_io (api_face a)) gid p (with_file (groups_file a) (api_groups a)) in
  let f := api_face a in
  let w := fa_w f in
  let s := w_se w in
  (match r with Some x => inr x | None => inl storage_error end,
   set_face (with_w (mkWorld (w_net w) (set_stores (se_registry s) (with_file (st_file g) (se_groups s)) (se_friends s) s) (w_uuids w)) f) (set_own g a)).
Definition shown_settings (gid : list Z) : IOA Reply :=
  on ← mounted; own ← gets api_groups; s ← sessions_now; mret (ok (BSettings (get_group (if (on : bool) then se_groups s else own) gid))).
Definition group_settings (method : list Z) (body : json) : IOA Reply :=
  need body GID NO_GID (λ gid,
    _ ← own_load;
    on ← mounted;
    match settingsPatch body with
    | Some p =>
        if jeqb method POST
        then x ← (if (on : bool) then inf (setGroupVoices gid p) else own_set gid p); mret (ok (BSettings x))
        else shown_settings gid
    | None => shown_settings gid
    end).

(** ** Upgrade and protocol *)

Definition upgrade_check : IOA Reply :=
  match check with Some c => mret (ok (BUpgradeCheck c)) | None => throw (mkErr (js "no registry answered") 0) end.
Definition upgrade_run (body : json) : IOA Reply :=
  match text (get body (js "version")) with
  | None => mret (bad (js "version must be strict semver (X.Y.Z)"))
  | Some v =>
      let registry := text (get body (js "registry")) in
      if negb (isValidVersion v) then mret (bad (js "version must be strict semver (X.Y.Z)"))
      else if match registry with Some r => negb (bool_decide (r ∈ UPGRADE_REGISTRIES)) | None => false end
      then mret (bad (js "registry not in the allowed list"))
      else
        u ← gets api_upgrades;
        if up_inflight u then mret (Answer 409 (BError (-32000) (js "an upgrade is already running")))
        else match runUpgrade v registry profileDir spawn u with
        | inl _ => throw (mkErr (js "upgrade refused") 0)
        | inr u' => _ ← modify (set_upgrades u' false); mret (AwaitRun (length (up_runs u)))
        end
  end.
(** When run [i] has settled: relaunch the host where the peer can, and answer. *)
Definition upgrade_answer (r : RunResult) : IOA Reply :=
  if negb (rr_ok r) then mret (ok (BUpgrade r false))
  else
    restarting ← (match net_relaunch with
                  | Some m => catch (_ ← cl m; mret true) (λ _, mret false)
                  | None => mret false
                  end);
    _ ← (if (restarting : bool) then modify (λ a, set_upgrades (api_upgrades a) true a) else mret tt);
    mret (ok (BUpgrade r restarting)).

Definition protocol_text : IOA (list Z) := λ a, let '(t, p) := read_protocol (api_protocol a) in (inr t, set_protocol p a).
Definition protocol_get : IOA Reply := t ← protocol_text; p ← gets api_protocol; mret (ok (BProtocol t (protocol_exists p))).
Definition protocol_set (body : json) : IOA Reply :=
  match get body (js "text") with
  | Some (JStr t) =>
      _ ← modify (λ a, set_protocol (write_protocol (stamp t).1 (stamp t).2 t (api_protocol a)) a);
      back ← protocol_text;
      p ← gets api_protocol;
      mret (ok (BProtocol back (protocol_exists p)))
  | _ => mret (bad (js "text must be a string"))
  end.

(** ** Dispatch *)

Definition routes (method : list Z) (body : json) : list (list Z * IOA Reply) :=
  [(js "state", state); (js "pay.wallet", pay_wallet); (js "identity.create", identity_create body); (js "card.parse", card_parse body);
   (js "friends.add", friends_add body); (js "friends.accept", friends_accept body); (js "friends.reject", friends_reject body);
   (js "friends.set", friends_set body); (js "friends.card", friends_card body); (js "conversation.markRead", conversation_markRead body);
   (js "conversation.get", conversation_get body); (js "message.send", message_send body); (js "message.typing", message_typing body);
   (js "presence", presence body); (js "alter.instruct", alter_instruct body); (js "session.latest", session_latest);
   (js "session.history", session_history body); (js "agent.instruct", agent_instruct body); (js "agent.history", agent_history body);
   (js "drafts.list", drafts_list body); (js "drafts.decide", drafts_decide body); (js "agents.list", agents_list);
   (js "agents.set", agents_set body); (js "agents.remove", agents_remove body); (js "memory.cancel", memory_cancel body);
   (js "memory.list", memory_list body); (js "memory.add", memory_add body); (js "memory.update", memory_update body);
   (js "memory.remove", memory_remove body); (js "memory.summarize", memory_summarize body); (js "group.create", group_create body);
   (js "group.get", group_get body); (js "group.send", group_send body); (js "group.conversation", group_conversation body);
   (js "group.markRead", group_markRead body); (js "group.leave", group_leave body); (js "group.kick", group_kick body);
   (js "group.setProfile", group_setProfile body); (js "group.pin", group_pin body); (js "group.unpin", group_unpin body);
   (js "group.lookup", group_lookup body); (js "group.paidJoin", group_paidJoin body); (js "group.apply", group_apply body);
   (js "group.applications", group_applications body); (js "group.approve", group_approve body);
   (js "group.applicationReject", group_applicationReject body); (js "group.invite", group_invite body);
   (js "group.settings", group_settings method body); (js "upgrade.check", upgrade_check); (js "upgrade.run", upgrade_run body);
   (js "protocol.get", protocol_get); (js "protocol.set", protocol_set body)].

Definition handle (route method : list Z) (body : json) : IOA Reply :=
  match map_get (routes method body) route with
  | Some m => m
  | None => mret (Answer 404 (BError (-32601) (js "unknown route " ++ method ++ js " " ++ route)))
  end.

(** ** The top of the handler *)

Definition METHOD_HINT : list Z :=
  js "use POST with application/json (GET only for state / conversation.get / presence / session.latest / session.history / drafts.list / protocol.get / events)".

Definition run_reply (m : IOA Reply) (a : Api S) : Reply * Api S :=
  match m a with (inr r, a') => (r, a') | (inl e, a') => (error_reply e, a') end.

Definition open_stream (a : Api S) : Api S :=
  let i := api_nextStream a in
  set_streams (api_sse a ++ [i]) (api_frames a ++ [(i, FStatus (net_status (w_net (fa_w (api_face a)))))]) (i + 1)%nat a.

(** [None]: the response is an open event stream. *)
Definition serve (r : Request) (a : Api S) : option Reply * Api S :=
  let route := route_of (rq_path r) in
  if jeqb route (js "events") && jeqb (rq_method r) GET
  then (None, open_stream a)
  else if negb (jeqb (rq_method r) POST) && negb (jeqb (rq_method r) GET && bool_decide (route ∈ QUERY_ROUTES))
  then (Some (Answer 405 (BError (-32600) METHOD_HINT)), a)
  else match request_body r with
  | inl e => (Some (error_reply e), a)
  | inr body => let '(x, a') := run_reply (handle route (rq_method r) body) a in (Some x, a')
  end.

(** The browser closed stream [i]; the response of a run that has ended. *)
Definition close_stream (i : nat) (a : Api S) : Api S := set_streams (filterb (λ c, negb (Nat.eqb c i)) (api_sse a)) (api_frames a) (api_nextStream a) a.
Definition run_ended (i : nat) (a : Api S) : option Reply * Api S :=
  match up_runs (api_upgrades a) !! i ≫= run_result with
  | Some r => let '(x, a') := run_reply (upgrade_answer r) a in (Some x, a')
  | None => (None, a)
  end.

(** An event of the backend: to the streams, and to the sessions plugin. *)
Definition on_event (ready : bool) (ev : NetworkEvent) (a : Api S) : Api S :=
  let a1 := write_frame (FNet ev) a in
  if api_mounted a1 then (inf (on_network_event uuid worker ready ev) a1).2 else a1.
(** The debounced publications of the sessions plugin fire. *)
Definition publish (g : Face S → Face S) (a : Api S) : Api S :=
  let f := g (api_face a) in
  fold_left (λ a o, write_frame (FState o) a) (drop (length (fa_published (api_face a))) (fa_published f)) (set_face f a).
Definition dispose (a : Api S) : Api S := set_streams [] (api_frames a) (api_nextStream a) a.
End api.

(** * Theorems *)

(** ** GET requests only read *)

Section reading.
Context {S : Type} `{NetworkClient S} `{LowerCase} `{Sqlite} `{JsonText} `{NumberToString}.
Context (uuid : nat → list Z) (worker : list Z → list Z → list Z) (pay : option (PayCall S)) (cfg : SoulmirrorSettings) (model : bool).
Context (stamp : list Z → Z * Z) (check : option UpgradeCheck) (profileDir : option (list (list Z))) (spawn : option (list Z)).

(** The handler's side is as before: sessions, memories, files, streams and
    upgrades; what the backend does with a query is its own matter, and the
    caches of the two files may have been filled. *)
Record reads (a a' : Api S) : Prop := {
  rd_face : ∃ n, api_face a' = with_w (mkWorld n (w_se (fa_w (api_face a))) (w_uuids (fa_w (api_face a)))) (api_face a);
  rd_mounted : api_mounted a' = api_mounted a;
  rd_file : pf_disk (api_protocol a') = pf_disk (api_protocol a);
  rd_sse : api_sse a' = api_sse a;
  rd_frames : api_frames a' = api_frames a;
  rd_upgrades : api_upgrades a' = api_upgrades a;
  rd_exiting : api_exiting a' = api_exiting a }.

Instance reads_preorder : PreOrder reads.
Proof.
  split.
  - intros a. split; try done. exists (w_net (fa_w (api_face a))). by destruct a as [[[] ? ? ? ? ? ? ? ? ?] ? ? ? ? ? ? ? ? ?].
  - intros a b c [[n Hf] ? ? ? ? ? ?] [[n' Hf'] ? ? ? ? ? ?]. split; try (by etrans). exists n'. by rewrite Hf', Hf.
Qed.
Notation readonly := (moves reads).

Lemma readonly_cl {A} (m : IO S A) : readonly (cl m).
Proof. intros a. unfold cl, net. destruct (m _) as [r n]. split; try done. by exists n. Qed.
Lemma readonly_load : readonly own_load.
Proof. apply moves_modify. intros a. case_match; [done|]. split; try done. by apply (rd_face a a). Qed.
Lemma readonly_protocol : readonly (protocol_text (S:=S)).
Proof.
  intros a. unfold protocol_text. destruct (read_protocol _) as [t p] eqn:E. simpl.
  assert (pf_disk p = pf_disk (api_protocol a)) as Hd.
  { revert E. unfold read_protocol. destruct (api_protocol a) as [d c]. repeat case_match; intros; by simplify_eq/=. }
  split; try done. by apply (rd_face a a).
Qed.

Ltac reading :=
  repeat first
    [ apply moves_ret; apply _ | apply moves_throw; apply _ | apply moves_gets; apply _ | apply readonly_cl | apply readonly_load | apply readonly_protocol
    | apply moves_attempt | apply moves_bind; [apply _| |intros ?] | apply moves_catch; [apply _| |intros ?] | case_match ].

Lemma readonly_state : readonly (state cfg).
Proof. unfold state, current, overview, fetch_lists, mounted, sessions_now, face_now. reading. Qed.

Lemma readonly_route (route : list Z) (body : json) (a : Api S) :
  route ∈ QUERY_ROUTES → reads a (handle uuid worker pay cfg model stamp check profileDir spawn route GET body a).2.
Proof.
  intros Hr. revert a. change (readonly (handle uuid worker pay cfg model stamp check profileDir spawn route GET body)).
  unfold QUERY_ROUTES in Hr. rewrite !elem_of_cons, elem_of_nil in Hr.
  destruct_or! Hr; subst; try done; unfold handle; cbn [map_get routes]; eval_keys; cbv iota; try apply readonly_state;
    unfold pay_wallet, conversation_get, presence, session_latest, session_history, protocol_get, drafts_list, group_get, group_conversation,
      group_applications, group_settings, agents_list, agent_history, upgrade_check, shown_settings, need, current, mounted, face_now, sessions_now; reading.
Qed.

End reading.

(** ** Approval of paid applications *)

Section approval.
Context {S : Type} `{NetworkClient S}.
Context (pay : option (PayCall S)).

Definition net_state (a : Api S) : S := w_net (fa_w (api_face a)).
Definition at_net (n : S) (a : Api S) : Api S :=
  set_face (with_w (mkWorld n (w_se (fa_w (api_face a))) (w_uuids (fa_w (api_face a)))) (api_face a)) a.

Lemma cl_run {A} (m : IO S A) a r n : m (net_state a) = (r, n) → cl m a = (r, at_net n a).
Proof. intros Hm. unfold cl, net. fold (net_state a). by rewrite Hm. Qed.
Lemma at_net_state n (a : Api S) : net_state (at_net n a) = n.
Proof. done. Qed.
Lemma at_net_twice n n' (a : Api S) : at_net n' (at_net n a) = at_net n' a.
Proof. done. Qed.

(** The payment of [fp]'s application has been verified against the terms:
    from backend state [n] to [n']. *)
Definition payment_verified (gid fp : list Z) (terms : PaidJoinInfo) (n n' : S) : Prop :=
  ∃ call apps n1 app_ p v, pay = Some call ∧ net_groups_applications gid n = (inr apps, n1) ∧ app_ ∈ apps ∧ ap_fp app_ = fp ∧
    ap_payment app_ = Some p ∧ call POST P_VERIFY (Some (verify_body terms p)) n1 = (inr v, n') ∧ get v (js "valid") = Some (JBool true).

(** The backend state a refused approval leaves: reads, and at most one question to the gateway. *)
Definition only_asked (gid : list Z) (terms : PaidJoinInfo) (n n' : S) : Prop :=
  n' = (net_groups_applications gid n).2 ∨
  ∃ call p n1, pay = Some call ∧ (net_groups_applications gid n).2 = n1 ∧ n' = (call POST P_VERIFY (Some (verify_body terms p)) n1).2.

Definition refused {A} (r : NetworkError + A) (x : A → Prop) : Prop := match r with inl _ => True | inr v => x v end.
Definition is_refusal (r : Reply) : Prop := ∃ code msg, r = refuse code msg.

Lemma check_payment_outcome gid fp terms (a : Api S) :
  (∃ n', check_payment pay gid fp terms a = (inr None, at_net n' a) ∧ payment_verified gid fp terms (net_state a) n') ∨
  (∃ n' r, check_payment pay gid fp terms a = (r, at_net n' a) ∧ refused r (λ o, ∃ x, o = Some x ∧ is_refusal x) ∧ only_asked gid terms (net_state a) n').
Proof.
  unfold check_payment, mbind, io_bind. destruct (net_groups_applications gid (net_state a)) as [[e|apps] n1] eqn:E1.
  { rewrite (cl_run _ _ _ _ E1). right. eexists n1, _. split; [reflexivity|]. split; [done|]. left. by rewrite E1. }
  rewrite (cl_run _ _ _ _ E1). destruct (applied_payment fp apps) as [p|] eqn:Ep.
  2: { right. eexists n1, _. split; [reflexivity|]. split; [eexists; split; [reflexivity|by do 2 eexists]|]. left. by rewrite E1. }
  destruct pay as [call|] eqn:Epay; [|right; eexists n1, _; split; [reflexivity|]; split; [eexists; split; [reflexivity|by do 2 eexists]|]; left; by rewrite E1].
  apply bind_Some in Ep as (ap & [Hin Hfp%jeqb_eq]%findb_Some & Hp).
  destruct (call POST P_VERIFY (Some (verify_body terms p)) n1) as [[e|v] n2] eqn:E2; rewrite (cl_run _ (at_net n1 a) _ _ E2), at_net_twice.
  { right. eexists n2, _. split; [reflexivity|]. split; [done|]. right. exists call, p, n1. by rewrite E1, E2. }
  unfold mret, io_ret. destruct (is_true (get v (js "valid"))) eqn:Ev.
  - left. exists n2. split; [done|]. exists call, apps, n1, ap, p, v. split_and!; try done. unfold is_true in Ev. by repeat case_match.
  - right. eexists n2, _. split; [reflexivity|]. split; [eexists; split; [reflexivity|by do 2 eexists]|]. right. exists call, p, n1. by rewrite E1, E2.
Qed.

End approval.

(** ** The event stream *)

Section stream.
Context {S : Type} `{NetworkClient S}.

Inductive StreamOp := SConnect | SFrame (fr : ApiFrame) | SClose (i : nat).

(** What one stream is: a subscription with its own list of frames. *)
Inductive Stream := Unborn | Open (l : list ApiFrame) | Closed (l : list ApiFrame).
Definition received (s : Stream) : list ApiFrame := match s with Unborn => [] | Open l | Closed l => l end.
(** [(streams so far, the stream)] after one step; [works]: the socket accepts writes. *)
Definition stream_step (status : json) (works : bool) (i : nat) (x : nat * Stream) (o : StreamOp) : nat * Stream :=
  match o with
  | SConnect => ((x.1 + 1)%nat, if Nat.eqb x.1 i then Open [FStatus status] else x.2)
  | SFrame fr => (x.1, match x.2 with Open l => if works then Open (l ++ [fr]) else Closed l | s => s end)
  | SClose j => (x.1, if Nat.eqb j i then match x.2 with Open l => Closed l | s => s end else x.2)
  end.
Definition subscription (status : json) (works : bool) (i : nat) (ops : list StreamOp) : Stream :=
  (fold_left (stream_step status works i) ops (0%nat, Unborn)).2.

Definition stream_op (a : Api S) (o : StreamOp) : Api S :=
  match o with SConnect => open_stream a | SFrame fr => write_frame fr a | SClose i => close_stream i a end.
Definition frames_of (i : nat) (a : Api S) : list ApiFrame := map snd (filterb (λ x, Nat.eqb x.1 i) (api_frames a)).

Lemma frames_of_write i fr (a : Api S) :
  NoDup (api_sse a) →
  frames_of i (write_frame fr a) = frames_of i a ++ (if bool_decide (i ∈ api_sse a ∧ i ∉ api_broken a) then [fr] else []).
Proof.
  intros Hn. unfold frames_of, write_frame. cbn [api_frames set_streams]. rewrite filterb_app, map_app. f_equal.
  induction (api_sse a) as [|c l IH]; [done|]. apply NoDup_cons in Hn as [Hc Hn]. specialize (IH Hn). cbn [filterb].
  destruct (bool_decide (c ∈ api_broken a)) eqn:Eb; cbn [negb].
  - apply bool_decide_eq_true in Eb. rewrite IH. do 2 case_bool_decide; try done; set_solver.
  - apply bool_decide_eq_false in Eb. cbn [map filterb fst].
    destruct (Nat.eqb_spec c i) as [->|Hci]; cbn [map snd]; rewrite IH; do 2 case_bool_decide; try done; set_solver.
Qed.

(** The stream's bookkeeping against the subscription of stream [i]. *)
Record tracks (status : json) (i : nat) (x : nat * Stream) (a : Api S) : Prop := {
  tr_next : x.1 = api_nextStream a;
  tr_frames : frames_of i a = received x.2;
  tr_open : i ∈ api_sse a ↔ ∃ l, x.2 = Open l;
  tr_unborn : x.2 = Unborn ↔ (api_nextStream a <= i)%nat;
  tr_bound : ∀ c, c ∈ api_sse a → (c < api_nextStream a)%nat;
  tr_nodup : NoDup (api_sse a);
  tr_status : net_status (net_state a) = status }.

Lemma connect_tracks status works i x a : tracks status i x a → tracks status i (stream_step status works i x SConnect) (open_stream a).
Proof.
  intros [Hn Hf Ho Hu Hb Hd Hs]. destruct x as [n st]. simpl in *. subst n.
  assert (api_nextStream a ∉ api_sse a) as Hfresh by (intros Hin%Hb; lia).
  unfold frames_of in Hf. destruct (Nat.eqb_spec (api_nextStream a) i) as [<-|Hi].
  - assert (st = Unborn) as -> by (apply Hu; lia). split; simpl; try done.
    + unfold frames_of. simpl. rewrite filterb_app, map_app, Hf. simpl. by rewrite Nat.eqb_refl, <- Hs.
    + split; [eauto|]. set_solver.
    + split; [done|lia].
    + intros c [Hc%Hb| ->%list_elem_of_singleton]%elem_of_app; lia.
    + apply NoDup_app. split_and!; [done| |apply NoDup_singleton]. set_solver.
  - split; simpl; try done.
    + unfold frames_of. simpl. rewrite filterb_app, map_app, Hf. simpl. rewrite (proj2 (Nat.eqb_neq _ _) Hi). apply app_nil_r.
    + rewrite <- Ho. set_solver.
    + rewrite Hu. lia.
    + intros c [Hc%Hb| ->%list_elem_of_singleton]%elem_of_app; lia.
    + apply NoDup_app. split_and!; [done| |apply NoDup_singleton]. set_solver.
Qed.

Lemma frame_tracks status i x a fr :
  tracks status i x a → tracks status i (stream_step status (bool_decide (i ∉ api_broken a)) i x (SFrame fr)) (write_frame fr a).
Proof.
  intros [Hn Hf Ho Hu Hb Hd Hs]. destruct x as [n st]. simpl in *. subst n.
  assert (i ∈ api_sse (write_frame fr a) ↔ i ∈ api_sse a ∧ i ∉ api_broken a) as Hlive.
  { unfold write_frame. cbn [api_sse set_streams]. rewrite elem_of_filterb. by rewrite negb_true_iff, bool_decide_eq_false. }
  split; simpl; try done.
  - rewrite (frames_of_write _ _ _ Hd), Hf. destruct st as [|l|l]; case_bool_decide as E1; try case_bool_decide as E2; simpl; rewrite ?app_nil_r; try done; naive_solver.
  - rewrite Hlive, Ho. destruct st; try case_bool_decide; naive_solver.
  - rewrite <- Hu. destruct st; [done| |done]. by case_bool_decide.
  - intros c [Hc _]%elem_of_filterb. by apply Hb.
  - by apply filterb_NoDup.
Qed.

Lemma close_tracks status works i x a j : tracks status i x a → tracks status i (stream_step status works i x (SClose j)) (close_stream j a).
Proof.
  intros [Hn Hf Ho Hu Hb Hd Hs]. destruct x as [n st]. simpl in *. subst n.
  split; simpl; try done.
  - change (frames_of i (close_stream j a)) with (frames_of i a). rewrite Hf. case_match; [|done]. by destruct st.
  - rewrite elem_of_filterb, Ho, negb_true_iff, Nat.eqb_neq. destruct (Nat.eqb_spec j i) as [->|]; [|naive_solver]. split; [naive_solver|]. destruct st; naive_solver.
  - rewrite <- Hu. case_match; [|done]. by destruct st.
  - intros c [Hc _]%elem_of_filterb. by apply Hb.
  - by apply filterb_NoDup.
Qed.

(** C36. Every event stream gets the status frame and then every frame that is
    broadcast, each once and in order, from its opening until it closes or a
    write to it fails; other streams coming, going or failing do not matter. *)
Theorem streams_deliver (a : Api S) (ops : list StreamOp) (i : nat)
    (Hs : api_sse a = []) (Hf : api_frames a = []) (Hn : api_nextStream a = 0%nat) :
  frames_of i (fold_left stream_op ops a) =
  received (subscription (net_status (net_state a)) (bool_decide (i ∉ api_broken a)) i ops).
Proof.
  unfold subscription. set (status := net_status (net_state a)).
  assert (tracks status i (0%nat, Unborn) a) as Ht.
  { split; simpl; rewrite ?Hs, ?Hn; try done; [unfold frames_of; by rewrite Hf|split; [set_solver|naive_solver]|split; [lia|done]|set_solver|constructor]. }
  clearbody status. clear Hs Hf Hn. revert a Ht. generalize (0%nat, Unborn). induction ops as [|o ops IH]; intros x a Ht; [apply Ht|].
  destruct o as [|fr|j]; [exact (IH _ _ (connect_tracks _ _ _ _ _ Ht))|exact (IH _ _ (frame_tracks _ _ _ _ fr Ht))|exact (IH _ _ (close_tracks _ _ _ _ _ j Ht))].
Qed.
End stream.

(** ** Without the sessions plugin *)

Section unmounted.
Context {S : Type} `{NetworkClient S} `{LowerCase} `{Sqlite} `{JsonText} `{NumberToString}.
Context (uuid : nat → list Z) (worker : list Z → list Z → list Z) (pay : option (PayCall S)) (cfg : SoulmirrorSettings) (model : bool).
Context (stamp : list Z → Z * Z) (check : option UpgradeCheck) (profileDir : option (list (list Z))) (spawn : option (list Z)).

(** The plugin's memory: everything but the file of group settings. *)
Definition plugin_memory (a : Api S) :=
  let f := api_face a in
  let s := w_se (fa_w f) in
  (set_stores (se_registry s) (with_file None (se_groups s)) (se_friends s) s, fa_db f, fa_typing f, fa_signals f, fa_published f, fa_agentsDue f).

Definition spares (a a' : Api S) : Prop := api_mounted a = false → api_mounted a' = false ∧ plugin_memory a' = plugin_memory a.
Instance spares_preorder : PreOrder spares.
Proof. split; [intros a; done|]. intros a b c Hab Hbc Ha. destruct (Hab Ha) as [Hb Eb]. destruct (Hbc Hb) as [Hc Ec]. split; [done|]. by rewrite Ec. Qed.

Lemma spares_cl {A} (m : IO S A) : moves spares (cl m).
Proof. intros a Ha. unfold cl, net. by destruct (m _). Qed.
Lemma spares_inw {A} (m : IO (World S) A) : moves (λ w w', w_se w' = w_se w) m → moves spares (inw_net m).
Proof.
  intros Hm a Ha. unfold inw_net. specialize (Hm (fa_w (api_face a))). destruct (m _) as [r w]. simpl in *. split; [done|].
  unfold plugin_memory. simpl. by rewrite Hm.
Qed.
Lemma spares_sessions (m : IO (Api S) Reply) : moves spares (with_sessions m).
Proof. intros a Ha. unfold with_sessions, mbind, io_bind, mounted, gets. by rewrite Ha. Qed.
Lemma spares_when {A} (m : IO (Face S) A) : moves spares (when_mounted m).
Proof. intros a Ha. unfold when_mounted, mbind, io_bind, mounted, gets. by rewrite Ha. Qed.
Lemma spares_broadcast fr : moves spares (broadcast fr).
Proof. apply moves_modify. done. Qed.
Lemma spares_protocol : moves spares (protocol_text (S:=S)).
Proof. intros a Ha. unfold protocol_text. by destruct (read_protocol _). Qed.
Lemma spares_pay call uri terms note memo : moves spares (inw_net (pay_and_apply call uri terms note memo)).
Proof.
  apply spares_inw. assert (∀ A (m : IO S A), moves (λ w w' : World S, w_se w' = w_se w) (net m)) as Hnet.
  { intros A m w. unfold net. by destruct (m _). }
  assert (PreOrder (λ w w' : World S, w_se w' = w_se w)) as Hpre by (split; [done|intros ? ? ?; congruence]).
  unfold pay_and_apply. repeat first [apply Hnet | apply moves_ret; done | apply moves_bind; [done| |intros ?] | apply moves_catch; [done| |intros ?] | case_match].
Qed.
Lemma spares_own gid p : moves spares (own_set (S:=S) gid p).
Proof. intros a Ha. unfold own_set. by destruct (set_group _ _ _ _). Qed.
Lemma spares_mounted {A} (k : bool → IO (Api S) A) : moves spares (k false) → moves spares (on ← mounted; k on).
Proof. intros Hk a Ha. unfold mbind, io_bind, mounted, gets. rewrite Ha. by apply Hk. Qed.
Lemma spares_load : moves spares (own_load (S:=S)).
Proof. apply moves_modify. intros a Ha. by case_match. Qed.

Ltac sparing :=
  repeat first
    [ apply moves_ret; apply _ | apply moves_throw; apply _ | apply spares_mounted; cbv iota | apply spares_cl | apply spares_sessions | apply spares_when
    | apply spares_broadcast | apply spares_protocol | apply spares_pay | apply spares_own | apply spares_load
    | apply moves_modify; intros ? ?; split; [done|reflexivity]
    | apply moves_attempt | apply moves_bind; [apply _| |intros ?] | apply moves_catch; [apply _| |intros ?] | apply moves_gets; apply _ | case_match ].

Lemma routes_spare method body :
  Forall (λ kv, moves spares kv.2) (routes uuid worker pay cfg model stamp check profileDir spawn method body).
Proof.
  repeat (apply Forall_cons; split; cbn [snd]); [..|apply Forall_nil; done].
  all: unfold state, pay_wallet, identity_create, card_parse, friends_add, friends_accept, friends_reject, friends_set, friends_card, conversation_markRead,
    conversation_get, message_send, sendDirect, message_typing, presence, alter_instruct, session_latest, session_history, agent_instruct, agent_history,
    drafts_list, drafts_decide, agents_list, agents_set, agents_remove, memory_cancel, memory_list, memory_add, memory_update, memory_remove,
    memory_summarize, group_create, group_get, group_send, read_group_entry, group_conversation, group_markRead, group_leave, group_kick, group_setProfile,
    group_pin, group_unpin, group_lookup, group_paidJoin, group_apply, group_applications, group_approve, check_payment, approve_paid, announce_joiner,
    group_applicationReject, group_invite, group_settings, shown_settings, upgrade_check, upgrade_run, protocol_get, protocol_set,
    need, needs, answering, overview, fetch_lists, current, face_now, sessions_now; sparing.
Qed.

(** While the sessions plugin is not mounted no request reaches its memory:
    sessions, drafts, memories, switches and typing markers stay as they are;
    only the file of group settings may be written. *)
Theorem unmounted_sessions_untouched (r : Request) (a : Api S) (Ha : api_mounted a = false) :
  plugin_memory (serve uuid worker pay cfg model stamp check profileDir spawn r a).2 = plugin_memory a.
Proof.
  unfold serve. case_match; [done|]. case_match; [done|]. destruct (request_body r) as [e|body]; [done|].
  unfold run_reply, handle. destruct (map_get _ _) as [m|] eqn:Em; [|done].
  apply map_get_elem in Em. pose proof (routes_spare (rq_method r) body) as Hr. rewrite Forall_forall in Hr. specialize (Hr _ Em a Ha) as [_ Hr].
  simpl in Hr. by destruct (m a) as [[e|x] a1].
Qed.
End unmounted.

(** ** Group settings *)

Section settings.
Context {S : Type} `{NetworkClient S}.

Definition group_store (a : Api S) : GroupSettingsStore := se_groups (w_se (fa_w (api_face a))).
Definition loaded (g : GroupSettingsStore) : GroupSettingsStore := if st_loaded g then g else load g.

Lemma load_groups_run (f : Face S) : ∃ f', load_groups f = (inr tt, f') ∧ se_groups (w_se (fa_w f')) = loaded (se_groups (w_se (fa_w f))) ∧
  se_emitted (w_se (fa_w f')) = se_emitted (w_se (fa_w f)) ∧ fa_io f' = fa_io f.
Proof.
  eexists. split; [reflexivity|]. unfold loaded. cbn. by destruct (st_loaded _).
Qed.
Lemma patch_group_run gid p (f : Face S) : fa_io f = true →
  let g := (set_group true gid p (se_groups (w_se (fa_w f)))).1 in
  ∃ f', patch_group gid p f = (inr (get_group g gid), f') ∧ se_groups (w_se (fa_w f')) = g ∧ se_emitted (w_se (fa_w f')) = se_emitted (w_se (fa_w f)).
Proof.
  intros Hio. unfold patch_group, mbind, io_bind, sess, disk, gets. rewrite Hio. eexists. split; [reflexivity|]. done.
Qed.

Lemma setGroupVoices_run gid p (f : Face S) : fa_io f = true →
  let g := (set_group true gid p (loaded (se_groups (w_se (fa_w f))))).1 in
  ∃ f', setGroupVoices gid p f = (inr (get_group g gid), f') ∧ se_groups (w_se (fa_w f')) = g ∧ se_emitted (w_se (fa_w f')) = se_emitted (w_se (fa_w f)).
Proof.
  intros Hio. destruct (load_groups_run f) as (f1 & H1 & Hg & He & Hi). rewrite Hio in Hi. destruct (patch_group_run gid p f1 Hi) as (f2 & H2 & Hg2 & He2).
  rewrite Hg in *. cbv zeta in *. set (g := (set_group true gid p (loaded (se_groups (w_se (fa_w f))))).1) in *.
  unfold setGroupVoices, mbind, io_bind. rewrite H1, H2. unfold announceVoices, mbind, io_bind, sess, gets.
  destruct (best_effort_run (net_groups_announceVoices gid (enabled_names (w_se (fa_w f2)) gid)) f2) as (w & Hw & Hs). rewrite Hw.
  eexists. split; [reflexivity|]. simpl. rewrite Hs. split; [done|]. by rewrite He2.
Qed.

(** A POST of group settings goes into the store the routing reads: the
    answer, what that store then says and what the next GET shows are the same
    settings, the patched ones, and the handler's own copy is not written. *)
Theorem settings_single_writer (body : json) (gid : list Z) (p : GroupSettingsPatch) (a : Api S)
    (Hg : text (get body GID) = Some gid) (Hp : settingsPatch body = Some p)
    (Hm : api_mounted a = true) (Hio : fa_io (api_face a) = true) :
  ∃ x a', group_settings POST body a = (inr (ok (BSettings x)), a') ∧
    group_store a' = (set_group true gid p (loaded (group_store a))).1 ∧ x = get_group (group_store a') gid ∧
    (group_settings GET body a').1 = inr (ok (BSettings x)) ∧
    api_groups a' = loaded (if st_loaded (api_groups a) then api_groups a else with_file (groups_file a) (api_groups a)).
Proof.
  unfold group_settings, need. rewrite Hg, Hp.
  set (a1 := if st_loaded (api_groups a) then a else set_own (load (with_file (groups_file a) (api_groups a))) a).
  assert (own_load a = (inr tt, a1)) as Hl by done.
  assert (api_mounted a1 = true ∧ api_face a1 = api_face a) as [Hm1 Hf1] by (subst a1; by destruct (st_loaded _)).
  assert (api_groups a1 = loaded (if st_loaded (api_groups a) then api_groups a else with_file (groups_file a) (api_groups a))) as Ho.
  { subst a1. unfold loaded. destruct (st_loaded (api_groups a)) eqn:E; cbn; by rewrite ?E. }
  clearbody a1.
  destruct (setGroupVoices_run gid p (api_face a1)) as (f & Hr & Hs & He); [by rewrite Hf1|]. cbv zeta in Hr, Hs.
  exists (get_group (se_groups (w_se (fa_w f))) gid), (set_face f a1).
  unfold mbind, io_bind. rewrite Hl. unfold mounted, gets. cbv beta iota. rewrite Hm1. change (jeqb POST POST) with true. cbv iota.
  unfold inf. rewrite Hr, Hs, He, drop_all. cbn [fold_left]. split_and!; try done.
  - unfold group_store. change (se_groups (w_se (fa_w f)) = (set_group true gid p (loaded (se_groups (w_se (fa_w (api_face a)))))).1). by rewrite Hs, Hf1.
  - unfold group_store. change (api_face (set_face f a1)) with f. by rewrite Hs.
  - change (jeqb GET POST) with false. cbv iota. unfold shown_settings, mbind, io_bind, own_load, modify, sessions_now, mounted, gets.
    destruct (st_loaded (api_groups (set_face f a1))); cbn -[set_group get_group]; by rewrite Hm1, Hs.
Qed.
End settings.
