(* ===== verification/ApiScenarios.v ===== *)
(** * The browser API on the in-memory backend

    Concrete requests on which the theorems of ApiRoutes are evaluated, the
    meeting of the approval route with the peer's wire shapes, and the
    histories that show where two writers of one file and the second look at
    the waiting applications go wrong. *)

From S2P Require Import Prelude JsString JsMap Json Policy AlterState AlterChat GroupSettings FriendSettings.
From S2P Require Import AgentRegistry Drafts Settings GroupContract Memory Network FakeNetwork Sessions SessionFace ApiRequest PayTools Scenarios.
From S2P Require Import Upgrade SoulnetWire SoulnetCalls ApiRoutes.
#[local] Open Scope Z_scope.

#[export] Instance demo_text : JsonText := CodedJson.
#[export] Instance demo_numbers : NumberToString := DecimalNumbers.
#[export] Instance demo_sqlite : Sqlite := WordMatch.

(** ** A paid group with one application *)

Definition FEE : list Z := js "25.00".
Definition WALLET : list Z := js "0xclub".
Definition CLUB : list Z := js "gp".
Definition BOB : list Z := js "fp-bob-0123456789abcdef".
Definition club_profile : GroupProfile := priced_profile open_profile FEE WALLET.
Definition bob_application : GroupApplication :=
  mkApplication BOB (js "Bob") (js "hi") None (Some (mkPayment (js "0xtx") (js "30.00") WALLET (Some (js "0xbob")) None None)).
Definition club : FakeGroup :=
  mkFG (js "Club") ME_FP 1 [mkMember ME_FP (js "Me") None] [] 0 club_profile [] [bob_application] true.

(** The gateway knows one payment: 25 USDC to the club's wallet. *)
Definition club_gateway : PayCall FakeState := λ method path body s,
  (inr (JObj [(js "valid", JBool (match body with
     | Some b => is_str (get b (js "to")) WALLET && is_str (get b (js "amount")) FEE && is_str (get b (js "tx_hash")) (js "0xtx")
     | None => false
     end))]), s).

Definition api_start (mounted_ : bool) : Api FakeState :=
  mkApi (mkFace (mkWorld (alloc CLUB club (w_net demo_start)) (w_se demo_start) 0) empty_db true [] [] [] false [] [] false)
    mounted_ (store_at None) (mkProto None None) [] [] [] 0 no_upgrades false.
Definition cfg0 : SoulmirrorSettings := resolveSettings None.
Definition on_api (r : Request) (a : Api FakeState) : option Reply * Api FakeState :=
  serve demo_uuid demo_worker (Some club_gateway) cfg0 true (λ t, (0, Z.of_nat (length t))) None None None r a.

Definition get_request (route : list Z) (query : list (list Z * list Z)) : Request := mkReq GET (API_PREFIX ++ route) query [].
Definition pair_body : json := JObj [(js "gid", JStr CLUB); (js "fp", JStr BOB)].

(** ** The announcement of a paid joiner *)

Definition short_fp (fp : list Z) : list Z := if (10 <? length fp)%nat then take 10 fp ++ js "…" else fp.

(** The group is told of a paid joiner only by a cut fingerprint and the list
    price: the application is looked up again after the approval removed it,
    so neither the applicant's name nor the amount that was paid is found. *)
Theorem approval_notice_anonymous {S : Type} `{NetworkClient S} (gid fp : list Z) (terms : PaidJoinInfo) (a : Api S) (n1 n2 : S) (apps : list GroupApplication)
    (Ha : net_groups_approve gid fp (net_state a) = (inr tt, n1)) (Hl : net_groups_applications gid n1 = (inr apps, n2))
    (Hd : ∀ x, x ∈ apps → ap_fp x ≠ fp) :
  approve_paid gid fp terms a =
  (inr (ok BOk), at_net (net_groups_send gid (js "✅ " ++ short_fp fp ++ js " paid " ++ pj_price terms ++ js " USDC and joined the group")
                           (Some (mkGroupSendOptions (Some (js "owner")) None None)) n2).2 a).
Proof.
  assert (findb (λ x, jeqb (ap_fp x) fp) apps = None) as Hn.
  { apply findb_None. intros x Hx. apply jeqb_neq. by apply Hd. }
  unfold approve_paid, answering, announce_joiner, mbind, io_bind. rewrite (cl_run _ _ _ _ Ha). unfold catch.
  rewrite (cl_run _ (at_net n1 a) _ _ Hl), Hn.
  change (join_notice fp terms None) with (js "✅ " ++ short_fp fp ++ js " paid " ++ pj_price terms ++ js " USDC and joined the group").
  destruct (net_groups_send gid _ _ n2) as [[e|r] n3] eqn:Es; rewrite (cl_run _ (at_net n2 (at_net n1 a)) _ _ Es); done.
Qed.

Definition club_approved : FakeState := (FakeNetwork.groups_approve CLUB BOB (net_state (api_start true))).2.

Lemma approval_notice_anonymous_witness :
  approve_paid CLUB BOB (mkPaid FEE WALLET) (api_start true) =
  (inr (ok BOk), at_net (net_groups_send CLUB (js "✅ fp-bob-012… paid 25.00 USDC and joined the group")
                           (Some (mkGroupSendOptions (Some (js "owner")) None None)) club_approved).2 (api_start true)) ∧
  ap_name bob_application = js "Bob" ∧ pay_amount <$> ap_payment bob_application = Some (js "30.00").
Proof.
  split; [|done].
  assert (js "✅ " ++ short_fp BOB ++ js " paid " ++ FEE ++ js " USDC and joined the group" = js "✅ fp-bob-012… paid 25.00 USDC and joined the group")
    as <- by (vm_compute; reflexivity).
  apply (approval_notice_anonymous CLUB BOB (mkPaid FEE WALLET) (api_start true) club_approved club_approved []); [vm_compute; reflexivity..|set_solver].
Defined.


(** ** The wallet behind a payment *)

(** When the backend is the soulnet peer, the gateway is never told who paid:
    the waiting applications are decoded without the payer and its proof, so
    a gateway that checks them and one that does not decide alike. *)
Theorem approval_forgets_payer {P : Type} (rpc : list Z → option json → P → (Thrown + json) * P) (clock : P → Z) (Date_parse : list Z → option Z)
    (command : list (list Z * json)) (gateway gateway' : PayCall (Calls P)) (gid fp : list Z) (terms : PaidJoinInfo) (a : Api (Calls P))
    (Hsame : ∀ b s, get b (js "payer") = None → get b (js "proof") = None → gateway POST P_VERIFY (Some b) s = gateway' POST P_VERIFY (Some b) s) :
  @check_payment _ (SoulnetNetwork rpc clock Date_parse command) (Some gateway) gid fp terms a =
  @check_payment _ (SoulnetNetwork rpc clock Date_parse command) (Some gateway') gid fp terms a.
Proof.
  assert (∀ apps s s', SoulnetCalls.groups_applications rpc clock Date_parse gid s = (inr apps, s') →
            ∀ x, x ∈ apps → ∃ now w, x = applicationFromWire Date_parse now w) as Hwire.
  { intros apps s s' Hr x Hx. unfold SoulnetCalls.groups_applications, rows in Hr. io_inv. unfold mret, io_ret, throw in Hr.
    repeat case_match; simplify_eq; [|by apply elem_of_nil in Hx]. apply list_elem_of_fmap in Hx as (w & -> & _). eauto. }
  unfold check_payment, mbind, io_bind.
  destruct (cl (SoulnetCalls.groups_applications rpc clock Date_parse gid) a) as [[e|apps] a1] eqn:Ea; cbn [net_groups_applications SoulnetNetwork]; rewrite Ea; [done|].
  destruct (applied_payment fp apps) as [p|] eqn:Ep; [|done].
  apply bind_Some in Ep as (x & [Hx _]%findb_Some & Hp). unfold cl, net in Ea.
  destruct (SoulnetCalls.groups_applications _ _ _ _ _) as [r n] eqn:Er. simplify_eq. destruct (Hwire _ _ _ Er _ Hx) as (now & w & ->).
  assert (pay_payer p = None ∧ pay_proof p = None) as [H1 H2].
  { cbn in Hp. by destruct (as_string _); simplify_eq. }
  unfold cl, net. rewrite Hsame; [done|..]; unfold verify_body, get; rewrite H1, H2; reflexivity.
Qed.

(** The peer lists an application with its payer; only the first gateway insists on one. *)
Definition listing_peer (method : list Z) (params : option json) (p : unit) : (Thrown + json) * unit :=
  (inr (JObj [(js "applications", JArr [demo_application])]), p).
Definition careless : PayCall (Calls unit) := λ _ _ _ s, (inr (JObj [(js "valid", JBool true)]), s).
Definition careful : PayCall (Calls unit) := λ m path b s,
  match b ≫= λ b, get b (js "payer") with Some _ => (inr (JObj [(js "valid", JBool false)]), s) | None => careless m path b s end.
Definition calls_api : Api (Calls unit) :=
  mkApi (mkFace (mkWorld (mkCalls tt None [] JNull None) (w_se demo_start) 0) empty_db true [] [] [] false [] [] false)
    true (store_at None) (mkProto None None) [] [] [] 0 no_upgrades false.

Lemma approval_forgets_payer_witness :
  (@check_payment _ (SoulnetNetwork listing_peer (λ _, 0) (λ _, None) []) (Some careful) CLUB (js "f1") (mkPaid FEE WALLET) calls_api).1 = inr None ∧
  getq (get demo_application (js "payment")) (js "payer") = Some (JStr (js "me")).
Proof.
  split; [|reflexivity].
  rewrite (approval_forgets_payer listing_peer (λ _, 0) (λ _, None) [] careful careless CLUB (js "f1") (mkPaid FEE WALLET) calls_api);
    [vm_compute; reflexivity|]. intros b s Hb _. unfold careful. cbn [mbind option_bind]. by rewrite Hb.
Defined.

(** ** Two writers of one file *)

Definition CODER : list Z := js "Coder".
Definition enable_coder : json := JObj [(js "gid", JStr CLUB); (js "voice", JObj [(js "name", JStr CODER); (js "on", JBool true)])].
Definition mute_other : json := JObj [(js "gid", JStr (js "g2")); (js "muted", JBool true)].
Definition after_settings (body : json) (a : Api FakeState) : Api FakeState := (group_settings POST body a).2.
(** What the file says of a voice after a restart. *)
Definition voice_on_disk (a : Api FakeState) : bool := voiceOn (load (store_at (groups_file a))) CLUB CODER.

(** The handler's own copy of the group settings is read at the first request
    and never again: written through the sessions plugin the voice is on disk,
    but when the plugin goes away the next write of an unrelated group puts
    the old copy back and the voice is lost. *)
Theorem own_copy_overwrites :
  let a1 := after_settings enable_coder (api_start true) in
  let a2 := after_settings mute_other (set_mounted false a1) in
  voice_on_disk a1 = true ∧ voice_on_disk a2 = false.
Proof. vm_compute. done. Qed.

(** ** Witnesses *)

Lemma settings_single_writer_witness :
  ∃ x a', group_settings POST enable_coder (api_start true) = (inr (ok (BSettings x)), a') ∧ voiceOn (group_store a') CLUB CODER = true ∧
    (group_settings GET enable_coder a').1 = inr (ok (BSettings x)).
Proof.
  destruct (settings_single_writer enable_coder CLUB (mkPatch None None (Some (mkVP CODER true None)) DutyKeep None) (api_start true)
              eq_refl eq_refl eq_refl eq_refl) as (x & a' & Hr & Hs & _ & Hget & _).
  exists x, a'. split; [exact Hr|]. split; [rewrite Hs; vm_compute; reflexivity|exact Hget].
Defined.


Lemma unmounted_sessions_untouched_witness :
  plugin_memory (on_api (get_request (js "state") []) (api_start false)).2 = plugin_memory (api_start false) ∧
  (on_api (mkReq POST (API_PREFIX ++ js "agents.list") [] []) (api_start false)).1 = Some (ok (BAgents [] [])).
Proof. split; [|vm_compute; reflexivity]. unfold on_api. apply unmounted_sessions_untouched. reflexivity. Defined.

Lemma streams_deliver_witness :
  let ops := [SConnect; SFrame (FState None); SConnect; SFrame (FState (Some CODER)); SClose 0; SFrame (FState None)] in
  frames_of 1 (fold_left stream_op ops (api_start true)) = [FStatus (net_status (net_state (api_start true))); FState (Some CODER); FState None].
Proof. intros ops. rewrite (streams_deliver (api_start true) ops 1 eq_refl eq_refl eq_refl). vm_compute. reflexivity. Defined.
