(* ===== verification/ClientApi.v ===== *)
(** * The page's half of the browser API (client/api.ts)

    [call] and the request each method of the [api] object makes, composed with
    the routes of ApiRoutes: which routes the page names, what it reads of the
    host's answers and errors, and what the host reads of the page's bodies.
    A call is a function of what the connection does: when the response head
    arrives, when its body ends. *)

From S2P Require Import Prelude JsString JsMap Json Policy Settings GroupSettings Memory Network Sessions SessionFace ApiRequest PayTools Upgrade SoulnetWire SoulnetCalls ApiRoutes ApiScenarios.
#[local] Open Scope Z_scope.

(** ** [call] *)

(** [ApiError]; the message and the code are taken from the answer as they are. *)
Record ApiError := mkApiError { ae_message : json; ae_code : json; ae_httpStatus : Z }.

Inductive CallResult (A : Type) :=
| Resolved (v : A)
| Refused (e : ApiError)
| Threw (message : list Z)                 (** an error that is not an [ApiError] *)
| Unsettled.
Arguments Resolved {A} _.
Arguments Refused {A} _.
Arguments Threw {A} _.
Arguments Unsettled {A}.

Inductive BodyEnd := BodyText (s : list Z) | BodyBroken (message : list Z) | BodyNever.
(** What the connection does: the head of the response arrives at a time, or the
    request fails, or nothing comes. *)
Inductive Wire := WHead (at_ : Z) (status : Z) (b : BodyEnd) | WFail (at_ : Z) (message : list Z) | WSilent.

Definition CALL_TIMEOUT_MS : Z := 30000.
Definition int (z : Z) : json := JNum (num_of_Z z).

(** [response.ok]. *)
Definition status_ok (status : Z) : bool := (200 <=? status) && (status <=? 299).
(** [x ?? d] on a field: [undefined] and [null] give the default. *)
Definition or_default (v : option json) (d : json) : json := match v with None | Some JNull => d | Some x => x end.

Definition judge {A} (route : list Z) (status : Z) (err : option json) (v : A) : CallResult A :=
  if negb (status_ok status) || bool_decide (is_Some err)
  then Refused (mkApiError (or_default (e ← err; get e (js "message")) (JStr (route ++ js " failed (" ++ dec status ++ js ")")))
                           (or_default (e ← err; get e (js "code")) (int (-32603))) status)
  else Resolved v.

Section call.
Context `{JsonText}.

Definition read_body (route : list Z) (status : Z) (text : list Z) : CallResult json :=
  match (if jeqb text [] then Some (JObj []) else JSON_parse text) with
  | None => Refused (mkApiError (JStr (js "bad response from " ++ route ++ js ": " ++ take 120 text)) (int (-32603)) status)
  | Some JNull => Threw (js "Cannot read properties of null (reading 'error')")
  | Some v => judge route status (get v (js "error")) v
  end.

Definition no_answer (route : list Z) (timeoutMs : Z) : CallResult json :=
  Refused (mkApiError (JStr (route ++ js ": no answer within " ++ dec (timeoutMs `div` 1000) ++ js "s (server busy or restarting)")) (int (-32603)) 0).

(** The timer is cleared when [fetch] settles, which is when the head is there. *)
Definition call (route : list Z) (timeoutMs : Z) (w : Wire) : CallResult json :=
  match w with
  | WHead t status b =>
      if t <? timeoutMs
      then match b with
           | BodyText s => read_body route status s
           | BodyBroken m => Threw m
           | BodyNever => Unsettled
           end
      else no_answer route timeoutMs
  | WFail t m => if t <? timeoutMs then Threw m else no_answer route timeoutMs
  | WSilent => no_answer route timeoutMs
  end.
End call.

(** ** The methods of [api] *)

Inductive DraftDecision := Approves (body : option (list Z)) | Rejects | Revises (feedback : list Z).
Record FriendPatch := mkFPatch { fp_note : option (list Z); fp_protocol : option (list Z); fp_tier : option (list Z); fp_muted : option bool }.
Record AgentInput := mkAInput { an_name : list Z; an_preset : option (list Z); an_cwd : option (list Z); an_prompt : option (list Z); an_approval : option bool }.

Inductive ApiCall :=
| AState | APayWallet | AUpgradeCheck | AUpgradeRun (version : list Z) (registry : option (list Z))
| ACreateIdentity (name : list Z) | AParseCard (uri : list Z) | AAddFriend (card : list Z) (note : option (list Z))
| AAccept (id : list Z) (note : option (list Z)) | AReject (id : list Z) | AMarkRead (fp : list Z) (seq : option Z)
| AConversation (fp : list Z) (since limit : option Z) | ASend (fp body : list Z) | ATyping (fp : list Z) (on : bool)
| APresence (fps : list (list Z)) | AInstruct (text : list Z) | ACancelMemory (ids : list (list Z))
| AMemoryList (global : option bool) (agent friend group : option (list Z)) | AMemoryAdd (kind content : list Z) (scope : MemoryScope)
| AMemoryUpdate (uid content : list Z) (scope : option MemoryScope) | AMemoryRemove (uid : list Z) | AMemorySummarize (gid : list Z)
| ASessionLatest | ASessionHistory (limit : option Z) | AAgentInstruct (name text : list Z)
| AAgentHistory (name : list Z) (limit : option Z) (gid : option (list Z)) | ADrafts (fp : option (list Z))
| ADecideDraft (id : list Z) (d : DraftDecision) | AFriendSet (fp : list Z) (p : FriendPatch) | AFriendCard (fp : list Z)
| AProtocolGet | AProtocolSet (text : list Z) | AGroupCreate (name : list Z) (members : list (list Z)) (profile : option GroupProfile)
| AGroupInfo (gid : list Z) | AGroupSend (gid body : list Z) (by_ : option (list Z)) | AGroupConversation (gid : list Z) (since limit : option Z)
| AGroupMarkRead (gid : list Z) (seq : option Z) | AGroupLeave (gid : list Z) | AGroupKick (gid fp : list Z)
| AGroupSetProfile (gid : list Z) (p : GroupProfile) | AGroupPin (gid body : list Z) | AGroupUnpin (gid id : list Z) | AGroupLookup (uri : list Z)
| AGroupApply (uri : list Z) (note : option (list Z)) (payment : option JoinPayment) | AGroupPaidJoin (uri : list Z) | AGroupApplications (gid : list Z)
| AGroupApprove (gid fp : list Z) | AGroupApplicationReject (gid fp : list Z) | AGroupInvite (gid fp : list Z) | AGroupSettingsGet (gid : list Z)
| AGroupSettingsSet (gid : list Z) (p : GroupSettingsPatch) | AAgentsList | AAgentsSet (a : AgentInput) | AAgentsRemove (name : list Z).

Definition str (k : string) (s : list Z) : list (list Z * json) := [(js k, JStr s)].
Notation opt k := (opt_prop (js k)).
Definition names (l : list (list Z)) : json := JArr (map JStr l).

Definition scope_json (s : MemoryScope) : json :=
  JObj (match s with
        | ScGlobal => str "kind" (js "global")
        | ScAgent n => str "kind" (js "agent") ++ str "name" n
        | ScFriend fp => str "kind" (js "shared-friend") ++ str "fp" fp
        | ScGroup gid => str "kind" (js "shared-group") ++ str "gid" gid
        end).
Definition decision_fields (d : DraftDecision) : list (list Z * json) :=
  match d with
  | Approves b => str "action" (js "approve") ++ opt "body" JStr b
  | Rejects => str "action" (js "reject")
  | Revises f => str "action" (js "revise") ++ str "feedback" f
  end.
Definition join_payment_json (p : JoinPayment) : json :=
  JObj (str "tx_hash" (pay_tx_hash p) ++ str "amount" (pay_amount p) ++ str "to" (pay_to p) ++ opt "payer" JStr (pay_payer p) ++ opt "proof" proof_json (pay_proof p)).
Definition mode_str (m : GroupAlterMode) : json := JStr (match m with ModeMention => js "mention" | ModeAlways => js "always" end).
Definition voice_json (v : VoicePatch) : json := JObj (str "name" (vp_name v) ++ [(js "on", JBool (vp_on v))] ++ opt "commanders" names (vp_commanders v)).
Definition duty_json (d : DutyPatch) : option json := match d with DutyKeep => None | DutyClear => Some JNull | DutySet n => Some (JStr n) end.
Definition patch_fields (p : GroupSettingsPatch) : list (list Z * json) :=
  opt "alter" JBool (pa_alter p) ++ opt "mode" mode_str (pa_mode p) ++ opt "voice" voice_json (pa_voice p) ++
  opt "duty" id (duty_json (pa_duty p)) ++ opt "muted" JBool (pa_muted p).

Definition gid_fp (gid fp : list Z) : list (list Z * json) := str "gid" gid ++ str "fp" fp.
Definition paged (since limit : option Z) : list (list Z * json) := opt "since" int since ++ opt "limit" int limit.

(** The route and the body of each call; [None]: called without a body. *)
Definition request_of (c : ApiCall) : list Z * option (list (list Z * json)) :=
  match c with
  | AState => (js "state", None)
  | APayWallet => (js "pay.wallet", None)
  | AUpgradeCheck => (js "upgrade.check", Some [])
  | AUpgradeRun v r => (js "upgrade.run", Some (str "version" v ++ opt "registry" JStr r))
  | ACreateIdentity n => (js "identity.create", Some (str "name" n))
  | AParseCard u => (js "card.parse", Some (str "uri" u))
  | AAddFriend c note => (js "friends.add", Some (str "card_uri" c ++ opt "note" JStr note))
  | AAccept id note => (js "friends.accept", Some (str "id" id ++ opt "note" JStr note))
  | AReject id => (js "friends.reject", Some (str "id" id))
  | AMarkRead fp seq => (js "conversation.markRead", Some (str "fp" fp ++ opt "seq" int seq))
  | AConversation fp since limit => (js "conversation.get", Some (str "fp" fp ++ paged since limit))
  | ASend fp b => (js "message.send", Some (str "fp" fp ++ str "body" b))
  | ATyping fp on => (js "message.typing", Some (str "fp" fp ++ [(js "on", JBool on)]))
  | APresence fps => (js "presence", Some [(js "fps", names fps)])
  | AInstruct t => (js "alter.instruct", Some (str "text" t))
  | ACancelMemory ids => (js "memory.cancel", Some [(js "ids", names ids)])
  | AMemoryList g a f gr => (js "memory.list", Some (opt "global" JBool g ++ opt "agent" JStr a ++ opt "friend" JStr f ++ opt "group" JStr gr))
  | AMemoryAdd k c s => (js "memory.add", Some (str "kind" k ++ str "content" c ++ [(js "scope", scope_json s)]))
  | AMemoryUpdate u c s => (js "memory.update", Some (str "uid" u ++ str "content" c ++ opt "scope" scope_json s))
  | AMemoryRemove u => (js "memory.remove", Some (str "uid" u))
  | AMemorySummarize gid => (js "memory.summarize", Some (str "gid" gid))
  | ASessionLatest => (js "session.latest", Some [])
  | ASessionHistory limit => (js "session.history", Some (opt "limit" int limit))
  | AAgentInstruct n t => (js "agent.instruct", Some (str "name" n ++ str "text" t))
  | AAgentHistory n limit gid => (js "agent.history", Some (str "name" n ++ opt "limit" int limit ++ opt "gid" JStr gid))
  | ADrafts fp => (js "drafts.list", Some (opt "fp" JStr fp))
  | ADecideDraft id d => (js "drafts.decide", Some (str "id" id ++ decision_fields d))
  | AFriendSet fp p => (js "friends.set", Some (str "fp" fp ++ opt "note" JStr (fp_note p) ++ opt "protocol" JStr (fp_protocol p) ++ opt "tier" JStr (fp_tier p) ++ opt "muted" JBool (fp_muted p)))
  | AFriendCard fp => (js "friends.card", Some (str "fp" fp))
  | AProtocolGet => (js "protocol.get", Some [])
  | AProtocolSet t => (js "protocol.set", Some (str "text" t))
  | AGroupCreate n ms p => (js "group.create", Some (str "name" n ++ [(js "members", names ms)] ++ opt "profile" profile_json p))
  | AGroupInfo gid => (js "group.get", Some (str "gid" gid))
  | AGroupSend gid b by_ => (js "group.send", Some (str "gid" gid ++ str "body" b ++ opt "by" JStr by_))
  | AGroupConversation gid since limit => (js "group.conversation", Some (str "gid" gid ++ paged since limit))
  | AGroupMarkRead gid seq => (js "group.markRead", Some (str "gid" gid ++ opt "seq" int seq))
  | AGroupLeave gid => (js "group.leave", Some (str "gid" gid))
  | AGroupKick gid fp => (js "group.kick", Some (gid_fp gid fp))
  | AGroupSetProfile gid p => (js "group.setProfile", Some (str "gid" gid ++ [(js "profile", profile_json p)]))
  | AGroupPin gid b => (js "group.pin", Some (str "gid" gid ++ str "body" b))
  | AGroupUnpin gid id => (js "group.unpin", Some (str "gid" gid ++ str "id" id))
  | AGroupLookup u => (js "group.lookup", Some (str "uri" u))
  | AGroupApply u note p => (js "group.apply", Some (str "uri" u ++ opt "note" JStr note ++ opt "payment" join_payment_json p))
  | AGroupPaidJoin u => (js "group.paidJoin", Some (str "uri" u))
  | AGroupApplications gid => (js "group.applications", Some (str "gid" gid))
  | AGroupApprove gid fp => (js "group.approve", Some (gid_fp gid fp))
  | AGroupApplicationReject gid fp => (js "group.applicationReject", Some (gid_fp gid fp))
  | AGroupInvite gid fp => (js "group.invite", Some (gid_fp gid fp))
  | AGroupSettingsGet gid => (js "group.settings", Some (str "gid" gid))
  | AGroupSettingsSet gid p => (js "group.settings", Some (str "gid" gid ++ patch_fields p))
  | AAgentsList => (js "agents.list", Some [])
  | AAgentsSet a => (js "agents.set", Some (str "name" (an_name a) ++ opt "preset" JStr (an_preset a) ++ opt "cwd" JStr (an_cwd a) ++ opt "prompt" JStr (an_prompt a) ++ opt "approval" JBool (an_approval a)))
  | AAgentsRemove n => (js "agents.remove", Some (str "name" n))
  end.
Definition timeout_of (c : ApiCall) : Z := match c with AUpgradeRun _ _ => 10 * 60000 | _ => CALL_TIMEOUT_MS end.
(** [fetch]'s method and body: only [state] without a body is a GET. *)
Definition method_of (c : ApiCall) : list Z :=
  match (request_of c).2 with None => if jeqb (request_of c).1 (js "state") then GET else POST | Some _ => POST end.
Definition body_of (c : ApiCall) : json := JObj (match (request_of c).2 with Some b => b | None => [] end).

(** ** What the page reads of the host's answers *)

(** The [error] field of the body's JSON. *)
Definition body_error (b : Body) : option json :=
  match b with
  | BError code m => Some (JObj [(js "code", int code); (js "message", JStr m)])
  | BState s => JStr <$> sb_error s
  | BWallet _ _ e => JStr <$> e
  | _ => None
  end.
Definition received (route : list Z) (r : Reply) : CallResult Body :=
  match r with Answer status b => judge route status (body_error b) b | AwaitRun _ => Unsettled end.

(** * Theorems *)

(** Only a response whose head came in time and whose body never ends leaves
    the caller waiting. *)
Lemma call_unsettled `{JsonText} route timeout w :
  call route timeout w = Unsettled ↔ ∃ t status, w = WHead t status BodyNever ∧ t < timeout.
Proof.
  split.
  - destruct w as [t st b|t m|]; cbn; [|by destruct (t <? timeout)|done]. destruct (Z.ltb_spec t timeout); [|done].
    destruct b as [s|m|]; [|done|by eauto]. unfold read_body, judge. by repeat case_match.
  - intros (t & st & -> & Ht). cbn. by rewrite (proj2 (Z.ltb_lt t timeout)).
Qed.

(** A call whose answer's head does not come in time fails with the timeout's
    sentence; but the timer ends with the head: a response that stops after
    its head leaves the call unsettled for ever, whatever the timeout. *)
Theorem timeout_covers_head_only `{JsonText} (c : ApiCall) (w : Wire) :
  (call (request_of c).1 (timeout_of c) w = Unsettled ↔ ∃ t status, w = WHead t status BodyNever ∧ t < timeout_of c) ∧
  (∀ t status b, timeout_of c ≤ t → call (request_of c).1 (timeout_of c) (WHead t status b) = no_answer (request_of c).1 (timeout_of c)) ∧
  call (request_of c).1 (timeout_of c) WSilent = no_answer (request_of c).1 (timeout_of c).
Proof.
  split_and!; [apply call_unsettled| |done]. intros t st b Ht. cbn. by rewrite (proj2 (Z.ltb_ge t _)).
Qed.

(** A failure of the backend reaches the page as it was thrown: the call is
    refused with the error's own message and code. *)
Theorem host_errors_shown (route : list Z) (e : NetworkError) :
  received route (error_reply e) =
  Refused (mkApiError (JStr (err_message e)) (int (if err_code e =? 0 then -32603 else err_code e)) (if err_code e =? 0 then 500 else 400)).
Proof. unfold error_reply. destruct (err_code e =? 0); reflexivity. Qed.

Section served.
Context {S : Type} `{NetworkClient S} `{LowerCase} `{Sqlite} `{JsonText} `{NumberToString}.
Context (uuid : nat → list Z) (worker : list Z → list Z → list Z) (pay : option (PayCall S)) (cfg : SoulmirrorSettings) (model : bool).
Context (stamp : list Z → Z * Z) (check : option UpgradeCheck) (profileDir : option (list (list Z))) (spawn : option (list Z)).
Notation served := (routes uuid worker pay cfg model stamp check profileDir spawn).

(** The page calls only routes the host serves, with a method the host lets
    through: no call of the page is answered 404 or 405. *)
Theorem page_routes_served (c : ApiCall) :
  is_Some (map_get (served (method_of c) (body_of c)) (request_of c).1) ∧
  (method_of c = POST ∨ method_of c = GET ∧ (request_of c).1 ∈ QUERY_ROUTES).
Proof.
  split; [destruct c; by eexists|]. destruct c; try (by left). right. split; [done|]. unfold QUERY_ROUTES. by left.
Qed.

Lemma overview_fails (s : option Sessions) (a : Api S) e n :
  net_identity (net_state a) = (inl e, n) → overview cfg s a = (inr (mkOverview None [] [] [], Some (err_message e)), at_net n a).
Proof. intros He. unfold overview, mbind, io_bind, attempt. by rewrite (cl_run _ _ _ _ He). Qed.

(** When the backend cannot say who we are, the host still answers its status,
    drafts and agents with 200 and the failure in the field [error]; the page
    takes any [error] for a refusal and its object for an error's, so it drops
    the whole answer and shows neither the state nor the message. *)
Theorem state_error_hidden (a : Api S) (e : NetworkError) (n : S) (He : net_identity (net_state a) = (inl e, n)) :
  ∃ s, (run_reply (state cfg) a).1 = Answer 200 (BState s) ∧ sb_status s = net_status (net_state a) ∧ sb_error s = Some (err_message e) ∧
  received (js "state") (run_reply (state cfg) a).1 = Refused (mkApiError (JStr (js "state failed (200)")) (int (-32603)) 200).
Proof.
  assert (∃ s, (run_reply (state cfg) a).1 = Answer 200 (BState s) ∧ sb_status s = net_status (net_state a) ∧ sb_error s = Some (err_message e)) as (s & Hr & Hs & Hm).
  { unfold run_reply, state, current, mounted, sessions_now, face_now, gets, mret, io_ret. unfold mbind, io_bind. cbv beta iota.
    rewrite (overview_fails _ _ _ _ He). by eexists. }
  exists s. split_and!; [done..|]. rewrite Hr. unfold received, body_error. rewrite Hm. reflexivity.
Qed.
End served.

(** ** What the host reads of the page's bodies *)

Lemma get_fields l k : get (JObj l) k = prop_of l k.
Proof. done. Qed.
Ltac read_fields := rewrite ?get_fields, ?prop_of_app, ?prop_of_opt; cbn [prop_of]; eval_keys; cbv iota.
Lemma opt_none {A} (o : option A) : match o with Some v => Some v | None => None end = o.
Proof. by destruct o. Qed.

Lemma keep_names l : Forall (λ s, s ≠ []) l → fpList (Some (names l)) = l.
Proof.
  intros Hl. unfold fpList, names. rewrite strings_of_map. induction Hl as [|x l Hx _ IH]; [done|]. cbn. rewrite (proj2 (jeqb_neq x [])) by done. cbn. by f_equal.
Qed.
Lemma voice_request v : vp_name v ≠ [] → (∀ l, vp_commanders v = Some l → Forall (λ s, s ≠ []) l) → voicePatch (Some (voice_json v)) = Some v.
Proof.
  intros Hn Hc. destruct v as [n on cs]. cbn [vp_name vp_on vp_commanders] in *. unfold voicePatch, voice_json, str. cbn [vp_name vp_on vp_commanders].
  cbn [mbind option_bind]. read_fields. cbn [mbind option_bind as_string is_object]. rewrite (proj2 (jeqb_neq n [])) by done. cbn [negb andb].
  replace (truthy_flag _) with on by (by destruct on). destruct cs as [l|]; cbn [fmap option_fmap option_map]; [|done].
  unfold names at 1. fold (names l). by rewrite keep_names by (by apply Hc).
Qed.
Lemma mode_request m : modeOf (mode_str <$> m) = m.
Proof. by destruct m as [[]|]. Qed.
Lemma flag_request b : flag (JBool <$> b) = b.
Proof. by destruct b as [[]|]. Qed.
Lemma duty_request d : (∀ n, d = DutySet n → n ≠ []) → dutyPatch (id <$> duty_json d) = d.
Proof. intros Hd. destruct d as [| |n]; [done..|]. cbn. rewrite (proj2 (jeqb_neq n [])); [done|by apply Hd]. Qed.

(** The switches the owner sets in a group reach the host as they were set. *)
Theorem settings_request_roundtrip (gid : list Z) (p : GroupSettingsPatch)
    (Hv : ∀ v, pa_voice p = Some v → vp_name v ≠ [] ∧ ∀ l, vp_commanders v = Some l → Forall (λ s, s ≠ []) l)
    (Hd : ∀ n, pa_duty p = DutySet n → n ≠ [])
    (Hp : p ≠ mkPatch None None None DutyKeep None) :
  settingsPatch (body_of (AGroupSettingsSet gid p)) = Some p.
Proof.
  unfold settingsPatch, body_of, request_of, patch_fields, str. cbn [snd]. read_fields. rewrite !opt_none.
  rewrite mode_request, duty_request, flag_request by done.
  assert (voicePatch (voice_json <$> pa_voice p) = pa_voice p) as ->.
  { destruct (pa_voice p) as [v|]; [|done]. destruct (Hv v eq_refl). by apply voice_request. }
  assert (match JBool <$> pa_alter p with Some j => Some (truthy_flag (Some j)) | None => None end = pa_alter p) as -> by (by destruct (pa_alter p) as [[]|]).
  cbn [pa_alter pa_mode pa_voice pa_duty pa_muted]. destruct p as [al mo vo du mu]. cbn. destruct al, mo, vo, du, mu; done.
Qed.

(** A memory's scope and a draft's decision. *)
Definition scope_keys (s : MemoryScope) : list (list Z) :=
  match s with ScGlobal => [] | ScAgent k | ScFriend k | ScGroup k => [k] end.

(** The scope of a memory written on the memory page is the scope the host
    stores it under, when the owner's key is not blank. *)
Theorem scope_request_roundtrip (s : MemoryScope) (Hs : Forall (λ k, trim k = k ∧ k ≠ []) (scope_keys s)) :
  memoryScope (Some (scope_json s)) = Some s.
Proof.
  assert (∀ k, trim k = k ∧ k ≠ [] → text (Some (JStr k)) = Some k) as Ht.
  { intros k [Hk Hn]. unfold text. rewrite Hk. by rewrite (proj2 (jeqb_neq k [])). }
  destruct s as [|k|k|k]; [done|..]; apply Forall_inv in Hs as Hk; unfold memoryScope, scope_json, str;
    cbn [negb is_object]; read_fields;
    match goal with |- context [text (Some (JStr (js ?x)))] => change (text (Some (JStr (js x)))) with (Some (js x)) end; cbv iota;
    eval_keys; cbv iota; by rewrite Ht.
Qed.

(** ** Witnesses *)

Definition demo_patch : GroupSettingsPatch := mkPatch None None (Some (mkVP (js "Coder") true (Some [js "f1"]))) (DutySet (js "Coder")) (Some true).
Lemma settings_request_roundtrip_witness : settingsPatch (body_of (AGroupSettingsSet (js "g") demo_patch)) = Some demo_patch.
Proof.
  apply (settings_request_roundtrip (js "g") demo_patch).
  - intros v [= <-]. split; [done|]. intros l [= <-]. repeat constructor. done.
  - intros n [= <-]. done.
  - done.
Defined.

Lemma scope_request_roundtrip_witness : memoryScope (Some (scope_json (ScGroup (js "g1")))) = Some (ScGroup (js "g1")).
Proof. apply (scope_request_roundtrip (ScGroup (js "g1"))). repeat constructor; vm_compute; (reflexivity || discriminate). Defined.

(** A peer that answers nothing. *)
Definition dead_peer (method : list Z) (params : option json) (p : unit) : (Thrown + json) * unit := (inl (ThrownNetwork (mkErr (js "peer is down") (-32000))), p).
Definition dead_network : NetworkClient (Calls unit) := SoulnetNetwork dead_peer (λ _, 0) (λ _, None) [].
Lemma state_error_hidden_witness :
  ∃ e n, @net_identity _ dead_network (net_state calls_api) = (inl e, n) ∧ err_message e = js "peer is down" ∧
  received (js "state") (run_reply (@state _ dead_network _ cfg0) calls_api).1 = Refused (mkApiError (JStr (js "state failed (200)")) (int (-32603)) 200).
Proof.
  eexists _, _. split; [vm_compute; reflexivity|]. split; [reflexivity|].
  destruct (@state_error_hidden _ dead_network _ cfg0 calls_api _ _ eq_refl) as (_ & _ & _ & _ & Hr). exact Hr.
Defined.
