(* ===== verification/ClientViews.v ===== *)
(** * Group templates and relayed rows (client/group-templates.ts, client/a2a-node.ts)

    The profiles the create form starts from, and the fold of a relayed
    message of the session log into the bubble the page shows; both composed
    with what the host makes of them: the policy a template sets, the mail a
    bubble shows. *)

From S2P Require Import Prelude JsString JsMap Json Policy AlterState Drafts GroupContract Network PageState InboxState Sessions ApiRequest.
#[local] Open Scope Z_scope.

(** ** Templates *)

Inductive GroupTemplateId := T_standard | T_announcement | T_agents | T_tasks | T_casual.
Definition template_str (t : GroupTemplateId) : list Z :=
  match t with
  | T_standard => js "standard" | T_announcement => js "announcement" | T_agents => js "agents" | T_tasks => js "tasks" | T_casual => js "casual"
  end.

(** [Partial<ApiGroupProfile>]. *)
Record ProfilePatch := mkPP {
  pp_room : option (list Z); pp_speakHumans : option bool; pp_speakAgents : option bool; pp_speakWho : option (list Z); pp_join : option (list Z);
  pp_joinPrice : option (list Z); pp_joinAddr : option (list Z); pp_joinNote : option (list Z); pp_agentWake : option (list Z);
  pp_agentTier : option (list Z); pp_autoPerHour : option number; pp_agentRounds : option number; pp_admins : option (list (list Z));
  pp_public : option bool; pp_tags : option (list (list Z)); pp_rules : option (list Z) }.
Definition no_patch : ProfilePatch := mkPP None None None None None None None None None None None None None None None None.

(** [{ ...p, ...patch, template }] for a patch without [undefined] fields. *)
Definition spread (p : GroupProfile) (patch : ProfilePatch) (template : list Z) : GroupProfile :=
  mkProfile (Some template) (override (gpf_room p) (pp_room patch)) (pp_speakHumans patch ?? gpf_speakHumans p) (pp_speakAgents patch ?? gpf_speakAgents p)
    (override (gpf_speakWho p) (pp_speakWho patch)) (override (gpf_join p) (pp_join patch)) (override (gpf_joinPrice p) (pp_joinPrice patch))
    (override (gpf_joinAddr p) (pp_joinAddr patch)) (override (gpf_joinNote p) (pp_joinNote patch)) (override (gpf_agentWake p) (pp_agentWake patch))
    (override (gpf_agentTier p) (pp_agentTier patch)) (override (gpf_autoPerHour p) (pp_autoPerHour patch)) (override (gpf_agentRounds p) (pp_agentRounds patch))
    (override (gpf_admins p) (pp_admins patch)) (override (gpf_public p) (pp_public patch)) (override (gpf_tags p) (pp_tags patch)) (override (gpf_rules p) (pp_rules patch)).

Definition standard_defaults : GroupProfile :=
  mkProfile None (Some (js "chat")) true true (Some (js "all")) (Some (js "invite")) None None None (Some (js "mention")) (Some (js "draft"))
    (Some (num_of_Z 10)) (Some (num_of_Z 3)) None None None None.
Definition base (t : GroupTemplateId) (patch : ProfilePatch) : GroupTemplateId * GroupProfile := (t, spread standard_defaults patch (template_str t)).

Definition GROUP_TEMPLATES : list (GroupTemplateId * GroupProfile) :=
  [base T_standard no_patch;
   base T_announcement (mkPP None None (Some false) (Some (js "owner")) None None None None (Some (js "never")) None None None None None None None);
   base T_agents (mkPP None (Some false) None None None None None None (Some (js "always")) (Some (js "auto")) None None None None None None);
   base T_tasks (mkPP None None None None None None None None (Some (js "mention")) None None None None None (Some [js "tasks"]) None);
   base T_casual (mkPP None None None None None None None None (Some (js "always")) (Some (js "auto")) (Some (num_of_Z 60)) (Some (num_of_Z 10)) None None None None)].

Definition templateById (id : list Z) : GroupTemplateId * GroupProfile :=
  findb (λ t, jeqb (template_str t.1) id) GROUP_TEMPLATES ?? base T_standard no_patch.

(** The overrides that count: defined and not the empty string. *)
Definition kept (v : option (list Z)) : option (list Z) := v ≫= non_empty.
Definition defined (o : ProfilePatch) : ProfilePatch :=
  mkPP (kept (pp_room o)) (pp_speakHumans o) (pp_speakAgents o) (kept (pp_speakWho o)) (kept (pp_join o)) (kept (pp_joinPrice o)) (kept (pp_joinAddr o))
    (kept (pp_joinNote o)) (kept (pp_agentWake o)) (kept (pp_agentTier o)) (pp_autoPerHour o) (pp_agentRounds o) (pp_admins o) (pp_public o) (pp_tags o) (kept (pp_rules o)).
Definition templateProfile (id : list Z) (overrides : ProfilePatch) : GroupProfile :=
  let t := templateById id in spread t.2 (defined overrides) (template_str t.1).

(** ** Relayed rows *)

Record A2AChat := mkA2A {
  ac_id : list Z; ac_fp : list Z; ac_name : list Z; ac_body : list Z; ac_ts : number; ac_auto : bool;
  ac_type : option (list Z); ac_note : option (list Z); ac_seq : Z }.

Definition isSoulmirrorRelaySource (source : option json) : bool :=
  match source with
  | Some s => is_str (get s (js "kind")) (js "plugin") && is_str (get s (js "plugin")) SOULMIRROR_PLUGIN && is_str (get s (js "form")) RELAY_FORM
  | None => false
  end.

Fixpoint after_newline (s : list Z) : option (list Z) :=
  match s with [] => None | c :: s' => if c =? 10 then Some s' else after_newline s' end.
Definition bodyOfRelayText (text : list Z) : list Z := after_newline text ?? text.

Definition NOTE_PREFIX : list Z := js "[SoulMirror note]".
Definition strip_note (text : list Z) : list Z := if startsWith text NOTE_PREFIX then trimStart (drop (length NOTE_PREFIX) text) else text.

(** The text blocks, joined; a block that is not an object with a text is empty. *)
Definition relay_text (content : option json) : list Z :=
  match content with
  | Some (JArr l) => concat (map (λ b, if is_str (get b (js "type")) (js "text") then as_string (get b (js "text")) ?? [] else []) l)
  | _ => []
  end.

(** [String(v)] of a value that is a string; the host writes no other there. *)
Definition as_text (v : option json) (d : list Z) : list Z := match v with Some (JStr s) => s | _ => d end.

Definition data_of (e : EventLike) : json := ev_data e ?? JNull.
Definition relay_a2a (e : EventLike) : json := (get (data_of e) (js "source") ≫= λ s, get s (js "a2a")) ?? JNull.
Definition relay_match (e : EventLike) : option (list Z) :=
  if negb (jeqb (ev_type e) (js "user/message")) then None
  else if negb (isSoulmirrorRelaySource (get (data_of e) (js "source"))) then None
  else Some (js "relay:" ++ match get (relay_a2a e) (js "id") with Some (JStr s) => s | _ => as_text (get (data_of e) (js "id")) (js "undefined") end).
Definition relay_start (e : EventLike) : A2AChat :=
  let text := relay_text (get (data_of e) (js "content")) in
  let a := relay_a2a e in
  let note := as_string (get a (js "note")) in
  mkA2A (as_text (get a (js "id")) (dec (ev_seq e))) (as_text (get a (js "fp")) [])
    (as_string (get (data_of e) (js "source") ≫= λ s, get s (js "senderSessionId")) ?? js "friend")
    (match note with None => bodyOfRelayText text | Some _ => strip_note text end)
    (as_number (get a (js "ts")) ?? num_of_Z (ev_time e)) (is_true (get a (js "auto"))) (as_string (get a (js "type"))) note (ev_seq e).

(** * Theorems *)

(** ** What a template makes of a group *)

Definition group_view (p : GroupProfile) : GroupProfileView := normalizeGroupProfile (profile_json <$> profileOf (Some (profile_json p))).

Lemma group_view_eq p : group_view p = normalizeGroupProfile (Some (profile_json p)).
Proof. unfold group_view. by rewrite profile_request_whole. Qed.

Lemma view_agents p : gp_speakAgents (group_view p) = gpf_speakAgents p.
Proof.
  rewrite group_view_eq. unfold normalizeGroupProfile, recj, profile_json, get. cbn [gp_speakAgents]. rewrite ?prop_of_app, ?prop_of_opt. cbn [prop_of]. eval_keys. cbv iota.
  by destruct (gpf_speakAgents p).
Qed.
Lemma view_tier p : gp_agentTier (group_view p) = normalizeTier (JStr <$> gpf_agentTier p) Draft.
Proof.
  rewrite group_view_eq. unfold normalizeGroupProfile, recj, profile_json, get. cbn [gp_agentTier]. rewrite ?prop_of_app, ?prop_of_opt. cbn [prop_of]. eval_keys. cbv iota.
  by destruct (gpf_agentTier p).
Qed.
Lemma view_wake p : gp_agentWake (group_view p) = normalizeGroupWake (JStr <$> gpf_agentWake p) wk_mention.
Proof.
  rewrite group_view_eq. unfold normalizeGroupProfile, recj, profile_json, get. cbn [gp_agentWake]. rewrite ?prop_of_app, ?prop_of_opt. cbn [prop_of]. eval_keys. cbv iota.
  by destruct (gpf_agentWake p).
Qed.

(** A group made from the announcement template, whatever else the form sets,
    wakes no voice and lets no agent post, unless the form itself lets
    agents speak. *)
Theorem announcement_silences (o : ProfilePatch) (wake : GroupWakeInput) (agent : AgentWakeInput) (send : GroupSendGateInput)
    (Ho : pp_speakAgents o = None) :
  let v := group_view (templateProfile (js "announcement") o) in
  gw_speakAgents wake = gp_speakAgents v → aw_speakAgents agent = gp_speakAgents v → gg_speakAgents send = gp_speakAgents v →
  (∃ r, wakeForGroup wake = no_wake r) ∧ (∃ r, wakeAgentForGroup agent = no_wake r) ∧ groupSendGate send = GroupRefuse gr_agents_muted.
Proof.
  intros v. subst v. rewrite view_agents. unfold templateProfile. change (templateById (js "announcement")) with (base T_announcement (mkPP None None (Some false) (Some (js "owner")) None None None None (Some (js "never")) None None None None None None None)).
  cbn [spread gpf_speakAgents pp_speakAgents defined base snd]. rewrite Ho. cbn. intros H1 H2 H3.
  unfold wakeForGroup, wakeAgentForGroup, groupSendGate. rewrite H1, H2, H3. cbn. repeat case_match; eauto.
Qed.

(** A template makes agents answer without the owner's review only where it is
    one of the two that say so; the other three, and every unknown name, leave
    replies as drafts. *)
Theorem templates_auto (id : list Z) (o : ProfilePatch) (Ho : kept (pp_agentTier o) = None) :
  gp_agentTier (group_view (templateProfile id o)) = (if bool_decide (id ∈ [js "agents"; js "casual"]) then Auto else Draft) ∧
  gp_agentTier (group_view (templateProfile id o)) ≠ Notify.
Proof.
  assert (gp_agentTier (group_view (templateProfile id o)) = if bool_decide (id ∈ [js "agents"; js "casual"]) then Auto else Draft) as Ht.
  { rewrite view_tier. unfold templateProfile. cbn [spread gpf_agentTier pp_agentTier defined]. rewrite Ho. unfold templateById, GROUP_TEMPLATES. cbn [findb].
    cbn [fst template_str base].
    destruct (jeqb (js "standard") id) eqn:E1; [by apply jeqb_eq in E1 as <-|].
    destruct (jeqb (js "announcement") id) eqn:E2; [by apply jeqb_eq in E2 as <-|].
    destruct (jeqb (js "agents") id) eqn:E3; [by apply jeqb_eq in E3 as <-|].
    destruct (jeqb (js "tasks") id) eqn:E4; [by apply jeqb_eq in E4 as <-|].
    destruct (jeqb (js "casual") id) eqn:E5; [by apply jeqb_eq in E5 as <-|].
    apply jeqb_neq in E3, E5. rewrite bool_decide_eq_false_2; [done|]. set_solver. }
  split; [done|]. rewrite Ht. by case_bool_decide.
Qed.

(** ** What a bubble shows *)

Definition one_line (s : list Z) : Prop := 10 ∉ s.

Lemma after_newline_app a b : one_line a → after_newline (a ++ 10 :: b) = Some b.
Proof.
  unfold one_line. induction a as [|c a IH]; intros Ha; [done|]. cbn. destruct (Z.eqb_spec c 10) as [->|]; [exfalso; apply Ha; by left|].
  apply IH. intros H. apply Ha. by right.
Qed.

Lemma relay_text_of id text source : relay_text (get (user_message id text source) (js "content")) = text.
Proof. unfold relay_text, user_message, get. cbn [prop_of]. eval_keys. cbv iota. cbn [map concat]. cbn [get prop_of]. eval_keys. cbv iota. unfold is_str. rewrite jeqb_refl. cbn. by rewrite app_nil_r. Qed.
Lemma relay_source_of id text sender a2a : get (user_message id text (relay_source sender a2a)) (js "source") = Some (relay_source sender a2a).
Proof. done. Qed.

Lemma one_line_app a b : one_line a → one_line b → one_line (a ++ b).
Proof. unfold one_line. rewrite elem_of_app. tauto. Qed.
Lemma one_line_js (s : list Z) : bool_decide (10 ∈ s) = false → one_line s.
Proof. unfold one_line. by rewrite bool_decide_eq_false. Qed.
Ltac lines := repeat apply one_line_app; first [assumption|by apply one_line_js].

(** The row of a relayed message, from its text and its metadata. *)
Lemma relay_row seq ts id text sender a2a :
  let e := message_event seq ts (user_message id text (relay_source sender a2a)) in
  relay_start e =
    mkA2A (as_text (prop_of a2a (js "id")) (dec seq)) (as_text (prop_of a2a (js "fp")) []) sender
      (match as_string (prop_of a2a (js "note")) with None => bodyOfRelayText text | Some _ => strip_note text end)
      (as_number (prop_of a2a (js "ts")) ?? num_of_Z ts) (is_true (prop_of a2a (js "auto"))) (as_string (prop_of a2a (js "type")))
      (as_string (prop_of a2a (js "note"))) seq ∧
  relay_match e = Some (js "relay:" ++ as_text (prop_of a2a (js "id")) id).
Proof.
  intros e. subst e. unfold relay_start, relay_match, relay_a2a, data_of, message_event. cbn [ev_data ev_seq ev_time ev_type]. change (Some ?x ?? JNull) with x.
  rewrite relay_text_of, relay_source_of. split; [reflexivity|]. rewrite jeqb_refl. cbn [negb].
  change (isSoulmirrorRelaySource (Some (relay_source sender a2a))) with true. cbn [negb].
  change (get (user_message id text (relay_source sender a2a)) (js "id")) with (Some (JStr id)).
  cbn [mbind option_bind nullish]. change (get (relay_source sender a2a) (js "a2a") ?? JNull) with (JObj a2a). cbn [get]. unfold as_text. destruct (prop_of a2a (js "id")) as [[]|]; reflexivity.
Qed.

(** The bubble of a private message shows the mail as it came: its sender, its
    time, its marks and its body, without the line the host writes for the
    model, when neither name nor fingerprint holds a line break. *)
Theorem bubble_shows_mail (uuid displayName : list Z) (seq ts : Z) (m : InboundMessage)
    (Hn : one_line displayName) (Hf : one_line (im_from m)) (Ha : im_artifactPath m = None) :
  let e := message_event seq ts (userMessageFor uuid m displayName) in
  relay_match e = Some (js "relay:" ++ im_id m) ∧
  relay_start e = mkA2A (im_id m) (im_from m) displayName (im_body m) (num_of_Z (im_ts m)) (is_auto m) (im_type m) None seq.
Proof.
  intros e. subst e. unfold userMessageFor. rewrite Ha. cbv zeta.
  match goal with |- context [user_message ?i ?t (relay_source ?s ?a)] => destruct (relay_row seq ts i t s a) as [Hs Hm]; rewrite Hs, Hm; clear Hs Hm end.
  unfold auto_prop. rewrite ?prop_of_app, ?prop_of_opt. cbn [prop_of]. eval_keys. cbv iota. split; [done|].
  assert (∀ b : bool, prop_of (if b then [(js "auto", JBool true)] else []) (js "note") = None) as Hnote by by intros [].
  assert (∀ b : bool, prop_of (if b then [(js "auto", JBool true)] else []) (js "type") = None) as Htype by by intros [].
  assert (∀ b : bool, is_true (match prop_of (if b then [(js "auto", JBool true)] else []) (js "auto") with Some v => Some v | None => None end) = b) as Hauto by by intros [].
  rewrite Hnote, Htype, Hauto. cbn [as_string as_text as_number]. f_equal.
  - unfold bodyOfRelayText. rewrite app_nil_r, !app_assoc. unfold NL. rewrite <- (app_assoc _ [10]). cbn [app]. rewrite after_newline_app; [done|].
    destruct (is_auto m); lines.
  - by destruct (im_type m).
Qed.

(** The line of a note shows the note's text without the host's prefix. *)
Theorem note_line_shown (uuid : list Z) (now seq ts : Z) (note : A2ANoteKind) (draft : PendingDraft) (text : list Z) (Ht : trimmed text) :
  let r := relay_start (message_event seq ts (noteMessageFor uuid now note draft text)) in
  ac_body r = text ∧ ac_fp r = pd_fp draft ∧ ac_note r = Some (note_str note) ∧ ac_name r = js "SoulMirror".
Proof.
  intros r. subst r. unfold noteMessageFor.
  match goal with |- context [user_message ?i ?t (relay_source ?s ?a)] => destruct (relay_row seq ts i t s a) as [Hs _]; rewrite Hs; clear Hs end.
  cbn [prop_of]. eval_keys. cbv iota. cbn [ac_body ac_fp ac_note ac_name as_string as_text]. split_and!; try done.
  change (strip_note (js "[SoulMirror note] " ++ text)) with (trimStart (32 :: text)). cbn [trimStart]. change (is_ws 32) with true. cbv iota.
  apply trimStart_id. apply Ht.
Qed.

(** ** Witnesses *)

Definition loud_patch : ProfilePatch := mkPP None None None None None None None None (Some (js "always")) (Some (js "auto")) None None None None None None.
Lemma announcement_silences_witness :
  ∃ r, wakeForGroup (mkGroupWake (gp_speakAgents (group_view (templateProfile (js "announcement") loud_patch))) true false wk_always None true) = no_wake r.
Proof.
  apply (announcement_silences loud_patch
    (mkGroupWake (gp_speakAgents (group_view (templateProfile (js "announcement") loud_patch))) true false wk_always None true)
    (mkAgentWake (gp_speakAgents (group_view (templateProfile (js "announcement") loud_patch))) true false wk_always true true true)
    (mkGroupGate UNKNOWN_TRIGGER (js "g") None (gp_speakAgents (group_view (templateProfile (js "announcement") loud_patch))) Auto 10 0 false false)); reflexivity.
Defined.

Lemma templates_auto_witness : gp_agentTier (group_view (templateProfile (js "casual") no_patch)) = Auto.
Proof. apply (templates_auto (js "casual") no_patch). reflexivity. Defined.

Definition demo_mail : InboundMessage := mkInbound (js "m1") (js "f1") (js "Ann") (js "hi") 7 None None None None None None None.
Lemma bubble_shows_mail_witness :
  ac_body (relay_start (message_event 3 9 (userMessageFor (js "u") demo_mail (js "Ann")))) = js "hi".
Proof.
  destruct (bubble_shows_mail (js "u") (js "Ann") 3 9 demo_mail) as [_ ->];
    [apply one_line_js; reflexivity|apply one_line_js; reflexivity|reflexivity|reflexivity].
Defined.

Definition demo_note : PendingDraft := mkDraft (js "d1") (js "f1") None (js "Ann") (js "hi") [] [] None None None.
Lemma note_line_shown_witness :
  ac_body (relay_start (message_event 3 9 (noteMessageFor (js "u") 5 draft_approved demo_note (js "sent")))) = js "sent".
Proof. apply (note_line_shown (js "u") 5 3 9 draft_approved demo_note (js "sent")). split; intros c; vm_compute; intros [= <-]; reflexivity. Defined.
