(* ===== verification/Commands.v ===== *)
(** * Slash commands (commands/index.ts)

    The four host commands over any network backend.  Plain errors are errors
    with code 0.  The two lists of a [Promise.all] are both fetched; the first
    failure is the one reported. *)

From S2P Require Import Prelude JsString JsMap Json Policy Network FakeNetwork Sessions Scenarios.
#[local] Open Scope Z_scope.

Inductive CommandResult := CmdError (text : list Z) | CmdSuccess (text : list Z).

Definition describeError (e : NetworkError) : list Z :=
  if err_code e =? 0 then err_message e else err_message e ++ js " (code " ++ dec (err_code e) ++ js ")".

(** The words of [/add]: the card and the note, [None] when the line is blank. *)
Fixpoint first_word (s : list Z) : list Z * list Z :=
  match s with
  | [] => ([], [])
  | c :: s' => if is_ws c then ([], s) else let '(w, r) := first_word s' in (c :: w, r)
  end.
Definition add_words (rawInput : list Z) : option (list Z * option (list Z)) :=
  let raw := trim rawInput in
  if jeqb raw [] then None
  else let '(card, rest) := first_word raw in Some (card, non_empty (trim rest)).

Section commands.
Context {S : Type} `{NetworkClient S}.
Notation CMD := (IO S CommandResult).

Definition guarded (what : list Z) (m : CMD) : CMD := catch m (λ e, mret (CmdError (what ++ describeError e))).

Definition card_command : CMD :=
  guarded (js "Could not read the card: ")
    (i ← net_identity;
     mret (match i with
           | None => CmdError (js "No SoulMirror identity yet. Create one in Settings → SoulMirror network.")
           | Some i => CmdSuccess (js "SoulMirror card of " ++ id_name i ++ js " (" ++ id_fp i ++ js "):" ++ [10] ++ id_cardUri i)
           end)).

Definition both_lists : IO S (list Friend * list PendingRequest) :=
  f ← attempt net_friends_list;
  p ← attempt net_friends_pending;
  match f, p with
  | inr f, inr p => mret (f, p)
  | inl e, _ | _, inl e => throw e
  end.

Definition friend_line (online : gmap (list Z) bool) (f : Friend) : list Z :=
  let on := match online !! fr_fp f with Some b => Some b | None => fr_online f end in
  (if bool_decide (on = Some true) then js "●" else js "○") ++ js " " ++ fr_name f ++ js "  " ++ fr_fp f
  ++ (if 0 <? fr_unread f then js "  (" ++ dec (fr_unread f) ++ js " unread)" else [])
  ++ (if bool_decide (fr_typing f = Some true) then js "  typing…" else []).
Definition pending_line (p : PendingRequest) : list Z :=
  js "  " ++ rq_name p ++ js "  " ++ rq_fp p ++ (if jeqb (rq_greeting p) [] then [] else js "  " ++ [34] ++ rq_greeting p ++ [34]).
Definition friend_lines (online : gmap (list Z) bool) (friends : list Friend) (pending : list PendingRequest) : list (list Z) :=
  (match map (friend_line online) friends with [] => [js "(no friends yet — /add <card_uri> to send a request)"] | l => l end)
  ++ (match pending with
      | [] => []
      | _ => [[]; js "Pending requests (" ++ dec (Z.of_nat (length pending)) ++ js "; accept/reject on the SoulMirror page):"] ++ map pending_line pending
      end).

Definition friends_command : CMD :=
  guarded (js "Could not list friends: ")
    (l ← both_lists;
     online ← catch (net_presence (map fr_fp l.1)) (λ _, mret ∅);
     mret (CmdSuccess (jjoin [10] (friend_lines online l.1 l.2)))).

Definition add_command (rawInput : list Z) : CMD :=
  match add_words rawInput with
  | None => mret (CmdError (js "Usage: /add <card_uri> [note]"))
  | Some (card, note) =>
      guarded (js "Could not send the friend request: ")
        (parsed ← net_parseCard card;
         friend ← net_friends_add card note;
         mret (CmdSuccess (js "Friend request sent to " ++ (if jeqb parsed.2 [] then fr_name friend else parsed.2)
                             ++ js " (" ++ fr_fp friend ++ js "). Messages can be exchanged once they accept.")))
  end.

(** [drafts]: how many drafts wait, when the sessions plugin runs. *)
Definition soulmirror_command (drafts : option nat) : CMD :=
  guarded (js "Could not read the network state: ")
    (l ← both_lists;
     let unread := fold_left (λ sum f, sum + (if 0 <? fr_unread f then fr_unread f else 0)) l.1 0 in
     mret (CmdSuccess (js "SoulMirror page: " ++ dec (Z.of_nat (length l.1)) ++ js " friend(s), " ++ dec unread ++ js " unread, "
       ++ dec (Z.of_nat (length l.2)) ++ js " pending request(s), " ++ dec (Z.of_nat (drafts ?? 0%nat))
       ++ js " draft(s) of your alter waiting for review. Open it from the " ++ [34] ++ js "SoulMirror" ++ [34] ++ js " entry at the sidebar foot (or pick "
       ++ [34] ++ js "My alter" ++ [34] ++ js " / a friend from the /soulmirror popup)."))).
End commands.

(** * Theorems *)

Lemma first_word_spec w n : forallb (λ c, negb (is_ws c)) w = true → (∀ c, head n = Some c → is_ws c = true) → first_word (w ++ n) = (w, n).
Proof.
  intros Hw Hn. induction w as [|c w IH]; cbn in *.
  - destruct n as [|x n]; [done|]. cbn. by rewrite (Hn x).
  - apply andb_true_iff in Hw as [Hc Hw]. apply negb_true_iff in Hc. by rewrite Hc, (IH Hw).
Qed.

Lemma first_word_plain s : forallb (λ c, negb (is_ws c)) (first_word s).1 = true.
Proof. induction s as [|c s IH]; [done|]. cbn. destruct (is_ws c) eqn:E; [done|]. destruct (first_word s). cbn in *. by rewrite E. Qed.

Section theorems.
Context {S : Type} `{NetworkClient S}.

Lemma guarded_answers what (m : IO S CommandResult) s : ∃ r s', guarded what m s = (inr r, s').
Proof. unfold guarded, catch. destruct (m s) as [[e|r] s']; eexists _, _; reflexivity. Qed.

(** Whatever the backend does, a slash command answers the user with a line:
    no failure of the network escapes a handler. *)
Theorem commands_answer (raw : list Z) (drafts : option nat) (s : S) :
  (∃ r s', card_command s = (inr r, s')) ∧ (∃ r s', friends_command s = (inr r, s')) ∧
  (∃ r s', add_command raw s = (inr r, s')) ∧ (∃ r s', soulmirror_command drafts s = (inr r, s')).
Proof.
  split_and!; try apply guarded_answers. unfold add_command. destruct (add_words raw) as [[card note]|]; [apply guarded_answers|by eexists _, _].
Qed.

(** [/add] requests exactly the card that was typed, with the rest of the line
    as the note, and only after the backend could read the card. *)
Theorem add_requests_card (card note : list Z) (s s1 : S) (parsed : list Z * list Z)
    (Hc : forallb (λ c, negb (is_ws c)) card = true) (Hn : card ≠ []) (Ht : trimmed note) (He : note ≠ []) :
  add_words (card ++ [32] ++ note) = Some (card, Some note) ∧
  (net_parseCard card s = (inr parsed, s1) → (add_command (card ++ [32] ++ note) s).2 = (net_friends_add card (Some note) s1).2) ∧
  (∀ e, net_parseCard card s = (inl e, s1) → (add_command (card ++ [32] ++ note) s).2 = s1).
Proof.
  assert (trimmed (card ++ [32] ++ note)) as Htr.
  { split.
    - intros c Hh. destruct card as [|x card]; [done|]. cbn in *. simplify_eq. apply andb_true_iff in Hc as [Hx _]. by apply negb_true_iff in Hx.
    - intros c Hl. rewrite app_assoc, last_app in Hl. destruct (last note) eqn:El; [|by destruct note as [|? note]; [done|apply last_None in El]].
      simplify_eq. by apply Ht. }
  assert (add_words (card ++ [32] ++ note) = Some (card, Some note)) as Hw.
  { unfold add_words. rewrite (trim_id _ Htr), (proj2 (jeqb_neq (card ++ [32] ++ note) [])) by (by destruct card).
    rewrite first_word_spec; [|done|by intros c [= <-]].
    change ([32] ++ note) with (32 :: note). unfold trim at 1. cbn [trimStart]. change (is_ws 32) with true. cbv iota. fold (trim note).
    rewrite (trim_id _ Ht). by destruct note. }
  split; [done|]. unfold add_command. rewrite Hw. split; [intros Hp|intros e Hp]; unfold guarded, catch, mbind, io_bind; rewrite Hp; [|done].
  by destruct (net_friends_add card (Some note) s1) as [[?|?] ?].
Qed.
End theorems.

(** ** Witness *)

Definition demo_card : list Z := CARD_PREFIX ++ js "?fp=f9".
Lemma add_requests_card_witness :
  add_words (demo_card ++ [32] ++ js "hello there") = Some (demo_card, Some (js "hello there")).
Proof.
  apply (add_requests_card demo_card (js "hello there") (w_net demo_start) (w_net demo_start) ([], [])); try done.
  split; intros c; vm_compute; intros [= <-]; reflexivity.
Defined.
