(* ===== verification/Workspaces.v ===== *)
(** * The clean-up of workspaces and side bars (sessions/index.ts)

    [hideAlterFromSidebar], [archiveAlterSessions] and
    [removeLegacyWorkspaces].  The registry of workspaces and the persistence
    belong to the host program: its lists are arguments, and the model records
    the calls that are made, each of which fails or not as [fails] says. *)

From S2P Require Import Prelude JsString.
#[local] Open Scope Z_scope.

Record Workspace := mkWs { ws_id : list Z; ws_title : list Z; ws_path : list Z; ws_sessions : list (list Z) }.

Inductive HostCall :=
| CArchive (session : list Z)              (** [workspaceRegistry.archiveSession] *)
| CDetach (ws session : list Z)            (** [ws.detachSession] *)
| CDelete (ws : list Z).                   (** [workspaceRegistry.delete] *)

Definition WORKSPACE_TITLE : list Z := js "灵镜".

(** [path.replace(/\\/g, '/').replace(/\/+$/, '')]. *)
Fixpoint drop_slashes (s : list Z) : list Z := match s with c :: s' => if c =? 47 then drop_slashes s' else s | [] => [] end.
Definition normal_path (p : list Z) : list Z := reverse (drop_slashes (reverse (map (λ c, if c =? 92 then 47 else c) p))).
(** [s.endsWith(t)]. *)
Definition endsWith (s t : list Z) : bool := startsWith (reverse s) (reverse t).

Section host.
Context (fails : HostCall → bool) (mirrorDir : list Z).

(** The archive call is made; its failure is only logged. *)
Definition hideAlterFromSidebar (session : list Z) : list HostCall := [CArchive session].

Definition archiveAlterSessions (headers : option (list (list Z * option (list Z)))) : list HostCall :=
  match headers with
  | None => []
  | Some l => flat_map (λ h, match h.2 with
                             | Some cwd => if jeqb (normal_path cwd) (normal_path mirrorDir) then hideAlterFromSidebar h.1 else []
                             | None => []
                             end) l
  end.

Definition legacy (w : Workspace) : bool :=
  jeqb (ws_title w) WORKSPACE_TITLE && (endsWith (normal_path (ws_path w)) (js "/a2a") || jeqb (normal_path (ws_path w)) (normal_path mirrorDir)).

(** Detach the sessions one by one, then delete; the first failure leaves the
    rest of this workspace as it is. *)
Fixpoint empty_out (w : list Z) (sessions : list (list Z)) : list HostCall :=
  match sessions with
  | [] => [CDelete w]
  | s :: rest => if fails (CDetach w s) then [CDetach w s] else CDetach w s :: hideAlterFromSidebar s ++ empty_out w rest
  end.
Definition removeLegacyWorkspaces (l : list Workspace) : list HostCall :=
  flat_map (λ w, if legacy w then empty_out (ws_id w) (ws_sessions w) else []) l.

(** * Theorems *)

Lemma empty_out_calls w ss c : c ∈ empty_out w ss →
  c = CDelete w ∨ ∃ s, s ∈ ss ∧ (c = CDetach w s ∨ c = CArchive s).
Proof.
  induction ss as [|s ss IH]; cbn.
  - intros ->%list_elem_of_singleton. by left.
  - destruct (fails (CDetach w s)).
    + intros ->%list_elem_of_singleton. right. exists s. split; [by left|by left].
    + cbn. intros [->|[->|H]%elem_of_cons]%elem_of_cons; [right; exists s; split; [by left|by left]|right; exists s; split; [by left|by right]|].
      destruct (IH H) as [?|(x & Hx & ?)]; [by left|right; exists x; split; [by right|done]].
Qed.

Lemma empty_out_deletes w ss : CDelete w ∈ empty_out w ss → ∀ s, s ∈ ss → fails (CDetach w s) = false ∧ CDetach w s ∈ empty_out w ss.
Proof.
  induction ss as [|x ss IH]; cbn; [intros _ s Hs; by inversion Hs|]. destruct (fails (CDetach w x)) eqn:E.
  - intros H%list_elem_of_singleton. done.
  - cbn. intros [?|[?|H]%elem_of_cons]%elem_of_cons; [done|done|]. intros s [->|Hs]%elem_of_cons; [split; [done|by left]|].
    destruct (IH H s Hs) as [H1 H2]. split; [done|]. right. by right.
Qed.

(** The clean-up deletes and empties only workspaces with the plugin's title
    whose folder is the mirror's or is called [a2a]; and a workspace is
    deleted only after every session was taken out of it. *)
Theorem only_legacy_removed (l : list Workspace) (c : HostCall) (Hc : c ∈ removeLegacyWorkspaces l) :
  ∃ w, w ∈ l ∧ legacy w = true ∧
  match c with
  | CArchive s => s ∈ ws_sessions w
  | CDetach i s => i = ws_id w ∧ s ∈ ws_sessions w
  | CDelete i => i = ws_id w ∧ ∀ s, s ∈ ws_sessions w → fails (CDetach i s) = false ∧ CDetach i s ∈ removeLegacyWorkspaces l
  end.
Proof.
  unfold removeLegacyWorkspaces in *. apply list_elem_of_In, in_flat_map in Hc as (w & Hw & Hc%list_elem_of_In).
  exists w. split; [by apply list_elem_of_In|]. destruct (legacy w) eqn:El; [|by inversion Hc]. split; [done|].
  destruct (empty_out_calls _ _ _ Hc) as [->|(s & Hs & [->| ->])]; [|by split|done]. split; [done|]. intros s Hs.
  destruct (empty_out_deletes _ _ Hc s Hs) as [H1 H2]. split; [done|]. apply list_elem_of_In, in_flat_map. exists w. split; [done|].
  rewrite El. by apply list_elem_of_In.
Qed.

(** The path test knows only the last component: a user's own workspace of that
    title, in any folder called [a2a], is emptied and deleted too. *)
Theorem own_folder_removed (id dir : list Z) (sessions : list (list Z)) (Hd : ∀ s, s ∈ sessions → fails (CDetach id s) = false)
    (Hb : Forall (λ c, c ≠ 92) dir) :
  CDelete id ∈ removeLegacyWorkspaces [mkWs id WORKSPACE_TITLE (dir ++ js "/a2a") sessions].
Proof.
  unfold removeLegacyWorkspaces. cbn [flat_map]. rewrite app_nil_r.
  assert (legacy (mkWs id WORKSPACE_TITLE (dir ++ js "/a2a") sessions) = true) as ->.
  { unfold legacy. cbn [ws_title ws_path]. rewrite jeqb_refl. cbn [andb]. apply orb_true_iff. left.
    assert (map (λ c, if c =? 92 then 47 else c) dir = dir) as Hm.
    { induction Hb as [|c d Hc _ IH]; [done|]. cbn. rewrite IH. by rewrite (proj2 (Z.eqb_neq c 92)). }
    unfold endsWith, normal_path. rewrite map_app, Hm. change (map (λ c : Z, if c =? 92 then 47 else c) (js "/a2a")) with (js "/a2a").
    rewrite reverse_app. change (reverse (js "/a2a")) with ([97; 50; 97; 47] : list Z).
    change (drop_slashes ([97; 50; 97; 47] ++ reverse dir)) with ([97; 50; 97; 47] ++ reverse dir). by rewrite reverse_involutive. }
  cbn [ws_id ws_sessions]. induction sessions as [|s ss IH]; [by left|]. cbn. rewrite (Hd s) by by left. right. right. apply IH. intros x Hx. apply Hd. by right.
Qed.
End host.

(** ** Witnesses *)

Definition old_ws : Workspace := mkWs (js "w1") WORKSPACE_TITLE (js "/home/u/.dsh/soulmirror/a2a") [js "s1"].
Lemma only_legacy_removed_witness : ∃ w, w ∈ [old_ws] ∧ legacy (js "/m") w = true.
Proof.
  destruct (only_legacy_removed (λ _, false) (js "/m") [old_ws] (CDelete (js "w1"))) as (w & H1 & H2 & _); [vm_compute; right; right; by left|].
  by exists w.
Defined.
Lemma own_folder_removed_witness :
  CDelete (js "mine") ∈ removeLegacyWorkspaces (λ _, false) (js "/home/u/.dsh/mirror") [mkWs (js "mine") WORKSPACE_TITLE (js "/work/papers" ++ js "/a2a") [js "s9"]].
Proof. apply (own_folder_removed (λ _, false) (js "/home/u/.dsh/mirror") (js "mine") (js "/work/papers") [js "s9"]); [done|]. repeat constructor; done. Defined.
