(* ===== verification/Startup.v ===== *)
(** * The start of the sessions plugin (sessions/index.ts, [apply])

    The block at the end of [apply] loads the stores, reads the session map,
    cleans up old workspaces, subscribes to the peer, and ensures the session
    of the alter and of every registered agent.  The service it provides is
    callable before any of that has happened, so the start is a machine whose
    steps are the answers to its own [await]s, the steps of the session
    machine of [AgentSessions] made on anyone's behalf, changes of the agent
    registry, and the disposal of the plugin.  The file also has the choice of
    the preset and the model of a session, and [installPreset]. *)

From S2P Require Import Prelude JsString JsMap Json Policy AgentRegistry Settings AgentSessions.
#[local] Open Scope Z_scope.

(** ** Reading dsh-sessions.json into the maps *)

Definition read_ids_into (acc : list (list Z * list Z)) (o : list (list Z * json)) : list (list Z * list Z) :=
  fold_left (λ acc kv, match kv.2 with JStr (c :: s) => map_set acc kv.1 (c :: s) | _ => acc end) o acc.

Definition read_group_ids_into (acc : list (list Z * list (list Z * list Z))) (o : list (list Z * json)) :
    list (list Z * list (list Z * list Z)) :=
  fold_left (λ acc kv, if is_object kv.2
                       then match read_ids (entries kv.2) with [] => acc | l => map_set acc kv.1 l end
                       else acc) o acc.

(** What is in the file is set over what the maps hold by then. *)
Definition read_into (file : option json) (m : SessionMaps) : SessionMaps :=
  match file with
  | None => m
  | Some raw =>
      let old := match get raw (js "legacyFriendSessions") with
                 | Some JNull | None => get raw (js "sessions")
                 | o => o
                 end in
      mkMaps (match as_string (get raw (js "alterSessionId")) ≫= non_empty with Some a => Some a | None => sm_alterId m end)
        (read_ids_into (sm_agents m) (object_entries (get raw (js "agentSessions"))))
        (read_group_ids_into (sm_groups m) (object_entries (get raw (js "agentGroupSessions"))))
        (match old with Some o => match entries o with [] => sm_legacy m | l => l end | None => sm_legacy m end)
  end.

(** ** The machine *)

(** The [await] the start is at. *)
Inductive BootStage :=
| BMkdir | BPreset | BFriendSettings | BDrafts | BGroupSettings | BRegistry   (** the loads, in this order *)
| BReadMap                                   (** [readFile(mapPath)] *)
| BWorkspaces                                (** [removeLegacyWorkspaces()] *)
| BArchive                                   (** [archiveAlterSessions()] *)
| BFriendList                                (** [bootstrapFriends()] *)
| BAlter                                     (** [ensureAlter()] *)
| BAgents (current : list Z) (rest : list (list Z))   (** [ensureAgent(seat)], and the seats to come *)
| BPersist (data : json)                     (** the last [persistMap()], with the data it took *)
| BEnd (ok : bool).                          (** [false]: 'bootstrap failed' *)
#[export] Instance BootStage_eq_dec : EqDecision BootStage.
Proof. solve_decision. Defined.

Record Boot := mkBoot {
  bs_voices : Voices;
  bs_stage : BootStage;
  bs_registry : list (list Z);               (** the names in the agent registry *)
  bs_seats : list (list Z);                  (** the seats the loop goes over *)
  bs_tried : list (list Z * option (list Z)); (** the seats done, with the session or the failure *)
  bs_subscribed : bool;                      (** the handler is registered with the peer client *)
  bs_disposed : bool }.

Definition set_voices (v : Voices) (s : Boot) : Boot :=
  mkBoot v (bs_stage s) (bs_registry s) (bs_seats s) (bs_tried s) (bs_subscribed s) (bs_disposed s).
Definition set_boot (st : BootStage) (s : Boot) : Boot :=
  mkBoot (bs_voices s) st (bs_registry s) (bs_seats s) (bs_tried s) (bs_subscribed s) (bs_disposed s).
Definition set_registry (l : list (list Z)) (s : Boot) : Boot :=
  mkBoot (bs_voices s) (bs_stage s) l (bs_seats s) (bs_tried s) (bs_subscribed s) (bs_disposed s).
Definition set_loop (seats : list (list Z)) (tried : list (list Z * option (list Z))) (s : Boot) : Boot :=
  mkBoot (bs_voices s) (bs_stage s) (bs_registry s) seats tried (bs_subscribed s) (bs_disposed s).
Definition set_flags (subscribed disposed : bool) (s : Boot) : Boot :=
  mkBoot (bs_voices s) (bs_stage s) (bs_registry s) (bs_seats s) (bs_tried s) subscribed disposed.

Definition before_start (file : option json) : Boot :=
  mkBoot (mkVoices (mkMaps None [] [] []) file [] [] [] [] [] 0) BMkdir [] [] [] false false.

Section start.
Context `{LowerCase} (uuid : nat → list Z) (stored : list (list Z)).   (** [stored]: the agents on disk *)

(** An [await] outside the inner [try]s: a rejection ends the block. *)
Definition go_on (ok : bool) (st : BootStage) (s : Boot) : Boot := set_boot (if ok then st else BEnd false) s.

(** The next round of [for (const seat of agentRegistry.list())], or what follows the loop. *)
Definition next_seat (rest : list (list Z)) (s : Boot) : Boot :=
  match rest with
  | [] => set_boot (BPersist (session_map_json (vs_maps (bs_voices s)))) s
  | n :: rest' => set_boot (BAgents n rest') (set_voices (ensure uuid (TgAgent n None) (bs_voices s)) s)
  end.

(** The [await] of the current stage settles (the waits for a session settle
    with the session's own run, below). *)
Definition boot_settles (ok : bool) (s : Boot) : Boot :=
  match bs_stage s with
  | BMkdir => go_on ok BPreset s
  | BPreset => go_on ok BFriendSettings s
  | BFriendSettings => go_on ok BDrafts s
  | BDrafts => go_on ok BGroupSettings s
  | BGroupSettings => go_on ok BRegistry s
  | BRegistry => go_on ok BReadMap (if ok then set_registry stored s else s)
  | BReadMap =>
      let v := bs_voices s in
      set_boot BWorkspaces (if ok then set_voices (with_maps (read_into (vs_file v) (vs_maps v)) v) s else s)
  | BWorkspaces => go_on ok BArchive s
  | BArchive => set_boot BFriendList (set_flags true (bs_disposed s) s)
  | BFriendList => set_boot BAlter (set_voices (ensure uuid TgAlter (bs_voices s)) s)
  | BPersist data => go_on ok (BEnd true) (if ok then set_voices (with_file (Some data) (bs_voices s)) s else s)
  | BAlter | BAgents _ _ | BEnd _ => s
  end.

(** The run the start waits for has settled with [r]. *)
Definition boot_resumes (r : option (list Z)) (s : Boot) : Boot :=
  match bs_stage s with
  | BAlter =>
      match r with
      | None => set_boot (BEnd false) s
      | Some _ => next_seat (bs_registry s) (set_loop (bs_registry s) [] s)
      end
  | BAgents n rest => next_seat rest (set_loop (bs_seats s) (bs_tried s ++ [(n, r)]) s)
  | _ => s
  end.

Definition awaits (st : BootStage) : option Target :=
  match st with BAlter => Some TgAlter | BAgents n _ => Some (TgAgent n None) | _ => None end.

(** A step of the session machine; when it settles the run the start waits for, the start goes on. *)
Definition boot_voice (o : VoiceOp) (s : Boot) : Boot :=
  let s1 := set_voices (voice_step uuid (bs_voices s) o) s in
  match o with
  | VoSettle t =>
      match jb_stage <$> job_of t (vs_jobs (bs_voices s)) with
      | Some (StDone r) => if bool_decide (awaits (bs_stage s) = Some t) then boot_resumes r s1 else s1
      | _ => s1
      end
  | _ => s1
  end.

(** The effect's cleanup: [disposed = true; unsubscribe?.()]. *)
Definition boot_dispose (s : Boot) : Boot := set_flags false true s.

Inductive BootEvent :=
| EvSettles (ok : bool)
| EvVoice (o : VoiceOp)
| EvRegistry (l : list (list Z))             (** an agent is saved or removed *)
| EvDispose.

Definition boot_event (s : Boot) (e : BootEvent) : Boot :=
  match e with
  | EvSettles ok => boot_settles ok s
  | EvVoice o => boot_voice o s
  | EvRegistry l => set_registry l s
  | EvDispose => boot_dispose s
  end.
Definition boot_run (s : Boot) (es : list BootEvent) : Boot := fold_left boot_event es s.
End start.

(** * Theorems *)

(** Over empty maps, reading the file is the [load_session_map] of the session machine. *)
Lemma read_into_empty file : read_into file (mkMaps None [] [] []) = load_session_map file.
Proof.
  destruct file as [raw|]; [|done]. cbn [read_into load_session_map sm_alterId sm_agents sm_groups sm_legacy]. f_equal.
  - by destruct (as_string _ ≫= _).
  - by repeat case_match.
Qed.

(** ** Session states up to the file on disk *)

Definition same_but_file : relation Voices := λ v w, with_file None v = with_file None w.
#[export] Instance same_but_file_equiv : Equivalence same_but_file.
Proof. split; unfold same_but_file; [by intros ?|by intros ? ? ?|]. intros ? ? ? E1 E2. by rewrite E1. Qed.

(** No step of the session machine reads the file. *)
#[export] Instance voice_step_proper `{LowerCase} uuid : Proper (same_but_file ==> (=) ==> same_but_file) (voice_step uuid).
Proof.
  intros [m f l c g j w u] [m' f' l' c' g' j' w' u'] E o ? <-. unfold same_but_file in *. cbv [with_file] in E. cbn in E.
  injection E as -> -> -> -> -> -> ->.
  destruct o; cbn; unfold ensure, first_stage, resumed, created, written, settle, removeAgent, write_lands; cbn;
    repeat case_match; simplify_eq; done.
Qed.

#[export] Instance voice_run_proper `{LowerCase} uuid ops : Proper (same_but_file ==> same_but_file) (fold_left (voice_step uuid) ops).
Proof. induction ops as [|o ops IH]; intros v w E; cbn; [done|]. apply IH. by rewrite E. Qed.

Lemma with_file_same f v : same_but_file (with_file f v) v.
Proof. by destruct v. Qed.

(** ** The start refines the session machine *)

Definition past_read (st : BootStage) : bool :=
  match st with BMkdir | BPreset | BFriendSettings | BDrafts | BGroupSettings | BRegistry | BReadMap => false | _ => true end.

Definition seat_ok (n : list Z) : Prop := target_ok (TgAgent n None).

(** The names are those the registry accepts ([agent_name_target]). *)
Definition event_ok (e : BootEvent) : Prop :=
  match e with EvVoice o => op_ok o | EvRegistry l => Forall seat_ok l | _ => True end.

Definition seats_ok (s : Boot) : Prop :=
  Forall seat_ok (bs_registry s) ∧
  match bs_stage s with BAgents n rest => Forall seat_ok (n :: rest) | _ => True end.

Definition voice_event (e : BootEvent) : bool := match e with EvVoice _ => true | _ => false end.

Section refines.
Context `{LowerCase} (uuid : nat → list Z) (stored : list (list Z)).

(** [s'] is [s] after some steps of the session machine. *)
Definition by_voice_steps (s s' : Boot) : Prop :=
  ∃ ops, Forall op_ok ops ∧ same_but_file (bs_voices s') (fold_left (voice_step uuid) ops (bs_voices s)).

Lemma no_voice_steps s s' : same_but_file (bs_voices s') (bs_voices s) → by_voice_steps s s'.
Proof. intros E. exists []. split; [constructor|done]. Qed.

Lemma one_voice_step o s s' : op_ok o → bs_voices s' = voice_step uuid (bs_voices s) o → by_voice_steps s s'.
Proof. intros Ho E. exists [o]. split; [by repeat constructor|]. by rewrite E. Qed.

Lemma voice_steps_trans s1 s2 s3 : by_voice_steps s1 s2 → by_voice_steps s2 s3 → by_voice_steps s1 s3.
Proof.
  intros (o1 & H1 & E1) (o2 & H2 & E2). exists (o1 ++ o2). split; [by apply Forall_app|].
  rewrite fold_left_app, E2. by apply voice_run_proper.
Qed.

Definition good (s s' : Boot) : Prop := by_voice_steps s s' ∧ seats_ok s' ∧ past_read (bs_stage s') = true.

Lemma next_seat_good rest s : Forall seat_ok rest → Forall seat_ok (bs_registry s) → good s (next_seat uuid rest s).
Proof.
  intros Hr Hreg. destruct rest as [|n rest]; (split; [|split; [split|]]); try done.
  - by apply no_voice_steps.
  - apply (one_voice_step (VoEnsure (TgAgent n None))); [by inversion Hr|done].
Qed.

Lemma resumes_good r s : seats_ok s → past_read (bs_stage s) = true → good s (boot_resumes uuid r s).
Proof.
  intros [Hreg Hs] Hp. unfold boot_resumes. destruct (bs_stage s) as [| | | | | | | | | | |n rest| |] eqn:Est; try done;
    try (split; [by apply no_voice_steps|by rewrite Est; split; [split; rewrite ?Est|]]).
  - destruct r; [|by split; [apply no_voice_steps|]]. by apply (next_seat_good (bs_registry s) (set_loop _ _ s)).
  - inversion Hs; subst. by apply (next_seat_good rest (set_loop _ _ s)).
Qed.

Lemma settles_good ok s : seats_ok s → past_read (bs_stage s) = true → good s (boot_settles uuid stored ok s).
Proof.
  intros [Hreg Hs] Hp. unfold boot_settles. destruct (bs_stage s) eqn:Est; try done; destruct ok;
    (split; [|split; [split|]; cbn; rewrite ?Est; done]);
    first [by apply no_voice_steps|by apply (one_voice_step (VoEnsure TgAlter))|apply no_voice_steps, with_file_same].
Qed.

Lemma voice_good o s : op_ok o → seats_ok s → past_read (bs_stage s) = true → good s (boot_voice uuid o s).
Proof.
  intros Ho Hs Hp. assert (good s (set_voices (voice_step uuid (bs_voices s) o) s)) as Hg.
  { split; [by apply (one_voice_step o)|done]. }
  unfold boot_voice. destruct o; try exact Hg. destruct (jb_stage <$> _) as [[]|]; try exact Hg. case_bool_decide; [|exact Hg].
  destruct Hg as (H1 & H2 & H3). destruct (resumes_good result _ H2 H3) as (H4 & H5). split; [|done]. by eapply voice_steps_trans.
Qed.

Lemma run_good es s : Forall event_ok es → seats_ok s → past_read (bs_stage s) = true → good s (boot_run uuid stored s es).
Proof.
  intros Hes. revert s. induction Hes as [|e es He _ IH]; intros s Hs Hp; [by split; [apply no_voice_steps|]|].
  assert (good s (boot_event uuid stored s e)) as (H1 & H2 & H3).
  { destruct e as [ok|o|l|]; cbn in He; [by apply settles_good|by apply voice_good|..]; (split; [by apply no_voice_steps|]);
      destruct Hs as [Hr Hs]; by split. }
  destruct (IH _ H2 H3) as (H4 & H5). split; [|done]. by eapply voice_steps_trans.
Qed.

Lemma past_read_stays es s :
  existsb voice_event es = false → past_read (bs_stage s) = true → past_read (bs_stage (boot_run uuid stored s es)) = true.
Proof.
  revert s. induction es as [|e es IH]; intros s Hq Hs; [done|]. cbn in Hq. apply orb_false_iff in Hq as [He Hq]. apply IH; [done|].
  destruct e as [ok|o|l|]; try done. cbn. unfold boot_settles. destruct (bs_stage s) eqn:Est; cbn; rewrite ?Est; try done; by destruct ok.
Qed.

(** Before the read, and with no caller of the service, the session state is untouched. *)
Lemma quiet_start_run es s :
  past_read (bs_stage (boot_run uuid stored s es)) = false → existsb voice_event es = false → past_read (bs_stage s) = false →
  bs_voices (boot_run uuid stored s es) = bs_voices s.
Proof.
  revert s. induction es as [|e es IH]; intros s Hend Hq Hs; [done|]. cbn in Hq. apply orb_false_iff in Hq as [He Hq].
  change (boot_run uuid stored s (e :: es)) with (boot_run uuid stored (boot_event uuid stored s e) es) in *.
  destruct (past_read (bs_stage (boot_event uuid stored s e))) eqn:Ee; [by rewrite (past_read_stays es) in Hend|].
  rewrite IH by done. destruct e as [ok|o|l|]; try done. cbn in *. unfold boot_settles in *.
  destruct (bs_stage s); try done; by destruct ok.
Qed.

Lemma quiet_seats es s :
  Forall seat_ok stored → Forall event_ok es → existsb voice_event es = false →
  Forall seat_ok (bs_registry s) → Forall seat_ok (bs_registry (boot_run uuid stored s es)).
Proof.
  intros Hst Hes. revert s. induction Hes as [|e es He _ IH]; intros s Hq Hs; [done|]. cbn in Hq. apply orb_false_iff in Hq as [Hv Hq].
  apply IH; [done|]. destruct e as [ok|o|l|]; try done. cbn. unfold boot_settles. destruct (bs_stage s); cbn; try done; by destruct ok.
Qed.
End refines.


(** ** A call before the map is read *)

(** A request that needs the alter ([instruct], say) is served from start to end. *)
Definition early_call : list BootEvent :=
  [EvVoice (VoEnsure TgAlter); EvVoice (VoCreated true TgAlter); EvVoice (VoWritten true TgAlter); EvVoice (VoSettle TgAlter)].

Lemma early_call_state `{LowerCase} uuid stored file s :
  bs_voices s = bs_voices (before_start file) → past_read (bs_stage s) = false →
  let m := mkMaps (Some (js "session-" ++ uuid 0%nat)) [] [] [] in
  let s' := boot_run uuid stored s early_call in
  vs_maps (bs_voices s') = m ∧ vs_file (bs_voices s') = Some (session_map_json m) ∧ bs_stage s' = bs_stage s.
Proof.
  destruct s as [v st r se tr su di]. cbn [bs_voices bs_stage]. intros -> Hp.
  assert (awaits st = None) as Ha by by destruct st.
  unfold boot_run, early_call. cbn [fold_left boot_event]. unfold boot_voice. cbn -[js]. rewrite Ha, bool_decide_eq_false_2 by done.
  done.
Qed.

(** C20. A request for the alter that is served while the start is still
    loading its stores finds no alter session, creates a new one, and writes
    the session map before it was ever read.  Whatever the file named is gone:
    afterwards the start reads back only the new session, and the alter's
    conversation, every agent's direct and group sessions and the sessions
    kept from earlier versions are forgotten, in memory and on disk. *)
Theorem early_call_forgets `{LowerCase} (uuid : nat → list Z) (stored : list (list Z)) (file : option json)
    (loads1 loads2 : list BootEvent)
    (Hq1 : existsb voice_event loads1 = false) (Hq2 : existsb voice_event loads2 = false)
    (H1 : past_read (bs_stage (boot_run uuid stored (before_start file) loads1)) = false)
    (H2 : bs_stage (boot_run uuid stored (before_start file) (loads1 ++ early_call ++ loads2)) = BReadMap) :
  let s := boot_run uuid stored (before_start file) (loads1 ++ early_call ++ loads2 ++ [EvSettles true]) in
  let m := mkMaps (Some (js "session-" ++ uuid 0%nat)) [] [] [] in
  vs_maps (bs_voices s) = m ∧ vs_file (bs_voices s) = Some (session_map_json m).
Proof.
  intros s m. subst s. unfold boot_run in *. rewrite !app_assoc, fold_left_app, <- app_assoc, !fold_left_app in *.
  fold (boot_run uuid stored (before_start file) loads1) in *. set (s1 := boot_run _ _ _ loads1) in *.
  fold (boot_run uuid stored s1 early_call) in *. set (s2 := boot_run _ _ s1 early_call) in *.
  fold (boot_run uuid stored s2 loads2) in *. set (s3 := boot_run _ _ s2 loads2) in *.
  assert (bs_voices s1 = bs_voices (before_start file)) as Hv1 by by apply quiet_start_run.
  destruct (early_call_state uuid stored file s1 Hv1 H1) as (Hm & Hf & Hst). fold s2 m in Hm, Hf, Hst.
  assert (bs_voices s3 = bs_voices s2) as Hv3 by (apply quiet_start_run; [by fold s3; rewrite H2|done|by rewrite Hst]).
  cbn [fold_left boot_event]. unfold boot_settles. rewrite H2. cbn [bs_voices set_boot set_voices vs_maps vs_file with_maps].
  rewrite Hv3, Hm, Hf. split; [|done]. unfold m. cbn [session_map_json sm_alterId sm_agents sm_groups sm_legacy map filterb opt_prop option_map app].
  vm_compute. done.
Qed.

(** ** Disposal while the start is under way *)

Definition mark_disposed (s : Boot) : Boot := set_flags (bs_subscribed s) true s.
Definition is_dispose (e : BootEvent) : bool := match e with EvDispose => true | _ => false end.

Lemma event_disposed `{LowerCase} uuid stored s e :
  is_dispose e = false → boot_event uuid stored (mark_disposed s) e = mark_disposed (boot_event uuid stored s e).
Proof.
  destruct s as [v st r se tr su di], e as [ok|o|l|]; try done; intros _.
  - destruct st; try done; by destruct ok.
  - cbn. unfold boot_voice. cbn. destruct o; try done. destruct (jb_stage <$> _) as [[]|]; try done. case_bool_decide; [|done].
    unfold boot_resumes. cbn. destruct st as [| | | | | | | | | | |n rest| |]; try done; [|by destruct rest].
    destruct result; [|done]. cbn. by destruct r.
Qed.

(** The start never looks at [disposed]: a plugin disposed before it
    subscribed goes on as if nothing had happened.  It ends in exactly the
    state it would have ended in, sessions created and all, and the
    subscription to the peer that it makes after the disposal is never
    cancelled. *)
Theorem dispose_ignored_by_start `{LowerCase} (uuid : nat → list Z) (stored : list (list Z)) (file : option json) (es1 es2 : list BootEvent)
    (Hbefore : bs_subscribed (boot_run uuid stored (before_start file) es1) = false) (Honce : existsb is_dispose es2 = false) :
  let s := boot_run uuid stored (before_start file) (es1 ++ es2) in
  boot_run uuid stored (before_start file) (es1 ++ EvDispose :: es2) = set_flags (bs_subscribed s) true s.
Proof.
  intros s. subst s. unfold boot_run in *. rewrite !fold_left_app. set (s1 := fold_left _ es1 _) in *. cbn [fold_left boot_event].
  replace (boot_dispose s1) with (mark_disposed s1) by (unfold mark_disposed, boot_dispose; by rewrite Hbefore).
  clearbody s1. clear Hbefore. revert s1. induction es2 as [|e es2 IH]; intros s1; [done|]. cbn in Honce. apply orb_false_iff in Honce as [He Hes].
  cbn [fold_left]. rewrite event_disposed by done. by apply IH.
Qed.

(** ** Every seat is tried *)

Definition subscribed_stage (st : BootStage) : bool :=
  match st with BFriendList | BAlter | BAgents _ _ | BPersist _ | BEnd true => true | _ => false end.

Definition boot_inv (s : Boot) : Prop :=
  (subscribed_stage (bs_stage s) = true → bs_subscribed s = true ∨ bs_disposed s = true) ∧
  match bs_stage s with
  | BAgents n rest => map fst (bs_tried s) ++ n :: rest = bs_seats s
  | BPersist _ | BEnd true => map fst (bs_tried s) = bs_seats s
  | _ => True
  end.

Lemma next_seat_inv uuid rest s :
  (bs_subscribed s = true ∨ bs_disposed s = true) → map fst (bs_tried s) ++ rest = bs_seats s → boot_inv (next_seat uuid rest s).
Proof. intros Hd Hl. destruct rest; (split; [done|]); cbn; [by rewrite app_nil_r in Hl|done]. Qed.

Lemma resumes_inv uuid r s : boot_inv s → boot_inv (boot_resumes uuid r s).
Proof.
  intros [Hd Hs]. unfold boot_resumes. destruct (bs_stage s) as [| | | | | | | | | | |n rest| |] eqn:Est;
    try (by split; rewrite ?Est); [destruct r; [|by split]|]; apply next_seat_inv; cbn; [by apply Hd|done|by apply Hd|].
  rewrite map_app, <- app_assoc. exact Hs.
Qed.

Lemma event_inv `{LowerCase} uuid stored s e : boot_inv s → boot_inv (boot_event uuid stored s e).
Proof.
  intros Hs. destruct e as [ok|o|l|]; cbn.
  - destruct Hs as [Hd Hs]. unfold boot_settles. destruct (bs_stage s) as [| | | | | | | | | | | | |[]] eqn:Est; try destruct ok;
      (split; cbn; rewrite ?Est); try done; auto.
  - assert (boot_inv (set_voices (voice_step uuid (bs_voices s) o) s)) as H1 by by destruct s.
    unfold boot_voice. destruct o; try exact H1. destruct (jb_stage <$> _) as [[]|]; try exact H1. case_bool_decide; [|exact H1].
    by apply resumes_inv.
  - by destruct s.
  - destruct Hs as [Hd Hs]. split; [by right|done].
Qed.

(** However the sessions of single agents fare, a start that ends without
    'bootstrap failed' has asked for the session of every agent of the
    registry, once each and in its order, and is subscribed to the peer's mail
    unless the plugin was disposed. *)
Theorem startup_complete `{LowerCase} (uuid : nat → list Z) (stored : list (list Z)) (file : option json) (es : list BootEvent)
    (Hend : bs_stage (boot_run uuid stored (before_start file) es) = BEnd true) :
  let s := boot_run uuid stored (before_start file) es in
  map fst (bs_tried s) = bs_seats s ∧ (bs_subscribed s = true ∨ bs_disposed s = true).
Proof.
  intros s. assert (boot_inv s) as [Hd Hs].
  { unfold s, boot_run. clear. assert (boot_inv (before_start file)) as H0 by by split. revert H0.
    generalize (before_start file). induction es as [|e es IH]; intros s Hs; [done|]. by apply IH, event_inv. }
  fold s in Hend. rewrite Hend in Hd, Hs. split; [done|by apply Hd].
Qed.

(** What ends the start with 'bootstrap failed': a load, the workspaces or the
    last write failing, or no alter session. *)
Definition fatal (s : Boot) (e : BootEvent) : bool :=
  match bs_stage s, e with
  | (BMkdir | BPreset | BFriendSettings | BDrafts | BGroupSettings | BRegistry | BWorkspaces | BPersist _), EvSettles ok => negb ok
  | BAlter, EvVoice (VoSettle TgAlter) =>
      match jb_stage <$> job_of TgAlter (vs_jobs (bs_voices s)) with Some (StDone None) => true | _ => false end
  | _, _ => false
  end.

Lemma event_survives `{LowerCase} uuid stored s e :
  bs_stage s ≠ BEnd false → fatal s e = false → bs_stage (boot_event uuid stored s e) ≠ BEnd false.
Proof.
  intros Hs Hf. destruct e as [ok|o|l|]; try done.
  - cbn. unfold fatal in Hf. unfold boot_settles. destruct (bs_stage s) as [| | | | | | | | | | | | |[]] eqn:Est; try done; cbn; rewrite ?Est; try done;
      by destruct ok.
  - cbn. unfold boot_voice. destruct o; try done. destruct (jb_stage <$> _) as [[]|] eqn:Ej; try done. case_bool_decide as Ha; [|done].
    unfold boot_resumes. cbn [bs_stage set_voices]. unfold fatal in Hf.
    destruct (bs_stage s) as [| | | | | | | | | | |n rest| |] eqn:Est; try done; cbn in Ha; simplify_eq.
    + rewrite Ej in Hf. destruct result; [|done]. cbn. by destruct (bs_registry s).
    + by destruct rest.
Qed.

(** Only a load, the clean-up of workspaces, the alter's own session or
    the last write of the map can end the start in failure: an unreadable
    session map, a friend list that is not available, an agent whose session
    cannot be had, and anything others do with the sessions meanwhile do not. *)
Theorem startup_survives `{LowerCase} (uuid : nat → list Z) (stored : list (list Z)) (file : option json) (es : list BootEvent)
    (Hend : bs_stage (boot_run uuid stored (before_start file) es) = BEnd false) :
  ∃ es1 e es2, es = es1 ++ e :: es2 ∧ fatal (boot_run uuid stored (before_start file) es1) e = true.
Proof.
  revert Hend. induction es as [|e es IH] using rev_ind; [done|]. unfold boot_run in *. rewrite fold_left_app. cbn [fold_left]. intros Hend.
  destruct (decide (bs_stage (fold_left (boot_event uuid stored) es (before_start file)) = BEnd false)) as [E|Hne].
  - destruct (IH E) as (es1 & e' & es2 & -> & Hf). exists es1, e', (es2 ++ [e]). by rewrite <- app_assoc.
  - destruct (fatal (fold_left (boot_event uuid stored) es (before_start file)) e) eqn:Ef.
    + by exists es, e, [].
    + by destruct (event_survives uuid stored _ e Hne Ef).
Qed.

(** ** The composition of a session: preset, model, folder *)

Definition PRESET_ID : list Z := js "soulmirror-chat".

(** [ctx.agentDefaultModel?.currentSelection()]. *)
Inductive Selection :=
| SelAbsent | SelThrows | SelNone
| SelOf (provider model : option (list Z)).

Definition defaultAgentOptions (sel : Selection) : option (list Z * list Z) :=
  match sel with
  | SelOf (Some (c :: p)) (Some (d :: m)) => Some (c :: p, d :: m)
  | _ => None
  end.

(** What [presets.resolve(id)] settles with. *)
Inductive Resolved := RsFails | RsOf (id : list Z) (broken : bool).

(** What [setup] does on the agent's own context. *)
Inductive SetupCall := ScMount (preset : list Z) | ScPersona | ScRemember.

Record CreateCall := mkCreate {
  cc_id : list Z; cc_cwd : list Z;
  cc_preset : option (list Z);               (** [meta.agentPreset]; absent: the deployment's default *)
  cc_setup : list SetupCall;
  cc_options : option (list Z * list Z) }.

Section compose.
Context (presets : option (list Z → Resolved)).   (** the [agentPresets] service, when there is one *)

Definition resolve_preset (wanted : list Z) : option (list Z) :=
  match presets with
  | None => None
  | Some resolve => match resolve wanted with RsOf id false => Some id | _ => None end
  end.

(** [setup]: a mount that fails rejects before the persona and the tool are installed. *)
Definition setup_calls (mounts : bool) (preset : option (list Z)) : list SetupCall * bool :=
  match preset with
  | Some id => if mounts then ([ScMount id; ScPersona; ScRemember], true) else ([ScMount id], false)
  | None => ([ScPersona; ScRemember], true)
  end.

Definition presetForMode (config : option (list Z)) (mode : AlterMode) : list Z :=
  match config with
  | Some p => p
  | None => match mode with ModeFull => js "standard" | ModeComms => PRESET_ID end
  end.
Definition composeSetup (config : option (list Z)) (mode : AlterMode) : option (list Z) := resolve_preset (presetForMode config mode).
Definition composeAgentSetup (seat : SeatAgent) : option (list Z) := resolve_preset (ag_preset seat ?? js "standard").

Definition create_alter (mounts : bool) (config : option (list Z)) (mode : AlterMode) (mirrorDir : list Z) (sel : Selection) (id : list Z) : CreateCall :=
  let p := composeSetup config mode in mkCreate id mirrorDir p (setup_calls mounts p).1 (defaultAgentOptions sel).
Definition create_agent (mounts : bool) (seat : SeatAgent) (a2aDir : list Z) (sel : Selection) (id : list Z) : CreateCall :=
  let p := composeAgentSetup seat in mkCreate id (ag_cwd seat ?? a2aDir) p (setup_calls mounts p).1 (defaultAgentOptions sel).
End compose.

(** [settings()]: the live settings, or the defaults while no plugin provides them. *)
Definition session_settings (live : option SoulmirrorSettings) : ReplyTier * Z * AlterMode :=
  match live with
  | Some s => (se_defaultTier s, se_autoReplyPerHour s, se_alterMode s)
  | None => (DEFAULT_REPLY_TIER, DEFAULT_AUTO_REPLY_PER_HOUR, ModeComms)
  end.

(** Paths as their segments; [join(here, '..', …)] takes the parent. *)
Definition path := list (list Z).
Definition preset_file (dir : path) (name : list Z) : path := dir ++ [name].
Definition candidates (here : path) : list path :=
  [removelast here ++ [js "presets"; PRESET_ID]; removelast (removelast here) ++ [js "presets"; PRESET_ID]].

(** [installPreset]: the files copied, each from where to where, once [exists] has answered. *)
Definition installPreset (exists_ : path → bool) (dshHome here : path) (presetId : list Z) : list (path * path) :=
  let target := dshHome ++ [js ".agent-presets"; presetId] in
  let yml := js "agent.cordis.yml" in
  if exists_ (preset_file target yml) then []
  else match findb (λ source, exists_ (preset_file source yml)) (candidates here) with
       | None => []
       | Some source => [(preset_file source yml, preset_file target yml);
                         (preset_file source (js "preset.yml"), preset_file target (js "preset.yml"))]
       end.

Lemma resolve_preset_broken f wanted : (∀ id, f wanted ≠ RsOf id false) → resolve_preset (Some f) wanted = None.
Proof. cbn. destruct (f wanted) as [|id []] eqn:E; try done. intros Hn. by destruct (Hn id). Qed.

(** An agent that names no preset is created with 'standard' only when the
    host can resolve it; when it cannot (or the preset is broken, or there is
    no preset service) no preset is named and the host's deployment default
    composes the session, the one composition the code sets out to avoid. *)
Theorem agent_falls_to_default (f : list Z → Resolved) (mounts : bool) (seat : SeatAgent) (a2aDir id : list Z) (sel : Selection)
    (Hp : ag_preset seat = None) (Hf : ∀ p, f (js "standard") ≠ RsOf p false) :
  cc_preset (create_agent (Some f) mounts seat a2aDir sel id) = None ∧
  cc_setup (create_agent (Some f) mounts seat a2aDir sel id) = [ScPersona; ScRemember].
Proof.
  unfold create_agent, composeAgentSetup. rewrite Hp. cbn [nullish cc_preset cc_setup].
  by rewrite (resolve_preset_broken f (js "standard")) by done.
Qed.

(** A preset that is installed is never overwritten, and the two files of an
    installation come from one source folder, whatever name is configured:
    a configured id that is not installed yet receives the files of
    [soulmirror-chat]. *)
Theorem preset_installed_once (exists_ : path → bool) (dshHome here : path) (presetId : list Z) (from to : path)
    (Hc : (from, to) ∈ installPreset exists_ dshHome here presetId) :
  exists_ (dshHome ++ [js ".agent-presets"; presetId; js "agent.cordis.yml"]) = false ∧
  ∃ source file, source ∈ candidates here ∧ from = source ++ [file] ∧ to = dshHome ++ [js ".agent-presets"; presetId; file].
Proof.
  unfold installPreset, preset_file in Hc. rewrite <- app_assoc in Hc. change ([js ".agent-presets"; presetId] ++ [js "agent.cordis.yml"]) with ([js ".agent-presets"; presetId; js "agent.cordis.yml"]) in Hc.
  destruct (exists_ (dshHome ++ _)); [by inversion Hc|]. split; [done|].
  destruct (findb _ (candidates here)) as [source|] eqn:Ef; [|by inversion Hc].
  assert (source ∈ candidates here) as Hs. { apply findb_Some in Ef. tauto. }
  apply elem_of_cons in Hc as [Hc|Hc%list_elem_of_singleton]; injection Hc as -> ->; exists source;
    [exists (js "agent.cordis.yml")|exists (js "preset.yml")]; (split; [done|split; [done|]]); by rewrite <- ?app_assoc.
Qed.

(** ** Witnesses *)

Definition six_loads : list BootEvent := replicate 6 (EvSettles true).
Definition old_map : option json :=
  Some (session_map_json (mkMaps (Some (js "session-old")) [(js "Coder", js "session-c")] [] [])).

(** A whole start: the friend list fails, the alter is resumed, the one agent cannot be had. *)
Definition rough_start : list BootEvent :=
  [EvSettles true; EvSettles true; EvSettles false;
   EvVoice (VoResumed true TgAlter); EvVoice (VoSettle TgAlter);
   EvVoice (VoResumed false coder); EvVoice (VoCreated false coder); EvVoice (VoSettle coder); EvSettles true].

Lemma rough_start_ok : Forall event_ok rough_start.
Proof. repeat apply Forall_cons_2; try apply Forall_nil_2; apply (bool_decide_unpack _); vm_compute; exact I. Qed.
Lemma six_loads_ok : Forall event_ok six_loads.
Proof. by repeat constructor. Qed.


Lemma early_call_forgets_witness :
  let s := boot_run (H := AsciiLowerCase) unary_uuid [js "Coder"] (before_start old_map)
             (replicate 3 (EvSettles true) ++ early_call ++ replicate 3 (EvSettles true) ++ [EvSettles true]) in
  known TgAlter (load_session_map old_map) = Some (js "session-old") ∧ known coder (load_session_map old_map) = Some (js "session-c") ∧
  known TgAlter (vs_maps (bs_voices s)) = Some (js "session-") ∧ known coder (vs_maps (bs_voices s)) = None.
Proof.
  intros s. split; [vm_compute; reflexivity|]. split; [vm_compute; reflexivity|].
  destruct (early_call_forgets (H := AsciiLowerCase) unary_uuid [js "Coder"] old_map (replicate 3 (EvSettles true)) (replicate 3 (EvSettles true)))
    as [E _]; try (vm_compute; reflexivity). fold s in E. rewrite E. vm_compute. done.
Defined.

Lemma dispose_ignored_by_start_witness :
  let s := boot_run (H := AsciiLowerCase) unary_uuid [js "Coder"] (before_start None)
             (six_loads ++ EvDispose :: replicate 4 (EvSettles true) ++ [EvVoice (VoCreated true TgAlter)]) in
  bs_disposed s = true ∧ bs_subscribed s = true ∧ known TgAlter (vs_maps (bs_voices s)) = Some (js "session-").
Proof.
  intros s. subst s. rewrite (dispose_ignored_by_start (H := AsciiLowerCase) unary_uuid [js "Coder"] None six_loads
    (replicate 4 (EvSettles true) ++ [EvVoice (VoCreated true TgAlter)])) by (vm_compute; reflexivity).
  vm_compute. done.
Defined.

Lemma startup_complete_witness :
  let s := boot_run (H := AsciiLowerCase) unary_uuid [js "Coder"] (before_start old_map) (six_loads ++ EvSettles true :: rough_start) in
  bs_tried s = [(js "Coder", None)] ∧ map fst (bs_tried s) = bs_seats s.
Proof.
  intros s. split; [vm_compute; reflexivity|].
  apply (startup_complete (H := AsciiLowerCase) unary_uuid [js "Coder"] old_map (six_loads ++ EvSettles true :: rough_start)).
  vm_compute. reflexivity.
Defined.

Lemma startup_survives_witness :
  ∃ es1 e es2, [EvSettles true; EvSettles false] = es1 ++ e :: es2 ∧
    fatal (boot_run (H := AsciiLowerCase) unary_uuid [] (before_start None) es1) e = true.
Proof. apply (startup_survives (H := AsciiLowerCase) unary_uuid [] None). reflexivity. Defined.

Lemma agent_falls_to_default_witness :
  cc_preset (create_agent (Some (λ _, RsFails)) true (mkAgent (js "Coder") None None None None) (js "/a2a") SelNone (js "s")) = None.
Proof. by apply (agent_falls_to_default (λ _, RsFails)). Defined.

Lemma preset_installed_once_witness :
  let here := [js "app"; js "dsh"; js "sessions"] in
  let ex := λ p : path, bool_decide (p = [js "app"; js "dsh"; js "presets"; PRESET_ID; js "agent.cordis.yml"]) in
  length (installPreset ex [js "home"] here (js "standard")) = 2%nat ∧
  ex ([js "home"] ++ [js ".agent-presets"; js "standard"; js "agent.cordis.yml"]) = false.
Proof.
  intros here ex. split; [vm_compute; reflexivity|].
  apply (preset_installed_once ex [js "home"] here (js "standard")
    [js "app"; js "dsh"; js "presets"; PRESET_ID; js "preset.yml"] [js "home"; js ".agent-presets"; js "standard"; js "preset.yml"]).
  apply (bool_decide_unpack _). vm_compute. exact I.
Defined.
