(* ===== verification/JoinDialog.v ===== *)
(** * The list column's dialogs (client/FriendList.tsx, client/GroupCreateDialog.tsx)

    The add, join and create dialogs of the middle column as one state machine:
    what the owner types and clicks, the one request that runs at a time
    ([run]), its answers. A run captures the fields of the render it was
    started from, as the handlers' closures do. The theorems follow the money:
    which payments the join dialog sends, and what was confirmed before. *)

From S2P Require Import Prelude JsString Json GroupContract Policy Network PageState ApiRoutes ClientApi ClientViews.
#[local] Open Scope Z_scope.

Inductive Dialog := DlgAdd | DlgJoin.
#[export] Instance Dialog_eq_dec : EqDecision Dialog.
Proof. solve_decision. Defined.
Inductive NoteKind := NoteOk | NoteError.

(** The looked-up card, as the dialog shows it. *)
Record JoinCard := mkJC { jc_name : list Z; jc_join : list Z; jc_price : option (list Z); jc_addr : option (list Z) }.
Record JoinForm := mkJF { jf_uri : list Z; jf_card : option JoinCard; jf_tx : list Z; jf_confirming : bool }.
Definition NEW_FORM : JoinForm := mkJF [] None [] false.

(** The request a [run] waits for, with what its closure captured. *)
Inductive Job :=
| JLookup (uri tx : list Z) (wallet : option (list Z)) (confirming : bool)
| JPay (price : list Z)
| JApply (paid : bool)
| JAdd
| JCreate
| JAccept
| JReject
| JRefresh.

Record ListState := mkLS {
  ls_busy : option (list Z); ls_note : option (NoteKind * list Z); ls_dialog : option Dialog; ls_plus : bool; ls_createOpen : bool;
  ls_identity : bool; ls_wallet : option (list Z); ls_addUri : list Z; ls_addNote : list Z; ls_join : JoinForm; ls_job : option Job }.
Definition NEW_LIST : ListState := mkLS None None None false false false None [] [] NEW_FORM None.

(** What leaves the component. *)
Inductive Out := OCall (c : ApiCall) | ORefresh | OSelect (key : list Z) | OMessagesTab | OAccepted (fp : list Z).

Inductive Ans :=
| AnsError (message : list Z)
| AnsCard (card : option GroupCardView)
| AnsPaid (gid : list Z) (tx_hash amount : option (list Z))
| AnsApplied (gid : list Z)
| AnsFriend (fp name : list Z)
| AnsGroup (gid name : list Z)
| AnsDone.

Definition with_run (b : option (list Z)) (n : option (NoteKind * list Z)) (j : option Job) (s : ListState) : ListState :=
  mkLS b n (ls_dialog s) (ls_plus s) (ls_createOpen s) (ls_identity s) (ls_wallet s) (ls_addUri s) (ls_addNote s) (ls_join s) j.
Definition with_dialogs (d : option Dialog) (plus create : bool) (s : ListState) : ListState :=
  mkLS (ls_busy s) (ls_note s) d plus create (ls_identity s) (ls_wallet s) (ls_addUri s) (ls_addNote s) (ls_join s) (ls_job s).
Definition with_join (f : JoinForm) (s : ListState) : ListState :=
  mkLS (ls_busy s) (ls_note s) (ls_dialog s) (ls_plus s) (ls_createOpen s) (ls_identity s) (ls_wallet s) (ls_addUri s) (ls_addNote s) f (ls_job s).
Definition with_add (uri note : list Z) (s : ListState) : ListState :=
  mkLS (ls_busy s) (ls_note s) (ls_dialog s) (ls_plus s) (ls_createOpen s) (ls_identity s) (ls_wallet s) uri note (ls_join s) (ls_job s).
Definition with_owner (i : bool) (w : option (list Z)) (s : ListState) : ListState :=
  mkLS (ls_busy s) (ls_note s) (ls_dialog s) (ls_plus s) (ls_createOpen s) i w (ls_addUri s) (ls_addNote s) (ls_join s) (ls_job s).

Definition set_dialog (d : option Dialog) (s : ListState) : ListState := with_dialogs d (ls_plus s) (ls_createOpen s) s.
Definition set_card (c : option JoinCard) (s : ListState) : ListState :=
  with_join (mkJF (jf_uri (ls_join s)) c (jf_tx (ls_join s)) (jf_confirming (ls_join s))) s.
Definition set_confirming (b : bool) (s : ListState) : ListState :=
  with_join (mkJF (jf_uri (ls_join s)) (jf_card (ls_join s)) (jf_tx (ls_join s)) b) s.

(** ** Creating a group *)

(** The advanced section of the create dialog. *)
Record AdvForm := mkAdv {
  av_speakHumans : bool; av_speakAgents : bool; av_speakWho : list Z; av_join : list Z; av_joinPrice : list Z; av_agentWake : list Z;
  av_agentTier : list Z; av_rules : list Z; av_isPublic : bool; av_tags : list Z }.
Record CreateForm := mkCF { cf_name : list Z; cf_sel : list (list Z * bool); cf_adv : AdvForm }.

Definition std : GroupProfile := (base T_standard no_patch).2.
Definition NEW_CREATE : CreateForm :=
  mkCF [] [] (mkAdv (gpf_speakHumans std) (gpf_speakAgents std) (gpf_speakWho std ?? js "all") (gpf_join std ?? js "invite") []
                (gpf_agentWake std ?? js "mention") (gpf_agentTier std ?? js "draft") [] false []).

(** Choosing how to join also publishes a paid group. *)
Definition pick_join (v : list Z) (a : AdvForm) : AdvForm :=
  mkAdv (av_speakHumans a) (av_speakAgents a) (av_speakWho a) v (av_joinPrice a) (av_agentWake a) (av_agentTier a) (av_rules a)
    (if jeqb v (js "paid") then true else av_isPublic a) (av_tags a).

Definition create_members (f : CreateForm) : list (list Z) := map fst (filterb snd (cf_sel f)).
Definition paidIncomplete (wallet : option (list Z)) (a : AdvForm) : bool :=
  jeqb (av_join a) (js "paid") && (negb (bool_decide (is_Some wallet)) || jeqb (trim (av_joinPrice a)) []).
Definition create_ready (busy : bool) (wallet : option (list Z)) (f : CreateForm) : bool :=
  negb busy && negb (jeqb (trim (cf_name f)) []) && negb (Nat.eqb (length (create_members f)) 0) && negb (paidIncomplete wallet (cf_adv f)).

Definition form_tags (s : list Z) : list (list Z) := filterb (λ t, negb (jeqb t [])) (map trim (split_on 44 s)).
Definition form_profile (wallet : option (list Z)) (a : AdvForm) : GroupProfile :=
  let tags := form_tags (av_tags a) in
  let paid := jeqb (av_join a) (js "paid") && bool_decide (is_Some wallet) && negb (jeqb (trim (av_joinPrice a)) []) in
  templateProfile (js "standard")
    (mkPP None (Some (av_speakHumans a)) (Some (av_speakAgents a)) (Some (av_speakWho a)) (Some (av_join a))
       (if paid then Some (trim (av_joinPrice a)) else None) (if paid then wallet else None) None (Some (av_agentWake a)) (Some (av_agentTier a))
       None None None (if av_isPublic a then Some true else None) (if Nat.eqb (length tags) 0 then None else Some tags)
       (if jeqb (trim (av_rules a)) [] then None else Some (av_rules a))).

Definition create_submit (busy : bool) (wallet : option (list Z)) (f : CreateForm) : option (list Z * list (list Z) * GroupProfile) :=
  if create_ready busy wallet f then Some (trim (cf_name f), create_members f, form_profile wallet (cf_adv f)) else None.

(** ** One request at a time *)

Section dialogs.
(** The dictionary: a key and its parameters. *)
Context (t : list Z → list (list Z * list Z) → list Z).

Definition run (key : list Z) (j : Job) (c : ApiCall) (s : ListState) : ListState * list Out := (with_run (Some key) None (Some j) s, [OCall c]).
(** The action resolved: its line is shown, then the lists are fetched. *)
Definition finish (line : option (list Z)) (s : ListState) : ListState * list Out :=
  (with_run (ls_busy s) (match line with Some x => Some (NoteOk, x) | None => ls_note s end) (Some JRefresh) s, [ORefresh]).
(** The action threw. *)
Definition failed (message : list Z) (s : ListState) : ListState * list Out := (with_run None (Some (NoteError, message)) None s, []).
(** The action goes on to its next request. *)
Definition await (j : Job) (c : ApiCall) (s : ListState) : ListState * list Out := (with_run (ls_busy s) (ls_note s) (Some j) s, [OCall c]).

Definition free (s : ListState) : bool := negb (bool_decide (is_Some (ls_busy s))).

Definition submitAdd (s : ListState) : ListState * list Out :=
  if negb (free s) || jeqb (trim (ls_addUri s)) [] || negb (ls_identity s) then (s, [])
  else run (js "add") JAdd (AAddFriend (trim (ls_addUri s)) (if jeqb (trim (ls_addNote s)) [] then None else Some (trim (ls_addNote s)))) s.

Definition createGroup (name : list Z) (members : list (list Z)) (profile : GroupProfile) (s : ListState) : ListState * list Out :=
  if free s then run (js "group.create") JCreate (AGroupCreate name members (Some profile)) s else (s, []).

Definition submitJoin (s : ListState) : ListState * list Out :=
  let f := ls_join s in
  if negb (free s) || jeqb (trim (jf_uri f)) [] || negb (ls_identity s) then (s, [])
  else run (js "group.apply") (JLookup (trim (jf_uri f)) (trim (jf_tx f)) (ls_wallet s) (jf_confirming f)) (AGroupLookup (trim (jf_uri f))) s.

(** The terms the dialog reads in a card; a paid card may lack either. *)
Definition dialog_terms (card : option GroupCardView) : option (option (list Z) * option (list Z)) :=
  match card with
  | Some c => if jeqb (gc_join c) (js "paid") then Some (gc_joinPrice c, gc_joinAddr c)
              else (λ p, (Some (pj_price p), Some (pj_addr p))) <$> paidJoinFromRules (gc_rulesHead c)
  | None => None
  end.
Definition shown_card (card : option GroupCardView) : option JoinCard :=
  (λ c, mkJC (gc_name c) (gc_join c) (dialog_terms card ≫= fst) (dialog_terms card ≫= snd)) <$> card.

Definition PRICE : list Z := js "price".
(** What [submitJoin] does once the card is there. *)
Definition looked_up (uri tx : list Z) (wallet : option (list Z)) (confirming : bool) (card : option GroupCardView) (s : ListState) : ListState * list Out :=
  let s := set_card (shown_card card) s in
  match dialog_terms card with
  | None => await (JApply false) (AGroupApply uri None None) s
  | Some (Some price, Some addr) =>
      match wallet with
      | Some _ => if confirming then await (JPay price) (AGroupPaidJoin uri) (set_confirming false s)
                  else finish None (set_confirming true s)
      | None => if jeqb tx [] then failed (t (js "group.join.paid.needProof") [(PRICE, price); (js "addr", addr)]) s
                else await (JApply true) (AGroupApply uri (Some (t (js "group.join.paid.note") [(PRICE, price)]))
                                            (Some (mkPayment tx price addr None None None))) s
      end
  | Some _ => failed (t (js "group.join.paid.noPrice") []) s
  end.

Definition selecting (gid : list Z) : list Out := if jeqb gid [] then [] else [OSelect (groupKey gid)].
Definition cleared (keep_tx : bool) (s : ListState) : ListState :=
  set_dialog None (with_join (mkJF [] None (if keep_tx then jf_tx (ls_join s) else []) (jf_confirming (ls_join s))) s).
Definition also (os : list Out) (x : ListState * list Out) : ListState * list Out := (x.1, os ++ x.2).

Definition answer (a : Ans) (s : ListState) : ListState * list Out :=
  match ls_job s, a with
  | None, _ => (s, [])
  | Some (JLookup uri tx w c), AnsError _ => looked_up uri tx w c None s
  | Some (JLookup uri tx w c), AnsCard card => looked_up uri tx w c card s
  | Some JRefresh, AnsDone => (with_run None (ls_note s) None s, [])
  | Some JRefresh, _ => (s, [])
  | Some _, AnsError m => failed m s
  | Some (JPay price), AnsPaid gid tx amount =>
      also (selecting gid) (finish (Some (t (js "group.join.paid.paidViaLocal") [(js "amount", amount ?? price); (js "tx", tx ?? [])])) (cleared false s))
  | Some (JApply true), AnsApplied gid => also (selecting gid) (finish (Some (t (js "group.join.paid.applied") [])) (cleared false s))
  | Some (JApply false), AnsApplied gid =>
      also (if jeqb gid [] then [] else [OMessagesTab; OSelect (groupKey gid)]) (finish (Some (t (js "group.join.applied") [])) (cleared true s))
  | Some JAdd, AnsFriend _ name => finish (Some (t (js "settings.add.sent") [(js "name", name)])) (set_dialog None (with_add [] [] s))
  | Some JCreate, AnsGroup gid name =>
      also [OSelect (groupKey gid)] (finish (Some (t (js "group.create.created") [(js "name", name)])) (with_dialogs (ls_dialog s) (ls_plus s) false s))
  | Some JAccept, AnsFriend fp name => also [OAccepted fp] (finish (Some (t (js "inbox.pending.accepted") [(js "name", name)])) s)
  | Some JReject, AnsDone => finish None s
  | Some _, _ => (s, [])
  end.

(** ** What the owner does *)

Inductive Ev :=
| EPlus | EPlusAway                           (** the + button; a click beside its menu *)
| EOpenAdd | EOpenJoin | EOpenCreate          (** the items of its menu *)
| ECloseDialog                                (** the backdrop, the cross, or Close in the add dialog *)
| EEscape
| EBack                                       (** the first button of the join dialog *)
| ETypeUri (v : list Z) | ETypeTx (v : list Z) | ETypeAdd (uri note : list Z)
| EEnterJoin | EClickJoin | ESubmitAdd
| ECreate (f : CreateForm) | ECloseCreate
| EAccept (id : list Z) | EReject (id : list Z)
| EWallet (address : option (list Z))         (** the wallet answered *)
| EIdentity (has : bool)
| EAnswer (a : Ans).

Definition in_dialog (d : Dialog) (s : ListState) : bool := bool_decide (ls_dialog s = Some d).
Definition card_price (f : JoinForm) : option (list Z) := jf_card f ≫= jc_price.
Definition join_disabled (s : ListState) : bool :=
  let f := ls_join s in
  negb (free s) || jeqb (trim (jf_uri f)) []
  || (bool_decide (is_Some (card_price f)) && negb (bool_decide (is_Some (ls_wallet s))) && jeqb (trim (jf_tx f)) []).
(** The line that asks for consent is on the screen. *)
Definition confirm_shown (s : ListState) : bool :=
  in_dialog DlgJoin s && bool_decide (is_Some (card_price (ls_join s))) && bool_decide (is_Some (jf_card (ls_join s) ≫= jc_addr))
  && bool_decide (is_Some (ls_wallet s)) && jf_confirming (ls_join s).

(** The field for a transaction hash is on the screen. *)
Definition tx_shown (s : ListState) : bool :=
  bool_decide (is_Some (card_price (ls_join s))) && bool_decide (is_Some (jf_card (ls_join s) ≫= jc_addr)) && negb (bool_decide (is_Some (ls_wallet s))).

Definition when (b : bool) (x : ListState * list Out) (s : ListState) : ListState * list Out := if b then x else (s, []).
Definition type_uri (v : list Z) (s : ListState) : ListState := with_join (mkJF v None [] (jf_confirming (ls_join s))) s.

Definition step (s : ListState) (e : Ev) : ListState * list Out :=
  let f := ls_join s in
  match e with
  | EPlus => when (ls_identity s) (with_dialogs (ls_dialog s) (negb (ls_plus s)) (ls_createOpen s) s, []) s
  | EPlusAway => when (ls_plus s) (with_dialogs (ls_dialog s) false (ls_createOpen s) s, []) s
  | EOpenAdd => when (ls_plus s) (with_dialogs (Some DlgAdd) false (ls_createOpen s) s, []) s
  | EOpenJoin => when (ls_plus s) (with_dialogs (Some DlgJoin) false (ls_createOpen s) s, [OCall APayWallet]) s
  | EOpenCreate => when (ls_plus s) (with_dialogs (ls_dialog s) false true s, [OMessagesTab]) s
  | ECloseDialog => (set_dialog None s, [])
  | EEscape => when (bool_decide (is_Some (ls_dialog s)) || ls_plus s) (with_dialogs None false (ls_createOpen s) s, []) s
  | EBack => when (in_dialog DlgJoin s) (if jf_confirming f then set_confirming false s else set_dialog None s, []) s
  | ETypeUri v => when (in_dialog DlgJoin s) (type_uri v s, []) s
  | ETypeTx v => when (in_dialog DlgJoin s && tx_shown s) (with_join (mkJF (jf_uri f) (jf_card f) v (jf_confirming f)) s, []) s
  | ETypeAdd uri note => when (in_dialog DlgAdd s) (with_add uri note s, []) s
  | EEnterJoin => when (in_dialog DlgJoin s) (submitJoin s) s
  | EClickJoin => when (in_dialog DlgJoin s && negb (join_disabled s)) (submitJoin s) s
  | ESubmitAdd => when (in_dialog DlgAdd s) (submitAdd s) s
  | ECreate cf => match create_submit (negb (free s)) (ls_wallet s) cf with
                  | Some (name, members, profile) => when (ls_createOpen s) (createGroup name members profile s) s
                  | None => (s, [])
                  end
  | ECloseCreate => (with_dialogs (ls_dialog s) (ls_plus s) false s, [])
  | EAccept id => when (free s) (run (js "accept:" ++ id) JAccept (AAccept id None) s) s
  | EReject id => when (free s) (run (js "reject:" ++ id) JReject (AReject id) s) s
  | EWallet w => (with_owner (ls_identity s) w s, [])
  | EIdentity b => (with_owner b (ls_wallet s) s, [])
  | EAnswer a => answer a s
  end.

Fixpoint run_list (evs : list Ev) (s : ListState) : ListState * list Out :=
  match evs with
  | [] => (s, [])
  | e :: r => let x := step s e in let y := run_list r x.1 in (y.1, x.2 ++ y.2)
  end.
End dialogs.

(** * Theorems *)

Section consent.
Context (t : list Z → list (list Z * list Z) → list Z).
#[local] Notation step := (step t).
#[local] Notation run_list := (run_list t).

Definition is_payment (o : Out) : bool := match o with OCall (AGroupPaidJoin _) => true | _ => false end.
Definition payments (os : list Out) : nat := length (filterb is_payment os).
(** How often the dialog went from not asking to asking for consent. *)
Fixpoint asked (evs : list Ev) (s : ListState) : nat :=
  match evs with
  | [] => 0
  | e :: r => (if negb (jf_confirming (ls_join s)) && jf_confirming (ls_join (step s e).1) then 1 else 0) + asked r (step s e).1
  end.

(** The consent a running lookup captured. *)
Definition captured (s : ListState) : option bool := match ls_job s with Some (JLookup _ _ _ c) => Some c | _ => None end.
(** A consent that may still be used: shown, or captured by a running lookup. *)
Definition open_consent (s : ListState) : bool := jf_confirming (ls_join s) || (captured s ?? false).
Definition busy_ok (s : ListState) : Prop := is_Some (ls_busy s) ↔ is_Some (ls_job s).
Definition consent_ok (s : ListState) : Prop := busy_ok s ∧ (captured s = Some false → jf_confirming (ls_join s) = false).
#[local] Notation n b := (Nat.b2n b) (only parsing).
#[local] Notation conf s := (jf_confirming (ls_join s)).

(** Steps that send no payment and neither raise nor use a consent. *)
Definition quiet (s : ListState) (x : ListState * list Out) : Prop :=
  payments x.2 = 0%nat ∧ (conf x.1 = conf s ∨ conf x.1 = false) ∧ busy_ok x.1 ∧
  (captured x.1 = captured s ∨ captured x.1 = None ∨ (captured x.1 = Some (conf s) ∧ conf x.1 = conf s)).

Definition accounted (s : ListState) (x : ListState * list Out) : Prop :=
  consent_ok x.1 ∧ (payments x.2 + n (open_consent x.1) ≤ n (open_consent s) + n (negb (conf s) && conf x.1))%nat.

Lemma quiet_consent (s : ListState) (x : ListState * list Out) : consent_ok s → quiet s x → accounted s x.
Proof.
  intros [Hb Hj] (Hp & Hc & Hb' & Hjob). unfold accounted, consent_ok, open_consent. rewrite Hp.
  destruct (captured s) as [[]|], (captured x.1) as [[]|], (conf s), (conf x.1); cbn;
    (split; [split; [done|]|]); try done; try lia; try (by specialize (Hj eq_refl));
    destruct Hc, Hjob as [?|[?|[? ?]]]; simplify_eq.
Qed.

Lemma quiet_same (s : ListState) : consent_ok s → quiet s (s, []).
Proof. intros [? _]. repeat split; eauto; apply H. Qed.
Lemma quiet_when (b : bool) (x : ListState * list Out) (s : ListState) : consent_ok s → quiet s x → quiet s (when b x s).
Proof. intros. destruct b; [done|by apply quiet_same]. Qed.
Lemma quiet_run (s : ListState) key j c :
  is_payment (OCall c) = false → captured (run key j c s).1 = None ∨ captured (run key j c s).1 = Some (conf s) → quiet s (run key j c s).
Proof. intros Hc Hj. unfold quiet, payments, busy_ok. cbn -[is_payment] in *. rewrite Hc. repeat split; eauto. destruct Hj; eauto. Qed.

(** What a run does when it goes on or ends, from any state that kept or dropped the consent. *)
Lemma quiet_next (s s1 : ListState) (x : ListState * list Out) (os : list Out) :
  (conf s1 = conf s ∨ conf s1 = false) → is_Some (ls_busy s1) → payments os = 0%nat →
  (∃ l, x = finish l s1) ∨ (∃ m, x = failed m s1) ∨ (∃ j c, x = await j c s1 ∧ is_payment (OCall c) = false ∧ captured x.1 = None) →
  quiet s (also os x).
Proof.
  intros Hc Hb Ho Hx. destruct Hx as [[l ->]|[[m ->]|(j & c & -> & Hp & Hj)]]; unfold quiet, also, payments, busy_ok; cbn -[is_payment];
    rewrite ?filterb_app, ?length_app; fold (payments os); rewrite ?Ho; cbn -[is_payment]; rewrite ?Hp; repeat split; eauto.
  all: intros [? [=]].
Qed.

Ltac run_goes_on s1 :=
  apply (quiet_next _ s1); [by eauto|done|done|first [left; by eexists | right; left; by eexists | right; right; do 2 eexists; by split_and!]].

Lemma looked_up_consent uri tx w c card (s : ListState) :
  consent_ok s → ls_job s = Some (JLookup uri tx w c) → accounted s (looked_up t uri tx w c card s).
Proof.
  intros Hok Hj. assert (Hb : is_Some (ls_busy s)) by (apply (proj1 Hok); rewrite Hj; eauto).
  assert (Hcap : captured s = Some c) by (unfold captured; by rewrite Hj).
  assert (Hq : ∀ x, quiet s (also [] x) → accounted s x) by (intros [x o]; apply quiet_consent, Hok).
  unfold looked_up. destruct (dialog_terms card) as [[[price|] [addr|]]|]; cycle 1;
    try (apply Hq; run_goes_on (set_card (shown_card card) s)).
  destruct w; [destruct c|case_match; apply Hq; run_goes_on (set_card (shown_card card) s)].
  - unfold accounted, consent_ok, open_consent, busy_ok. cbn. rewrite Hcap. split; [split; eauto|]; [done|]. destruct (conf s); cbn; lia.
  - destruct Hok as [_ Hc]. specialize (Hc Hcap). unfold accounted, consent_ok, open_consent, busy_ok; cbn. rewrite Hc, Hcap. cbn. split; [split|]; eauto; done.
Qed.

Lemma answer_consent (a : Ans) (s : ListState) : consent_ok s → accounted s (answer t a s).
Proof.
  intros Hok. unfold answer. destruct (ls_job s) as [j|] eqn:Hj; [|by apply quiet_consent, quiet_same].
  assert (Hb : is_Some (ls_busy s)) by (apply (proj1 Hok); rewrite Hj; eauto).
  assert (Hq : ∀ x, quiet s (also [] x) → accounted s x) by (intros [x o]; apply quiet_consent, Hok).
  destruct j as [uri tx w c|price|[]| | | | |]; destruct a; try (by apply quiet_consent, quiet_same); try (by apply looked_up_consent);
    try (apply Hq; run_goes_on s).
  all: try (apply quiet_consent; [done|]; unfold selecting; try case_match; run_goes_on (cleared false s)).
  all: try (apply quiet_consent; [done|]; case_match; run_goes_on (cleared true s)).
  - apply Hq. run_goes_on (set_dialog None (with_add [] [] s)).
  - apply quiet_consent; [done|]. run_goes_on (with_dialogs (ls_dialog s) (ls_plus s) false s).
  - apply quiet_consent; [done|]. run_goes_on s.
  - apply quiet_consent; [done|]. unfold quiet, busy_ok; cbn. repeat split; eauto; by intros [? ?].
Qed.

Lemma step_consent (s : ListState) (e : Ev) : consent_ok s → accounted s (step s e).
Proof.
  intros Hok. pose proof (proj1 Hok) as Hb. destruct e; cbn [step]; try (by apply answer_consent);
    apply quiet_consent; try done; try (apply quiet_when; [done|]);
    try (unfold quiet; cbn; repeat split; eauto; by apply Hb).
  all: try (apply quiet_run; cbn; eauto; fail).
  - case_match; unfold quiet; cbn; repeat split; eauto; by apply Hb.
  - unfold submitJoin. case_match; [by apply quiet_same|]. apply quiet_run; cbn; eauto.
  - unfold submitJoin. case_match; [by apply quiet_same|]. apply quiet_run; cbn; eauto.
  - unfold submitAdd. case_match; [by apply quiet_same|]. apply quiet_run; cbn; eauto.
  - repeat case_match; subst; [|by apply quiet_same]. apply quiet_when; [done|]. unfold createGroup. case_match; [|by apply quiet_same].
    apply quiet_run; cbn; eauto.
Qed.

Lemma run_accounted (evs : list Ev) (s : ListState) :
  consent_ok s → (payments (run_list evs s).2 + n (open_consent (run_list evs s).1) ≤ n (open_consent s) + asked evs s)%nat.
Proof.
  revert s. induction evs as [|e r IH]; intros s Hok; [cbn; lia|]. cbn [JoinDialog.run_list asked].
  destruct (step_consent s e Hok) as [Hok1 Hstep]. destruct (step s e) as [s1 o1] eqn:E1. cbn [fst snd] in *.
  specialize (IH s1 Hok1). destruct (run_list r s1) as [s2 o2]. cbn [fst snd] in *.
  unfold payments in *. rewrite filterb_app, length_app.
  destruct (negb (conf s) && conf s1); cbn [Nat.b2n] in Hstep; lia.
Qed.

(** C13. The join dialog never pays more often than it asked: in every run of the
    column, from its first render, each payment uses up one appearance of the
    request for consent. *)
Theorem payments_confirmed (evs : list Ev) : (payments (run_list evs NEW_LIST).2 ≤ asked evs NEW_LIST)%nat.
Proof.
  assert (Hok : consent_ok NEW_LIST) by (repeat split; cbn; try done; by intros [? ?]).
  pose proof (run_accounted evs NEW_LIST Hok) as H. cbn in H. lia.
Qed.

(** ** Which group is paid *)

Definition types_uri (e : Ev) : bool := match e with ETypeUri _ => true | _ => false end.
Definition lookup_uri (s : ListState) : option (list Z) := match ls_job s with Some (JLookup uri _ _ _) => Some uri | _ => None end.
Definition about (u : list Z) (s : ListState) : Prop :=
  (jf_uri (ls_join s) = u ∨ jf_uri (ls_join s) = []) ∧ (∀ v, lookup_uri s = Some v → v = trim u).
Definition pays_only (u : list Z) (os : list Out) : Prop := ∀ v, OCall (AGroupPaidJoin v) ∈ os → v = trim u.

Lemma pays_only_nil u : pays_only u [].
Proof. intros v Hv. by apply elem_of_nil in Hv. Qed.
Lemma pays_only_cons u o os : (∀ v, o = OCall (AGroupPaidJoin v) → v = trim u) → pays_only u os → pays_only u (o :: os).
Proof. intros Ho Hos v [Hv|Hv]%elem_of_cons; [by apply Ho|by apply Hos]. Qed.
Lemma pays_only_app u os os' : pays_only u os → pays_only u os' → pays_only u (os ++ os').
Proof. intros ? ? v [Hv|Hv]%elem_of_app; auto. Qed.
#[local] Hint Resolve pays_only_nil pays_only_app : dsh.
#[local] Hint Extern 2 (pays_only _ (_ :: _)) => apply pays_only_cons; [by intros|] : dsh.

Lemma submit_about (u : list Z) (s : ListState) : about u s → about u (submitJoin s).1 ∧ pays_only u (submitJoin s).2.
Proof.
  intros [Hu Hl]. unfold submitJoin. case_match; [by repeat split; auto with dsh|]. repeat split; cbn; auto with dsh.
  intros v [= <-]. bools. destruct Hu as [->|Hn]; [done|]. by rewrite Hn in *.
Qed.

Lemma looked_up_about (u uri tx : list Z) w c card (s : ListState) :
  about u s → uri = trim u → about u (looked_up t uri tx w c card s).1 ∧ pays_only u (looked_up t uri tx w c card s).2.
Proof.
  intros [Hu Hl] ->. unfold looked_up. repeat case_match; repeat split; cbn; auto with dsh; try by intros.
  apply pays_only_cons; [by intros v [= <-]|auto with dsh].
Qed.

Lemma answer_about (u : list Z) (a : Ans) (s : ListState) : about u s → about u (answer t a s).1 ∧ pays_only u (answer t a s).2.
Proof.
  intros Ha. pose proof Ha as [Hu Hl]. unfold answer, lookup_uri in *.
  destruct (ls_job s) as [[]|] eqn:Hj; destruct a; try (apply looked_up_about; auto; fail); unfold selecting, about, lookup_uri; cbn; rewrite ?Hj;
    repeat case_match; simplify_eq/=; repeat split; cbn; rewrite ?Hj; auto 6 with dsh; try done.
Qed.

Lemma step_about (u : list Z) (s : ListState) (e : Ev) :
  about u s → types_uri e = false → about u (step s e).1 ∧ pays_only u (step s e).2.
Proof.
  intros Ha He. pose proof Ha as [Hu Hl].
  assert (Hsame : about u s ∧ pays_only u []) by auto with dsh.
  destruct e; try done; cbn [JoinDialog.step]; unfold when; try (case_match; [|exact Hsame]); try (by apply submit_about); try (by apply answer_about);
    try (by repeat split; cbn; auto with dsh).
  - case_match; repeat split; cbn; auto with dsh.
  - unfold submitAdd. case_match; [exact Hsame|]. repeat split; cbn; auto with dsh; done.
  - unfold createGroup, when. repeat case_match; try exact Hsame; repeat split; cbn; auto with dsh; done.
Qed.

(** As long as the owner does not retype the link, every payment of the join
    dialog goes to the group whose link was typed. *)
Theorem payment_for_typed_link (u v : list Z) (evs : list Ev) (s : ListState)
  (Hs : ls_job s = None ∧ jf_uri (ls_join s) = u) (Hevs : Forall (λ e, types_uri e = false) evs)
  (Hv : OCall (AGroupPaidJoin v) ∈ (run_list evs s).2) : v = trim u.
Proof.
  assert (Ha : about u s) by (split; [by left; apply Hs|]; unfold lookup_uri; rewrite (proj1 Hs); done). clear Hs.
  revert s Ha Hv. induction Hevs as [|e r He Hr IH]; intros s Ha Hv; [by apply elem_of_nil in Hv|].
  cbn [JoinDialog.run_list] in Hv. destruct (step_about u s e Ha He) as [Ha1 Hp]. destruct (step s e) as [s1 o1]. cbn [fst snd] in *.
  specialize (IH s1 Ha1). destruct (run_list r s1) as [s2 o2]. cbn [fst snd] in *. apply elem_of_app in Hv as [Hv|Hv]; auto.
Qed.

(** ** Consent outlives the dialog *)

(** The owner looks at group [a], is asked to pay and closes the dialog; later
    opens it again and types the link of group [b]. *)
Definition declined (w a b : list Z) (ca : GroupCardView) : list Ev :=
  [EIdentity true; EWallet (Some w); EPlus; EOpenJoin; ETypeUri a; EClickJoin; EAnswer (AnsCard (Some ca)); EAnswer AnsDone; ECloseDialog;
   EPlus; EOpenJoin; EWallet (Some w); ETypeUri b].
(** One press of the button, up to the card of [b]. *)
Definition pressed (cb : GroupCardView) : list Ev := [EClickJoin; EAnswer (AnsCard (Some cb))].
Fixpoint states (evs : list Ev) (s : ListState) : list ListState :=
  match evs with [] => [] | e :: r => s :: states r (step s e).1 end.

Lemma run_next (e : Ev) (r : list Ev) (s s1 : ListState) (o : list Out) : step s e = (s1, o) → (run_list (e :: r) s).1 = (run_list r s1).1.
Proof. intros H. cbn. by rewrite H. Qed.

(** Evaluates one step on a concrete state; [H] decides whether the link is empty. *)
Ltac evaluate H :=
  cbv -[jeqb trim dialog_terms shown_card js groupKey elem_of looked_up];
  repeat (rewrite H; cbv -[jeqb trim dialog_terms shown_card js groupKey elem_of looked_up]).
Ltac next H Hc := erewrite run_next; [|evaluate H; try (unfold looked_up; rewrite Hc); reflexivity].

(** C11. A request for consent that the owner turned down by closing the dialog
    stays open: with the dialog opened again for another group, one press pays
    that group, with no price and no request for consent on the screen. *)
Theorem consent_carries_over (w a b pa aa pb ab : list Z) (ca cb : GroupCardView)
  (Ha : trim a ≠ []) (Hb : trim b ≠ []) (Hca : dialog_terms (Some ca) = Some (Some pa, Some aa)) (Hcb : dialog_terms (Some cb) = Some (Some pb, Some ab)) :
  let before := (run_list (declined w a b ca) NEW_LIST).1 in
  OCall (AGroupPaidJoin (trim b)) ∈ (run_list (pressed cb) before).2 ∧
  Forall (λ s, confirm_shown s = false ∧ card_price (ls_join s) = None) (states (pressed cb) before).
Proof.
  apply jeqb_neq in Ha, Hb.
  set (s1 := mkLS None None (Some DlgJoin) false false true (Some w) [] [] (mkJF b None [] true) None).
  assert (H1 : (run_list (declined w a b ca) NEW_LIST).1 = s1).
  { unfold declined, s1. repeat next Ha Hca. reflexivity. }
  cbv zeta. rewrite H1. unfold s1, pressed. cbn [JoinDialog.run_list states]. split; evaluate Hb.
  - unfold looked_up. rewrite Hcb. cbn. right. left.
  - repeat constructor; done.
Qed.
End consent.

(** ** Groups created as paid *)

Lemma non_empty_id (s : list Z) : s ≠ [] → non_empty s = Some s.
Proof. intros. by apply non_empty_Some. Qed.

(** A group created as paid carries the price that was typed and the owner's
    wallet, and the host reads exactly these as its joining terms; without a
    wallet or a price the dialog creates nothing. *)
Theorem created_terms (busy : bool) (wallet : option (list Z)) (f : CreateForm) (name : list Z) (members : list (list Z)) (p : GroupProfile)
  (Hpaid : av_join (cf_adv f) = js "paid") (Hw : ∀ w, wallet = Some w → startsWith w (js "0x") = true)
  (Hc : create_submit busy wallet f = Some (name, members, p)) :
  ∃ w, wallet = Some w ∧ paidJoinConfig (Some (paid_fields p)) = Some (mkPaid (trim (av_joinPrice (cf_adv f))) w) ∧
       trim (av_joinPrice (cf_adv f)) ≠ [] ∧ trim name = name ∧ name ≠ [] ∧ members ≠ [].
Proof.
  unfold create_submit, create_ready, paidIncomplete in Hc. rewrite Hpaid, jeqb_refl in Hc. case_match eqn:Hready; [|done]. simplify_eq. bools. cbn in *.
  match goal with H : negb _ || _ = false |- _ => apply orb_false_iff in H as [Hsome Hprice] end. bools. destruct Hsome as [w ->].
  exists w. specialize (Hw w eq_refl). split; [done|]. split.
  - unfold form_profile. rewrite Hpaid, jeqb_refl, bool_decide_true, Hprice by eauto. cbn -[jeqb trim startsWith js non_empty].
    rewrite (non_empty_id (trim _)), (non_empty_id w) by (first [by apply jeqb_neq | by intros ->]).
    rewrite (non_empty_id (js "paid")) by done. cbn -[js startsWith]. by rewrite Hw.
  - split_and!; [by apply jeqb_neq|by rewrite trim_idem|by apply jeqb_neq|].
    match goal with H : Nat.eqb _ 0 = false |- _ => by intros E; rewrite E in H end.
Qed.

(** ** Witnesses *)

Definition key_only (k : list Z) (params : list (list Z * list Z)) : list Z := k.
Definition club (price : list Z) : GroupCardView := mkCard (js "g1") (js "Club") (js "paid") 3 (Some price) (Some (js "0xclub")) None None.
Definition visited : ListState := (run_list key_only [EIdentity true; EWallet (Some (js "0xme")); EPlus; EOpenJoin; ETypeUri (js "link ")] NEW_LIST).1.
Definition twice : list Ev := [EClickJoin; EAnswer (AnsCard (Some (club (js "5")))); EAnswer AnsDone; EClickJoin; EAnswer (AnsCard (Some (club (js "5"))))].

Lemma payment_for_typed_link_witness :
  OCall (AGroupPaidJoin (js "link")) ∈ (run_list key_only twice visited).2 ∧ js "link" = trim (js "link ").
Proof.
  assert (H : OCall (AGroupPaidJoin (js "link")) ∈ (run_list key_only twice visited).2) by (vm_compute; repeat first [left | right]).
  split; [exact H|]. apply (payment_for_typed_link key_only (js "link ") (js "link") twice visited); [by vm_compute|by repeat constructor|exact H].
Defined.

Lemma consent_carries_over_witness :
  OCall (AGroupPaidJoin (js "b"))
    ∈ (run_list key_only (pressed (club (js "1000"))) (run_list key_only (declined (js "0xme") (js "a") (js "b") (club (js "1"))) NEW_LIST).1).2.
Proof.
  change (js "b") with (trim (js "b")) at 1.
  apply (consent_carries_over key_only (js "0xme") (js "a") (js "b") (js "1") (js "0xclub") (js "1000") (js "0xclub") (club (js "1")) (club (js "1000")));
    [done|done|reflexivity|reflexivity].
Defined.

Definition paid_form : CreateForm :=
  mkCF (js " Club") [(js "f1", true); (js "f2", false)] (pick_join (js "paid") (mkAdv true true (js "all") (js "invite") (js "5 ") (js "mention") (js "draft") [] false (js "a, b"))).
Lemma created_terms_witness :
  ∃ p, create_submit false (Some (js "0xme")) paid_form = Some (js "Club", [js "f1"], p) ∧ paidJoinConfig (Some (paid_fields p)) = Some (mkPaid (js "5") (js "0xme")).
Proof.
  eexists. split; [by vm_compute|].
  match goal with |- paidJoinConfig (Some (paid_fields ?p)) = _ =>
    destruct (created_terms false (Some (js "0xme")) paid_form (js "Club") [js "f1"] p) as (w & Hw & Ht & _); [by vm_compute|by intros w [= <-]|by vm_compute|] end.
  injection Hw as <-. exact Ht.
Defined.
