(* ===== verification/HostPlugin.v ===== *)
(** * The network plugin (index.ts)

    [apply]: which settings are in force, which backend and gateway the plugin
    starts, how the gateway follows the settings, and the listener that verifies
    and approves paid applications by itself. The settings service is a
    parameter: the model takes the section it answers. *)

From S2P Require Import Prelude JsString Json Policy Settings GroupContract Network FakeNetwork PayTools ApiRoutes SoulnetCalls Paygate Scenarios ApiScenarios.
#[local] Open Scope Z_scope.

(** ** Settings in force *)

#[export] Instance CdpNetwork_eq_dec : EqDecision CdpNetwork.
Proof. solve_decision. Defined.

Definition network_str (n : CdpNetwork) : list Z := match n with NetSepolia => js "base-sepolia" | NetBase => js "base" end.
(** The settings the gateway reads. *)
Definition paygate_settings (s : SoulmirrorSettings) : PaygateSettings :=
  mkPaySettings (se_paygateBinary s) (se_paygatePort s) (se_paygateProxy s) (se_cdpKeyId s) (se_cdpKeySecret s) (se_cdpWalletSecret s) (network_str (se_cdpNetwork s)).

Definition paygateFieldsChanged (a b : SoulmirrorSettings) : bool :=
  negb (jeqb (se_cdpKeyId a) (se_cdpKeyId b)) || negb (jeqb (se_cdpKeySecret a) (se_cdpKeySecret b)) || negb (jeqb (se_cdpWalletSecret a) (se_cdpWalletSecret b))
  || negb (bool_decide (se_cdpNetwork a = se_cdpNetwork b)) || negb (jeqb (se_paygateProxy a) (se_paygateProxy b))
  || negb (se_paygatePort a =? se_paygatePort b) || negb (jeqb (se_paygateBinary a) (se_paygateBinary b)).

(** ** The plugin *)

Record Plugin := mkPlugin {
  pl_effective : SoulmirrorSettings;             (** what the backend was started with *)
  pl_live : SoulmirrorSettings;
  pl_registered : bool;                          (** the settings section is watched *)
  pl_home : list Z;
  pl_gateway : option Paygate;                   (** none beside the fake backend *)
  pl_applied : option SoulmirrorSettings }.      (** [paygateApplied] *)

Section plugin.
(** What spawning the gateway does: the binary found, the error of a spawn that throws. *)
Context (found throws : option (list Z)).
(** [$SOULNET_HOME] and the user's home directory. *)
Context (SOULNET_HOME : option (list Z)) (homedir : list Z) (path_join : list Z → list Z → list Z).

Definition syncPaygate (p : Plugin) : Plugin :=
  match pl_gateway p with
  | None => p
  | Some gw =>
      match pl_applied p with
      | None => mkPlugin (pl_effective p) (pl_live p) (pl_registered p) (pl_home p) (pl_gateway p) (Some (pl_live p))
      | Some applied =>
          if paygateFieldsChanged applied (pl_live p)
          then mkPlugin (pl_effective p) (pl_live p) (pl_registered p) (pl_home p)
                 (Some (restart (pl_home p) (paygate_settings (pl_live p)) found throws gw)) (Some (pl_live p))
          else p
      end
  end.

Definition home_of (s : SoulmirrorSettings) : list Z := if jeqb (se_home s) [] then defaultSoulnetHome path_join SOULNET_HOME homedir else se_home s.
Definition is_fake (s : SoulmirrorSettings) : bool := match se_backend s with BFake => true | BSoulnet => false end.

(** [apply]; [section] is the resolved section when the settings service is there already. *)
Definition load_plugin (config : PartialSettings) (section : option PartialSettings) : Plugin :=
  let effective := match section with Some s => resolveSettings (Some s) | None => resolveSettings (Some config) end in
  let gw := if is_fake effective then None
            else Some (start (home_of effective) (paygate_settings effective) found throws (createPaygateClient (paygate_settings effective))) in
  mkPlugin effective effective (bool_decide (is_Some section)) (home_of effective) gw (if is_fake effective then None else Some effective).

Definition with_live (s : SoulmirrorSettings) (p : Plugin) : Plugin := mkPlugin (pl_effective p) s true (pl_home p) (pl_gateway p) (pl_applied p).
Definition with_gateway (f : Paygate → Paygate) (p : Plugin) : Plugin :=
  mkPlugin (pl_effective p) (pl_live p) (pl_registered p) (pl_home p) (f <$> pl_gateway p) (pl_applied p).

Inductive PluginEv :=
| PSettings (section : PartialSettings)          (** the service arrives late: the section is registered *)
| PChanged (section : PartialSettings)           (** the watched section changed *)
| PExit (i : nat) (code : list Z)                (** a gateway process ends *)
| PError (i : nat) (message : list Z).

Definition plugin_step (p : Plugin) (e : PluginEv) : Plugin :=
  match e with
  | PSettings s => if pl_registered p then p else syncPaygate (with_live (resolveSettings (Some s)) p)
  | PChanged s => if pl_registered p then syncPaygate (with_live (resolveSettings (Some s)) p) else p
  | PExit i code => with_gateway (gateway_exits i code) p
  | PError i message => with_gateway (gateway_errors i message) p
  end.
End plugin.

(** ** Paid applications *)

Inductive AutoOutcome :=
| Ignored                              (** another event, no payment, or no paid group *)
| Approved (noticed : bool)
| NotVerified (reason : list Z)
| CheckFailed (e : NetworkError).

Section auto.
Context {S : Type} `{NetworkClient S}.
Context (call : PayCall S).

Definition joiner (req : GroupApplication) : list Z :=
  if negb (jeqb (ap_name req) []) then ap_name req else if (10 <? length (ap_fp req))%nat then take 10 (ap_fp req) ++ js "…" else ap_fp req.
Definition paid_notice (req : GroupApplication) (p : JoinPayment) : list Z :=
  js "✅ " ++ joiner req ++ js " paid " ++ pay_amount p ++ js " USDC and joined the group".

(** The approval and its announcement, which may fail. *)
Definition approve_and_tell (gid : list Z) (req : GroupApplication) (p : JoinPayment) : IO S AutoOutcome :=
  _ ← net_groups_approve gid (ap_fp req);
  catch (_ ← net_groups_send gid (paid_notice req p) (Some (mkGroupSendOptions (Some (js "owner")) None None)); mret (Approved true))
        (λ _, mret (Approved false)).

Definition verify_application (gid : list Z) (req : GroupApplication) (p : JoinPayment) : IO S AutoOutcome :=
  g ← net_groups_info gid;
  match group_terms g with
  | None => mret Ignored
  | Some terms =>
      v ← call POST P_VERIFY (Some (verify_body terms p));
      match v with
      | JNull => throw (mkErr (js "Cannot read properties of null (reading 'valid')") 0)
      | _ => if is_true (get v (js "valid")) then approve_and_tell gid req p
             else mret (NotVerified (as_string (get v (js "reason")) ?? js "invalid"))
      end
  end.

(** The subscriber of the plugin. *)
Definition on_network_event (ev : NetworkEvent) : IO S AutoOutcome :=
  match ev with
  | EvGroupApplication gid req =>
      match ap_payment req with
      | Some p => catch (verify_application gid req p) (λ e, mret (CheckFailed e))
      | None => mret Ignored
      end
  | _ => mret Ignored
  end.

(** * Theorems *)

(** From [n] to [n']: the group was read and the gateway confirmed the payment
    against the terms published there. *)
Definition published_verified (gid : list Z) (p : JoinPayment) (n n' : S) : Prop :=
  ∃ g terms v n1, net_groups_info gid n = (inr g, n1) ∧ group_terms g = Some terms ∧
    call POST P_VERIFY (Some (verify_body terms p)) n1 = (inr v, n') ∧ get v (js "valid") = Some (JBool true).

(** The states a listener that approves nothing can leave: the group was read, and
    at most one question was put to the gateway. *)
Definition only_read (gid : list Z) (p : JoinPayment) (n n' : S) : Prop :=
  n' = (net_groups_info gid n).2 ∨ ∃ terms, n' = (call POST P_VERIFY (Some (verify_body terms p)) (net_groups_info gid n).2).2.

Lemma verify_outcome (gid : list Z) (req : GroupApplication) (p : JoinPayment) (n : S) :
  (∃ r n', verify_application gid req p n = (r, n') ∧ only_read gid p n n' ∧ ∀ b, r ≠ inr (Approved b)) ∨
  (∃ n1, published_verified gid p n n1 ∧ verify_application gid req p n = approve_and_tell gid req p n1).
Proof.
  unfold verify_application, only_read, published_verified, mbind, io_bind.
  destruct (net_groups_info gid n) as [[e|g] n1] eqn:Hi; cbn [snd]; [left; by eauto 6|].
  destruct (group_terms g) as [terms|] eqn:Ht; [|left; by eauto 6].
  destruct (call POST P_VERIFY (Some (verify_body terms p)) n1) as [[e|v] n2] eqn:Hv.
  { left. do 2 eexists. split_and!; [done|right; exists terms; by rewrite Hv|done]. }
  destruct (is_true (get v (js "valid"))) eqn:Hvalid.
  - right. exists n2. apply is_true_true in Hvalid. split; [by exists g, terms, v, n1|by destruct v].
  - left. destruct v; (do 2 eexists; split_and!; [done|right; exists terms; by rewrite Hv|done]).
Qed.

(** C8. The listener never fails, and approves an application by itself only
    after the gateway confirmed its payment against the price and address the
    group publishes; in every other case the backend sees at most a read of the
    group and one question to the gateway. *)
Theorem auto_approval_verified (ev : NetworkEvent) (n : S) :
  ∃ out n', on_network_event ev n = (inr out, n') ∧
    ((n' = n ∧ out = Ignored) ∨
     ∃ gid req p, ev = EvGroupApplication gid req ∧ ap_payment req = Some p ∧
       ((only_read gid p n n' ∧ ∀ b, out ≠ Approved b) ∨
        (∃ n1, published_verified gid p n n1 ∧ on_network_event ev n = catch (approve_and_tell gid req p) (λ e, mret (CheckFailed e)) n1))).
Proof.
  destruct ev; try (by exists Ignored, n; split; [done|left]). rename a into req. cbn [on_network_event].
  destruct (ap_payment req) as [p|] eqn:Hp; [|by exists Ignored, n; split; [done|left]].
  destruct (verify_outcome gid req p n) as [(r & n' & Hr & Ho & Hna)|(n1 & Hv & Hr)].
  - exists (match r with inl e => CheckFailed e | inr o => o end), n'. unfold catch. rewrite Hr. split; [by destruct r|].
    right. exists gid, req, p. split_and!; try done. left. split; [done|]. intros b Hb. destruct r as [e|o]; [done|]. subst o. by apply (Hna b).
  - unfold catch. rewrite Hr. destruct (approve_and_tell gid req p n1) as [r n'] eqn:Ha.
    exists (match r with inl e => CheckFailed e | inr o => o end), n'. split; [by destruct r|].
    right. exists gid, req, p. split_and!; try done. right. exists n1. by rewrite Ha.
Qed.

Definition claiming (amount : list Z) (p : JoinPayment) : JoinPayment :=
  mkPayment (pay_tx_hash p) amount (pay_to p) (pay_payer p) (pay_proof p) (pay_note p).

(** The amount the group is told comes from the applicant: whatever amount an
    application claims, the gateway is asked the same question, and once it
    agrees the notice of the group names the claimed amount. *)
Theorem claimed_amount_announced (gid amount : list Z) (req : GroupApplication) (p : JoinPayment) (n n1 n2 : S)
  (Hp : ap_payment req = Some (claiming amount p)) (Hv : published_verified gid p n n1) (Ha : net_groups_approve gid (ap_fp req) n1 = (inr tt, n2)) :
  (on_network_event (EvGroupApplication gid req) n).2 =
  (net_groups_send gid (js "✅ " ++ joiner req ++ js " paid " ++ amount ++ js " USDC and joined the group")
     (Some (mkGroupSendOptions (Some (js "owner")) None None)) n2).2.
Proof.
  destruct Hv as (g & terms & v & n0 & Hi & Ht & Hc & Hval). cbn [on_network_event]. rewrite Hp.
  unfold catch, verify_application, mbind, io_bind. rewrite Hi, Ht. change (verify_body terms (claiming amount p)) with (verify_body terms p). rewrite Hc, Hval.
  destruct v; try done; cbn [is_true]; unfold approve_and_tell, mbind, io_bind; rewrite Ha; unfold catch; change (pay_amount (claiming amount p)) with amount;
    unfold paid_notice; change (pay_amount (claiming amount p)) with amount; by destruct (net_groups_send _ _ _ n2) as [[]].
Qed.
End auto.

(** ** The gateway follows the settings *)

Section follows.
Context (found SOULNET_HOME : option (list Z)) (homedir : list Z) (path_join : list Z → list Z → list Z).
#[local] Notation plugin_step := (plugin_step found None).
#[local] Notation load_plugin := (load_plugin found None SOULNET_HOME homedir path_join).

Lemma fields_unchanged (a b : SoulmirrorSettings) : paygateFieldsChanged a b = false → paygate_settings a = paygate_settings b.
Proof.
  unfold paygateFieldsChanged, paygate_settings. intros. bools.
  repeat match goal with H : jeqb _ _ = true |- _ => apply jeqb_eq in H end. congruence.
Qed.

Definition gateway_env (gw : Paygate) : option (list (list Z * list Z)) := gw_env <$> last (pay_procs gw).

Lemma last_alter_env (g : Gateway → Gateway) (i : nat) (l : list Gateway) : (∀ x, gw_env (g x) = gw_env x) → gw_env <$> last (alter g i l) = gw_env <$> last l.
Proof.
  intros Hg. rewrite !last_lookup, length_alter, list_lookup_alter. case_decide; [|done]. subst. destruct (l !! _); cbn; [by rewrite Hg|done].
Qed.

Definition follows (p : Plugin) : Prop :=
  ∀ gw, pl_gateway p = Some gw → pay_disposed gw = false ∧ gateway_env gw = Some (envFor (pl_home p) (paygate_settings (pl_live p))) ∧
    ∃ applied, pl_applied p = Some applied ∧ paygate_settings applied = paygate_settings (pl_live p).

Lemma spawn_env home s (gw : Paygate) :
  pay_disposed gw = false → pay_child gw = None →
  pay_disposed (spawnGateway home s found None gw) = false ∧ gateway_env (spawnGateway home s found None gw) = Some (envFor home s).
Proof. intros Hd Hc. unfold spawnGateway. rewrite Hd, Hc. cbn. unfold gateway_env. cbn. by rewrite last_snoc. Qed.

Lemma sync_follows (s : SoulmirrorSettings) (p : Plugin) : follows p → follows (syncPaygate found None (with_live s p)).
Proof.
  intros Hf gw'. unfold syncPaygate, with_live. cbn -[envFor paygate_settings]. destruct (pl_gateway p) as [gw|] eqn:Hg; [|cbn; by rewrite ?Hg].
  destruct (Hf gw Hg) as (Hd & He & applied & Ha & Hs). rewrite Ha. destruct (paygateFieldsChanged applied s) eqn:Hc; cbn -[envFor paygate_settings].
  - intros [= <-]. unfold restart. rewrite Hd.
    destruct (spawn_env (pl_home p) (paygate_settings s) (with_pay_status (starting (paygate_settings s)) (with_pay_child None (kill_child gw)))) as [Hd' He'].
    { unfold kill_child. by case_match. }
    { done. }
    split_and!; try done. by exists s.
  - cbn -[envFor paygate_settings]; rewrite ?Hg. intros [= <-]. apply fields_unchanged in Hc. split; [done|]. split; [|by exists applied]. by rewrite He, <-Hs, Hc.
Qed.

Lemma gateway_follows (f : Paygate → Paygate) (p : Plugin) :
  (∀ gw, pay_disposed (f gw) = pay_disposed gw ∧ gateway_env (f gw) = gateway_env gw) → follows p → follows (with_gateway f p).
Proof.
  intros Hff Hf gw' Hg. cbn in *. destruct (pl_gateway p) as [gw|] eqn:E; [|done]. cbn in Hg. injection Hg as <-.
  destruct (Hff gw) as [-> ->]. by apply Hf.
Qed.

Lemma step_follows (p : Plugin) (e : PluginEv) : follows p → follows (plugin_step p e).
Proof.
  intros Hf. destruct e; cbn [HostPlugin.plugin_step]; try (case_match; [|done] || case_match); try done; try (by apply sync_follows).
  all: apply gateway_follows; [|done]; intros gw; unfold gateway_exits, gateway_errors, gateway_env.
  all: repeat case_match; try done; cbn; (split; [done|]); by rewrite last_alter_env.
Qed.

(** Whatever happens to the settings section and to the gateway's processes,
    the gateway the plugin started last was given the payment settings now in
    force, as long as spawning does not throw. *)
Theorem gateway_follows_settings (config : PartialSettings) (section : option PartialSettings) (evs : list PluginEv) :
  follows (fold_left plugin_step evs (load_plugin config section)).
Proof.
  assert (H0 : follows (load_plugin config section)).
  { intros gw. unfold HostPlugin.load_plugin. cbn. case_match; [done|]. intros [= <-]. unfold start. cbn.
    split_and!; try done. eauto. }
  apply (run_inv _ follows); [done|]. intros p e. apply step_follows.
Qed.
End follows.

(** ** Witnesses *)

Definition proud : GroupApplication := mkApplication BOB (js "Bob") (js "hi") None (Some (mkPayment (js "0xtx") (js "1000000") WALLET (Some (js "0xbob")) None None)).
Definition modest : JoinPayment := mkPayment (js "0xtx") FEE WALLET (Some (js "0xbob")) None None.
Definition club_before : FakeState := net_state (api_start true).

Lemma claimed_amount_announced_witness :
  (on_network_event club_gateway (EvGroupApplication CLUB proud) club_before).2 =
  (net_groups_send CLUB (js "✅ Bob paid 1000000 USDC and joined the group") (Some (mkGroupSendOptions (Some (js "owner")) None None)) club_approved).2.
Proof.
  destruct (FakeNetwork.groupInfoOf CLUB club_before) as [[e|g] n] eqn:E; [vm_compute in E; discriminate|].
  assert (n = club_before) as -> by (vm_compute in E; injection E as _ <-; reflexivity).
  assert (js "✅ " ++ joiner proud ++ js " paid " ++ js "1000000" ++ js " USDC and joined the group" = js "✅ Bob paid 1000000 USDC and joined the group")
    as <- by (vm_compute; reflexivity).
  apply (claimed_amount_announced club_gateway CLUB (js "1000000") proud modest club_before club_before club_approved).
  - reflexivity.
  - exists g, (mkPaid FEE WALLET), (JObj [(js "valid", JBool true)]), club_before. split_and!; [exact E|vm_compute in E; injection E as <-; reflexivity|reflexivity|reflexivity].
  - vm_compute. reflexivity.
Defined.
