(* ===== verification/GroupPanel.v ===== *)
(** * The group pane (client/GroupPane.tsx)

    The host of a group room: the roster it shows and its cache, the fetches
    that fill it, the profile editor, the roster actions with their two-step
    confirmation. One instance of the component serves every group, so a fetch
    may answer after the pane has moved on. *)

From S2P Require Import Prelude JsString JsMap Json Policy GroupContract Memory Network InboxState PageState ApiRequest ApiRoutes ClientApi ClientViews JoinDialog.
#[local] Open Scope Z_scope.

Definition GROUP_MEMORY_MIN_UNREAD : Z := 20.

(** ** State *)

Record EditForm := mkEdit {
  ed_speakHumans : bool; ed_speakAgents : bool; ed_speakWho : list Z; ed_join : list Z; ed_agentWake : list Z; ed_agentTier : list Z;
  ed_joinPrice : list Z; ed_rules : list Z; ed_isPublic : bool; ed_tags : list Z }.
Definition NEW_EDIT : EditForm := mkEdit true true (js "all") (js "invite") (js "mention") (js "draft") [] [] false [].

(** What happens in an action after its request, before the roster is fetched. *)
Inductive Then := ThenNothing | ThenClearPin | ThenClearInvite | ThenCloseEditor | ThenGoAlter.
(** The awaits in progress: the fetch of the switch effect (cancelled when the
    effect is cleaned up), [refetchInfo] of the tab effect, the request of an
    action, the fetch and the refresh after it. *)
Inductive PCall :=
| PcEffect (gid : list Z) (cancelled : bool)
| PcRefetch (gid : list Z)
| PcAction (gid : list Z) (th : Then)
| PcAfter (gid : list Z)
| PcRefresh.

Record Pane := mkPane {
  pn_group : GroupRow; pn_chat : bool; pn_info : option GroupInfo; pn_busy : option (list Z); pn_error : option (list Z); pn_pin : list Z;
  pn_invite : list Z; pn_editOpen : bool; pn_edit : EditForm; pn_wallet : option (list Z); pn_confirming : option (list Z);
  pn_cache : list (list Z * GroupInfo); pn_calls : list PCall }.

Inductive POut := PoCall (c : ApiCall) | PoRefresh | PoMarkRead (gid : list Z) | PoClearApps (gid : list Z) | PoLoad (gid : list Z) | PoGoAlter.

Definition gid_of (s : Pane) : list Z := gr_gid (pn_group s).
Definition with_roster (i : option GroupInfo) (c : list (list Z * GroupInfo)) (s : Pane) : Pane :=
  mkPane (pn_group s) (pn_chat s) i (pn_busy s) (pn_error s) (pn_pin s) (pn_invite s) (pn_editOpen s) (pn_edit s) (pn_wallet s) (pn_confirming s) c (pn_calls s).
Definition with_awaits (l : list PCall) (s : Pane) : Pane :=
  mkPane (pn_group s) (pn_chat s) (pn_info s) (pn_busy s) (pn_error s) (pn_pin s) (pn_invite s) (pn_editOpen s) (pn_edit s) (pn_wallet s) (pn_confirming s) (pn_cache s) l.
Definition with_busy (b e : option (list Z)) (s : Pane) : Pane :=
  mkPane (pn_group s) (pn_chat s) (pn_info s) b e (pn_pin s) (pn_invite s) (pn_editOpen s) (pn_edit s) (pn_wallet s) (pn_confirming s) (pn_cache s) (pn_calls s).
Definition with_fields (pin invite : list Z) (s : Pane) : Pane :=
  mkPane (pn_group s) (pn_chat s) (pn_info s) (pn_busy s) (pn_error s) pin invite (pn_editOpen s) (pn_edit s) (pn_wallet s) (pn_confirming s) (pn_cache s) (pn_calls s).
Definition with_editor (open : bool) (e : EditForm) (s : Pane) : Pane :=
  mkPane (pn_group s) (pn_chat s) (pn_info s) (pn_busy s) (pn_error s) (pn_pin s) (pn_invite s) open e (pn_wallet s) (pn_confirming s) (pn_cache s) (pn_calls s).
Definition with_view (g : GroupRow) (chat : bool) (s : Pane) : Pane :=
  mkPane g chat (pn_info s) (pn_busy s) (pn_error s) (pn_pin s) (pn_invite s) (pn_editOpen s) (pn_edit s) (pn_wallet s) (pn_confirming s) (pn_cache s) (pn_calls s).
Definition with_wallet (w : option (list Z)) (s : Pane) : Pane :=
  mkPane (pn_group s) (pn_chat s) (pn_info s) (pn_busy s) (pn_error s) (pn_pin s) (pn_invite s) (pn_editOpen s) (pn_edit s) w (pn_confirming s) (pn_cache s) (pn_calls s).
Definition with_confirming (c : option (list Z)) (s : Pane) : Pane :=
  mkPane (pn_group s) (pn_chat s) (pn_info s) (pn_busy s) (pn_error s) (pn_pin s) (pn_invite s) (pn_editOpen s) (pn_edit s) (pn_wallet s) c (pn_cache s) (pn_calls s).
Definition ask (c : PCall) (s : Pane) : Pane := with_awaits (pn_calls s ++ [c]) s.

(** ** What the pane shows *)

Definition pane_profile (s : Pane) : option GroupProfile := match pn_info s ≫= λ i, gr_profile (gi_row i) with Some p => Some p | None => gr_profile (pn_group s) end.
Definition role_of_member (r : MemberRole) : GroupRole := match r with MrOwner => RoleOwner | MrAdmin => RoleAdmin | MrMember => RoleMember end.
Definition who_of (w : option (list Z)) : option Who :=
  (λ w, if jeqb w (js "owner") then WOwner else if jeqb w (js "admins") then WAdmins else WAll) <$> w.
Definition room_of (p : GroupProfile) : RoomProfile := mkRoom (gpf_room p) (who_of (gpf_speakWho p)) (gpf_speakHumans p) (gpf_speakAgents p) (gpf_admins p).
Definition pane_role (myFp : option (list Z)) (s : Pane) : GroupRole :=
  match pn_info s with Some i => role_of_member (gi_myRole i) | None => roleOf (gr_mine (pn_group s)) (room_of <$> gr_profile (pn_group s)) myFp end.
Definition is_owner (r : GroupRole) : bool := match r with RoleOwner => true | _ => false end.
Definition canAdmin (r : GroupRole) : bool := match r with RoleMember => false | _ => true end.
Definition members (s : Pane) : list GroupMember := match pn_info s with Some i => gi_memberList i | None => [] end.
Definition applications (s : Pane) : list GroupApplication := match pn_info s ≫= gi_applications with Some l => l | None => [] end.
Definition appsBadge (counted : option nat) (s : Pane) : nat := match pn_info s with None => counted ?? 0%nat | Some _ => length (applications s) end.
Definition inviteCandidates (friends : list InboxFriend) (s : Pane) : list InboxFriend := filterb (λ f, negb (someb (λ m, jeqb (mb_fp m) (f_fp f)) (members s))) friends.
(** The speak gates handed to the room. *)
Definition canSpeakHuman (myFp : option (list Z)) (s : Pane) : bool := canSpeakAs (room_of <$> pane_profile s) (pane_role myFp s) ByOwner.
Definition canSpeakAgent (myFp : option (list Z)) (s : Pane) : bool := canSpeakAs (room_of <$> pane_profile s) (pane_role myFp s) ByAlter.

Section labels.
Context (t : list Z → list Z).
Definition templateLabel (id : option (list Z)) : list Z :=
  match id with
  | Some i => if bool_decide (i ∈ [js "standard"; js "announcement"; js "agents"; js "tasks"; js "casual"]) then t (js "template." ++ i) else i
  | None => []
  end.
Definition is_val (o : option (list Z)) (v : string) : bool := match o with Some x => jeqb x (js v) | None => false end.
Definition joinLabel (join : option (list Z)) (paid : bool) : list Z :=
  if paid || is_val join "paid" then t (js "group.form.join.paid")
  else if is_val join "apply" then t (js "group.form.join.apply") else if is_val join "open" then t (js "group.form.join.open") else t (js "group.form.join.invite").
Definition wakeLabel (w : option (list Z)) : list Z :=
  if is_val w "always" then t (js "group.form.wake.always") else if is_val w "never" then t (js "group.form.wake.never") else t (js "group.form.wake.mention").
Definition tierLabel (w : option (list Z)) : list Z :=
  if is_val w "notify" then t (js "tier.short.notify") else if is_val w "auto" then t (js "tier.short.auto") else t (js "tier.short.draft").
Definition whoLabel (w : option (list Z)) : list Z :=
  if is_val w "owner" then t (js "group.form.speakWho.owner") else if is_val w "admins" then t (js "group.form.speakWho.admins") else t (js "group.form.speakWho.all").
Definition chips `{NumberToString} (profile : option GroupProfile) : list (list Z) :=
  match profile with
  | None => []
  | Some p =>
      filterb (λ s, negb (jeqb s []))
        ([templateLabel (gpf_template p);
          joinLabel (gpf_join p) (is_val (gpf_join p) "paid" || bool_decide (is_Some (paidJoinFromRules (gpf_rules p))));
          whoLabel (gpf_speakWho p);
          t (js "group.form.wake") ++ js " · " ++ wakeLabel (gpf_agentWake p);
          t (js "group.form.tier") ++ js " · " ++ tierLabel (gpf_agentTier p)]
         ++ (if gpf_speakAgents p then [show_number (gpf_autoPerHour p ?? num_of_Z 10) ++ js "/h"] else [])
         ++ (gpf_tags p ?? []))
  end.
End labels.

(** ** The profile editor *)

Definition editor_of (profile : option GroupProfile) : EditForm :=
  let marked := paidJoinFromRules (profile ≫= gpf_rules) in
  let join := profile ≫= gpf_join in
  mkEdit ((gpf_speakHumans <$> profile) ?? true) ((gpf_speakAgents <$> profile) ?? true) ((profile ≫= gpf_speakWho) ?? js "all")
    (if is_val join "paid" then js "paid" else if bool_decide (is_Some marked) then js "paid" else join ?? js "invite")
    ((profile ≫= gpf_agentWake) ?? js "mention") ((profile ≫= gpf_agentTier) ?? js "draft")
    (match profile ≫= gpf_joinPrice with Some p => p | None => (pj_price <$> marked) ?? [] end)
    ((profile ≫= gpf_rules) ?? []) (bool_decide ((profile ≫= gpf_public) = Some true)) (jjoin (js ", ") ((profile ≫= gpf_tags) ?? [])).

Definition edit_paid (wallet : option (list Z)) (e : EditForm) : option (list Z * list Z) :=
  match wallet with
  | Some w => if jeqb (ed_join e) (js "paid") && negb (jeqb (trim (ed_joinPrice e)) []) then Some (trim (ed_joinPrice e), w) else None
  | None => None
  end.
(** The profile [saveProfile] sends: the shown one, overlaid with the form. *)
Definition edited_profile (profile : option GroupProfile) (wallet : option (list Z)) (e : EditForm) : GroupProfile :=
  let paid := edit_paid wallet e in
  mkProfile (profile ≫= gpf_template) (profile ≫= gpf_room) (ed_speakHumans e) (ed_speakAgents e) (Some (ed_speakWho e)) (Some (ed_join e))
    (match paid with Some (price, _) => Some price | None => profile ≫= gpf_joinPrice end)
    (match paid with Some (_, w) => Some w | None => profile ≫= gpf_joinAddr end)
    (profile ≫= gpf_joinNote) (Some (ed_agentWake e)) (Some (ed_agentTier e)) (profile ≫= gpf_autoPerHour) (profile ≫= gpf_agentRounds)
    (profile ≫= gpf_admins) (Some (ed_isPublic e)) (Some (form_tags (ed_tags e))) (Some (ed_rules e)).
Definition save_disabled (s : Pane) : bool := bool_decide (is_Some (pn_busy s)) || (negb (ed_speakHumans (pn_edit s)) && negb (ed_speakAgents (pn_edit s))).

(** [{ ...(profile ?? { speakHumans: true, speakAgents: true }), admins }]. *)
Definition with_admins (profile : option GroupProfile) (admins : list (list Z)) : GroupProfile :=
  let p := profile ?? mkProfile None None true true None None None None None None None None None None None None None in
  mkProfile (gpf_template p) (gpf_room p) (gpf_speakHumans p) (gpf_speakAgents p) (gpf_speakWho p) (gpf_join p) (gpf_joinPrice p) (gpf_joinAddr p)
    (gpf_joinNote p) (gpf_agentWake p) (gpf_agentTier p) (gpf_autoPerHour p) (gpf_agentRounds p) (Some admins) (gpf_public p) (gpf_tags p) (gpf_rules p).
Definition toggled (profile : option GroupProfile) (fp : list Z) : list (list Z) :=
  let admins := (profile ≫= gpf_admins) ?? [] in
  if bool_decide (fp ∈ admins) then filterb (λ a, negb (jeqb a fp)) admins else admins ++ [fp].

(** ** Operations *)

Section pane.
Context (t : list Z → list Z).
(** The owner's own fingerprint. *)
Context (myFp : option (list Z)).

Definition free_pane (s : Pane) : bool := negb (bool_decide (is_Some (pn_busy s))).
Definition run (key : list Z) (th : Then) (c : ApiCall) (s : Pane) : Pane * list POut :=
  (ask (PcAction (gid_of s) th) (with_busy (Some key) None s), [PoCall c]).
Definition when_free (b : bool) (x : Pane * list POut) (s : Pane) : Pane * list POut := if free_pane s && b then x else (s, []).

Definition confirmThen (key : list Z) (action : Pane → Pane * list POut) (s : Pane) : Pane * list POut :=
  if bool_decide (pn_confirming s = Some key) then action (with_confirming None s) else (with_confirming (Some key) s, []).
Definition confirm_timer (key : list Z) (s : Pane) : Pane := if bool_decide (pn_confirming s = Some key) then with_confirming None s else s.

Definition saveProfile (s : Pane) : Pane * list POut :=
  let e := pn_edit s in
  let paid := jeqb (ed_join e) (js "paid") in
  let priced := negb (jeqb (trim (ed_joinPrice e)) []) in
  if paid && negb priced then (with_busy (pn_busy s) (Some (t (js "group.form.join.paid.priceRequired"))) s, [])
  else if paid && priced && negb (bool_decide (is_Some (pn_wallet s))) then (with_busy (pn_busy s) (Some (t (js "group.form.join.paid.noWallet"))) s, [])
  else run (js "profile.save") ThenCloseEditor (AGroupSetProfile (gid_of s) (edited_profile (pane_profile s) (pn_wallet s) e)) s.

Definition member_fp (fp : list Z) (s : Pane) : bool := someb (λ m, jeqb (mb_fp m) fp) (members s) && negb (jeqb fp (gr_ownerFp (pn_group s))).
Definition KICK (fp : list Z) : list Z := js "kick:" ++ fp.
Definition LEAVE : list Z := js "leave".

(** [refetchInfo] and the switch effect fill the cache and the roster. *)
Definition roster_answer (gid : list Z) (shown : bool) (g : GroupInfo) (s : Pane) : Pane :=
  with_roster (if shown then Some g else pn_info s) (map_set (pn_cache s) gid g) s.

Definition cancel_effect (c : PCall) : PCall := match c with PcEffect gid _ => PcEffect gid true | c => c end.
(** The effect on [gid] and [group.version]. *)
Definition switch_effect (g : GroupRow) (s : Pane) : Pane :=
  let gid := gr_gid g in
  ask (PcEffect gid false) (with_awaits (map cancel_effect (pn_calls s))
    (with_confirming None (with_editor false (pn_edit s) (with_fields [] [] (with_busy (pn_busy s) None (with_roster (map_get (pn_cache s) gid) (pn_cache s) s)))))).
(** The effect that runs when a management tab is entered or the group changes on one. *)
Definition tab_effect (s : Pane) : Pane * list POut :=
  if pn_chat s then (s, []) else (ask (PcRefetch (gid_of s)) s, [PoClearApps (gid_of s); PoCall (AGroupInfo (gid_of s))]).
Definition mark_effect (visible docVisible : bool) (g : GroupRow) : list POut :=
  if negb visible || (gr_unread g =? 0) || negb docVisible then [] else [PoMarkRead (gr_gid g)].
Definition summarize_effect (g : GroupRow) : list POut := if gr_unread g <? GROUP_MEMORY_MIN_UNREAD then [] else [PoCall (AMemorySummarize (gr_gid g))].

(** The first render for a group, and a render with another row. *)
Definition first_pane (g : GroupRow) (chat : bool) (cache : list (list Z * GroupInfo)) : Pane :=
  mkPane g chat (map_get cache (gr_gid g)) None None [] [] false NEW_EDIT None None cache [].
Definition mounted (g : GroupRow) (chat : bool) (cache : list (list Z * GroupInfo)) : Pane * list POut := tab_effect (switch_effect g (first_pane g chat cache)).
Definition fetch_effect (loaded : bool) (g : GroupRow) : list POut := (if loaded then [] else [PoLoad (gr_gid g)]) ++ [PoCall (AGroupInfo (gr_gid g))].
Definition mount (visible docVisible loaded : bool) (g : GroupRow) (chat : bool) (cache : list (list Z * GroupInfo)) : Pane * list POut :=
  ((mounted g chat cache).1,
   [PoCall APayWallet] ++ fetch_effect loaded g ++ (mounted g chat cache).2 ++ mark_effect visible docVisible g ++ summarize_effect g).
Definition moved_pane (moved bumped : bool) (g : GroupRow) (s : Pane) : Pane * list POut :=
  let s2 := if bumped then switch_effect g (with_view g (pn_chat s) s) else with_view g (pn_chat s) s in
  if moved then tab_effect s2 else (s2, []).
Definition show_group (visible docVisible loaded : bool) (g : GroupRow) (s : Pane) : Pane * list POut :=
  let moved := negb (jeqb (gr_gid g) (gid_of s)) in
  let bumped := moved || negb (gr_version g =? gr_version (pn_group s)) in
  ((moved_pane moved bumped g s).1,
   (if bumped then fetch_effect loaded g else []) ++ (moved_pane moved bumped g s).2
     ++ (if moved || negb (gr_unread g =? gr_unread (pn_group s)) then mark_effect visible docVisible g else []) ++ (if moved then summarize_effect g else [])).
Definition set_tab (chat : bool) (s : Pane) : Pane * list POut :=
  let s1 := with_view (pn_group s) chat s in if Bool.eqb chat (pn_chat s) then (s1, []) else tab_effect s1.

Definition after_action (th : Then) (s : Pane) : Pane * list POut :=
  match th with
  | ThenNothing => (s, [])
  | ThenClearPin => (with_fields [] (pn_invite s) s, [])
  | ThenClearInvite => (with_fields (pn_pin s) [] s, [])
  | ThenCloseEditor => (with_editor false (pn_edit s) s, [])
  | ThenGoAlter => (s, [PoGoAlter])
  end.

(** An await settles. *)
Inductive PAns := PaRoster (g : GroupInfo) | PaDone | PaError (message : list Z).
Definition settle (i : nat) (a : PAns) (s : Pane) : Pane * list POut :=
  match pn_calls s !! i with
  | None => (s, [])
  | Some c =>
      let s1 := with_awaits (delete i (pn_calls s)) s in
      match c, a with
      | PcEffect gid cancelled, PaRoster g => (roster_answer gid (negb cancelled) g s1, [])
      | PcRefetch gid, PaRoster g => (roster_answer gid true g s1, [])
      | PcEffect _ _, PaError _ | PcRefetch _, PaError _ => (s1, [])
      | PcAction _ _, PaError m => (with_busy None (Some m) s1, [])
      | PcAction gid th, PaDone => let x := after_action th s1 in (ask (PcAfter gid) x.1, x.2 ++ [PoCall (AGroupInfo gid)])
      | PcAfter gid, PaRoster g => (ask PcRefresh (roster_answer gid true g s1), [PoRefresh])
      | PcAfter _, PaError _ => (ask PcRefresh s1, [PoRefresh])
      | PcRefresh, PaDone => (with_busy None (pn_error s1) s1, [])
      | _, _ => (s, [])
      end
  end.

Inductive PEv :=
| PShow (visible docVisible loaded : bool) (g : GroupRow) | PTab (chat : bool) | PWallet (w : option (list Z))
| PSettle (i : nat) (a : PAns)
| POpenEditor | PEdit (e : EditForm) | PCancelEdit | PSave
| PToggleAdmin (fp : list Z) | PKick (fp : list Z) | PLeave | PTimer (key : list Z)
| PTypePin (text : list Z) | PPin | PUnpin (id : list Z) | PPickInvite (fp : list Z) | PInvite
| PApprove (fp : list Z) | PReject (fp : list Z).

Definition pane_step (s : Pane) (e : PEv) : Pane * list POut :=
  let gid := gid_of s in
  let role := pane_role myFp s in
  match e with
  | PShow v d l g => show_group v d l g s
  | PTab chat => set_tab chat s
  | PWallet w => (with_wallet w s, [])
  | PSettle i a => settle i a s
  | POpenEditor => if is_owner role then (with_editor true (editor_of (pane_profile s)) s, []) else (s, [])
  | PEdit e => if pn_editOpen s then (with_editor true e s, []) else (s, [])
  | PCancelEdit => (with_editor false (pn_edit s) s, [])
  | PSave => if pn_editOpen s && negb (save_disabled s) then saveProfile s else (s, [])
  | PToggleAdmin fp => when_free (is_owner role && member_fp fp s)
                         (run (js "admin:" ++ fp) ThenNothing (AGroupSetProfile gid (with_admins (pane_profile s) (toggled (pane_profile s) fp))) s) s
  | PKick fp => when_free (is_owner role && member_fp fp s) (confirmThen (KICK fp) (run (KICK fp) ThenNothing (AGroupKick gid fp)) s) s
  | PLeave => when_free (negb (is_owner role)) (confirmThen LEAVE (run LEAVE ThenGoAlter (AGroupLeave gid)) s) s
  | PTimer key => (confirm_timer key s, [])
  | PTypePin text => (with_fields text (pn_invite s) s, [])
  | PPin => when_free (canAdmin role && negb (jeqb (trim (pn_pin s)) [])) (run (js "pin") ThenClearPin (AGroupPin gid (trim (pn_pin s))) s) s
  | PUnpin id => when_free (canAdmin role) (run (js "unpin:" ++ id) ThenNothing (AGroupUnpin gid id) s) s
  | PPickInvite fp => (with_fields (pn_pin s) fp s, [])
  | PInvite => when_free (canAdmin role && negb (jeqb (pn_invite s) [])) (run (js "invite") ThenClearInvite (AGroupInvite gid (pn_invite s)) s) s
  | PApprove fp => when_free (is_owner role && someb (λ a, jeqb (ap_fp a) fp) (applications s)) (run (js "approve:" ++ fp) ThenNothing (AGroupApprove gid fp) s) s
  | PReject fp => when_free (is_owner role && someb (λ a, jeqb (ap_fp a) fp) (applications s)) (run (js "reject:" ++ fp) ThenNothing (AGroupApplicationReject gid fp) s) s
  end.

Fixpoint run_pane (evs : list PEv) (s : Pane) : Pane * list POut :=
  match evs with
  | [] => (s, [])
  | e :: r => let x := pane_step s e in let y := run_pane r x.1 in (y.1, x.2 ++ y.2)
  end.
End pane.

(** * Theorems *)

Section theorems.
Context (t : list Z → list Z) (myFp : option (list Z)).
#[local] Notation pane_step := (pane_step t myFp).
#[local] Notation run_pane := (run_pane t myFp).

Lemma run_pane_snoc (evs : list PEv) (e : PEv) (s : Pane) : (run_pane (evs ++ [e]) s).1 = (pane_step (run_pane evs s).1 e).1.
Proof. revert s. induction evs as [|x r IH]; intros s; [done|]. cbn. apply IH. Qed.

(** ** Two clicks *)

Definition clicks (k : list Z) (e : PEv) : Prop := match e with PKick fp => KICK fp = k | PLeave => LEAVE = k | _ => False end.
(** Events after which group [gid] is still shown and the confirmation of [k] has not run out. *)
Definition stays (gid k : list Z) (e : PEv) : Prop :=
  match e with PShow _ _ _ g => gr_gid g = gid | PTimer k' => k' ≠ k | _ => True end.

Lemma tab_effect_same (s : Pane) : pn_confirming (tab_effect s).1 = pn_confirming s ∧ gid_of (tab_effect s).1 = gid_of s.
Proof. unfold tab_effect. by case_match. Qed.
Lemma settle_same (i : nat) (a : PAns) (s : Pane) : pn_confirming (settle i a s).1 = pn_confirming s ∧ gid_of (settle i a s).1 = gid_of s.
Proof. unfold settle, after_action, roster_answer. repeat case_match; done. Qed.

Definition kept_view (s s' : Pane) : Prop := pn_confirming s' = pn_confirming s ∧ gid_of s' = gid_of s.
Lemma run_same key th c (s : Pane) : kept_view s (run key th c s).1.
Proof. done. Qed.
Lemma when_free_same (b : bool) (x : Pane * list POut) (s : Pane) : kept_view s x.1 → kept_view s (when_free b x s).1.
Proof. intros. unfold when_free. by case_match. Qed.
Lemma save_same (s : Pane) : kept_view s (saveProfile t s).1.
Proof. unfold saveProfile. case_match; [done|]. case_match; [done|]. apply run_same. Qed.
Lemma switch_confirming g (s : Pane) : pn_confirming (switch_effect g s) = None.
Proof. reflexivity. Qed.
Lemma show_pane v d l g (s : Pane) :
  (show_group v d l g s).1 =
  (moved_pane (negb (jeqb (gr_gid g) (gid_of s))) (negb (jeqb (gr_gid g) (gid_of s)) || negb (gr_version g =? gr_version (pn_group s))) g s).1.
Proof. reflexivity. Qed.
Lemma moved_confirming (moved bumped : bool) g (s : Pane) : pn_confirming (moved_pane moved bumped g s).1 = if bumped then None else pn_confirming s.
Proof. unfold moved_pane. destruct moved, bumped; rewrite ?(proj1 (tab_effect_same _)); reflexivity. Qed.
Lemma moved_gid (moved bumped : bool) g (s : Pane) : gid_of (moved_pane moved bumped g s).1 = gr_gid g.
Proof. unfold moved_pane. destruct moved, bumped; rewrite ?(proj2 (tab_effect_same _)); reflexivity. Qed.

Lemma show_same v d l g (s : Pane) k :
  pn_confirming (show_group v d l g s).1 = Some k → pn_confirming s = Some k ∧ gid_of (show_group v d l g s).1 = gid_of s ∧ gr_gid g = gid_of s.
Proof.
  rewrite show_pane, moved_confirming, moved_gid. destruct (jeqb (gr_gid g) (gid_of s)) eqn:E; cbn [negb orb]; [|done].
  apply jeqb_eq in E. case_match; [done|]. by rewrite E.
Qed.

Lemma confirm_then_cases key act (s : Pane) k :
  (∀ s, kept_view s (act s).1) → pn_confirming (confirmThen key act s).1 = Some k → key = k.
Proof.
  intros Ha. unfold confirmThen. case_bool_decide.
  - rewrite (proj1 (Ha _)). by intros [=].
  - by intros [= ->].
Qed.

Lemma step_confirming (s : Pane) (e : PEv) (k : list Z) :
  pn_confirming (pane_step s e).1 = Some k → clicks k e ∨ (pn_confirming s = Some k ∧ gid_of (pane_step s e).1 = gid_of s ∧ stays (gid_of s) k e).
Proof.
  assert (Hsame : ∀ s', kept_view s s' → pn_confirming s' = Some k → stays (gid_of s) k e → pn_confirming s = Some k ∧ gid_of s' = gid_of s ∧ stays (gid_of s) k e).
  { intros s' [H1 H2]. rewrite H1, H2. auto. }
  destruct e; cbn [GroupPanel.pane_step]; intros H;
    try (right; apply Hsame; [|exact H|exact I]; first [by split | by apply when_free_same, run_same | apply settle_same | case_match; by split]; fail).
  - right. by apply show_same.
  - right. apply Hsame; [|done|exact I]. unfold set_tab. case_match; [by split|]. apply (tab_effect_same (with_view (pn_group s) chat s)).
  - right. apply Hsame; [|done|exact I]. case_match; [apply save_same|by split].
  - unfold when_free in *. case_match; [|by right]. left. by apply (confirm_then_cases _ _ s k (run_same _ _ _)) in H.
  - unfold when_free in *. case_match; [|by right]. left. by apply (confirm_then_cases _ _ s k (run_same _ _ _)) in H.
  - right. unfold confirm_timer in *. case_bool_decide; [done|]. split_and!; try done. by intros ->.
Qed.

Lemma confirm_origin (evs : list PEv) (s : Pane) (k : list Z) :
  pn_confirming s = None → pn_confirming (run_pane evs s).1 = Some k →
  ∃ pre e mid, evs = pre ++ e :: mid ∧ clicks k e ∧ Forall (stays (gid_of (run_pane evs s).1) k) mid.
Proof.
  intros Hs. induction evs as [|e evs IH] using rev_ind; [cbn; congruence|]. rewrite run_pane_snoc. intros H.
  apply step_confirming in H as [Hc|(Hk & Hg & He)]; [by exists evs, e, []|].
  destruct (IH Hk) as (pre & e0 & mid & -> & Hc & Hf). exists pre, e0, (mid ++ [e]). split_and!; [by rewrite <-app_assoc|done|].
  rewrite Hg. apply Forall_app. split; [done|]. by constructor.
Qed.

(** The calls that remove somebody. *)
Definition removes (c : ApiCall) : bool := match c with AGroupKick _ _ | AGroupLeave _ => true | _ => false end.
Definition harmless (os : list POut) : Prop := ∀ c, PoCall c ∈ os → removes c = false.
Lemma harmless_nil : harmless [].
Proof. by intros c Hc%elem_of_nil. Qed.
Lemma harmless_cons o os : (∀ c, o = PoCall c → removes c = false) → harmless os → harmless (o :: os).
Proof. intros Ho Hos c [Hc|Hc]%elem_of_cons; [by apply Ho|by apply Hos]. Qed.
Lemma harmless_app os os' : harmless os → harmless os' → harmless (os ++ os').
Proof. intros ? ? c [Hc|Hc]%elem_of_app; auto. Qed.
#[local] Hint Resolve harmless_nil harmless_app : dsh.
#[local] Hint Extern 2 (harmless (_ :: _)) => apply harmless_cons; [by intros ? [= <-]|] : dsh.
#[local] Hint Extern 3 (harmless (_ :: _)) => apply harmless_cons; [by intros ? [=]|] : dsh.

Lemma step_removes (s : Pane) (e : PEv) :
  harmless (pane_step s e).2 ∨
  (∃ fp, e = PKick fp ∧ pn_confirming s = Some (KICK fp) ∧ (pane_step s e).2 = [PoCall (AGroupKick (gid_of s) fp)]) ∨
  (e = PLeave ∧ pn_confirming s = Some LEAVE ∧ (pane_step s e).2 = [PoCall (AGroupLeave (gid_of s))]).
Proof.
  destruct e; cbn [GroupPanel.pane_step]; unfold when_free, saveProfile, confirmThen, show_group, moved_pane, fetch_effect, set_tab, tab_effect, mark_effect, summarize_effect, settle, after_action;
    try (left; repeat case_match; cbn; auto 8 with dsh; fail).
  - case_match; [|left; auto with dsh]. case_bool_decide; [|left; auto with dsh]. right. left. eauto.
  - case_match; [|left; auto with dsh]. case_bool_decide; [|left; auto with dsh]. right. right. eauto.
Qed.

(** A member is removed, or the group left, only by a second click on the same
    button: the first was made while the same group was shown, and since then
    no other group was and the confirmation has not run out. *)
Theorem removal_needs_two_clicks (s : Pane) (evs : list PEv) (e : PEv) (gid : list Z)
  (Hs : pn_confirming s = None) :
  let now := (run_pane evs s).1 in
  (∀ fp, PoCall (AGroupKick gid fp) ∈ (pane_step now e).2 →
     gid = gid_of now ∧ e = PKick fp ∧ ∃ pre mid, evs = pre ++ PKick fp :: mid ∧ Forall (stays gid (KICK fp)) mid) ∧
  (PoCall (AGroupLeave gid) ∈ (pane_step now e).2 →
     gid = gid_of now ∧ e = PLeave ∧ ∃ pre mid, evs = pre ++ PLeave :: mid ∧ Forall (stays gid LEAVE) mid).
Proof.
  cbv zeta. destruct (step_removes (run_pane evs s).1 e) as [H|[(fp & He & Hc & Ho)|(He & Hc & Ho)]]; split.
  - intros fp Hin. by apply H in Hin.
  - intros Hin. by apply H in Hin.
  - intros fp'. rewrite Ho. intros [= -> ->]%list_elem_of_singleton. split; [done|]. split; [done|].
    destruct (confirm_origin evs s (KICK fp) Hs Hc) as (pre & e0 & mid & -> & Hk & Hf). exists pre, mid.
    destruct e0; try done. apply app_inv_head in Hk as ->. done.
  - rewrite Ho. by intros [=]%list_elem_of_singleton.
  - intros fp. rewrite Ho. by intros [=]%list_elem_of_singleton.
  - rewrite Ho. intros [= ->]%list_elem_of_singleton. split; [done|]. split; [done|].
    destruct (confirm_origin evs s LEAVE Hs Hc) as (pre & e0 & mid & -> & Hk & Hf). exists pre, mid. by destruct e0.
Qed.

(** ** Whose roster is shown *)

(** The group an await will write the roster of; a cancelled one writes none. *)
Definition writes (c : PCall) : option (list Z) :=
  match c with PcEffect gid false | PcRefetch gid | PcAction gid _ | PcAfter gid => Some gid | _ => None end.
Definition call_gid (c : PCall) : option (list Z) :=
  match c with PcEffect gid _ | PcRefetch gid | PcAction gid _ | PcAfter gid => Some gid | PcRefresh => None end.
Definition about_gid (gid : list Z) (i : GroupInfo) : Prop := gr_gid (gi_row i) = gid.

Record roster_ok (s : Pane) : Prop := {
  ro_info : ∀ i, pn_info s = Some i → about_gid (gid_of s) i;
  ro_cache : Forall (λ kv, about_gid kv.1 kv.2) (pn_cache s);
  ro_calls : ∀ c gid, c ∈ pn_calls s → writes c = Some gid → gid = gid_of s }.

(** The host answers for the group it was asked about, and the owner moves to
    another group only when nothing but the pane's own effect is under way. *)
Definition calm_event (s : Pane) (e : PEv) : Prop :=
  match e with
  | PSettle i (PaRoster g) => ∀ c, pn_calls s !! i = Some c → call_gid c = Some (gr_gid (gi_row g))
  | PShow _ _ _ g => gr_gid g = gid_of s ∨ ∀ c gid, c ∈ pn_calls s → writes c = Some gid → ∃ b, c = PcEffect gid b
  | _ => True
  end.
Fixpoint calm (evs : list PEv) (s : Pane) : Prop :=
  match evs with [] => True | e :: r => calm_event s e ∧ calm r (pane_step s e).1 end.

Lemma roster_frame (s s' : Pane) :
  pn_group s' = pn_group s → pn_info s' = pn_info s → pn_cache s' = pn_cache s →
  (∀ c gid, c ∈ pn_calls s' → writes c = Some gid → c ∈ pn_calls s ∨ gid = gid_of s) → roster_ok s → roster_ok s'.
Proof.
  intros Hg Hi Hc Hl [Hinfo Hcache Hcalls].
  assert (Hgid : gid_of s' = gid_of s) by (unfold gid_of; by rewrite Hg).
  split; rewrite ?Hi, ?Hc, ?Hgid; [done|done|]. intros c gid Hin Hw. destruct (Hl c gid Hin Hw) as [H|H]; eauto.
Qed.

Lemma roster_ask (c : PCall) (s : Pane) : (∀ gid, writes c = Some gid → gid = gid_of s) → roster_ok s → roster_ok (ask c s).
Proof.
  intros Hw. apply roster_frame; try done. intros c' gid Hin Hw'. cbn in Hin. apply elem_of_app in Hin as [H|H%list_elem_of_singleton]; [by left|].
  subst. right. auto.
Qed.

Lemma roster_same (s s' : Pane) :
  pn_group s' = pn_group s → pn_info s' = pn_info s → pn_cache s' = pn_cache s → pn_calls s' = pn_calls s → roster_ok s → roster_ok s'.
Proof. intros Hg Hi Hc Hl. apply roster_frame; try done. rewrite Hl. auto. Qed.

Lemma roster_run key th c (s : Pane) : roster_ok s → roster_ok (run key th c s).1.
Proof. intros H. unfold run. cbn [fst]. apply roster_ask; [by intros gid [= <-]|]. by apply (roster_same s). Qed.
Lemma roster_when (b : bool) (x : Pane * list POut) (s : Pane) : roster_ok s → roster_ok x.1 → roster_ok (when_free b x s).1.
Proof. intros. unfold when_free. by case_match. Qed.
Lemma roster_tab (s : Pane) : roster_ok s → roster_ok (tab_effect s).1.
Proof. intros. unfold tab_effect. case_match; [done|]. cbn [fst]. apply roster_ask; [by intros gid [= <-]|done]. Qed.

Lemma delete_calls (i : nat) (s : Pane) : roster_ok s → roster_ok (with_awaits (delete i (pn_calls s)) s).
Proof. apply roster_frame; try done. intros c gid Hin Hw. left. exact (list_elem_of_delete_inv _ _ _ Hin). Qed.

Lemma roster_written (gid : list Z) (shown : bool) (g : GroupInfo) (s : Pane) :
  about_gid gid g → (shown = true → gid = gid_of s) → roster_ok s → roster_ok (roster_answer gid shown g s).
Proof.
  intros Hg Hs [Hi Hc Hl]. split; [|by apply map_set_Forall|done].
  intros i. cbn. destruct shown; [|by apply Hi]. intros [= <-]. by rewrite (Hs eq_refl) in Hg.
Qed.

Lemma after_same th (s : Pane) : roster_ok s → roster_ok (after_action th s).1.
Proof. intros H. destruct th; try done; by apply (roster_same s). Qed.
Lemma gid_after th (s : Pane) : gid_of (after_action th s).1 = gid_of s.
Proof. by destruct th. Qed.

Lemma roster_settle (i : nat) (a : PAns) (s : Pane) : calm_event s (PSettle i a) → roster_ok s → roster_ok (settle i a s).1.
Proof.
  intros Hcalm Hok. unfold settle. destruct (pn_calls s !! i) as [c|] eqn:Hc; [|done].
  assert (Hin : c ∈ pn_calls s) by by apply list_elem_of_lookup_2 in Hc.
  assert (Hdel := delete_calls i s Hok). set (s1 := with_awaits (delete i (pn_calls s)) s) in *.
  assert (Hgid : ∀ gid, writes c = Some gid → gid = gid_of s1) by (intros gid Hw; by apply (ro_calls s Hok c gid)).
  assert (Hhonest : ∀ g gid, a = PaRoster g → call_gid c = Some gid → about_gid gid g).
  { intros g gid -> Hg. specialize (Hcalm c Hc). unfold about_gid. congruence. }
  destruct c as [gid cancelled|gid|gid th|gid|]; destruct a as [g| |m]; cbn [fst]; try done.
  - apply roster_written; [by apply Hhonest|destruct cancelled; [done|intros _; by apply Hgid]|done].
  - apply roster_written; [by apply Hhonest|intros _; by apply Hgid|done].
  - apply roster_ask; [|by apply after_same]. intros gid' [= <-]. rewrite gid_after. by apply Hgid.
  - by apply (roster_same s1).
  - apply roster_ask; [done|]. apply roster_written; [by apply Hhonest|intros _; by apply Hgid|done].
  - by apply roster_ask.
  - by apply (roster_same s1).
Qed.

Lemma cancelled_writes (l : list PCall) (c : PCall) (gid : list Z) :
  c ∈ map cancel_effect l → writes c = Some gid → c ∈ l ∧ ∀ b, c ≠ PcEffect gid b.
Proof.
  intros (x & -> & Hx)%list_elem_of_fmap Hw. destruct x; try done; split; try done.
Qed.

Lemma roster_switch (g : GroupRow) (s : Pane) :
  gid_of s = gr_gid g → Forall (λ kv, about_gid kv.1 kv.2) (pn_cache s) →
  (∀ c gid, c ∈ map cancel_effect (pn_calls s) → writes c = Some gid → gid = gid_of s) → roster_ok (switch_effect g s).
Proof.
  intros Hg Hc Hl. unfold switch_effect. apply roster_ask; [by intros gid [= <-]|]. split; [|done|exact Hl].
  intros i Hi. cbn in Hi. change (gid_of _) with (gid_of s). rewrite Hg. apply map_get_elem in Hi. exact (proj1 (Forall_forall _ _) Hc _ Hi).
Qed.

Lemma roster_show v d l g (s : Pane) : calm_event s (PShow v d l g) → roster_ok s → roster_ok (show_group v d l g s).1.
Proof.
  intros Hcalm Hok. rewrite show_pane. unfold moved_pane. destruct (jeqb (gr_gid g) (gid_of s)) eqn:E; cbn [negb orb].
  - apply jeqb_eq in E. assert (Hv : roster_ok (with_view g (pn_chat s) s)).
    { destruct Hok as [Hi Hc Hl]. split; cbn; [intros i Hin|done|intros c gid Hin Hw]; unfold gid_of; cbn; rewrite E; eauto. }
    case_match; [|done]. apply roster_switch; [done|apply Hok|]. intros c gid Hin Hw. apply (ro_calls _ Hv c gid); [|done]. by apply (cancelled_writes _ _ _ Hin Hw).
  - destruct Hcalm as [Hsame|Hquiet]; [by apply jeqb_neq in E|]. apply roster_tab, roster_switch; [done|apply Hok|].
    intros c gid Hin Hw. destruct (cancelled_writes _ _ _ Hin Hw) as [Hin' Hne]. destruct (Hquiet c gid Hin' Hw) as [b ->]. by destruct (Hne b).
Qed.

Lemma roster_step (s : Pane) (e : PEv) : calm_event s e → roster_ok s → roster_ok (pane_step s e).1.
Proof.
  intros Hcalm Hok. assert (Hrun := λ key th c, roster_run key th c s Hok).
  destruct e; cbn [GroupPanel.pane_step]; try (by apply roster_when); try (by apply (roster_same s)); try (case_match; [by apply (roster_same s)|done]).
  - by apply roster_show.
  - unfold set_tab. assert (roster_ok (with_view (pn_group s) chat s)) by by apply (roster_same s). case_match; [done|]. by apply roster_tab.
  - by apply roster_settle.
  - case_match; [|done]. unfold saveProfile. case_match; [by apply (roster_same s)|]. case_match; [by apply (roster_same s)|]. apply Hrun.
  - apply roster_when; [done|]. unfold confirmThen. case_bool_decide; [apply roster_run|]; by apply (roster_same s).
  - apply roster_when; [done|]. unfold confirmThen. case_bool_decide; [apply roster_run|]; by apply (roster_same s).
  - unfold confirm_timer. cbn [fst]. case_bool_decide; [by apply (roster_same s)|done].
Qed.

(** The roster, the role and the profile the pane shows are those of the group
    it shows, in every run in which the owner changes groups only between
    requests; the cache keeps each roster under its own group. *)
Theorem pane_roster_own (chat : bool) (g : GroupRow) (cache : list (list Z * GroupInfo)) (evs : list PEv)
  (Hcache : Forall (λ kv, about_gid kv.1 kv.2) cache) (Hcalm : calm evs (mounted g chat cache).1) :
  roster_ok (run_pane evs (mounted g chat cache).1).1.
Proof.
  assert (H0 : roster_ok (mounted g chat cache).1).
  { unfold mounted. apply roster_tab, roster_switch; [done|done|]. intros c gid Hin. by apply elem_of_nil in Hin. }
  revert H0 Hcalm. generalize (mounted g chat cache).1. induction evs as [|e r IH]; intros s Hs Hcalm; [done|].
  cbn. destruct Hcalm as [He Hr]. apply IH; [by apply roster_step|done].
Qed.

(** ** A roster that arrives late *)

(** The owner leaves the home of one group for that of group [b]; the second
    fetch of the first group answers last. *)
Definition late (b : GroupRow) (ia ib : GroupInfo) : list PEv :=
  [PSettle 0 (PaRoster ia); PShow true true true b; PSettle 1 (PaRoster ib); PSettle 1 (PaRoster ib); PSettle 0 (PaRoster ia)].

Lemma run_pane_cons (e : PEv) (r : list PEv) (s : Pane) : (run_pane (e :: r) s).1 = (run_pane r (pane_step s e).1).1.
Proof. reflexivity. Qed.

Lemma late_pane (a b : GroupRow) (ia ib : GroupInfo) (Hne : gr_gid b ≠ gr_gid a) :
  ∃ cache, (run_pane (late b ia ib) (mounted a false []).1).1 = mkPane b false (Some ia) None None [] [] false NEW_EDIT None None cache [].
Proof.
  apply jeqb_neq in Hne. unfold late. rewrite !run_pane_cons.
  set (s0 := (mounted a false []).1). set (s1 := (pane_step s0 (PSettle 0 (PaRoster ia))).1).
  assert (H1 : ∃ cache, s1 = mkPane a false (Some ia) None None [] [] false NEW_EDIT None None cache [PcRefetch (gr_gid a)]).
  { eexists. unfold s1, s0. cbv -[js map_get map_set NEW_EDIT gr_gid]. reflexivity. }
  destruct H1 as [c1 ->]. set (s2 := (pane_step _ (PShow true true true b)).1).
  assert (H2 : ∃ info, s2 = mkPane b false info None None [] [] false NEW_EDIT None None c1 [PcRefetch (gr_gid a); PcEffect (gr_gid b) false; PcRefetch (gr_gid b)]).
  { eexists. unfold s2. cbn [GroupPanel.pane_step]. rewrite show_pane. unfold gid_of. cbn [pn_group]. rewrite Hne. cbn [negb orb]. cbv -[js map_get map_set NEW_EDIT gr_gid]. reflexivity. }
  destruct H2 as [i2 ->]. eexists. cbv -[js map_get map_set NEW_EDIT gr_gid]. reflexivity.
Qed.

(** The pane can show one group with the roster of another: when the first
    group's answer comes last, opening the editor of the group shown and saving
    it unchanged writes the other group's rules and administrators over it. *)
Theorem late_roster_overwrites (a b : GroupRow) (ia ib : GroupInfo) (pa : GroupProfile)
  (Hne : gr_gid b ≠ gr_gid a) (Hrole : gi_myRole ia = MrOwner) (Hpa : gr_profile (gi_row ia) = Some pa) (Hspeak : gpf_speakHumans pa = true)
  (Hjoin : ed_join (editor_of (Some pa)) ≠ js "paid") :
  let late_pane := (run_pane (late b ia ib) (mounted a false []).1).1 in
  ∃ p, (run_pane [POpenEditor; PSave] late_pane).2 = [PoCall (AGroupSetProfile (gr_gid b) p)] ∧
       gpf_rules p = Some (gpf_rules pa ?? []) ∧ gpf_admins p = gpf_admins pa ∧ gpf_template p = gpf_template pa.
Proof.
  cbv zeta. destruct (late_pane a b ia ib Hne) as [cache ->]. apply jeqb_neq in Hjoin.
  exists (edited_profile (Some pa) None (editor_of (Some pa))). split; [|done].
  cbn [GroupPanel.run_pane GroupPanel.pane_step]. unfold pane_role, pane_profile. cbn [pn_info mbind option_bind]. rewrite Hrole, Hpa. cbn [role_of_member is_owner fst snd].
  unfold with_editor. cbn [pn_editOpen]. unfold save_disabled. cbn [pn_busy pn_edit]. unfold editor_of at 1 2. cbn [ed_speakHumans fmap option_fmap option_map]. rewrite Hspeak.
  cbn [nullish negb andb orb is_Some]. rewrite bool_decide_false by (by intros [? ?]). cbn [orb negb andb].
  unfold saveProfile. cbn [pn_edit pn_wallet]. rewrite Hjoin. cbn [andb]. unfold run, pane_profile. cbn. rewrite Hpa. done.
Qed.
End theorems.

(** ** What an edit does to the group *)

Definition view_of (p : GroupProfile) : GroupProfileView :=
  let s (o : option (list Z)) := JStr <$> o in
  let paid := paidJoinFromRules (Some (gpf_rules p ?? [])) in
  mkView (gpf_speakHumans p) (gpf_speakAgents p)
    (if is_val (gpf_speakWho p) "owner" then WhoOwner else if is_val (gpf_speakWho p) "admins" then WhoAdmins else WhoAll)
    (normalizeGroupWake (s (gpf_agentWake p)) wk_mention) (normalizeTier (s (gpf_agentTier p)) Draft)
    (pos_floor (JNum <$> gpf_autoPerHour p) DEFAULT_GROUP_AUTO_PER_HOUR) (pos_floor (JNum <$> gpf_agentRounds p) DEFAULT_GROUP_AGENT_ROUNDS)
    (gpf_rules p ?? []) (gpf_admins p ?? []) (match gpf_room p with Some r => if jeqb r [] then js "chat" else r | None => js "chat" end)
    (match paid with Some _ => JoinPaid
     | None => if is_val (gpf_join p) "invite" then JoinInvite else if is_val (gpf_join p) "apply" then JoinApply else if is_val (gpf_join p) "open" then JoinOpen else JoinInvite end)
    paid.

Ltac field_of := unfold profile_json, get; rewrite ?prop_of_app, ?prop_of_opt; cbn [prop_of]; eval_keys; cbv iota.
Lemma get_who p : get (profile_json p) (js "speakWho") = JStr <$> gpf_speakWho p.
Proof. field_of. by destruct (gpf_speakWho p). Qed.
Lemma get_rules p : get (profile_json p) (js "rules") = JStr <$> gpf_rules p.
Proof. field_of. by destruct (gpf_rules p). Qed.
Lemma get_admins p : get (profile_json p) (js "admins") = (λ l, JArr (map JStr l)) <$> gpf_admins p.
Proof. field_of. by destruct (gpf_admins p). Qed.
Lemma get_join p : get (profile_json p) (js "join") = JStr <$> gpf_join p.
Proof. field_of. by destruct (gpf_join p). Qed.
Lemma get_agentWake p : get (profile_json p) (js "agentWake") = JStr <$> gpf_agentWake p.
Proof. field_of. by destruct (gpf_agentWake p). Qed.
Lemma get_agentTier p : get (profile_json p) (js "agentTier") = JStr <$> gpf_agentTier p.
Proof. field_of. by destruct (gpf_agentTier p). Qed.
Lemma get_room p : get (profile_json p) (js "room") = JStr <$> gpf_room p.
Proof. field_of. by destruct (gpf_room p). Qed.
Lemma get_autoPerHour p : get (profile_json p) (js "autoPerHour") = JNum <$> gpf_autoPerHour p.
Proof. field_of. by destruct (gpf_autoPerHour p). Qed.
Lemma get_agentRounds p : get (profile_json p) (js "agentRounds") = JNum <$> gpf_agentRounds p.
Proof. field_of. by destruct (gpf_agentRounds p). Qed.
Lemma get_speakHumans p : get (profile_json p) (js "speakHumans") = Some (JBool (gpf_speakHumans p)).
Proof. field_of. done. Qed.
Lemma get_speakAgents p : get (profile_json p) (js "speakAgents") = Some (JBool (gpf_speakAgents p)).
Proof. field_of. done. Qed.

Lemma omap_strings (l : list (list Z)) : omap (λ a, as_string (Some a)) (map JStr l) = l.
Proof. induction l as [|x l IH]; [done|]. cbn. by f_equal. Qed.

(** What the host reads of a profile, field by field. *)
Lemma normalize_view (p : GroupProfile) : normalizeGroupProfile (Some (profile_json p)) = view_of p.
Proof.
  unfold normalizeGroupProfile. change (recj (Some (profile_json p))) with (profile_json p). cbv zeta.
  rewrite get_who, get_rules, get_admins, get_join, get_agentWake, get_agentTier, get_room, get_autoPerHour, get_agentRounds, get_speakHumans, get_speakAgents.
  unfold view_of, is_val. cbv zeta. f_equal.
  all: try (by destruct (gpf_speakHumans p)); try (by destruct (gpf_speakAgents p)); try (by destruct (gpf_rules p)).
  - by destruct (gpf_speakWho p).
  - destruct (gpf_admins p) as [l|]; [|done]. apply omap_strings.
  - by destruct (gpf_room p).
  - destruct (gpf_rules p), (gpf_join p); reflexivity.
Qed.

Definition tag_ok (x : list Z) : Prop := x ≠ [] ∧ trim x = x ∧ 44 ∉ x.

Lemma tags_split (l : list (list Z)) (x w : list Z) :
  forallb is_ws w = true → 44 ∉ w → Forall tag_ok (x :: l) → map trim (split_on 44 (w ++ jjoin (js ", ") (x :: l))) = x :: l.
Proof.
  revert x w. induction l as [|y l IH]; intros x w Hw Hc Hl; apply Forall_cons in Hl as [(Hx & Ht & Hx44) Hl];
    assert (Htr : trim (w ++ x) = x) by (rewrite <-Ht at 2; unfold trim; f_equal; by apply trimStart_app_ws).
  - cbn. rewrite split_on_none by (rewrite elem_of_app; tauto). cbn. by rewrite Htr.
  - change (jjoin (js ", ") (x :: y :: l)) with (x ++ 44 :: ([32] ++ jjoin (js ", ") (y :: l))).
    rewrite app_assoc. rewrite split_on_app by (rewrite elem_of_app; tauto). cbn [map]. rewrite Htr. f_equal. apply IH; [done| |done].
    rewrite list_elem_of_singleton. done.
Qed.

Lemma form_tags_join (l : list (list Z)) : Forall tag_ok l → form_tags (jjoin (js ", ") l) = l.
Proof.
  intros Hl. unfold form_tags. destruct l as [|x l]; [done|]. change (jjoin (js ", ") (x :: l)) with ([] ++ jjoin (js ", ") (x :: l)).
  rewrite (tags_split l x []); [|done|apply not_elem_of_nil|done]. apply filterb_all. intros y Hy. rewrite Forall_forall in Hl. apply Hl in Hy as (Hy & _). by apply negb_true_iff, jeqb_neq.
Qed.

(** Opening the editor of a group without a price and saving it unchanged
    changes nothing of its governance, whatever the owner's wallet is. *)
Theorem editor_unchanged (p : GroupProfile) (wallet : option (list Z))
  (Hjoin : ed_join (editor_of (Some p)) ≠ js "paid") (Htags : Forall tag_ok (gpf_tags p ?? [])) :
  let p' := edited_profile (Some p) wallet (editor_of (Some p)) in
  group_view p' = group_view p ∧ gpf_tags p' ?? [] = gpf_tags p ?? [] ∧ bool_decide (gpf_public p' = Some true) = bool_decide (gpf_public p = Some true) ∧
  gpf_template p' = gpf_template p ∧ gpf_joinPrice p' = gpf_joinPrice p ∧ gpf_joinAddr p' = gpf_joinAddr p ∧ gpf_joinNote p' = gpf_joinNote p.
Proof.
  cbv zeta. apply jeqb_neq in Hjoin.
  assert (Hpaid : edit_paid wallet (editor_of (Some p)) = None) by (unfold edit_paid; case_match; by rewrite ?Hjoin).
  assert (Hj : ed_join (editor_of (Some p)) = gpf_join p ?? js "invite").
  { unfold editor_of in *. cbn [ed_join] in *. repeat case_match; try done. }
  split_and!; try (unfold edited_profile; rewrite Hpaid; reflexivity).
  - rewrite !group_view_eq, !normalize_view. unfold view_of, edited_profile, is_val. cbv zeta. cbn -[js jeqb paidJoinFromRules editor_of]. rewrite Hj.
    unfold editor_of. cbn -[js jeqb paidJoinFromRules]. f_equal.
    + by destruct (gpf_speakWho p).
    + by destruct (gpf_agentWake p).
    + by destruct (gpf_agentTier p).
    + by destruct (gpf_join p).
  - unfold edited_profile. cbn. by apply form_tags_join.
  - unfold edited_profile. cbn. destruct (gpf_public p) as [[]|]; done.
Qed.

(** In a group whose rules carry the old payment line the editor's choice of
    how to join has no effect: saved as invite, apply or open, the group still
    has the same price for the host and still reads as paid. *)
Theorem marker_outlives_edit (profile : option GroupProfile) (wallet : option (list Z)) (e : EditForm) (terms : PaidJoinInfo)
  (Hm : paidJoinFromRules (Some (ed_rules e)) = Some terms) (Hj : ed_join e ≠ js "paid") :
  paidJoinConfig (Some (paid_fields (edited_profile profile wallet e))) = Some terms ∧ gp_join (group_view (edited_profile profile wallet e)) = JoinPaid.
Proof.
  apply jeqb_neq in Hj. split.
  - unfold paidJoinConfig, paid_fields, edited_profile. cbn -[js jeqb startsWith paidJoinFromRules edit_paid]. rewrite Hj. cbn [andb]. rewrite Hm. by repeat case_match.
  - rewrite group_view_eq, normalize_view. unfold view_of. cbn -[js jeqb paidJoinFromRules]. by rewrite Hm.
Qed.

(** ** Witnesses *)

Definition demo_profile (rules : list Z) (admins : list (list Z)) : GroupProfile :=
  mkProfile (Some (js "standard")) (Some (js "chat")) true true None (Some (js "apply")) None None None None None None None (Some admins) None (Some [js "go"; js "chess club"]) (Some rules).
Definition row (gid : list Z) (p : GroupProfile) : GroupRow := mkGroupRow gid gid (js "me") true 1 2 0 0 None None (Some p).
Definition roster (gid : list Z) (p : GroupProfile) : GroupInfo := mkGroupInfo (row gid p) [mkMember (js "me") (js "Me") None; mkMember (js "f1") (js "Ann") None] [] MrOwner None.
Definition ga : GroupRow := row (js "ga") (demo_profile (js "be kind") [js "f1"]).
Definition gb : GroupRow := row (js "gb") (demo_profile (js "no politics") []).
Definition ia : GroupInfo := roster (js "ga") (demo_profile (js "be kind") [js "f1"]).
Definition ib : GroupInfo := roster (js "gb") (demo_profile (js "no politics") []).
Definition plain (k : list Z) : list Z := k.
Definition loaded : Pane := (run_pane plain (Some (js "me")) [PSettle 0 (PaRoster ia)] (mounted ga true []).1).1.

Lemma removal_needs_two_clicks_witness :
  PoCall (AGroupKick (js "ga") (js "f1")) ∈ (pane_step plain (Some (js "me")) (run_pane plain (Some (js "me")) [PKick (js "f1")] loaded).1 (PKick (js "f1"))).2 ∧
  ∃ pre mid, [PKick (js "f1")] = pre ++ PKick (js "f1") :: mid ∧ Forall (stays (js "ga") (KICK (js "f1"))) mid.
Proof.
  assert (H : PoCall (AGroupKick (js "ga") (js "f1")) ∈ (pane_step plain (Some (js "me")) (run_pane plain (Some (js "me")) [PKick (js "f1")] loaded).1 (PKick (js "f1"))).2)
    by (vm_compute; left).
  split; [exact H|].
  exact (proj2 (proj2 (proj1 (removal_needs_two_clicks plain (Some (js "me")) loaded [PKick (js "f1")] (PKick (js "f1")) (js "ga") ltac:(vm_compute; reflexivity)) (js "f1") H))).
Defined.

Definition calm_demo : list PEv := [PSettle 0 (PaRoster ia); PShow true true true gb; PSettle 0 (PaRoster ib); POpenEditor; PSave].
Lemma pane_roster_own_witness : roster_ok (run_pane plain (Some (js "me")) calm_demo (mounted ga true []).1).1.
Proof.
  apply pane_roster_own; [by constructor|]. unfold calm_demo. split; [|split; [|split; [|by vm_compute]]].
  - intros c Hc. vm_compute in Hc. by injection Hc as <-.
  - right. intros c gid Hc. vm_compute in Hc. by apply elem_of_nil in Hc.
  - intros c Hc. vm_compute in Hc. by injection Hc as <-.
Defined.

Lemma late_roster_overwrites_witness :
  ∃ p, (run_pane plain (Some (js "me")) [POpenEditor; PSave] (run_pane plain (Some (js "me")) (late gb ia ib) (mounted ga false []).1).1).2 = [PoCall (AGroupSetProfile (js "gb") p)] ∧
       gpf_rules p = Some (js "be kind") ∧ gpf_admins p = Some [js "f1"].
Proof.
  destruct (late_roster_overwrites plain (Some (js "me")) ga gb ia ib (demo_profile (js "be kind") [js "f1"])) as (p & Hp & Hr & Ha & _); [done..|].
  exists p. exact (conj Hp (conj Hr Ha)).
Defined.

Lemma editor_unchanged_witness :
  let p := demo_profile (js "be kind") [js "f1"] in group_view (edited_profile (Some p) None (editor_of (Some p))) = group_view p.
Proof.
  cbv zeta. apply editor_unchanged; [done|]. change (Forall tag_ok [js "go"; js "chess club"]).
  repeat (apply Forall_cons; split); [| |apply Forall_nil; exact I]; (split_and!; [done|vm_compute; reflexivity|apply (bool_decide_unpack _); vm_compute; exact I]).
Defined.

Definition marked : EditForm := editor_of (Some (demo_profile (rulesWithPaidJoin (Some (js "be kind")) (js "5") (js "0xme")) [])).
Definition opened : EditForm := mkEdit true true (js "all") (js "open") (js "mention") (js "draft") (ed_joinPrice marked) (ed_rules marked) false [].
Lemma marker_outlives_edit_witness :
  ed_join marked = js "paid" ∧ gp_join (group_view (edited_profile None None opened)) = JoinPaid.
Proof.
  split; [vm_compute; reflexivity|]. apply (marker_outlives_edit None None opened (mkPaid (js "5") (js "0xme"))); [vm_compute; reflexivity|done].
Defined.
