(* ===== verification/RoomComposer.v ===== *)
(** * The chat room (client/rooms/ChatRoom.tsx, client/GroupAgentsSheet.tsx)

    The composer of a group (typing, the mention popup, sending), the markers of
    working voices, the per-group switches and their answers. The component is
    reused when the pane moves to another group; answers may come after that. *)

From S2P Require Import Prelude JsString JsMap Json Policy AlterChat GroupSettings Network PageState ClientApi.
#[local] Open Scope Z_scope.

(** ** Colours and names *)

Definition uint32 (z : Z) : Z := z `mod` 2 ^ 32.
(** [hueOf]: a 32-bit hash, unsigned at every step. *)
Definition hash_step (h c : Z) : Z := uint32 (h * 31 + c).
Definition hueOf (fp : list Z) : Z := fold_left hash_step fp 0 `mod` 360.

Definition cut8 (fp : list Z) : list Z := if (8 <? length fp)%nat then take 8 fp ++ js "…" else fp.
(** [names]: a Map built from the members, the last of a fingerprint wins. *)
Definition name_map (l : list GroupMember) : list (list Z * list Z) := fold_left (λ m x, map_set m (mb_fp x) (mb_name x)) l [].
Definition nameOf (l : list GroupMember) (fp : option (list Z)) : list Z :=
  match fp with None => js "?" | Some f => match map_get (name_map l) f with Some n => n | None => cut8 f end end.

Definition is_out (e : ThreadEntry) : bool := bool_decide (te_dir e = dir_out).
(** Whose name a bubble carries, on which side it stands. *)
Definition bubble_mine (e : ThreadEntry) : bool := is_out e && negb (bool_decide (te_by e = Some ByAlter)).
Definition voiceLabel (alter : list Z) (e : ThreadEntry) : option (list Z) :=
  if bool_decide (te_by e = Some ByAlter) then Some (match te_agent e ≫= non_empty with Some a => a | None => alter end) else None.
Definition bubble_name (alter myName : list Z) (l : list GroupMember) (e : ThreadEntry) : list Z :=
  match voiceLabel alter e with
  | Some v => (if is_out e then myName else nameOf l (te_from e)) ++ js " · " ++ v
  | None => nameOf l (te_from e)
  end.

(** ** Mentions *)

Section mentions.
Context `{LowerCase}.

Record Candidate := mkCand { ca_name : list Z; ca_owner : option (list Z) }.
Definition cand_key (c : Candidate) : list Z := toLowerCase (ca_name c) ++ js "|" ++ toLowerCase (ca_owner c ?? []).
Record PoolState := mkPool { po_seen : list (list Z); po_pool : list Candidate }.
Definition push (c : Candidate) (s : PoolState) : PoolState :=
  if jeqb (ca_name c) [] || bool_decide (cand_key c ∈ po_seen s) then s else mkPool (po_seen s ++ [cand_key c]) (po_pool s ++ [c]).
Definition member_cands (m : GroupMember) : list Candidate := mkCand (mb_name m) None :: map (λ a, mkCand a (Some (mb_name m))) (mb_agents m ?? []).
Definition all_cands (agentLabel : list Z) (members : list GroupMember) (agentNames : list (list Z)) : list Candidate :=
  concat (map member_cands members) ++ map (λ a, mkCand a (Some agentLabel)) agentNames ++ [mkCand (js "all") None].
Definition mentionPool (agentLabel : list Z) (members : list GroupMember) (agentNames : list (list Z)) : list Candidate :=
  po_pool (fold_left (λ s c, push c s) (all_cands agentLabel members agentNames) (mkPool [] [])).

Record Mention := mkMention { me_start : nat; me_query : list Z }.
Definition MAX_MATCHES : nat := 8.
Definition mentionMatches (pool : list Candidate) (m : option Mention) : list Candidate :=
  match m with
  | None => []
  | Some q => take MAX_MATCHES (filterb (λ p, startsWith (toLowerCase (ca_name p)) (toLowerCase (me_query q))) pool)
  end.

(** The longest tail of characters that are neither blank nor an at sign, read
    backwards. *)
Fixpoint word_back (s : list Z) : list Z * list Z :=
  match s with
  | c :: r => if is_ws c || (c =? 64) then ([], s) else let '(w, rest) := word_back r in (c :: w, rest)
  | [] => ([], [])
  end.
(** The pattern on the text before the caret: an at sign at the start or after a
    blank, then characters that are neither, up to the caret. *)
Definition detectMention (value : list Z) (caret : nat) : option Mention :=
  let '(w, rest) := word_back (reverse (take caret value)) in
  match rest with
  | 64 :: before => match before with
                    | [] => Some (mkMention (caret - length w - 1) (reverse w))
                    | c :: _ => if is_ws c then Some (mkMention (caret - length w - 1) (reverse w)) else None
                    end
  | _ => None
  end.
Definition picked (text : list Z) (m : Mention) (name : list Z) : list Z :=
  take (me_start m) text ++ js "@" ++ name ++ js " " ++ drop (me_start m + 1 + length (me_query m)) text.
End mentions.

(** ** The room's state *)

Record Busy := mkBusy { bu_label : list Z; bu_at : Z }.
(** What an unsuccessful write restores. *)
Inductive Undo := UndoVoices (v : option (list (list Z * bool))) | UndoDuty (d : list Z) | UndoMuted (b : bool) | UndoNothing.
Inductive RCall :=
| RcSettings (cancelled : bool)
| RcAgents (gid : list Z) (cancelled : bool)
| RcWrite (u : Undo)
| RcFeed (name : list Z).

Record Room := mkRoom {
  rm_gid : list Z; rm_text : list Z; rm_voices : option (list (list Z * bool)); rm_commanders : list (list Z * list (list Z)); rm_duty : list Z;
  rm_muted : bool; rm_agents : list (list Z); rm_sheet : bool; rm_mention : option Mention; rm_idx : nat; rm_busy : list (list Z * Busy);
  rm_feeds : list (list Z * (list AlterChatItem * bool)); rm_timers : list (list Z); rm_calls : list RCall }.

Inductive ROut := RoCall (c : ApiCall) | RoSend (body : list Z) | RoSelectAlter.

Definition set_composer (text : list Z) (m : option Mention) (i : nat) (s : Room) : Room :=
  mkRoom (rm_gid s) text (rm_voices s) (rm_commanders s) (rm_duty s) (rm_muted s) (rm_agents s) (rm_sheet s) m i (rm_busy s) (rm_feeds s) (rm_timers s) (rm_calls s).
Definition set_switches (v : option (list (list Z * bool))) (c : list (list Z * list (list Z))) (d : list Z) (m : bool) (s : Room) : Room :=
  mkRoom (rm_gid s) (rm_text s) v c d m (rm_agents s) (rm_sheet s) (rm_mention s) (rm_idx s) (rm_busy s) (rm_feeds s) (rm_timers s) (rm_calls s).
Definition set_rcalls (l : list RCall) (s : Room) : Room :=
  mkRoom (rm_gid s) (rm_text s) (rm_voices s) (rm_commanders s) (rm_duty s) (rm_muted s) (rm_agents s) (rm_sheet s) (rm_mention s) (rm_idx s) (rm_busy s) (rm_feeds s) (rm_timers s) l.
Definition set_busyVoices (b : list (list Z * Busy)) (s : Room) : Room :=
  mkRoom (rm_gid s) (rm_text s) (rm_voices s) (rm_commanders s) (rm_duty s) (rm_muted s) (rm_agents s) (rm_sheet s) (rm_mention s) (rm_idx s) b (rm_feeds s) (rm_timers s) (rm_calls s).
Definition set_feeds (f : list (list Z * (list AlterChatItem * bool))) (ti : list (list Z)) (s : Room) : Room :=
  mkRoom (rm_gid s) (rm_text s) (rm_voices s) (rm_commanders s) (rm_duty s) (rm_muted s) (rm_agents s) (rm_sheet s) (rm_mention s) (rm_idx s) (rm_busy s) f ti (rm_calls s).
Definition set_agents (l : list (list Z)) (s : Room) : Room :=
  mkRoom (rm_gid s) (rm_text s) (rm_voices s) (rm_commanders s) (rm_duty s) (rm_muted s) l (rm_sheet s) (rm_mention s) (rm_idx s) (rm_busy s) (rm_feeds s) (rm_timers s) (rm_calls s).
Definition set_sheet (b : bool) (s : Room) : Room :=
  mkRoom (rm_gid s) (rm_text s) (rm_voices s) (rm_commanders s) (rm_duty s) (rm_muted s) (rm_agents s) b (rm_mention s) (rm_idx s) (rm_busy s) (rm_feeds s) (rm_timers s) (rm_calls s).
Definition ask_room (c : RCall) (s : Room) : Room := set_rcalls (rm_calls s ++ [c]) s.

(** ** Markers of working voices *)

Definition typing_label (captured : list GroupMember) (fp : list Z) (agent : option (list Z)) : list Z :=
  let sender := match findb (λ m, jeqb (mb_fp m) fp) captured with Some m => mb_name m | None => cut8 fp end in
  match agent ≫= non_empty with Some a => sender ++ js " · " ++ a | None => sender end.
(** [captured]: the members of the render in which the group was opened. *)
Definition on_group_typing (captured : list GroupMember) (gid fp : list Z) (agent : option (list Z)) (on : bool) (now : Z) (s : Room) : Room :=
  if jeqb gid (rm_gid s)
  then let key := fp ++ js "|" ++ (agent ?? []) in
       set_busyVoices (if on then map_set (rm_busy s) key (mkBusy (typing_label captured fp agent) now) else map_delete (rm_busy s) key) s
  else s.
Definition on_agent_frame (name : list Z) (gids : list (list Z)) (now : Z) (s : Room) : Room :=
  let key := js "me|" ++ name in
  let s1 := set_busyVoices (if bool_decide (rm_gid s ∈ gids) then map_set (rm_busy s) key (mkBusy name now) else map_delete (rm_busy s) key) s in
  set_feeds (rm_feeds s1) (filterb (λ n, negb (jeqb n name)) (rm_timers s1) ++ [name]) s1.
Definition BUSY_MS : Z := 120000.
Definition shown_busy (now : Z) (s : Room) : list (list Z * Busy) := filterb (λ kv, now - bu_at kv.2 <? BUSY_MS) (rm_busy s).

(** ** The switches *)

Definition voice_flags (vs : gmap (list Z) GroupVoiceSetting) : list (list Z * bool) := map (λ kv, (kv.1, true)) (map_to_list vs).
Definition voice_cmds (vs : gmap (list Z) GroupVoiceSetting) : list (list Z * list (list Z)) := omap (λ kv, (pair kv.1) <$> vo_commanders kv.2) (map_to_list vs).
Definition applySettings (g : GroupSettings) (s : Room) : Room :=
  let vs := gs_voices g ?? ∅ in
  set_switches (Some (voice_flags vs)) (voice_cmds vs) (gs_duty g ?? []) (match gs_muted g with Some b => b | None => rm_muted s end) s.

Definition voice_on (name : list Z) (s : Room) : bool := bool_decide ((rm_voices s ≫= λ v, map_get v name) = Some true).
Definition toggleVoice (name : list Z) (s : Room) : Room * list ROut :=
  let next := negb (voice_on name s) in
  (ask_room (RcWrite (UndoVoices (rm_voices s))) (set_switches (Some (map_set (rm_voices s ?? []) name next)) (rm_commanders s) (rm_duty s) (rm_muted s) s),
   [RoCall (AGroupSettingsSet (rm_gid s) (mkPatch None None (Some (mkVP name next None)) DutyKeep None))]).
Definition pickDuty (value : list Z) (s : Room) : Room * list ROut :=
  (ask_room (RcWrite (UndoDuty (rm_duty s))) (set_switches (rm_voices s) (rm_commanders s) value (rm_muted s) s),
   [RoCall (AGroupSettingsSet (rm_gid s) (mkPatch None None None (if jeqb value [] then DutyClear else DutySet value) None))]).
Definition toggleMuted (s : Room) : Room * list ROut :=
  let next := negb (rm_muted s) in
  (ask_room (RcWrite (UndoMuted (rm_muted s))) (set_switches (rm_voices s) (rm_commanders s) (rm_duty s) next s),
   [RoCall (AGroupSettingsSet (rm_gid s) (mkPatch None None None DutyKeep (Some next)))]).
Definition setCommanders (name : list Z) (l : list (list Z)) (s : Room) : Room * list ROut :=
  (ask_room (RcWrite UndoNothing) s, [RoCall (AGroupSettingsSet (rm_gid s) (mkPatch None None (Some (mkVP name true (Some l))) DutyKeep None))]).
Definition loadFeed (name : list Z) (s : Room) : Room * list ROut := (ask_room (RcFeed name) s, [RoCall (AAgentHistory name (Some 80) (Some (rm_gid s)))]).
Definition undo (u : Undo) (s : Room) : Room :=
  match u with
  | UndoVoices v => set_switches v (rm_commanders s) (rm_duty s) (rm_muted s) s
  | UndoDuty d => set_switches (rm_voices s) (rm_commanders s) d (rm_muted s) s
  | UndoMuted b => set_switches (rm_voices s) (rm_commanders s) (rm_duty s) b s
  | UndoNothing => s
  end.

(** The rows of a trace that enter the timeline. *)
Definition work_item (i : AlterChatItem) : bool :=
  match i with ItThinking _ _ _ _ | ItTool _ _ _ _ | ItAlter _ _ _ _ | ItTurnFailed _ _ _ _ _ => true | _ => false end.

(** ** The sheet of agents *)

Inductive CommanderMode := CmOwner | CmAny | CmCustom.
Definition modeOf (commanders : list (list Z)) : CommanderMode :=
  if bool_decide (js "*" ∈ commanders) then CmAny else if Nat.eqb (length commanders) 0 then CmOwner else CmCustom.

(** ** What happens in the room *)

Section room.
Context `{LowerCase}.
(** The label of the owner's own agents in the popup. *)
Context (agentLabel : list Z).

Definition cancel_call (c : RCall) : RCall := match c with RcSettings _ => RcSettings true | RcAgents g _ => RcAgents g true | c => c end.
(** The effect on [gid] and [showAlterChip]: settings and agents are fetched anew. *)
Definition settings_effect (chip : bool) (s : Room) : Room * list ROut :=
  let s1 := set_rcalls (map cancel_call (rm_calls s)) s in
  if chip then (ask_room (RcAgents (rm_gid s) false) (ask_room (RcSettings false) s1), [RoCall (AGroupSettingsGet (rm_gid s)); RoCall AAgentsList]) else (s1, []).
(** The first render; [muted] is the flag of the group row. *)
Definition mount_room (gid : list Z) (muted chip : bool) : Room * list ROut :=
  settings_effect chip (mkRoom gid [] None [] [] muted [] false None 0 [] [] [] []).
(** A render for another group: the effects on [gid]. *)
Definition show_room (gid : list Z) (chip : bool) (s : Room) : Room * list ROut :=
  if jeqb gid (rm_gid s) then (s, [])
  else settings_effect chip (mkRoom gid [] None [] [] (rm_muted s) (rm_agents s) false None (rm_idx s) [] [] [] (rm_calls s)).

Inductive RAns := RaSettings (g : GroupSettings) | RaAgents (l : list (list Z)) | RaFeed (c : AlterChat) | RaError.
Fixpoint load_feeds (l : list (list Z)) (s : Room) : Room * list ROut :=
  match l with
  | [] => (s, [])
  | n :: r => let x := loadFeed n s in let y := load_feeds r x.1 in (y.1, x.2 ++ y.2)
  end.
Definition settle_room (i : nat) (a : RAns) (s : Room) : Room * list ROut :=
  match rm_calls s !! i with
  | None => (s, [])
  | Some c =>
      let s1 := set_rcalls (delete i (rm_calls s)) s in
      match c, a with
      | RcSettings false, RaSettings g | RcWrite _, RaSettings g => (applySettings g s1, [])
      | RcAgents gid false, RaAgents l => load_feeds l (set_agents l s1)
      | RcFeed name, RaFeed c => (set_feeds (map_set (rm_feeds s1) name (filterb work_item (ch_items c), ch_running c)) (rm_timers s1) s1, [])
      | RcWrite u, RaError => (undo u s1, [])
      | RcSettings _, _ | RcAgents _ _, _ | RcFeed _, RaError => (s1, [])
      | _, _ => (s, [])
      end
  end.

Definition matches_now (members : list GroupMember) (s : Room) : list Candidate := mentionMatches (mentionPool agentLabel members (rm_agents s)) (rm_mention s).
Definition type_text (value : list Z) (caret : nat) (s : Room) : Room := set_composer value (detectMention value caret) 0 s.
Definition pickMention (name : list Z) (s : Room) : Room :=
  match rm_mention s with None => s | Some m => set_composer (picked (rm_text s) m name) None (rm_idx s) s end.
Definition send (canSpeakHuman : bool) (s : Room) : Room * list ROut :=
  let body := trim (rm_text s) in
  if jeqb body [] || negb canSpeakHuman then (s, []) else (set_composer [] (rm_mention s) (rm_idx s) s, [RoSend body]).

Inductive Key := KEscape | KDown | KUp | KEnter.
Definition moved_idx (down : bool) (i len : nat) : nat := (Nat.min i (len - 1) + (if down then 1 else len - 1)) `mod` len.
Definition on_key (members : list GroupMember) (canSpeakHuman : bool) (k : Key) (s : Room) : Room * list ROut :=
  let l := matches_now members s in
  let popup := bool_decide (is_Some (rm_mention s)) && negb (Nat.eqb (length l) 0) in
  match k with
  | KEscape => (set_composer (rm_text s) None (rm_idx s) s, [])
  | KDown | KUp => if popup then (set_composer (rm_text s) (rm_mention s) (moved_idx (match k with KDown => true | _ => false end) (rm_idx s) (length l)) s, []) else (s, [])
  | KEnter => if popup then match l !! Nat.min (rm_idx s) (length l - 1) with Some c => (pickMention (ca_name c) s, []) | None => (s, []) end
              else send canSpeakHuman s
  end.

Inductive REv :=
| RShow (gid : list Z) (chip : bool) | RChip (chip : bool) | RSettle (i : nat) (a : RAns)
| RTyping (captured : list GroupMember) (gid fp : list Z) (agent : option (list Z)) (on : bool) (now : Z) | RAgent (name : list Z) (gids : list (list Z)) (now : Z) | RFeedTimer (name : list Z)
| RType (value : list Z) (caret : nat) | RHover (i : nat) | RPick (name : list Z) | RBlur | RKey (members : list GroupMember) (can : bool) (k : Key) | RSendClick (can : bool)
| RToggleVoice (name : list Z) | RDuty (value : list Z) | RMute | RCommanders (name : list Z) (l : list (list Z)) | RSheet (b : bool).

Definition room_step (s : Room) (e : REv) : Room * list ROut :=
  match e with
  | RShow gid chip => show_room gid chip s
  | RChip chip => settings_effect chip s
  | RSettle i a => settle_room i a s
  | RTyping captured gid fp agent on now => (on_group_typing captured gid fp agent on now s, [])
  | RAgent name gids now => (on_agent_frame name gids now s, [])
  | RFeedTimer name => if bool_decide (name ∈ rm_timers s)
                       then loadFeed name (set_feeds (rm_feeds s) (filterb (λ n, negb (jeqb n name)) (rm_timers s)) s) else (s, [])
  | RType value caret => (type_text value caret s, [])
  | RHover i => (set_composer (rm_text s) (rm_mention s) i s, [])
  | RPick name => (pickMention name s, [])
  | RBlur => (set_composer (rm_text s) None (rm_idx s) s, [])
  | RKey members can k => on_key members can k s
  | RSendClick can => send can s
  | RToggleVoice name => if bool_decide (is_Some (rm_voices s)) then toggleVoice name s else (s, [])
  | RDuty value => pickDuty value s
  | RMute => toggleMuted s
  | RCommanders name l => setCommanders name l s
  | RSheet b => (set_sheet b s, [])
  end.
Definition run_room (evs : list REv) (s : Room) : Room := fold_left (λ s e, (room_step s e).1) evs s.
End room.

(** * Theorems *)

(** ** A picked mention reaches its addressee *)

Lemma word_back_app (s w rest : list Z) : word_back s = (w, rest) → s = w ++ rest.
Proof.
  revert w rest. induction s as [|c r IH]; intros w rest; cbn; [by intros [= <- <-]|].
  case_match; [by intros [= <- <-]|]. destruct (word_back r) as [w' rest'] eqn:E. intros [= <- <-]. cbn. f_equal. by apply IH.
Qed.

Lemma detect_split (value : list Z) (caret : nat) (m : Mention) :
  (caret ≤ length value)%nat → detectMention value caret = Some m →
  take caret value = take (me_start m) value ++ 64 :: me_query m ∧ (me_start m + 1 + length (me_query m) = caret)%nat.
Proof.
  intros Hle. unfold detectMention. destruct (word_back (reverse (take caret value))) as [w rest] eqn:E. apply word_back_app in E.
  intros Hm. assert (Hrest : ∃ before, rest = 64 :: before ∧ m = mkMention (caret - length w - 1) (reverse w)).
  { destruct rest as [|c before]; [done|]. destruct (decide (c = 64)) as [->|Hne]; [|by repeat case_match].
    exists before. split; [done|]. destruct before; [|case_match; [|done]]; by injection Hm as <-. }
  destruct Hrest as (before & -> & ->). cbn [me_start me_query].
  assert (Ht : take caret value = reverse before ++ 64 :: reverse w).
  { rewrite <-(reverse_involutive (take caret value)), E, reverse_app, reverse_cons, <-app_assoc. done. }
  assert (Hlen : caret = (length before + 1 + length w)%nat).
  { apply (f_equal length) in Ht. rewrite length_take, length_app in Ht. cbn in Ht. rewrite !length_reverse in Ht. lia. }
  rewrite length_reverse. split; [|lia]. replace (caret - length w - 1)%nat with (length before) by lia.
  assert (Hb : take (length before) value = take (length before) (take caret value)) by (rewrite take_take; f_equal; lia).
  rewrite Hb, Ht, take_app_length'; [done|by rewrite length_reverse].
Qed.

(** Trimming around a word that stands between blanks keeps the word and what
    ends it. *)
Lemma trim_around (p t r : list Z) :
  t ≠ [] → (∀ c, head t = Some c → is_ws c = false) → (∀ c, last t = Some c → is_ws c = false) →
  ∃ p' r', trim (p ++ t ++ 32 :: r) = p' ++ t ++ r' ∧ (head r' = None ∨ head r' = Some 32).
Proof.
  intros Hne Hh Hl. unfold trim.
  assert (Hs : ∃ p', trimStart (p ++ t ++ 32 :: r) = p' ++ t ++ 32 :: r).
  { destruct (trimStart p) as [|c q] eqn:E.
    - exists []. rewrite trimStart_app_ws by by apply trimStart_all_ws. apply trimStart_id. intros c. destruct t; [done|]. apply Hh.
    - exists (c :: q). rewrite trimStart_app by by rewrite E. by rewrite E. }
  destruct Hs as [p' ->]. exists p'. unfold trimEnd. rewrite app_assoc, reverse_app.
  destruct (trimStart (reverse (32 :: r))) as [|c q] eqn:E.
  - exists []. rewrite trimStart_app_ws by by apply trimStart_all_ws. rewrite trimStart_id.
    + rewrite reverse_involutive, app_nil_r. by split; [|left].
    + intros c Hc. apply Hl. rewrite reverse_app in Hc. destruct (reverse t) eqn:Et.
      { apply (f_equal reverse) in Et. rewrite reverse_involutive in Et. by rewrite Et in Hne. }
      cbn in Hc. rewrite <-(reverse_involutive t), last_reverse_head, Et. done.
  - exists (reverse (c :: q)). rewrite trimStart_app by by rewrite E. rewrite E, reverse_app, reverse_involutive, <-app_assoc. split; [done|]. right.
    destruct (trimStart_suffix (reverse (32 :: r))) as [z Hz]. rewrite E in Hz. apply (f_equal reverse) in Hz.
    rewrite reverse_involutive, reverse_app in Hz. destruct (reverse (c :: q)) as [|x y] eqn:Ex; [|by injection Hz as <- _].
    apply (f_equal length) in Ex. by rewrite length_reverse in Ex.
Qed.

Lemma forallb_trim (f : Z → bool) (s : list Z) : forallb f s = true → forallb f (trim s) = true.
Proof.
  intros Hs. unfold trim. destruct (trimStart_suffix s) as [a Ha], (trimEnd_prefix (trimStart s)) as [b Hb].
  rewrite Ha, Hb, !forallb_app in Hs. by bools.
Qed.

Section mention.
Context `{LowerCase}.
#[local] Notation ascii := (forallb is_ascii).

End mention.

(** ** The popup *)

Section popup.
Context `{LowerCase} (agentLabel : list Z).

Lemma moved_idx_lt (down : bool) (i len : nat) : (0 < len)%nat → (moved_idx down i len < len)%nat.
Proof. intros. apply Nat.mod_upper_bound. lia. Qed.

Lemma push_keys (l : list Candidate) (s : PoolState) :
  po_seen s = map cand_key (po_pool s) → NoDup (po_seen s) →
  let s' := fold_left (λ s c, push c s) l s in po_seen s' = map cand_key (po_pool s') ∧ NoDup (po_seen s').
Proof.
  revert s. induction l as [|c l IH]; intros s Hs Hn; [done|]. cbn. apply IH; unfold push; case_match eqn:E; try done; cbn.
  - by rewrite map_app, Hs.
  - bools. apply NoDup_app. split_and!; [done| |apply NoDup_singleton]. intros x Hx Hx'. apply list_elem_of_singleton in Hx'. by subst.
Qed.

Lemma map_sublist {A B} (f : A → B) (l k : list A) : sublist l k → sublist (map f l) (map f k).
Proof. induction 1; cbn; by constructor. Qed.

(** With the popup open, Enter always inserts one of its rows, after any number
    of arrow keys and hovers: the rows are at most eight, differ in name or
    owner when case is ignored, and start with what was typed. *)
Theorem enter_picks_shown (members : list GroupMember) (can : bool) (s : Room)
  (Hm : is_Some (rm_mention s)) (Hl : matches_now agentLabel members s ≠ []) :
  ∃ c q, c ∈ matches_now agentLabel members s ∧ rm_mention s = Some q ∧ startsWith (toLowerCase (ca_name c)) (toLowerCase (me_query q)) = true ∧
    on_key agentLabel members can KEnter s = (pickMention (ca_name c) s, []) ∧
    (length (matches_now agentLabel members s) ≤ MAX_MATCHES)%nat ∧ NoDup (map cand_key (matches_now agentLabel members s)).
Proof.
  destruct Hm as [q Hq]. set (l := matches_now agentLabel members s) in *.
  assert (Hlen : (0 < length l)%nat) by (destruct l; [done|cbn; lia]).
  destruct (lookup_lt_is_Some_2 l (Nat.min (rm_idx s) (length l - 1))) as [c Hc]; [lia|].
  assert (Hin : c ∈ l) by by apply list_elem_of_lookup_2 in Hc.
  set (pool := mentionPool agentLabel members (rm_agents s)).
  assert (Hdef : l = take MAX_MATCHES (filterb (λ p, startsWith (toLowerCase (ca_name p)) (toLowerCase (me_query q))) pool)).
  { unfold l, matches_now. by rewrite Hq. }
  exists c, q. split_and!; [done|done| | | |].
  - rewrite Hdef in Hin. apply elem_of_take in Hin as (i & Hi & _). apply list_elem_of_lookup_2, elem_of_filterb in Hi. by apply Hi.
  - unfold on_key. fold l. rewrite Hq, bool_decide_true by eauto. destruct (Nat.eqb_spec (length l) 0); [lia|]. cbn [negb andb]. by rewrite Hc.
  - rewrite Hdef, length_take. lia.
  - assert (Hn : NoDup (map cand_key pool)).
    { unfold pool, mentionPool. destruct (push_keys (all_cands agentLabel members (rm_agents s)) (mkPool [] [])) as [He Hn]; [done|constructor|]. by rewrite <-He. }
    rewrite Hdef. eapply sublist_NoDup; [exact Hn|]. apply map_sublist. etrans; [apply sublist_take|apply filterb_sublist].
Qed.
End popup.

(** ** Muting *)

Section mute.
Context `{LowerCase} (agentLabel : list Z).

(** Answers of the host: settings as its store gives them. *)
Definition host_answer (a : RAns) : Prop := match a with RaSettings g => ∃ st gid, store_wf st ∧ g = get_group st gid | _ => True end.
Definition no_unmute (c : RCall) : Prop := c ≠ RcWrite (UndoMuted false).

Lemma host_muted (st : GroupSettingsStore) (gid : list Z) : store_wf st → gs_muted (get_group st gid) ≠ Some false.
Proof. intros Hst. destruct (get_group_wf st gid Hst) as [->|(_ & _ & [H'|H'] & _)]; rewrite ?H'; done. Qed.

Definition stuck (s : Room) : Prop := rm_muted s = true ∧ Forall no_unmute (rm_calls s).
Lemma stuck_ask (c : RCall) (s : Room) : no_unmute c → stuck s → stuck (ask_room c s).
Proof. intros Hc [Hm Hf]. split; [done|]. apply Forall_app. by split; [|constructor]. Qed.
Lemma stuck_same (s s' : Room) : rm_muted s' = rm_muted s → rm_calls s' = rm_calls s → stuck s → stuck s'.
Proof. unfold stuck. by intros -> ->. Qed.
Lemma stuck_effect (chip : bool) (s : Room) : stuck s → stuck (settings_effect chip s).1.
Proof.
  intros [Hm Hf]. assert (stuck (set_rcalls (map cancel_call (rm_calls s)) s)) as Hs.
  { split; [done|]. cbn. apply Forall_fmap. eapply Forall_impl; [exact Hf|]. by intros []. }
  unfold settings_effect. destruct chip; [|done]. cbn [fst]. apply stuck_ask; [done|]. by apply stuck_ask.
Qed.
Lemma stuck_feeds (l : list (list Z)) (s : Room) : stuck s → stuck (load_feeds l s).1.
Proof. revert s. induction l as [|x l IH]; intros s Hs; [done|]. cbn. by apply IH, stuck_ask. Qed.

Lemma stuck_settle (i : nat) (a : RAns) (s : Room) : host_answer a → stuck s → stuck (settle_room i a s).1.
Proof.
  intros Ha Hs. unfold settle_room. destruct (rm_calls s !! i) as [c|] eqn:Ec; [|done].
  assert (Hc : no_unmute c) by (destruct Hs as [_ Hf]; rewrite Forall_forall in Hf; exact (Hf c (list_elem_of_lookup_2 _ _ _ Ec))).
  assert (Hs1 : stuck (set_rcalls (delete i (rm_calls s)) s)).
  { destruct Hs as [Hm Hf]. split; [done|]. cbn. rewrite Forall_forall in *. intros x Hx. apply Hf. exact (list_elem_of_delete_inv _ _ _ Hx). }
  set (s1 := set_rcalls (delete i (rm_calls s)) s) in *.
  assert (Happ : ∀ g, a = RaSettings g → stuck (applySettings g s1)).
  { intros g ->. destruct Ha as (st & gid & Hst & ->), Hs1 as [Hm Hf]. split; [|exact Hf]. cbn [applySettings set_switches rm_muted].
    pose proof (host_muted st gid Hst). destruct (gs_muted (get_group st gid)) as [[]|]; done. }
  destruct c as [[]|gid []|u|name], a; cbn [fst]; eauto; try done; try (by apply (stuck_same s1)).
  - apply stuck_feeds. by apply (stuck_same s1).
  - destruct u as [v|d|[]|]; [by apply (stuck_same s1)|by apply (stuck_same s1)|split; [done|apply Hs1]|by destruct Hc|done].
Qed.

Lemma stuck_step (s : Room) (e : REv) :
  e ≠ RMute → (∀ i a, e = RSettle i a → host_answer a) → stuck s → stuck (room_step agentLabel s e).1.
Proof.
  intros Hne Hhost Hs. destruct e; cbn [room_step fst]; try done; try (by apply (stuck_same s)); eauto using stuck_effect, stuck_settle.
  - unfold show_room. case_match; [done|]. by apply stuck_effect, (stuck_same s).
  - unfold on_group_typing. case_match; [by apply (stuck_same s)|done].
  - case_match; [|done]. apply stuck_ask; [done|]. by apply (stuck_same s).
  - unfold pickMention. case_match; [by apply (stuck_same s)|done].
  - unfold on_key, send, pickMention. repeat case_match; cbn [fst]; try done; by apply (stuck_same s).
  - unfold send. case_match; [done|]. by apply (stuck_same s).
  - case_match; [|done]. apply stuck_ask; [done|]. by apply (stuck_same s).
  - apply stuck_ask; [done|]. by apply (stuck_same s).
  - by apply stuck_ask.
Qed.

(** The mute switch is never switched off by the host: once it is on it stays
    on in every group the owner opens afterwards, whatever settings the host
    answers for them, until the owner clicks it. *)
Theorem mute_carries_over (s : Room) (evs : list REv)
  (Hs : rm_muted s = true) (Hc : Forall no_unmute (rm_calls s))
  (Hevs : Forall (λ e, e ≠ RMute ∧ ∀ i a, e = RSettle i a → host_answer a) evs) :
  rm_muted (run_room agentLabel evs s) = true.
Proof.
  assert (Hst : stuck s) by done. clear Hs Hc. revert s Hst. induction Hevs as [|e r [He Hh] Hr IH]; intros s Hst; [by destruct Hst|].
  cbn. by apply IH, stuck_step.
Qed.
End mute.

(** ** An answer that belongs to another group *)

Section late.
Context `{LowerCase} (agentLabel : list Z).

Lemma map_get_flags (vs : gmap (list Z) GroupVoiceSetting) (name : list Z) : is_Some (vs !! name) → map_get (voice_flags vs) name = Some true.
Proof.
  intros [v Hv]. unfold voice_flags. apply elem_of_map_to_list in Hv. induction (map_to_list vs) as [|[k w] l IH]; [by apply elem_of_nil in Hv|].
  cbn. destruct (jeqb k name) eqn:E; [done|]. apply IH. apply elem_of_cons in Hv as [[= -> ->]|Hv]; [|done]. by rewrite jeqb_refl in E.
Qed.

(** A write that answers after the owner moved on sets the switches of the
    group now shown: a voice that is on in the first group shows as on, and the
    click meant to switch it tells the host to switch it off in the second. *)
Theorem late_write_misleads (s : Room) (i : nat) (u : Undo) (gid name : list Z) (chip : bool) (g : GroupSettings)
  (Hi : rm_calls s !! i = Some (RcWrite u)) (Hne : gid ≠ rm_gid s) (Hon : ∃ vs, gs_voices g = Some vs ∧ is_Some (vs !! name)) :
  let late := (settle_room i (RaSettings g) (show_room gid chip s).1).1 in
  rm_gid late = gid ∧ voice_on name late = true ∧
  (room_step agentLabel late (RToggleVoice name)).2 = [RoCall (AGroupSettingsSet gid (mkPatch None None (Some (mkVP name false None)) DutyKeep None))].
Proof.
  apply jeqb_neq in Hne. destruct Hon as (vs & Hg & Hn). cbv zeta.
  assert (Hs : ∃ s', (show_room gid chip s).1 = s' ∧ rm_gid s' = gid ∧ rm_calls s' !! i = Some (RcWrite u)).
  { eexists. split; [reflexivity|]. unfold show_room, settings_effect. rewrite Hne.
    assert (Hm : map cancel_call (rm_calls s) !! i = Some (RcWrite u)) by (change (map cancel_call (rm_calls s)) with (cancel_call <$> rm_calls s); by rewrite list_lookup_fmap, Hi).
    destruct chip; cbn [fst ask_room set_rcalls rm_calls rm_gid]; (split; [done|]); [|done]. apply lookup_app_l_Some. by apply lookup_app_l_Some. }
  destruct Hs as (s' & -> & Hgid & Hcall). unfold settle_room. rewrite Hcall. cbn [fst].
  assert (Hv : voice_on name (applySettings g (set_rcalls (delete i (rm_calls s')) s')) = true).
  { unfold voice_on, applySettings. cbn [set_switches rm_voices mbind option_bind]. rewrite Hg. cbn [nullish]. rewrite map_get_flags by done. done. }
  split_and!; [done|done|]. cbn [room_step]. unfold toggleVoice. rewrite Hv. cbn [snd negb]. rewrite bool_decide_true by by eexists.
  cbn. by rewrite Hgid.
Qed.
End late.

(** ** Sending and colours *)

(** The composer sends exactly the trimmed text, never an empty one and never
    where the owner may not speak, and is empty afterwards. *)
Theorem send_outcome (can : bool) (s : Room) :
  (send can s = (s, []) ∧ (trim (rm_text s) = [] ∨ can = false)) ∨
  (∃ s', send can s = (s', [RoSend (trim (rm_text s))]) ∧ rm_text s' = [] ∧ can = true ∧ trim (rm_text s) ≠ []).
Proof.
  unfold send. destruct (jeqb (trim (rm_text s)) []) eqn:E; [apply jeqb_eq in E; left; cbn [orb]; split; [done|by left]|]. apply jeqb_neq in E.
  destruct can; [right|left; split; [done|by right]]. eexists. split; [reflexivity|]. by split_and!.
Qed.

(** The colour of a sender is a hue below 360 and depends on the polynomial
    hash of the fingerprint modulo 2^32 only: the unsigned shift at every step
    loses nothing. *)
Theorem hue_polynomial (fp : list Z) : hueOf fp = uint32 (fold_left (λ h c, h * 31 + c) fp 0) `mod` 360 ∧ 0 <= hueOf fp < 360.
Proof.
  split; [|apply Z.mod_pos_bound; lia]. unfold hueOf. f_equal. change 0 with (uint32 0) at 1. generalize 0.
  induction fp as [|c fp IH]; intros h; [done|]. cbn. rewrite <-IH. f_equal. unfold hash_step, uint32.
  by rewrite <-Z.add_mod_idemp_l, Z.mul_mod_idemp_l, Z.add_mod_idemp_l by lia.
Qed.

(** ** Witnesses *)

#[local] Existing Instance AsciiLowerCase.
Definition typed : list Z := js "hi @cod please".

Definition demo_members : list GroupMember := [mkMember (js "f1") (js "Ann") (Some [js "Coder"; js "coder"]); mkMember (js "f2") (js "Cora") None].
Definition popup_room : Room := (room_step (js "mine") (mount_room (js "g1") false true).1 (RType (js "hey @co") 7)).1.
Lemma enter_picks_shown_witness :
  ∃ c, c ∈ matches_now (js "mine") demo_members popup_room ∧ on_key (js "mine") demo_members true KEnter popup_room = (pickMention (ca_name c) popup_room, []) ∧ length (matches_now (js "mine") demo_members popup_room) = 2%nat.
Proof.
  destruct (enter_picks_shown (js "mine") demo_members true popup_room) as (c & q & Hc & _ & _ & Hk & _); [by eexists|by vm_compute|].
  exists c. split; [exact Hc|]. split; [exact Hk|]. vm_compute. reflexivity.
Defined.

Definition muted_room : Room := (mount_room (js "muted") true true).1.
Definition plain_store : GroupSettingsStore := mkGStore ∅ true None.
Definition visit : list REv := [RShow (js "loud") true; RSettle 2 (RaSettings empty_settings)].
Lemma mute_carries_over_witness : rm_gid (run_room (js "mine") visit muted_room) = js "loud" ∧ rm_muted (run_room (js "mine") visit muted_room) = true.
Proof.
  split; [vm_compute; reflexivity|]. apply mute_carries_over; [reflexivity|by repeat constructor|].
  constructor; [by split|]. constructor; [|constructor]. split; [done|]. intros i a [= <- <-]. exists plain_store, (js "loud"). split; [|reflexivity].
  apply map_Forall_empty.
Defined.

Definition toggled_room : Room := (toggleVoice (js "Coder") (applySettings empty_settings (set_rcalls [] muted_room))).1.
Definition coder_on : GroupSettings := mkGS (Some {[js "Coder" := mkVoice None]}) None None.
Lemma late_write_misleads_witness :
  (room_step (js "mine") (settle_room 0 (RaSettings coder_on) (show_room (js "other") true toggled_room).1).1 (RToggleVoice (js "Coder"))).2 =
  [RoCall (AGroupSettingsSet (js "other") (mkPatch None None (Some (mkVP (js "Coder") false None)) DutyKeep None))].
Proof.
  apply (late_write_misleads (js "mine") toggled_room 0 (UndoVoices (Some []))); [reflexivity|done|]. eexists. split; [reflexivity|]. exists (mkVoice None). apply lookup_singleton_Some. done.
Defined.
