(* ===== verification/Panes.v ===== *)
(** * The notices and the frame of the page (client/MemoryNotification.tsx,
      client/InboxOverlay.tsx, client/SoulmirrorPage.tsx, client/FriendPane.tsx)

    Four small machines of the page: the popup that follows the extraction of
    memories, with its timers; the toasts for new mail; the page's own
    listeners, which decide when a key or a click returns to the host program,
    together with the list column's dialogs of [JoinDialog]; and the scroll
    position of a friend's thread. *)

From S2P Require Import Prelude JsString PageState InboxState PageStore JoinDialog.
#[local] Open Scope Z_scope.

(** ** The memory popup *)

Module Notice.

Inductive Phase := PhProcessing | PhResult | PhEmpty | PhGuide.
#[export] Instance Phase_eq_dec : EqDecision Phase.
Proof. solve_decision. Defined.

Record Task := mkTask {
  tk_phase : Phase; tk_memories : list (list Z * list Z); tk_remaining : Z; tk_step : Z; tk_count : Z; tk_clue : list Z }.

Definition KEEP_SECONDS : Z := 5.
Definition EMPTY_SECONDS : Z := 3.

(** The [onZero] of the countdown, and the pending [setTimeout]s. *)
Inductive OnZero := ZGuide | ZClear.
Inductive Timer := TmStep | TmGuide.

Record Popup := mkPopup { pu_task : option Task; pu_interval : option OnZero; pu_timers : list Timer }.
Definition NO_POPUP : Popup := mkPopup None None [].

Inductive MemoryFrame :=
| MfExtracting (clue : option (list Z))
| MfExtracted (memories : option (list (list Z * list Z))) (count : Z) (clue : option (list Z)).

Definition with_phase (p : Phase) (t : Task) : Task := mkTask p (tk_memories t) (tk_remaining t) (tk_step t) (tk_count t) (tk_clue t).
Definition with_remaining (n : Z) (t : Task) : Task := mkTask (tk_phase t) (tk_memories t) n (tk_step t) (tk_count t) (tk_clue t).
Definition with_step (n : Z) (t : Task) : Task := mkTask (tk_phase t) (tk_memories t) (tk_remaining t) n (tk_count t) (tk_clue t).

(** A frame: [clearAll()] first, whatever was shown is replaced. *)
Definition onMemory (f : MemoryFrame) (s : Popup) : Popup :=
  match f with
  | MfExtracting clue => mkPopup (Some (mkTask PhProcessing [] KEEP_SECONDS 0 0 (clue ?? []))) None [TmStep]
  | MfExtracted memories count clue =>
      match memories ?? [] with
      | [] => mkPopup (Some (mkTask PhEmpty [] EMPTY_SECONDS 2 count (clue ?? []))) (Some ZClear) []
      | ms => mkPopup (Some (mkTask PhResult ms KEEP_SECONDS 2 count (clue ?? []))) (Some ZGuide) []
      end
  end.

(** The guide bubble, with the timer that takes it away. *)
Definition to_guide (interval : option OnZero) (timers : list Timer) (s : Popup) : Popup :=
  mkPopup (with_phase PhGuide <$> pu_task s) interval (timers ++ [TmGuide]).

(** One second of the countdown. *)
Definition tick (s : Popup) : Popup :=
  match pu_interval s, pu_task s with
  | Some z, Some t =>
      let next := tk_remaining t - 1 in
      if 0 <? next then mkPopup (Some (with_remaining next t)) (Some z) (pu_timers s)
      else match z with
           | ZGuide => to_guide None (pu_timers s) s
           | ZClear => mkPopup None None (pu_timers s)
           end
  | _, _ => s
  end.

(** The [i]-th pending timer fires. *)
Definition fires (i : nat) (s : Popup) : Popup :=
  match pu_timers s !! i with
  | None => s
  | Some tm =>
      let rest := take i (pu_timers s) ++ drop (S i) (pu_timers s) in
      match tm with
      | TmStep => mkPopup ((λ t, if bool_decide (tk_phase t = PhProcessing) then with_step 1 t else t) <$> pu_task s) (pu_interval s) rest
      | TmGuide => mkPopup None (pu_interval s) rest
      end
  end.

(** The buttons, each shown in one phase only. *)
Definition shown (p : Phase) (s : Popup) : bool := bool_decide (tk_phase <$> pu_task s = Some p).
Definition onCancel (s : Popup) : Popup * list (list (list Z)) :=
  (NO_POPUP, [match pu_task s with Some t => filterb (λ i, negb (jeqb i [])) (map fst (tk_memories t)) | None => [] end]).
Definition keep (s : Popup) : Popup := to_guide None [] s.

Inductive PopupEv :=
| EFrame (f : MemoryFrame)
| ETick
| EFires (i : nat)
| EMoved                                    (** another conversation, or the page opened or closed *)
| ECancel | EKeep | EClose.

(** The state, and the ids sent with [api.cancelMemory]. *)
Definition popup_step (s : Popup) (e : PopupEv) : Popup * list (list (list Z)) :=
  match e with
  | EFrame f => (onMemory f s, [])
  | ETick => (tick s, [])
  | EFires i => (fires i s, [])
  | EMoved => (NO_POPUP, [])
  | ECancel => if shown PhResult s then onCancel s else (s, [])
  | EKeep => (if shown PhResult s then keep s else s, [])
  | EClose => (if shown PhEmpty s then NO_POPUP else s, [])
  end.
Definition popup_run (es : list PopupEv) : Popup := fold_left (λ s e, (popup_step s e).1) es NO_POPUP.

(** Time passes with nothing else happening: the countdown ticks, or the next timer fires. *)
Definition beat (s : Popup) : Popup := match pu_interval s with Some _ => tick s | None => fires 0 s end.

(** *** Theorems *)

(** What is pending in each phase. *)
Definition popup_wf (s : Popup) : Prop :=
  match pu_task s with
  | None => pu_interval s = None ∧ pu_timers s = []
  | Some t =>
      match tk_phase t with
      | PhProcessing => pu_interval s = None ∧ (pu_timers s = [TmStep] ∨ pu_timers s = [] ∧ tk_step t = 1)
      | PhResult => pu_interval s = Some ZGuide ∧ pu_timers s = [] ∧ 1 <= tk_remaining t <= KEEP_SECONDS ∧ tk_memories t ≠ []
      | PhEmpty => pu_interval s = Some ZClear ∧ pu_timers s = [] ∧ 1 <= tk_remaining t <= EMPTY_SECONDS
      | PhGuide => pu_interval s = None ∧ pu_timers s = [TmGuide]
      end
  end.

Lemma tick_wf s : popup_wf s → popup_wf (tick s).
Proof.
  destruct s as [[[ph ms r st c cl]|] z tm]; unfold popup_wf, tick; cbn; [|by destruct z].
  destruct ph; cbn; [intros [-> H]; cbn; done|..|intros [-> H]; cbn; done].
  - intros (-> & -> & Hr & Hm). destruct (Z.ltb_spec 0 (r - 1)); cbn; [|done]. repeat split; [lia|lia|done].
  - intros (-> & -> & Hr). destruct (Z.ltb_spec 0 (r - 1)); cbn; [|done]. repeat split; lia.
Qed.

Lemma fires_wf i s : popup_wf s → popup_wf (fires i s).
Proof.
  destruct s as [[[ph ms r st c cl]|] z tm]; unfold popup_wf, fires; cbn; [|by intros [-> ->]].
  destruct ph; cbn.
  - intros [-> [->|[-> ->]]]; destruct i as [|i]; cbn; rewrite ?lookup_nil; cbn; naive_solver.
  - intros (-> & -> & H). cbn. done.
  - intros (-> & -> & H). cbn. done.
  - intros [-> ->]. destruct i as [|i]; cbn; rewrite ?lookup_nil; cbn; naive_solver.
Qed.

Lemma step_wf s e : popup_wf s → popup_wf (popup_step s e).1.
Proof.
  intros Hs. destruct e as [f| | | | | |]; cbn [popup_step fst]; [|by apply tick_wf|by apply fires_wf|done|..].
  - destruct f as [clue|ms count clue]; [by split; [|left]|]. cbn. destruct (ms ?? []); cbn; repeat split; done.
  - by destruct (shown PhResult s).
  - destruct (shown PhResult s) eqn:Es; [|done]. apply bool_decide_eq_true in Es.
    destruct s as [[t|] z tm]; [|done]. by split.
  - by destruct (shown PhEmpty s).
Qed.

Lemma run_wf es : popup_wf (popup_run es).
Proof.
  apply (run_inv _ popup_wf); [by split|apply step_wf].
Qed.

Lemma beat_none s n : popup_wf s → pu_task s = None → Nat.iter n beat s = s.
Proof.
  destruct s as [[t|] z tm]; [done|]. unfold popup_wf; cbn. intros [-> ->] _. induction n as [|n IH]; [done|]. by rewrite Nat.iter_succ, IH.
Qed.

Lemma beat_processing s : popup_wf s → shown PhProcessing s = true → popup_wf (beat s) ∧ shown PhProcessing (beat s) = true.
Proof.
  unfold shown. rewrite bool_decide_eq_true. destruct s as [[[ph ms r st c cl]|] z tm]; cbn; [|done]. intros Hs [= ->].
  unfold popup_wf in Hs. cbn in Hs. destruct Hs as [-> [->|[-> ->]]]; cbn; split; try done; unfold popup_wf; cbn; naive_solver.
Qed.

(** Whatever frames, clicks and moves came before: a popup with a result,
    the empty notice or the guide bubble is gone after at most six beats of
    its own timers, with nothing left pending, while one that still says it is
    distilling stays up for as long as nothing else happens (only a frame or
    leaving the conversation ends it). *)
Theorem popup_ends (es : list PopupEv) (n : nat) :
  let s := popup_run es in
  if shown PhProcessing s then shown PhProcessing (Nat.iter n beat s) = true
  else Nat.iter (6 + n) beat s = NO_POPUP.
Proof.
  intros s. pose proof (run_wf es) as Hs. fold s in Hs. clearbody s. destruct (shown PhProcessing s) eqn:Ep.
  - assert (popup_wf (Nat.iter n beat s) ∧ shown PhProcessing (Nat.iter n beat s) = true) as [_ ?]; [|done].
    induction n as [|n IH]; [done|]. rewrite Nat.iter_succ. destruct IH. by apply beat_processing.
  - rewrite Nat.add_comm, Nat.iter_add. assert (Nat.iter 6 beat s = NO_POPUP) as ->; [|by apply (beat_none NO_POPUP)].
    unfold shown in Ep. rewrite bool_decide_eq_false in Ep. destruct s as [[[ph ms r st c cl]|] z tm]; unfold popup_wf in Hs; cbn in Hs, Ep;
      [|destruct Hs as [-> ->]; done].
    destruct ph; [done|destruct Hs as (-> & -> & Hr & _)|destruct Hs as (-> & -> & Hr)|by destruct Hs as [-> ->]];
      unfold KEEP_SECONDS, EMPTY_SECONDS in Hr; [assert (r = 1 ∨ r = 2 ∨ r = 3 ∨ r = 4 ∨ r = 5) as E by lia|assert (r = 1 ∨ r = 2 ∨ r = 3) as E by lia];
      destruct_or! E; subst; reflexivity.
Qed.

(** *** What is cancelled *)

Definition is_frame (e : PopupEv) : bool := match e with EFrame _ => true | _ => false end.

(** The memories on the screen are those of the last frame. *)
Definition from_last (es : list PopupEv) (s : Popup) : Prop :=
  ∀ t, pu_task s = Some t → tk_memories t = [] ∨
  ∃ es1 ms c cl es2, es = es1 ++ EFrame (MfExtracted (Some ms) c cl) :: es2 ∧ existsb is_frame es2 = false ∧ tk_memories t = ms.

Lemma from_last_keeps es s s' e :
  is_frame e = false → (∀ t', pu_task s' = Some t' → ∃ t, pu_task s = Some t ∧ tk_memories t' = tk_memories t) → from_last es s → from_last (es ++ [e]) s'.
Proof.
  intros He Ht Hs t' Et'. destruct (Ht t' Et') as (t & Et & ->). destruct (Hs t Et) as [?|(es1 & ms & c & cl & es2 & -> & Hq & Hm)]; [by left|].
  right. exists es1, ms, c, cl, (es2 ++ [e]). rewrite <- app_assoc. split; [done|]. split; [|done]. rewrite existsb_app, Hq. cbn. by rewrite He.
Qed.

Lemma step_memories s e t' : is_frame e = false → pu_task (popup_step s e).1 = Some t' → ∃ t, pu_task s = Some t ∧ tk_memories t' = tk_memories t.
Proof.
  destruct s as [[t|] z tm], e as [f| |i| | | |]; cbn; try done; intros _.
  - unfold tick. cbn. destruct z as [z|]; [|naive_solver]. case_match; [naive_solver|]. destruct z; naive_solver.
  - unfold fires. cbn. destruct (tm !! i) as [[]|]; cbn; [|done|naive_solver]. case_bool_decide; naive_solver.
  - case_match; cbn; naive_solver.
  - case_match; cbn; naive_solver.
  - case_match; cbn; naive_solver.
  - unfold tick. cbn. by destruct z.
  - unfold fires. cbn. by destruct (tm !! i) as [[]|].
Qed.

Lemma run_from_last es : from_last es (popup_run es).
Proof.
  unfold popup_run. induction es as [|e es IH] using rev_ind; [by intros t|]. rewrite fold_left_app. cbn [fold_left].
  set (s := fold_left _ es NO_POPUP) in *. destruct (is_frame e) eqn:Ee.
  - destruct e as [f| | | | | |]; try done. destruct f as [clue|ms c cl]; cbn; [intros t [= <-]; by left|].
    destruct ms as [ms|]; [|intros t [= <-]; by left]. destruct ms as [|m ms]; cbn; intros t [= <-]; [by left|].
    right. by exists es, (m :: ms), c, cl, [].
  - eapply from_last_keeps; [done| |done]. intros t' Et'. by eapply step_memories.
Qed.

(** Memories are kept unless the owner cancels: the only request the popup
    ever sends is for a click on Cancel, and it names exactly the memories of
    the last extraction frame, the ones on the screen (those with an id). *)
Theorem cancel_names_shown (es : list PopupEv) (e : PopupEv) (ids : list (list Z)) (Hout : ids ∈ (popup_step (popup_run es) e).2) :
  e = ECancel ∧ ∃ es1 ms c cl es2, es = es1 ++ EFrame (MfExtracted (Some ms) c cl) :: es2 ∧ existsb is_frame es2 = false ∧
    ids = filterb (λ i, negb (jeqb i [])) (map fst ms).
Proof.
  pose proof (run_from_last es) as Hl. pose proof (run_wf es) as Hw. set (s := popup_run es) in *. clearbody s.
  destruct e; cbn in Hout; try by inversion Hout. split; [done|]. destruct (shown PhResult s) eqn:Es; [|by inversion Hout].
  unfold shown in Es. apply bool_decide_eq_true in Es. destruct s as [[t|] z tm]; [|done]. cbn in Es. injection Es as Es.
  apply list_elem_of_singleton in Hout as ->. cbn. unfold popup_wf in Hw. cbn in Hw. rewrite Es in Hw. destruct Hw as (_ & _ & _ & Hm).
  destruct (Hl t eq_refl) as [?|(es1 & ms & c & cl & es2 & -> & Hq & Hms)]; [done|]. exists es1, ms, c, cl, es2. by rewrite Hms.
Qed.

Lemma cancel_names_shown_witness :
  let ms := [(js "m1", js "likes tea"); ([], js "no id")] in
  let es := [EFrame (MfExtracting (Some (js "tea"))); EFires 0; EFrame (MfExtracted (Some ms) 2 None); ETick; ETick] in
  (popup_step (popup_run es) ECancel).2 = [[js "m1"]] ∧
  ∃ es1 ms' c cl es2, es = es1 ++ EFrame (MfExtracted (Some ms') c cl) :: es2 ∧ [js "m1"] = filterb (λ i, negb (jeqb i [])) (map fst ms').
Proof.
  intros ms es. split; [reflexivity|].
  destruct (cancel_names_shown es ECancel [js "m1"]) as (_ & es1 & ms' & c & cl & es2 & E1 & _ & E2); [by left|].
  by exists es1, ms', c, cl, es2.
Defined.
End Notice.

(** ** The toasts for new mail *)

Module Toasts.

Definition MAX_TOASTS : nat := 3.
Record Toasts := mkToasts { to_list : list (nat * MailNotice); to_seq : nat }.
Definition NO_TOASTS : Toasts := mkToasts [] 0.

(** The thread a notice belongs to: its group's, or its sender's. *)
Definition threadKey (n : MailNotice) : list Z := match n_gid n with Some gid => groupKey gid | None => n_fp n end.

Definition muted (inbox : InboxState) (n : MailNotice) : bool :=
  match n_gid n with
  | Some gid => bool_decide ((findb (λ g, jeqb (g_gid g) gid) (ib_groups inbox) ≫= g_muted) = Some true)
  | None => bool_decide ((findb (λ f, jeqb (f_fp f) (n_fp n)) (ib_friends inbox) ≫= f_muted) = Some true)
  end.

(** Whether the mail of [n] is announced. *)
Definition announces (nav : Nav) (inbox : InboxState) (current : option (list Z)) (n : MailNotice) : bool :=
  negb (nv_open nav && bool_decide (nv_selected nav = Some (threadKey n))) && negb (muted inbox n) && shouldNotify n current.

(** [[...prev.slice(-(MAX_TOASTS - 1)), entry]]. *)
Definition last_n {A} (k : nat) (l : list A) : list A := drop (length l - k) l.
Definition onMail (nav : Nav) (inbox : InboxState) (current : option (list Z)) (n : MailNotice) (s : Toasts) : Toasts :=
  if announces nav inbox current n then
    let key := S (to_seq s) in mkToasts (last_n (MAX_TOASTS - 1) (to_list s) ++ [(key, n)]) key
  else s.
Definition dismiss (key : nat) (s : Toasts) : Toasts := mkToasts (filterb (λ x, negb (Nat.eqb x.1 key)) (to_list s)) (to_seq s).

Inductive ToastEv := EMail (nav : Nav) (inbox : InboxState) (current : option (list Z)) (n : MailNotice) | EDismiss (key : nat).
Definition toast_step (s : Toasts) (e : ToastEv) : Toasts :=
  match e with EMail nav inbox current n => onMail nav inbox current n s | EDismiss key => dismiss key s end.

(** *** Theorems *)

Definition toasts_wf (s : Toasts) : Prop :=
  (length (to_list s) <= MAX_TOASTS)%nat ∧ NoDup (map fst (to_list s)) ∧ Forall (λ x, (x.1 <= to_seq s)%nat) (to_list s).

Lemma map_filterb_sub {A B} (g : A → B) (f : A → bool) l : map g (filterb f l) `sublist_of` map g l.
Proof. apply fmap_sublist, filterb_sublist. Qed.

Lemma dismiss_wf key s : toasts_wf s → toasts_wf (dismiss key s).
Proof.
  intros (Hl & Hn & Hf). split; [|split]; cbn.
  - etransitivity; [|exact Hl]. pose proof (sublist_length _ _ (map_filterb_sub id (λ x : nat * MailNotice, negb (Nat.eqb x.1 key)) (to_list s))) as H.
    by rewrite !length_map in H.
  - eapply sublist_NoDup; [done|]. apply map_filterb_sub.
  - apply Forall_forall. intros x [Hx _]%elem_of_filterb. by eapply Forall_forall in Hf.
Qed.

Lemma onMail_wf nav inbox current n s : toasts_wf s → toasts_wf (onMail nav inbox current n s).
Proof.
  intros (Hl & Hn & Hf). unfold onMail. destruct (announces _ _ _ _); [|done]. unfold last_n.
  set (k := (length (to_list s) - (MAX_TOASTS - 1))%nat). split; [|split]; cbn.
  - rewrite length_app, length_drop. cbn. unfold k, MAX_TOASTS in *. lia.
  - rewrite map_app, <- skipn_map. apply NoDup_app. split; [eapply sublist_NoDup; [done|apply sublist_drop]|]. split; [|apply NoDup_singleton].
    intros x Hx%list_elem_of_In Hk%list_elem_of_singleton. subst x.
    assert (S (to_seq s) ∈ map fst (to_list s)) as Hin.
    { rewrite <- (take_drop k (map fst (to_list s))). apply elem_of_app. right. by apply list_elem_of_In. }
    apply list_elem_of_In, in_map_iff in Hin as ([k' m] & Ek & Hin%list_elem_of_In). eapply Forall_forall in Hf; [|done]. cbn in *. lia.
  - apply Forall_app. split; [|by repeat constructor]. apply Forall_drop. eapply Forall_impl; [done|]. cbn. lia.
Qed.

(** At most three toasts are up at a time, each with a key of its own (so a
    timer or a click takes away exactly its own toast), and what is announced
    is never mail of the conversation on the screen or of one the owner muted. *)
Theorem toasts_bounded (es : list ToastEv) :
  let s := fold_left toast_step es NO_TOASTS in
  (length (to_list s) <= MAX_TOASTS)%nat ∧ NoDup (map fst (to_list s)) ∧
  ∀ nav inbox current n, to_list (onMail nav inbox current n s) ≠ to_list s →
    ¬ (nv_open nav = true ∧ nv_selected nav = Some (threadKey n)) ∧ muted inbox n = false ∧ shouldNotify n current = true.
Proof.
  intros s. assert (toasts_wf s) as (H1 & H2 & _).
  { apply (run_inv _ toasts_wf); [split; [cbn; unfold MAX_TOASTS; lia|by split; constructor]|]. intros s0 [] ?; [by apply onMail_wf|by apply dismiss_wf]. }
  split; [done|]. split; [done|]. intros nav inbox current n. unfold onMail. destruct (announces _ _ _ _) eqn:Ea; [|done]. intros _.
  unfold announces in Ea. rewrite !andb_true_iff, !negb_true_iff in Ea. destruct Ea as [[Ea Em] Es]. split; [|done].
  intros [Ho Hsel]. rewrite Ho, bool_decide_eq_true_2 in Ea by done. done.
Qed.
End Toasts.

(** ** The page and its listeners *)

Module Shell.

Record Screen := mkScreen {
  sc_page : Page;
  sc_list : ListState;                       (** the list column, with its dialogs *)
  sc_cardOpen : bool;                        (** the card popover of the friend pane *)
  sc_sheet : bool }.                         (** an agent's settings sheet, or the agents sheet of a room *)

Definition page_open (s : Screen) : bool := nv_open (pg_nav (sc_page s)).

(** [[data-soulmirror-modal]] is on the document. *)
Definition modal_shown (s : Screen) : bool :=
  bool_decide (is_Some (ls_dialog (sc_list s))) || ls_createOpen (sc_list s) || sc_sheet s.

(** The page is left: what it showed is unmounted, and its local state goes with it. *)
Definition leave (s : Screen) : Screen := mkScreen (close_page (sc_page s)) NEW_LIST false false.

Section shell.
Context (t : list Z → list (list Z * list Z) → list Z).

(** The list column's listener, and the create dialog's. *)
Definition escape_list (l : ListState) : ListState :=
  let l1 := (JoinDialog.step t l EEscape).1 in
  if ls_createOpen l then (JoinDialog.step t l1 ECloseCreate).1 else l1.

(** Escape: every listener of the document runs; the page's looks at what is on
    the document before anything has closed. *)
Definition press_escape (s : Screen) : Screen :=
  if negb (page_open s) then s
  else if sc_cardOpen s || modal_shown s then mkScreen (sc_page s) (escape_list (sc_list s)) false (sc_sheet s)
  else leave s.

(** The element a mouse button went down on. *)
Record ClickTarget := mkTarget {
  ct_connected : bool; ct_in_root : bool; ct_footer : bool; ct_modal : bool; ct_mention : bool; ct_float : bool; ct_overlay : bool }.
Definition outside (c : ClickTarget) : bool :=
  ct_connected c && negb (ct_in_root c) && negb (ct_footer c) && negb (ct_modal c) && negb (ct_mention c) && negb (ct_float c)
  && negb (ct_overlay c).
Definition mouse_down (c : ClickTarget) (s : Screen) : Screen := if page_open s && outside c then leave s else s.
End shell.

(** The debug switch: the settings document, else what the host resolved. *)
Definition directSend (setting host : option bool) : bool :=
  match setting with Some b => b | None => bool_decide (host = Some true) end.

(** Which pane is shown for a selection. *)
Inductive Pane := PnFriend (fp : list Z) | PnGroup (gid : list Z) | PnAgent (name : list Z) | PnAlter.
Definition shown_pane (friends groups agents : list (list Z)) (selection : option (list Z)) : Pane :=
  let selected := resolveSelection friends groups agents selection in
  let gid := gidOf (Some selected) in
  let group := gid ≫= λ g, findb (jeqb g) groups in
  let agent := agentOf (Some selected) in
  let seat := agent ≫= λ a, findb (jeqb a) agents in
  let friend := if jeqb selected ALTER_KEY || bool_decide (is_Some gid) || bool_decide (is_Some agent) then None
                else findb (jeqb selected) friends in
  match friend, group, seat with
  | Some fp, _, _ => PnFriend fp
  | None, Some g, _ => PnGroup g
  | None, None, Some a => PnAgent a
  | None, None, None => PnAlter
  end.

(** The threads fetched ahead: [ids.join(',')] is the dependency, split again when the timer fires. *)
Definition WARM_MAX : nat := 15.
Definition warm_ids (ids : list (list Z)) : list (list Z) :=
  let joined := jjoin (js ",") ids in if jeqb joined [] then [] else take WARM_MAX (split_on 44 joined).
Definition warm_targets (groups friends : list (list Z)) : list (list Z) := map groupKey (warm_ids groups) ++ warm_ids friends.

(** *** Theorems *)

(** Escape leaves the page exactly when neither the card popover nor a
    dialog or sheet is up.  When one is, the page stays, the popover and the
    three dialogs of the list column are closed by the same key, and a sheet
    stays as it is.  The [+] menu counts for nothing: with only the menu open
    the whole page goes. *)
Theorem escape_outcome t (s : Screen) (Hopen : page_open s = true) :
  let s' := press_escape t s in
  page_open s' = sc_cardOpen s || modal_shown s ∧
  (page_open s' = true → sc_cardOpen s' = false ∧ ls_dialog (sc_list s') = None ∧ ls_createOpen (sc_list s') = false ∧
    sc_sheet s' = sc_sheet s ∧ (bool_decide (is_Some (ls_dialog (sc_list s))) || ls_plus (sc_list s) = true → ls_plus (sc_list s') = false)).
Proof.
  intros s'. subst s'. unfold press_escape. rewrite Hopen. cbn [negb]. destruct (sc_cardOpen s || modal_shown s) eqn:Em.
  - split; [done|]. intros _. cbn [sc_cardOpen sc_list sc_sheet]. split; [done|]. unfold escape_list. destruct s as [p l c sh]. cbn [sc_list].
    destruct l as [b n d pl cr i w au an j jb]. cbn. destruct d as [d|]; cbn; [by destruct cr|]. destruct pl; cbn; by destruct cr.
  - split; [|unfold page_open, leave, close_page; cbn; unfold page_open in Hopen; by rewrite Hopen].
    unfold page_open, leave, close_page. cbn. unfold page_open in Hopen. by rewrite Hopen.
Qed.

Lemma findb_self (x : list Z) l : someb (jeqb x) l = true → findb (jeqb x) l = Some x.
Proof.
  unfold someb. induction l as [|y l IH]; cbn; [done|]. destruct (jeqb x y) eqn:E; cbn; [|done]. intros _. by apply jeqb_eq in E as ->.
Qed.

(** The pane on the right always shows what is selected: a friend, a group or an
    agent that is listed, under its own name, and the alter for everything
    else (nothing selected, or a selection that is no longer listed). *)
Theorem pane_follows_selection (friends groups agents : list (list Z)) (selection : option (list Z)) :
  match shown_pane friends groups agents selection with
  | PnFriend fp => selection = Some fp ∧ someb (jeqb fp) friends = true
  | PnGroup g => gidOf selection = Some g ∧ someb (jeqb g) groups = true
  | PnAgent a => agentOf selection = Some a ∧ someb (jeqb a) agents = true
  | PnAlter => resolveSelection friends groups agents selection = ALTER_KEY
  end.
Proof.
  unfold shown_pane, resolveSelection. destruct selection as [k|]; [|done]. destruct (jeqb k ALTER_KEY) eqn:Ea; [done|].
  destruct (gidOf (Some k)) as [g|] eqn:Eg; [|destruct (agentOf (Some k)) as [a|] eqn:Eag].
  - destruct (someb (jeqb g) groups) eqn:Es; [|done]. rewrite Eg, Ea. cbn. by rewrite (findb_self g groups Es).
  - destruct (someb (jeqb a) agents) eqn:Es; [|done]. rewrite Eg, Eag, Ea. cbn. by rewrite (findb_self a agents Es).
  - destruct (someb (jeqb k) friends) eqn:Es; [|done]. rewrite Eg, Eag, Ea. cbn. by rewrite (findb_self k friends Es).
Qed.

Lemma split_join (ids : list (list Z)) : ids ≠ [] → Forall (λ i, 44 ∉ i) ids → split_on 44 (jjoin [44] ids) = ids.
Proof.
  induction ids as [|x ids IH]; [done|]. intros _ Hall. inversion Hall as [|? ? Hx Hr]; subst. destruct ids as [|y ids]; [by apply split_on_none|].
  change (jjoin [44] (x :: y :: ids)) with (x ++ 44 :: jjoin [44] (y :: ids)). by rewrite split_on_app, IH.
Qed.

(** The ids survive being joined and split again: the first fifteen groups and
    the first fifteen friends are fetched, each under its own key, as long as no
    id has a comma in it or is empty. *)
Theorem warm_first_fifteen (groups friends : list (list Z))
    (Hg : Forall (λ i, i ≠ [] ∧ 44 ∉ i) groups) (Hf : Forall (λ i, i ≠ [] ∧ 44 ∉ i) friends) :
  warm_targets groups friends = map groupKey (take WARM_MAX groups) ++ take WARM_MAX friends.
Proof.
  assert (∀ ids, Forall (λ i, i ≠ [] ∧ 44 ∉ i) ids → warm_ids ids = take WARM_MAX ids) as Hw.
  { intros ids Hi. unfold warm_ids. change (js ",") with ([44] : list Z). destruct ids as [|x ids]; [done|].
    assert (jeqb (jjoin [44] (x :: ids)) [] = false) as ->.
    { inversion Hi as [|? ? [Hx _] _]; subst. unfold jeqb. apply bool_decide_eq_false. destruct x; [done|]. by destruct ids. }
    rewrite split_join; [done|done|]. eapply Forall_impl; [done|]. by intros ? [_ ?]. }
  unfold warm_targets. by rewrite !Hw.
Qed.

Lemma warm_first_fifteen_witness : warm_targets [js "g1"; js "g2"] [js "f1"] = [groupKey (js "g1"); groupKey (js "g2"); js "f1"].
Proof. apply (warm_first_fifteen [js "g1"; js "g2"] [js "f1"]); repeat constructor; try done; apply (bool_decide_unpack _); vm_compute; exact I. Defined.

(** The [+] menu is open, nothing else: Escape leaves the page. *)
Definition with_menu : Screen := mkScreen (set_nav (mkNav true None TabMessages DEFAULT_PANE_TAB) (new_page None)) (with_dialogs None true false NEW_LIST) false false.
Lemma escape_outcome_witness :
  page_open with_menu = true ∧ ls_plus (sc_list with_menu) = true ∧ page_open (press_escape (λ k _, k) with_menu) = false.
Proof.
  split; [reflexivity|]. split; [reflexivity|].
  destruct (escape_outcome (λ k _, k) with_menu eq_refl) as [E _]. rewrite E. reflexivity.
Defined.
End Shell.

(** ** The scroll position of a friend's thread (client/FriendPane.tsx)

    The element as the browser keeps it (an offset between zero and the last
    one that shows a full window), and the pane's own record of it. *)

Module Scroll.

Definition FOLLOW_SLACK : Z := 48.
Record Thread := mkThread {
  th_top : Z; th_height : Z; th_client : Z;          (** [scrollTop], [scrollHeight], [clientHeight] *)
  th_following : bool; th_savedTop : Z;
  th_prevFirst : option Z; th_prevHeight : Z }.

Definition max_top (s : Thread) : Z := Z.max 0 (th_height s - th_client s).
Definition clamp (s : Thread) (x : Z) : Z := Z.max 0 (Z.min x (max_top s)).
(** [el.scrollTop = x]. *)
Definition set_top (x : Z) (s : Thread) : Thread :=
  mkThread (clamp s x) (th_height s) (th_client s) (th_following s) (th_savedTop s) (th_prevFirst s) (th_prevHeight s).
Definition set_following (b : bool) (s : Thread) : Thread :=
  mkThread (th_top s) (th_height s) (th_client s) b (th_savedTop s) (th_prevFirst s) (th_prevHeight s).

(** New content is laid out: the browser keeps the offset within the new height. *)
Definition relayout (h : Z) (s : Thread) : Thread :=
  let s1 := mkThread (th_top s) h (th_client s) (th_following s) (th_savedTop s) (th_prevFirst s) (th_prevHeight s) in set_top (th_top s1) s1.

(** The layout effect, with the first archived number of the entries shown. *)
Definition on_layout (firstSeq : option Z) (s : Thread) : Thread :=
  let s1 := match th_prevFirst s, firstSeq with
            | Some p, Some f => if f <? p then set_top (th_top s + (th_height s - th_prevHeight s)) s
                                else if th_following s then set_top (th_height s) s else s
            | _, _ => if th_following s then set_top (th_height s) s else s
            end in
  mkThread (th_top s1) (th_height s1) (th_client s1) (th_following s1) (th_savedTop s1) firstSeq (th_height s1).
Definition show (firstSeq : option Z) (h : Z) (s : Thread) : Thread := on_layout firstSeq (relayout h s).

(** Another friend is selected: the layout effect runs before the effect that
    starts to follow again. *)
Definition switch (firstSeq : option Z) (h : Z) (s : Thread) : Thread := set_following true (show firstSeq h s).

(** The reader scrolls to [x]; whether older entries are asked for. *)
Definition onScroll (x : Z) (complete loading loaded : bool) (s : Thread) : Thread * bool :=
  let s1 := set_top x s in
  (mkThread (th_top s1) (th_height s1) (th_client s1) (th_height s1 - th_top s1 - th_client s1 <? FOLLOW_SLACK) (th_top s1) (th_prevFirst s1) (th_prevHeight s1),
   (th_top s1 <? 24) && negb complete && negb loading && loaded).

(** Back on the chat tab: a fresh element, put where the reader was. *)
Definition on_tab (s : Thread) : Thread :=
  let s0 := mkThread 0 (th_height s) (th_client s) (th_following s) (th_savedTop s) (th_prevFirst s) (th_prevHeight s) in
  set_top (if th_following s then th_height s else th_savedTop s) s0.

(** *** Theorems *)

Definition from_bottom (s : Thread) : Z := th_height s - th_client s - th_top s.
Definition thread_ok (s : Thread) : Prop := 0 < th_client s ∧ 0 <= th_top s <= max_top s ∧ th_prevHeight s = th_height s.

(** A reader who follows is kept at the bottom as messages arrive; one
    who has scrolled up stays where they are; and when older messages are put
    in front, what is on the screen stays on the screen: the distance to the
    end does not change. *)
Theorem reading_place_kept (s : Thread) (p f h : Z)
    (Hs : thread_ok s) (Hp : th_prevFirst s = Some p) (Hh : th_height s <= h) :
  (f < p → th_client s <= th_height s → from_bottom (show (Some f) h s) = from_bottom s) ∧
  (p <= f → th_following s = true → th_top (show (Some f) h s) = max_top (show (Some f) h s)) ∧
  (p <= f → th_following s = false → th_top (show (Some f) h s) = th_top s).
Proof.
  destruct s as [tp ht cl fo sv pf ph]. unfold thread_ok, max_top, from_bottom, show, on_layout, relayout, set_top, clamp, max_top in *. cbn in *.
  subst pf. destruct Hs as (Hc & Ht & ->). split_and!; intros H1 H2; cbn.
  - rewrite (proj2 (Z.ltb_lt f p)) by lia. cbn. lia.
  - rewrite (proj2 (Z.ltb_ge f p)) by lia. rewrite H2. cbn. lia.
  - rewrite (proj2 (Z.ltb_ge f p)) by lia. rewrite H2. cbn. lia.
Qed.

(** Selecting another friend should show the end of that conversation, but
    the pane still has the last friend's reading place when the new thread is
    laid out: a reader who had scrolled up finds the next conversation scrolled
    up too, at the same offset or the same distance from the end. *)
Theorem switch_keeps_old_place (s : Thread) (p f h : Z)
    (Hs : thread_ok s) (Hp : th_prevFirst s = Some p) (Hfo : th_following s = false) (Hup : 0 < from_bottom s) (Hh : th_height s <= h) :
  th_following (switch (Some f) h s) = true ∧ 0 < from_bottom (switch (Some f) h s) ∧
  (if f <? p then from_bottom (switch (Some f) h s) = from_bottom s else th_top (switch (Some f) h s) = th_top s).
Proof.
  destruct s as [tp ht cl fo sv pf ph].
  unfold thread_ok, max_top, from_bottom, switch, show, on_layout, relayout, set_top, clamp, max_top in *. cbn in *. subst.
  destruct Hs as (Hc & Ht & ->). destruct (Z.ltb_spec f p); cbn; (split; [done|split; lia]).
Qed.

Definition scrolled_up : Thread := mkThread 100 1000 400 false 100 (Some 50) 1000.
Lemma scrolled_up_ok : thread_ok scrolled_up.
Proof. unfold thread_ok, max_top, scrolled_up. cbn. lia. Qed.

Lemma reading_place_kept_witness : from_bottom (show (Some 20) 1600 scrolled_up) = 500.
Proof.
  destruct (reading_place_kept scrolled_up 50 20 1600 scrolled_up_ok eq_refl ltac:(cbn; lia)) as (E & _ & _). rewrite E; [reflexivity|lia|cbn; lia].
Defined.
Lemma switch_keeps_old_place_witness : 0 < from_bottom (switch (Some 3) 1200 scrolled_up).
Proof. apply (switch_keeps_old_place scrolled_up 50 3 1200 scrolled_up_ok); cbn; [reflexivity|reflexivity|unfold from_bottom; cbn; lia|lia]. Defined.
End Scroll.
