(* ===== verification/AgentPanel.v ===== *)
(** * The agent pane, its settings sheet and the memory pane (client/AgentPane.tsx,
      client/AgentSettingsSheet.tsx, client/MemoryPane.tsx)

    The pane of one seat agent as a machine over what the owner does, the
    frames of the host and the answers to the requests under way.  The pane is
    not remounted when another agent is selected, so each request carries the
    name its closure captured.  The settings sheet keeps the fields it was
    opened with; the memory pane offers the scopes of the conversation it
    belongs to.  [H] is the transcript the host answers. *)

From S2P Require Import Prelude JsString Json AgentRegistry Memory PageState ApiRoutes ClientApi.
#[local] Open Scope Z_scope.

(** ** The settings sheet *)

Record Sheet := mkSheet {
  sh_id : nat;                               (** which mount it is *)
  sh_name : list Z; sh_cwd : list Z; sh_preset : list Z; sh_prompt : list Z; sh_approval : bool; sh_busy : bool; sh_error : option (list Z) }.

(** The fields at mount, from the agent it is opened for (or for a new one). *)
Definition open_sheet (id : nat) (a : option SeatAgent) : Sheet :=
  match a with
  | Some a => mkSheet id (ag_name a) (ag_cwd a ?? []) (ag_preset a ?? []) (ag_prompt a ?? []) (bool_decide (ag_approval a = Some true)) false None
  | None => mkSheet id [] [] [] [] false false None
  end.

Definition if_text (s : list Z) : option (list Z) := if jeqb (trim s) [] then None else Some (trim s).
(** What Save sends. *)
Definition sheet_input (s : Sheet) : AgentInput :=
  mkAInput (trim (sh_name s)) (if jeqb (sh_preset s) [] then None else Some (sh_preset s)) (if_text (sh_cwd s)) (if_text (sh_prompt s))
    (if sh_approval s then Some true else None).
Definition save_enabled (s : Sheet) : bool := negb (sh_busy s) && negb (jeqb (trim (sh_name s)) []).
Definition sheet_status (busy : bool) (error : option (list Z)) (s : Sheet) : Sheet :=
  mkSheet (sh_id s) (sh_name s) (sh_cwd s) (sh_preset s) (sh_prompt s) (sh_approval s) busy error.
(** The fields change; the name of an agent that exists is read-only. *)
Definition sheet_edit (cwd preset prompt : list Z) (approval : bool) (s : Sheet) : Sheet :=
  mkSheet (sh_id s) (sh_name s) cwd preset prompt approval (sh_busy s) (sh_error s).

(** The record the host stores for an input. *)
Definition agent_of_input (i : AgentInput) : SeatAgent := mkAgent (an_name i) (an_preset i) (an_cwd i) (an_prompt i) (an_approval i).

(** ** The pane *)

Inductive Call :=
| ClHistory (name : list Z)
| ClInstruct (name text : list Z)
| ClSet (sheet : nat) (a : AgentInput)       (** with the sheet that waits for it *)
| ClRemove (sheet : nat) (name : list Z).

Inductive Out := OCall (c : ApiCall) | ORefresh | OGoAlter.

Definition HISTORY_LIMIT : Z := 200.
Definition call_out (c : Call) : Out :=
  OCall (match c with
         | ClHistory n => AAgentHistory n (Some HISTORY_LIMIT) None
         | ClInstruct n t => AAgentInstruct n t
         | ClSet _ a => AAgentsSet a
         | ClRemove _ n => AAgentsRemove n
         end).

Section pane.
Context {H : Type}.

Record View := mkView {
  vw_agent : SeatAgent;                      (** the prop *)
  vw_tab : PaneTab;
  vw_history : option (list Z * H);          (** with the agent it was asked for *)
  vw_error : option (list Z);
  vw_draft : list Z;
  vw_instructing : bool;
  vw_sheetOpen : bool;
  vw_sheet : option Sheet;                   (** the sheet, when it is mounted *)
  vw_due : option (list Z);                  (** the refetch timer, with the name its [load] captured *)
  vw_calls : list Call;
  vw_mounts : nat }.                         (** sheets mounted so far *)

Definition with_calls (l : list Call) (s : View) : View :=
  mkView (vw_agent s) (vw_tab s) (vw_history s) (vw_error s) (vw_draft s) (vw_instructing s) (vw_sheetOpen s) (vw_sheet s) (vw_due s) l (vw_mounts s).
Definition with_due (d : option (list Z)) (s : View) : View :=
  mkView (vw_agent s) (vw_tab s) (vw_history s) (vw_error s) (vw_draft s) (vw_instructing s) (vw_sheetOpen s) (vw_sheet s) d (vw_calls s) (vw_mounts s).
Definition with_chat (h : option (list Z * H)) (e : option (list Z)) (s : View) : View :=
  mkView (vw_agent s) (vw_tab s) h e (vw_draft s) (vw_instructing s) (vw_sheetOpen s) (vw_sheet s) (vw_due s) (vw_calls s) (vw_mounts s).
Definition with_composer (d : list Z) (i : bool) (s : View) : View :=
  mkView (vw_agent s) (vw_tab s) (vw_history s) (vw_error s) d i (vw_sheetOpen s) (vw_sheet s) (vw_due s) (vw_calls s) (vw_mounts s).
Definition with_sheet (o : bool) (sh : option Sheet) (s : View) : View :=
  mkView (vw_agent s) (vw_tab s) (vw_history s) (vw_error s) (vw_draft s) (vw_instructing s) o sh (vw_due s) (vw_calls s) (vw_mounts s).
Definition with_mount (sh : Sheet) (s : View) : View :=
  mkView (vw_agent s) (vw_tab s) (vw_history s) (vw_error s) (vw_draft s) (vw_instructing s) (vw_sheetOpen s) (Some sh) (vw_due s) (vw_calls s)
    (S (vw_mounts s)).
Definition with_props (a : SeatAgent) (t : PaneTab) (s : View) : View :=
  mkView a t (vw_history s) (vw_error s) (vw_draft s) (vw_instructing s) (vw_sheetOpen s) (vw_sheet s) (vw_due s) (vw_calls s) (vw_mounts s).

Definition send (c : Call) (s : View) : View * list Out := (with_calls (vw_calls s ++ [c]) s, [call_out c]).
Definition load (name : list Z) (s : View) : View * list Out := send (ClHistory name) s.

(** The sheet is inside the part that is shown on the chat tab only. *)
Definition sheet_visible (s : View) : bool := vw_sheetOpen s && negb (bool_decide (vw_tab s ∈ [TInfo; TMemory])).
Definition remount (s : View) : View :=
  if sheet_visible s then match vw_sheet s with Some _ => s | None => with_mount (open_sheet (vw_mounts s) (Some (vw_agent s))) s end
  else with_sheet (vw_sheetOpen s) None s.

(** The effect on [[name, load]], with the cleanup of the previous one. *)
Definition on_name (s : View) : View * list Out :=
  load (ag_name (vw_agent s)) (with_due None (with_composer [] (vw_instructing s) (with_chat None (vw_error s) s))).
Definition mount (a : SeatAgent) : View * list Out :=
  on_name (mkView a TChat None None [] false false None None [] 0).
(** The props change: another agent is selected (the page goes to its chat tab), or a refresh brought a new record. *)
Definition select_agent (a : SeatAgent) (s : View) : View * list Out :=
  if jeqb (ag_name a) (ag_name (vw_agent s)) then (with_props a (vw_tab s) s, []) else on_name (with_props a TChat s).

Definition submit (s : View) : View * list Out :=
  if jeqb (trim (vw_draft s)) [] || vw_instructing s then (s, [])
  else send (ClInstruct (ag_name (vw_agent s)) (vw_draft s)) (with_composer [] true s).

Inductive Ans := AnsHistory (h : H) | AnsOk | AnsError (message : list Z).

(** [.then], [.catch] and [.finally] of a request. *)
Definition answered (c : Call) (a : Ans) (s : View) : View * list Out :=
  match c, a with
  | ClHistory n, AnsHistory h => (with_chat (Some (n, h)) None s, [])
  | ClHistory _, AnsError m => (with_chat (vw_history s) (Some m) s, [])
  | ClInstruct n _, AnsError m => (with_composer (vw_draft s) false (with_chat (vw_history s) (Some m) s), [])
  | ClInstruct n _, _ => load n (with_composer (vw_draft s) false s)
  | ClSet id _, AnsError m | ClRemove id _, AnsError m =>
      (with_sheet (vw_sheetOpen s) ((λ sh, if Nat.eqb (sh_id sh) id then sheet_status false (Some m) sh else sh) <$> vw_sheet s) s, [])
  | ClSet _ _, _ => (with_sheet false (vw_sheet s) s, [ORefresh])
  | ClRemove _ _, _ => (with_sheet false (vw_sheet s) s, [ORefresh; OGoAlter])
  | ClHistory _, AnsOk => (s, [])
  end.
Definition answer (i : nat) (a : Ans) (s : View) : View * list Out :=
  match vw_calls s !! i with
  | Some c => answered c a (with_calls (take i (vw_calls s) ++ drop (S i) (vw_calls s)) s)
  | None => (s, [])
  end.

Definition sheet_save (s : View) : View * list Out :=
  match vw_sheet s with
  | Some sh => if save_enabled sh then send (ClSet (sh_id sh) (sheet_input sh)) (with_sheet (vw_sheetOpen s) (Some (sheet_status true None sh)) s) else (s, [])
  | None => (s, [])
  end.
(** Remove goes by the prop, not by the field. *)
Definition sheet_remove (s : View) : View * list Out :=
  match vw_sheet s with
  | Some sh => if sh_busy sh then (s, [])
               else send (ClRemove (sh_id sh) (ag_name (vw_agent s))) (with_sheet (vw_sheetOpen s) (Some (sheet_status true (sh_error sh) sh)) s)
  | None => (s, [])
  end.

Inductive Ev :=
| ESelect (a : SeatAgent)
| EFrame (name : list Z)                     (** an 'agent' frame *)
| EDue                                       (** the refetch timer fires *)
| EType (text : list Z) | ESubmit
| ETab (t : PaneTab)
| EOpenSheet | ECloseSheet
| EEdit (cwd preset prompt : list Z) (approval : bool)
| ESave | ERemove
| EAnswer (i : nat) (a : Ans).

Definition event (s : View) (e : Ev) : View * list Out :=
  match e with
  | ESelect a => select_agent a s
  | EFrame n => (if jeqb n (ag_name (vw_agent s)) then with_due (Some n) s else s, [])
  | EDue => match vw_due s with Some n => load n (with_due None s) | None => (s, []) end
  | EType x => (with_composer x (vw_instructing s) s, [])
  | ESubmit => submit s
  | ETab t => (with_props (vw_agent s) t s, [])
  | EOpenSheet => (with_sheet true (vw_sheet s) s, [])
  | ECloseSheet => (with_sheet false (vw_sheet s) s, [])
  | EEdit cwd preset prompt approval => (with_sheet (vw_sheetOpen s) (sheet_edit cwd preset prompt approval <$> vw_sheet s) s, [])
  | ESave => sheet_save s
  | ERemove => sheet_remove s
  | EAnswer i a => answer i a s
  end.
Definition step (s : View) (e : Ev) : View * list Out := let '(s', o) := event s e in (remount s', o).
Definition run (a : SeatAgent) (es : list Ev) : View := fold_left (λ s e, (step s e).1) es (mount a).1.

(** Whose transcript is on the screen. *)
Definition shown_of (s : View) : option (list Z) := fst <$> vw_history s.
End pane.
Arguments View : clear implicits.
Arguments Ans : clear implicits.
Arguments Ev : clear implicits.

(** * Theorems *)

(** ** Whose transcript is shown *)

Section own.
Context {H : Type}.
Implicit Types (s : View H) (e : Ev H).

Definition chat_name (c : Call) : option (list Z) := match c with ClHistory n | ClInstruct n _ => Some n | _ => None end.

(** Everything the pane holds or waits for belongs to the agent on it. *)
Record own (s : View H) : Prop := {
  own_history : ∀ n, shown_of s = Some n → n = ag_name (vw_agent s);
  own_due : ∀ n, vw_due s = Some n → n = ag_name (vw_agent s);
  own_calls : ∀ c n, c ∈ vw_calls s → chat_name c = Some n → n = ag_name (vw_agent s) }.

(** The owner selects another agent only when no chat request is under way. *)
Definition waits (s : View H) (e : Ev H) : bool :=
  match e with
  | ESelect a => jeqb (ag_name a) (ag_name (vw_agent s)) || everyb (λ c, negb (bool_decide (is_Some (chat_name c)))) (vw_calls s)
  | _ => true
  end.
Fixpoint patient (s : View H) (es : list (Ev H)) : bool :=
  match es with [] => true | e :: es' => waits s e && patient (step s e).1 es' end.

Lemma own_like s s' :
  own s → ag_name (vw_agent s') = ag_name (vw_agent s) → vw_history s' = vw_history s → vw_due s' = vw_due s →
  (∀ c, c ∈ vw_calls s' → c ∈ vw_calls s) → own s'.
Proof.
  intros [H1 H2 H3] Ea Eh Ed Ec. constructor; rewrite Ea; unfold shown_of; rewrite ?Eh, ?Ed; [exact H1|exact H2|]. intros c n Hc. apply H3; auto.
Qed.

Lemma own_send c s : own s → (∀ n, chat_name c = Some n → n = ag_name (vw_agent s)) → own (send c s).1.
Proof.
  intros [H1 H2 H3] Hc. constructor; cbn; [exact H1|exact H2|]. intros c' n [Hin|Hin%list_elem_of_singleton]%elem_of_app; [by apply H3|].
  subst. apply Hc.
Qed.

Lemma own_remount s : own s → own (remount s).
Proof. intros Hs. unfold remount. destruct (sheet_visible s); [destruct (vw_sheet s); [done|]|]; by apply (own_like s). Qed.

Lemma own_on_name s : everyb (λ c, negb (bool_decide (is_Some (chat_name c)))) (vw_calls s) = true → own (on_name s).1.
Proof.
  intros Hq. apply own_send; [|by intros ? [= <-]]. constructor; cbn; try done. intros c n Hc Hn. unfold everyb in Hq.
  rewrite forallb_forall in Hq. specialize (Hq c (proj1 (list_elem_of_In _ _) Hc)). rewrite bool_decide_eq_true_2 in Hq; [done|by rewrite Hn].
Qed.

Lemma own_answer i a s : own s → own (answer i a s).1.
Proof.
  intros Hs. unfold answer. destruct (vw_calls s !! i) as [c|] eqn:Ei; [|done].
  assert (c ∈ vw_calls s) as Hc by by eapply list_elem_of_lookup_2. set (s1 := with_calls _ s).
  assert (own s1) as H1.
  { apply (own_like s); try done. cbn. intros x Hx. rewrite <- (take_drop_middle _ _ _ Ei). rewrite elem_of_app, elem_of_cons.
    apply elem_of_app in Hx. tauto. }
  pose proof (own_calls _ Hs c) as Hn. destruct c as [n|n x|id inp|id n], a as [h| |m]; cbn [answered fst]; try (by apply (own_like s1)).
  - constructor; cbn; [intros ? [= <-]; by apply (Hn n)|apply H1..].
  - apply own_send; [by apply (own_like s1)|]. intros ? [= <-]. by apply (Hn n).
  - apply own_send; [by apply (own_like s1)|]. intros ? [= <-]. by apply (Hn n).
Qed.

Lemma own_event s e : own s → waits s e = true → own (event s e).1.
Proof.
  intros Hs Hw. destruct e as [a|n| |x| |t| | |cw pr pt ap| | |i a]; cbn [event waits] in *; try (by apply (own_like s)).
  - unfold select_agent. destruct (jeqb (ag_name a) (ag_name (vw_agent s))) eqn:E.
    + apply jeqb_eq in E. apply (own_like s); try done.
    + by apply own_on_name.
  - cbn. destruct (jeqb n _) eqn:E; [|done]. apply jeqb_eq in E. constructor; cbn; [apply Hs|by intros ? [= <-]|apply Hs].
  - destruct (vw_due s) as [n|] eqn:Ed; [|done]. apply own_send.
    + constructor; cbn; [apply Hs|done|apply Hs].
    + intros ? [= <-]. by apply (own_due _ Hs).
  - unfold submit. destruct (_ || _); [done|]. apply own_send; [by apply (own_like s)|]. by intros ? [= <-].
  - unfold sheet_save. destruct (vw_sheet s) as [sh|]; [|done]. destruct (save_enabled sh); [|done]. apply own_send; [by apply (own_like s)|done].
  - unfold sheet_remove. destruct (vw_sheet s) as [sh|]; [|done]. destruct (sh_busy sh); [done|]. apply own_send; [by apply (own_like s)|done].
  - by apply own_answer.
Qed.

Lemma step_event s e : (step s e).1 = remount (event s e).1.
Proof. unfold step. by destruct (event s e). Qed.

(** The transcript in an agent's pane is that agent's own, through every
    sequence of selections, frames, instructions and answers, as long as
    another agent is only selected when no request of the chat is under way. *)
Theorem transcript_own (a : SeatAgent) (es : list (Ev H)) (Hp : patient (mount a).1 es = true) :
  ∀ n, shown_of (run a es) = Some n → n = ag_name (vw_agent (run a es)).
Proof.
  assert (own (mount (H := H) a).1) as H0 by by apply own_on_name. unfold run. revert H0 Hp. generalize (mount (H := H) a).1.
  induction es as [|e es IH]; intros s Hs Hp; [apply Hs|]. cbn in Hp |- *. apply andb_true_iff in Hp as [Hw Hp].
  apply IH; [|done]. rewrite step_event. by apply own_remount, own_event.
Qed.

(** Without that patience it is not: select an agent, select another
    before the first one's history has arrived, and the late answer puts the
    first agent's transcript under the second one's name, where it stays. *)
Theorem late_history_shown (a b : SeatAgent) (ha hb : H) (Hab : ag_name a ≠ ag_name b) :
  let s := run a [ESelect b; EAnswer 1 (AnsHistory hb); EAnswer 0 (AnsHistory ha)] in
  vw_agent s = b ∧ vw_history s = Some (ag_name a, ha) ∧ vw_calls s = [] ∧ vw_due s = None.
Proof.
  unfold run. cbn [fold_left]. rewrite !step_event. cbn [event]. unfold select_agent. cbn [mount on_name load send fst vw_agent with_calls with_due with_composer with_chat].
  rewrite (proj2 (jeqb_neq (ag_name b) (ag_name a))) by congruence. done.
Qed.
End own.

(** ** The sheet *)

Section sheet.
Context {H : Type}.


(** The settings buttons of the information tab open a sheet that is not
    drawn there: nothing is shown until the owner returns to the chat tab. *)
Theorem sheet_hidden_off_chat (a : SeatAgent) (t : PaneTab) (Ht : t ∈ [TInfo; TMemory]) :
  vw_sheet (run (H := H) a [ETab t; EOpenSheet]) = None ∧
  vw_sheet (run (H := H) a [ETab t; EOpenSheet; ETab TChat]) = Some (open_sheet 0 (Some a)).
Proof. apply elem_of_cons in Ht as [->|Ht]; [done|]. by apply list_elem_of_singleton in Ht as ->. Qed.
End sheet.

Lemma upsert_same `{LowerCase} (a : SeatAgent) l : a ∈ l → NoDup (map key_of_agent l) → upsert (key_of_agent a) a l = l.
Proof.
  induction l as [|x l IH]; [by intros ?%elem_of_nil|]. cbn. intros Ha [Hx Hn]%NoDup_cons. destruct (jeqb (key_of_agent x) (key_of_agent a)) eqn:E.
  - apply jeqb_eq in E. apply elem_of_cons in Ha as [->|Ha]; [done|]. destruct Hx. rewrite E. apply list_elem_of_In, in_map. by apply list_elem_of_In.
  - apply jeqb_neq in E. apply elem_of_cons in Ha as [->|Ha]; [done|]. by rewrite IH.
Qed.

Lemma sheet_input_of `{LowerCase} (a : SeatAgent) n :
  agent_wf a → (∀ c, ag_cwd a = Some c → trim c = c) → (∀ p, ag_prompt a = Some p → trim p = p) →
  agent_of_input (sheet_input (open_sheet n (Some a))) = a.
Proof.
  intros (Hn & Hpre & Hcwd & Hpr & Hap) Hc Hp. apply agentNameError_trim in Hn as [Hn _].
  destruct a as [nm pr cw pt ap]. unfold agent_of_input, sheet_input, open_sheet, if_text.
  cbn [ag_name ag_preset ag_cwd ag_prompt ag_approval an_name an_preset an_cwd an_prompt an_approval sh_name sh_preset sh_cwd sh_prompt sh_approval] in *. f_equal.
  - done.
  - destruct pr as [p|]; cbn [nullish]; [|done]. by destruct p.
  - destruct cw as [c|]; cbn [nullish]; [|done]. rewrite (Hc c) by done. by destruct c.
  - destruct pt as [p|]; cbn [nullish]; [|done]. rewrite (Hp p) by done. destruct (Hpr p eq_refl) as [Hne _]. by destruct p.
  - by destruct Hap as [-> | ->].
Qed.

(** Opening the sheet of a registered agent and pressing Save sends
    exactly that agent, and storing it again leaves the registry as it was
    (the folder and the brief having no outer blanks, as the sheet itself
    leaves them). *)
Theorem sheet_roundtrip `{LowerCase} (reg : AgentRegistryStore) (a : SeatAgent) (n : nat)
    (Hreg : registry_wf (rg_agents reg)) (Ha : a ∈ rg_agents reg)
    (Hc : ∀ c, ag_cwd a = Some c → trim c = c) (Hp : ∀ p, ag_prompt a = Some p → trim p = p) :
  let i := sheet_input (open_sheet n (Some a)) in
  rg_agents (set_agent true (agent_of_input i) reg).1 = rg_agents reg ∧ (set_agent true (agent_of_input i) reg).2 = inr a.
Proof.
  intros i. destruct Hreg as [Hall Hnd]. assert (agent_wf a) as Hw by by apply Hall.
  unfold i. rewrite sheet_input_of by done. unfold set_agent. destruct Hw as [Hn Hw]. rewrite Hn.
  rewrite normalize_encode_agent_wf by done. assert (trim_prompt a = a) as ->.
  { destruct a as [nm pr cw [p|] ap]; [|done]. unfold trim_prompt. cbn. by rewrite (Hp p). }
  cbn [fst snd]. rewrite persist_agents_agents. cbn [rg_agents]. by rewrite upsert_same.
Qed.

(** ** The memory pane *)

Module MemoryView.

Inductive ScopeKind := KGlobal | KAgent | KGroup | KFriend.
#[export] Instance ScopeKind_eq_dec : EqDecision ScopeKind.
Proof. solve_decision. Defined.
Definition scope_kind (s : MemoryScope) : ScopeKind :=
  match s with ScGlobal => KGlobal | ScAgent _ => KAgent | ScGroup _ => KGroup | ScFriend _ => KFriend end.

(** A memory as it is listed: its id, its text, its scope. *)
Record Item := mkItem { mi_uid : list Z; mi_content : list Z; mi_scope : MemoryScope }.
Inductive MCall := McList | McAdd | McUpdate | McRemove.

Record MView := mkMView {
  mv_items : list Item; mv_loading : bool; mv_draft : list Z; mv_draftKind : ScopeKind;
  mv_editing : option (list Z); mv_editText : list Z; mv_editKind : ScopeKind; mv_busy : bool;
  mv_filter : option ScopeKind; mv_calls : list MCall }.

Section pane.
Context (allow : option bool * option (list Z) * option (list Z) * option (list Z)) (scope : MemoryScope).   (** the props *)

Definition list_call : ApiCall := let '(g, a, f, gr) := allow in AMemoryList g a f gr.

Definition scopeFor (k : ScopeKind) : MemoryScope :=
  match k with
  | KAgent => ScAgent (match scope with ScAgent n => n | _ => [] end)
  | KGroup => ScGroup (match scope with ScGroup g => g | _ => [] end)
  | KFriend => ScFriend (match scope with ScFriend f => f | _ => [] end)
  | KGlobal => ScGlobal
  end.
Definition scopeOptions : list ScopeKind := match scope with ScGlobal => [KGlobal] | _ => [KGlobal; scope_kind scope] end.
Definition filteredItems (s : MView) : list Item :=
  match mv_filter s with None => mv_items s | Some k => filterb (λ m, bool_decide (scope_kind (mi_scope m) = k)) (mv_items s) end.

Definition m_list (items : list Item) (loading : bool) (calls : list MCall) (s : MView) : MView :=
  mkMView items loading (mv_draft s) (mv_draftKind s) (mv_editing s) (mv_editText s) (mv_editKind s) (mv_busy s) (mv_filter s) calls.
Definition m_draft (d : list Z) (k : ScopeKind) (busy : bool) (s : MView) : MView :=
  mkMView (mv_items s) (mv_loading s) d k (mv_editing s) (mv_editText s) (mv_editKind s) busy (mv_filter s) (mv_calls s).
Definition m_edit (e : option (list Z)) (x : list Z) (k : ScopeKind) (s : MView) : MView :=
  mkMView (mv_items s) (mv_loading s) (mv_draft s) (mv_draftKind s) e x k (mv_busy s) (mv_filter s) (mv_calls s).
Definition m_filter (f : option ScopeKind) (s : MView) : MView :=
  mkMView (mv_items s) (mv_loading s) (mv_draft s) (mv_draftKind s) (mv_editing s) (mv_editText s) (mv_editKind s) (mv_busy s) f (mv_calls s).
Definition m_call (c : MCall) (a : ApiCall) (s : MView) : MView * list ApiCall := (m_list (mv_items s) (mv_loading s) (mv_calls s ++ [c]) s, [a]).

Definition reload (s : MView) : MView * list ApiCall := m_call McList list_call (m_list (mv_items s) true (mv_calls s) s).
Definition m_mount : MView * list ApiCall := reload (mkMView [] true [] (scope_kind scope) None [] KGlobal false None []).

Definition add (s : MView) : MView * list ApiCall :=
  if jeqb (trim (mv_draft s)) [] || mv_busy s then (s, [])
  else m_call McAdd (AMemoryAdd (js "fact") (trim (mv_draft s)) (scopeFor (mv_draftKind s))) (m_draft (mv_draft s) (mv_draftKind s) true s).
Definition saveEdit (uid : list Z) (s : MView) : MView * list ApiCall :=
  if jeqb (trim (mv_editText s)) [] then (s, [])
  else m_call McUpdate (AMemoryUpdate uid (trim (mv_editText s)) (Some (scopeFor (mv_editKind s)))) s.
Definition remove (uid : list Z) (s : MView) : MView * list ApiCall := m_call McRemove (AMemoryRemove uid) s.

(** [None]: the request failed. *)
Definition m_answered (c : MCall) (r : option (list Item)) (s : MView) : MView * list ApiCall :=
  match c, r with
  | McList, Some items => (m_list items false (mv_calls s) s, [])
  | McList, None => (m_list (mv_items s) false (mv_calls s) s, [])
  | McAdd, Some _ => reload (m_draft [] (mv_draftKind s) false s)
  | McAdd, None => (m_draft (mv_draft s) (mv_draftKind s) false s, [])
  | McUpdate, Some _ => reload (m_edit None (mv_editText s) (mv_editKind s) s)
  | McRemove, Some _ => reload s
  | _, None => (s, [])
  end.

Inductive MEv :=
| MType (x : list Z) | MPickKind (k : ScopeKind) | MAdd
| MEdit (uid : list Z) | MEditType (x : list Z) | MEditKind (k : ScopeKind) | MSave | MEditClose
| MRemove (uid : list Z) | MFilter (f : option ScopeKind)
| MRefetch                                   (** the parent drew again, with a new [allow] object *)
| MAnswer (i : nat) (r : option (list Item)).

(** The pickers offer [scopeOptions] only, and not at all when there is one; the buttons of a row are there when the row is. *)
Definition m_step (s : MView) (e : MEv) : MView * list ApiCall :=
  match e with
  | MType x => (m_draft x (mv_draftKind s) (mv_busy s) s, [])
  | MPickKind k => (if bool_decide (k ∈ scopeOptions) then m_draft (mv_draft s) k (mv_busy s) s else s, [])
  | MAdd => add s
  | MEdit uid => (match findb (λ m, jeqb (mi_uid m) uid) (filteredItems s) with
                  | Some m => m_edit (Some uid) (mi_content m) (scope_kind (mi_scope m)) s
                  | None => s
                  end, [])
  | MEditType x => (m_edit (mv_editing s) x (mv_editKind s) s, [])
  | MEditKind k => (if bool_decide (k ∈ scopeOptions) then m_edit (mv_editing s) (mv_editText s) k s else s, [])
  | MSave => match mv_editing s with
             | Some uid => if someb (λ m, jeqb (mi_uid m) uid) (filteredItems s) then saveEdit uid s else (s, [])
             | None => (s, [])
             end
  | MEditClose => (m_edit None (mv_editText s) (mv_editKind s) s, [])
  | MRemove uid => if someb (λ m, jeqb (mi_uid m) uid) (filteredItems s) then remove uid s else (s, [])
  | MFilter f => (m_filter f s, [])
  | MRefetch => reload s
  | MAnswer i r => match mv_calls s !! i with
                   | Some c => m_answered c r (m_list (mv_items s) (mv_loading s) (take i (mv_calls s) ++ drop (S i) (mv_calls s)) s)
                   | None => (s, [])
                   end
  end.
Definition m_run (es : list MEv) : MView := fold_left (λ s e, (m_step s e).1) es m_mount.1.

(** *** Theorems *)

(** The host lists what the pane is allowed to see: global memories and its own. *)
Definition listed (r : option (list Item)) : Prop := ∀ l m, r = Some l → m ∈ l → mi_scope m = ScGlobal ∨ mi_scope m = scope.
Definition answers_listed (e : MEv) : Prop := match e with MAnswer _ r => listed r | _ => True end.

Definition kind_ok (k : ScopeKind) : Prop := scopeFor k = ScGlobal ∨ scopeFor k = scope.
Record view_ok (s : MView) : Prop := {
  ok_items : listed (Some (mv_items s)); ok_draft : kind_ok (mv_draftKind s); ok_edit : kind_ok (mv_editKind s) }.

Lemma kind_ok_own : kind_ok (scope_kind scope).
Proof. right. unfold scopeFor. by destruct scope. Qed.
Lemma kind_ok_option k : k ∈ scopeOptions → kind_ok k.
Proof.
  unfold scopeOptions. destruct scope eqn:E; intros Hk; apply elem_of_cons in Hk as [->|Hk]; try (by left); [by inversion Hk|..];
    apply list_elem_of_singleton in Hk as ->; rewrite <- E; apply kind_ok_own.
Qed.
Lemma elem_filteredItems m s : m ∈ filteredItems s → m ∈ mv_items s.
Proof. unfold filteredItems. destruct (mv_filter s); [|done]. by intros [? _]%elem_of_filterb. Qed.

Lemma view_ok_step s e : answers_listed e → view_ok s → view_ok (m_step s e).1.
Proof.
  intros He Hs. pose proof Hs as [H1 H2 H3]. destruct e as [x|k| |uid|x|k| | |uid|f| |i r]; cbn [m_step fst]; try by constructor.
  - case_bool_decide as Hk; [|done]. constructor; cbn; [done|by apply kind_ok_option|done].
  - unfold add. destruct (_ || _); by constructor.
  - destruct (findb _ _) as [m|] eqn:Ef; [|done]. apply findb_Some in Ef as [Hm _]. constructor; cbn; [done|done|].
    destruct (H1 _ m eq_refl (elem_filteredItems _ _ Hm)) as [->| ->]; [by left|apply kind_ok_own].
  - case_bool_decide as Hk; [|done]. constructor; cbn; [done|done|by apply kind_ok_option].
  - destruct (mv_editing s); [|done]. destruct (someb _ _); [|done]. unfold saveEdit. destruct (jeqb _ _); by constructor.
  - destruct (someb _ _); by constructor.
  - destruct (mv_calls s !! i) as [c|]; [|done]. destruct c, r as [l|]; cbn; by constructor.
Qed.

(** The memory pane writes within its conversation: whatever is typed,
    picked, edited and answered, every memory it adds or changes goes to the
    global scope or to the pane's own agent, group or friend, never to
    another's, provided the host lists only memories of these scopes. *)
Theorem memory_written_in_scope (es : list MEv) (e : MEv) (c : ApiCall)
    (Hes : Forall answers_listed es) (Hc : c ∈ (m_step (m_run es) e).2) :
  match c with
  | AMemoryAdd _ _ sc => sc = ScGlobal ∨ sc = scope
  | AMemoryUpdate _ _ osc => ∃ sc, osc = Some sc ∧ (sc = ScGlobal ∨ sc = scope)
  | _ => True
  end.
Proof.
  assert (view_ok (m_run es)) as [_ H2 H3].
  { clear Hc. unfold m_run. assert (view_ok m_mount.1) as H0 by (constructor; [by intros l m [= <-] ?%elem_of_nil|apply kind_ok_own|by left]).
    revert H0. generalize m_mount.1. induction Hes as [|e' es He' _ IH]; intros s Hs; [done|]. by apply IH, view_ok_step. }
  set (s := m_run es) in *. clearbody s.
  destruct e as [x|k| |uid|x|k| | |uid|f| |i r]; cbn [m_step snd] in Hc; try by inversion Hc.
  - unfold add in Hc. destruct (_ || _); [by inversion Hc|]. by apply list_elem_of_singleton in Hc as ->.
  - destruct (mv_editing s); [|by inversion Hc]. destruct (someb _ _); [|by inversion Hc]. unfold saveEdit in Hc.
    destruct (jeqb _ _); [by inversion Hc|]. apply list_elem_of_singleton in Hc as ->. by eexists.
  - destruct (someb _ _); [|by inversion Hc]. by apply list_elem_of_singleton in Hc as ->.
  - unfold reload, m_call, list_call in Hc. destruct allow as [[[g a] f] gr]. by apply list_elem_of_singleton in Hc as ->.
  - destruct (mv_calls s !! i) as [c'|]; [|by inversion Hc]. unfold m_answered, reload, m_call, list_call in Hc. destruct allow as [[[g a] f] gr].
    destruct c', r as [l|]; cbn in Hc; first [by inversion Hc|by apply list_elem_of_singleton in Hc as ->].
Qed.
End pane.
End MemoryView.

(** ** Witnesses *)

Definition ada : SeatAgent := mkAgent (js "Ada") None (Some (js "/work")) (Some (js "Write tests.")) (Some true).
Definition bob : SeatAgent := mkAgent (js "Bob") (Some (js "code")) None None None.

Lemma transcript_own_witness :
  let es := [EAnswer 0 (AnsHistory 1%nat); EType (js "go"); ESubmit; EAnswer 0 AnsOk; EAnswer 0 (AnsHistory 2%nat); ESelect bob;
             EAnswer 0 (AnsHistory 3%nat)] in
  shown_of (run ada es) = Some (js "Bob") ∧ vw_agent (run ada es) = bob ∧ js "Bob" = ag_name (vw_agent (run ada es)).
Proof.
  intros es. split; [vm_compute; reflexivity|]. split; [vm_compute; reflexivity|].
  apply (transcript_own ada es); vm_compute; reflexivity.
Defined.

Lemma late_history_shown_witness :
  vw_history (run ada [ESelect bob; EAnswer 1 (AnsHistory 7%nat); EAnswer 0 (AnsHistory 8%nat)]) = Some (js "Ada", 8%nat).
Proof. apply (late_history_shown ada bob 8%nat 7%nat). done. Defined.


Lemma sheet_hidden_off_chat_witness : vw_sheet (run (H := nat) ada [ETab TInfo; EOpenSheet]) = None.
Proof. apply (sheet_hidden_off_chat (H := nat) ada TInfo). by left. Defined.

Lemma sheet_roundtrip_witness :
  let reg := mkReg [ada; bob] true None in
  (set_agent (H := AsciiLowerCase) true (agent_of_input (sheet_input (open_sheet 0 (Some bob)))) reg).2 = inr bob.
Proof.
  intros reg. apply (sheet_roundtrip (H := AsciiLowerCase) reg bob 0); try done.
  - split.
    + intros a [->|[->|Ha%elem_of_nil]%elem_of_cons]%elem_of_cons; [| |done]; (split; [vm_compute; reflexivity|split; [done|split; [done|split; [|by auto]]]]);
        intros p; [intros [= <-]; split; [done|split; [apply Nat.leb_le; vm_compute; reflexivity|vm_compute; reflexivity]]|done].
    + apply (bool_decide_unpack _). vm_compute. exact I.
  - right. by left.
Defined.

Lemma memory_written_in_scope_witness :
  let scope := ScAgent (js "Ada") in
  let es := [MemoryView.MAnswer 0 (Some [MemoryView.mkItem (js "m1") (js "likes tea") ScGlobal]); MemoryView.MType (js " uses Rocq ")] in
  (MemoryView.m_step (None, None, None, None) scope (MemoryView.m_run (None, None, None, None) scope es) MemoryView.MAdd).2
    = [AMemoryAdd (js "fact") (js "uses Rocq") scope] ∧ (scope = ScGlobal ∨ scope = ScAgent (js "Ada")).
Proof.
  intros scope es. split; [vm_compute; reflexivity|].
  apply (MemoryView.memory_written_in_scope (None, None, None, None) scope es MemoryView.MAdd (AMemoryAdd (js "fact") (js "uses Rocq") scope)).
  - apply Forall_cons_2; [|apply Forall_cons_2; [done|apply Forall_nil_2]]. cbn. intros l m [= <-] ->%list_elem_of_singleton. by left.
  - left.
Defined.
