(* ===== verification/Editors.v ===== *)
(** * The editors of drafts, the protocol and a friend's settings
      (client/DraftCard.tsx, client/alter-ui.tsx)

    The card of a pending draft with its three modes and the request each
    button sends, the explanation it gives of why the draft was held, the
    editor of the protocol file, and the settings panel of a friend.  The two
    text boxes stay open while a save is under way; the theorems say what
    becomes of what is typed then. *)

From S2P Require Import Prelude JsString Policy Sessions Tools ApiRoutes ClientApi.
#[local] Open Scope Z_scope.

(** ** The draft card *)

Module Card.

Definition LABELLED : list (list Z) :=
  [js "draft-tier"; js "notify-tier"; js "rate-limited"; js "loop-guard-auto"; js "other-friend"; js "unknown-trigger"].
(** The key of the explanation. *)
Definition reasonLabel (reason : list Z) : list Z :=
  js "draft.reason." ++ (if bool_decide (reason ∈ LABELLED) then reason else js "unknown-trigger").

Inductive Mode := Idle | Editing | Revising.
#[export] Instance Mode_eq_dec : EqDecision Mode.
Proof. solve_decision. Defined.
Record Card := mkCard { cd_mode : Mode; cd_text : list Z; cd_feedback : list Z }.
Definition new_card (body : list Z) : Card := mkCard Idle body [].

Inductive Verdict := DApprove (body : option (list Z)) | DReject | DRevise (feedback : list Z).

Inductive CardEv :=
| EApprove | EReject | EOpenEdit | EOpenRevise | ECancel
| EType (x : list Z)
| ESend                                      (** the primary button of the open editor *)
| EDecided (ok : bool).                      (** [pageStore.decideDraft] answered *)

(** [busy]: the page is deciding this draft; [body]: the draft as it is stored. *)
Definition card_step (body : list Z) (busy : bool) (s : Card) (e : CardEv) : Card * option Verdict :=
  match e, cd_mode s with
  | EApprove, Idle => (s, if busy then None else Some (DApprove None))
  | EReject, Idle => (s, if busy then None else Some DReject)
  | EOpenEdit, Idle => (if busy then s else mkCard Editing (cd_text s) (cd_feedback s), None)
  | EOpenRevise, Idle => (if busy then s else mkCard Revising (cd_text s) (cd_feedback s), None)
  | ECancel, Editing => (if busy then s else mkCard Idle body (cd_feedback s), None)
  | ECancel, Revising => (if busy then s else mkCard Idle (cd_text s) [], None)
  | EType x, Editing => (mkCard Editing x (cd_feedback s), None)
  | EType x, Revising => (mkCard Revising (cd_text s) x, None)
  | ESend, Editing => (s, if busy || jeqb (trim (cd_text s)) [] then None else Some (DApprove (Some (cd_text s))))
  | ESend, Revising => (s, if busy || jeqb (trim (cd_feedback s)) [] then None else Some (DRevise (cd_feedback s)))
  | EDecided ok, (Editing | Revising) => (if ok then mkCard Idle (cd_text s) (cd_feedback s) else s, None)
  | _, _ => (s, None)
  end.
Definition card_run (body : list Z) (es : list (bool * CardEv)) : Card := fold_left (λ s be, (card_step body be.1 s be.2).1) es (new_card body).

(** *** Theorems *)

(** The card's explanation is the gate's own reason for every draft of the
    friend gate that answers mail, but a draft held because too many agents
    had spoken in a row, because it was meant for another group, or because a
    group woke the turn is explained as one that answered nobody. *)
Theorem reason_shown :
  (∀ r, reasonLabel (draft_reason_str r) =
     js "draft.reason." ++ match r with dr_group_trigger => js "unknown-trigger" | _ => draft_reason_str r end) ∧
  (∀ r, reasonLabel (group_draft_str r) =
     js "draft.reason." ++ match r with gd_agent_rounds | gd_other_group => js "unknown-trigger" | _ => group_draft_str r end).
Proof. split; intros r; destruct r; vm_compute; reflexivity. Qed.

(** A draft goes out as the owner last saw it: pressing approve sends no
    text of its own (the stored body goes out), and the edit button sends
    exactly the text in the box, which is never blank; nothing is sent while
    a decision is under way. *)
Theorem card_sends_shown (body : list Z) (es : list (bool * CardEv)) (busy : bool) (e : CardEv) (d : Verdict)
    (Hd : (card_step body busy (card_run body es) e).2 = Some d) :
  busy = false ∧
  match d with
  | DApprove None | DReject => cd_mode (card_run body es) = Idle
  | DApprove (Some x) => cd_mode (card_run body es) = Editing ∧ x = cd_text (card_run body es) ∧ trim x ≠ []
  | DRevise x => cd_mode (card_run body es) = Revising ∧ x = cd_feedback (card_run body es) ∧ trim x ≠ []
  end.
Proof.
  set (s := card_run body es) in *. clearbody s. destruct s as [m x f]. unfold card_step in Hd.
  destruct e, m; cbn [cd_mode cd_text cd_feedback snd] in *; try done; destruct busy; cbn [orb] in Hd; try done; try (by injection Hd as <-);
    [destruct (jeqb (trim x) []) eqn:E|destruct (jeqb (trim f) []) eqn:E]; try done; apply jeqb_neq in E; by injection Hd as <-.
Qed.
End Card.

(** ** The protocol editor *)

Module Protocol.

Inductive Job := JGet | JSet (text : list Z).
Inductive Note := NoteSaved | NoteError (message : list Z).
Record Editor := mkEditor {
  ed_text : option (list Z); ed_saved : option (list Z); ed_exists : bool; ed_busy : bool; ed_note : option Note;
  ed_job : option Job }.                     (** the request under way: the buttons are off while there is one *)

Definition load (s : Editor) : Editor := mkEditor (ed_text s) (ed_saved s) (ed_exists s) true (ed_note s) (Some JGet).
Definition mount (exists_ : option bool) : Editor := load (mkEditor None None (exists_ ?? true) false None None).
Definition save_enabled (s : Editor) : bool :=
  negb (ed_busy s) && bool_decide (is_Some (ed_text s)) && negb (bool_decide (ed_text s = ed_saved s)).
Definition save (s : Editor) : Editor :=
  match ed_text s with
  | None => s
  | Some x => mkEditor (ed_text s) (ed_saved s) (ed_exists s) true (ed_note s) (Some (JSet x))
  end.
(** The box is open as soon as there is a text, also while a request is under way. *)
Definition type (x : list Z) (s : Editor) : Editor :=
  match ed_text s with None => s | Some _ => mkEditor (Some x) (ed_saved s) (ed_exists s) (ed_busy s) (ed_note s) (ed_job s) end.

(** The host's answer: the stored text and whether the file is there. *)
Definition answer (r : list Z + list Z * bool) (s : Editor) : Editor :=
  match ed_job s, r with
  | None, _ => s
  | Some _, inl m => mkEditor (ed_text s) (ed_saved s) (ed_exists s) false (Some (NoteError m)) None
  | Some JGet, inr (x, ex) => mkEditor (Some x) (Some x) ex false None None
  | Some (JSet _), inr (x, _) => mkEditor (Some x) (Some x) true false (Some NoteSaved) None
  end.

(** With the file on the host. *)
Record Desk := mkDesk { dk_ed : Editor; dk_file : list Z }.
Inductive DeskEv := EType (x : list Z) | EReload | ESave | EAnswered | EFailed (m : list Z).
Definition desk_step (s : Desk) (e : DeskEv) : Desk :=
  let ed := dk_ed s in
  match e with
  | EType x => mkDesk (type x ed) (dk_file s)
  | EReload => if ed_busy ed then s else mkDesk (load ed) (dk_file s)
  | ESave => if save_enabled ed then mkDesk (save ed) (dk_file s) else s
  | EAnswered => let file := match ed_job ed with Some (JSet x) => x | _ => dk_file s end in mkDesk (answer (inr (file, true)) ed) file
  | EFailed m => mkDesk (answer (inl m) ed) (dk_file s)
  end.
Definition desk_run (file : list Z) (es : list DeskEv) : Desk := fold_left desk_step es (mkDesk (mount None) file).

(** *** Theorems *)

Definition desk_ok (s : Desk) : Prop :=
  (∀ x, ed_text (dk_ed s) = Some x → ed_saved (dk_ed s) = Some (dk_file s)) ∧
  (ed_busy (dk_ed s) = bool_decide (is_Some (ed_job (dk_ed s)))).

Lemma step_ok s e : desk_ok s → desk_ok (desk_step s e).
Proof.
  destruct s as [[tx sv ex bu no jb] file]. unfold desk_ok. cbn. intros [Hs Hb]. destruct e as [x| | | |m]; cbn.
  - unfold type. cbn. destruct tx as [t|]; cbn; [|done]. split; [|done]. intros ? _. by apply (Hs t).
  - destruct bu; done.
  - destruct (save_enabled _); [|done]. unfold save. cbn. destruct tx; done.
  - unfold answer. cbn. destruct jb as [[|x]|]; cbn; done.
  - unfold answer. cbn. destruct jb as [[|x]|]; cbn; done.
Qed.

(** The save button tells the truth: with no request under way, it can be
    pressed exactly when the text in the box is not what the file holds
    (nobody else writing the file), whatever was typed, saved, reloaded or
    refused before. *)
Theorem save_button_truth (file : list Z) (es : list DeskEv) :
  let s := desk_run file es in
  ed_job (dk_ed s) = None → save_enabled (dk_ed s) = match ed_text (dk_ed s) with Some x => negb (bool_decide (x = dk_file s)) | None => false end.
Proof.
  intros s Hj. assert (desk_ok s) as [Hs Hb].
  { apply (run_inv _ desk_ok); [by split|apply step_ok]. }
  unfold save_enabled. rewrite Hb, Hj. cbn. destruct (ed_text (dk_ed s)) as [x|]; [|done]. cbn. rewrite (Hs x eq_refl). f_equal.
  apply bool_decide_ext. naive_solver.
Qed.

(** What is typed while a save is under way is thrown away: the answer
    puts the text that was sent back into the box, says it is saved, and
    turns the button off. *)
Theorem typing_during_save_lost (s : Desk) (x y : list Z)
    (Hx : ed_text (dk_ed s) = Some x) (He : save_enabled (dk_ed s) = true) :
  let s' := fold_left desk_step [ESave; EType y; EAnswered] s in
  ed_text (dk_ed s') = Some x ∧ ed_note (dk_ed s') = Some NoteSaved ∧ save_enabled (dk_ed s') = false ∧ dk_file s' = x.
Proof.
  cbn. rewrite He. unfold save. rewrite Hx. cbn. unfold type. cbn. split_and!; try done.
  unfold save_enabled. cbn. by rewrite (bool_decide_eq_true_2 (Some x = Some x)).
Qed.

Lemma typing_during_save_lost_witness :
  let s := desk_run (js "be kind") [EAnswered; EType (js "be brief")] in
  ed_text (dk_ed (fold_left desk_step [ESave; EType (js "be brief and kind"); EAnswered] s)) = Some (js "be brief").
Proof. intros s. apply (typing_during_save_lost s (js "be brief") (js "be brief and kind")); vm_compute; reflexivity. Defined.

Lemma save_button_truth_witness : save_enabled (dk_ed (desk_run (js "a") [EAnswered; EType (js "b")])) = true.
Proof. rewrite (save_button_truth (js "a") [EAnswered; EType (js "b")]) by reflexivity. vm_compute. reflexivity. Defined.
End Protocol.

Lemma card_sends_shown_witness :
  (Card.card_step (js "hi") false (Card.card_run (js "hi") [(false, Card.EOpenEdit); (false, Card.EType (js "hello"))]) Card.ESend).2
    = Some (Card.DApprove (Some (js "hello"))) ∧ trim (js "hello") ≠ [].
Proof.
  split; [vm_compute; reflexivity|].
  destruct (Card.card_sends_shown (js "hi") [(false, Card.EOpenEdit); (false, Card.EType (js "hello"))] false Card.ESend (Card.DApprove (Some (js "hello"))))
    as (_ & _ & _ & H); [vm_compute; reflexivity|]. exact H.
Defined.
