(* ===== verification/ListView.v ===== *)
(** * The list column: rows, search and highlighting (client/FriendList.tsx)

    The one list of conversations, the address book with its collapsed
    sections, the results panel over names and message bodies, and the two
    text helpers that draw a hit: [Highlight] and [snippetAround].  A loop
    without a bound in the source runs here with fuel, and the theorem shows
    that the fuel given always suffices. *)

From S2P Require Import Prelude JsSort JsString Policy PageState InboxState.
From stdpp Require Import sorting.
#[local] Open Scope Z_scope.

(** ** Rows *)

Inductive Row := RFriend (f : InboxFriend) | RGroup (g : ApiGroup).
Definition row_key (r : Row) : list Z := match r with RFriend f => f_fp f | RGroup g => groupKey (g_gid g) end.
Definition row_ts (r : Row) : Z := match r with RFriend f => f_lastTs f ?? 0 | RGroup g => g_lastTs g ?? 0 end.
Definition row_name (r : Row) : list Z := match r with RFriend f => f_name f | RGroup g => g_name g end.

Section rows.
Context `{LocaleCompare} `{LowerCase}.

Definition row_le (a b : Row) : bool :=
  if negb (row_ts a =? row_ts b) then row_ts b <=? row_ts a else localeCompare (row_name a) (row_name b) <=? 0.
Definition rows (friends : list InboxFriend) (groups : list ApiGroup) : list Row :=
  js_sort row_le (map RFriend friends ++ map RGroup groups).

(** The address book. *)
Definition by_name {A} (name : A → list Z) (a b : A) : bool := localeCompare (name a) (name b) <=? 0.
Definition contactRows (friends : list InboxFriend) (query : list Z) : list InboxFriend :=
  js_sort (by_name f_name) (filterFriends friends query).
Definition groupContactRows (groups : list ApiGroup) (query : list Z) : list ApiGroup :=
  let q := toLowerCase (trim query) in
  js_sort (by_name g_name) (filterb (λ g, jeqb q [] || includes (toLowerCase (g_name g)) q) groups).

Definition AGENT_COLLAPSE : nat := 3.
Definition CONTACT_COLLAPSE : nat := 10.
Definition collapsed {A} (limit : nat) (expanded : bool) (l : list A) : list A :=
  if expanded || (length l <=? limit)%nat then l else take limit l.

(** Search hits. *)
Definition nameHits (q : list Z) (l : list Row) : list Row :=
  if jeqb q [] then []
  else filterb (λ r, match r with
                     | RFriend f => includes (toLowerCase (f_name f)) q || includes (toLowerCase (f_remark f ?? [])) q || startsWith (toLowerCase (f_fp f)) q
                     | RGroup g => includes (toLowerCase (g_name g)) q
                     end) l.

Record Hit := mkHit { ht_row : Row; ht_body : list Z; ht_ts : Z; ht_id : list Z }.
Definition MAX_HITS : nat := 30.
Definition hits_in (q : list Z) (r : Row) (entries : list ThreadEntry) : list Hit :=
  flat_map (λ e, if includes (toLowerCase (te_body e)) q then [mkHit r (te_body e) (te_ts e) (te_id e)] else []) entries.
Definition all_hits (thread : list Z → ThreadState) (q : list Z) (friends : list InboxFriend) (groups : list ApiGroup) : list Hit :=
  flat_map (λ r, hits_in q r (ts_entries (thread (row_key r)))) (map RFriend friends ++ map RGroup groups).
Definition newer (a b : Hit) : bool := ht_ts b <=? ht_ts a.
Definition contentHits (thread : list Z → ThreadState) (q : list Z) (friends : list InboxFriend) (groups : list ApiGroup) : list Hit :=
  if jeqb q [] then [] else take MAX_HITS (js_sort newer (all_hits thread q friends groups)).

(** ** Drawing a hit *)

(** The pieces of the text, each marked or not; [None]: the fuel ran out. *)
Fixpoint hl_loop (fuel : nat) (text lower q : list Z) (i : nat) : option (list (bool * list Z)) :=
  match fuel with
  | O => None
  | S fuel' =>
      match indexOf lower q i with
      | None => Some [(false, drop i text)]
      | Some j =>
          rest ← hl_loop fuel' text lower q (j + length q);
          Some ((if (i <? j)%nat then [(false, slice text i j)] else []) ++ (true, slice text j (j + length q)) :: rest)
      end
  end.
Definition Highlight (text q : list Z) : option (list (bool * list Z)) :=
  if jeqb q [] then Some [(false, text)]
  else let lower := toLowerCase text in hl_loop (S (length lower)) text lower q 0.

(** [body.replace(/\s+/g, ' ').trim()]. *)
Fixpoint one_space (inws : bool) (s : list Z) : list Z :=
  match s with
  | [] => []
  | c :: s' => if is_ws c then (if inws then one_space true s' else 32 :: one_space true s') else c :: one_space false s'
  end.
Definition flat (body : list Z) : list Z := trim (one_space false body).
Definition RADIUS : nat := 28.
Definition ELLIPSIS : Z := 8230.
Definition snippetAround (body q : list Z) : list Z :=
  let f := flat body in
  match indexOf (toLowerCase f) q 0 with
  | None => take (RADIUS * 2) f
  | Some j =>
      let start := (j - RADIUS)%nat in
      let end_ := Nat.min (length f) (j + length q + RADIUS) in
      (if (0 <? start)%nat then [ELLIPSIS] else []) ++ slice f start end_ ++ (if (end_ <? length f)%nat then [ELLIPSIS] else [])
  end.
End rows.

(** * Theorems *)

Section theorems.
Context `{LC : LocaleCompare} `{LW : LowerCase}.

Lemma row_le_total a b : row_le a b = true ∨ row_le b a = true.
Proof.
  unfold row_le. destruct (Z.eqb_spec (row_ts a) (row_ts b)) as [E|E]; cbn.
  - rewrite E, Z.eqb_refl. cbn. rewrite !Z.leb_le. pose proof (localeCompare_anti (row_name b) (row_name a)). lia.
  - rewrite (proj2 (Z.eqb_neq (row_ts b) (row_ts a))) by congruence. cbn. rewrite !Z.leb_le. lia.
Qed.
Lemma row_le_iff a b :
  row_le a b = true ↔ row_ts b < row_ts a ∨ row_ts a = row_ts b ∧ localeCompare (row_name a) (row_name b) <= 0.
Proof. unfold row_le. destruct (Z.eqb_spec (row_ts a) (row_ts b)); cbn; rewrite Z.leb_le; lia. Qed.
Lemma row_le_trans a b c : row_le a b = true → row_le b c = true → row_le a c = true.
Proof. rewrite !row_le_iff. pose proof (localeCompare_trans (row_name a) (row_name b) (row_name c)). lia. Qed.

(** The middle column lists every friend and every group exactly once,
    newest first and by name among equals; whether there is unread mail plays
    no part. *)
Theorem rows_newest_first (friends : list InboxFriend) (groups : list ApiGroup) :
  Permutation (rows friends groups) (map RFriend friends ++ map RGroup groups) ∧
  StronglySorted (λ a b, row_ts b < row_ts a ∨ row_ts a = row_ts b ∧ localeCompare (row_name a) (row_name b) <= 0) (rows friends groups).
Proof.
  split; [apply js_sort_perm|]. pose proof (js_sort_sorted row_le row_le_total row_le_trans (map RFriend friends ++ map RGroup groups)) as Hs.
  fold (rows friends groups) in Hs. revert Hs. generalize (rows friends groups). induction 1 as [|x l Hl IH Hx]; constructor; [done|].
  eapply Forall_impl; [exact Hx|]. intros y. by apply row_le_iff.
Qed.

Lemma newer_total a b : newer a b = true ∨ newer b a = true.
Proof. unfold newer. rewrite !Z.leb_le. lia. Qed.
Lemma newer_trans a b c : newer a b = true → newer b c = true → newer a c = true.
Proof. unfold newer. rewrite !Z.leb_le. lia. Qed.

Lemma sorted_split {A} (R : A → A → Prop) l k x y : StronglySorted R l → x ∈ take k l → y ∈ drop k l → R x y.
Proof.
  intros Hs. revert k. induction Hs as [|z l Hl IH Hz]; intros k Hx Hy.
  - rewrite take_nil in Hx. by apply elem_of_nil in Hx.
  - destruct k as [|k]; [by apply elem_of_nil in Hx|]. cbn in *. apply elem_of_cons in Hx as [->|Hx].
    + rewrite List.Forall_forall in Hz. apply Hz, list_elem_of_In. rewrite <- (take_drop k l). apply elem_of_app. by right.
    + by apply (IH k).
Qed.

Lemma elem_hits_in q r es h : h ∈ hits_in q r es ↔ ∃ e, e ∈ es ∧ includes (toLowerCase (te_body e)) q = true ∧ h = mkHit r (te_body e) (te_ts e) (te_id e).
Proof.
  unfold hits_in. rewrite list_elem_of_In, in_flat_map. split.
  - intros (e & He & Hh). destruct (includes _ _) eqn:E; [|done]. destruct Hh as [<-|[]]. exists e. by rewrite list_elem_of_In.
  - intros (e & He & Hi & ->). exists e. rewrite Hi. rewrite <- list_elem_of_In. split; [done|by left].
Qed.

(** The content search shows at most thirty messages, each from the cached
    archive of the conversation it is listed under and with the words in it;
    and no message that matches but is left out is newer than one shown. *)
Theorem content_hits_newest (thread : list Z → ThreadState) (q : list Z) (friends : list InboxFriend) (groups : list ApiGroup) (Hq : q ≠ []) :
  let shown := contentHits thread q friends groups in
  (length shown <= MAX_HITS)%nat ∧
  (∀ h, h ∈ shown → ∃ e, e ∈ ts_entries (thread (row_key (ht_row h))) ∧ ht_body h = te_body e ∧ includes (toLowerCase (te_body e)) q = true) ∧
  (∀ r e, r ∈ map RFriend friends ++ map RGroup groups → e ∈ ts_entries (thread (row_key r)) → includes (toLowerCase (te_body e)) q = true →
     mkHit r (te_body e) (te_ts e) (te_id e) ∈ shown ∨ ∀ h, h ∈ shown → te_ts e <= ht_ts h).
Proof.
  intros shown. unfold shown, contentHits. rewrite (proj2 (jeqb_neq q [])) by done. set (all := all_hits thread q friends groups).
  split; [rewrite length_take; lia|]. split.
  - intros h Hh. assert (h ∈ all) as Ha.
    { rewrite <- (elem_of_js_sort newer). rewrite <- (take_drop MAX_HITS (js_sort newer all)). apply elem_of_app. by left. }
    unfold all, all_hits in Ha. apply list_elem_of_In, in_flat_map in Ha as (r & _ & Ha%list_elem_of_In).
    apply elem_hits_in in Ha as (e & He & Hi & ->). by exists e.
  - intros r e Hr He Hi. set (h := mkHit r (te_body e) (te_ts e) (te_id e)). assert (h ∈ js_sort newer all) as Ha.
    { apply elem_of_js_sort. unfold all, all_hits. apply list_elem_of_In, in_flat_map. exists r. split; [by apply list_elem_of_In|].
      apply list_elem_of_In, elem_hits_in. by exists e. }
    rewrite <- (take_drop MAX_HITS (js_sort newer all)) in Ha. apply elem_of_app in Ha as [Ha|Ha]; [by left|]. right. intros h' Hh'.
    pose proof (sorted_split _ _ _ h' h (js_sort_sorted newer newer_total newer_trans all) Hh' Ha) as Hn.
    unfold le_rel, newer in Hn. by apply Z.leb_le in Hn.
Qed.

(** ** Highlighting *)

Lemma slice_drop (s : list Z) i j : (i <= j)%nat → slice s i j ++ drop j s = drop i s.
Proof. intros Hij. unfold slice. replace j with (i + (j - i))%nat at 2 by lia. rewrite <- drop_drop. apply take_drop. Qed.

Lemma hl_loop_text fuel text lower q i :
  q ≠ [] → (i <= length lower)%nat → (length lower - i < fuel)%nat →
  ∃ parts, hl_loop fuel text lower q i = Some parts ∧ concat (map snd parts) = drop i text.
Proof.
  intros Hq. assert (0 < length q)%nat as Hlq by (destruct q; [done|cbn; lia]). revert i. induction fuel as [|fuel IH]; intros i Hi Hf; [lia|].
  cbn [hl_loop]. destruct (indexOf lower q i) as [j|] eqn:Ej; [|eexists; split; [done|]; cbn; by rewrite app_nil_r].
  apply indexOf_Some in Ej as (Hij & Ho & _); [|done]. apply occurs_at_length in Ho.
  destruct (IH (j + length q)%nat) as (parts & -> & Hp); [lia|lia|]. eexists. split; [done|].
  rewrite map_app, concat_app. cbn [map concat snd]. rewrite Hp, slice_drop by lia.
  destruct (Nat.ltb_spec i j); cbn; [rewrite app_nil_r; apply slice_drop; lia|]. by replace i with j by lia.
Qed.

(** C29. The loop that marks the words ends on every text and query, and the
    pieces it draws put together are the text, character for character:
    nothing is lost, repeated or moved. *)
Theorem highlight_keeps_text (text q : list Z) : ∃ parts, Highlight text q = Some parts ∧ concat (map snd parts) = text.
Proof.
  unfold Highlight. destruct (jeqb q []) eqn:E; [eexists; split; [done|]; cbn; by rewrite app_nil_r|]. apply jeqb_neq in E.
  destruct (hl_loop_text (S (length (toLowerCase text))) text (toLowerCase text) q 0) as (parts & H1 & H2); [done|lia|lia|].
  by exists parts.
Qed.

Lemma slice_at (p t r : list Z) : slice (p ++ t ++ r) (length p) (length p + length t) = t.
Proof. unfold slice. rewrite drop_app_length. replace (length p + length t - length p)%nat with (length t) by lia. by rewrite take_app_length. Qed.
Lemma slice_map (g : Z → Z) s a b : slice (map g s) a b = map g (slice s a b).
Proof. unfold slice. by rewrite skipn_map, firstn_map. Qed.

(** On text whose lower-case form is made character by character, every
    marked piece is the query in some capitalisation. *)
Theorem highlight_marks_query (lc : Z → Z) (text q : list Z) (parts : list (bool * list Z)) (x : list Z)
    (Hlow : toLowerCase text = map lc text) (Hq : q ≠ []) (Hp : Highlight text q = Some parts) (Hx : (true, x) ∈ parts) : map lc x = q.
Proof.
  unfold Highlight in Hp. rewrite (proj2 (jeqb_neq q [])) in Hp by done. rewrite Hlow in Hp. revert Hp Hx.
  generalize (S (length (map lc text))) as fuel. assert (0 <= length (map lc text))%nat as Hi by lia. revert Hi. generalize 0%nat as i.
  intros i Hi fuel. revert i Hi parts. induction fuel as [|fuel IH]; intros i Hi parts; [done|]. cbn [hl_loop].
  destruct (indexOf (map lc text) q i) as [j|] eqn:Ej; [|intros [= <-] [?|Hx%elem_of_nil]%elem_of_cons; done].
  apply indexOf_Some in Ej as (Hij & Ho & _); [|done]. pose proof (occurs_at_length _ _ _ Ho) as Hl. destruct Ho as (p & r & Hs & Hpl).
  destruct (hl_loop fuel text (map lc text) q (j + length q)) as [rest|] eqn:Er; [|done]. cbn [mbind option_bind]. intros [= <-].
  rewrite elem_of_app, elem_of_cons. intros [Hx|[Hx|Hx]].
  - destruct (i <? j)%nat; [|by apply elem_of_nil in Hx]. by apply list_elem_of_singleton in Hx.
  - injection Hx as ->. rewrite <- slice_map, Hs, <- Hpl. apply slice_at.
  - eapply IH; [|exact Er|done]. done.
Qed.

Lemma snippet_middle (a m b : list Z) s e :
  (s <= length a)%nat → (length a + length m <= e)%nat → ∃ u v, slice (a ++ m ++ b) s e = u ++ m ++ v.
Proof.
  intros Hs He. exists (drop s a), (take (e - length a - length m) b). unfold slice. rewrite drop_app_le by done.
  rewrite take_app, take_ge by (rewrite length_drop; lia). f_equal. rewrite length_drop.
  replace (e - s - (length a - s))%nat with (e - length a)%nat by lia. rewrite take_app, (take_ge m) by lia. done.
Qed.

(** The snippet of a hit shows the hit: the query, in the body's capitals, is
    in it, with at most 28 characters on either side and the two ellipses. *)
Theorem snippet_shows_hit (lc : Z → Z) (body q : list Z)
    (Hlow : toLowerCase (flat body) = map lc (flat body)) (Hin : includes (toLowerCase (flat body)) q = true) :
  (∃ u x v, snippetAround body q = u ++ x ++ v ∧ map lc x = q) ∧ (length (snippetAround body q) <= length q + 2 * RADIUS + 2)%nat.
Proof.
  unfold snippetAround. set (f := flat body) in *. unfold includes in Hin. destruct (indexOf (toLowerCase f) q 0) as [j|] eqn:Ej; [|done].
  apply indexOf_Some in Ej as (_ & Ho & _); [|lia]. pose proof (occurs_at_length _ _ _ Ho) as Hl. destruct Ho as (p & r & Hs & Hpl).
  rewrite Hlow in Hs. rewrite Hlow, length_map in Hl.
  apply List.map_eq_app in Hs as (a & mb & -> & Ha & Hmb). apply List.map_eq_app in Hmb as (m & b & -> & Hm & Hb).
  assert (length a = j) as Hla by (rewrite <- Hpl, <- Ha; by rewrite length_map).
  assert (length m = length q) as Hlm by (rewrite <- Hm; by rewrite length_map).
  set (e := Nat.min _ _). assert (length a + length m <= e)%nat as He.
  { unfold e. rewrite !length_app. lia. }
  destruct (snippet_middle a m b (j - RADIUS) e) as (u & v & E); [lia|done|]. split.
  - rewrite E. exists ((if (0 <? j - RADIUS)%nat then [ELLIPSIS] else []) ++ u), m, (v ++ (if (e <? length (a ++ m ++ b))%nat then [ELLIPSIS] else [])).
    by rewrite <- !app_assoc.
  - rewrite !length_app. unfold slice. rewrite length_take. unfold e, RADIUS in *.
    repeat case_match; cbn [length]; lia.
Qed.
End theorems.

(** The comment above [listRows] puts unread conversations first; the list that
    is drawn does not: a friend read up to date stays above one with unread
    mail that wrote earlier. *)
Theorem unread_not_first `{LocaleCompare} (a b : InboxFriend)
    (Hts : f_lastTs b ?? 0 < f_lastTs a ?? 0) (Ha : f_unread a = 0) (Hb : 0 < f_unread b) :
  rows [a; b] [] = [RFriend a; RFriend b] ∧ sortInbox [a; b] = [b; a].
Proof.
  split.
  - unfold rows, js_sort. cbn. unfold row_le. cbn. rewrite (proj2 (Z.eqb_neq _ _)) by lia. cbn. by rewrite (proj2 (Z.leb_le _ _)) by lia.
  - unfold sortInbox, js_sort. cbn. unfold inbox_le. rewrite Ha. cbn. rewrite (proj2 (Z.ltb_lt 0 (f_unread b))) by lia. done.
Qed.

(** One character of Unicode becomes two in lower case (304, the capital I with
    a dot). *)
Definition DottedLowerCase : LowerCase.
Proof.
  refine {| toLowerCase := flat_map (λ c, if c =? 304 then [105; 775] else [ascii_lower c]) |}.
  induction s as [|c s IH]; [done|]. cbn. intros [Hc Hs]%andb_true_iff. rewrite IH by done. destruct (Z.eqb_spec c 304) as [->|]; done.
Defined.

(** The positions are found in the lower-case text and used in the original:
    after such a character the marks are one place too far. *)
Theorem highlight_shifted :
  Highlight (H0 := DottedLowerCase) (304 :: js "ab") (js "a") = Some [(false, 304 :: js "a"); (true, js "b"); (false, [])].
Proof. vm_compute. reflexivity. Qed.

(** ** Witnesses *)

Definition lena : InboxFriend := mkFriend (js "f1") (js "Lena") None None None 0 0 (Some 20) None None None None None None.
Definition omar : InboxFriend := mkFriend (js "f2") (js "Omar") None None None 2 0 (Some 10) None None None None None None.
Definition by_length : LocaleCompare.
Proof. refine {| localeCompare := λ a b, Z.of_nat (length a) - Z.of_nat (length b) |}; intros; lia. Defined.

Lemma unread_not_first_witness : rows (H := by_length) [lena; omar] [] = [RFriend lena; RFriend omar].
Proof. apply (unread_not_first (H := by_length) lena omar); vm_compute; reflexivity. Defined.

Definition tea_entry : ThreadEntry := mkTE 1 dir_in (js "m1") (js "Green TEA?") 5 None None None None None None None None None.
Definition tea_thread (k : list Z) : ThreadState := if jeqb k (js "f1") then mkTS [tea_entry] 1 true false true None else EMPTY_THREAD.
Lemma content_hits_newest_witness :
  contentHits (H0 := AsciiLowerCase) tea_thread (js "tea") [lena; omar] [] = [mkHit (RFriend lena) (js "Green TEA?") 5 (js "m1")] ∧
  (length (contentHits (H0 := AsciiLowerCase) tea_thread (js "tea") [lena; omar] []) <= MAX_HITS)%nat.
Proof.
  split; [vm_compute; reflexivity|]. apply (content_hits_newest (LW := AsciiLowerCase) tea_thread (js "tea") [lena; omar] []). done.
Defined.

Lemma highlight_marks_query_witness :
  Highlight (H0 := AsciiLowerCase) (js "Tea, tea") (js "tea") = Some [(true, js "Tea"); (false, js ", "); (true, js "tea"); (false, [])] ∧
  map ascii_lower (js "Tea") = js "tea".
Proof.
  split; [vm_compute; reflexivity|].
  apply (highlight_marks_query (LW := AsciiLowerCase) ascii_lower (js "Tea, tea") (js "tea")
           [(true, js "Tea"); (false, js ", "); (true, js "tea"); (false, [])] (js "Tea")); [reflexivity|done|vm_compute; reflexivity|by left].
Defined.

Lemma snippet_shows_hit_witness : (length (snippetAround (H0 := AsciiLowerCase) (js "a  cup of Tea") (js "tea")) <= length (js "tea") + 2 * RADIUS + 2)%nat.
Proof. apply (snippet_shows_hit (LW := AsciiLowerCase) ascii_lower (js "a  cup of Tea") (js "tea")); vm_compute; reflexivity. Defined.
