(* ===== verification/Locales.v ===== *)
(** * The two dictionaries (client/locales.ts)

    The English and the Chinese texts, key by key, in the order of the source.
    The host's [t] looks a key up and fills the placeholders in braces from the
    parameters of the call; most keys are literals the type checker knows,
    some are built from a tab, a tier, a state or a reason.  The theorems say
    that the dictionaries agree on keys and placeholders, and that every key
    the code can build has a text. *)

From S2P Require Import Prelude JsString Policy Sessions Tools PageState PageStore SoulnetClient Editors.
#[local] Open Scope Z_scope.

Definition dictionary := list (string * string).
#[local] Open Scope string_scope.
(** A quotation mark. *)
Definition Q : string := String (Ascii.ascii_of_nat 34) EmptyString.

(** Lines 7 to 137. *)
Definition en1 : dictionary := [
  ("sidebar.entry", "SoulMirror");
  ("sidebar.unread", "{n} unread");
  ("inbox.title", "SoulMirror");
  ("inbox.hint", "Your alter speaks to your friends on your behalf. Open SoulMirror to talk to it, watch its conversations and review its drafts; click a friend to open that thread.");
  ("inbox.friends", "Friends");
  ("inbox.pending", "Pending requests ({n})");
  ("inbox.pending.noGreeting", "(no greeting)");
  ("inbox.pending.accepted", "Accepted {name}.");
  ("inbox.empty", "No friends yet — paste a card URI below, or /add.");
  ("inbox.empty.noIdentity", "No identity yet — create one in Settings → Soulnet.");
  ("inbox.noIdentity", "No identity yet");
  ("inbox.noMessages", "No messages yet");
  ("inbox.typing", "typing…");
  ("inbox.online", "online");
  ("inbox.offline", "offline");
  ("inbox.open", "Open the thread with {name}");
  ("inbox.close", "Close");
  ("inbox.card.copy", "Copy my card URI");
  ("inbox.card.copied", "Copied");
  ("inbox.add", "Add");
  ("inbox.add.placeholder", "Add a friend: paste a card URI (soulmirror://card?…)");
  ("toast.newMail", "New message from {name}");
  ("memory.title", "Saving your key memories");
  ("memory.processing.hint", "I'm listening — I'll distill the important bits into long-term memory that understands you better.");
  ("memory.step.clue", ("Spotted a new cue: " ++ Q ++ "{summary}" ++ Q));
  ("memory.step.semantic", "Extracting key meaning: checking for long-term value");
  ("memory.result.hint", "These are saved as pre-memories; you can review them in your knowledge space later.");
  ("memory.result.title", "Extracted memories");
  ("memory.cancel", "Discard");
  ("memory.keep", "Keep {n}s");
  ("memory.empty.hint", "Nothing worth remembering this time — I won't write anything down.");
  ("memory.empty.title", "No memories found");
  ("memory.empty.gotIt", "Got it {n}s");
  ("memory.empty.continue", "Keep chatting");
  ("memory.guide", "{count} key memor{plural} remembered!");
  ("memory.guide.sub", "Keep chatting and I'll slowly remember your preferences and ideas.");
  ("memory.tab", "Memory");
  ("memory.add", "Add");
  ("memory.add.placeholder", "Add a memory by hand…");
  ("memory.save", "Save");
  ("memory.edit", "Edit");
  ("memory.delete", "Delete");
  ("memory.empty.page", "No memories yet.");
  ("memory.origin.auto", "auto");
  ("memory.origin.manual", "manual");
  ("memory.scope.global", "global");
  ("memory.scope.agent", "agent {name}");
  ("memory.scope.group", "group");
  ("memory.scope.friend", "shared");
  ("memory.scope.label", "Scope");
  ("memory.scope.onlyAgent", "this agent only");
  ("memory.scope.onlyGroup", "this group only");
  ("memory.scope.onlyFriend", "this friend only");
  ("memory.filter.label", "Filter");
  ("memory.filter.all", "All");
  ("memory.empty.filter", "No memories in this scope.");
  ("bubble.in", "from {name}");
  ("bubble.out", "to {name}");
  ("bubble.mine", "my alter");
  ("bubble.auto", "auto-reply");
  ("bubble.note", "SoulMirror");
  ("settings.nav", "Soulnet");
  ("sidebar.update", "Upgrade v{v}");
  ("sidebar.update.busy", "Upgrading…");
  ("page.update.installing", "Installing v{v}…");
  ("page.update.restarting", "Restarting the service…");
  ("page.update.reloading", "Back — reloading…");
  ("settings.title", "Soulnet");
  ("settings.intro", ("This dsh is a node on Soulnet: an end-to-end encrypted A2A identity, friends, and your alter — one dsh session (" ++ Q ++ "My alter" ++ Q ++ ") that speaks to every friend on your behalf."));
  ("settings.status", "Backend");
  ("settings.status.soulnet", "soulnet light peer");
  ("settings.status.fake", "in-memory fake");
  ("settings.state.ready", "running");
  ("settings.state.starting", "starting…");
  ("settings.state.restarting", "restarting…");
  ("settings.state.stopped", "stopped");
  ("settings.state.error", "error");
  ("settings.binary", "binary");
  ("settings.binary.setting", "from the peerBinary setting");
  ("settings.binary.platform-package", "from the platform package");
  ("settings.binary.path", "from PATH");
  ("settings.binary.plugin-bin", "from the plugin bin/ directory");
  ("settings.identity", "Identity");
  ("settings.identity.none", "No identity yet. Pick a display name to create one — this generates your key pair locally.");
  ("settings.identity.name", "Display name");
  ("settings.identity.create", "Create identity");
  ("settings.identity.creating", "Creating…");
  ("settings.card", "My card URI");
  ("settings.card.copy", "Copy");
  ("settings.card.copied", "Copied");
  ("settings.card.hint", "Send this link to people who should add you; they paste it in their SoulMirror (or /add here).");
  ("settings.backup", "Back up identity.json");
  ("settings.backup.body", "Your identity is the private key in {path}. Losing it means losing this identity, friends and history — copy the whole a2a/ directory somewhere safe. Moving to SoulMirror later = copying it to ~/.soulmirror/a2a/.");
  ("settings.config", "Connection");
  ("settings.config.relay", "Relay URL");
  ("settings.config.displayName", "Display name (for a new identity)");
  ("settings.config.backend", "Backend");
  ("settings.config.peerBinary", "soulnet binary path");
  ("settings.config.home", "Data directory");
  ("settings.config.hint", "Changes apply the next time dsh starts (the peer process is spawned with them). Empty path = PATH lookup, then the plugin's bin/; empty directory = $SOULNET_HOME, then ~/.soulnet.");
  ("settings.config.unavailable", "Settings are editable from a local (loopback) browser only.");
  ("settings.upgrade", "Version & updates");
  ("settings.upgrade.badge", "update");
  ("settings.upgrade.current", "Current version");
  ("settings.upgrade.check", "Check for updates");
  ("settings.upgrade.checking", "Checking…");
  ("settings.upgrade.uptodate", "v{version} is the latest published version.");
  ("settings.upgrade.available", "New version v{latest} is available (you run v{current}).");
  ("settings.upgrade.do", "Upgrade to v{version}");
  ("settings.upgrade.installing", "Installing v{version}… (pnpm in the dsh profile; this can take a minute)");
  ("settings.upgrade.restarting", "Installed. Restarting dsh — this page reloads by itself once it is back.");
  ("settings.upgrade.manual", "Installed v{version}. Refresh this page to load the new interface; the host half takes effect only after dsh is restarted.");
  ("settings.upgrade.failed", "Upgrade failed ({message}).");
  ("settings.upgrade.hint", "Upgrades install soulnet-dsh from the npm registry (npmjs, falling back to npmmirror) into the dsh profile.");
  ("settings.friends", "Friends");
  ("settings.friends.hint", "Friends are read-only threads on the SoulMirror page: your alter writes to them, you tell your alter what to say.");
  ("settings.friends.none", "No friends yet. Paste a card URI below or use /add.");
  ("settings.friends.open", "Open on the page");
  ("settings.friends.online", "online");
  ("settings.friends.offline", "offline");
  ("settings.friends.unread", "{n} unread");
  ("settings.friends.typing", "typing…");
  ("settings.pending", "Pending requests");
  ("settings.pending.none", "No pending requests.");
  ("settings.pending.accept", "Accept");
  ("settings.pending.reject", "Reject");
  ("settings.add", "Add a friend");
  ("settings.add.uri", "Card URI (soulmirror://card?…)");
  ("settings.add.note", "Note / name (optional, also the greeting)");
  ("settings.add.send", "Send request")].

(** Lines 138 to 267. *)
Definition en2 : dictionary := [
  ("settings.add.sent", "Request sent to {name}. The thread appears once they accept.");
  ("settings.error", "Error: {message}");
  ("settings.refresh", "Refresh");
  ("onboard.title", "Welcome to Soulnet");
  ("onboard.body", "Create your A2A identity: a key pair generated on this machine. Others add you by pasting your card URI.");
  ("onboard.name", "Display name");
  ("onboard.create", "Create identity");
  ("onboard.done", "Done");
  ("onboard.later", "Later");
  ("onboard.created", "Identity created. Copy your card URI and back up identity.json.");
  ("onboard.waiting", "The soulnet peer is not running yet ({state}). Check Settings → Soulnet.");
  ("cmd.friends.open", "Open the thread with {name}");
  ("cmd.friends.none", "No friends yet");
  ("cmd.soulmirror.page", "Open SoulMirror — My alter");
  ("cmd.soulmirror.page.detail", "Talk to your alter; friends on the left are its conversations");
  ("page.title", "SoulMirror");
  ("page.close", "Back to dsh");
  ("page.search", "Search friends");
  ("page.pending", "New friends");
  ("page.friends", "Friends");
  ("page.identity.pending", "{n} pending");
  ("page.drafts.count", "{n} to review");
  ("page.row.draftTag", "[draft]");
  ("page.add", "Add friend");
  ("page.add.uri", "Card URI (soulmirror://card?…)");
  ("page.add.note", "Note (optional, also the greeting)");
  ("page.add.send", "Send request");
  ("page.empty.noFriends", ("No friends yet. Paste a card URI under " ++ Q ++ "Add friend" ++ Q ++ " at the bottom of the list, or send yours to a friend."));
  ("page.empty.noFriends.noIdentity", "No identity yet — create one in Settings → Soulnet.");
  ("page.empty.noMatch", ("No friend matches " ++ Q ++ "{query}" ++ Q ++ "."));
  ("page.header.online", "online");
  ("page.header.offline", "offline");
  ("page.header.lastSeen", "last message {age} ago");
  ("page.header.lastSeen.now", "last message just now");
  ("page.header.card", "Card");
  ("page.header.card.title", "Card of {name}");
  ("page.header.card.copy", "Copy");
  ("page.header.card.copied", "Copied");
  ("page.header.markRead", "Mark read");
  ("page.thread.loading", "Loading…");
  ("page.thread.loadOlder", "Load older messages");
  ("page.thread.start", "Start of the conversation");
  ("page.thread.today", "Today");
  ("page.thread.yesterday", "Yesterday");
  ("page.thread.typing", "{name} is typing…");
  ("page.thread.attachment", "attachment: {name}");
  ("page.status.sending", "sending…");
  ("page.status.sent", "sent");
  ("page.status.queued", "queued — relay unreachable, will retry");
  ("page.status.error", "not delivered");
  ("page.status.failed", "failed: {message}");
  ("page.status.retry", "Retry");
  ("page.status.discard", "Discard");
  ("page.composer.send", "Send");
  ("page.composer.instructing", "Sending…");
  ("page.composer.direct", "Debug: direct to {name} · end-to-end encrypted · your alter does not see it");
  ("alter.me", "My alter");
  ("alter.wallet", "Wallet");
  ("alter.row.hint", "Talk to your alter directly");
  ("alter.row.drafts", "{n} draft(s) waiting for you");
  ("alter.status.running", "Your alter is working…");
  ("alter.status.idle", "Ready · one memory shared across every friend");
  ("alter.status.noSession", "Starting the alter session…");
  ("alter.pendbar", "{n} draft(s) of your alter wait for your decision");
  ("alter.pendbar.go", "Review in {name}'s thread →");
  ("alter.empty.title", "Tell your alter what to do");
  ("alter.empty.hint", ("It writes to your friends on your behalf (" ++ Q ++ "tell Bob I am in" ++ Q ++ "), answers their mail by your diplomacy protocol, and asks you before money, tasks or commitments. Friends on the left are its conversations — read-only for you."));
  ("alter.composer.placeholder", "Say something to your alter… (Enter to send, Shift+Enter for a new line)");
  ("alter.composer.hint", "You only talk to your own alter; it speaks to your friends for you.");
  ("alter.proactive", "proactive");
  ("alter.thinking", "Your alter is working…");
  ("alter.item.inbound", "Mail from {name}");
  ("alter.item.view", "open thread");
  ("alter.item.groupInbound", "Group message · {name}");
  ("alter.item.viewGroup", "view in {name}");
  ("alter.item.send", "To {name}");
  ("alter.item.send.pending", "sending…");
  ("alter.item.send.sent", "sent");
  ("alter.item.send.auto", "sent · auto");
  ("alter.item.send.draft", "draft — waiting for your review");
  ("alter.item.send.refused", "not sent");
  ("alter.item.send.failed", "failed");
  ("alter.item.note.approved", "You approved the draft to {name}; it was sent");
  ("alter.item.note.rejected", "You rejected the draft to {name}");
  ("alter.item.note.revise", "You sent the draft to {name} back for revision");
  ("alter.item.turnFailed", "The turn failed: {reason}");
  ("alter.item.revise", "Revision for {name}");
  ("alter.failed.hint", "No model answer — check the model / API key in dsh, then try again.");
  ("draft.tag", "Draft");
  ("draft.title", "Your alter wants to send this");
  ("draft.title.to", "Your alter wants to send this to {name}");
  ("draft.openThread", "open thread");
  ("draft.openGroup", "view in group");
  ("draft.reason.draft-tier", ("Held because this friend's reply tier is " ++ Q ++ "draft" ++ Q ++ " (you review before anything goes out)."));
  ("draft.reason.notify-tier", ("Held because this friend's reply tier is " ++ Q ++ "notify" ++ Q ++ "."));
  ("draft.reason.rate-limited", "Held because the hourly auto-reply cap for this friend is reached.");
  ("draft.reason.loop-guard-auto", "Held because the mail that woke your alter was itself an automatic reply (loop guard).");
  ("draft.reason.other-friend", "Held because your alter wants to write to a different friend than the one who wrote.");
  ("draft.reason.unknown-trigger", "Held because your alter was not acting on your instruction or on this friend's mail.");
  ("draft.inReplyTo", "in reply to mail from {name}");
  ("draft.approve", "Send it");
  ("draft.edit", "Edit");
  ("draft.editSend", "Send edited");
  ("draft.revise", "Let the alter revise");
  ("draft.revise.placeholder", "Tell your alter what to change (it rewrites and sends on your word)…");
  ("draft.reviseSend", "Send feedback to the alter");
  ("draft.reject", "Reject");
  ("draft.cancel", "Cancel");
  ("friend.banner.prefix", "This is ");
  ("friend.banner.mine", "your alter");
  ("friend.banner.middle", "'s conversation with ");
  ("friend.banner.theirs", "{name}");
  ("friend.banner.suffix", (" — you can't speak here. Tell " ++ Q ++ "My alter" ++ Q ++ " instead."));
  ("friend.banner.go", "Go to My alter");
  ("friend.empty", ("No messages yet — tell " ++ Q ++ "My alter" ++ Q ++ " to write to {name}."));
  ("friend.drafts.pill", "{n} draft(s) waiting for your decision");
  ("friend.actbar.eye", "Alter ↔ alter · you are the observer");
  ("friend.actbar.pending", "Drafts");
  ("friend.actbar.settings", "Protocol & settings");
  ("friend.actbar.goAlter", "Talk to My alter →");
  ("friend.debug.placeholder", "Debug: send as myself to {name}… (bypasses the alter)");
  ("friend.debug.send", "Send as myself");
  ("tier.notify", "Notify only");
  ("tier.draft", "Draft — you review before it sends");
  ("tier.auto", "Auto-reply — no review (rate-limited)");
  ("tier.default", "Default ({tier})");
  ("tier.short.notify", "notify");
  ("tier.short.draft", "draft");
  ("tier.short.auto", "auto");
  ("friend.settings.title", "How your alter handles {name}")].

(** Lines 268 to 397. *)
Definition en3 : dictionary := [
  ("friend.tier", "Reply tier");
  ("friend.mute", "Mute (do not disturb)");
  ("friend.tier.hint", "notify: mail is only shown; draft: your alter drafts a reply and you review it on this page; auto: it sends by itself (max {n}/hour).");
  ("friend.protocol", "Protocol override for this friend");
  ("friend.protocol.placeholder", "Rules for this friend only (they win over the global protocol on conflict). Empty = none.");
  ("friend.protocol.save", "Save");
  ("friend.protocol.saved", "Saved.");
  ("protocol.title", "Diplomacy protocol");
  ("protocol.open", "Protocol");
  ("protocol.hint", ("The principles your alter follows when it speaks to friends on your behalf (global; per-friend overrides live under " ++ Q ++ "Protocol & settings" ++ Q ++ " in a friend thread). Saved to {path}; applies from the next turn."));
  ("protocol.missing", "No protocol.md yet — the peer writes the default when your identity is created; saving here creates it.");
  ("protocol.save", "Save protocol");
  ("protocol.saved", "Saved.");
  ("protocol.reload", "Reload");
  ("settings.alter", "Your alter");
  ("settings.alter.intro", ("Your alter lives in one dsh session (" ++ Q ++ "My alter" ++ Q ++ "). Its settings — reply tiers, auto-reply cap, capability mode and the diplomacy protocol — now live on the alter's own " ++ Q ++ "Settings" ++ Q ++ " tab (灵镜 → My alter → 设置). This section keeps the jump links and the debug toggle."));
  ("settings.alter.defaultTier", "Default reply tier");
  ("settings.alter.perHour", "Auto replies per friend per hour");
  ("settings.alter.directSend", ("Debug: offer " ++ Q ++ "Send as myself" ++ Q ++ " in friend threads (bypasses the alter)"));
  ("settings.alter.alterMode", "Alter capability");
  ("settings.alter.alterMode.comms", "SoulMirror only (messages & groups)");
  ("settings.alter.alterMode.full", "Full dsh (shell + files, like a normal session)");
  ("settings.alter.alterMode.hint", "Applies to the next alter session — restart dsh (or reopen the alter session) to switch.");
  ("settings.alter.openPage", "Open SoulMirror");
  ("settings.alter.legacy", "{n} old per-friend session(s) from before 0.1.0-p4 are kept in dsh but receive no mail; you can delete them.");
  ("settings.wallet", "My USDC wallet");
  ("settings.wallet.loading", "Loading…");
  ("settings.wallet.none", "No wallet yet — ask your alter to create one, or bind an existing address.");
  ("settings.wallet.refresh", "Refresh");
  ("settings.wallet.address", "Address");
  ("settings.wallet.balanceUsdc", "USDC");
  ("settings.wallet.balanceEth", "ETH");
  ("settings.pay", "USDC payments (CDP)");
  ("settings.pay.intro", "Your alter can hold a USDC wallet on Base through Coinbase CDP. Fill the three CDP secrets from portal.cdp.coinbase.com (API Keys → Secret API Key; Wallet Secret is shown once) to let the alter create wallets and send automatically. Without CDP you can still receive payments and verify paid group-join transfers.");
  ("settings.pay.cdpKeyId", "CDP API Key ID");
  ("settings.pay.cdpKeySecret", "CDP API Key Secret");
  ("settings.pay.cdpWalletSecret", "CDP Wallet Secret");
  ("settings.pay.cdpNetwork", "CDP Network");
  ("settings.pay.paygateProxy", "Proxy for CDP calls (e.g. http://127.0.0.1:10808)");
  ("settings.pay.paygateBinary", "paygate binary path (empty = bundled/PATH)");
  ("settings.pay.paygatePort", "paygate port (loopback)");
  ("settings.pay.hint", "Saving any of these fields restarts the local payment gateway automatically — no dsh restart needed.");
  ("group.section", "Groups");
  ("group.create", "New group");
  ("group.create.name", "Group name");
  ("group.create.members", "Pick members (friends)");
  ("group.create.submit", "Create");
  ("group.create.created", ("Group " ++ Q ++ "{name}" ++ Q ++ " created."));
  ("group.create.needFriends", "A group needs at least one friend — add friends first.");
  ("group.members", "{n} members");
  ("group.members.open", "Members");
  ("group.owner", "owner");
  ("group.kick", "Remove");
  ("group.kicked", "Removed {name} — every remaining member rotates its key.");
  ("group.leave", "Leave group");
  ("group.leave.owner", "You are the owner — a group lives and dies with its owner for now.");
  ("group.left", "Left the group.");
  ("group.empty", "No messages yet — say something below.");
  ("group.draftReminder", "Your alter drafted a reply — awaiting your review.");
  ("group.draftReminder.go", "Review");
  ("group.sender.me", "me");
  ("group.composer.placeholder", "Message {name}…");
  ("group.composer.hint", "Sent as yourself, end-to-end encrypted (sender key).");
  ("group.send", "Send");
  ("group.create.template", "Template");
  ("group.create.advanced", "Advanced");
  ("template.standard", "Standard");
  ("template.standard.desc", "Humans and alters both speak; alters wake on mention and draft their replies.");
  ("template.announcement", "Announcement");
  ("template.announcement.desc", "Only the owner posts; alters stay silent.");
  ("template.agents", "Agents only");
  ("template.agents.desc", "Humans read, alters talk freely and reply on their own.");
  ("template.tasks", "Tasks");
  ("template.tasks.desc", ("Standard collaboration around tasks (tagged " ++ Q ++ "tasks" ++ Q ++ ")."));
  ("template.casual", "Casual");
  ("template.casual.desc", "Loose chatter: alters always awake, generous caps.");
  ("group.form.speakHumans", "Humans may post");
  ("group.form.speakAgents", "Alters may post");
  ("group.form.speakWho", "Who may post");
  ("group.form.speakWho.all", "every member");
  ("group.form.speakWho.owner", "owner only");
  ("group.form.speakWho.admins", "owner and admins");
  ("group.form.join", "Joining");
  ("group.form.join.invite", "invite only");
  ("group.form.join.apply", "strangers may apply");
  ("group.form.join.open", "open (applications auto-approved)");
  ("group.form.join.paid", "paid (USDC to join)");
  ("group.form.join.paid.noWallet", "needs a wallet");
  ("group.form.join.paid.noWalletHint", "Create a USDC wallet first (Settings → SoulMirror network → USDC payments), then you can charge for joining.");
  ("group.form.joinPrice", "Join price (USDC)");
  ("group.form.joinAddr", "Receive at: {address}");
  ("group.form.join.paid.membersFree", "Members you select now join free; only later applicants pay the join price.");
  ("group.form.join.paid.priceRequired", "Enter the join price (USDC) to create a paid group.");
  ("group.form.join.paid.autoPublic", "Paid groups are public automatically (strangers need the group link to find and pay).");
  ("group.form.wake", "Alter wake-up");
  ("group.form.wake.mention", "on mention");
  ("group.form.wake.always", "always");
  ("group.form.wake.never", "never");
  ("group.form.tier", "Alter reply tier");
  ("group.form.rules", "Rules — free text, injected into member alters' prompts");
  ("group.form.public", "Public — listed on the relay so strangers can find and apply");
  ("group.form.public.short", "public");
  ("group.form.tags", "Tags (comma-separated)");
  ("group.home", "Home");
  ("group.home.profile", "Profile");
  ("group.home.rules", "Rules");
  ("group.home.pins", "Pinned");
  ("group.home.pin.add", "Pin");
  ("group.home.pin.placeholder", "Pin a note for the group…");
  ("group.home.pin.remove", "Remove pin");
  ("group.home.members", "Members");
  ("group.home.admin", "admin");
  ("group.home.promote", "Make admin");
  ("group.home.demote", "Remove admin");
  ("group.home.invite", "Invite a friend…");
  ("group.home.invite.go", "Invite");
  ("group.home.invite.none", "Every friend is already a member.");
  ("group.home.applications", "Applications");
  ("group.home.approve", "Approve");
  ("group.home.reject", "Reject");
  ("group.home.uri.copy", "Copy group link");
  ("group.home.uri.copied", "Copied");
  ("group.home.legacy", "Created before group profiles — everything allowed, standard chat room.");
  ("group.home.edit", "Edit");
  ("group.home.edit.save", "Save");
  ("group.home.edit.cancel", "Cancel");
  ("group.home.loading", "Loading the roster…");
  ("group.confirm", "Confirm?");
  ("group.empty.quiet", "Nothing yet — the alters will talk here.");
  ("group.section.empty", "No groups yet — use the ＋ button above to create or join one.")].

(** Lines 398 to 527. *)
Definition en4 : dictionary := [
  ("chats.empty", "No conversations yet — use the ＋ button above to add a friend or create a group.");
  ("search.chats", "Contacts & groups");
  ("search.messages", "Messages");
  ("foot.addFriend", "Add friend");
  ("foot.joinGroup", "Join group");
  ("plus.menu", "Add…");
  ("group.room.missing", ("Room module " ++ Q ++ "{id}" ++ Q ++ " is not installed — showing the chat room."));
  ("group.speak.humansOff", "Humans do not post in this group — your alter speaks here.");
  ("group.speak.whoOwner", "Only the owner posts in this group.");
  ("group.speak.whoAdmins", "Only the owner and admins post in this group.");
  ("group.alter.toggle", "My alter participates");
  ("group.mute", "Mute (do not disturb)");
  ("group.mode.mention", "replies when @mentioned");
  ("group.mode.always", "active — may reply to anything");
  ("group.by.alter", "alter");
  ("group.voices.duty", "On duty");
  ("group.voices.duty.none", "nobody on duty");
  ("group.voices.duty.alter", "alter on duty");
  ("group.voices.duty.name", "{name} on duty");
  ("group.mention.agent", "my agent");
  ("group.voices.mine", "mine");
  ("group.busy", "{label} working…");
  ("group.note.private", "only you can see this");
  ("settings.agents", "My agents");
  ("settings.agents.intro", ("Named seat agents behind your identity: each runs as its own dsh session in its own working directory, wakes when a group message @mentions its name (whitelist-gated), and posts as " ++ Q ++ "you · <name>" ++ Q ++ "."));
  ("settings.agents.none", "No agents yet — add one below.");
  ("settings.agents.name", "Name (used as @mention)");
  ("settings.agents.cwd", "Working directory - the folder it reads, writes and runs commands in (optional)");
  ("settings.agents.cwd.browse", "Browse");
  ("settings.agents.cwdHint", "Leave empty for its own default folder");
  ("settings.agents.preset", "Capability preset");
  ("settings.agents.preset.default", "standard coding agent (default)");
  ("settings.agents.prompt", "Persona / instructions (its system brief; edits apply from its next turn)");
  ("settings.agents.prompt.placeholder", "e.g. You are the build engineer of this repo. Keep group replies to one short line; always run the tests before reporting done.");
  ("settings.agents.approval", "Replies wait for my review (default off: it answers directly)");
  ("settings.agents.approval.badge", "review required");
  ("settings.agents.commanders", "Who may command it in groups");
  ("settings.agents.commanders.any", "any group member");
  ("settings.agents.commanders.ownerOnly", "only me");
  ("settings.agents.add", "Add agent");
  ("settings.agents.edit", "Edit");
  ("settings.agents.save", "Save");
  ("settings.agents.remove", "Remove");
  ("settings.agents.saved", ("Agent " ++ Q ++ "{name}" ++ Q ++ " saved."));
  ("settings.agents.removed", ("Removed " ++ Q ++ "{name}" ++ Q ++ "."));
  ("settings.agents.status.running", "working…");
  ("settings.agents.status.idle", "idle");
  ("agents.section", "My agents");
  ("chats.section", "Messages");
  ("settings.agents.groupHint", ("Where it works and who may command it is set per group: open the group chat → " ++ Q ++ "Agents…" ++ Q ++ " next to the voice switches."));
  ("group.agents.button", "Agents…");
  ("group.agents.title", "Agents in this group");
  ("group.agents.hint", "Enable your agents for this group and choose who HERE may command them. @name wakes an enabled agent; your own mention always works.");
  ("group.agents.none", ("No agents yet — add one in the " ++ Q ++ "My agents" ++ Q ++ " section of the list."));
  ("group.agents.commanders", "Who here may command it");
  ("group.agents.commanders.custom", "chosen members");
  ("agent.settings", "Agent settings");
  ("agent.settings.title", "{name} · settings");
  ("agent.composer.placeholder", "Instruct {name}… (Enter to send)");
  ("agent.empty.hint", "It works in its own directory and reports here; @{name} in a group wakes it too.");
  ("agent.woke", "Woken by");
  ("agent.thinking.live", "Thinking");
  ("agent.thinking.done", "Thought");
  ("group.join.section", "Join a group");
  ("group.join.uri", "Group link (soulmirror://group?…)");
  ("group.join.paid.info", "This group is PAID to join: pay {price} USDC to {addr} from any wallet, then paste the transaction hash below.");
  ("group.join.paid.amountLabel", "Join fee");
  ("group.join.paid.confirm", "You are about to pay {price} USDC from your wallet — continue?");
  ("group.join.paid.confirmPay", "Confirm Payment");
  ("group.join.paid.localHint", "Your wallet is managed here — click “Pay & Apply” below to send the fee and join automatically (no need to copy a transaction hash).");
  ("group.join.paid.payApply", "Pay & Apply");
  ("group.join.paid.paidViaLocal", "Paid {amount} USDC and applied — the owner will verify the payment and approve you.");
  ("group.join.paid.toLabel", "Pay to (auto-filled)");
  ("group.join.paid.payHint", "Send {price} USDC from any wallet to the address above, then paste the transaction hash to apply.");
  ("group.join.paid.tx", "Payment transaction hash (0x…)");
  ("group.join.paid.noPrice", "The group is paid but has no published price — ask the owner.");
  ("group.join.paid.needProof", "This is a paid group ({price} USDC). Pay to {addr} first, then paste the transaction hash to apply.");
  ("group.join.paid.note", "paid {price} USDC to join");
  ("group.join.paid.applied", "Payment attached — application submitted, waiting for the owner to verify.");
  ("group.join.apply", "Apply");
  ("group.join.applied", "Application sent.");
  ("group.apps.badge", "{n} application(s) waiting");
  ("col2.messages", "Messages");
  ("col2.contacts", "Contacts");
  ("col2.agents", "Agents");
  ("col2.groups", "Groups");
  ("col2.contacts.section", "You");
  ("col2.agents.empty", "No agents yet — create one to give it a job on your behalf.");
  ("col2.groups.empty", "No groups yet — create one or join with a group link.");
  ("agents.expand", "Show {n} more");
  ("agents.collapse", "Collapse");
  ("messages.friends", "Friends");
  ("messages.section", "Chats");
  ("groups.section", "Groups");
  ("pane.chat", "Chat");
  ("pane.announce", "Bulletin");
  ("pane.home", "Home");
  ("pane.members", "Members");
  ("pane.admin", "Manage");
  ("pane.info", "Info");
  ("pane.settings", "Settings");
  ("pane.memory", "Memory");
  ("friend.home.profile", "Profile");
  ("friend.home.fp", "Fingerprint");
  ("friend.home.name", "Name");
  ("friend.home.remark", "Remark");
  ("friend.home.protocol", "Protocol");
  ("friend.home.lastActive", "Last active");
  ("friend.home.drafts", "Drafts waiting");
  ("friend.home.actions", "Actions");
  ("friend.home.sendMessage", "Send a message");
  ("alter.home.profile", "Profile");
  ("alter.home.session", "Session");
  ("alter.home.friends", "Friends");
  ("alter.home.drafts", "Drafts");
  ("alter.home.defaultTier", "Default reply tier");
  ("alter.home.perHour", "Auto-replies per hour");
  ("alter.home.actions", "Actions");
  ("alter.card.settings", "Alter settings");
  ("alter.home.none", "—");
  ("agent.home.profile", "Profile");
  ("agent.home.preset", "Preset");
  ("agent.home.cwd", "Directory");
  ("agent.home.session", "Session");
  ("agent.home.prompt", "Brief");
  ("agent.home.actions", "Actions")].

(** Lines 531 to 661. *)
Definition zh1 : dictionary := [
  ("sidebar.entry", "灵镜");
  ("sidebar.unread", "{n} 条未读");
  ("inbox.title", "灵镜");
  ("inbox.hint", "你的分身替你和好友往来。打开灵镜就能跟它说话、看它和好友的对话、审它拟的稿；点好友打开那段往来。");
  ("inbox.friends", "好友");
  ("inbox.pending", "待处理申请（{n}）");
  ("inbox.pending.noGreeting", "（没有问候语）");
  ("inbox.pending.accepted", "已接受 {name}。");
  ("inbox.empty", "还没有好友——在下面贴名片链接，或用 /add。");
  ("inbox.empty.noIdentity", "还没有身份——到 设置 → Soulnet 创建。");
  ("inbox.noIdentity", "还没有身份");
  ("inbox.noMessages", "还没有消息");
  ("inbox.typing", "正在输入…");
  ("inbox.online", "在线");
  ("inbox.offline", "离线");
  ("inbox.open", "打开与 {name} 的往来");
  ("inbox.close", "关闭");
  ("inbox.card.copy", "复制我的名片链接");
  ("inbox.card.copied", "已复制");
  ("inbox.add", "添加");
  ("inbox.add.placeholder", "加好友：贴名片链接（soulmirror://card?…）");
  ("toast.newMail", "{name} 发来新消息");
  ("memory.title", "正在帮你沉淀关键记忆");
  ("memory.processing.hint", "你说的我有认真听，会先提炼重要信息，再变成更懂你的长期记忆。");
  ("memory.step.clue", "识别到一条新的对话线索：“{summary}”");
  ("memory.step.semantic", "提取关键语义：正在判断是否具有长期价值");
  ("memory.result.hint", "这些内容会先作为预记忆保存，之后你也可以在知识空间里继续查看和管理。");
  ("memory.result.title", "已提取出的记忆点");
  ("memory.cancel", "取消记忆");
  ("memory.keep", "保留记忆 {n}s");
  ("memory.empty.hint", "这次没有发现值得长期记住的内容，先不写入记忆库。");
  ("memory.empty.title", "未发现记忆点");
  ("memory.empty.gotIt", "知道了 {n}s");
  ("memory.empty.continue", "继续聊聊");
  ("memory.guide", "您的 {count} 个关键记忆已经被记住啦～");
  ("memory.guide.sub", "多和我聊一点，我会慢慢记住你的偏好和想法，越来越像那个懂你的分身。");
  ("memory.tab", "记忆");
  ("memory.add", "添加");
  ("memory.add.placeholder", "手动添加一条记忆…");
  ("memory.save", "保存");
  ("memory.edit", "编辑");
  ("memory.delete", "删除");
  ("memory.empty.page", "还没有记忆。");
  ("memory.origin.auto", "自动提炼");
  ("memory.origin.manual", "手动");
  ("memory.scope.global", "全局");
  ("memory.scope.agent", "分身 {name}");
  ("memory.scope.group", "群记忆");
  ("memory.scope.friend", "好友共享");
  ("memory.scope.label", "范围");
  ("memory.scope.onlyAgent", "仅当前分身");
  ("memory.scope.onlyGroup", "仅当前群");
  ("memory.scope.onlyFriend", "仅当前好友");
  ("memory.filter.label", "筛选");
  ("memory.filter.all", "全部");
  ("memory.empty.filter", "该范围暂无记忆。");
  ("bubble.in", "来自 {name}");
  ("bubble.out", "发给 {name}");
  ("bubble.mine", "我的分身");
  ("bubble.auto", "自动回复");
  ("bubble.note", "灵镜");
  ("settings.nav", "Soulnet");
  ("sidebar.update", "升级 v{v}");
  ("sidebar.update.busy", "升级中…");
  ("page.update.installing", "正在安装 v{v}……");
  ("page.update.restarting", "正在重启服务……");
  ("page.update.reloading", "完成——正在刷新……");
  ("settings.title", "Soulnet");
  ("settings.intro", "这个 dsh 是Soulnet 上的一个节点：端到端加密的 A2A 身份、好友，以及你的分身——一条 dsh 会话（「我的分身」），替你和所有好友往来。");
  ("settings.status", "后端");
  ("settings.status.soulnet", "soulnet 灵网轻端");
  ("settings.status.fake", "内存假实现");
  ("settings.state.ready", "运行中");
  ("settings.state.starting", "启动中…");
  ("settings.state.restarting", "重启中…");
  ("settings.state.stopped", "已停止");
  ("settings.state.error", "出错");
  ("settings.binary", "可执行文件");
  ("settings.binary.setting", "来自 peerBinary 设置");
  ("settings.binary.platform-package", "来自平台包");
  ("settings.binary.path", "来自 PATH");
  ("settings.binary.plugin-bin", "来自插件 bin/ 目录");
  ("settings.identity", "身份");
  ("settings.identity.none", "还没有身份。起一个昵称就会在本机生成密钥对。");
  ("settings.identity.name", "昵称");
  ("settings.identity.create", "创建身份");
  ("settings.identity.creating", "创建中…");
  ("settings.card", "我的名片链接");
  ("settings.card.copy", "复制");
  ("settings.card.copied", "已复制");
  ("settings.card.hint", "把这个链接发给要加你的人；对方在灵镜里贴上（或在这里 /add）。");
  ("settings.backup", "备份 identity.json");
  ("settings.backup.body", "你的身份就是 {path} 里的私钥。丢了就丢了身份、好友和历史——把整个 a2a/ 目录拷到安全的地方。以后迁到灵镜 = 拷到 ~/.soulmirror/a2a/。");
  ("settings.config", "连接");
  ("settings.config.relay", "邮局（relay）地址");
  ("settings.config.displayName", "昵称（用于新建身份）");
  ("settings.config.backend", "后端");
  ("settings.config.peerBinary", "soulnet 可执行文件路径");
  ("settings.config.home", "数据目录");
  ("settings.config.hint", "改动下次启动 dsh 时生效（轻端进程按这些参数启动）。路径留空 = 查 PATH，再查插件 bin/；目录留空 = $SOULNET_HOME，再 ~/.soulnet。");
  ("settings.config.unavailable", "只有本机（loopback）浏览器可以编辑设置。");
  ("settings.upgrade", "版本与更新");
  ("settings.upgrade.badge", "有新版");
  ("settings.upgrade.current", "当前版本");
  ("settings.upgrade.check", "检查更新");
  ("settings.upgrade.checking", "检查中…");
  ("settings.upgrade.uptodate", "v{version} 已是最新发布版本。");
  ("settings.upgrade.available", "发现新版本 v{latest}（当前 v{current}）。");
  ("settings.upgrade.do", "升级到 v{version}");
  ("settings.upgrade.installing", "正在安装 v{version}…（在 dsh profile 里跑 pnpm，可能要一会儿）");
  ("settings.upgrade.restarting", "安装完成。正在重启 dsh——恢复后本页会自动刷新。");
  ("settings.upgrade.manual", "已安装 v{version}。界面部分刷新本页即生效；宿主部分要重启 dsh 才完整生效。");
  ("settings.upgrade.failed", "升级失败（{message}）。");
  ("settings.upgrade.hint", "升级会从 npm 源（npmjs，不通时退 npmmirror）把 soulnet-dsh 装进 dsh profile。");
  ("settings.friends", "好友");
  ("settings.friends.hint", "好友在灵镜页面里是只读的往来记录：分身替你写信，你只吩咐分身。");
  ("settings.friends.none", "还没有好友。在下面贴名片链接，或用 /add。");
  ("settings.friends.open", "在灵镜里打开");
  ("settings.friends.online", "在线");
  ("settings.friends.offline", "离线");
  ("settings.friends.unread", "{n} 条未读");
  ("settings.friends.typing", "正在输入…");
  ("settings.pending", "待处理的好友申请");
  ("settings.pending.none", "没有待处理的申请。");
  ("settings.pending.accept", "接受");
  ("settings.pending.reject", "拒绝");
  ("settings.add", "加好友");
  ("settings.add.uri", "名片链接（soulmirror://card?…）");
  ("settings.add.note", "备注/名字（可选，同时作为问候语）");
  ("settings.add.send", "发送申请")].

(** Lines 662 to 791. *)
Definition zh2 : dictionary := [
  ("settings.add.sent", "已向 {name} 发出申请，对方接受后往来就会出现。");
  ("settings.error", "错误：{message}");
  ("settings.refresh", "刷新");
  ("onboard.title", "欢迎来到Soulnet");
  ("onboard.body", "创建你的 A2A 身份：在本机生成一对密钥。别人贴你的名片链接就能加你。");
  ("onboard.name", "昵称");
  ("onboard.create", "创建身份");
  ("onboard.done", "完成");
  ("onboard.later", "稍后");
  ("onboard.created", "身份已创建。复制名片链接，并备份 identity.json。");
  ("onboard.waiting", "soulnet 轻端还没运行（{state}）。请到 设置 → Soulnet 查看。");
  ("cmd.friends.open", "打开与 {name} 的往来");
  ("cmd.friends.none", "还没有好友");
  ("cmd.soulmirror.page", "打开灵镜——我的分身");
  ("cmd.soulmirror.page.detail", "跟你的分身说话；左边的好友是它的往来");
  ("page.title", "灵镜");
  ("page.close", "返回 dsh");
  ("page.search", "搜索好友");
  ("page.pending", "新的朋友");
  ("page.friends", "我的好友");
  ("page.identity.pending", "{n} 条待处理");
  ("page.drafts.count", "{n} 项待确认");
  ("page.row.draftTag", "[待确认]");
  ("page.add", "加好友");
  ("page.add.uri", "名片链接（soulmirror://card?…）");
  ("page.add.note", "备注（可选，同时作为问候语）");
  ("page.add.send", "发送申请");
  ("page.empty.noFriends", "还没有好友。把对方的名片链接贴到列表底部的「加好友」，或把你的名片发给对方。");
  ("page.empty.noFriends.noIdentity", "还没有身份——到 设置 → Soulnet 创建。");
  ("page.empty.noMatch", "没有匹配「{query}」的好友。");
  ("page.header.online", "在线");
  ("page.header.offline", "离线");
  ("page.header.lastSeen", "最近消息 {age} 前");
  ("page.header.lastSeen.now", "最近消息刚刚");
  ("page.header.card", "名片");
  ("page.header.card.title", "{name} 的名片");
  ("page.header.card.copy", "复制");
  ("page.header.card.copied", "已复制");
  ("page.header.markRead", "标为已读");
  ("page.thread.loading", "加载中…");
  ("page.thread.loadOlder", "加载更早的消息");
  ("page.thread.start", "对话开始");
  ("page.thread.today", "今天");
  ("page.thread.yesterday", "昨天");
  ("page.thread.typing", "{name} 正在输入…");
  ("page.thread.attachment", "附件：{name}");
  ("page.status.sending", "发送中…");
  ("page.status.sent", "已发送");
  ("page.status.queued", "已排队——邮局暂不可达，会自动重试");
  ("page.status.error", "未送达");
  ("page.status.failed", "发送失败：{message}");
  ("page.status.retry", "重试");
  ("page.status.discard", "丢弃");
  ("page.composer.send", "发送");
  ("page.composer.instructing", "发送中…");
  ("page.composer.direct", "调试：直发给 {name} · 端到端加密 · 分身看不到");
  ("alter.me", "我的分身");
  ("alter.wallet", "钱包");
  ("alter.row.hint", "跟你的分身直接对话");
  ("alter.row.drafts", "{n} 项等你拍板");
  ("alter.status.running", "分身正在处理…");
  ("alter.status.idle", "就绪 · 对所有好友共享同一记忆");
  ("alter.status.noSession", "分身会话启动中…");
  ("alter.pendbar", "还有 {n} 项分身拟稿等你拍板");
  ("alter.pendbar.go", "去「{name}」里看 →");
  ("alter.empty.title", "吩咐你的分身");
  ("alter.empty.hint", "它替你给好友写信（「告诉 Bob 我到」），按外交准则应答来信，涉及花钱、任务、承诺时先问你。左边的好友是它的往来——你只看不说。");
  ("alter.composer.placeholder", "和你的分身说点什么…（Enter 发送，Shift+Enter 换行）");
  ("alter.composer.hint", "你只对自己的分身说话；对外发言由它替你去说。");
  ("alter.proactive", "主动");
  ("alter.thinking", "分身正在处理…");
  ("alter.item.inbound", "{name} 来信");
  ("alter.item.view", "看往来");
  ("alter.item.groupInbound", "群消息 · {name}");
  ("alter.item.viewGroup", "在 {name} 群 中查看");
  ("alter.item.send", "发给 {name}");
  ("alter.item.send.pending", "发送中…");
  ("alter.item.send.sent", "已发出");
  ("alter.item.send.auto", "已发出 · 自动");
  ("alter.item.send.draft", "拟稿——等你拍板");
  ("alter.item.send.refused", "未发出");
  ("alter.item.send.failed", "失败");
  ("alter.item.note.approved", "你允许了发给 {name} 的拟稿，已发出");
  ("alter.item.note.rejected", "你拒绝了发给 {name} 的拟稿");
  ("alter.item.note.revise", "你把发给 {name} 的拟稿退回重写");
  ("alter.item.turnFailed", "这一轮失败：{reason}");
  ("alter.item.revise", "让分身改 → {name}");
  ("alter.failed.hint", "模型没有回答——检查 dsh 的模型 / API key 后再试。");
  ("draft.tag", "待确认");
  ("draft.title", "我的分身想这样回复");
  ("draft.title.to", "我的分身想这样发给 {name}");
  ("draft.openThread", "看往来");
  ("draft.openGroup", "在群中查看");
  ("draft.reason.draft-tier", "依据：这位好友的应答档位是「拟稿」（发出前先问你）。");
  ("draft.reason.notify-tier", "依据：这位好友的应答档位是「只通知」。");
  ("draft.reason.rate-limited", "依据：对这位好友的自动回复已达每小时上限。");
  ("draft.reason.loop-guard-auto", "依据：唤醒分身的那封来信本身是自动回复（防循环）。");
  ("draft.reason.other-friend", "依据：分身想写给的不是来信的那位好友。");
  ("draft.reason.unknown-trigger", "依据：分身既不是按你的吩咐、也不是在回复这位好友的来信。");
  ("draft.inReplyTo", "回复 {name} 的来信");
  ("draft.approve", "允许发送");
  ("draft.edit", "改一改");
  ("draft.editSend", "按改后的发送");
  ("draft.revise", "让分身改");
  ("draft.revise.placeholder", "告诉分身怎么改（它重写后按你的吩咐发出）…");
  ("draft.reviseSend", "把意见发给分身");
  ("draft.reject", "拒绝");
  ("draft.cancel", "取消");
  ("friend.banner.prefix", "这是");
  ("friend.banner.mine", "你的分身");
  ("friend.banner.middle", "与");
  ("friend.banner.theirs", "{name} 的分身");
  ("friend.banner.suffix", "的往来，你不能直接发言；要说话去找「我的分身」。");
  ("friend.banner.go", "去「我的分身」");
  ("friend.empty", "还没往来——去「我的分身」说「让分身问问 {name}…」即可发起。");
  ("friend.drafts.pill", "{n} 项等你拍板");
  ("friend.actbar.eye", "分身与分身的对话——你是观察者");
  ("friend.actbar.pending", "待确认");
  ("friend.actbar.settings", "准则 / 好友设置");
  ("friend.actbar.goAlter", "去找「我的分身」说话 →");
  ("friend.debug.placeholder", "调试：以我本人发给 {name}…（绕过分身）");
  ("friend.debug.send", "以我本人发送");
  ("tier.notify", "只通知");
  ("tier.draft", "拟稿——发出前先问我");
  ("tier.auto", "自动回复——不用审批（有频控）");
  ("tier.default", "默认（{tier}）");
  ("tier.short.notify", "只通知");
  ("tier.short.draft", "拟稿");
  ("tier.short.auto", "自动");
  ("friend.settings.title", "分身如何对待 {name}")].

(** Lines 792 to 921. *)
Definition zh3 : dictionary := [
  ("friend.tier", "应答档位");
  ("friend.mute", "免打扰");
  ("friend.tier.hint", "只通知：来信只展示；拟稿：分身拟好回复、在本页等你拍板；自动：分身自己发（每小时最多 {n} 条）。");
  ("friend.protocol", "对这位好友的准则补充");
  ("friend.protocol.placeholder", "只对这位好友生效的规则（冲突时压过全局准则）。留空 = 没有。");
  ("friend.protocol.save", "保存");
  ("friend.protocol.saved", "已保存。");
  ("protocol.title", "外交准则");
  ("protocol.open", "准则");
  ("protocol.hint", "分身替你和好友往来时遵守的处世原则（全局；对单个好友的补充在好友往来底部的「准则 / 好友设置」里）。保存到 {path}，下一轮起生效。");
  ("protocol.missing", "还没有 protocol.md——轻端在创建身份时写入默认准则；在这里保存会直接创建。");
  ("protocol.save", "保存准则");
  ("protocol.saved", "已保存。");
  ("protocol.reload", "重新读取");
  ("settings.alter", "我的分身");
  ("settings.alter.intro", "你的分身住在一条 dsh 会话（「我的分身」）里。它的设置——回复档位、自动回复上限、能力模式、外交协议——现在都在分身自己的「设置」tab 里（灵镜 → 我的分身 → 设置）。这一栏保留跳转链接和调试开关。");
  ("settings.alter.defaultTier", "默认应答档位");
  ("settings.alter.perHour", "每位好友每小时自动回复上限");
  ("settings.alter.directSend", "调试：在好友往来里提供「以我本人发送」（绕过分身）");
  ("settings.alter.alterMode", "分身能力");
  ("settings.alter.alterMode.comms", "仅灵镜（收发消息/群组）");
  ("settings.alter.alterMode.full", "完整 dsh（shell + 文件，像普通会话）");
  ("settings.alter.alterMode.hint", "对下一个分身会话生效——切换后重启 dsh（或重新打开分身会话）。");
  ("settings.alter.openPage", "打开灵镜");
  ("settings.alter.legacy", "0.1.0-p4 之前的 {n} 条按好友分开的旧会话仍留在 dsh 里，但不再收信，可以删除。");
  ("settings.wallet", "我的 USDC 钱包");
  ("settings.wallet.loading", "加载中…");
  ("settings.wallet.none", "还没有钱包——让分身创建一个，或绑定已有地址。");
  ("settings.wallet.refresh", "刷新");
  ("settings.wallet.address", "地址");
  ("settings.wallet.balanceUsdc", "USDC");
  ("settings.wallet.balanceEth", "ETH");
  ("settings.pay", "USDC 支付（CDP）");
  ("settings.pay.intro", "你的分身可以通过 Coinbase CDP 在 Base 链上持有 USDC 钱包。填入 portal.cdp.coinbase.com 生成的三项 CDP 密钥（API Keys → Secret API Key；Wallet Secret 只显示一次），分身就能自动创建钱包和转账。不配 CDP 也可以收款和验证付费进群的到账。");
  ("settings.pay.cdpKeyId", "CDP API Key ID");
  ("settings.pay.cdpKeySecret", "CDP API Key Secret");
  ("settings.pay.cdpWalletSecret", "CDP Wallet Secret");
  ("settings.pay.cdpNetwork", "CDP 网络");
  ("settings.pay.paygateProxy", "CDP 代理地址（如 http://127.0.0.1:10808）");
  ("settings.pay.paygateBinary", "paygate 路径（留空 = 插件内置/PATH）");
  ("settings.pay.paygatePort", "paygate 端口（本机回环）");
  ("settings.pay.hint", "保存以上任意字段会自动重启本地支付网关，无需重启 dsh。");
  ("group.section", "群");
  ("group.create", "新建群");
  ("group.create.name", "群名称");
  ("group.create.members", "选成员（好友）");
  ("group.create.submit", "创建");
  ("group.create.created", "群「{name}」已创建。");
  ("group.create.needFriends", "建群至少要一位好友——先去加好友。");
  ("group.members", "{n} 名成员");
  ("group.members.open", "成员");
  ("group.owner", "群主");
  ("group.kick", "移出");
  ("group.kicked", "已移出 {name}——其余成员都会换新钥匙。");
  ("group.leave", "退出群");
  ("group.leave.owner", "你是群主——目前群与群主共存亡，不能退出。");
  ("group.left", "已退群。");
  ("group.empty", "还没有消息——在下面说点什么。");
  ("group.draftReminder", "分身拟了一份回复，等待你拍板。");
  ("group.draftReminder.go", "去查看");
  ("group.sender.me", "我");
  ("group.composer.placeholder", "发到 {name}…");
  ("group.composer.hint", "以你本人身份发送，端到端加密（发送者密钥）。");
  ("group.send", "发送");
  ("group.create.template", "模板");
  ("group.create.advanced", "高级设置");
  ("template.standard", "标准群");
  ("template.standard.desc", "人和分身都能发言；分身被点名才醒，回复先拟稿。");
  ("template.announcement", "公告群");
  ("template.announcement.desc", "只有群主发言；分身不说话。");
  ("template.agents", "纯分身群");
  ("template.agents.desc", "人只看不说，分身自由交谈、自动回复。");
  ("template.tasks", "任务群");
  ("template.tasks.desc", "围绕任务的标准协作（带 tasks 标签）。");
  ("template.casual", "闲聊群");
  ("template.casual.desc", "随便聊：分身常驻、上限放宽。");
  ("group.form.speakHumans", "人可以发言");
  ("group.form.speakAgents", "分身可以发言");
  ("group.form.speakWho", "谁能发言");
  ("group.form.speakWho.all", "所有成员");
  ("group.form.speakWho.owner", "仅群主");
  ("group.form.speakWho.admins", "群主和管理员");
  ("group.form.join", "进群方式");
  ("group.form.join.invite", "仅邀请");
  ("group.form.join.apply", "陌生人可申请");
  ("group.form.join.open", "开放（申请自动通过）");
  ("group.form.join.paid", "付费进群（付 USDC 才能进）");
  ("group.form.join.paid.noWallet", "需先有钱包");
  ("group.form.join.paid.noWalletHint", "请先在 设置 → 灵镜网络 → USDC 支付 里创建 USDC 钱包，之后才能设置付费进群。");
  ("group.form.joinPrice", "进群价格（USDC）");
  ("group.form.joinAddr", "收款地址：{address}");
  ("group.form.join.paid.membersFree", "创建时勾选的好友直接入群、无需付费；之后申请进群的陌生人才需要付费。");
  ("group.form.join.paid.priceRequired", "请填写进群价格（USDC）后才能创建付费群。");
  ("group.form.join.paid.autoPublic", "付费进群会自动设为公开群（陌生人需要群链接才能找到并付款）。");
  ("group.form.wake", "分身唤醒");
  ("group.form.wake.mention", "被点名时");
  ("group.form.wake.always", "总是");
  ("group.form.wake.never", "从不");
  ("group.form.tier", "分身应答档位");
  ("group.form.rules", "群规——自由文本，注入成员分身的提示词");
  ("group.form.public", "公开——在邮局上架，陌生人可发现并申请");
  ("group.form.public.short", "公开");
  ("group.form.tags", "标签（逗号分隔）");
  ("group.home", "群主页");
  ("group.home.profile", "群设置");
  ("group.home.rules", "群规");
  ("group.home.pins", "置顶");
  ("group.home.pin.add", "置顶");
  ("group.home.pin.placeholder", "给群里置顶一条…");
  ("group.home.pin.remove", "取消置顶");
  ("group.home.members", "成员");
  ("group.home.admin", "管理员");
  ("group.home.promote", "设为管理员");
  ("group.home.demote", "取消管理员");
  ("group.home.invite", "邀请好友…");
  ("group.home.invite.go", "邀请");
  ("group.home.invite.none", "好友都已在群里。");
  ("group.home.applications", "进群申请");
  ("group.home.approve", "通过");
  ("group.home.reject", "拒绝");
  ("group.home.uri.copy", "复制群链接");
  ("group.home.uri.copied", "已复制");
  ("group.home.legacy", "建于群档案功能之前——全部放行，标准聊天房。");
  ("group.home.edit", "编辑");
  ("group.home.edit.save", "保存");
  ("group.home.edit.cancel", "取消");
  ("group.home.loading", "正在读取花名册…");
  ("group.confirm", "确认？");
  ("group.empty.quiet", "还没有动静——分身们会在这里开聊。");
  ("group.section.empty", "还没有群——点上方 ＋ 新建或加入。")].

(** Lines 922 to 1051. *)
Definition zh4 : dictionary := [
  ("chats.empty", "还没有会话——点上方 ＋ 加好友或建群。");
  ("search.chats", "联系人与群");
  ("search.messages", "聊天记录");
  ("foot.addFriend", "加好友");
  ("foot.joinGroup", "加群");
  ("plus.menu", "添加…");
  ("group.room.missing", "房间模块「{id}」未安装——先用聊天房间展示。");
  ("group.speak.humansOff", "这个群里人不发言——由你的分身代言。");
  ("group.speak.whoOwner", "这个群里只有群主发言。");
  ("group.speak.whoAdmins", "这个群里只有群主和管理员发言。");
  ("group.alter.toggle", "我的分身参与");
  ("group.mute", "免打扰");
  ("group.mode.mention", "被@才回应");
  ("group.mode.always", "积极参与");
  ("group.by.alter", "分身");
  ("group.voices.duty", "值班");
  ("group.voices.duty.none", "无人值班");
  ("group.voices.duty.alter", "分身值班");
  ("group.voices.duty.name", "{name} 值班");
  ("group.mention.agent", "我的代理");
  ("group.voices.mine", "我的");
  ("group.busy", "{label} 正在处理…");
  ("group.note.private", "仅你可见");
  ("settings.agents", "我的代理");
  ("settings.agents.intro", "挂在你身份下的具名代理：各自一条 dsh 会话、各有工作目录，群里被 @名字 才唤醒（白名单把关），发言署名「你 · 名字」。");
  ("settings.agents.none", "还没有代理——在下面添加一个。");
  ("settings.agents.name", "名字（群里 @ 它用）");
  ("settings.agents.cwd", "工作目录——它读写文件、跑命令的文件夹（选填）");
  ("settings.agents.cwd.browse", "浏览");
  ("settings.agents.cwdHint", "留空 = 使用它自己的默认目录");
  ("settings.agents.preset", "能力预设");
  ("settings.agents.preset.default", "标准编码 Agent（默认）");
  ("settings.agents.prompt", "人设 / 指令（写进它的系统提示；保存后下一回合生效）");
  ("settings.agents.prompt.placeholder", ("例：你是本仓库的构建工程师。群里回复保持一句话；说" ++ Q ++ "做完了" ++ Q ++ "之前必须先跑测试。"));
  ("settings.agents.approval", "回复先经我审批（默认关：它直接回）");
  ("settings.agents.approval.badge", "需审批");
  ("settings.agents.commanders", "谁能在群里指挥它");
  ("settings.agents.commanders.any", "任何群成员");
  ("settings.agents.commanders.ownerOnly", "仅我自己");
  ("settings.agents.add", "添加代理");
  ("settings.agents.edit", "编辑");
  ("settings.agents.save", "保存");
  ("settings.agents.remove", "移除");
  ("settings.agents.saved", "代理「{name}」已保存。");
  ("settings.agents.removed", "已移除「{name}」。");
  ("settings.agents.status.running", "干活中…");
  ("settings.agents.status.idle", "空闲");
  ("agents.section", "我的 Agent");
  ("chats.section", "消息");
  ("settings.agents.groupHint", "它在哪个群干活、群里谁能指挥它，在各群里设置：打开群聊 → 声音开关旁的「代理…」。");
  ("group.agents.button", "代理…");
  ("group.agents.title", "本群的代理");
  ("group.agents.hint", "在这里开启你的代理，并选择本群谁能指挥它。@名字 唤醒开启的代理；你自己 @ 它永远有效。");
  ("group.agents.none", "还没有代理——先在左侧「我的 Agent」里添加。");
  ("group.agents.commanders", "本群谁能指挥它");
  ("group.agents.commanders.custom", "指定成员");
  ("agent.settings", "代理设置");
  ("agent.settings.title", "{name} · 设置");
  ("agent.composer.placeholder", "吩咐 {name}…（Enter 发送）");
  ("agent.empty.hint", "它在自己的工作目录里干活并在这里汇报；群里 @{name} 也能唤醒它。");
  ("agent.woke", "唤醒自");
  ("agent.thinking.live", "思考中");
  ("agent.thinking.done", "已思考");
  ("group.join.section", "加入群");
  ("group.join.uri", "群链接（soulmirror://group?…）");
  ("group.join.paid.info", "该群为付费进群：请用任意钱包向 {addr} 支付 {price} USDC，然后在下面粘贴交易哈希。");
  ("group.join.paid.amountLabel", "进群费用");
  ("group.join.paid.confirm", "即将从你的钱包支付 {price} USDC，确认继续？");
  ("group.join.paid.confirmPay", "确认支付");
  ("group.join.paid.localHint", "钱包由本机管理——点击下方「支付并申请」即可自动转账进群（无需复制交易哈希）。");
  ("group.join.paid.payApply", "支付并申请");
  ("group.join.paid.paidViaLocal", "已支付 {amount} USDC 并提交申请，群主验证后会批准你进群。");
  ("group.join.paid.toLabel", "收款地址（已自动填入）");
  ("group.join.paid.payHint", "用任意钱包向上面地址支付 {price} USDC，然后粘贴交易哈希提交申请。");
  ("group.join.paid.tx", "付款交易哈希（0x…）");
  ("group.join.paid.noPrice", "该群是付费群但没有公布价格，请联系群主。");
  ("group.join.paid.needProof", "这是付费群（{price} USDC）。请先向 {addr} 付款，再粘贴交易哈希提交申请。");
  ("group.join.paid.note", "已付 {price} USDC 进群");
  ("group.join.paid.applied", "已附付款证明并提交申请，等待群主验证。");
  ("group.join.apply", "申请");
  ("group.join.applied", "申请已发出。");
  ("group.apps.badge", "{n} 条进群申请待处理");
  ("col2.messages", "消息");
  ("col2.contacts", "通讯录");
  ("col2.agents", "智能体");
  ("col2.groups", "群聊");
  ("col2.contacts.section", "我");
  ("col2.agents.empty", "还没有智能体——创建一个，让它替你做点事。");
  ("col2.groups.empty", "还没有群——建一个，或用群链接加入。");
  ("agents.expand", "展开 {n} 个");
  ("agents.collapse", "收起");
  ("messages.friends", "好友");
  ("messages.section", "会话");
  ("groups.section", "群聊");
  ("pane.chat", "聊天");
  ("pane.announce", "公告");
  ("pane.home", "主页");
  ("pane.members", "成员");
  ("pane.admin", "管理");
  ("pane.info", "信息");
  ("pane.settings", "设置");
  ("pane.memory", "记忆");
  ("friend.home.profile", "名片");
  ("friend.home.fp", "指纹");
  ("friend.home.name", "名字");
  ("friend.home.remark", "备注");
  ("friend.home.protocol", "协议");
  ("friend.home.lastActive", "最近活跃");
  ("friend.home.drafts", "待审稿");
  ("friend.home.actions", "操作");
  ("friend.home.sendMessage", "去发消息");
  ("alter.home.profile", "档案");
  ("alter.home.session", "会话");
  ("alter.home.friends", "好友");
  ("alter.home.drafts", "草稿");
  ("alter.home.defaultTier", "默认回复档位");
  ("alter.home.perHour", "每小时自动回复上限");
  ("alter.home.actions", "操作");
  ("alter.card.settings", "分身设置");
  ("alter.home.none", "—");
  ("agent.home.profile", "档案");
  ("agent.home.preset", "预设");
  ("agent.home.cwd", "工作目录");
  ("agent.home.session", "会话");
  ("agent.home.prompt", "任务简介");
  ("agent.home.actions", "操作")].

#[local] Close Scope string_scope.

(** The whole dictionaries. *)
Definition en : dictionary := en1 ++ en2 ++ en3 ++ en4.
Definition zh : dictionary := zh1 ++ zh2 ++ zh3 ++ zh4.

(** The placeholders of a text, in order; [cur]: the name being read. *)
Fixpoint holes_go (cur : option (list Z)) (s : list Z) : list (list Z) :=
  match s with
  | [] => []
  | c :: s' =>
      if c =? 123 then holes_go (Some []) s'
      else match cur with
           | None => holes_go None s'
           | Some n => if c =? 125 then n :: holes_go None s' else holes_go (Some (n ++ [c])) s'
           end
  end.
Definition holes (text : string) : list (list Z) := holes_go None (js text).

(** The text of a key. *)
Definition text_of (d : dictionary) (key : list Z) : option string := snd <$> findb (λ kv, jeqb (js kv.1) key) d.

(** ** Keys the code builds *)

Definition pane_key (t : PaneTab) : list Z := js "pane." ++ pane_str t.
Definition col2_key (t : Col2Tab) : list Z := js "col2." ++ col2_str t.
Definition tier_key (t : ReplyTier) : list Z := js "tier.short." ++ tier_str t.
Definition state_str (s : BackendState) : list Z :=
  match s with
  | StStopped => js "stopped" | StStarting => js "starting" | StReady => js "ready" | StRestarting => js "restarting" | StError => js "error"
  end.
Definition state_key (s : BackendState) : list Z := js "settings.state." ++ state_str s.

(** * Theorems *)

(** Whether each text of [d2] asks for no placeholder its namesake in [d1] does not have. *)
Definition holes_within (d1 d2 : dictionary) : bool :=
  forallb (λ xy, everyb (λ h, bool_decide (h ∈ holes xy.1.2)) (holes xy.2.2)) (zip d1 d2).

Lemma same_keys : map fst zh = map fst en.
Proof. vm_compute. reflexivity. Qed.
Lemma keys_once : NoDup (map fst en).
Proof. apply (bool_decide_unpack _). vm_compute. exact I. Qed.
Lemma holes_checked : holes_within en zh = true.
Proof. vm_compute. reflexivity. Qed.

Lemma zip_keys (d1 d2 : dictionary) k x y :
  map fst d2 = map fst d1 → NoDup (map fst d1) → (k, x) ∈ d1 → (k, y) ∈ d2 → ((k, x), (k, y)) ∈ zip d1 d2.
Proof.
  revert d2. induction d1 as [|[k1 x1] d1 IH]; intros [|[k2 y2] d2] E Hn Hx Hy; try done; [by apply elem_of_nil in Hx|]. cbn in E, Hn.
  injection E as -> E. apply NoDup_cons in Hn as [Hk Hn]. cbn. apply elem_of_cons in Hx as [Hx|Hx], Hy as [Hy|Hy]; simplify_eq.
  - by left.
  - destruct Hk. rewrite <- E. apply list_elem_of_In, in_map_iff. exists (k1, y). split; [done|by apply list_elem_of_In].
  - destruct Hk. apply list_elem_of_In, in_map_iff. exists (k1, x). split; [done|by apply list_elem_of_In].
  - right. by apply IH.
Qed.

(** The two dictionaries have the same keys, each once, and a Chinese text
    asks for no parameter that the English text of the same key does not ask
    for: a call that fills the English text fills the Chinese one. *)
Theorem dictionaries_agree :
  map fst zh = map fst en ∧ NoDup (map fst en) ∧
  ∀ k x y h, (k, x) ∈ en → (k, y) ∈ zh → h ∈ holes y → h ∈ holes x.
Proof.
  split; [exact same_keys|]. split; [exact keys_once|]. intros k x y h Hx Hy Hin.
  pose proof (zip_keys en zh k x y same_keys keys_once Hx Hy) as Hz. pose proof holes_checked as Hh. unfold holes_within in Hh.
  rewrite forallb_forall in Hh. specialize (Hh _ (proj1 (list_elem_of_In _ _) Hz)). cbn [fst snd] in Hh. rewrite everyb_true in Hh.
  specialize (Hh h Hin). by apply bool_decide_eq_true in Hh.
Qed.

(** Every key built at run time has a text in both languages: each tab of the panes
    and of the middle column, each reply tier, each state of the peer, and
    the explanation of a held draft whatever reason the host gives. *)
Theorem built_keys_translated (t : PaneTab) (c : Col2Tab) (r : ReplyTier) (s : BackendState) (reason : list Z) :
  Forall (λ k, is_Some (text_of en k) ∧ is_Some (text_of zh k)) [pane_key t; col2_key c; tier_key r; state_key s; Card.reasonLabel reason].
Proof.
  assert (∀ k, bool_decide (is_Some (text_of en k)) && bool_decide (is_Some (text_of zh k)) = true → is_Some (text_of en k) ∧ is_Some (text_of zh k)) as Hk.
  { intros k. by rewrite andb_true_iff, !bool_decide_eq_true. }
  repeat apply Forall_cons_2; [| | | | |apply Forall_nil_2]; apply Hk.
  - destruct t; vm_compute; reflexivity.
  - destruct c; vm_compute; reflexivity.
  - destruct r; vm_compute; reflexivity.
  - destruct s; vm_compute; reflexivity.
  - assert (∀ k, k ∈ Card.LABELLED → bool_decide (is_Some (text_of en (js "draft.reason." ++ k))) && bool_decide (is_Some (text_of zh (js "draft.reason." ++ k))) = true) as Hl.
    { apply Forall_forall. repeat apply Forall_cons_2; [vm_compute; reflexivity..|apply Forall_nil_2]. }
    unfold Card.reasonLabel. destruct (bool_decide (reason ∈ Card.LABELLED)) eqn:Er; apply Hl; [by apply bool_decide_eq_true in Er|]. apply (bool_decide_unpack _). vm_compute. exact I.
Qed.
