(* ===== verification/SettingsPage.v ===== *)
(** * The settings section (client/SettingsSection.tsx,
      client/AlterSettingsCard.tsx)

    The box of one setting, with the text in it, the stored value it follows
    and the value it writes; the form that creates the identity, answers
    friend requests and adds a friend, one request at a time; the wallet
    block; the lines of the status card.  The settings scope is the host's: a box is given its stored value
    and gives the value it writes, and the theorem on the port follows that
    value through [resolveSettings]. *)

From S2P Require Import Prelude Locales JsString Json Policy Settings InboxState AlterChat ApiRequest Upgrade Network SoulnetCalls ClientStores ClientApi.
From Stdlib Require Import QArith Qcanon.
#[local] Open Scope Z_scope.

(** ** One setting *)

Module Field.

Inductive FieldVal := FText (s : list Z) | FNumber (n : number).
#[export] Instance FieldVal_eq_dec : EqDecision FieldVal.
Proof. solve_decision. Defined.

Section field.
Context `{NumberToString}.

(** [String(current)]. *)
Definition text_of (v : FieldVal) : list Z := match v with FText s => s | FNumber n => show_number n end.

Inductive FieldType := TyText | TyNumber (min : option Z).
Record Field := mkField { fi_current : FieldVal; fi_draft : list Z }.

(** [values?.[field] ?? '']. *)
Definition current_of (v : option FieldVal) : FieldVal := v ?? FText [].
Definition new_field (v : option FieldVal) : Field := mkField (current_of v) (text_of (current_of v)).

(** [Math.max(min ?? 0, Math.floor(Number(draft) || 0))]. *)
Definition or_zero (n : number) : number := match n with NaN => num_of_Z 0 | n => n end.
Definition max_Z (lo : Z) (n : number) : number :=
  match n with Fin q => if ge_Z (Fin q) lo then Fin q else num_of_Z lo | PosInf => PosInf | NegInf => num_of_Z lo | NaN => NaN end.
Definition whole_number (min : option Z) (draft : list Z) : number := max_Z (min ?? 0) (floor (or_zero (Number_of draft))).

Definition commit_value (ty : FieldType) (draft : list Z) : FieldVal :=
  match ty with TyText => FText draft | TyNumber min => FNumber (whole_number min draft) end.
(** [commit]: the value given to [scope.set]. *)
Definition commit (ty : FieldType) (s : Field) : option FieldVal :=
  if jeqb (fi_draft s) (text_of (fi_current s)) then None else Some (commit_value ty (fi_draft s)).

(** The box is rendered with the value now stored; the effect on [current]. *)
Definition render (v : option FieldVal) (s : Field) : Field :=
  if bool_decide (current_of v = fi_current s) then s else mkField (current_of v) (text_of (current_of v)).

Inductive FieldEv := EType (x : list Z) | ECommit | EPick (x : list Z) | EStored (v : option FieldVal).
(** A select has no blur: picking writes at once. *)
Definition field_step (ty : FieldType) (s : Field) (e : FieldEv) : Field * option FieldVal :=
  match e with
  | EType x => (mkField (fi_current s) x, None)
  | ECommit => (s, commit ty s)
  | EPick x => (mkField (fi_current s) x, Some (FText x))
  | EStored v => (render v s, None)
  end.
Definition field_run (ty : FieldType) (v : option FieldVal) (es : list FieldEv) : Field := fold_left (λ s e, (field_step ty s e).1) es (new_field v).

(** *** Theorems *)

Lemma max_Z_int lo z : max_Z lo (num_of_Z z) = num_of_Z (Z.max lo z).
Proof.
  unfold max_Z, num_of_Z. destruct (ge_Z (Fin (Q2Qc (inject_Z z))) lo) eqn:E.
  - apply floor_ge_Z in E. rewrite Qc_floor_Z in E. by rewrite Z.max_r.
  - rewrite Z.max_l; [done|]. destruct (decide (lo <= z)) as [Hz|]; [exfalso|lia].
    apply not_true_iff_false in E. apply E. cbn. apply Qle_bool_iff. rewrite Qred_correct. by rewrite <- Zle_Qle.
Qed.
Lemma whole_number_eq min x :
  whole_number min x =
  match Number_of x with Fin q => num_of_Z (Z.max (min ?? 0) (Qc_floor q)) | PosInf => PosInf | NegInf => num_of_Z (min ?? 0) | NaN => num_of_Z (Z.max (min ?? 0) 0) end.
Proof.
  unfold whole_number. destruct (Number_of x) as [q| | |]; cbn [or_zero floor]; [apply max_Z_int|done..|].
  unfold num_of_Z at 1. cbn [floor]. rewrite Qc_floor_Z. apply max_Z_int.
Qed.


Lemma gt_of_ge z : 1 <= z → gt_Z (num_of_Z z) 0 = true.
Proof. intros Hz. rewrite gt_Z_int. apply Z.ltb_lt. lia. Qed.

Lemma resolved_port p :
  se_paygatePort (resolveSettings (Some p)) =
  match pa_paygatePort p with Some (Fin q) => if gt_Z (Fin q) 0 then Qc_floor q else DEFAULT_PAYGATE_PORT | _ => DEFAULT_PAYGATE_PORT end.
Proof. reflexivity. Qed.

(** The port the gateway gets after the port box was written is at least one,
    whatever is typed: the whole part of a number from one up, one for
    anything smaller or for no number, an empty box included, and the default
    only for a numeral beyond the doubles. *)
Theorem typed_port_in_force (p : PartialSettings) (x : list Z) :
  let typed := whole_number (Some 1) x in
  let port := se_paygatePort (resolveSettings (Some (mkPartial (pa_relay p) (pa_displayName p) (pa_backend p) (pa_peerBinary p) (pa_home p)
    (pa_defaultTier p) (pa_autoReplyPerHour p) (pa_directSend p) (pa_paygateBinary p) (Some typed) (pa_paygateProxy p) (pa_cdpKeyId p)
    (pa_cdpKeySecret p) (pa_cdpWalletSecret p) (pa_cdpNetwork p) (pa_alterMode p)))) in
  1 <= port ∧
  port = match Number_of x with Fin q => Z.max 1 (Qc_floor q) | PosInf => DEFAULT_PAYGATE_PORT | NegInf | NaN => 1 end.
Proof.
  cbv zeta. rewrite resolved_port. cbn [pa_paygatePort].
  assert (Hz : ∀ z, 1 <= z → (if gt_Z (Fin (Q2Qc (inject_Z z))) 0 then Qc_floor (Q2Qc (inject_Z z)) else DEFAULT_PAYGATE_PORT) = z).
  { intros z Hz. apply gt_of_ge in Hz. unfold num_of_Z in Hz. by rewrite Hz, Qc_floor_Z. }
  rewrite whole_number_eq. change (Some 1 ?? 0) with 1.
  destruct (Number_of x) as [q| | |]; [|done|..]; unfold num_of_Z; rewrite Hz by lia; lia.
Qed.

(** Once a write is stored the box shows the stored text, whatever was typed
    before, when the value differs from the one it followed; a write that
    rounds back to the value already stored leaves the typed text in the box. *)
Theorem box_follows_stored (ty : FieldType) (v : option FieldVal) (es : list FieldEv) (w : FieldVal)
    (Hw : commit ty (field_run ty v es) = Some w) :
  let s := field_run ty v es in
  let s' := field_run ty v (es ++ [ECommit; EStored (Some w)]) in
  fi_current s' = w ∧ fi_draft s' = (if bool_decide (w = fi_current s) then fi_draft s else text_of w) ∧
  (ty = TyText → fi_draft s' = text_of w ∧ commit ty s' = None).
Proof.
  cbv zeta. unfold field_run in *. rewrite fold_left_app. cbn [fold_left field_step fst]. set (s := fold_left _ es _) in *. clearbody s.
  unfold render. change (current_of (Some w)) with w.
  assert (Ht : ty = TyText → w = FText (fi_draft s) ∧ w ≠ fi_current s).
  { intros ->. unfold commit in Hw. destruct (jeqb _ _) eqn:E; [done|]. apply jeqb_neq in E. injection Hw as <-. cbn [commit_value].
    split; [done|]. intros Hc. rewrite <- Hc in E. by cbn in E. }
  case_bool_decide as Hc; split_and!; [done|done|intros E; by destruct (Ht E)|done|done|].
  intros E. destruct (Ht E) as [-> _]. split; [done|]. unfold commit. cbn [fi_draft fi_current text_of]. by rewrite jeqb_refl.
Qed.

(** What is in a text box and not yet written is lost when the stored value
    changes from elsewhere. *)
Theorem stored_change_wins (ty : FieldType) (v : option FieldVal) (es : list FieldEv) (x : list Z) (w : option FieldVal)
    (Hw : current_of w ≠ fi_current (field_run ty v es)) :
  field_run ty v (es ++ [EType x; EStored w]) = new_field w.
Proof.
  unfold field_run in *. rewrite fold_left_app. cbn [fold_left field_step fst]. set (s := fold_left _ es _) in *. clearbody s.
  unfold render. cbn [fi_current]. by rewrite bool_decide_eq_false_2.
Qed.
End field.

Definition numbers : NumberToString := AlterChat.DecimalNumbers.
Example port_box_demo : @commit numbers (TyNumber (Some 1)) (@field_run numbers (TyNumber (Some 1)) (Some (FNumber (num_of_Z 9001))) [EType (js "9001.5")]) = Some (FNumber (num_of_Z 9001)).
Proof. vm_compute. reflexivity. Qed.
Lemma box_follows_stored_witness :
  fi_draft (@field_run numbers (TyNumber (Some 1)) (Some (FNumber (num_of_Z 9001))) ([EType (js "9001.5")] ++ [ECommit; EStored (Some (FNumber (num_of_Z 9001)))])) = js "9001.5".
Proof.
  refine (eq_trans (proj1 (proj2 (@box_follows_stored numbers (TyNumber (Some 1)) (Some (FNumber (num_of_Z 9001))) [EType (js "9001.5")] (FNumber (num_of_Z 9001)) _))) _);
    vm_compute; reflexivity.
Defined.
Lemma stored_change_wins_witness :
  @field_run numbers TyText (Some (FText (js "a"))) ([] ++ [EType (js "ab"); EStored (Some (FText (js "c")))]) = @new_field numbers (Some (FText (js "c"))).
Proof. apply (@stored_change_wins numbers); done. Defined.
End Field.

(** ** The forms of the section *)

Module Form.

Inductive Key := KCreate | KAccept (id : list Z) | KReject (id : list Z) | KAdd.
#[export] Instance Key_eq_dec : EqDecision Key.
Proof. solve_decision. Defined.

(** Where a [run] stands: its action's request is out, or the refresh after it. *)
Inductive Stage := StAction | StRefresh.
Record Form := mkForm {
  fo_name : list Z; fo_uri : list Z; fo_note : list Z;
  fo_busy : option Key; fo_message : option (list Z); fo_error : option (list Z);
  fo_runs : list (Key * Stage) }.            (** the calls of [run] that have not ended *)
Definition new_form : Form := mkForm [] [] [] None None None [].

(** What the section reads of the network store and the settings. *)
Record Env := mkEnv { en_identity : bool; en_peerError : bool; en_displayName : list Z; en_pending : list (list Z) }.

(** The effect that fills the name box. *)
Definition fill_name (env : Env) (s : Form) : Form :=
  if jeqb (fo_name s) [] && negb (jeqb (en_displayName env) [])
  then mkForm (en_displayName env) (fo_uri s) (fo_note s) (fo_busy s) (fo_message s) (fo_error s) (fo_runs s) else s.

Definition call_of (k : Key) (s : Form) : ApiCall :=
  match k with
  | KCreate => ACreateIdentity (trim (fo_name s))
  | KAccept id => AAccept id None
  | KReject id => AReject id
  | KAdd => AAddFriend (trim (fo_uri s)) (if jeqb (trim (fo_note s)) [] then None else Some (trim (fo_note s)))
  end.
(** Whether the button is there and on. *)
Definition enabled (env : Env) (k : Key) (s : Form) : bool :=
  bool_decide (fo_busy s = None) &&
  match k with
  | KCreate => negb (en_identity env) && negb (jeqb (trim (fo_name s)) []) && negb (en_peerError env)
  | KAccept id | KReject id => bool_decide (id ∈ en_pending env)
  | KAdd => negb (jeqb (trim (fo_uri s)) []) && en_identity env
  end.

(** [run] up to its first [await]. *)
Definition run (k : Key) (s : Form) : Form * option ApiCall :=
  (mkForm (fo_name s) (fo_uri s) (fo_note s) (Some k) None None (fo_runs s ++ [(k, StAction)]), Some (call_of k s)).

(** The answer of an action: the friend's fingerprint and the note shown. *)
Record Answer := mkAnswer { an_fp : list Z; an_sent : list Z }.
Definition settle (f : list (Key * Stage) → list (Key * Stage)) (b : option Key) (m e : option (list Z)) (s : Form) : Form :=
  mkForm (fo_name s) (fo_uri s) (fo_note s) b m e (f (fo_runs s)).
Definition clear_add (s : Form) : Form := mkForm (fo_name s) [] [] (fo_busy s) (fo_message s) (fo_error s) (fo_runs s).

(** The [i]-th run's request is answered; the page opened by an acceptance. *)
Definition answered (i : nat) (r : list Z + Answer) (s : Form) : Form * option (list Z) :=
  match fo_runs s !! i with
  | Some (k, StAction) =>
      match r with
      | inl e => (settle (delete i) None (fo_message s) (Some e) s, None)
      | inr a =>
          let s1 := settle (<[i := (k, StRefresh)]>) (fo_busy s) (match k with KAdd => Some (an_sent a) | _ => fo_message s end) (fo_error s)
                      (match k with KAdd => clear_add s | _ => s end) in
          (s1, match k with KAccept _ => Some (an_fp a) | _ => None end)
      end
  | _ => (s, None)
  end.
(** [networkStore.refresh] never rejects. *)
Definition refreshed (i : nat) (s : Form) : Form :=
  match fo_runs s !! i with
  | Some (_, StRefresh) => settle (delete i) None (fo_message s) (fo_error s) s
  | _ => s
  end.

Inductive FormEv :=
| ETypeName (x : list Z) | ETypeUri (x : list Z) | ETypeNote (x : list Z)
| EClick (k : Key) | EAnswered (i : nat) (r : list Z + Answer) | ERefreshed (i : nat).
Definition event (env : Env) (s : Form) (e : FormEv) : Form * option ApiCall :=
  match e with
  | ETypeName x => (mkForm x (fo_uri s) (fo_note s) (fo_busy s) (fo_message s) (fo_error s) (fo_runs s), None)
  | ETypeUri x => (mkForm (fo_name s) x (fo_note s) (fo_busy s) (fo_message s) (fo_error s) (fo_runs s), None)
  | ETypeNote x => (mkForm (fo_name s) (fo_uri s) x (fo_busy s) (fo_message s) (fo_error s) (fo_runs s), None)
  | EClick k => if enabled env k s then run k s else (s, None)
  | EAnswered i r => ((answered i r s).1, None)
  | ERefreshed i => (refreshed i s, None)
  end.
(** An event and the effects of the render after it; each with what the stores hold then. *)
Definition form_step (s : Form) (ee : Env * FormEv) : Form := fill_name ee.1 (event ee.1 s ee.2).1.
Definition form_run (es : list (Env * FormEv)) : Form := fold_left form_step es new_form.

(** *** Theorems *)

(** Busy with the one run that has not ended, if any. *)
Definition form_ok (s : Form) : Prop :=
  match fo_busy s with None => fo_runs s = [] | Some k => ∃ st, fo_runs s = [(k, st)] end.

Lemma fill_name_ok env s : form_ok s → form_ok (fill_name env s).
Proof. unfold fill_name. by case_match. Qed.
Lemma answered_ok i r s : form_ok s → form_ok (answered i r s).1.
Proof.
  destruct s as [n u t b m e rs]. unfold answered, form_ok. cbn [fo_busy fo_runs].
  destruct b as [k|]; [intros [st ->]|intros ->]; [|done]. destruct i as [|i]; [|cbn; by exists st].
  cbn [lookup list_lookup]. destruct st; [|by exists StRefresh]. destruct r as [x|a]; [done|]. destruct k; by eexists.
Qed.
Lemma refreshed_ok i s : form_ok s → form_ok (refreshed i s).
Proof.
  destruct s as [n u t b m e rs]. unfold refreshed, form_ok. cbn [fo_busy fo_runs].
  destruct b as [k|]; [intros [st ->]|intros ->]; [|done]. destruct i as [|i]; [|cbn; by exists st].
  cbn [lookup list_lookup]. destruct st; [by exists StAction|done].
Qed.
Lemma run_ok env k s : enabled env k s = true → form_ok s → form_ok (run k s).1.
Proof. unfold enabled, form_ok. intros [Hb%bool_decide_eq_true _]%andb_true_iff. rewrite Hb. intros Hr. cbn. rewrite Hr. by exists StAction. Qed.
Lemma form_step_ok s ee : form_ok s → form_ok (form_step s ee).
Proof.
  intros Hs. apply fill_name_ok. destruct ee as [env e], e; cbn [event fst snd]; try done; [|by apply answered_ok|by apply refreshed_ok].
  destruct (enabled env k s) eqn:E; [by eapply run_ok|done].
Qed.
Lemma form_run_ok es : form_ok (form_run es).
Proof. apply (run_inv _ form_ok); [done|apply form_step_ok]. Qed.

(** The section makes one request at a time: a click sends something only
    when no earlier request and no refresh after one is under way, and then
    exactly what its button stands for, trimmed and never blank. *)
Theorem one_form_request (es : list (Env * FormEv)) (env : Env) (e : FormEv) (c : ApiCall)
    (Hc : (event env (form_run es) e).2 = Some c) :
  fo_runs (form_run es) = [] ∧
  match c with
  | ACreateIdentity n => en_identity env = false ∧ n = trim (fo_name (form_run es)) ∧ n ≠ []
  | AAccept id None | AReject id => id ∈ en_pending env
  | AAddFriend u n => en_identity env = true ∧ u = trim (fo_uri (form_run es)) ∧ u ≠ [] ∧ n ≠ Some []
  | _ => False
  end.
Proof.
  pose proof (form_run_ok es) as Hok. set (s := form_run es) in *. clearbody s.
  destruct e as [| | |k| |]; cbn [event snd] in Hc; try done. destruct (enabled env k s) eqn:E; [|done]. cbn [run snd] in Hc. injection Hc as <-.
  unfold enabled in E. apply andb_true_iff in E as [Hb%bool_decide_eq_true E]. unfold form_ok in Hok. rewrite Hb in Hok. split; [done|].
  destruct k as [|id|id|]; cbn [call_of].
  - apply andb_true_iff in E as [[E1%negb_true_iff E2%negb_true_iff]%andb_true_iff _]. by apply jeqb_neq in E2.
  - by apply bool_decide_eq_true in E.
  - by apply bool_decide_eq_true in E.
  - apply andb_true_iff in E as [E1%negb_true_iff E2]. apply jeqb_neq in E1. split_and!; [done..|].
    destruct (jeqb (trim (fo_note s)) []) eqn:En; [done|]. apply jeqb_neq in En. congruence.
Qed.

(** A run always ends: once its request is answered and the refresh after it
    is done the buttons are free again, whatever else happened meanwhile. *)
Theorem form_run_ends (es : list (Env * FormEv)) (env env' : Env) (r : list Z + Answer) :
  let s := form_run (es ++ [(env, EAnswered 0 r); (env', ERefreshed 0)]) in
  fo_busy s = None ∧ fo_runs s = [].
Proof.
  cbv zeta. unfold form_run. rewrite fold_left_app. cbn [fold_left]. pose proof (form_run_ok es) as Hok. unfold form_run in Hok.
  set (s := fold_left form_step es new_form) in *. clearbody s.
  assert (Hend : ∀ s env', form_ok s → (fo_runs s = [] ∨ ∃ k, fo_runs s = [(k, StRefresh)]) →
                 fo_busy (form_step s (env', ERefreshed 0)) = None ∧ fo_runs (form_step s (env', ERefreshed 0)) = []).
  { clear. intros s env Hok Hs. pose proof (form_step_ok s (env, ERefreshed 0) Hok) as Hok'.
    assert (fo_runs (form_step s (env, ERefreshed 0)) = []) as Hr.
    { unfold form_step. cbn [fst snd event]. unfold fill_name, refreshed. destruct Hs as [Hs|[k Hs]]; rewrite Hs; cbn [lookup list_lookup]; case_match; cbn; by rewrite ?Hs. }
    split; [|done]. unfold form_ok in Hok'. destruct (fo_busy _); [|done]. destruct Hok' as [st Hok']. by rewrite Hr in Hok'. }
  apply Hend; [by apply form_step_ok|]. unfold form_step. cbn [fst snd event].
  assert (∀ x, fo_runs (fill_name env x) = fo_runs x) as -> by (intros; unfold fill_name; by case_match).
  unfold form_ok in Hok. unfold answered. destruct (fo_busy s); [destruct Hok as [st Hr]|rename Hok into Hr]; rewrite Hr; cbn [lookup list_lookup fst]; [|by left].
  destruct st; [|right; by eexists]. destruct r as [x|a]; [left|right; eexists]; cbn [fst settle fo_runs]; [|destruct k; cbn]; by rewrite Hr.
Qed.

(** The name box cannot be emptied while a display name is set: it is filled
    again at once. *)
Theorem name_box_refills (es : list (Env * FormEv)) (env : Env) (x : list Z) (Hd : en_displayName env ≠ []) :
  fo_name (form_run (es ++ [(env, ETypeName x)])) = (if jeqb x [] then en_displayName env else x).
Proof.
  unfold form_run. rewrite fold_left_app. cbn [fold_left]. unfold form_step at 1. cbn [event fst snd]. unfold fill_name. cbn [fo_name].
  apply jeqb_neq in Hd. rewrite Hd. cbn [negb]. rewrite andb_true_r. by destruct (jeqb x []).
Qed.

(** What is typed into the add form while a request of it is under way is
    erased by its answer. *)
Theorem add_answer_clears (es : list (Env * FormEv)) (env : Env) (a : Answer) (x : list Z)
    (Hr : fo_runs (form_run es) = [(KAdd, StAction)]) :
  fo_uri (form_run (es ++ [(env, ETypeUri x); (env, EAnswered 0 (inr a))])) = [].
Proof.
  unfold form_run in *. rewrite fold_left_app. cbn [fold_left]. set (s := fold_left form_step es new_form) in *. clearbody s.
  assert (Hf : ∀ y, fo_uri (fill_name env y) = fo_uri y) by (intros; unfold fill_name; by case_match).
  assert (Hg : ∀ y, fo_runs (fill_name env y) = fo_runs y) by (intros; unfold fill_name; by case_match).
  unfold form_step. cbn [fst snd event]. rewrite Hf. unfold answered. rewrite Hg. cbn [fo_runs]. rewrite Hr. reflexivity.
Qed.

Definition online : Env := mkEnv true false [] [js "p1"].
Definition adding : list (Env * FormEv) := [(online, ETypeUri (js " a2a:x ")); (online, EClick KAdd)].
Lemma one_form_request_witness :
  fo_runs (form_run [(online, ETypeUri (js " a2a:x "))]) = [] ∧ en_identity online = true ∧
  js "a2a:x" = trim (fo_uri (form_run [(online, ETypeUri (js " a2a:x "))])) ∧ js "a2a:x" ≠ [] ∧ None ≠ Some (@nil Z).
Proof. apply (one_form_request [(online, ETypeUri (js " a2a:x "))] online (EClick KAdd) (AAddFriend (js "a2a:x") None)). vm_compute. reflexivity. Defined.
Lemma name_box_refills_witness : fo_name (form_run ([] ++ [(mkEnv false false (js "Ann") [], ETypeName [])])) = js "Ann".
Proof. apply (name_box_refills [] (mkEnv false false (js "Ann") []) []). done. Defined.
Lemma add_answer_clears_witness :
  fo_uri (form_run (adding ++ [(online, ETypeUri (js "a2a:y")); (online, EAnswered 0 (inr (mkAnswer (js "f1") (js "sent"))))])) = [].
Proof. apply add_answer_clears. vm_compute. reflexivity. Defined.
End Form.

(** ** The wallet block *)

Module Wallet.

Record WalletInfo := mkWallet { wa_address : option (list Z); wa_network : option (list Z); wa_usdc : option (list Z); wa_eth : option (list Z) }.
(** [undefined], [null] or what the gateway answered. *)
Inductive Shown := NotAsked | NoWallet | HasWallet (w : WalletInfo).
Record Block := mkBlock { bl_wallet : Shown; bl_err : option (list Z); bl_out : nat }.   (** the [payWallet] requests out *)

Definition refresh (s : Block) : Block := mkBlock (bl_wallet s) (bl_err s) (bl_out s + 1).
(** The block appears and asks at once. *)
Definition mount : Block := refresh (mkBlock NotAsked None 0).
(** [r]: the call failed, or the wallet and the error of the answer. *)
Definition answer (r : option (option WalletInfo * option (list Z))) (s : Block) : Block :=
  match bl_out s with
  | O => s
  | S n => match r with
           | None => mkBlock NoWallet (bl_err s) n
           | Some (w, e) => mkBlock (match w with Some x => HasWallet x | None => NoWallet end) e n
           end
  end.
Inductive BlockEv := EBeat | EClick | EAnswer (r : option (option WalletInfo * option (list Z))).
Definition block_step (s : Block) (e : BlockEv) : Block :=
  match e with
  | EBeat => refresh s
  | EClick => match bl_wallet s with NotAsked => s | _ => refresh s end
  | EAnswer r => answer r s
  end.
Definition block_run (es : list BlockEv) : Block := fold_left block_step es mount.

(** What is drawn: keys of the dictionary, or texts. *)
Inductive Line := LKey (k : list Z) | LText (x : list Z) | LBalance (k x : list Z).
Definition lines (s : Block) : list Line :=
  match bl_wallet s with
  | NotAsked => [LKey (js "settings.wallet.loading")]
  | NoWallet => [match bl_err s with Some e => LText e | None => LKey (js "settings.wallet.none") end]
  | HasWallet w => [LText (wa_address w ?? []); LBalance (js "settings.wallet.balanceUsdc") (wa_usdc w ?? [8212]); LBalance (js "settings.wallet.balanceEth") (wa_eth w ?? [8212])]
  end.

(** *** Theorems *)

Definition answers (es : list BlockEv) : list (option (option WalletInfo * option (list Z))) :=
  omap (λ e, match e with EAnswer r => Some r | _ => None end) es.
Lemma answers_app l k : answers (l ++ k) = answers l ++ answers k.
Proof. apply omap_app. Qed.

(** As long as there is a request for every answer, the block shows the last
    answer that arrived: its wallet, or the reason it gave; a call that
    failed altogether shows the reason of the answer before it. *)
Theorem wallet_shows_last (es : list BlockEv) (r : option (option WalletInfo * option (list Z)))
    (Hout : (0 < bl_out (block_run es))%nat) :
  bl_wallet (block_run (es ++ [EAnswer r])) = (match r with Some (Some w, _) => HasWallet w | _ => NoWallet end) ∧
  bl_err (block_run (es ++ [EAnswer r])) = (match r with Some (_, e) => e | None => bl_err (block_run es) end).
Proof.
  unfold block_run in *. rewrite fold_left_app. cbn [fold_left block_step]. set (s := fold_left _ es _) in *. clearbody s.
  unfold answer. destruct (bl_out s); [lia|]. by destruct r as [[[w|] e]|].
Qed.

(** The block never goes back to "loading" and always has asked: before the
    first answer a request is out. *)
Theorem wallet_asked (es : list BlockEv) :
  bl_wallet (block_run es) = NotAsked → (0 < bl_out (block_run es))%nat ∧ answers es = [].
Proof.
  induction es as [|e es IH] using rev_ind; [intros _; split; [vm_compute; lia|done]|].
  unfold block_run in *. rewrite fold_left_app. cbn [fold_left]. rewrite answers_app. set (s := fold_left _ es _) in *. clearbody s.
  destruct e as [| |r]; cbn [block_step].
  - cbn [refresh bl_wallet bl_out]. intros Hw. destruct (IH Hw) as [? ->]. split; [lia|done].
  - destruct (bl_wallet s) eqn:Hw; [|cbn; by rewrite Hw..]. intros _. destruct (IH eq_refl) as [? ->]. done.
  - unfold answer. destruct (bl_out s) eqn:Ho; [|by destruct r as [[[w|] e]|]]. intros Hw. destruct (IH Hw). lia.
Qed.

Definition funded : WalletInfo := mkWallet (Some (js "0xabc")) None (Some (js "5")) None.
Lemma wallet_shows_last_witness :
  bl_wallet (block_run ([EBeat] ++ [EAnswer (Some (Some funded, None))])) = HasWallet funded ∧ bl_err (block_run ([EBeat] ++ [EAnswer (Some (Some funded, None))])) = None.
Proof. apply (wallet_shows_last [EBeat] (Some (Some funded, None))). vm_compute. lia. Defined.
Lemma wallet_asked_witness : (0 < bl_out (block_run [EBeat; EClick]))%nat ∧ answers [EBeat; EClick] = [].
Proof. apply wallet_asked. reflexivity. Defined.
End Wallet.

(** ** The card of the alter's own settings *)

Module AlterCard.

Record CardView := mkCardView { cv_tier : list Z; cv_perHour : number; cv_mode : AlterMode }.
(** What the card shows of the stored section; [defaultTier] as it is stored. *)
Definition card_view (tier : option (list Z)) (p : PartialSettings) : CardView :=
  mkCardView (tier ?? js "draft") (pa_autoReplyPerHour p ?? num_of_Z 20) (if is_opt (pa_alterMode p) (js "full") then ModeFull else ModeComms).

Inductive CardEdit := CeTier (x : list Z) | CePerHour (x : list Z) | CeMode (x : list Z).
(** [scope.set] of each control, on the stored section. *)
Definition card_edit (e : CardEdit) (p : PartialSettings) : PartialSettings :=
  let put tier perHour mode :=
    mkPartial (pa_relay p) (pa_displayName p) (pa_backend p) (pa_peerBinary p) (pa_home p) tier perHour (pa_directSend p) (pa_paygateBinary p)
      (pa_paygatePort p) (pa_paygateProxy p) (pa_cdpKeyId p) (pa_cdpKeySecret p) (pa_cdpWalletSecret p) (pa_cdpNetwork p) mode in
  match e with
  | CeTier x => put (Some (JStr x)) (pa_autoReplyPerHour p) (pa_alterMode p)
  | CePerHour x => put (pa_defaultTier p) (Some (Number_of x)) (pa_alterMode p)
  | CeMode x => put (pa_defaultTier p) (pa_autoReplyPerHour p) (Some x)
  end.

(** *** Theorems *)

(** The cap on automatic replies in force after the box was typed in: the
    whole part of the number, zero for a negative one, the default for a text
    that is no number; an emptied box is zero, which stops automatic replies. *)
Theorem typed_cap_in_force (x : list Z) (p : PartialSettings) :
  se_autoReplyPerHour (resolveSettings (Some (card_edit (CePerHour x) p))) =
    (match Number_of x with Fin q => Z.max 0 (Qc_floor q) | _ => DEFAULT_AUTO_REPLY_PER_HOUR end) ∧
  (trim x = [] → se_autoReplyPerHour (resolveSettings (Some (card_edit (CePerHour x) p))) = 0).
Proof.
  split; [reflexivity|]. intros Hx. change (se_autoReplyPerHour _) with (match Number_of x with Fin q => Z.max 0 (Qc_floor q) | _ => DEFAULT_AUTO_REPLY_PER_HOUR end).
  unfold Number_of. rewrite Hx. reflexivity.
Qed.

(** The card shows the settings in force, up to the rounding of the cap: the
    tier, the capability mode, and a cap that rounds to the one used; what one
    control writes leaves the other two as they were. *)
Theorem card_shows_in_force (p : PartialSettings) (t : ReplyTier) :
  let s := resolveSettings (Some (card_edit (CeTier (tier_str t)) p)) in
  se_defaultTier s = t ∧ cv_tier (card_view (Some (tier_str t)) p) = tier_str t ∧
  cv_mode (card_view None p) = se_alterMode s ∧ se_autoReplyPerHour s = se_autoReplyPerHour (resolveSettings (Some p)) ∧
  se_autoReplyPerHour (resolveSettings (Some p)) =
    match cv_perHour (card_view None p) with Fin c => Z.max 0 (Qc_floor c) | _ => DEFAULT_AUTO_REPLY_PER_HOUR end.
Proof.
  cbv zeta. split_and!; [by destruct t|done..|]. unfold card_view. cbn [cv_perHour]. unfold resolveSettings.
  destruct p as [? ? ? ? ? ? ph ? ? ? ? ? ? ? ? ?]. by destruct ph as [[]|].
Qed.

Lemma typed_cap_in_force_witness : se_autoReplyPerHour (resolveSettings (Some (card_edit (CePerHour (js " ")) empty_partial))) = 0.
Proof. apply (proj2 (typed_cap_in_force (js " ") empty_partial)). reflexivity. Defined.
End AlterCard.

(** ** The update card and the update button of the side bar
       (client/SettingsSection.tsx, client/UpdateAction.tsx) *)

Module Version.

Definition card_busy (s : UpStore) : bool := negb (bool_decide (us_phase s ∈ [PhIdle; PhDoneManual; PhFailed])).
Inductive Note :=
| NAvailable (latest current : list Z) | NUpToDate (version : list Z) | NInstalling (version : list Z) | NRestarting
| NManual (version : list Z) | NFailed (message : list Z) | NOutput (text : list Z).
Definition when (b : bool) (n : option Note) : list Note := if b then match n with Some n => [n] | None => [] end else [].
Definition in_phase (l : list UpgradePhase) (s : UpStore) : bool := bool_decide (us_phase s ∈ l).
Definition notes (s : UpStore) : list Note :=
  when (in_phase [PhIdle] s && us_hasUpdate s) (l ← us_latest s; NAvailable l <$> us_current s) ++
  when (in_phase [PhIdle] s && negb (us_hasUpdate s) && us_checked s && bool_decide (us_error s = None)) (NUpToDate <$> us_current s) ++
  when (in_phase [PhInstalling] s) (NInstalling <$> us_latest s) ++
  when (in_phase [PhRestarting; PhReloading] s) (Some NRestarting) ++
  when (in_phase [PhDoneManual] s) (Some (NManual (us_current s ?? []))) ++
  when true (NFailed <$> us_error s) ++
  when (in_phase [PhFailed] s) (x ← us_output s; if jeqb x [] then None else Some (NOutput x)).

(** The version on the install button of the card, when it is there. *)
Definition card_button (s : UpStore) : option (list Z) := if us_hasUpdate s then us_latest s else None.
Definition card_install (s : UpStore) : UpStore := if card_busy s then s else match card_button s with Some _ => run_upgrade s | None => s end.
Definition card_check (s : UpStore) : UpStore := if card_busy s then s else check false false s.

(** The button of the side bar: its own notion of busy, and its label. *)
Definition foot_busy (s : UpStore) : bool := in_phase [PhInstalling; PhRestarting; PhReloading] s.
Inductive FootLabel := FlUpdate (v : list Z) | FlInstalling (v : list Z) | FlRestarting | FlReloading.
Definition foot_button (s : UpStore) : option FootLabel :=
  if negb (us_hasUpdate s) && negb (foot_busy s) then None
  else Some (match us_phase s with
             | PhInstalling => FlInstalling (us_latest s ?? []) | PhRestarting => FlRestarting | PhReloading => FlReloading
             | _ => FlUpdate (us_latest s ?? [])
             end).
Definition foot_click (s : UpStore) : UpStore :=
  if foot_busy s then s
  else match foot_button s, us_latest s with Some _, Some _ => run_upgrade s | _, _ => s end.

(** *** Theorems *)

Definition told (s : UpStore) : Prop :=
  (us_phase s = PhFailed → us_error s ≠ None) ∧ (us_phase s = PhInstalling → us_latest s ≠ None).

Lemma up_step_told s o : told s → told (up_step s o).
Proof.
  intros [H1 H2]. unfold told. destruct o as [si re|i r| |r|now polls]; cbn [up_step].
  - unfold check. case_match; [done|]. case_match; done.
  - unfold check_answer. case_match; [|done]. destruct r; done.
  - unfold run_upgrade. destruct (us_latest s) eqn:El; [|rewrite El; done]. case_match; [rewrite El; done|]. cbn. by rewrite El.
  - unfold run_answer. case_match; [done|]. destruct r as [e|[x b]]; [done|]. case_match; [done|]. case_match; done.
  - unfold restarted. case_match; [done|]. destruct (waitForRestart _ _ _) as [p|] eqn:E; [|done]. cbn.
    assert (p = PhDoneManual ∨ p = PhReloading) as [->| ->]; [|done..]. clear -E. revert E. generalize false.
    induction polls as [|[t up] polls IH]; intros b; [done|]. cbn. case_match; [intros; simplify_eq; by left|].
    destruct up; [|apply IH]. destruct b; [intros; simplify_eq; by right|apply IH].
Qed.
Lemma run_up_told ops : told (run_up ops).
Proof. apply (run_inv _ told); [done|apply up_step_told]. Qed.

(** The card always says what became of an upgrade: while it installs,
    restarts or reloads, and after it failed or asks for a restart by hand,
    there is a note, and a failed one has its reason. *)
Theorem upgrade_explained (ops : list UpOp) (Hp : us_phase (run_up ops) ∉ [PhIdle; PhChecking]) :
  notes (run_up ops) ≠ [] ∧ (us_phase (run_up ops) = PhFailed → ∃ m, NFailed m ∈ notes (run_up ops)).
Proof.
  destruct (run_up_told ops) as [H1 H2]. set (s := run_up ops) in *. clearbody s. unfold notes, in_phase. split.
  - destruct (us_phase s) eqn:E; [set_solver|set_solver|..]; cbn [when bool_decide]; cbn.
    + destruct (us_latest s); [done|by destruct H2].
    + done.
    + done.
    + done.
    + destruct (us_error s); [done|by destruct H1].
  - intros Hf. destruct (us_error s) as [m|] eqn:Em; [|by destruct H1]. exists m. rewrite !elem_of_app. cbn [when fmap option_fmap option_map]. set_solver.
Qed.

(** Both buttons install the version they name and no other, and only while
    none is being installed; the one of the side bar also takes a click while
    a check is under way, when the card's is off. *)
Theorem buttons_install_named (s : UpStore) :
  (us_installs (card_install s) ≠ us_installs s →
     ∃ v, card_button s = Some v ∧ us_installs (card_install s) = us_installs s ++ [(v, us_registry s)] ∧ foot_busy s = false) ∧
  (us_installs (foot_click s) ≠ us_installs s →
     ∃ v, foot_button s = Some (FlUpdate v) ∧ us_installs (foot_click s) = us_installs s ++ [(v, us_registry s)] ∧
          (card_busy s = true ↔ us_phase s = PhChecking)).
Proof.
  unfold card_install, foot_click, foot_button, card_button, card_busy, foot_busy, in_phase, run_upgrade.
  destruct (us_latest s) as [v|] eqn:El; destruct (us_hasUpdate s) eqn:Eh; destruct (us_phase s) eqn:Ep; cbn; (split; intros Hi; [try done|try done]);
    exists v; split_and!; done.
Qed.

Definition updating : list UpOp := [UCheck false false; UChecked 0 (inr (mkCheck (js "1.0.0") (js "1.1.0") true (js "r"))); URun; URan (inl (js "no network"))].
Lemma upgrade_explained_witness : notes (run_up updating) ≠ [] ∧ (us_phase (run_up updating) = PhFailed → ∃ m, NFailed m ∈ notes (run_up updating)).
Proof. apply upgrade_explained. vm_compute. set_solver. Defined.
Lemma buttons_install_named_witness :
  ∃ v, card_button (run_up (take 2 updating)) = Some v ∧ us_installs (card_install (run_up (take 2 updating))) = us_installs (run_up (take 2 updating)) ++ [(v, us_registry (run_up (take 2 updating)))] ∧ foot_busy (run_up (take 2 updating)) = false.
Proof. apply (proj1 (buttons_install_named (run_up (take 2 updating)))). vm_compute. done. Defined.
End Version.

(** ** The lines of the status card *)

Module Status.

Definition source_str (s : SoulnetBinarySource) : list Z :=
  match s with FromSetting => js "setting" | FromPackage => js "platform-package" | FromPath => js "path" | FromPlugin => js "plugin-bin" end.
Definition BINARY_SOURCE_KEYS : list (list Z) := [js "setting"; js "platform-package"; js "path"; js "plugin-bin"].
(** [binarySourceLabel]: a key of the dictionary, or the source itself. *)
Definition binarySourceLabel (source : list Z) : list Z + list Z :=
  if bool_decide (source ∈ BINARY_SOURCE_KEYS) then inl (js "settings.binary." ++ source) else inr source.

(** [CardBlock]: the file the owner is told to back up. *)
Definition identity_path (home : list Z) : list Z :=
  let sep := if includes home [92] then [92] else [47] in home ++ sep ++ js "a2a" ++ sep ++ js "identity.json".

(** The peer's state, its process and its restarts, as one line. *)
Definition status_line (state_text : list Z) (pid : option Z) (restarts : Z) : list Z :=
  state_text ++ (match pid with Some p => js " (pid " ++ dec p ++ js ")" | None => [] end) ++
  (if 0 <? restarts then [32; 183; 32] ++ js "restarts " ++ dec restarts else []).
(** The relay and the home directory, when either is known. *)
Definition place_line (relay home : option (list Z)) : option (list Z) :=
  match relay, home with
  | None, None => None
  | _, _ => Some ((relay ?? []) ++ (if bool_decide (is_Some relay) then [32; 183; 32] else []) ++ (home ?? []))
  end.

(** *** Theorems *)

(** Wherever the peer's binary was found, the card names the place in both
    languages; a source the page does not know is shown as it is. *)
Theorem binary_source_named (s : SoulnetBinarySource) (other : list Z) :
  (∃ k, binarySourceLabel (source_str s) = inl k ∧ is_Some (Locales.text_of en k) ∧ is_Some (Locales.text_of zh k)) ∧
  (other ∉ BINARY_SOURCE_KEYS → binarySourceLabel other = inr other).
Proof.
  split.
  - destruct s; (eexists; split; [vm_compute; reflexivity|]); split; vm_compute; by eexists.
  - intros Ho. unfold binarySourceLabel. by rewrite bool_decide_eq_false_2.
Qed.
Lemma binary_source_named_witness : binarySourceLabel (js "nix") = inr (js "nix").
Proof. apply (binary_source_named FromPath (js "nix")). vm_compute. set_solver. Defined.
End Status.
