(* ===== verification/FrontDoor.v ===== *)
(** * The way in (client/index.ts, client/nav-seat.ts, client/Onboarding.tsx,
      client/SidebarEntry.tsx, client/Branding.tsx, sidebar/src/client/SidebarRoot.tsx)

    What the page registers with the host while the extension runs: the
    settings section, registered anew when an update becomes known; the one
    entry of the page, in the side bar's foot or in its primary rows; the
    options of the two slash commands.  Then the first-run step that creates
    the identity, as a machine over renders and answers, and the folding of
    the side bar with its two timers, and the brand on the browser's tab.  The host's slots are a list of
    registrations, which is what [slots.register] and its disposer promise. *)

From S2P Require Import Prelude JsString Json Upgrade InboxState PageState PageStore ClientStores Workspaces SettingsPage.
#[local] Open Scope Z_scope.

(** ** The settings section *)

Module Section_.

(** A registration: its number, and whether its label carries the dot.  The
    host reads the label once. *)
Record Nav := mkNav {
  na_up : UpStore;
  na_regs : list (nat * bool); na_next : nat;        (** the host's registrations of this section *)
  na_had : bool; na_mine : nat;                      (** [hadUpdate]; what [disposeSection] removes *)
  na_subscribed : bool }.

Definition make (s : Nav) : Nav :=
  mkNav (na_up s) (na_regs s ++ [(na_next s, us_hasUpdate (na_up s))]) (na_next s + 1) (na_had s) (na_next s) (na_subscribed s).
Definition disposeSection (s : Nav) : Nav :=
  mkNav (na_up s) (filterb (λ r, negb (r.1 =? na_mine s)%nat) (na_regs s)) (na_next s) (na_had s) (na_mine s) (na_subscribed s).
(** The inject callback: registers and subscribes. *)
Definition start (up : UpStore) : Nav :=
  let s := make (mkNav up [] 0 (us_hasUpdate up) 0 false) in
  mkNav (na_up s) (na_regs s) (na_next s) (na_had s) (na_mine s) true.
(** The listener. *)
Definition on_change (s : Nav) : Nav :=
  let now := us_hasUpdate (na_up s) in
  if Bool.eqb now (na_had s) then s
  else make (disposeSection (mkNav (na_up s) (na_regs s) (na_next s) now (na_mine s) (na_subscribed s))).
Definition stop (s : Nav) : Nav :=
  disposeSection (mkNav (na_up s) (na_regs s) (na_next s) (na_had s) (na_mine s) false).

Inductive NavEv := EUp (o : UpOp) | EStop.
Definition nav_step (s : Nav) (e : NavEv) : Nav :=
  match e with
  | EUp o =>
      let s1 := mkNav (up_step (na_up s) o) (na_regs s) (na_next s) (na_had s) (na_mine s) (na_subscribed s) in
      if na_subscribed s then on_change s1 else s1
  | EStop => if na_subscribed s then stop s else s
  end.
Definition nav_run (up : UpStore) (es : list NavEv) : Nav := fold_left nav_step es (start up).

(** *** Theorems *)

Definition nav_ok (s : Nav) : Prop :=
  if na_subscribed s then na_regs s = [(na_mine s, us_hasUpdate (na_up s))] ∧ na_had s = us_hasUpdate (na_up s) ∧ (na_mine s < na_next s)%nat
  else na_regs s = [].

Lemma dispose_only m b : filterb (λ r : nat * bool, negb (r.1 =? m)%nat) [(m, b)] = [].
Proof. cbn. by rewrite Nat.eqb_refl. Qed.
Lemma nav_step_ok s e : nav_ok s → nav_ok (nav_step s e).
Proof.
  unfold nav_ok. destruct s as [up regs next had mine sub]. cbn. destruct sub; cbn; [intros (-> & -> & Hm)|intros ->]; destruct e as [o|]; cbn; try done.
  - unfold on_change. cbn. destruct (Bool.eqb _ _) eqn:E; cbn.
    + apply Bool.eqb_prop in E. by rewrite E.
    + rewrite Nat.eqb_refl. cbn. split_and!; [done..|lia].
  - by rewrite Nat.eqb_refl.
Qed.

(** While the page runs exactly one settings section is registered, and its
    label carries the dot exactly when a newer version is known, through every
    check, install and failure; once the page's registration is disposed none
    is left, and later answers of a check bring none back. *)
Theorem one_section (up : UpStore) (es : list NavEv) :
  let s := nav_run up es in
  map snd (na_regs s) = (if na_subscribed s then [us_hasUpdate (na_up s)] else []) ∧
  (na_subscribed s = true ↔ EStop ∉ es).
Proof.
  cbv zeta. split.
  - assert (Hok : nav_ok (nav_run up es)).
    { apply (run_inv _ nav_ok); [cbn; split_and!; [done..|lia]|apply nav_step_ok]. }
    unfold nav_ok in Hok. destruct (na_subscribed _); [destruct Hok as (-> & _)|rewrite Hok]; done.
  - induction es as [|e es IH] using rev_ind; [split; [intros _; set_solver|done]|].
    unfold nav_run in *. rewrite fold_left_app. cbn [fold_left]. set (s := fold_left _ es _) in *. clearbody s. rewrite elem_of_app, list_elem_of_singleton.
    destruct e as [o|]; cbn [nav_step].
    + destruct (na_subscribed s) eqn:E; [|cbn; rewrite ?E; naive_solver]. unfold on_change. cbn.
      destruct (Bool.eqb _ _); cbn; naive_solver.
    + destruct (na_subscribed s) eqn:E; [cbn|cbn; rewrite ?E]; naive_solver.
Qed.
End Section_.

(** ** The entry of the page and the slash commands *)

Module Entry.

(** [claimed] of nav-seat.ts and the rows registered in the primary seat;
    [st_live]: the host has the seat and has run the inject callback. *)
Record Seat := mkSeat { st_claimed : bool; st_rows : nat; st_live : bool }.
Definition no_seat : Seat := mkSeat false 0 false.
Definition set_claimed (b : bool) (s : Seat) : Seat := mkSeat b (st_rows s) (st_live s).
Inductive SeatEv := EDeclared | EWithdrawn.
(** The host runs the callback when the seat appears and its disposer when it goes. *)
Definition seat_step (s : Seat) (e : SeatEv) : Seat :=
  match e, st_live s with
  | EDeclared, false => mkSeat (st_claimed (set_claimed true s)) (st_rows s + 1) true
  | EWithdrawn, true => mkSeat (st_claimed (set_claimed false s)) (st_rows s - 1) false
  | _, _ => s
  end.
Definition seat_run (es : list SeatEv) : Seat := fold_left seat_step es no_seat.
(** [SidebarEntry] draws nothing when the seat is claimed. *)
Definition entries_shown (s : Seat) : nat := (if st_claimed s then 0 else 1) + st_rows s.

(** [normalized] of [isSoulmirrorCwd] is [normal_path]. *)
Definition isSoulmirrorCwd (cwd : option (list Z)) : bool :=
  match cwd with
  | None => false
  | Some p => let n := Workspaces.normal_path p in
              endsWith n (js "/.soulnet/a2a") || endsWith n (js "/soulmirror/a2a") || endsWith n (js "/.soulmirror/a2a")
  end.

(** The options of the two popups; [tag] and [none]: the texts the dictionary
    gives for a waiting draft and for an empty list. *)
Section popups.
Context `{LocaleCompare} (tag none page_label : list Z).

Record Option_ := mkOption { op_id : list Z; op_label : list Z }.
Definition friend_label (f : InboxFriend) : list Z :=
  (if bool_decide (f_online f = Some true) then [9679; 32] else [9675; 32]) ++ f_name f ++
  (if 0 <? f_unread f then js " (" ++ dec (f_unread f) ++ js ")" else []) ++
  (if (0 <? f_drafts f ?? 0)%nat then [32; 183; 32] ++ tag else []).
Definition friendOptions (state : option ApiState) : list Option_ :=
  match state with None => [] | Some st => map (λ f, mkOption (f_fp f) (friend_label f)) (as_friends st) end.

Definition friends_popup (state : option ApiState) : list Option_ :=
  match friendOptions state with [] => [mkOption (js "none") none] | l => l end.
Definition friends_select (o : Option_) (s : Page) : Page := if jeqb (op_id o) (js "none") then s else open_page (Some (op_id o)) s.
Definition soulmirror_popup (state : option ApiState) : list Option_ := mkOption (js "page") page_label :: friendOptions state.
Definition soulmirror_select (o : Option_) (s : Page) : Page := open_page (Some (if jeqb (op_id o) (js "page") then ALTER_KEY else op_id o)) s.

(** *** Theorems *)

(** The entry of the page is shown exactly once, whether or not a side bar
    with primary rows is installed, comes or goes. *)
Theorem entry_shown_once (es : list SeatEv) : entries_shown (seat_run es) = 1%nat.
Proof.
  assert (Hok : st_claimed (seat_run es) = st_live (seat_run es) ∧ st_rows (seat_run es) = (if st_live (seat_run es) then 1 else 0)%nat).
  { unfold seat_run. induction es as [|e es IH] using rev_ind; [done|]. rewrite fold_left_app. cbn [fold_left].
    destruct IH as [H1 H2]. set (s := fold_left _ es _) in *. clearbody s. destruct s as [c r l]. cbn in *. subst. by destruct e, l. }
  unfold entries_shown. destruct Hok as [-> ->]. by destruct (st_live _).
Qed.

(** The workspace test looks at the last two parts of the path only: trailing
    separators and the kind of separator do not matter. *)
Theorem cwd_ignores_separators (p q : list Z) (b : bool) :
  (∀ c, c ∈ q → c = 47 ∨ c = 92) → isSoulmirrorCwd (Some (p ++ (if b then js "/.soulnet/a2a" else map (λ c, if c =? 47 then 92 else c) (js "/.soulnet/a2a")) ++ q)) = true.
Proof.
  intros Hq. unfold isSoulmirrorCwd.
  assert (Hn : Workspaces.normal_path (p ++ (if b then js "/.soulnet/a2a" else map (λ c, if c =? 47 then 92 else c) (js "/.soulnet/a2a")) ++ q)
           = map (λ c, if c =? 92 then 47 else c) p ++ js "/.soulnet/a2a").
  { unfold Workspaces.normal_path. rewrite !map_app, !reverse_app.
    assert (Hd : ∀ l, (∀ c, c ∈ l → c = 47) → ∀ r, Workspaces.drop_slashes (l ++ r) = Workspaces.drop_slashes r).
    { induction l as [|c l IH]; intros Hl r; [done|]. cbn. rewrite (Hl c) by set_solver. cbn. apply IH. set_solver. }
    rewrite <- app_assoc, Hd.
    - replace (map _ (if b then _ else _)) with (js "/.soulnet/a2a") by (by destruct b).
      change (Workspaces.drop_slashes (reverse (js "/.soulnet/a2a") ++ ?r)) with (reverse (js "/.soulnet/a2a") ++ r).
      by rewrite <- reverse_app, reverse_involutive.
    - intros c Hc. rewrite elem_of_reverse in Hc. apply list_elem_of_fmap in Hc as (d & -> & Hd'). destruct (Hq d Hd') as [->| ->]; done. }
  rewrite Hn. assert (He : endsWith (map (λ c, if c =? 92 then 47 else c) p ++ js "/.soulnet/a2a") (js "/.soulnet/a2a") = true); [|by rewrite He].
  unfold endsWith. rewrite reverse_app. by apply startsWith_app.
Qed.

Lemma prime_nav x s : pg_nav (prime x s) = pg_nav s.
Proof.
  unfold prime, loadGroup, load, loadAlter, start_history, setThread, request. repeat case_match; reflexivity.
Qed.

(** The popups offer every friend of the state in its order and nothing else
    but the page itself, or the one line that says there are none; choosing a
    friend opens the page on that friend, and the line for none leaves the
    page as it is. *)
Theorem popup_opens_chosen (st : ApiState) (s : Page) (f : InboxFriend) :
  map op_id (friends_popup (Some st)) = (match as_friends st with [] => [js "none"] | l => map f_fp l end) ∧
  map op_id (soulmirror_popup (Some st)) = js "page" :: map f_fp (as_friends st) ∧
  (f ∈ as_friends st → f_fp f ≠ js "none" → f_fp f ≠ js "page" →
    ∃ o, o ∈ friends_popup (Some st) ∧ o ∈ soulmirror_popup (Some st) ∧
         friends_select o s = soulmirror_select o s ∧
         nv_open (pg_nav (friends_select o s)) = true ∧ nv_selected (pg_nav (friends_select o s)) = Some (f_fp f)) ∧
  friends_select (mkOption (js "none") none) s = s.
Proof.
  assert (Hids : map op_id (friendOptions (Some st)) = map f_fp (as_friends st)) by (cbn [friendOptions]; by rewrite map_map).
  split_and!; [|by cbn; f_equal|intros Hf Hn Hp|done].
  - unfold friends_popup. cbn [friendOptions]. destruct (as_friends st) as [|g l]; [done|]. cbn. by rewrite map_map.
  - apply jeqb_neq in Hn, Hp. exists (mkOption (f_fp f) (friend_label f)).
    assert (Ho : mkOption (f_fp f) (friend_label f) ∈ friendOptions (Some st)) by (apply list_elem_of_fmap; by exists f).
    unfold friends_select, soulmirror_select. cbn [op_id]. rewrite Hn, Hp. split_and!.
    + unfold friends_popup. destruct (friendOptions (Some st)); [by apply elem_of_nil in Ho|done].
    + by right.
    + done.
    + unfold open_page. by rewrite prime_nav.
    + unfold open_page. by rewrite prime_nav.
Qed.

(** Opening the page on another conversation, as the popups and the toasts do,
    keeps the tab of the one that was open, also one the new conversation does
    not have: after the management tab of an own group, any other group opens
    on its management tab. *)
Theorem open_keeps_tab (x : list Z) (s : Page) :
  nv_pane (pg_nav (open_page (Some x) s)) = nv_pane (pg_nav s) ∧
  (nv_pane (pg_nav s) = TAdmin → nv_pane (pg_nav (open_page (Some x) s)) ∉ tabsFor (kindOf (Some x)) false).
Proof.
  assert (Hk : nv_pane (pg_nav (open_page (Some x) s)) = nv_pane (pg_nav s)) by (unfold open_page; by rewrite prime_nav).
  split; [done|]. intros Ha. rewrite Hk, Ha. destruct (kindOf (Some x)); cbn; set_solver.
Qed.
End popups.

Definition busy_page : Page := set_nav (mkNav true (Some (js "group:g1")) TabMessages TAdmin) (new_page None).
Lemma cwd_ignores_separators_witness : isSoulmirrorCwd (Some (js "C:\Users\x" ++ map (λ c, if c =? 47 then 92 else c) (js "/.soulnet/a2a") ++ [92])) = true.
Proof. apply (cwd_ignores_separators (js "C:\Users\x") [92] false). intros c Hc. right. by apply list_elem_of_singleton in Hc. Defined.
Lemma open_keeps_tab_witness : nv_pane (pg_nav (open_page (Some (js "group:g2")) busy_page)) ∉ tabsFor (kindOf (Some (js "group:g2"))) false.
Proof. apply (proj2 (open_keeps_tab (js "group:g2") busy_page)). reflexivity. Defined.
Definition ann : InboxFriend := mkFriend (js "f1") (js "Ann") None None None 0 0 None None None None None None None.
Lemma popup_opens_chosen_witness :
  ∃ o, o ∈ friends_popup [] [] (Some (mkApiState [ann] None [] None None)) ∧ o ∈ soulmirror_popup [] [] (Some (mkApiState [ann] None [] None None)) ∧
       friends_select o busy_page = soulmirror_select o busy_page ∧ nv_open (pg_nav (friends_select o busy_page)) = true ∧
       nv_selected (pg_nav (friends_select o busy_page)) = Some (js "f1").
Proof. apply (popup_opens_chosen [] [] [] (mkApiState [ann] None [] None None) busy_page ann); [by left|done|done]. Defined.
End Entry.

(** ** The first-run step *)

Module Onboarding.

(** What the step reads of the network store: the card of the identity, the
    kind of backend and whether the peer is ready. *)
Record View := mkView { vw_card : option (list Z); vw_soulnet : bool; vw_ready : bool }.
Inductive Job := JCreate | JRefresh.
Record Step := mkStep {
  ob_net : option View; ob_name : list Z; ob_busy : bool; ob_error : option (list Z); ob_created : bool;
  ob_finished : bool; ob_completes : nat;            (** the ref, and the calls of [complete] *)
  ob_job : option Job;
  ob_inert : bool; ob_previous : option bool;        (** [appRoot.inert], and what the mounted effect restores *)
  ob_sections : list (list Z); ob_mounted : bool }.

Definition finish (s : Step) : Step :=
  if ob_finished s then s
  else mkStep (ob_net s) (ob_name s) (ob_busy s) (ob_error s) (ob_created s) true (ob_completes s + 1) (ob_job s) (ob_inert s) (ob_previous s) (ob_sections s) (ob_mounted s).

Definition has_identity (s : Step) : bool := match ob_net s with Some v => bool_decide (is_Some (vw_card v)) | None => false end.
(** Whether the dialog is drawn, and which of its two faces. *)
Definition drawn (s : Step) : bool := ob_mounted s && bool_decide (is_Some (ob_net s)) && negb (has_identity s && negb (ob_created s)).
Definition card_drawn (s : Step) : bool := drawn s && ob_created s && has_identity s.
Definition peerDown (s : Step) : bool := match ob_net s with Some v => vw_soulnet v && negb (vw_ready v) | None => false end.

Definition with_inert (b : bool) (p : option bool) (s : Step) : Step :=
  mkStep (ob_net s) (ob_name s) (ob_busy s) (ob_error s) (ob_created s) (ob_finished s) (ob_completes s) (ob_job s) b p (ob_sections s) (ob_mounted s).
(** The clean-up of the second effect. *)
Definition restore (s : Step) : Step := match ob_previous s with Some p => with_inert p None s | None => s end.
(** The two effects after a render. *)
Definition effects (s : Step) : Step :=
  if negb (ob_mounted s) then s
  else
    let s1 := if has_identity s && negb (ob_created s) then finish s else s in
    let s2 := restore s1 in
    if drawn s2 then with_inert true (Some (ob_inert s2)) s2 else s2.

Definition set_net (v : option View) (s : Step) : Step :=
  mkStep v (ob_name s) (ob_busy s) (ob_error s) (ob_created s) (ob_finished s) (ob_completes s) (ob_job s) (ob_inert s) (ob_previous s) (ob_sections s) (ob_mounted s).
Definition set_form (n : list Z) (b : bool) (e : option (list Z)) (c : bool) (j : option Job) (s : Step) : Step :=
  mkStep (ob_net s) n b e c (ob_finished s) (ob_completes s) j (ob_inert s) (ob_previous s) (ob_sections s) (ob_mounted s).

Definition mount_step (inert : bool) (v : option View) : Step := effects (mkStep v [] false None false false 0 None inert None [] true).

Inductive StepEv :=
| ENet (v : View)                                    (** the store publishes a state *)
| EType (x : list Z) | ECreate | ELater | EDone | EOpen (section : list Z)
| ECreated (r : option (list Z))                     (** [createIdentity] is answered; [Some]: its error *)
| ERefreshed (r : option View)                       (** the refresh it awaits ends; [Some]: what it published *)
| EUnmount.

(** [ECreated] and [ERefreshed] continue the chain of the one request: the
    store publishes, and the page renders, before the chain goes on. *)
Definition event (s : Step) (e : StepEv) : Step :=
  match e with
  | ENet v => effects (set_net (Some v) s)
  | EType x => if drawn s && negb (ob_created s) then effects (set_form x (ob_busy s) (ob_error s) (ob_created s) (ob_job s) s) else s
  | ECreate =>
      if drawn s && negb (ob_created s) && negb (ob_busy s || jeqb (trim (ob_name s)) [] || peerDown s)
      then effects (set_form (ob_name s) true None (ob_created s) (Some JCreate) s) else s
  | ELater => if drawn s && negb (ob_created s) then effects (finish s) else s
  | EDone => if drawn s && ob_created s then effects (finish s) else s
  | EOpen x =>
      if drawn s && ob_created s
      then let s1 := finish s in
           effects (mkStep (ob_net s1) (ob_name s1) (ob_busy s1) (ob_error s1) (ob_created s1) (ob_finished s1) (ob_completes s1) (ob_job s1) (ob_inert s1) (ob_previous s1) (ob_sections s1 ++ [x]) (ob_mounted s1))
      else s
  | ECreated r =>
      match ob_job s, r with
      | Some JCreate, Some m => effects (set_form (ob_name s) false (Some m) (ob_created s) None s)
      | Some JCreate, None => effects (set_form (ob_name s) (ob_busy s) (ob_error s) (ob_created s) (Some JRefresh) s)
      | _, _ => s
      end
  | ERefreshed r =>
      match ob_job s with
      | Some JRefresh =>
          let s1 := match r with Some v => effects (set_net (Some v) s) | None => s end in
          effects (set_form (ob_name s1) false (ob_error s1) true None s1)
      | _ => s
      end
  | EUnmount => if ob_mounted s
      then let s1 := restore s in
           mkStep (ob_net s1) (ob_name s1) (ob_busy s1) (ob_error s1) (ob_created s1) (ob_finished s1) (ob_completes s1) (ob_job s1) (ob_inert s1) (ob_previous s1) (ob_sections s1) false
      else s
  end.
Definition step_run (inert : bool) (v : option View) (es : list StepEv) : Step := fold_left event es (mount_step inert v).

(** *** Theorems *)

Record step_ok (inert : bool) (s : Step) : Prop := {
  so_once : ob_completes s = (if ob_finished s then 1 else 0)%nat;
  so_inert : ob_inert s = (if drawn s then true else inert);
  so_prev : ob_previous s = (if drawn s then Some inert else None) }.
(** Before the effects: what the last render left. *)
Definition settled (inert : bool) (s : Step) : Prop :=
  ob_completes s = (if ob_finished s then 1 else 0)%nat ∧
  ((ob_previous s = Some inert ∧ ob_inert s = true) ∨ (ob_previous s = None ∧ ob_inert s = inert)).

Lemma ok_settled inert s : step_ok inert s → settled inert s.
Proof. intros [H1 H2 H3]. split; [done|]. rewrite H2, H3. destruct (drawn s); [by left|by right]. Qed.
Lemma finish_settled inert s : settled inert s → settled inert (finish s).
Proof. unfold finish. destruct (ob_finished s) eqn:E; [done|]. intros [H1 H2]. rewrite E in H1. split; [cbn; by rewrite H1|done]. Qed.
Lemma finish_drawn s : drawn (finish s) = drawn s.
Proof. unfold finish. by destruct (ob_finished s). Qed.
Lemma restore_settled inert s : settled inert s → ob_inert (restore s) = inert ∧ ob_previous (restore s) = None ∧ settled inert (restore s).
Proof.
  intros [H1 [[H2 H3]|[H2 H3]]]; unfold restore; rewrite H2; [|by (split_and!; [done..|split; [done|by right]])].
  cbn. split_and!; [done..|]. split; [done|by right].
Qed.
Lemma restore_drawn s : drawn (restore s) = drawn s.
Proof. unfold restore. by destruct (ob_previous s). Qed.

Lemma effects_ok inert s : ob_mounted s = true → settled inert s → step_ok inert (effects s).
Proof.
  intros Hm Hs. unfold effects. rewrite Hm. cbn [negb]. set (s1 := if has_identity s && negb (ob_created s) then finish s else s).
  assert (Hs1 : settled inert s1) by (unfold s1; case_match; [by apply finish_settled|done]).
  destruct (restore_settled inert s1 Hs1) as (Hi & Hp & [Hc _]). destruct (drawn (restore s1)) eqn:Hd.
  - assert (Hd' : drawn (with_inert true (Some (ob_inert (restore s1))) (restore s1)) = true) by exact Hd.
    split; rewrite ?Hd'; cbn; [done|done|by rewrite Hi].
  - split; rewrite ?Hd; done.
Qed.
Lemma effects_unmounted s : ob_mounted s = false → effects s = s.
Proof. unfold effects. by intros ->. Qed.
Lemma drawn_mounted s : ob_mounted s = false → drawn s = false.
Proof. unfold drawn. by intros ->. Qed.

Lemma effects_ok' inert s s' :
  step_ok inert s → ob_mounted s' = ob_mounted s → settled inert s' → (ob_mounted s = false → ob_inert s' = ob_inert s ∧ ob_previous s' = ob_previous s) → step_ok inert (effects s').
Proof.
  intros Hok Hm Hs Hu. destruct (ob_mounted s) eqn:E; [by apply effects_ok|]. rewrite effects_unmounted by done.
  destruct (Hu eq_refl) as [H1 H2]. destruct Hok as [_ H3 H4]. rewrite (drawn_mounted s E) in H3, H4. destruct Hs as [Hc _].
  split; rewrite ?(drawn_mounted s' Hm); congruence.
Qed.
Lemma form_effects_ok inert n b e c j s : step_ok inert s → step_ok inert (effects (set_form n b e c j s)).
Proof. intros Hok. apply (effects_ok' inert s); [done|done|by apply ok_settled in Hok|done]. Qed.
Lemma net_effects_ok inert v s : step_ok inert s → step_ok inert (effects (set_net v s)).
Proof. intros Hok. apply (effects_ok' inert s); [done|done|by apply ok_settled in Hok|done]. Qed.
Lemma finish_fields s : ob_mounted (finish s) = ob_mounted s ∧ ob_inert (finish s) = ob_inert s ∧ ob_previous (finish s) = ob_previous s.
Proof. unfold finish. by destruct (ob_finished s). Qed.
Lemma finish_effects_ok inert s : step_ok inert s → step_ok inert (effects (finish s)).
Proof.
  intros Hok. destruct (finish_fields s) as (H1 & H2 & H3).
  apply (effects_ok' inert s); [done|done|by apply finish_settled, ok_settled|done].
Qed.

Lemma event_ok inert s e : step_ok inert s → step_ok inert (event s e).
Proof.
  intros Hok. destruct e as [v|x| | | |x|r|r|]; cbn [event].
  - by apply net_effects_ok.
  - case_match; [by apply form_effects_ok|done].
  - case_match; [by apply form_effects_ok|done].
  - case_match; [by apply finish_effects_ok|done].
  - case_match; [by apply finish_effects_ok|done].
  - case_match; [|done]. destruct (finish_fields s) as (H1 & H2 & H3).
    apply (effects_ok' inert s); [done|done|exact (finish_settled _ _ (ok_settled _ _ Hok))|done].
  - destruct (ob_job s) as [[]|]; [|done..]. destruct r; by apply form_effects_ok.
  - destruct (ob_job s) as [[]|]; [done| |done]. apply form_effects_ok. destruct r; [by apply net_effects_ok|done].
  - destruct (ob_mounted s) eqn:Hm; [|done]. destruct (restore_settled inert s (ok_settled _ _ Hok)) as (H1 & H2 & [H3 _]). by split.
Qed.
Lemma run_step_ok inert v es : step_ok inert (step_run inert v es).
Proof.
  apply (run_inv _ (step_ok inert)); [|apply event_ok]. apply effects_ok; [done|split; [done|by right]].
Qed.

(** The host is told that the step is complete at most once, whatever is
    clicked and whatever the store publishes; and the rest of the page is out
    of reach exactly while the dialog is drawn: it is given back as it was
    found when the dialog goes. *)
Theorem step_completes_once (inert : bool) (v : option View) (es : list StepEv) :
  let s := step_run inert v es in
  (ob_completes s <= 1)%nat ∧ ob_inert s = (if drawn s then true else inert).
Proof. cbv zeta. destruct (run_step_ok inert v es) as [H1 H2 _]. split; [rewrite H1; by destruct (ob_finished _); lia|done]. Qed.

(** A refresh that was asked for after the identity was made publishes it. *)
Definition fresh (e : StepEv) : Prop := match e with ERefreshed (Some v) => vw_card v ≠ None | ERefreshed None => False | _ => True end.
Definition early (s : Step) : Prop := ob_created s = true → ob_finished s = true ∨ ob_mounted s = false.

Lemma finish_finished s : ob_finished (finish s) = true.
Proof. unfold finish. by destruct (ob_finished s) eqn:E. Qed.
Lemma restore_same s : ob_finished (restore s) = ob_finished s ∧ ob_created (restore s) = ob_created s ∧ ob_mounted (restore s) = ob_mounted s.
Proof. unfold restore. by destruct (ob_previous s). Qed.
Lemma effects_same s :
  ob_created (effects s) = ob_created s ∧ ob_mounted (effects s) = ob_mounted s ∧ (ob_finished s = true → ob_finished (effects s) = true).
Proof.
  unfold effects. destruct (ob_mounted s) eqn:Hm; [|done]. cbn [negb]. set (s1 := if has_identity s && negb (ob_created s) then finish s else s).
  assert (H1 : ob_created s1 = ob_created s ∧ ob_mounted s1 = ob_mounted s ∧ (ob_finished s = true → ob_finished s1 = true)).
  { unfold s1, finish. destruct (_ && _); [|done]. by destruct (ob_finished s) eqn:E. }
  destruct (restore_same s1) as (Hf & Hc & Hm'). case_match; cbn; rewrite ?Hf, ?Hc, ?Hm'; rewrite Hm in H1; exact H1.
Qed.
Lemma effects_early s : early s → early (effects s).
Proof. unfold early. destruct (effects_same s) as (-> & -> & Hf). naive_solver. Qed.
Lemma effects_finish v s : vw_card v ≠ None → ob_created s = false → ob_mounted s = true → ob_finished (effects (set_net (Some v) s)) = true.
Proof.
  intros Hv Hc Hm. unfold effects. cbn [ob_mounted set_net]. rewrite Hm. cbn [negb].
  assert (Hi : has_identity (set_net (Some v) s) && negb (ob_created (set_net (Some v) s)) = true).
  { cbn. rewrite Hc, andb_true_r. apply bool_decide_eq_true. by apply not_eq_None_Some in Hv. }
  rewrite Hi. set (s1 := finish (set_net (Some v) s)). destruct (restore_same s1) as (Hf & _ & _).
  assert (ob_finished s1 = true) by apply finish_finished. case_match; cbn; by rewrite Hf.
Qed.
Lemma finish_early s : early (finish s).
Proof. intros _. left. apply finish_finished. Qed.

Lemma event_early s e : fresh e → early s → early (event s e).
Proof.
  intros He Hs. destruct e as [v|x| | | |x|r|r|]; cbn [event].
  - by apply effects_early.
  - case_match; [by apply effects_early|done].
  - case_match; [by apply effects_early|done].
  - case_match; [apply effects_early, finish_early|done].
  - case_match; [apply effects_early, finish_early|done].
  - case_match; [|done]. apply effects_early. intros _. left. apply finish_finished.
  - destruct (ob_job s) as [[]|]; [|done..]. destruct r; by apply effects_early.
  - destruct (ob_job s) as [[]|]; [done| |done]. destruct r as [v|]; [|done]. apply effects_early. intros _. cbn [set_form ob_finished ob_mounted].
    destruct (effects_same (set_net (Some v) s)) as (_ & Hm & Hf). rewrite Hm. cbn [set_net ob_mounted].
    destruct (ob_mounted s) eqn:E; [|by right]. left. destruct (ob_created s) eqn:Hc.
    + apply Hf. destruct (Hs Hc) as [|]; [done|congruence].
    + by apply effects_finish.
  - destruct (ob_mounted s); [|done]. intros _. by right.
Qed.

(** The card with the warning to back it up comes too late: as long as the
    refresh after the creation brings the identity, the step is already
    complete when the card is first drawn, because the store publishes the
    identity, and the page renders, before the step learns that it made it. *)
Theorem card_after_complete (inert : bool) (v : option View) (es : list StepEv)
    (Hes : ∀ e, e ∈ es → fresh e) (Hc : card_drawn (step_run inert v es) = true) :
  ob_finished (step_run inert v es) = true.
Proof.
  assert (He : early (step_run inert v es)).
  { apply (run_inv_when _ early fresh); [by apply effects_early|done|apply event_early]. }
  unfold card_drawn, drawn in Hc. rewrite !andb_true_iff in Hc. destruct Hc as [[[[Hm _] _] Hcr] _]. destruct (He Hcr) as [|]; congruence.
Qed.

Definition nobody : View := mkView None true true.
Definition somebody : View := mkView (Some (js "a2a:me")) true true.
Definition creating : list StepEv := [EType (js "Ann"); ECreate; ECreated None; ERefreshed (Some somebody)].
Lemma card_after_complete_witness : ob_finished (step_run false (Some nobody) creating) = true.
Proof.
  apply card_after_complete; [|vm_compute; reflexivity].
  intros e He. unfold creating in He. repeat (apply elem_of_cons in He as [->|He]; [done|]). by apply elem_of_nil in He.
Defined.
(** A refresh that was already under way when the identity was made, and does
    not have it yet, is what lets the card be seen. *)
Example stale_refresh_shows_card :
  let s := step_run false (Some nobody) [EType (js "Ann"); ECreate; ECreated None; ERefreshed (Some nobody); ENet somebody] in
  card_drawn s = true ∧ ob_finished s = false.
Proof. vm_compute. done. Qed.
End Onboarding.

(** ** The folding of the side bar *)

Module Column.

Record Col := mkCol {
  co_collapsed : bool; co_width : Z;                 (** what the layout passes *)
  co_settled : bool; co_settling : bool;             (** the state, and whether its timer runs *)
  co_lastWide : Z; co_everWide : bool;
  co_inside : bool; co_linger : bool }.              (** [pointerInside]; the listener is on exactly while it is set *)

Definition wide (s : Col) : bool := negb (co_collapsed s) || negb (co_settled s).
(** The inline width; [None]: the width of the rail, from the style sheet. *)
Definition shown_width (s : Col) : option Z := if wide s then Some (if co_collapsed s then co_lastWide s else co_width s) else None.
Definition quiet (s : Col) : bool := negb (co_inside s).

Definition render (collapsed : bool) (width : Z) (s : Col) : Col :=
  mkCol collapsed width (co_settled s) (co_settling s) (if collapsed then co_lastWide s else width) (negb collapsed || co_everWide s) (co_inside s) (co_linger s).
(** The effect on [collapsed], after the clean-up of the one before. *)
Definition fold_effect (s : Col) : Col :=
  mkCol (co_collapsed s) (co_width s) (if co_collapsed s then co_settled s else false) (co_collapsed s) (co_lastWide s) (co_everWide s) (co_inside s) (co_linger s).
Definition mount_column (collapsed : bool) (width : Z) : Col := fold_effect (mkCol collapsed width collapsed false width (negb collapsed) false false).
Definition props (collapsed : bool) (width : Z) (s : Col) : Col :=
  let s1 := render collapsed width s in if Bool.eqb collapsed (co_collapsed s) then s1 else fold_effect s1.

Definition pointer (inside linger : bool) (s : Col) : Col :=
  mkCol (co_collapsed s) (co_width s) (co_settled s) (co_settling s) (co_lastWide s) (co_everWide s) inside linger.
Inductive ColEv := EProps (collapsed : bool) (width : Z) | ESettle | EEnter | ELeave | EMove (over : bool) | ELinger.
Definition col_step (s : Col) (e : ColEv) : Col :=
  match e with
  | EProps c w => props c w s
  | ESettle => if co_settling s then mkCol (co_collapsed s) (co_width s) true false (co_lastWide s) (co_everWide s) (co_inside s) (co_linger s) else s
  | EEnter => pointer true false s
  | ELeave => pointer (co_inside s) true s
  | EMove over => if co_inside s then pointer true (negb over) s else s
  | ELinger => if co_linger s then pointer false false s else s
  end.
Definition col_run (collapsed : bool) (width : Z) (es : list ColEv) : Col := fold_left col_step es (mount_column collapsed width).

(** *** Theorems *)

(** The width the column had when it was last open. *)
Definition open_width (width : Z) (es : list ColEv) : Z := fold_left (λ w e, match e with EProps false w' => w' | _ => w end) es width.

Definition col_ok (w : Z) (s : Col) : Prop :=
  co_lastWide s = w ∧
  if co_collapsed s then co_settled s = false → co_settling s = true else co_settled s = false ∧ co_settling s = false ∧ co_width s = w.

(** The wide column is drawn whenever the layout has it open, at the layout's
    width; when it is folded the wide content fades at the width the column
    last had while open, with the timer running that ends the fade, and then
    only the rail is left. *)
Theorem column_folds (collapsed : bool) (width : Z) (es : list ColEv) :
  let s := col_run collapsed width es in
  (co_collapsed s = false → shown_width s = Some (co_width s)) ∧
  (co_collapsed s = true → co_settled s = false → shown_width s = Some (open_width width es) ∧ shown_width (col_step s ESettle) = None) ∧
  (co_collapsed s = true → co_settled s = true → shown_width s = None).
Proof.
  cbv zeta. assert (Hok : col_ok (open_width width es) (col_run collapsed width es)).
  { induction es as [|e es IH] using rev_ind; [by destruct collapsed|]. unfold col_run, open_width in *. rewrite !fold_left_app. cbn [fold_left].
    set (s := fold_left col_step es _) in *. set (w := fold_left _ es width) in *. clearbody s w. destruct s as [c x se st lw ew i l]. unfold col_ok in *. cbn in *.
    destruct IH as [-> IH]. destruct e as [c' x'| | | |over|]; cbn; [|destruct st, c; cbn in *; naive_solver|done|done|by destruct i|by destruct l].
    unfold props, render. cbn. destruct c', c; cbn; naive_solver. }
  destruct (col_run collapsed width es) as [c x se st lw ew i l]. unfold col_ok in Hok. unfold shown_width, wide. cbn in *. destruct Hok as [-> Hok].
  destruct c; cbn; [|by destruct Hok as (-> & _)]. split_and!; [done| |by intros _ ->]. intros _ ->. cbn. split; [done|]. by rewrite Hok.
Qed.

(** The scroll bars of the column are drawn while the pointer is over it, and
    stop once the pointer has been away for the length of the timer: leaving
    or moving outside starts it, coming back stops it. *)
Theorem scrollbars_linger (collapsed : bool) (width : Z) (es : list ColEv) (over : bool) :
  let s := col_run collapsed width es in
  quiet (col_step (col_step s ELeave) ELinger) = true ∧
  (quiet s = false → quiet (col_step (col_step s (EMove over)) ELinger) = negb over) ∧
  quiet (col_step (col_step s EEnter) ELinger) = false.
Proof.
  cbv zeta. set (s := col_run collapsed width es). clearbody s. split_and!; [done| |done].
  unfold quiet. cbn. destruct (co_inside s); [|done]. by destruct over.
Qed.
Lemma column_folds_witness : shown_width (col_run false 260 [EProps true 56]) = Some 260 ∧ shown_width (col_step (col_run false 260 [EProps true 56]) ESettle) = None.
Proof. apply (proj1 (proj2 (column_folds false 260 [EProps true 56]))); reflexivity. Defined.
Lemma scrollbars_linger_witness : quiet (col_step (col_step (col_run false 260 [EEnter]) (EMove false)) ELinger) = true.
Proof. apply (proj1 (proj2 (scrollbars_linger false 260 [EEnter] false))). reflexivity. Defined.
End Column.

(** ** The brand on the tab (client/Branding.tsx) *)

Module Brand.

Definition BRAND_NAME : list Z := js "SoulMirror".

Section brand.
Context (BRAND_FAVICON : list Z).

(** The document: its title, whether there is a [title] element to observe, its icon (href and type). *)
Record Tab := mkTab { tb_title : list Z; tb_element : bool; tb_icon : option (list Z * list Z) }.
(** What the effect keeps for its disposer. *)
Record Worn := mkWorn { wo_prevTitle : list Z; wo_prevIcon : option (list Z * list Z) }.
Definition wear (t : Tab) : Tab * Worn :=
  (mkTab BRAND_NAME (tb_element t) ((λ _, (BRAND_FAVICON, js "image/png")) <$> tb_icon t), mkWorn (tb_title t) (tb_icon t)).
(** A page of the host writes the title: the observer, where there is one, writes it back. *)
Definition host_title (x : list Z) (t : Tab) : Tab := mkTab (if tb_element t then BRAND_NAME else x) (tb_element t) (tb_icon t).
Definition take_off (w : Worn) (t : Tab) : Tab :=
  mkTab (wo_prevTitle w) (tb_element t) (match tb_icon t, wo_prevIcon w with Some _, Some p => Some p | i, _ => i end).

Inductive Theme := System | Light | Dark.
(** The theme after the start. *)
Definition start_theme (preference : Theme) : Theme := match preference with System => Dark | p => p end.

(** *** Theorems *)

(** Whatever titles the host writes, a tab with a title element shows the
    brand while the extension runs, and gets its own title and icon back when it
    stops; the titles written in between are lost. *)
Theorem brand_worn (t : Tab) (xs : list (list Z)) (He : tb_element t = true) :
  let '(t1, w) := wear t in let t2 := fold_left (λ t x, host_title x t) xs t1 in
  tb_title t2 = BRAND_NAME ∧ take_off w t2 = t.
Proof.
  cbn. set (t1 := mkTab BRAND_NAME (tb_element t) _). assert (fold_left (λ t x, host_title x t) xs t1 = t1) as ->.
  { apply (run_inv _ (λ t', t' = t1)); [done|]. intros t' x ->. unfold host_title, t1. cbn. by rewrite He. }
  split; [done|]. destruct t as [title el [[href ty]|]]; done.
Qed.

(** A start overrides a choice of the system's theme. *)
Theorem system_theme_overridden (p : Theme) : start_theme p = p ↔ p ≠ System.
Proof. by destruct p. Qed.
End brand.

Lemma brand_worn_witness :
  take_off (mkWorn (js "dsh") None) (fold_left (λ t x, host_title x t) [js "chat 1"; js "chat 2"] (wear (js "data:") (mkTab (js "dsh") true None)).1) = mkTab (js "dsh") true None.
Proof. exact (proj2 (brand_worn (js "data:") (mkTab (js "dsh") true None) [js "chat 1"; js "chat 2"] eq_refl)). Defined.
End Brand.
