(* ===== verification/AlterPane.v ===== *)
(** * The pane of the alter (client/AlterPane.tsx)

    The rows of the transcript with the day separators and the mark on what
    the alter said after mail and not after its owner, the state shown on a
    message it sent, where a relayed message leads; the scroll position from
    the first paint on; and the composer, together with the page store's
    [instruct]. *)

From S2P Require Import Prelude JsString Json AlterState AlterChat PageState InboxState PageStore.
From Stdlib Require Import QArith Qround Qcanon.
#[local] Open Scope Z_scope.

(** ** The rows *)

Module Rows.

Definition item_key (i : AlterChatItem) : list Z :=
  match i with
  | ItOwner k _ _ _ | ItAlter k _ _ _ | ItInbound k _ _ _ _ _ _ _ _ | ItSend k _ _ _ _ _ _ _ _ | ItNote k _ _ _ _ _
  | ItTurnFailed k _ _ _ _ | ItThinking k _ _ _ | ItTool k _ _ _ => k
  end.
Definition item_ts (i : AlterChatItem) : number :=
  match i with
  | ItOwner _ t _ _ | ItAlter _ t _ _ | ItInbound _ t _ _ _ _ _ _ _ | ItSend _ t _ _ _ _ _ _ _ | ItNote _ t _ _ _ _
  | ItTurnFailed _ t _ _ _ | ItThinking _ t _ _ | ItTool _ t _ _ => t
  end.

(** [nameOf]. *)
Definition nameOf (friends : list InboxFriend) (fp : list Z) (fallback : option (list Z)) : list Z :=
  match list_find (λ f, f_fp f = fp) friends with
  | Some (_, f) => f_name f
  | None => fallback ?? (if (10 <? length fp)%nat then slice fp 0 10 ++ [8230] else fp)
  end.

Inductive Trigger := TrOwner | TrInbound.
#[export] Instance Trigger_eq_dec : EqDecision Trigger.
Proof. solve_decision. Defined.

Section rows.
Context `{LocalTime}.

(** [new Date(ts)] drops the fraction; a time out of range has no date. *)
Definition MAX_TIME : Z := 8640000000000000.
Definition time_of (n : number) : option Z :=
  match n with
  | Fin q => let z := Z.quot (Qnum (this q)) (Z.pos (Qden (this q))) in if Z.abs z <=? MAX_TIME then Some z else None
  | _ => None
  end.
Definition dayOf (n : number) : list Z :=
  match time_of n with
  | Some t => dec (getFullYear t) ++ js "-" ++ dec (getMonth t + 1) ++ js "-" ++ dec (getDate t)
  | None => js "NaN-NaN-NaN"
  end.

Inductive Row := RDay (key : list Z) (ts : number) | RItem (key : list Z) (item : AlterChatItem) (trigger : option Trigger).

Definition next_trigger (t : option Trigger) (i : AlterChatItem) : option Trigger :=
  match i with ItOwner _ _ _ _ => Some TrOwner | ItInbound _ _ _ _ _ _ _ _ _ => Some TrInbound | _ => t end.
(** The loop, with its two locals. *)
Fixpoint rows_from (lastDay : option (list Z)) (t : option Trigger) (items : list AlterChatItem) : list Row :=
  match items with
  | [] => []
  | i :: rest =>
      let day := dayOf (item_ts i) in
      (if bool_decide (lastDay = Some day) then [] else [RDay (js "day:" ++ day) (item_ts i)]) ++
      RItem (item_key i) i t :: rows_from (Some day) (next_trigger t i) rest
  end.
Definition rows (items : list AlterChatItem) : list Row := rows_from None None items.
(** [renderItem] marks an answer of the alter. *)
Definition proactive (r : Row) : bool :=
  match r with RItem _ (ItAlter _ _ _ _) (Some TrInbound) => true | _ => false end.

(** The pill of a message the alter sent: its style and its text. *)
Inductive Pill := PillPending | PillOk (auto : bool) | PillDraft | PillFailed (detail : option (list Z)) | PillRefused (detail : option (list Z)).
Definition send_pill (outcome : option SendOutcome) (auto : bool) (detail : option (list Z)) : Pill :=
  match outcome with
  | None => PillPending
  | Some AlterState.OSent => PillOk auto
  | Some AlterState.ODraftQueued => PillDraft
  | Some AlterState.OFailed => PillFailed detail
  | Some AlterState.ORefused => PillRefused detail
  end.

(** Where a click on a relayed message leads. *)
Inductive Target := ToGroup (gid : list Z) | ToFriend (fp : list Z).
Definition inbound_target (groups : list ApiGroup) (fp : list Z) (gid : option (list Z)) : Target :=
  match gid ≫= (λ g, list_find (λ x, g_gid x = g) groups) with
  | Some (_, g) => ToGroup (g_gid g)
  | None => ToFriend fp
  end.

(** *** Theorems *)

Definition trigger_of (i : AlterChatItem) : option Trigger := next_trigger None i.
(** What last spoke to the alter, its owner or mail. *)
Definition last_trigger (items : list AlterChatItem) : option Trigger := last (omap trigger_of items).
Definition item_of (r : Row) : option (AlterChatItem * option Trigger) := match r with RItem _ i t => Some (i, t) | RDay _ _ => None end.

Lemma next_trigger_last t l i : next_trigger (match last (omap trigger_of l) with Some x => Some x | None => t end) i
  = match last (omap trigger_of (l ++ [i])) with Some x => Some x | None => t end.
Proof.
  rewrite omap_app. destruct i; cbn; rewrite ?app_nil_r, ?last_snoc; done.
Qed.
Lemma rows_from_items d t pre items :
  omap item_of (rows_from d (match last_trigger pre with Some x => Some x | None => t end) items)
  = imap (λ k i, (i, match last_trigger (pre ++ take k items) with Some x => Some x | None => t end)) items.
Proof.
  revert d pre. induction items as [|i items IH]; intros d pre; [done|]. cbn [rows_from imap]. rewrite omap_app.
  replace (omap item_of (if bool_decide _ then _ else _)) with (@nil (AlterChatItem * option Trigger)) by (by case_bool_decide). cbn [app omap list_omap item_of].
  rewrite take_0, app_nil_r. f_equal. unfold last_trigger at 1. rewrite next_trigger_last. change (last (omap trigger_of (pre ++ [i]))) with (last_trigger (pre ++ [i])).
  rewrite IH. apply imap_ext. intros k x _. unfold compose. cbn [take]. by rewrite <- app_assoc.
Qed.

(** The transcript is drawn whole and in order, and an answer of the alter is
    marked as its own initiative exactly when the last one who spoke to it
    before was a relayed message and not its owner. *)
Theorem proactive_mark (items : list AlterChatItem) :
  omap item_of (rows items) = imap (λ k i, (i, last_trigger (take k items))) items ∧
  (∀ r, r ∈ rows items → proactive r = true → ∃ k i, items !! k = Some i ∧ trigger_of i = None ∧ last_trigger (take k items) = Some TrInbound).
Proof.
  assert (Hi : omap item_of (rows items) = imap (λ k i, (i, last_trigger (take k items))) items).
  { unfold rows. etrans; [exact (rows_from_items None None [] items)|]. apply imap_ext. intros k x _. cbn [app]. by destruct (last_trigger _). }
  split; [done|]. intros r Hr Hp. destruct r as [?|key i t]; [done|].
  assert (Hin : (i, t) ∈ omap item_of (rows items)) by (apply list_elem_of_omap; by exists (RItem key i t)).
  rewrite Hi in Hin. apply list_elem_of_lookup in Hin as [k Hk]. rewrite list_lookup_imap in Hk. destruct (items !! k) as [j|] eqn:Ej; [|done].
  cbn in Hk. injection Hk as -> <-. exists k, i. split; [done|].
  set (lt := last_trigger (take k items)) in *. clearbody lt. destruct i; try done. by destruct lt as [[]|].
Qed.

(** The separator in force at a row: the last one above it. *)
Definition day_above (l : list Row) : option (list Z) := last (omap (λ r, match r with RDay k _ => Some k | _ => None end) l).
Lemma day_above_cons k ts l : day_above (RDay k ts :: l) = Some (match day_above l with Some k' => k' | None => k end).
Proof. unfold day_above. change (omap ?f (RDay k ts :: l)) with (k :: omap f l). rewrite last_cons. by destruct (last _). Qed.
Lemma days_from d t items l1 key i tr l2 :
  rows_from d t items = l1 ++ RItem key i tr :: l2 →
  match day_above l1 with Some k => k = js "day:" ++ dayOf (item_ts i) | None => d = Some (dayOf (item_ts i)) end.
Proof.
  revert d t l1. induction items as [|x items IH]; intros d t l1; [by destruct l1|]. cbn [rows_from].
  assert (Hrest : ∀ l, RItem (item_key x) x t :: rows_from (Some (dayOf (item_ts x))) (next_trigger t x) items = l ++ RItem key i tr :: l2 →
            match day_above l with Some k => k = js "day:" ++ dayOf (item_ts i) | None => dayOf (item_ts x) = dayOf (item_ts i) end).
  { intros l Hl. destruct l as [|r l]; [injection Hl as <- <- <- <-; done|]. injection Hl as <- Hl. apply IH in Hl.
    unfold day_above in *. cbn [omap list_omap] in *. destruct (last _); [done|]. by injection Hl. }
  case_bool_decide as Hd; cbn [app]; intros Hl.
  - apply Hrest in Hl. destruct (day_above l1); [done|]. by rewrite Hd, Hl.
  - destruct l1 as [|r l1]; [done|]. injection Hl as <- Hl. apply Hrest in Hl. rewrite day_above_cons. by destruct (day_above l1); [|rewrite Hl].
Qed.

(** Every message stands under the separator of its own day. *)
Theorem item_under_its_day (items : list AlterChatItem) (l1 l2 : list Row) (key : list Z) (i : AlterChatItem) (tr : option Trigger)
    (Hr : rows items = l1 ++ RItem key i tr :: l2) :
  day_above l1 = Some (js "day:" ++ dayOf (item_ts i)).
Proof. apply days_from in Hr. destruct (day_above l1); [by rewrite Hr|done]. Qed.
End rows.

(** A relayed message leads to the group it was said in when that group is
    still listed, and to its sender otherwise. *)
Theorem inbound_leads (groups : list ApiGroup) (fp : list Z) (gid : option (list Z)) :
  inbound_target groups fp gid =
  match gid with Some g => if bool_decide (g ∈ map g_gid groups) then ToGroup g else ToFriend fp | None => ToFriend fp end.
Proof.
  unfold inbound_target. destruct gid as [g|]; [|done]. cbn [mbind option_bind]. destruct (list_find _ groups) as [[k x]|] eqn:E.
  - apply list_find_Some in E as (Hk & Hx & _). rewrite bool_decide_eq_true_2; [by rewrite Hx|]. apply list_elem_of_fmap. exists x. split; [done|]. by eapply list_elem_of_lookup_2.
  - rewrite bool_decide_eq_false_2; [done|]. intros (x & Hx & Hin)%list_elem_of_fmap. rewrite list_find_None in E. rewrite Forall_forall in E. by apply (E x).
Qed.

Definition utc : LocalTime := Build_LocalTime (λ t, t / 31536000000) (λ _, 0) (λ t, t / 86400000) (λ _, 0) (λ _, 0).
Definition said : list AlterChatItem :=
  [ItOwner (js "o1") (num_of_Z 1000) (js "hi") None; ItAlter (js "a1") (num_of_Z 2000) (js "yes") (num_of_Z 1);
   ItInbound (js "i1") (num_of_Z 86400001) (js "f1") (js "Ann") (js "m1") (js "hello") false None None; ItAlter (js "a2") (num_of_Z 86400002) (js "Ann wrote") (num_of_Z 2)].
Example rows_demo : map proactive (@rows utc said) = [false; false; false; false; false; true].
Proof. vm_compute. reflexivity. Qed.
Lemma item_under_its_day_witness : day_above (take 2 (@rows utc said)) = Some (js "day:" ++ @dayOf utc (num_of_Z 2000)).
Proof. apply (@item_under_its_day utc said (take 2 (@rows utc said)) (drop 3 (@rows utc said)) (js "a1") (ItAlter (js "a1") (num_of_Z 2000) (js "yes") (num_of_Z 1)) (Some TrOwner)). vm_compute. reflexivity. Defined.
Lemma proactive_mark_witness : ∃ k i, said !! k = Some i ∧ trigger_of i = None ∧ last_trigger (take k said) = Some TrInbound.
Proof.
  apply (proj2 (@proactive_mark utc said) (RItem (js "a2") (ItAlter (js "a2") (num_of_Z 86400002) (js "Ann wrote") (num_of_Z 2)) (Some TrInbound))); [|reflexivity].
  apply (list_elem_of_lookup_2 _ 5). vm_compute. reflexivity.
Defined.
End Rows.

(** ** The scroll position *)

Module Place.

Definition FOLLOW_SLACK : Z := 48.
Record Scroller := mkScroller {
  sc_top : Z; sc_height : Z; sc_client : Z;          (** the element, while it is there *)
  sc_mounted : bool;
  sc_following : bool; sc_savedTop : Z; sc_firstPaint : bool }.
Definition max_top (s : Scroller) : Z := Z.max 0 (sc_height s - sc_client s).
(** [el.scrollTop = x], within what there is to scroll. *)
Definition set_top (x : Z) (s : Scroller) : Scroller :=
  mkScroller (Z.max 0 (Z.min x (max_top s))) (sc_height s) (sc_client s) (sc_mounted s) (sc_following s) (sc_savedTop s) (sc_firstPaint s).
Definition with_height (h : Z) (s : Scroller) : Scroller :=
  let s1 := mkScroller (sc_top s) h (sc_client s) (sc_mounted s) (sc_following s) (sc_savedTop s) (sc_firstPaint s) in set_top (sc_top s1) s1.

(** The layout effect on the items, after the content took height [h]. *)
Definition on_items (n : nat) (s : Scroller) : Scroller :=
  if negb (sc_mounted s) then s
  else if sc_firstPaint s && (0 <? n)%nat
  then set_top (sc_height s) (mkScroller (sc_top s) (sc_height s) (sc_client s) true (sc_following s) (sc_savedTop s) false)
  else if sc_following s then set_top (sc_height s) s else s.
Definition items_change (n : nat) (h : Z) (s : Scroller) : Scroller := on_items n (with_height h s).

Definition onScroll (x : Z) (s : Scroller) : Scroller :=
  if negb (sc_mounted s) then s
  else let s1 := set_top x s in
       mkScroller (sc_top s1) (sc_height s1) (sc_client s1) true (sc_height s1 - sc_top s1 - sc_client s1 <? FOLLOW_SLACK) (sc_top s1) (sc_firstPaint s1).
(** Away from the chat tab the element is gone; back on it a fresh one is put
    where the reader was. *)
Definition leave_chat (s : Scroller) : Scroller := mkScroller 0 (sc_height s) (sc_client s) false (sc_following s) (sc_savedTop s) (sc_firstPaint s).
Definition enter_chat (s : Scroller) : Scroller :=
  if sc_mounted s then s
  else let s1 := mkScroller 0 (sc_height s) (sc_client s) true (sc_following s) (sc_savedTop s) (sc_firstPaint s) in
       set_top (if sc_following s then sc_height s else sc_savedTop s) s1.
Definition mount (chat : bool) (client h : Z) : Scroller := mkScroller 0 h client chat true 0 true.

Inductive ScrollEv := EItems (n : nat) (h : Z) | EScroll (x : Z) | ELeave | EEnter.
Definition scroll_step (s : Scroller) (e : ScrollEv) : Scroller :=
  match e with EItems n h => items_change n h s | EScroll x => onScroll x s | ELeave => leave_chat s | EEnter => enter_chat s end.
Definition scroll_run (chat : bool) (client h : Z) (es : list ScrollEv) : Scroller := fold_left scroll_step es (mount chat client h).

(** *** Theorems *)

(** What the reader scrolled to is what is remembered while the chat is up. *)
Definition place_ok (s : Scroller) : Prop :=
  0 < sc_client s ∧ (sc_mounted s = true → 0 <= sc_top s <= max_top s).
Lemma set_top_ok x s : 0 < sc_client s → place_ok (set_top x s).
Proof. intros Hc. split; [done|]. intros _. unfold set_top, max_top in *. cbn. lia. Qed.
Lemma scroll_step_ok s e : place_ok s → place_ok (scroll_step s e).
Proof.
  intros [Hc Ht]. destruct e as [n h|x| |]; cbn [scroll_step].
  - unfold items_change, on_items. repeat case_match; by apply set_top_ok.
  - unfold onScroll. destruct (sc_mounted s) eqn:Hm; cbn [negb]; [|split; [done|by rewrite Hm]]. destruct (set_top_ok x s Hc) as [H1 H2]. split; [done|]. intros _. by apply H2.
  - done.
  - unfold enter_chat. destruct (sc_mounted s) eqn:Hm; [|by apply set_top_ok]. split; [done|]. intros _. by apply Ht.
Qed.
Lemma scroll_run_ok chat client h es : 0 < client → 0 <= h → place_ok (scroll_run chat client h es).
Proof.
  intros Hc Hh. apply (run_inv _ place_ok); [|apply scroll_step_ok]. split; [done|]. intros _. unfold max_top. cbn. lia.
Qed.

(** The transcript opens at its end, a reader at the end is kept there as it
    grows, and one who scrolled up stays where they are once it was first
    drawn; going to another tab and back keeps both. *)
Theorem alter_place_kept (chat : bool) (client h : Z) (es : list ScrollEv) (n : nat) (h' : Z)
    (Hc : 0 < client) (Hh : 0 <= h) :
  let s := scroll_run chat client h es in
  (sc_mounted s = true → (0 < n)%nat → sc_firstPaint s || sc_following s = true → sc_top (items_change n h' s) = max_top (items_change n h' s)) ∧
  (sc_mounted s = true → sc_firstPaint s = false → sc_following s = false → sc_height s <= h' → sc_top (items_change n h' s) = sc_top s) ∧
  (sc_mounted s = true → sc_following s = true → sc_top (enter_chat (leave_chat s)) = max_top s) ∧
  (∀ x, sc_mounted s = true → sc_following (onScroll x s) = false → sc_top (enter_chat (leave_chat (onScroll x s))) = sc_top (onScroll x s)).
Proof.
  cbv zeta. destruct (scroll_run_ok chat client h es Hc Hh) as [Hcl Ht]. set (s := scroll_run chat client h es) in *. clearbody s.
  destruct s as [tp ht cl mo fo sv fi]. unfold max_top, items_change, with_height, set_top, on_items, leave_chat, enter_chat, onScroll in *. cbn in *.
  split_and!; intros; subst; cbn in *.
  - destruct n; [lia|]. destruct fi; cbn in *; [|subst fo]; cbn; unfold set_top, max_top; cbn; lia.
  - specialize (Ht eq_refl). unfold max_top in *. cbn. lia.
  - unfold max_top. cbn. lia.
  - rewrite H0. unfold max_top in *. cbn in *. lia.
Qed.

(** When the transcript arrives while another tab is up, the first paint is
    still to come: the next message takes a reader who has scrolled up since
    back to the end. *)
Theorem late_first_paint (client h h1 h2 x : Z) (n : nat)
    (Hc : 0 < client) (Hh : client + FOLLOW_SLACK < h1) (Hx : 0 <= x) (Hx' : x <= h1 - client - FOLLOW_SLACK) (Hn : (0 < n)%nat) (Hg : h1 <= h2) :
  let s := scroll_run false client h [EItems n h1; EEnter; EScroll x] in
  sc_following s = false ∧ sc_top s = x ∧ sc_top (items_change (S n) h2 s) = h2 - client.
Proof.
  cbv zeta. unfold scroll_run, FOLLOW_SLACK in *. cbn [fold_left scroll_step].
  assert (E1 : ∃ t, items_change n h1 (mount false client h) = mkScroller t h1 client false true 0 true) by (eexists; reflexivity).
  destruct E1 as [t ->].
  assert (E2 : ∃ t', enter_chat (mkScroller t h1 client false true 0 true) = mkScroller t' h1 client true true 0 true) by (eexists; reflexivity).
  destruct E2 as [t' ->].
  assert (E3 : onScroll x (mkScroller t' h1 client true true 0 true) = mkScroller x h1 client true false x true).
  { unfold onScroll, set_top, max_top. cbn [negb sc_mounted sc_height sc_client sc_top sc_firstPaint].
    replace (Z.max 0 (Z.min x (Z.max 0 (h1 - client)))) with x by lia. f_equal. apply Z.ltb_ge. unfold FOLLOW_SLACK. lia. }
  rewrite E3. split_and!; [done|done|].
  unfold items_change, with_height, on_items, set_top, max_top. cbn [negb sc_mounted sc_height sc_client sc_top sc_firstPaint sc_following sc_savedTop andb Nat.ltb Nat.leb]. cbn. lia.
Qed.

Lemma alter_place_kept_witness : sc_top (items_change 4 2000 (scroll_run true 400 0 [EItems 3 1000; EScroll 100])) = 100.
Proof. destruct (alter_place_kept true 400 0 [EItems 3 1000; EScroll 100] 4 2000) as (_ & E & _); [lia|lia|]. apply E; vm_compute; done. Defined.
Lemma late_first_paint_witness :
  let s := scroll_run false 400 0 [EItems 3 1000; EEnter; EScroll 100] in sc_following s = false ∧ sc_top s = 100 ∧ sc_top (items_change 4 2000 s) = 1600.
Proof. apply (late_first_paint 400 0 1000 2000 100 3); unfold FOLLOW_SLACK; lia. Defined.
End Place.

(** ** The composer *)

Module Composer.

(** The text in the box, and the page. *)
Record Desk := mkDesk { dk_draft : list Z; dk_page : Page; dk_sent : list (list Z) }.   (** the bodies of the [alter.instruct] requests made *)

(** [submit]: what [pageStore.instruct] posts is the text without the white space at its end. *)
Definition submit (text : list Z) (s : Desk) : Desk :=
  if jeqb (trim text) [] then s
  else mkDesk [] (instruct text (dk_page s)) (dk_sent s ++ (if jeqb (trimEnd text) [] then [] else [trimEnd text])).
Definition button_on (s : Desk) : bool := negb (jeqb (trim (dk_draft s)) [] || av_instructing (pg_alter (dk_page s))).

Inductive DeskEv := EType (x : list Z) | EKey (enter shift composing : bool) | EClick | EAnswer (err : option (list Z)).
Definition desk_step (s : Desk) (e : DeskEv) : Desk :=
  match e with
  | EType x => mkDesk x (dk_page s) (dk_sent s)
  | EKey enter shift composing => if enter && negb shift && negb composing then submit (dk_draft s) s else s
  | EClick => if button_on s then submit (dk_draft s) s else s
  | EAnswer err => mkDesk (dk_draft s) (instruct_answer err (dk_page s)) (dk_sent s)
  end.
Definition desk_run (stored : option json) (es : list DeskEv) : Desk := fold_left desk_step es (mkDesk [] (new_page stored) []).

(** *** Theorems *)

Definition typed (es : list DeskEv) : list (list Z) := omap (λ e, match e with EType x => Some x | _ => None end) es.

(** Only what was typed is posted: every instruction sent is a text that was
    in the box, less the white space at its end, and none is blank. *)
Theorem instructs_typed (stored : option json) (es : list DeskEv) (b : list Z) (Hb : b ∈ dk_sent (desk_run stored es)) :
  b ≠ [] ∧ ∃ x, x ∈ typed es ∧ b = trimEnd x.
Proof.
  cut ((dk_draft (desk_run stored es) = [] ∨ dk_draft (desk_run stored es) ∈ typed es) ∧ ∀ b, b ∈ dk_sent (desk_run stored es) → b ≠ [] ∧ ∃ x, x ∈ typed es ∧ b = trimEnd x).
  { intros [_ H]. by apply H. }
  clear b Hb. induction es as [|e es IH] using rev_ind; [split; [by left|intros b Hb; by apply elem_of_nil in Hb]|].
  unfold desk_run in *. rewrite fold_left_app. cbn [fold_left]. unfold typed in *. rewrite omap_app. set (s := fold_left desk_step es _) in *. set (tx := omap _ es) in *. clearbody s tx.
  destruct IH as [Hd Hs].
  assert (Hsub : (dk_draft (submit (dk_draft s) s) = [] ∨ dk_draft (submit (dk_draft s) s) ∈ tx) ∧ ∀ b, b ∈ dk_sent (submit (dk_draft s) s) → b ≠ [] ∧ ∃ x, x ∈ tx ∧ b = trimEnd x).
  { unfold submit. destruct (jeqb (trim (dk_draft s)) []) eqn:E; [done|]. cbn [dk_draft dk_sent]. split; [by left|].
    intros b [Hb|Hb]%elem_of_app; [by apply Hs|]. destruct (jeqb (trimEnd (dk_draft s)) []) eqn:E2; [by apply elem_of_nil in Hb|].
    apply list_elem_of_singleton in Hb as ->. apply jeqb_neq in E2. split; [done|]. exists (dk_draft s). split; [|done].
    destruct Hd as [Hd|Hd]; [|done]. rewrite Hd in E2. done. }
  destruct e as [x|[] [] []| |err]; cbn [desk_step andb negb omap list_omap]; rewrite ?app_nil_r; try done.
  - cbn. split; [right; set_solver|]. intros b Hb. destruct (Hs b Hb) as [H1 (y & H2 & H3)]. split; [done|]. exists y. set_solver.
  - by destruct (button_on s).
Qed.

(** An instruction that could not be posted is gone: the box was emptied when
    it was sent, and the failure brings back its reason but not the text. *)
Theorem failed_instruction_lost (stored : option json) (es : list DeskEv) (x m : list Z) (Hx : trim x ≠ []) (Hx' : trimEnd x ≠ []) :
  let s := desk_run stored (es ++ [EType x; EKey true false false; EAnswer (Some m)]) in
  dk_draft s = [] ∧ av_error (pg_alter (dk_page s)) = Some m ∧ av_instructing (pg_alter (dk_page s)) = false ∧ av_chat (pg_alter (dk_page s)) = av_chat (pg_alter (dk_page (desk_run stored es))).
Proof.
  cbv zeta. unfold desk_run. rewrite fold_left_app. cbn [fold_left]. set (s := fold_left desk_step es _). clearbody s. cbn [desk_step andb negb dk_draft dk_page].
  unfold submit. apply jeqb_neq in Hx, Hx'. rewrite Hx. cbn [dk_draft dk_page]. unfold instruct. rewrite Hx'.
  unfold instruct_answer. rewrite bool_decide_eq_true_2 by (cbn; set_solver). done.
Qed.

(** While an instruction is being posted the button is off, but the Enter key
    posts another one all the same. *)
Theorem enter_not_held_back (s : Desk) (Hi : av_instructing (pg_alter (dk_page s)) = true) (Hx : trimEnd (dk_draft s) ≠ []) (Hx' : trim (dk_draft s) ≠ []) :
  desk_step s EClick = s ∧ dk_sent (desk_step s (EKey true false false)) = dk_sent s ++ [trimEnd (dk_draft s)].
Proof.
  split; cbn [desk_step andb negb].
  - unfold button_on. by rewrite Hi, orb_true_r.
  - unfold submit. apply jeqb_neq in Hx, Hx'. by rewrite Hx, Hx'.
Qed.

Definition writing : list DeskEv := [EType (js "tell Ann "); EKey true false false; EType (js "now")].
Lemma instructs_typed_witness : js "tell Ann" ≠ [] ∧ ∃ x, x ∈ typed writing ∧ js "tell Ann" = trimEnd x.
Proof. apply (instructs_typed None writing). vm_compute. by left. Defined.
Lemma failed_instruction_lost_witness : dk_draft (desk_run None ([] ++ [EType (js "tell Ann"); EKey true false false; EAnswer (Some (js "offline"))])) = [].
Proof. apply (failed_instruction_lost None [] (js "tell Ann") (js "offline")); vm_compute; done. Defined.
Lemma enter_not_held_back_witness : desk_step (desk_run None writing) EClick = desk_run None writing.
Proof. apply (enter_not_held_back (desk_run None writing)); vm_compute; done. Defined.
End Composer.
