(* ===== verification/FriendThread.v ===== *)
(** * The pane of a friend (client/FriendPane.tsx, client/alter-ui.tsx)

    When an open conversation counts as read, over the inbox that the frames
    and the answers of the host feed; the state shown under a message of mine
    and what retrying and discarding a failed one do to the page; the card
    popover and the debug composer; and the settings panel of a friend, whose
    request is followed to the reading of the host's route.  The scroll
    position of the pane is in [Panes.Scroll]. *)

From S2P Require Import Prelude JsString JsMap Json Policy PageState InboxState PageStore ApiRequest Sessions ApiRoutes ClientApi.
#[local] Open Scope Z_scope.

(** ** Reading *)

Module Reading.

Record Reader := mkReader {
  rd_inbox : InboxState; rd_fp : option (list Z);       (** the friend whose pane is up *)
  rd_visible : bool; rd_doc : bool;                     (** the page is shown; the browser tab is *)
  rd_reads : list (list Z) }.                           (** the [conversation.markRead] requests made *)

Definition unread_now (i : InboxState) (fp : list Z) : Z := (f_unread <$> findb (has_fp fp) (ib_friends i)) ?? 0.
(** [networkStore.markRead]. *)
Definition markRead (fp : list Z) (s : Reader) : Reader :=
  mkReader (markReadLocal (rd_inbox s) fp) (rd_fp s) (rd_visible s) (rd_doc s) (rd_reads s ++ [fp]).
(** The effect on the friend, the unread number and the visibility. *)
Definition effect (s : Reader) : Reader :=
  match rd_fp s with
  | Some fp => if negb (rd_visible s) then s else if negb (rd_doc s) then s else if unread_now (rd_inbox s) fp =? 0 then s else markRead fp s
  | None => s
  end.

Inductive ReadEv := EFrame (f : Frame) | EState (st : ApiState) | ESelect (fp : option (list Z)) | EPage (shown : bool) | ETab (shown : bool).
Definition event (s : Reader) (e : ReadEv) : Reader :=
  match e with
  | EFrame f => mkReader (applyFrame (rd_inbox s) f).1 (rd_fp s) (rd_visible s) (rd_doc s) (rd_reads s)
  | EState st => mkReader (fromApiState (rd_inbox s) st) (rd_fp s) (rd_visible s) (rd_doc s) (rd_reads s)
  | ESelect fp => mkReader (rd_inbox s) fp (rd_visible s) (rd_doc s) (rd_reads s)
  | EPage b => mkReader (rd_inbox s) (rd_fp s) b (rd_doc s) (rd_reads s)
  | ETab b =>
      let s1 := mkReader (rd_inbox s) (rd_fp s) (rd_visible s) b (rd_reads s) in
      match rd_fp s with Some fp => if rd_visible s && b then markRead fp s1 else s1 | None => s1 end
  end.
Definition read_step (s : Reader) (e : ReadEv) : Reader := effect (event s e).
Definition read_run (i : InboxState) (es : list ReadEv) : Reader := fold_left read_step es (mkReader i None false true []).

(** *** Theorems *)

Lemma find_patch l fp p : (∀ f, f_fp (p f) = f_fp f) → findb (has_fp fp) (patchFriend l fp p) = p <$> findb (has_fp fp) l.
Proof.
  intros Hp. induction l as [|f l IH]; [done|]. cbn. unfold has_fp at 1 3. destruct (jeqb (f_fp f) fp) eqn:E; cbn.
  - unfold has_fp. by rewrite Hp, E.
  - rewrite E. apply IH.
Qed.
Lemma find_patch_other l fp fp' p : fp' ≠ fp → (∀ f, f_fp (p f) = f_fp f) → findb (has_fp fp') (patchFriend l fp p) = findb (has_fp fp') l.
Proof.
  intros Hn Hp. induction l as [|f l IH]; [done|]. cbn. destruct (jeqb (f_fp f) fp) eqn:E.
  - apply jeqb_eq in E. unfold has_fp at 1 3. rewrite Hp, E. assert (jeqb fp fp' = false) as -> by (apply jeqb_neq; congruence). apply IH.
  - destruct (has_fp fp' f); [done|apply IH].
Qed.
Lemma unread_after_read i fp : unread_now (markReadLocal i fp) fp <= 0.
Proof.
  unfold unread_now, markReadLocal. destruct (negb _) eqn:E.
  - apply negb_true_iff in E. rewrite someb_false in E. destruct (findb (has_fp fp) (ib_friends i)) as [f|] eqn:Hf; [|done].
    apply findb_Some in Hf as [Hin Hfp]. specialize (E f Hin). unfold has_fp in Hfp. rewrite Hfp in E. cbn in *. lia.
  - cbn [ib_friends with_friends]. rewrite find_patch by done. by destruct (findb _ _).
Qed.
Lemma unread_of_others i fp fp' : fp' ≠ fp → unread_now (markReadLocal i fp) fp' = unread_now i fp'.
Proof. intros Hn. unfold unread_now, markReadLocal. case_match; [done|]. cbn [ib_friends with_friends]. by rewrite find_patch_other. Qed.

Lemma effect_reads s fp : rd_fp (effect s) = Some fp → rd_visible (effect s) = true → rd_doc (effect s) = true → unread_now (rd_inbox (effect s)) fp <= 0.
Proof.
  unfold effect. destruct s as [i o v d r]. cbn. destruct o as [x|], v, d; cbn; try done. destruct (unread_now i x =? 0) eqn:Eu; cbn; intros [= <-] _ _.
  - apply Z.eqb_eq in Eu. lia.
  - apply unread_after_read.
Qed.


(** The host is only ever told that a conversation was read which was open on
    the page, and reading one leaves the unread numbers of all others. *)
Theorem only_open_read (i : InboxState) (es : list ReadEv) (fp : list Z) :
  (fp ∈ rd_reads (read_run i es) → ESelect (Some fp) ∈ es) ∧
  (∀ s e fp', rd_fp (event s e) ≠ Some fp' → unread_now (rd_inbox (effect (event s e))) fp' = unread_now (rd_inbox (event s e)) fp').
Proof.
  split.
  - cut ((∀ x, rd_fp (read_run i es) = Some x → ESelect (Some x) ∈ es) ∧ ∀ x, x ∈ rd_reads (read_run i es) → ESelect (Some x) ∈ es); [naive_solver|].
    induction es as [|e es [IH1 IH2]] using rev_ind; [split; [done|by intros x Hx%elem_of_nil]|].
    unfold read_run in *. rewrite fold_left_app. cbn [fold_left]. set (s := fold_left _ es _) in *. clearbody s. unfold read_step.
    assert (Hev : (∀ x, rd_fp (event s e) = Some x → ESelect (Some x) ∈ es ++ [e]) ∧ ∀ x, x ∈ rd_reads (event s e) → ESelect (Some x) ∈ es ++ [e]).
    { destruct e as [f|st|o|b|b]; cbn [event rd_fp rd_reads]; try (split; intros x Hx; apply elem_of_app; left; by eauto).
      - split; intros x Hx; apply elem_of_app; [right|left; by eauto]. rewrite Hx. by left.
      - destruct (rd_fp s) as [y|] eqn:E; [destruct (rd_visible s && b)|]; cbn [markRead rd_fp rd_reads]; (split; intros x Hx; apply elem_of_app; left); try by eauto.
        all: try (apply IH1; congruence). apply elem_of_app in Hx as [Hx|Hx%list_elem_of_singleton]; [by eauto|]. subst. by eauto. }
    destruct Hev as [H1 H2]. unfold effect. destruct (rd_fp (event s e)) as [y|] eqn:E; [|split; [congruence|done]].
    repeat case_match; (split; [cbn [markRead rd_fp]; rewrite ?E; done|]); try done.
    cbn [markRead rd_reads]. intros x [Hx|Hx%list_elem_of_singleton]%elem_of_app; [by apply H2|]. subst. by apply H1.
  - intros s e fp' Hn. unfold effect. destruct (rd_fp (event s e)) as [y|] eqn:E; [|done]. repeat case_match; try done.
    cbn [markRead rd_inbox]. apply unread_of_others. congruence.
Qed.

Definition two : InboxState := with_friends EMPTY_INBOX [mkFriend (js "f1") (js "Ann") None None None 2 2 None None None None None None None].
Definition visit : list ReadEv := [EPage true; ESelect (Some (js "f1")); EFrame (FrMessage (mkFM (js "m") (js "f1") (js "Ann") (js "hi") 5))].
Lemma only_open_read_witness : ESelect (Some (js "f1")) ∈ visit.
Proof. apply (proj1 (only_open_read two visit (js "f1"))). vm_compute. by left. Defined.
End Reading.

(** ** The messages and the composer *)

Module Bubbles.

(** The key of the text under a message of mine, and whether it reads as failed. *)
Definition statusLabel (status : option (list Z)) : list Z * bool :=
  match status with
  | Some s => if jeqb s (js "sending") then (js "page.status.sending", false) else if jeqb s (js "queued") then (js "page.status.queued", false)
              else if jeqb s (js "error") then (js "page.status.error", true) else if jeqb s (js "failed") then (js "page.status.failed", true)
              else (js "page.status.sent", false)
  | None => (js "page.status.sent", false)
  end.
(** The message with the two buttons of a failed one. *)
Definition retry_offered (e : ThreadEntry) : bool := bool_decide (te_status e = Some (js "failed")) && bool_decide (is_Some (te_clientId e)).

Section pane.
Context `{LocaleCompare} (base36 : Z → list Z).

Record FPane := mkPane { fp_fp : list Z; fp_card : bool; fp_settings : bool; fp_text : list Z; fp_page : Page }.
Definition set_text (x : list Z) (s : FPane) : FPane := mkPane (fp_fp s) (fp_card s) (fp_settings s) x (fp_page s).
Definition set_page (p : Page) (s : FPane) : FPane := mkPane (fp_fp s) (fp_card s) (fp_settings s) (fp_text s) p.
Definition set_card (b : bool) (s : FPane) : FPane := mkPane (fp_fp s) b (fp_settings s) (fp_text s) (fp_page s).

Definition on_chat (s : FPane) : bool := negb (bool_decide (nv_pane (pg_nav (fp_page s)) ∈ [THome; TMemory])).
(** The popover of the card and the panel of the settings, where they are drawn. *)
Definition card_shown (s : FPane) : bool := on_chat s && fp_card s.
Definition settings_shown (s : FPane) : bool := (on_chat s || bool_decide (nv_pane (pg_nav (fp_page s)) = THome)) && fp_settings s.

Definition sendDebug (now : Z) (s : FPane) : FPane :=
  let text := trim (fp_text s) in
  if jeqb text [] then s else set_page (send base36 (fp_fp s) text now (fp_page s)) (set_text [] s).

Inductive PaneEv :=
| EType (x : list Z) (now : Z) | EBlur | EEnter (shift composing : bool) (now : Z) | ESendClick (now : Z)
| ERetry (c : list Z) | EDiscard (c : list Z) | ECardButton | ECopyOnHome | ESettingsButton | EEscape | ESelect (fp : list Z).
(** [direct]: the setting that offers the composer. *)
Definition pane_step (direct : bool) (s : FPane) (e : PaneEv) : FPane :=
  match e with
  | EType x now => if direct && on_chat s
                   then let s1 := set_text x s in if jeqb (trim x) [] then s1 else set_page (noteTyping (fp_fp s) now (fp_page s)) s1 else s
  | EBlur => if direct && on_chat s && jeqb (trim (fp_text s)) [] then set_page (stopTyping (fp_fp s) (fp_page s)) s else s
  | EEnter shift composing now => if direct && on_chat s && negb shift && negb composing then sendDebug now s else s
  | ESendClick now => if direct && on_chat s && negb (jeqb (trim (fp_text s)) []) then sendDebug now s else s
  | ERetry c => let '(p, body) := discard (fp_fp s) c (fp_page s) in match body with Some b => set_text b (set_page p s) | None => set_page p s end
  | EDiscard c => set_page (discard (fp_fp s) c (fp_page s)).1 s
  | ECardButton => set_card (negb (fp_card s)) s
  | ECopyOnHome => set_card true (set_page (setPaneTab TChat (fp_page s)) s)
  | ESettingsButton => mkPane (fp_fp s) (fp_card s) (negb (fp_settings s)) (fp_text s) (fp_page s)
  | EEscape => if fp_card s then set_card false s else s
  | ESelect fp => if jeqb fp (fp_fp s) then s
                  else mkPane fp false false [] (if ts_loaded (thread (fp_page s) fp) then fp_page s else load fp None (fp_page s))
  end.

(** *** Theorems *)

(** Retrying a failed message takes it out of the thread and puts its text in
    the composer, in place of what was there; nothing is sent until the owner
    sends it. *)
Theorem retry_moves_text (direct : bool) (s : FPane) (c : list Z) (e : ThreadEntry)
    (He : findb (has_client c) (ts_entries (thread (fp_page s) (fp_fp s))) = Some e) :
  let s' := pane_step direct s (ERetry c) in
  fp_text s' = te_body e ∧ findb (has_client c) (ts_entries (thread (fp_page s') (fp_fp s))) = None ∧ pg_calls (fp_page s') = pg_calls (fp_page s).
Proof.
  cbn [pane_step]. unfold discard. rewrite He. cbn [fmap option_fmap option_map]. split; [done|]. split; [|done].
  cbn [set_text set_page fp_page fp_fp]. apply findb_None. intros x Hx.
  unfold thread at 1 in Hx. unfold setThread, set_threads in Hx. cbn [pg_threads] in Hx. rewrite map_get_set, jeqb_refl in Hx. cbn in Hx.
  unfold dropEntry in Hx. cbn in Hx. apply elem_of_filterb in Hx as [_ Hx]. by apply negb_true_iff in Hx.
Qed.

Definition sends (p : Page) : list Call := filterb (λ c, match c with CSend _ _ => true | _ => false end) (pg_calls p).

Lemma load_sends fp p : sends (load fp None p) = sends p ∧ pg_typed (load fp None p) = pg_typed p.
Proof. unfold load, sends. repeat case_match; try done. cbn. by rewrite filterb_app, app_nil_r. Qed.

(** Without the debug setting the pane is read-only: no click or key in it
    sends a message or tells the friend that the owner is typing. *)
Theorem pane_read_only (s : FPane) (es : list PaneEv) :
  let s' := fold_left (pane_step false) es s in
  sends (fp_page s') = sends (fp_page s) ∧ pg_typed (fp_page s') = pg_typed (fp_page s).
Proof.
  cbv zeta. apply (run_inv _ (λ x, sends (fp_page x) = sends (fp_page s) ∧ pg_typed (fp_page x) = pg_typed (fp_page s))); [done|].
  intros x e Hx. destruct e as [y now| |sh co now|now|c|c| | | | |fp]; cbn [pane_step andb]; try done.
  - unfold discard. by case_match.
  - unfold setPaneTab. cbn. by case_match.
  - by case_match.
  - case_match; [done|]. cbn [fp_page]. case_match; [done|]. by destruct (load_sends fp (fp_page x)) as [-> ->].
Qed.

(** What the composer sends is the trimmed text of the box, to the friend of
    the pane, and the box is empty afterwards. *)
Theorem composer_sends_trimmed (s : FPane) (now : Z) (Hc : on_chat s = true) (Hx : trim (fp_text s) ≠ []) :
  pane_step true s (ESendClick now) = set_page (send base36 (fp_fp s) (trim (fp_text s)) now (fp_page s)) (set_text [] s) ∧
  pane_step true s (EEnter false false now) = pane_step true s (ESendClick now).
Proof. cbn [pane_step andb]. rewrite Hc. apply jeqb_neq in Hx. rewrite Hx. cbn [negb andb]. unfold sendDebug. by rewrite Hx. Qed.

(** The card button of the friend's own page opens nothing there: the popover
    is part of the conversation tab, where it appears later. *)
Theorem home_card_silent (direct : bool) (s : FPane) (Hh : nv_pane (pg_nav (fp_page s)) = THome) (Hc : fp_card s = false) :
  let s' := pane_step direct s ECardButton in
  card_shown s' = false ∧ card_shown (set_page (setPaneTab TChat (fp_page s')) s') = true.
Proof.
  cbn [pane_step]. unfold card_shown, on_chat, setPaneTab. cbn. rewrite Hh, Hc. split; [done|]. by vm_compute.
Qed.
End pane.

Definition failed_entry : ThreadEntry := mkTE 0 dir_out (js "id") (js "hello") 5 None None None None None (Some (js "failed")) None (Some (js "c1")) (Some (js "offline")).
Definition failed_thread : ThreadState := mkTS [failed_entry] 0 true false true None.
Definition stuck : FPane := mkPane (js "f1") false false (js "other text") (set_threads [(js "f1", failed_thread)] (new_page None)).
Definition same36 (z : Z) : list Z := dec z.
Lemma retry_moves_text_witness : fp_text (pane_step same36 true stuck (ERetry (js "c1"))) = js "hello".
Proof. apply (retry_moves_text same36 true stuck (js "c1") failed_entry). vm_compute. reflexivity. Defined.
Lemma composer_sends_trimmed_witness : pane_step same36 true stuck (EEnter false false 9) = pane_step same36 true stuck (ESendClick 9).
Proof. apply (composer_sends_trimmed same36 stuck 9); vm_compute; done. Defined.
Lemma home_card_silent_witness :
  let s := set_page (set_nav (mkNav true (Some (js "f1")) TabMessages THome) (fp_page stuck)) stuck in card_shown (pane_step same36 false s ECardButton) = false.
Proof. intros s. apply (home_card_silent same36 false s); reflexivity. Defined.
End Bubbles.

(** ** The settings of a friend *)

Module Panel.

(** The row of the friend as the panel reads it. *)
Record Row := mkRow { rw_tier : option ReplyTier; rw_explicit : bool; rw_protocol : option (list Z); rw_muted : bool }.
Record Panel := mkPanel { pn_draft : list Z; pn_busy : bool; pn_note : option (option (list Z)) }.    (** saved, or the error *)

Definition mount (r : Row) : Panel := mkPanel (rw_protocol r ?? []) false None.
(** The effect on the friend and the stored override. *)
Definition rerender (old new : Row) (same_friend : bool) (s : Panel) : Panel :=
  if same_friend && bool_decide (rw_protocol old = rw_protocol new) then s else mkPanel (rw_protocol new ?? []) (pn_busy s) (pn_note s).
(** What [TierSelect] shows, and its change: [None] is "as the default". *)
Definition shown_tier (r : Row) : option ReplyTier := if rw_explicit r then rw_tier r else None.

Inductive PanelEv := EPickTier (t : option ReplyTier) | EMute (b : bool) | EType (x : list Z) | ESaveProtocol | ESaved | EFailed (m : list Z).
Definition patch_tier (t : option ReplyTier) : FriendPatch := mkFPatch None None (Some (match t with Some t => tier_str t | None => [] end)) None.
Definition panel_step (r : Row) (s : Panel) (e : PanelEv) : Panel * option FriendPatch :=
  let save p := (mkPanel (pn_draft s) true None, Some p) in
  match e with
  | EPickTier t => if pn_busy s then (s, None) else save (patch_tier t)
  | EMute b => if pn_busy s then (s, None) else save (mkFPatch None None None (Some b))
  | EType x => (mkPanel x (pn_busy s) (pn_note s), None)
  | ESaveProtocol => if pn_busy s || jeqb (pn_draft s) (rw_protocol r ?? []) then (s, None) else save (mkFPatch None (Some (pn_draft s)) None None)
  | ESaved => if pn_busy s then (mkPanel (pn_draft s) false (Some None), None) else (s, None)
  | EFailed m => if pn_busy s then (mkPanel (pn_draft s) false (Some (Some m)), None) else (s, None)
  end.

(** *** Theorems *)

(** The host reads back from every request of the panel what the owner chose,
    and nothing else: the tier picked, with the default clearing the friend's
    own, the mute switch, or the text of the box; its check of the tier never
    refuses a panel's request, and one control never touches what another
    one shows. *)
Theorem panel_request_read (fp : list Z) (r : Row) (s : Panel) (e : PanelEv) (p : FriendPatch)
    (Hp : (panel_step r s e).2 = Some p) :
  let body := body_of (AFriendSet fp p) in
  pn_busy s = false ∧ tier_valid (get body (js "tier")) = true ∧ get body (js "note") = None ∧
  match e with
  | EPickTier t => is_Some (get body (js "tier")) ∧ tier_of (get body (js "tier")) = t ∧ as_string (get body (js "protocol")) = None ∧ flag (get body (js "muted")) = None
  | EMute b => get body (js "tier") = None ∧ as_string (get body (js "protocol")) = None ∧ flag (get body (js "muted")) = Some b
  | _ => get body (js "tier") = None ∧ as_string (get body (js "protocol")) = Some (pn_draft s) ∧ flag (get body (js "muted")) = None
  end.
Proof.
  destruct e as [t|b|x| | |m]; cbn [panel_step snd] in Hp; destruct (pn_busy s); cbn [orb] in Hp; try done.
  - injection Hp as <-. destruct t as [[]|]; cbn; split_and!; done || by eexists.
  - injection Hp as <-. cbn. by destruct b.
  - destruct (jeqb _ _); [done|]. injection Hp as <-. by cbn.
Qed.

(** Picking a tier or muting while a protocol text waits in the box leaves
    the text: the refresh after the save brings the same stored override. *)
Theorem draft_survives_save (r r' : Row) (s : Panel) (e : PanelEv) (Hr : rw_protocol r' = rw_protocol r) (He : ∀ x, e ≠ EType x) :
  pn_draft (rerender r r' true (panel_step r' (panel_step r s e).1 ESaved).1) = pn_draft s.
Proof.
  unfold rerender. rewrite Hr, bool_decide_eq_true_2 by done. cbn [andb].
  destruct s as [d b n]. destruct e as [t|m|x| | |m]; try (by destruct (He x)); destruct b; cbn; try done. by destruct (jeqb _ _).
Qed.
Lemma panel_request_read_witness :
  let body := body_of (AFriendSet (js "f1") (patch_tier None)) in is_Some (get body (js "tier")) ∧ tier_of (get body (js "tier")) = None.
Proof.
  destruct (panel_request_read (js "f1") (mkRow (Some Auto) true None false) (mount (mkRow (Some Auto) true None false)) (EPickTier None) (patch_tier None) eq_refl)
    as (_ & _ & _ & H1 & H2 & _). by split.
Defined.
Lemma draft_survives_save_witness :
  pn_draft (rerender (mkRow None false None false) (mkRow (Some Auto) true None false) true
    (panel_step (mkRow (Some Auto) true None false) (panel_step (mkRow None false None false) (mkPanel (js "be brief") false None) (EPickTier (Some Auto))).1 ESaved).1) = js "be brief".
Proof. by apply (draft_survives_save (mkRow None false None false) (mkRow (Some Auto) true None false)). Defined.
End Panel.
