(* ===== verification/AgentsSheet.v ===== *)
(** * Who may command an agent in a group (client/GroupAgentsSheet.tsx with
      the room's [setCommanders] and the host's group settings)

    The sheet shows a mode per agent, remembered by the sheet itself, and the
    boxes of the members; every change is a request that the host applies to
    its settings file and answers with the settings, which the room then
    shows.  The model runs the sheet against the store of [GroupSettings], so
    that what the sheet says and what the gate of the host will read can be
    compared. *)

From S2P Require Import Prelude JsString JsMap Json GroupSettings Network RoomComposer.
#[local] Open Scope Z_scope.

Record Sheet := mkSheet {
  sh_gid : list Z;
  sh_modes : list (list Z * CommanderMode);                  (** [modeOverride] *)
  sh_cmds : list (list Z * list (list Z));                   (** [voiceCommanders] of the room *)
  sh_out : list (list Z * list (list Z));                    (** the requests not yet answered *)
  sh_host : GroupSettingsStore }.

Definition list_of (s : Sheet) (name : list Z) : list (list Z) := map_get (sh_cmds s) name ?? [].
Definition custom_of (s : Sheet) (name : list Z) : list (list Z) := filterb (λ c, negb (jeqb c (js "*"))) (list_of s name).
(** What the select of an agent shows. *)
Definition shown_mode (s : Sheet) (name : list Z) : CommanderMode := map_get (sh_modes s) name ?? RoomComposer.modeOf (list_of s name).
Definition others (members : list GroupMember) (myFp : list Z) : list GroupMember := filterb (λ m, negb (jeqb (mb_fp m) myFp)) members.

(** [onCommanders]: the room's [setCommanders], which changes nothing before the answer. *)
Definition onCommanders (name : list Z) (l : list (list Z)) (s : Sheet) : Sheet :=
  mkSheet (sh_gid s) (sh_modes s) (sh_cmds s) (sh_out s ++ [(name, l)]) (sh_host s).
Definition mode_list (s : Sheet) (name : list Z) (m : CommanderMode) : list (list Z) :=
  match m with CmAny => [js "*"] | CmOwner => [] | CmCustom => custom_of s name end.
Definition pick_mode (name : list Z) (m : CommanderMode) (s : Sheet) : Sheet :=
  onCommanders name (mode_list s name m) (mkSheet (sh_gid s) (map_set (sh_modes s) name m) (sh_cmds s) (sh_out s) (sh_host s)).
Definition tick_list (s : Sheet) (name fp : list Z) (checked : bool) : list (list Z) :=
  if checked then custom_of s name ++ [fp] else filterb (λ c, negb (jeqb c fp)) (custom_of s name).
Definition tick (name fp : list Z) (checked : bool) (s : Sheet) : Sheet := onCommanders name (tick_list s name fp checked) s.

(** The host applies a request and answers; [applySettings] of the room. *)
Definition commanders_patch (name : list Z) (l : list (list Z)) : GroupSettingsPatch := mkPatch None None (Some (mkVP name true (Some l))) DutyKeep None.
Definition answer (i : nat) (s : Sheet) : Sheet :=
  match sh_out s !! i with
  | None => s
  | Some (name, l) =>
      let '(host, r) := set_group true (sh_gid s) (commanders_patch name l) (sh_host s) in
      mkSheet (sh_gid s) (sh_modes s) (match r with Some g => voice_cmds (gs_voices g ?? ∅) | None => sh_cmds s end) (delete i (sh_out s)) host
  end.
(** A request that does not reach the host: [.catch(() => {})]. *)
Definition lose (i : nat) (s : Sheet) : Sheet := mkSheet (sh_gid s) (sh_modes s) (sh_cmds s) (delete i (sh_out s)) (sh_host s).

Inductive SheetEv := EMode (name : list Z) (m : CommanderMode) | ETick (name fp : list Z) (checked : bool) | EAnswer (i : nat) | ELost (i : nat).
Definition sheet_step (s : Sheet) (e : SheetEv) : Sheet :=
  match e with EMode n m => pick_mode n m s | ETick n fp b => tick n fp b s | EAnswer i => answer i s | ELost i => lose i s end.
Definition sheet_run (s : Sheet) (es : list SheetEv) : Sheet := fold_left sheet_step es s.

(** ** Theorems *)

Lemma map_get_cmds (vs : gmap (list Z) GroupVoiceSetting) (name : list Z) : map_get (voice_cmds vs) name = vs !! name ≫= vo_commanders.
Proof.
  unfold voice_cmds. assert (Hl : ∀ k v, (k, v) ∈ map_to_list vs ↔ vs !! k = Some v) by (intros; apply elem_of_map_to_list).
  assert (Hnd : NoDup (map_to_list vs).*1) by apply NoDup_fst_map_to_list.
  assert (Hgen : ∀ l : list (list Z * GroupVoiceSetting), NoDup l.*1 → ∀ k,
     map_get (omap (λ kv, (pair kv.1) <$> vo_commanders kv.2) l) k = (snd <$> findb (λ kv, jeqb kv.1 k) l) ≫= vo_commanders).
  { induction l as [|[k v] l IH]; intros Hn k0; [done|]. cbn in Hn. apply NoDup_cons in Hn as [Hk Hn]. cbn. destruct (jeqb k k0) eqn:E.
    - apply jeqb_eq in E as <-. cbn. destruct (vo_commanders v) eqn:Ev; cbn; [by rewrite jeqb_refl|]. rewrite IH by done.
      destruct (findb _ l) as [[k1 v1]|] eqn:Ef; [|done]. apply findb_Some in Ef as [Hin Ek]. cbn in Ek. apply jeqb_eq in Ek as ->.
      destruct Hk. apply list_elem_of_fmap. by exists (k, v1).
    - destruct (vo_commanders v); cbn; rewrite ?E; by apply IH. }
  rewrite Hgen by done. destruct (findb _ (map_to_list vs)) as [[k v]|] eqn:Ef; cbn.
  - apply findb_Some in Ef as [Hin Ek]. cbn in Ek. apply jeqb_eq in Ek as ->. apply Hl in Hin. by rewrite Hin.
  - destruct (vs !! name) as [v|] eqn:Ev; [|done]. apply Hl in Ev. rewrite findb_None in Ef. specialize (Ef _ Ev). cbn in Ef. by rewrite jeqb_refl in Ef.
Qed.

Lemma stored_list (g : GroupSettingsStore) (gid name : list Z) (l : list (list Z)) (Hn : trim name ≠ []) :
  commandersOf (set_group true gid (commanders_patch name l) g).1 gid name = normalizeCommanders (Some (JArr (map JStr l))) ∧
  (∃ v, (set_group true gid (commanders_patch name l) g).2 = Some v ∧
        map_get (voice_cmds (gs_voices v ?? ∅)) name ?? [] = normalizeCommanders (Some (JArr (map JStr l)))).
Proof.
  unfold set_group, commanders_patch. rewrite patched_voice. cbv zeta. apply jeqb_neq in Hn. unfold switchVoice. rewrite Hn. cbn [fst snd mbind option_bind].
  set (c := normalizeCommanders _). clearbody c. set (vs := gs_voices (get_group g gid) ?? ∅).
  assert (Hvs : opt_map (<[name := mkVoice (opt_list c)]> vs) = Some (<[name := mkVoice (opt_list c)]> vs)).
  { apply opt_map_Some. split; [done|]. apply insert_non_empty. }
  rewrite Hvs. set (e := mkGS _ _ _). assert (He : bool_decide (e = empty_settings) = false) by (apply bool_decide_eq_false_2; by unfold e).
  assert (Hc : opt_list c ?? [] = c) by (by destruct c). split.
  - unfold commandersOf, voice_of, persist. cbn [st_data]. rewrite lookup_put_entry, decide_True, He by done. unfold e. cbn [mbind option_bind gs_voices].
    rewrite lookup_insert_eq. cbn. by destruct c.
  - exists e. split.
    + unfold persist. f_equal. unfold get_group. cbn [st_data]. by rewrite lookup_put_entry, decide_True, He.
    + unfold e. cbn [gs_voices default]. change (Some ?x ?? ∅) with x. rewrite map_get_cmds, lookup_insert_eq. cbn. by destruct c.
Qed.

Lemma answer_stores (s : Sheet) (name : list Z) (l : list (list Z)) (rest : list (list Z * list (list Z))) (Hn : trim name ≠ []) (Ho : sh_out s = (name, l) :: rest) :
  let s' := answer 0 s in
  sh_out s' = rest ∧ sh_modes s' = sh_modes s ∧ sh_gid s' = sh_gid s ∧
  commandersOf (sh_host s') (sh_gid s) name = normalizeCommanders (Some (JArr (map JStr l))) ∧
  list_of s' name = normalizeCommanders (Some (JArr (map JStr l))).
Proof.
  cbv zeta. unfold answer. rewrite Ho. cbn [lookup list_lookup].
  destruct (stored_list (sh_host s) (sh_gid s) name l Hn) as [H1 (v & H2 & H3)].
  destruct (set_group true (sh_gid s) (commanders_patch name l) (sh_host s)) as [host r]. cbn [fst snd] in *. subst r. by split_and!.
Qed.


(** C14. A write that is lost is not seen: the sheet goes on to show "only me"
    while the host still lets anyone command the agent. *)
Theorem lost_write_misleads (s : Sheet) (name : list Z) (Ho : sh_out s = []) (Ha : COMMANDER_ANY ∈ commandersOf (sh_host s) (sh_gid s) name) :
  let s' := sheet_run s [EMode name CmOwner; ELost 0] in
  shown_mode s' name = CmOwner ∧ sh_out s' = [] ∧ COMMANDER_ANY ∈ commandersOf (sh_host s') (sh_gid s') name.
Proof.
  cbv zeta. cbn [sheet_run fold_left sheet_step]. unfold lose, pick_mode, onCommanders, shown_mode. cbn. rewrite Ho.
  split_and!; [by rewrite map_get_set, jeqb_refl|done|done].
Qed.

(** Two boxes ticked before the first answer: each request is made from the
    list on the screen, so the second one drops the first member again. *)
Theorem second_tick_drops_first (s : Sheet) (name a b : list Z)
    (Hn : trim name ≠ []) (Ho : sh_out s = []) (Hab : a ≠ b) (Hs : js "*" ∉ list_of s name) (Ha : a ∉ list_of s name)
    (Hwf : commanders_wf (list_of s name ++ [b])) :
  let s' := sheet_run s [ETick name a true; ETick name b true; EAnswer 0; EAnswer 0] in
  commandersOf (sh_host s') (sh_gid s) name = list_of s name ++ [b] ∧ a ∉ commandersOf (sh_host s') (sh_gid s) name.
Proof.
  cbv zeta. cbn [sheet_run fold_left sheet_step].
  assert (Hcu : custom_of s name = list_of s name).
  { unfold custom_of. apply filterb_all. intros c Hc. apply negb_true_iff, jeqb_neq. congruence. }
  set (t := tick name b true (tick name a true s)).
  assert (Hout : sh_out t = [(name, list_of s name ++ [a]); (name, list_of s name ++ [b])]).
  { unfold t, tick, onCommanders, tick_list. cbn [sh_out]. rewrite Ho. cbn [app]. rewrite Hcu. change (custom_of _ name) with (custom_of s name). by rewrite Hcu. }
  destruct (answer_stores t name _ _ Hn Hout) as (H1 & _ & Hg & _). destruct (answer_stores (answer 0 t) name _ _ Hn H1) as (_ & _ & _ & H4 & _).
  rewrite Hg in H4. change (sh_gid t) with (sh_gid s) in H4. rewrite H4, normalizeCommanders_id by done. split; [done|].
  intros [Hc|Hc%list_elem_of_singleton]%elem_of_app; congruence.
Qed.

Definition open_to_all : Sheet :=
  mkSheet (js "g1") [] [(js "Coder", [js "*"])] []
    (set_group true (js "g1") (commanders_patch (js "Coder") [js "*"]) (store_at None)).1.
Definition nobody_else : Sheet :=
  mkSheet (js "g1") [(js "Coder", CmCustom)] [] [] (set_group true (js "g1") (commanders_patch (js "Coder") []) (store_at None)).1.
Lemma lost_write_misleads_witness :
  shown_mode (sheet_run open_to_all [EMode (js "Coder") CmOwner; ELost 0]) (js "Coder") = CmOwner.
Proof. apply (lost_write_misleads open_to_all (js "Coder")); [reflexivity|]. vm_compute. by left. Defined.
Lemma second_tick_drops_first_witness :
  commandersOf (sh_host (sheet_run nobody_else [ETick (js "Coder") (js "f1") true; ETick (js "Coder") (js "f2") true; EAnswer 0; EAnswer 0])) (js "g1") (js "Coder") = [js "f2"].
Proof.
  apply (second_tick_drops_first nobody_else (js "Coder") (js "f1") (js "f2")); [vm_compute; done|reflexivity|done|apply not_elem_of_nil|apply not_elem_of_nil|].
  split; [apply NoDup_singleton|split; [cbn; unfold MAX_COMMANDERS; lia|]]. intros c Hc. apply list_elem_of_singleton in Hc as ->. by vm_compute.
Defined.
