(* ===== verification/ThreadSync.v ===== *)
(** * Threads on the page and archives on the host

    A thread of the page is fed from four sides: archive pages, live frames,
    the answers to the owner's own sends, and the bubbles drawn before such an
    answer.  They come in any order, some late, some twice, some never.  This
    file follows every thread through arbitrary runs of the page's store
    against an archive on the host: what is shown stays a selection of the
    archive's lines, in order, followed by the sends that are not archived yet. *)

From S2P Require Import Prelude JsString JsMap JsSort Json Policy AlterChat PageState PageStore.
From stdpp Require Import sorting.
#[local] Open Scope Z_scope.

(** ** Names of bubbles *)

(** The code units of a text of digits. *)
Definition codes (s : string) : list Z := map (λ c, Z.of_N (Ascii.N_of_ascii c)) (String.list_ascii_of_string s).
Definition digits (s : string) : Prop := Forall (λ z, 48 <= z <= 57) (codes s).
Lemma utf16_ascii l : Forall (λ z, 48 <= z <= 57) l → utf16 l = l.
Proof. induction 1 as [|z l Hz _ IH]; [done|]. cbn. rewrite (proj2 (Z.ltb_lt z 128)) by lia. by rewrite IH. Qed.
Lemma js_digits s : digits s → js s = codes s.
Proof. apply utf16_ascii. Qed.
Lemma codes_inj s t : codes s = codes t → s = t.
Proof.
  revert t. induction s as [|x s IH]; intros [|y t] E; try done. cbn in E. injection E as E1 E2.
  f_equal; [|by apply IH]. apply N2Z.inj in E1. rewrite <- (Ascii.ascii_N_embedding x), <- (Ascii.ascii_N_embedding y). by f_equal.
Qed.
Lemma pretty_go_digits x s : digits s → digits (pretty_N_go x s).
Proof.
  revert s. induction (N.lt_wf_0 x) as [x _ IH]; intros s Hs. assert (x = 0 ∨ 0 < x)%N as [->|Hx] by lia; [done|].
  rewrite pretty_N_go_step by done. apply IH; [by apply N.div_lt|]. constructor; [|done].
  unfold pretty_N_char. repeat case_match; by vm_compute.
Qed.
Lemma pretty_digits n : 0 < n → digits (pretty n).
Proof.
  destruct n as [|p|p]; try lia. intros _. unfold pretty, pretty_Z, pretty, pretty_positive, pretty, pretty_N.
  case_decide; [done|]. apply pretty_go_digits. constructor.
Qed.
Lemma dec_inj m n : 0 < m → 0 < n → dec m = dec n → m = n.
Proof. intros Hm Hn. unfold dec. rewrite !js_digits by by apply pretty_digits. intros E%codes_inj. by apply (inj pretty). Qed.
Lemma dec_no_dash n : 0 < n → 45 ∉ dec n.
Proof.
  intros Hn Hin. unfold dec in Hin. rewrite js_digits in Hin by by apply pretty_digits.
  pose proof (proj1 (Forall_forall _ _) (pretty_digits n Hn) _ Hin). cbn in *. lia.
Qed.

(** Two texts that end in a dash and a dash-free part have the same last part. *)
Lemma last_part (a b d e : list Z) : 45 ∉ d → 45 ∉ e → a ++ 45 :: d = b ++ 45 :: e → d = e.
Proof.
  intros Hd He E. assert (reverse d ++ 45 :: reverse a = reverse e ++ 45 :: reverse b) as E'.
  { apply (f_equal reverse) in E. rewrite !reverse_app, !reverse_cons, <- !(assoc_L app) in E. exact E. }
  assert (45 ∉ reverse d) as Hd' by by rewrite elem_of_reverse. assert (45 ∉ reverse e) as He' by by rewrite elem_of_reverse.
  rewrite <- (reverse_involutive d), <- (reverse_involutive e). f_equal.
  revert E' Hd' He'. generalize (reverse d) (reverse e). clear. intros d. induction d as [|x d IH]; intros [|y e]; cbn; intros E Hd He; simplify_eq.
  - done.
  - set_solver.
  - set_solver.
  - f_equal. apply IH; [done|set_solver..].
Qed.

Lemma client_id_seq (base36 : Z → list Z) now now' q q' : 0 < q → 0 < q' → client_id base36 now q = client_id base36 now' q' → q = q'.
Proof.
  intros Hq Hq' E. unfold client_id in E. apply dec_inj; [done..|]. apply (last_part (js "local-" ++ base36 now) (js "local-" ++ base36 now')); [by apply dec_no_dash..|].
  rewrite <- !(assoc_L app). exact E.
Qed.
Lemma client_id_local (base36 : Z → list Z) now q : startsWith (client_id base36 now q) (js "local-") = true.
Proof. apply startsWith_app. Qed.

(** ** The archive and what a thread may show of it *)

(** A line of a conversation's archive: what every copy of it agrees on (an
    entry made up from a receipt carries the page's own time). *)
Record Line := mkLine { ln_dir : Dir; ln_id : list Z; ln_body : list Z }.
Definition line_of (e : ThreadEntry) : Line := mkLine (te_dir e) (te_id e) (te_body e).
Definition FAILED : option (list Z) := Some (js "failed").
Definition SENDING : option (list Z) := Some (js "sending").
Definition local (x : list Z) : bool := startsWith x (js "local-").

(** The host's archive of the conversation [key]: line [n] of it.  Lines are
    appended and never rewritten, each message is one line, and no message
    carries an id of the page's own. *)
Class Archive := {
  line : list Z → Z → Line;
  line_once : ∀ key m n, 0 < m → 0 < n → ln_id (line key m) = ln_id (line key n) → m = n;
  line_foreign : ∀ key n, local (ln_id (line key n)) = false }.

Section sync.
Context `{LocaleCompare} `{Archive} (base36 : Z → list Z).

(** A true copy of a line with its number, and one without (a live frame or a
    receipt that carries none). *)
Definition numbered (key : list Z) (e : ThreadEntry) : Prop := 0 < te_seq e ∧ line_of e = line key (te_seq e).
Definition loose (key : list Z) (e : ThreadEntry) : Prop :=
  te_seq e <= 0 ∧ ∃ n, 0 < n ∧ line_of e = line key n.
Definition copy (key : list Z) (e : ThreadEntry) : Prop := (numbered key e ∨ loose key e) ∧ te_status e ≠ FAILED.
(** A bubble of a send whose line is not known here. *)
Definition bubble (e : ThreadEntry) : Prop :=
  te_seq e = 0 ∧ te_clientId e = Some (te_id e) ∧ local (te_id e) = true ∧ (te_status e = SENDING ∨ te_status e = FAILED).

(** Numbered lines come first, in the order of their numbers. *)
Definition lines_le (a b : ThreadEntry) : Prop := 0 < te_seq b → 0 < te_seq a ∧ te_seq a <= te_seq b.

(** What holds of the entries of a thread in any order; [named c]: the page has used [c] as the name of a bubble. *)
Record held (key : list Z) (named : list Z → Prop) (l : list ThreadEntry) : Prop := {
  he_nodup : NoDup (map te_id l);
  he_shown : ∀ e, e ∈ l → copy key e ∨ bubble e;
  he_named : ∀ e c, e ∈ l → te_clientId e = Some c → named c;
  he_once : ∀ e e' c, e ∈ l → e' ∈ l → te_clientId e = Some c → te_clientId e' = Some c → e = e' }.

Lemma copy_line key e : copy key e → ∃ n, 0 < n ∧ line_of e = line key n ∧ (0 < te_seq e → n = te_seq e).
Proof. intros [[[Hs E]|(Hs & n & Hn)] _]; [by exists (te_seq e)|]. exists n. naive_solver lia. Qed.
Lemma copy_id key e : copy key e → 0 < te_seq e → te_id e = ln_id (line key (te_seq e)).
Proof. intros [[[_ E]|[? _]] _] Hs; [by rewrite <- E|lia]. Qed.
Lemma copy_foreign key e : copy key e → local (te_id e) = false.
Proof. intros (n & _ & E & _)%copy_line. change (te_id e) with (ln_id (line_of e)). rewrite E. apply line_foreign. Qed.
Lemma copy_not_bubble key e : copy key e → bubble e → False.
Proof. intros Hc%copy_foreign (_ & _ & Hl & _). congruence. Qed.
Lemma same_line key a b : copy key a → copy key b → te_id a = te_id b → 0 < te_seq a → 0 < te_seq b → te_seq a = te_seq b.
Proof. intros Ha Hb E Pa Pb. apply (line_once key); [done..|]. by rewrite <- (copy_id _ _ Ha), <- (copy_id _ _ Hb). Qed.
Lemma nodup_ids (l : list ThreadEntry) i j a b : NoDup (map te_id l) → l !! i = Some a → l !! j = Some b → te_id a = te_id b → i = j.
Proof.
  intros Hnd Ha Hb E. eapply (NoDup_lookup (te_id <$> l)); [exact Hnd|..]; rewrite list_lookup_fmap; [by rewrite Ha|rewrite Hb; cbn; by rewrite E].
Qed.
Lemma held_same_id key named l a b : held key named l → a ∈ l → b ∈ l → te_id a = te_id b → a = b.
Proof.
  intros [Hnd _ _ _] [i Hi]%list_elem_of_lookup [j Hj]%list_elem_of_lookup E. assert (i = j) as -> by by eapply nodup_ids. congruence.
Qed.

Lemma held_perm key named l l' : Permutation l' l → held key named l → held key named l'.
Proof.
  intros Hp [H1 H2 H3 H4]. split.
  - assert (Permutation (map te_id l') (map te_id l)) as Hm by by rewrite Hp. by rewrite Hm.
  - intros e. rewrite Hp. apply H2.
  - intros e c. rewrite Hp. apply H3.
  - intros e e' c. rewrite !Hp. apply H4.
Qed.
Lemma held_sublist key named l l' : l' `sublist_of` l → held key named l → held key named l'.
Proof.
  intros Hs [H1 H2 H3 H4]. assert (∀ e, e ∈ l' → e ∈ l) as Hin by (intros e He; eapply elem_of_submseteq; [done|by apply sublist_submseteq]).
  split; [|eauto..]. eapply sublist_NoDup; [exact H1|]. by apply fmap_sublist.
Qed.
Lemma held_weaken key (named named' : list Z → Prop) l : (∀ c, named c → named' c) → held key named l → held key named' l.
Proof. intros Hn [H1 H2 H3 H4]. split; eauto. Qed.
Lemma sorted_lines l : StronglySorted lines_le (sortThread l).
Proof.
  eapply StronglySorted_ind; [| |apply sortThread_sorted]; [constructor|]. intros e l' _ IH Hf. constructor; [done|].
  eapply Forall_impl; [exact Hf|]. intros x Hx. unfold le_rel in Hx. apply thread_le_iff in Hx. unfold lines_le. lia.
Qed.

(** ** Folding lines into a thread *)

(** The indexes of a merge: by id exactly, by number at least to the right message. *)
Record indexed (key : list Z) (m : MergeState) : Prop := {
  ix_id : ∀ x i, ms_byId m !! x = Some i ↔ ∃ e, ms_next m !! i = Some e ∧ te_id e = x;
  ix_seq : ∀ q i, ms_bySeq m !! q = Some i → ∃ e, ms_next m !! i = Some e ∧ te_id e = ln_id (line key q) }.

Lemma held_indexed key named l : held key named l → indexed key (index_entries l).
Proof.
  intros Hh. pose proof Hh as [Hnd Hsh _ _]. assert (∀ e, e ∈ l → 0 < te_seq e → copy key e) as Hc.
  { intros e He Hs. destruct (Hsh e He) as [?|(? & _)]; [done|lia]. }
  split; cbn.
  - intros x i. rewrite index_by_spec; [unfold id_key; naive_solver|]. intros i1 i2 a b k Ha Hb [= <-] [= E]. by eapply nodup_ids.
  - intros q i. rewrite index_by_spec.
    + intros (e & He & Hq). exists e. split; [done|]. unfold seq_key in Hq. destruct (Z.ltb_spec 0 (te_seq e)); [|done]. injection Hq as <-.
      apply copy_id; [|done]. apply Hc; [by eapply list_elem_of_lookup_2|done].
    + intros i1 i2 a b k Ha Hb Hka Hkb. unfold seq_key in *.
      destruct (Z.ltb_spec 0 (te_seq a)), (Z.ltb_spec 0 (te_seq b)); try done. simplify_eq. eapply nodup_ids; [done..|].
      assert (a ∈ l ∧ b ∈ l) as [Hla Hlb] by (split; by eapply list_elem_of_lookup_2). rewrite (copy_id key a), (copy_id key b); auto; congruence.
Qed.

(** One round of the merge: the entry is appended, or laid over the one of the same message. *)
Lemma merge_step_cases key m e :
  indexed key m → copy key e →
  indexed key (merge_step m e) ∧
  ((ms_next (merge_step m e) = ms_next m ++ [e] ∧ te_id e ∉ map te_id (ms_next m)) ∨
   ∃ i p, ms_next m !! i = Some p ∧ te_id p = te_id e ∧ ms_next (merge_step m e) = <[i := merge_entry p e]> (ms_next m)).
Proof.
  intros [HI HS] Hc. unfold merge_step. set (idx := match (if 0 <? te_seq e then ms_bySeq m !! te_seq e else None) with Some i => Some i | None => ms_byId m !! te_id e end).
  assert (idx = ms_byId m !! te_id e) as ->.
  { unfold idx. destruct (Z.ltb_spec 0 (te_seq e)) as [Hs|]; [|done]. destruct (ms_bySeq m !! te_seq e) as [i|] eqn:Ei; [|done].
    symmetry. apply HI. apply HS in Ei as (p & Hp & E). exists p. by rewrite (copy_id _ _ Hc Hs). }
  destruct (ms_byId m !! te_id e) as [i|] eqn:Ei.
  - apply HI in Ei as Hf. destruct Hf as (p & Hp & Hid). rewrite Hp. cbn [te_id te_seq merge_entry]. rewrite Hid, jeqb_refl. cbn [ms_next]. split; [|right; eauto].
    assert (<[i := merge_entry p e]> (ms_next m) !! i = Some (merge_entry p e)) as Hi by (apply list_lookup_insert_eq; by eapply lookup_lt_Some).
    assert (∀ x j, (∃ a, ms_next m !! j = Some a ∧ te_id a = x) ↔ ∃ a, <[i := merge_entry p e]> (ms_next m) !! j = Some a ∧ te_id a = x) as Hsame.
    { intros x j. destruct (decide (j = i)) as [->|Hj]; [rewrite Hi, Hp|by rewrite list_lookup_insert_ne]. cbn. naive_solver. }
    split; cbn [ms_byId ms_bySeq ms_next].
    + intros x j. rewrite (insert_id _ _ _ Ei), HI. apply Hsame.
    + intros q j. destruct (Z.ltb_spec 0 (te_seq e)) as [Hs|]; [|intros Hq%HS; by apply Hsame].
      destruct (decide (te_seq e = q)) as [<-|Hq]; [|rewrite lookup_insert_ne by done; intros Hq'%HS; by apply Hsame].
      rewrite lookup_insert_eq. intros [= <-]. rewrite Hi. eexists. split; [done|]. cbn. by apply copy_id.
  - cbn [ms_next]. assert (te_id e ∉ map te_id (ms_next m)) as Hnew.
    { intros Hin. apply list_elem_of_lookup in Hin as [j Hj]. change (map te_id) with (fmap (M := list) te_id) in Hj. rewrite list_lookup_fmap in Hj.
      apply fmap_Some in Hj as (a & Ha & E). assert (ms_byId m !! te_id e = Some j) by (apply HI; eauto). congruence. }
    split; [|by left]. split; cbn [ms_byId ms_bySeq ms_next].
    + apply (index_snoc (ms_byId m) (ms_next m) (λ e x, te_id e = x)); [done..|naive_solver].
    + assert (∀ q i, ms_bySeq m !! q = Some i → ∃ a, (ms_next m ++ [e]) !! i = Some a ∧ te_id a = ln_id (line key q)) as Hold.
      { intros q i (a & Ha & E)%HS. exists a. split; [by apply lookup_app_l_Some|done]. }
      intros q i. destruct (Z.ltb_spec 0 (te_seq e)) as [Hs|]; [|apply Hold]. destruct (decide (te_seq e = q)) as [<-|Hq]; [|rewrite lookup_insert_ne by done; apply Hold].
      rewrite lookup_insert_eq. intros [= <-]. exists e. split; [by apply list_lookup_middle|by apply copy_id].
Qed.

(** What comes from the host about [key]: copies of lines, with no name of a bubble. *)
Definition from_host (key : list Z) (e : ThreadEntry) : Prop := copy key e ∧ te_clientId e = None.

Lemma copy_merge key p e : copy key e → copy key p ∨ bubble p → te_id p = te_id e → copy key p ∧ copy key (merge_entry p e).
Proof.
  intros He [Hp|(_ & _ & Hb & _)] Hid; [|rewrite Hid, (copy_foreign _ _ He) in Hb; done].
  split; [done|]. destruct He as [He Hs], Hp as [_ Hp]. split; [done|]. cbn. unfold override. destruct (te_status e) eqn:E; [congruence|done].
Qed.

Lemma elem_insert_cases (l : list ThreadEntry) i x y : y ∈ <[i := x]> l → y = x ∨ y ∈ l.
Proof.
  intros [j Hj]%list_elem_of_lookup. destruct (decide (j = i)) as [->|Hji].
  - apply list_lookup_insert_Some in Hj as [(_ & E & _)|(Hn & _)]; [by left|done].
  - rewrite list_lookup_insert_ne in Hj by done. right. by eapply list_elem_of_lookup_2.
Qed.
Lemma elem_insert_other (l : list ThreadEntry) i p x y : l !! i = Some p → y ∈ l → y ≠ p → y ∈ <[i := x]> l.
Proof.
  intros Hp [j Hj]%list_elem_of_lookup Hne. apply (list_elem_of_lookup_2 _ j). rewrite list_lookup_insert_ne; [done|]. intros ->. congruence.
Qed.
Lemma map_insert_id (l : list ThreadEntry) i p x : l !! i = Some p → te_id p = te_id x → map te_id (<[i := x]> l) = map te_id l.
Proof.
  intros Hp E. change (map te_id) with (fmap (M := list) te_id). rewrite list_fmap_insert. apply list_insert_id. by rewrite list_lookup_fmap, Hp, <- E.
Qed.

(** What a fold keeps besides [held]: the bubbles are untouched and no message goes. *)
Record keeps (l l' : list ThreadEntry) : Prop := {
  ke_bubbles : ∀ e, bubble e → e ∈ l' ↔ e ∈ l;
  ke_messages : ∀ e, e ∈ l → te_id e ∈ map te_id l' }.
#[local] Instance keeps_preorder : PreOrder keeps.
Proof.
  split; [intros l; split; [done|intros; by apply list_elem_of_fmap_2]|]. intros a b c [A1 A2] [B1 B2]. split; [intros e He; by rewrite B1, A1|].
  intros e He. apply A2 in He. apply list_elem_of_fmap in He as (e' & -> & He'). by apply B2.
Qed.

Lemma appended_held key named l e :
  held key named l → from_host key e → te_id e ∉ map te_id l → held key named (l ++ [e]) ∧ keeps l (l ++ [e]).
Proof.
  intros [H1 H2 H3 H4] [He Hn] Hnew. split; split.
  - rewrite map_app. apply NoDup_app. split_and!; [done| |apply NoDup_singleton]. intros x Hx ->%list_elem_of_singleton. done.
  - intros x [Hx| ->%list_elem_of_singleton]%elem_of_app; [auto|by left].
  - intros x c [Hx| ->%list_elem_of_singleton]%elem_of_app; [eauto|congruence].
  - intros x y c. rewrite !elem_of_app, !list_elem_of_singleton. intros [Hx| ->] [Hy| ->]; try congruence. eauto.
  - intros x Hx. rewrite elem_of_app, list_elem_of_singleton. split; [|by left]. intros [?| ->]; [done|by destruct (copy_not_bubble key e)].
  - intros x Hx. rewrite map_app. apply elem_of_app. left. by apply list_elem_of_fmap_2.
Qed.

Lemma overlaid_held key named l e i p :
  held key named l → from_host key e → l !! i = Some p → te_id p = te_id e →
  let l' := <[i := merge_entry p e]> l in held key named l' ∧ keeps l l'.
Proof.
  intros Hh [He Hn] Hp Hid l'. pose proof Hh as [H1 H2 H3 H4]. assert (p ∈ l) as Hpl by by eapply list_elem_of_lookup_2.
  destruct (copy_merge key p e He (H2 p Hpl) Hid) as [Hcp Hcm]. assert (map te_id l' = map te_id l) as Hids by by apply (map_insert_id l i p).
  assert (te_clientId (merge_entry p e) = te_clientId p) as Hcl by (cbn; rewrite Hn; by destruct (te_clientId p)).
  assert (∀ x c, x ∈ l' → te_clientId x = Some c → ∃ y, y ∈ l ∧ te_clientId y = Some c ∧ te_id y = te_id x) as Hfrom.
  { intros x c Hx Hc. destruct (elem_insert_cases _ _ _ _ Hx) as [->|Hxl]; [exists p; rewrite Hcl in Hc; naive_solver|eauto]. }
  assert (∀ x y, x ∈ l' → y ∈ l' → te_id x = te_id y → x = y) as Hsame.
  { intros x y [ix Hx]%list_elem_of_lookup [iy Hy]%list_elem_of_lookup E. assert (ix = iy) as ->; [|congruence].
    eapply (nodup_ids l'); [by rewrite Hids|done..]. }
  split; split; [by rewrite Hids|..].
  - intros x Hx. destruct (elem_insert_cases _ _ _ _ Hx) as [->|Hxl]; [by left|auto].
  - intros x c Hx Hc. destruct (Hfrom x c Hx Hc) as (y & Hy & Hcy & _). eauto.
  - intros x y c Hx Hy Hcx Hcy. apply Hsame; [done..|]. destruct (Hfrom x c Hx Hcx) as (x' & Hx' & Hcx' & <-), (Hfrom y c Hy Hcy) as (y' & Hy' & Hcy' & <-).
    f_equal. eauto.
  - intros x Hx. split; intros Hin.
    + destruct (elem_insert_cases _ _ _ _ Hin) as [->|]; [by destruct (copy_not_bubble _ _ Hcm)|done].
    + apply (elem_insert_other _ _ p); [done..|]. intros ->. by destruct (copy_not_bubble _ _ Hcp).
  - intros x Hx. rewrite Hids. by apply list_elem_of_fmap_2.
Qed.

Lemma merge_fold_held key named incoming m :
  indexed key m → held key named (ms_next m) → (∀ e, e ∈ incoming → from_host key e) →
  let m' := foldl merge_step m incoming in indexed key m' ∧ held key named (ms_next m') ∧ keeps (ms_next m) (ms_next m').
Proof.
  revert m. induction incoming as [|e incoming IH]; intros m Hi Hh Hall; cbn [foldl]; [done|].
  assert (from_host key e) as He by (apply Hall; by left). destruct (merge_step_cases key m e Hi (proj1 He)) as [Hi' Hc].
  assert (held key named (ms_next (merge_step m e)) ∧ keeps (ms_next m) (ms_next (merge_step m e))) as [Hh' Hk].
  { destruct Hc as [[E Hnew]|(i & p & Hp & Hid & E)]; rewrite E; [by apply appended_held|by apply overlaid_held]. }
  destruct (IH (merge_step m e) Hi' Hh') as (A & B & C); [set_solver|]. split_and!; [done..|]. by etrans.
Qed.

(** The numbers shown: a page of numbered lines adds its own and takes none away. *)
Definition shows (l : list ThreadEntry) (n : Z) : Prop := ∃ e, e ∈ l ∧ te_seq e = n.

Lemma step_shows key named m e :
  indexed key m → held key named (ms_next m) → copy key e → 0 < te_seq e →
  shows (ms_next (merge_step m e)) (te_seq e) ∧ ∀ n, 0 < n → shows (ms_next m) n → shows (ms_next (merge_step m e)) n.
Proof.
  intros Hi Hh Hc Hs. destruct (merge_step_cases key m e Hi Hc) as [_ [[-> _]|(i & p & Hp & Hid & ->)]].
  - split; [exists e; set_solver|]. intros n _ (x & Hx & E). exists x. set_solver.
  - assert (merge_entry p e ∈ <[i := merge_entry p e]> (ms_next m)) as Hin.
    { apply (list_elem_of_lookup_2 _ i), list_lookup_insert_eq. by eapply lookup_lt_Some. }
    split; [by exists (merge_entry p e)|]. intros n Hn (x & Hx & <-). destruct (decide (x = p)) as [->|Hne].
    + exists (merge_entry p e). split; [done|]. cbn. destruct (he_shown _ _ _ Hh p Hx) as [Hcp|(? & _)]; [|lia]. symmetry. by eapply same_line.
    + exists x. split; [by apply (elem_insert_other _ _ p)|done].
Qed.

Lemma fold_shows key named incoming m :
  indexed key m → held key named (ms_next m) → (∀ e, e ∈ incoming → from_host key e ∧ 0 < te_seq e) →
  let l' := ms_next (foldl merge_step m incoming) in
  (∀ e, e ∈ incoming → shows l' (te_seq e)) ∧ ∀ n, 0 < n → shows (ms_next m) n → shows l' n.
Proof.
  revert m. induction incoming as [|e incoming IH]; intros m Hi Hh Hall; cbn [foldl]; [split; [set_solver|done]|].
  destruct (Hall e) as [He Hs]; [by left|]. destruct (step_shows key named m e Hi Hh (proj1 He) Hs) as [Hnew Hold].
  destruct (merge_fold_held key named [e] m Hi Hh) as (Hi' & Hh' & _); [intros x ->%list_elem_of_singleton; done|]. cbn [foldl] in Hi', Hh'.
  destruct (IH (merge_step m e) Hi' Hh') as [A B]; [intros x Hx; apply Hall; by right|]. split; [|auto].
  intros x [->|Hx]%elem_of_cons; auto.
Qed.

(** Every number shown was shown before or came in. *)
Lemma fold_numbers incoming m n : shows (ms_next (foldl merge_step m incoming)) n → shows (ms_next m) n ∨ n ∈ map te_seq incoming.
Proof.
  revert m. induction incoming as [|e incoming IH]; intros m; cbn [foldl]; [by left|]. intros [(x & Hx & E)|Hn]%IH; [|right; by right].
  revert Hx. unfold merge_step. cbv zeta. repeat case_match; cbn [ms_next].
  all: try (intros [->|Hx]%elem_insert_cases; [right; apply elem_of_cons; left; by rewrite <- E|left; by exists x]).
  all: try (intros [Hx| ->%list_elem_of_singleton]%elem_of_app; [left; by exists x|right; apply elem_of_cons; left; by rewrite <- E]).
  all: intros Hx; left; by exists x.
Qed.
Lemma merge_numbers l incoming n : shows (mergeEntries l incoming) n → shows l n ∨ n ∈ map te_seq incoming.
Proof. intros (e & He & E). apply (fold_numbers incoming (index_entries l)). exists e. split; [|done]. by apply (proj1 (elem_of_sortThread _ _)). Qed.

(** Entries of the host folded into a thread. *)
Lemma merge_held key named l incoming :
  held key named l → (∀ e, e ∈ incoming → from_host key e) →
  let l' := mergeEntries l incoming in held key named l' ∧ StronglySorted lines_le l' ∧ keeps l l'.
Proof.
  intros Hh Hall l'. destruct (merge_fold_held key named incoming (index_entries l) (held_indexed _ _ _ Hh) Hh Hall) as (A & B & C1 & C2).
  assert (Permutation l' (ms_next (foldl merge_step (index_entries l) incoming))) as Hp by apply js_sort_perm.
  split_and!; [by eapply held_perm|apply sorted_lines|]. split; [intros e He; rewrite Hp; by apply C1|].
  intros e He. assert (Permutation (map te_id l') (map te_id (ms_next (foldl merge_step (index_entries l) incoming)))) as Hm by by rewrite Hp. rewrite Hm. by apply C2.
Qed.
Lemma merge_shows key named l incoming :
  held key named l → (∀ e, e ∈ incoming → from_host key e ∧ 0 < te_seq e) →
  (∀ e, e ∈ incoming → shows (mergeEntries l incoming) (te_seq e)) ∧ ∀ n, 0 < n → shows l n → shows (mergeEntries l incoming) n.
Proof.
  intros Hh Hall. destruct (fold_shows key named incoming (index_entries l) (held_indexed _ _ _ Hh) Hh Hall) as [A B].
  assert (∀ n, shows (ms_next (foldl merge_step (index_entries l) incoming)) n → shows (mergeEntries l incoming) n) as Hs.
  { intros n (e & He & E). exists e. split; [|done]. by apply elem_of_sortThread. }
  split; auto.
Qed.

(** ** The owner's own sends *)

Lemma optimistic_held key (named named' : list Z → Prop) l c text now :
  held key named l → (∀ x, named x → named' x) → named' c → ¬ named c → local c = true →
  held key named' (l ++ [optimistic c text now]).
Proof.
  intros [H1 H2 H3 H4] Hn Hc Hf Hl. assert (∀ e, e ∈ l → te_clientId e ≠ Some c) as Hno by (intros e He E; by apply Hf, (H3 e)). split.
  - rewrite map_app. apply NoDup_app. split_and!; [done| |apply NoDup_singleton]. intros x Hx ->%list_elem_of_singleton. cbn in Hx.
    apply list_elem_of_fmap in Hx as (e & E & He). destruct (H2 e He) as [Hce|(_ & Hb & _)].
    + apply copy_foreign in Hce. congruence.
    + apply (Hno e He). by rewrite Hb, <- E.
  - intros e [He| ->%list_elem_of_singleton]%elem_of_app; [auto|]. right. unfold bubble. cbn. auto.
  - intros e x [He| ->%list_elem_of_singleton]%elem_of_app; [eauto|]. intros [= <-]. done.
  - intros e e' x. rewrite !elem_of_app, !list_elem_of_singleton. intros [He| ->] [He'| ->] Ex Ex'; try done; cbn in *; simplify_eq; [eauto|by destruct (Hno e)|by destruct (Hno e')].
Qed.
Lemma optimistic_lines l c text now : StronglySorted lines_le l → StronglySorted lines_le (l ++ [optimistic c text now]).
Proof.
  intros Hs. apply StronglySorted_app_2; [|done|repeat constructor]. intros a b _ ->%list_elem_of_singleton. unfold lines_le. cbn. lia.
Qed.

(** [reconcileSend] puts the answer in place of the bubble and takes other entries of the message away. *)
Lemma filter_except_delete i f (l : list ThreadEntry) x : l !! i = Some x → Permutation (filter_except i f l) (x :: filterb f (delete i l)).
Proof.
  revert i. induction l as [|y l IH]; intros [|i]; cbn; intros Hx; simplify_eq; [done|]. change (delete (S i) (y :: l)) with (y :: delete i l).
  cbn [filterb]. destruct (f y); rewrite (IH i Hx); [|done]. apply Permutation_swap.
Qed.
Lemma delete_insert i x (l : list ThreadEntry) : delete i (<[i := x]> l) = delete i l.
Proof. revert i. induction l as [|y l IH]; intros [|i]; cbn; [done..|]. f_equal. apply IH. Qed.
Lemma reconcile_perm s c e i b :
  find_index (has_client c) (ts_entries s) = Some i → ts_entries s !! i = Some b →
  let a := entryFromApi e in
  Permutation (ts_entries (reconcileSend s c e)) (with_client c a :: filterb (λ x, negb (same_message a x)) (delete i (ts_entries s))).
Proof.
  intros Hi Hb a. unfold reconcileSend. rewrite Hi. cbn [ts_entries with_entries]. fold a. etrans; [apply js_sort_perm|].
  rewrite (filter_except_delete i _ _ (with_client c a)) by (apply list_lookup_insert_eq; by eapply lookup_lt_Some).
  by rewrite delete_insert.
Qed.

Lemma find_client key named l c b : held key named l → b ∈ l → te_clientId b = Some c → ∃ i, find_index (has_client c) l = Some i ∧ l !! i = Some b.
Proof.
  intros Hh Hb Hc. destruct (find_index (has_client c) l) as [i|] eqn:Ei.
  - exists i. split; [done|]. destruct (find_index_lookup _ _ _ Ei) as (x & Hx & Hcx). apply bool_decide_eq_true in Hcx.
    rewrite Hx. f_equal. eapply (he_once _ _ _ Hh); eauto. by eapply list_elem_of_lookup_2.
  - exfalso. clear Hh. induction l as [|x l IH]; [set_solver|]. cbn in Ei. destruct (has_client c x) eqn:Ex; [done|].
    apply elem_of_cons in Hb as [->|Hb]; [by apply bool_decide_eq_false in Ex|]. apply IH; [done|]. by destruct (find_index (has_client c) l).
Qed.
Lemma elem_of_delete key named l i b x : held key named l → l !! i = Some b → x ∈ delete i l ↔ x ∈ l ∧ x ≠ b.
Proof.
  intros [Hnd _ _ _] Hb. assert (NoDup l) as Hl by by eapply NoDup_fmap_1.
  rewrite <- (take_drop_middle l i b Hb) at 2. rewrite <- (take_drop_middle l i b Hb) in Hl. rewrite delete_take_drop.
  apply NoDup_app in Hl as (_ & Hd & Hl). apply NoDup_cons in Hl as [Hl _].
  assert (∀ y, y ∈ take i l → y ≠ b) as Hne by (intros y Hy ->; apply (Hd b Hy); by left).
  rewrite !elem_of_app, elem_of_cons. split; [|tauto]. intros [Hx|Hx]; (split; [tauto|]); [by apply Hne|]. by intros ->.
Qed.

Lemma reconcile_held key named s c e b :
  held key named (ts_entries s) → b ∈ ts_entries s → te_clientId b = Some c → bubble b → from_host key (entryFromApi e) →
  let l' := ts_entries (reconcileSend s c e) in
  held key named l' ∧ StronglySorted lines_le l' ∧
  (∀ x, bubble x → x ∈ l' ↔ x ∈ ts_entries s ∧ x ≠ b) ∧
  (∀ x, x ∈ ts_entries s → x ≠ b → te_id x ∈ map te_id l') ∧ ae_id e ∈ map te_id l'.
Proof.
  intros Hh Hb Hc Hbb [He Hn] l'. destruct (find_client _ _ _ _ _ Hh Hb Hc) as (i & Hi & Hbi). set (a := entryFromApi e) in *.
  pose proof (reconcile_perm s c e i b Hi Hbi) as Hp. fold a l' in Hp. set (f := λ x, negb (same_message a x)) in *.
  assert (∀ x, x ∈ filterb f (delete i (ts_entries s)) ↔ (x ∈ ts_entries s ∧ x ≠ b) ∧ same_message a x = false) as Hin.
  { intros x. unfold f. by rewrite elem_of_filterb, (elem_of_delete _ _ _ _ _ _ Hh Hbi), negb_true_iff. }
  assert (held key named (with_client c a :: filterb f (delete i (ts_entries s)))) as Hh'.
  { assert (held key named (filterb f (delete i (ts_entries s)))) as [K1 K2 K3 K4].
    { eapply held_sublist; [|exact Hh]. etrans; [apply filterb_sublist|apply sublist_delete]. }
    split.
    - cbn. constructor; [|done]. intros (x & E & Hx)%list_elem_of_fmap. apply Hin in Hx as [_ Hx]. apply orb_false_iff in Hx as [_ Hx%jeqb_neq]. by apply Hx.
    - intros x [->|Hx]%elem_of_cons; [by left|auto].
    - intros x d [->|Hx]%elem_of_cons; [intros [= <-]; by eapply he_named|eauto].
    - assert (∀ x, x ∈ filterb f (delete i (ts_entries s)) → te_clientId x ≠ Some c) as Hno.
      { intros x [[Hx Hne] _]%Hin E. apply Hne. by eapply (he_once _ _ _ Hh). }
      intros x y d [->|Hx]%elem_of_cons [->|Hy]%elem_of_cons Ex Ey; [done|..]; [injection Ex as <-; by destruct (Hno y)|injection Ey as <-; by destruct (Hno x)|eauto]. }
  assert (Permutation (map te_id l') (map te_id (with_client c a :: filterb f (delete i (ts_entries s))))) as Hpi by by rewrite Hp.
  split_and!; [by eapply held_perm|by unfold l', reconcileSend; rewrite Hi; apply sorted_lines|..].
  - intros x Hx. rewrite Hp, elem_of_cons. split.
    + intros [->|[? _]%Hin]; [|done]. destruct (copy_not_bubble key (with_client c a)); done.
    + intros ?. right. apply Hin. split; [done|]. destruct Hx as (Hs & _ & Hl & _). apply orb_false_iff. split; [by rewrite Hs|]. apply jeqb_neq.
      intros E. apply copy_foreign in He. congruence.
  - intros x Hx Hne. rewrite Hpi. cbn [map]. destruct (same_message a x) eqn:Es; [|right; apply list_elem_of_fmap_2, Hin; auto].
    assert (te_id x = te_id a) as ->; [|by left]. unfold same_message in Es. apply orb_true_iff in Es as [[Hs%Z.ltb_lt E%Z.eqb_eq]%andb_true_iff|E%jeqb_eq]; [|done].
    destruct (he_shown _ _ _ Hh x Hx) as [Hcx|(? & _)]; [|lia]. rewrite (copy_id _ _ Hcx Hs), E. symmetry. apply copy_id; [done|lia].
  - rewrite Hpi. by left.
Qed.

(** ** The page *)

Definition entries (s : Page) (key : list Z) : list ThreadEntry := ts_entries (thread s key).
Definition named (s : Page) (c : list Z) : Prop := ∃ now q, c = client_id base36 now q ∧ 0 < q <= pg_seq s.

(** A thread of the page, and its bubbles against the requests under way. *)
Record conv (s : Page) (key : list Z) : Prop := {
  cv_held : held key (named s) (entries s key);
  cv_lines : StronglySorted lines_le (entries s key);
  cv_sends : ∀ e, e ∈ entries s key → bubble e → te_status e = SENDING ↔ CSend key (te_id e) ∈ pg_calls s;
  cv_out : ∀ c, CSend key c ∈ pg_calls s → ∃ e, e ∈ entries s key ∧ bubble e ∧ te_id e = c }.
Definition synced (s : Page) : Prop := 0 <= pg_seq s ∧ ∀ key, conv s key.
(** The page is in order after the step and no message has gone. *)
Definition fine (s s' : Page) : Prop := synced s' ∧ ∀ key e, e ∈ entries s key → copy key e → te_id e ∈ map te_id (entries s' key).

(** Everything but the entries of [key] is as before, for all that matters here. *)
Record moved (key : list Z) (s s' : Page) : Prop := {
  mv_seq : pg_seq s' = pg_seq s;
  mv_calls : ∀ k c, CSend k c ∈ pg_calls s' ↔ CSend k c ∈ pg_calls s;
  mv_others : ∀ k, k ≠ key → entries s' k = entries s k }.
Record still (s s' : Page) : Prop := {
  st_seq : pg_seq s' = pg_seq s;
  st_calls : ∀ k c, CSend k c ∈ pg_calls s' ↔ CSend k c ∈ pg_calls s;
  st_entries : ∀ k, entries s' k = entries s k }.
#[local] Instance still_preorder : PreOrder still.
Proof. split; [by split|]. intros a b c [A1 A2 A3] [B1 B2 B3]. split; [congruence|intros; by rewrite B2|intros; by rewrite B3]. Qed.

Lemma conv_eq s s' key : pg_seq s' = pg_seq s → (∀ c, CSend key c ∈ pg_calls s' ↔ CSend key c ∈ pg_calls s) → entries s' key = entries s key → conv s key → conv s' key.
Proof.
  intros Hq Hc He [H1 H2 H3 H4]. split; rewrite ?He; [|done|intros e Hin Hb; rewrite Hc; auto|intros c; rewrite Hc; auto].
  eapply held_weaken; [|exact H1]. intros c (now & q & ? & ?). exists now, q. by rewrite Hq.
Qed.
Lemma still_fine s s' : still s s' → synced s → fine s s'.
Proof.
  intros [H1 H2 H3] [Hs Hc]. split; [split; [lia|]|].
  - intros key. eapply conv_eq; [done|by intros|done|apply Hc].
  - intros key e He _. rewrite H3. by apply list_elem_of_fmap_2.
Qed.
Lemma still_trans_fine s s' s'' : still s s' → synced s → (synced s' → fine s' s'') → fine s s''.
Proof.
  intros Hst Hs Hf. destruct (still_fine _ _ Hst Hs) as [Hs' _]. destruct (Hf Hs') as [A B]. split; [done|].
  intros key e He. rewrite <- (st_entries _ _ Hst) in He. by apply B.
Qed.

Lemma merged_fine s s' key incoming :
  synced s → moved key s s' → entries s' key = mergeEntries (entries s key) incoming → (∀ e, e ∈ incoming → from_host key e) → fine s s'.
Proof.
  intros [Hq Hs] [M1 M2 M3] E Hall. destruct (Hs key) as [H1 H2 H3 H4].
  destruct (merge_held key (named s) _ incoming H1 Hall) as (A & B & C1 & C2). rewrite <- E in *.
  split; [split; [lia|]|].
  - intros k. destruct (decide (k = key)) as [->|Hk]; [|eapply conv_eq; [done|by intros|by apply M3|apply Hs]]. split; [|done|..].
    + eapply held_weaken; [|exact A]. intros c (now & q & ? & ?). exists now, q. by rewrite M1.
    + intros e He Hb. rewrite M2. apply H3; [by apply C1|done].
    + intros c Hc%M2. destruct (H4 c Hc) as (e & He & Hb & Hid). exists e. split; [by apply C1|done].
  - intros k e He _. destruct (decide (k = key)) as [->|Hk]; [by apply C2|]. rewrite M3 by done. by apply list_elem_of_fmap_2.
Qed.

Lemma entries_set key t s k : entries (setThread key t s) k = if jeqb key k then ts_entries t else entries s k.
Proof. unfold entries. rewrite thread_set. by destruct (jeqb key k). Qed.
Lemma moved_set key t s : moved key s (setThread key t s).
Proof. split; try done. intros k Hk. rewrite entries_set. by rewrite (proj2 (jeqb_neq key k)). Qed.
Lemma still_set key t s : ts_entries t = entries s key → still s (setThread key t s).
Proof. intros E. split; try done. intros k. rewrite entries_set. destruct (jeqb key k) eqn:Ek; [|done]. apply jeqb_eq in Ek as ->. done. Qed.

Lemma patch_fine key f s incoming :
  synced s → (∀ t, ts_entries (f t) = mergeEntries (ts_entries t) incoming) → (∀ e, e ∈ incoming → from_host key e) → fine s (patchThread key f s).
Proof.
  intros Hs Hf Hall. unfold patchThread. destruct (map_get (pg_threads s) key) as [t|] eqn:Et; [|by apply still_fine].
  eapply (merged_fine s _ key); [done|apply moved_set| |exact Hall].
  rewrite entries_set, jeqb_refl, Hf. unfold entries, thread. by rewrite Et.
Qed.

(** *** Steps that leave the threads alone *)

Lemma still_request c s : (∀ k x, c ≠ CSend k x) → still s (request c s).
Proof. intros Hc. split; try done. intros k x. cbn. rewrite elem_of_app, list_elem_of_singleton. naive_solver. Qed.
Lemma still_answered c s : (∀ k x, c ≠ CSend k x) → still s (answered c s).
Proof. intros Hc. split; try done. intros k x. cbn. rewrite elem_of_filterb, negb_true_iff, bool_decide_eq_false. naive_solver. Qed.
Lemma still_load key w s : still s (load key w s).
Proof.
  unfold load. case_bool_decide; [done|]. etrans; [|by apply still_request].
  etrans; [|by apply still_set]. done.
Qed.
Lemma still_inflight i s : still s (with_inflight i s).
Proof. by split. Qed.
Lemma still_history s : still s (start_history s).
Proof. split; try done. intros k x. cbn. rewrite elem_of_app, list_elem_of_singleton. naive_solver. Qed.
Lemma still_loadAlter s : still s (loadAlter s).
Proof. unfold loadAlter. destruct (av_loading (pg_alter s)); [done|apply still_history]. Qed.
Lemma still_prime x s : still s (prime x s).
Proof.
  unfold prime. destruct (jeqb x ALTER_KEY); [destruct (av_loaded (pg_alter s)); [done|apply still_loadAlter]|].
  destruct (gidOf (Some x)); [apply still_load|]. destruct (agentOf (Some x)); [done|apply still_load].
Qed.
Lemma still_open x s : still s (open_page x s).
Proof. unfold open_page. etrans; [|apply still_prime]. done. Qed.
Lemma still_close s : still s (close_page s).
Proof. unfold close_page. by destruct (nv_open (pg_nav s)). Qed.
Lemma still_refetch keys s : still s (refetch keys s).
Proof.
  revert s. induction keys as [|[k t] keys IH]; intros s; cbn [refetch]; [done|]. etrans; [|apply IH].
  destruct (negb (ts_loaded t)); [done|]. destruct (gidOf (Some k)); [apply still_load|]. destruct (agentOf (Some k)); [done|apply still_load].
Qed.
Lemma still_stopTyping fp s : still s (stopTyping fp s).
Proof. unfold stopTyping. by destruct (map_has (pg_sentAt s) fp). Qed.
Lemma still_noteTyping fp now s : still s (noteTyping fp now s).
Proof. unfold noteTyping. by case_match. Qed.
Lemma still_history_answer r s : still s (history_answer r s).
Proof.
  unfold history_answer. case_match; [done|]. etrans; [by apply (still_answered CHistory)|].
  cbv zeta. case_match; [|done]. etrans; [|apply still_loadAlter]. done.
Qed.
Lemma still_instruct_answer r s : still s (instruct_answer r s).
Proof. unfold instruct_answer. case_match; [done|]. etrans; [by apply (still_answered CInstruct)|]. by destruct r. Qed.
Lemma still_alter_frame sid running s : still s (onFrame (PfAlter sid running) s).
Proof. cbn [onFrame]. by case_match. Qed.

(** *** Answers and frames *)

Lemma fine_then s s' s'' : fine s s' → still s' s'' → fine s s''.
Proof. intros [A B] Hst. destruct (still_fine _ _ Hst A) as [A' _]. split; [done|]. intros k e He Hc. rewrite (st_entries _ _ Hst). by apply B. Qed.

Lemma thread_answer_fine key size r s :
  synced s → (∀ es, r = inr es → ∀ e, e ∈ es → copy key (entryFromApi e)) → fine s (thread_answer key size r s).
Proof.
  intros Hs Hr. unfold thread_answer. case_match; [by apply still_fine|].
  eapply (still_trans_fine s (answered (CThread key size) s)); [by apply still_answered|done|]. intros Hs'.
  cbv zeta. eapply fine_then; [|apply still_inflight]. set (s1 := answered (CThread key size) s) in *. destruct r as [m|es].
  - apply still_fine; [|done]. by apply still_set.
  - eapply (merged_fine s1 _ key (map entryFromApi es)); [done|apply moved_set|by rewrite entries_set, jeqb_refl|].
    intros e (x & -> & Hx)%list_elem_of_fmap. split; [|done]. by eapply Hr.
Qed.

Lemma inbound_fine key m s : synced s → copy key (entry_of_frame m) → fine s (patchThread key (λ t, applyInbound t m) s).
Proof. intros Hs Hm. eapply patch_fine; [done|done|]. by intros e ->%list_elem_of_singleton. Qed.
Lemma outbound_fine key e s : synced s → copy key (entryFromApi e) → fine s (patchThread key (λ t, applyOutbound t e) s).
Proof. intros Hs Hm. eapply patch_fine; [done|done|]. by intros x ->%list_elem_of_singleton. Qed.

Lemma decide_fine id r s :
  synced s → (∀ fp e, r = inr (fp, Some e) → copy fp (entryFromApi e)) → fine s (decide_answer id r s).
Proof.
  intros Hs Hr. unfold decide_answer. case_match; [by apply still_fine|].
  eapply (still_trans_fine s (answered (CDecide id) s)); [by apply still_answered|done|]. intros Hs'.
  destruct r as [m|[fp [e|]]]; [by apply still_fine| |by apply still_fine].
  eapply fine_then; [apply (outbound_fine fp e); [done|by eapply Hr]|]. done.
Qed.

(** *** Sends, their answers and discarded bubbles *)

Lemma named_next s s' c : pg_seq s <= pg_seq s' → named s c → named s' c.
Proof. intros Hq (now & q & ? & ?). exists now, q. split; [done|lia]. Qed.

Lemma sent_fine s s' key c text now :
  synced s → c = client_id base36 now (pg_seq s + 1) → pg_seq s' = pg_seq s + 1 →
  (∀ k x, CSend k x ∈ pg_calls s' ↔ CSend k x ∈ pg_calls s ∨ (k = key ∧ x = c)) →
  entries s' key = entries s key ++ [optimistic c text now] → (∀ k, k ≠ key → entries s' k = entries s k) → fine s s'.
Proof.
  intros [Hq Hs] Ec Hq' Hcalls He Ho. assert (¬ named s c) as Hfresh.
  { intros (now' & q & E & Hle). rewrite Ec in E. apply client_id_seq in E; lia. }
  assert (named s' c) as Hnew by (exists now, (pg_seq s + 1); split; [done|lia]).
  assert (local c = true) as Hl by (rewrite Ec; apply client_id_local).
  assert (∀ d, named s d → named s' d) as Hn by (intros d; apply named_next; lia).
  split; [split; [lia|]|].
  - intros k. destruct (Hs k) as [H1 H2 H3 H4]. destruct (decide (k = key)) as [->|Hk].
    + split; rewrite ?He; [by eapply optimistic_held|by apply optimistic_lines|..].
      * intros e [Hin| ->%list_elem_of_singleton]%elem_of_app Hb; rewrite Hcalls; [|cbn; tauto].
        rewrite H3 by done. split; [tauto|]. intros [?|[_ E]]; [done|]. destruct Hfresh. apply (he_named _ _ _ H1 e); [done|]. destruct Hb as (_ & Hcl & _). congruence.
      * intros d [Hd|[_ ->]]%Hcalls; [destruct (H4 d Hd) as (e & Hin & ?); exists e; set_solver|].
        exists (optimistic c text now). split_and!; [set_solver|unfold bubble; cbn; auto|done].
    + split; rewrite ?Ho by done; [by eapply held_weaken|done|..].
      * intros e Hin Hb. rewrite Hcalls, H3 by done. naive_solver.
      * intros d Hd. apply H4. apply Hcalls in Hd. naive_solver.
  - intros k e Hin _. destruct (decide (k = key)) as [->|Hk]; [rewrite He, map_app; apply elem_of_app; left|rewrite Ho by done]; by apply list_elem_of_fmap_2.
Qed.

(** The call that answers, gone from those under way. *)
Definition settled (key c : list Z) (s s' : Page) : Prop :=
  pg_seq s' = pg_seq s ∧ (∀ k x, CSend k x ∈ pg_calls s' ↔ CSend k x ∈ pg_calls s ∧ (k, x) ≠ (key, c)) ∧ ∀ k, k ≠ key → entries s' k = entries s k.

Lemma settled_others key c s s' k : settled key c s s' → k ≠ key → conv s k → conv s' k.
Proof.
  intros (H1 & H2 & H3) Hk. apply conv_eq; [done| |by apply H3]. intros x. rewrite H2. split; [tauto|]. intros; split; [done|congruence].
Qed.

Lemma reconciled_fine s s' key c e :
  synced s → CSend key c ∈ pg_calls s → settled key c s s' → copy key (entryFromApi e) →
  entries s' key = ts_entries (reconcileSend (thread s key) c e) → fine s s' ∧ ae_id e ∈ map te_id (entries s' key).
Proof.
  intros [Hq Hs] Hout Hse Hc E. pose proof Hse as (S1 & S2 & S3). destruct (Hs key) as [H1 H2 H3 H4].
  destruct (H4 c Hout) as (b & Hb & Hbb & Hbc). pose proof Hbb as (_ & Hcl & _ & _). rewrite Hbc in Hcl.
  destruct (reconcile_held key (named s) (thread s key) c e b H1 Hb Hcl Hbb (conj Hc eq_refl)) as (A & B & C & D & F). rewrite <- E in *.
  split; [|done]. split; [split; [lia|]|].
  - intros k. destruct (decide (k = key)) as [->|Hk]; [|by eapply settled_others]. split; [|done|..].
    + eapply held_weaken; [|exact A]. intros d. apply named_next. lia.
    + intros x Hx Hbx. apply C in Hx as [Hx Hne]; [|done]. rewrite (H3 x Hx Hbx), S2. split; [|tauto]. intros Hin. split; [done|]. intros [= Ec].
      apply Hne. eapply (held_same_id key); [exact H1|done|done|congruence].
    + intros d [Hd Hne]%S2. destruct (H4 d Hd) as (x & Hx & Hbx & <-). exists x. split; [|done]. apply C; [done|]. split; [done|]. intros ->. congruence.
  - intros k x Hx Hcx. destruct (decide (k = key)) as [->|Hk]; [|rewrite S3 by done; by apply list_elem_of_fmap_2].
    apply D; [done|]. intros ->. by destruct (copy_not_bubble key b).
Qed.

(** [failSend] on a thread in order marks the bubble [c]. *)
Definition fail_entry (error : list Z) (e : ThreadEntry) : ThreadEntry :=
  mkTE (te_seq e) (te_dir e) (te_id e) (te_body e) (te_ts e) (te_from e) (te_type e) (te_auto e) (te_by e) (te_agent e)
    FAILED (te_artifactName e) (te_clientId e) (Some error).
Lemma failSend_map t c error : ts_entries (failSend t c error) = map (λ e, if has_client c e then fail_entry error e else e) (ts_entries t).
Proof. done. Qed.
Lemma sorted_map (f : ThreadEntry → ThreadEntry) l : (∀ e, te_seq (f e) = te_seq e) → StronglySorted lines_le l → StronglySorted lines_le (map f l).
Proof.
  intros Hf. induction 1 as [|e l Hs IH Ha]; [constructor|]. constructor; [done|]. apply Forall_fmap. eapply Forall_impl; [exact Ha|].
  intros x. unfold lines_le. cbn. by rewrite !Hf.
Qed.
Lemma sorted_filterb (f : ThreadEntry → bool) l : StronglySorted lines_le l → StronglySorted lines_le (filterb f l).
Proof.
  induction 1 as [|e l Hs IH Ha]; cbn; [constructor|]. destruct (f e); [|done]. constructor; [done|].
  apply Forall_forall. intros x [Hx _]%elem_of_filterb. by apply (proj1 (Forall_forall _ _) Ha).
Qed.

Lemma fail_held key named l c error :
  held key named l → (∀ e, e ∈ l → te_clientId e = Some c → bubble e) →
  held key named (map (λ e, if has_client c e then fail_entry error e else e) l).
Proof.
  intros [H1 H2 H3 H4] Hb. set (f := λ e, if has_client c e then fail_entry error e else e).
  assert (∀ e, te_id (f e) = te_id e ∧ te_clientId (f e) = te_clientId e) as Hf by (intros e; unfold f; by destruct (has_client c e)).
  split.
  - rewrite map_map. erewrite map_ext; [exact H1|]. intros e. apply Hf.
  - intros x (e & -> & He)%list_elem_of_fmap. unfold f. destruct (has_client c e) eqn:Ec; [|auto]. right.
    apply bool_decide_eq_true in Ec. destruct (Hb e He Ec) as (? & ? & ? & _). unfold bubble. cbn. auto.
  - intros x d (e & -> & He)%list_elem_of_fmap. rewrite (proj2 (Hf e)). eauto.
  - intros x y d (e & -> & He)%list_elem_of_fmap (e' & -> & He')%list_elem_of_fmap. rewrite !(proj2 (Hf _)). intros E E'. f_equal. eauto.
Qed.

Lemma failed_fine s s' key c error :
  synced s → CSend key c ∈ pg_calls s → settled key c s s' → entries s' key = ts_entries (failSend (thread s key) c error) → fine s s'.
Proof.
  intros [Hq Hs] Hout Hse E. pose proof Hse as (S1 & S2 & S3). destruct (Hs key) as [H1 H2 H3 H4].
  destruct (H4 c Hout) as (b & Hb & Hbb & Hbc). pose proof Hbb as (_ & Hcl & _ & _). rewrite Hbc in Hcl. rewrite failSend_map in E. fold (entries s key) in E.
  assert (∀ e, e ∈ entries s key → te_clientId e = Some c → e = b) as Hone by (intros; by eapply (he_once _ _ _ H1)).
  assert (∀ x, x ∈ entries s' key ↔ (x ∈ entries s key ∧ x ≠ b) ∨ x = fail_entry error b) as Hin.
  { intros x. rewrite E. rewrite list_elem_of_fmap. assert (∀ e, e ∈ entries s key → has_client c e = true ↔ e = b) as Hh.
    { intros e He. unfold has_client. rewrite bool_decide_eq_true. split; [auto|]. by intros ->. }
    split.
    - intros (e & -> & He). specialize (Hh e He). destruct (has_client c e); [right; f_equal; by apply Hh|left]. split; [done|]. intros ->. by pose proof (proj2 Hh eq_refl).
    - intros [[Hx Hne]| ->]; [exists x|exists b]; (split; [|done]); [destruct (has_client c x) eqn:Ex; [by apply (Hh x Hx) in Ex|done]|by rewrite (proj2 (Hh b Hb))]. }
  split; [split; [lia|]|].
  - intros k. destruct (decide (k = key)) as [->|Hk]; [|by eapply settled_others]. split.
    + rewrite E. apply fail_held; [|intros e He Hec; by rewrite (Hone e He Hec)]. eapply held_weaken; [|exact H1]. intros d. apply named_next. lia.
    + rewrite E. apply sorted_map; [|done]. intros e. by destruct (has_client c e).
    + intros x [[Hx Hne]| ->]%Hin Hbx; rewrite S2.
      * rewrite (H3 x Hx Hbx). split; [|tauto]. intros Ho. split; [done|]. intros [= Ec]. apply Hne, (held_same_id key (named s) (entries s key)); [done..|congruence].
      * cbn. split; [done|]. intros [_ []]. by rewrite Hbc.
    + intros d [Hd Hne]%S2. destruct (H4 d Hd) as (x & Hx & Hbx & <-). exists x. split; [|done]. apply Hin. left. split; [done|]. intros ->. congruence.
  - intros k x Hx Hcx. destruct (decide (k = key)) as [->|Hk]; [|rewrite S3 by done; by apply list_elem_of_fmap_2].
    apply list_elem_of_fmap_2, Hin. left. split; [done|]. intros ->. by destruct (copy_not_bubble key b).
Qed.

Lemma discarded_fine s s' key c :
  synced s → (∃ e, e ∈ entries s key ∧ te_clientId e = Some c ∧ te_status e = FAILED) → moved key s s' →
  entries s' key = ts_entries (dropEntry (thread s key) c) → fine s s'.
Proof.
  intros [Hq Hs] (b & Hb & Hbc & Hbf) [M1 M2 M3] E. destruct (Hs key) as [H1 H2 H3 H4].
  assert (bubble b) as Hbb by (destruct (he_shown _ _ _ H1 b Hb) as [[_ ?]|?]; done).
  assert (∀ x, x ∈ entries s' key ↔ x ∈ entries s key ∧ x ≠ b) as Hin.
  { intros x. rewrite E. cbn. rewrite elem_of_filterb, negb_true_iff. unfold has_client. rewrite bool_decide_eq_false. fold (entries s key).
    split; intros [Hx Hne]; (split; [done|]); [by intros ->|]. intros Hxc. apply Hne. by eapply (he_once _ _ _ H1). }
  split; [split; [lia|]|].
  - intros k. destruct (decide (k = key)) as [->|Hk]; [|eapply conv_eq; [done|by intros|by apply M3|apply Hs]]. split.
    + rewrite E. eapply held_sublist; [apply filterb_sublist|]. eapply held_weaken; [|exact H1]. intros d. apply named_next. lia.
    + rewrite E. by apply sorted_filterb.
    + intros x [Hx _]%Hin Hbx. rewrite M2. auto.
    + intros d Hd%M2. destruct (H4 d Hd) as (x & Hx & Hbx & Hxd). exists x. split; [|done]. apply Hin. split; [done|]. intros ->.
      rewrite <- Hxd in Hd. apply (H3 b Hb Hbb) in Hd. rewrite Hbf in Hd. done.
  - intros k x Hx Hcx. destruct (decide (k = key)) as [->|Hk]; [|rewrite M3 by done; by apply list_elem_of_fmap_2].
    apply list_elem_of_fmap_2, Hin. split; [done|]. intros ->. by destruct (copy_not_bubble key b).
Qed.

(** ** Runs against the archive *)

(** What the host says is true of the archive (archive pages carry line
    numbers, frames and receipts may not), and the owner discards a bubble
    through its button, which only a failed one has. *)
Definition true_op (s : Page) (o : PageOp) : Prop :=
  match o with
  | OThread key _ (inr es) => ∀ e, e ∈ es → copy key (entryFromApi e) ∧ 0 < ae_seq e
  | OSent key _ (inr e) | OSentGroup key _ (inr (Some e)) | ODecided _ (inr (key, Some e)) | OFrame (PfOutbound key e) => copy key (entryFromApi e)
  | OFrame (PfGroupOutbound gid e) => copy (groupKey gid) (entryFromApi e)
  | OFrame (PfMessage key m) => copy key (entry_of_frame m)
  | OFrame (PfGroupMessage gid m) => copy (groupKey gid) (entry_of_frame m)
  | ODiscard key c => ∃ e, e ∈ entries s key ∧ te_clientId e = Some c ∧ te_status e = FAILED
  | _ => True
  end.
Fixpoint true_run (s : Page) (ops : list PageOp) : Prop :=
  match ops with [] => True | o :: ops' => true_op s o ∧ true_run (page_step base36 s o) ops' end.
Definition page_after (stored : option json) (ops : list PageOp) : Page := run_page base36 stored ops.

Lemma send_fine key text now s s' :
  synced s → still (request (CSend key (start_send base36 key text now s).2) (start_send base36 key text now s).1) s' → fine s s'.
Proof.
  intros Hs Hst. eapply fine_then; [|exact Hst]. eapply sent_fine; [done|reflexivity|done|..].
  - intros k x. cbn. rewrite elem_of_app, list_elem_of_singleton. naive_solver.
  - cbn. unfold entries, thread. cbn. rewrite map_get_set, jeqb_refl. done.
  - intros k Hk. unfold entries, thread. cbn. rewrite map_get_set. by rewrite (proj2 (jeqb_neq key k)).
Qed.
Lemma still_request_typing c fp s : still (request c s) (request c (stopTyping fp s)).
Proof. unfold stopTyping. by destruct (map_has (pg_sentAt s) fp). Qed.
Lemma settled_answer key c t s : settled key c s (setThread key t (answered (CSend key c) s)).
Proof.
  split_and!; [done|..].
  - intros k x. cbn. rewrite elem_of_filterb, negb_true_iff, bool_decide_eq_false. naive_solver.
  - intros k Hk. rewrite entries_set. by rewrite (proj2 (jeqb_neq key k)).
Qed.
Lemma answered_entries key c t s : entries (setThread key t (answered (CSend key c) s)) key = ts_entries t.
Proof. by rewrite entries_set, jeqb_refl. Qed.

Lemma send_answer_fine key c r s : synced s → (∀ e, r = inr e → copy key (entryFromApi e)) → fine s (send_answer key c r s).
Proof.
  intros Hs Hr. unfold send_answer. case_bool_decide as Hc; cbn [negb]; [|by apply still_fine].
  destruct r as [m|e].
  - eapply failed_fine; [done|done|apply settled_answer|apply answered_entries].
  - cbv zeta. eapply fine_then; [|by split]. eapply reconciled_fine; [done|done|apply settled_answer|by eapply Hr|apply answered_entries].
Qed.
Lemma sendGroup_answer_fine key c r s : synced s → (∀ e, r = inr (Some e) → copy key (entryFromApi e)) → fine s (sendGroup_answer key c r s).
Proof.
  intros Hs Hr. unfold sendGroup_answer. case_bool_decide as Hc; cbn [negb]; [|by apply still_fine].
  destruct r as [m|[e|]].
  - eapply failed_fine; [done|done|apply settled_answer|apply answered_entries].
  - cbv zeta. eapply fine_then; [|by split]. eapply reconciled_fine; [done|done|apply settled_answer|by eapply Hr|apply answered_entries].
  - eapply failed_fine; [done|done|apply settled_answer|apply answered_entries].
Qed.
Lemma discard_fine key c s : synced s → true_op s (ODiscard key c) → fine s (discard key c s).1.
Proof. intros Hs Ht. eapply discarded_fine; [done|exact Ht|apply moved_set|]. cbn. by rewrite entries_set, jeqb_refl. Qed.

Lemma frame_fine f s : synced s → true_op s (OFrame f) → fine s (onFrame f s).
Proof.
  intros Hs Ht. destruct f as [fp m|fp e|sid r| |gid m|gid e|].
  - cbn [onFrame]. eapply fine_then; [by apply (inbound_fine fp m)|]. by case_match.
  - by apply outbound_fine.
  - apply still_fine; [apply still_alter_frame|done].
  - apply still_fine; [|done]. cbn [onFrame]. by case_match.
  - by apply inbound_fine.
  - by apply outbound_fine.
  - by apply still_fine.
Qed.

Lemma step_fine s o : synced s → true_op s o → fine s (page_step base36 s o).
Proof.
  intros Hs Ht. destruct o; cbn [page_step];
    try (apply still_fine; [|exact Hs]; first
      [ apply still_open | apply still_close | apply still_loadAlter | apply still_history_answer | apply still_load | apply still_refetch
      | apply still_noteTyping | apply still_stopTyping | apply still_instruct_answer ]).
  - apply still_fine; [|done]. unfold toggle. case_match; [apply still_close|apply still_open].
  - apply still_fine; [|done]. unfold select. case_match; [done|]. etrans; [|apply still_prime]. done.
  - apply still_fine; [|done]. unfold setCol2Tab. by case_match.
  - apply still_fine; [|done]. unfold setPaneTab. by case_match.
  - apply still_fine; [|done]. unfold history_fires. case_match; [|done]. etrans; [|apply still_loadAlter]. done.
  - apply still_fine; [|done]. unfold instruct. case_match; [done|]. cbv zeta. etrans; [|by apply still_request]. done.
  - apply still_fine; [|done]. unfold decideDraft. case_match; [done|]. etrans; [|by apply still_request]. done.
  - apply decide_fine; [done|]. intros fp e ->. done.
  - apply still_fine; [|done]. unfold loadOlder. cbv zeta. case_match; [done|apply still_load].
  - apply still_fine; [|done]. unfold prefetch. case_match; [done|apply still_load].
  - apply thread_answer_fine; [done|]. intros es -> e He. by apply Ht.
  - unfold send. case_match; [by apply still_fine|]. eapply send_fine; [done|]. apply still_request_typing.
  - apply send_answer_fine; [done|]. intros e ->. done.
  - unfold sendGroup. case_match; [by apply still_fine|]. by eapply send_fine.
  - apply sendGroup_answer_fine; [done|]. intros e ->. done.
  - by apply discard_fine.
  - apply still_fine; [|done]. unfold typing_fires. case_match; [apply still_stopTyping|done].
  - by apply frame_fine.
  - apply still_fine; [|done]. unfold persist_fires. by case_match.
Qed.

Lemma new_page_synced stored : synced (new_page stored).
Proof.
  split; [done|]. intros key. split; cbn; [|constructor|intros e He; by apply not_elem_of_nil in He|intros c Hc; by apply not_elem_of_nil in Hc].
  split; [constructor|..]; intros e; intros; by destruct (not_elem_of_nil e).
Qed.
Lemma true_run_app s ops ops' : true_run s (ops ++ ops') ↔ true_run s ops ∧ true_run (fold_left (page_step base36) ops s) ops'.
Proof. revert s. induction ops as [|o ops IH]; intros s; cbn; [tauto|]. rewrite IH. tauto. Qed.
Lemma run_fine s ops : synced s → true_run s ops → fine s (fold_left (page_step base36) ops s).
Proof.
  revert s. induction ops as [|o ops IH]; intros s Hs; cbn.
  - intros _. by apply still_fine.
  - intros [Ho Hr]. destruct (step_fine s o Hs Ho) as [A B]. destruct (IH _ A Hr) as [C D]. split; [done|].
    intros key e He Hc. specialize (B key e He Hc). apply list_elem_of_fmap in B as (e' & E & He').
    rewrite E. apply D; [done|]. destruct A as [_ A]. destruct (he_shown _ _ _ (cv_held _ _ (A key)) e' He') as [?|(_ & _ & Hl & _)]; [done|].
    apply copy_foreign in Hc. congruence.
Qed.
Lemma page_after_synced stored ops : true_run (new_page stored) ops → synced (page_after stored ops).
Proof. intros Hr. apply (run_fine (new_page stored) ops); [apply new_page_synced|done]. Qed.

(** The numbered lines of a thread and the rest of it. *)
Definition lines_of (l : list ThreadEntry) : list ThreadEntry := filterb (λ e, 0 <? te_seq e) l.
Definition rest_of (l : list ThreadEntry) : list ThreadEntry := filterb (λ e, negb (0 <? te_seq e)) l.
Lemma lines_then_rest l : StronglySorted lines_le l → l = lines_of l ++ rest_of l.
Proof.
  induction 1 as [|e l Hs IH Ha]; [done|]. unfold lines_of, rest_of in *. cbn. destruct (Z.ltb_spec 0 (te_seq e)) as [Hp|Hp]; cbn; [by rewrite <- IH|].
  assert (filterb (λ e, 0 <? te_seq e) l = []) as E.
  { apply elem_of_nil_inv. intros x [Hx Hpx%Z.ltb_lt]%elem_of_filterb. apply (proj1 (Forall_forall _ _) Ha) in Hx. unfold lines_le in Hx. lia. }
  rewrite E in *. cbn in *. by f_equal.
Qed.
Lemma lines_strict key nm l : held key nm l → StronglySorted lines_le l → StronglySorted Z.lt (map te_seq (lines_of l)).
Proof.
  intros Hh Hs. assert (∀ x, x ∈ l → 0 < te_seq x → copy key x) as Hc by (intros x Hx Hp; destruct (he_shown _ _ _ Hh x Hx) as [?|(? & _)]; [done|lia]).
  destruct Hh as [Hnd _ _ _]. induction Hs as [|e l Hs IH Ha]; cbn; [constructor|]. cbn in Hnd. apply NoDup_cons in Hnd as [Hnew Hnd].
  destruct (Z.ltb_spec 0 (te_seq e)) as [Hp|Hp]; cbn; [|apply IH; [done|intros x Hx; apply Hc; by right]].
  constructor; [apply IH; [done|intros x Hx; apply Hc; by right]|]. apply Forall_forall. intros n (x & -> & Hx)%list_elem_of_fmap.
  apply elem_of_filterb in Hx as [Hx Hpx%Z.ltb_lt]. pose proof (proj1 (Forall_forall _ _) Ha x Hx Hpx) as [_ Hle].
  destruct (decide (te_seq e = te_seq x)) as [E|]; [|lia]. destruct Hnew. rewrite (copy_id key e), E, <- (copy_id key x); [by apply list_elem_of_fmap_2|apply Hc; [by right|done]|done|apply Hc; [by left|done]|done].
Qed.

Lemma conv_in_order s key :
  conv s key → let l := entries s key in
  l = lines_of l ++ rest_of l ∧ StronglySorted Z.lt (map te_seq (lines_of l)) ∧
  (∀ e, e ∈ lines_of l → copy key e ∧ line_of e = line key (te_seq e)) ∧
  (∀ e, e ∈ rest_of l → bubble e ∨ ∃ n, 0 < n ∧ line_of e = line key n) ∧
  NoDup (map te_id l).
Proof.
  intros [H1 H2 _ _] l. fold l in H1, H2. split_and!; [by apply lines_then_rest|by eapply lines_strict| | |apply H1].
  - intros e [He Hs%Z.ltb_lt]%elem_of_filterb. destruct (he_shown _ _ _ H1 e He) as [Hc|(? & _)]; [|lia]. split; [done|]. destruct Hc as [[[_ ?]|[? _]] _]; [done|lia].
  - intros e [He _]%elem_of_filterb. destruct (he_shown _ _ _ H1 e He) as [(n & ? & ? & _)%copy_line|]; [right; eauto|by left].
Qed.
Lemma strict_unique (l k : list Z) : StronglySorted Z.lt l → StronglySorted Z.lt k → (∀ n, n ∈ l ↔ n ∈ k) → l = k.
Proof.
  assert (∀ l, StronglySorted Z.lt l → StronglySorted Z.le l ∧ NoDup l) as Hd.
  { clear. induction 1 as [|x l Hs [IH1 IH2] Ha]; [split; constructor|]. split; constructor; [done| |..|done].
    - eapply Forall_impl; [exact Ha|]. lia.
    - intros Hx. apply (proj1 (Forall_forall _ _) Ha) in Hx. lia. }
  intros [Hl Nl]%Hd [Hk Nk]%Hd E. apply (StronglySorted_unique Z.le); [done..|]. by apply NoDup_Permutation.
Qed.
Lemma seqZ_strict m (n : nat) : StronglySorted Z.lt (seqZ m (Z.of_nat n)).
Proof.
  revert m. induction n as [|n IH]; intros m; [constructor|]. rewrite seqZ_cons by lia. replace (Z.pred (Z.of_nat (S n))) with (Z.of_nat n) by lia.
  constructor; [apply IH|]. apply Forall_seqZ. lia.
Qed.
Lemma shows_lines l n : n ∈ map te_seq (lines_of l) ↔ 0 < n ∧ shows l n.
Proof.
  rewrite list_elem_of_fmap. unfold lines_of, shows. split.
  - intros (e & -> & [He Hp%Z.ltb_lt]%elem_of_filterb). eauto.
  - intros (Hn & e & He & <-). exists e. split; [done|]. apply elem_of_filterb. split; [done|]. by apply Z.ltb_lt.
Qed.

(** An accepted archive page: its numbers and those of before are shown, and no others. *)
Lemma page_numbers s key size es n :
  conv s key → CThread key size ∈ pg_calls s → (∀ e, e ∈ es → copy key (entryFromApi e) ∧ 0 < ae_seq e) → 0 < n →
  shows (entries (thread_answer key size (inr es) s) key) n ↔ shows (entries s key) n ∨ n ∈ map ae_seq es.
Proof.
  intros Hs Hc Hes Hn. assert (entries (thread_answer key size (inr es) s) key = mergeEntries (entries s key) (map entryFromApi es)) as ->.
  { unfold thread_answer. rewrite bool_decide_eq_true_2 by done. cbn [negb]. cbv zeta.
    change (entries (with_inflight ?a ?b) key) with (entries b key). by rewrite entries_set, jeqb_refl. }
  destruct (merge_shows key _ _ (map entryFromApi es) (cv_held _ _ Hs)) as [Hnew Hold].
  { intros e (x & -> & Hx)%list_elem_of_fmap. destruct (Hes x Hx). done. }
  assert (map te_seq (map entryFromApi es) = map ae_seq es) as E by (rewrite map_map; done). split.
  - intros Hm%merge_numbers. by rewrite E in Hm.
  - intros [Hm|(x & -> & Hx)%list_elem_of_fmap]; [by apply Hold|]. apply (Hnew (entryFromApi x)). by apply list_elem_of_fmap_2.
Qed.

(** *** Theorems *)


(** A message of the archive that a thread shows never disappears from it, by
    no later answer, frame, failure or discarded bubble. *)
Theorem messages_stay (stored : option json) (ops later : list PageOp) (key : list Z) (e : ThreadEntry)
    (Hr : true_run (new_page stored) (ops ++ later)) (He : e ∈ entries (page_after stored ops) key) (Hc : bubble e → False) :
  te_id e ∈ map te_id (entries (page_after stored (ops ++ later)) key).
Proof.
  apply true_run_app in Hr as [Hr Hl]. pose proof (page_after_synced stored ops Hr) as Hs.
  unfold page_after, run_page. rewrite fold_left_app. apply (run_fine _ later Hs Hl); [done|].
  destruct (he_shown _ _ _ (cv_held _ _ (proj2 Hs key)) e He); [done|by destruct Hc].
Qed.


(** Two pages of the same host (two tabs) that show the same line numbers of a
    conversation show the same messages in the same order. *)
Theorem pages_agree (stored stored' : option json) (ops ops' : list PageOp) (key : list Z)
    (Hr : true_run (new_page stored) ops) (Hr' : true_run (new_page stored') ops')
    (Hn : ∀ n, 0 < n → shows (entries (page_after stored ops) key) n ↔ shows (entries (page_after stored' ops') key) n) :
  map line_of (lines_of (entries (page_after stored ops) key)) = map line_of (lines_of (entries (page_after stored' ops') key)).
Proof.
  destruct (conv_in_order _ key (proj2 (page_after_synced stored _ Hr) key)) as (_ & B & C & _ & _).
  destruct (conv_in_order _ key (proj2 (page_after_synced stored' _ Hr') key)) as (_ & B' & C' & _ & _).
  set (l := lines_of (entries (page_after stored ops) key)) in *. set (l' := lines_of (entries (page_after stored' ops') key)) in *.
  assert (∀ k, (∀ e, e ∈ k → copy key e ∧ line_of e = line key (te_seq e)) → map line_of k = map (line key) (map te_seq k)) as Hm.
  { intros k Hk. rewrite map_map. apply map_ext_in. intros e He. apply Hk. by apply list_elem_of_In. }
  rewrite (Hm l C), (Hm l' C'). f_equal. apply strict_unique; [done..|]. intros n. unfold l, l'. rewrite !shows_lines. naive_solver.
Qed.
End sync.

(** ** A conversation *)

(** An archive of my own messages, and a run in which the frame of the second
    line comes before the answer to the send that made it, which is lost. *)
Definition diary : Archive.
Proof.
  refine {| line := λ _ n, mkLine dir_out [n] (js "hi") |}; [by intros _ m n _ _ [= ->]|]. intros key n. unfold local. apply not_true_iff_false.
  intros [r Hr]%startsWith_prefix. apply (f_equal length) in Hr. rewrite length_app in Hr. by vm_compute in Hr.
Defined.
Definition said (n : Z) : ApiEntry := mkAE n dir_out [n] (js "hi") 5 None None None None None (Some (js "sent")) None.
Definition talk : list PageOp :=
  [OLoad (js "f1") None; OThread (js "f1") 50 (inr [said 1]); OSend (js "f1") (js "hi") 5; OFrame (PfOutbound (js "f1") (said 2));
   OSent (js "f1") (client_id demo36 5 1) (inl (js "timeout")); OSend (js "f1") (js "hi") 6; OSent (js "f1") (client_id demo36 6 2) (inr (said 3));
   OLoad (js "f1") None].
Definition page_one : list ApiEntry := [said 1; said 2; said 3].

#[local] Existing Instance diary.
#[local] Existing Instance ByLength.
Lemma said_copy n : 0 < n → copy (js "f1") (entryFromApi (said n)).
Proof. intros Hn. split; [left; by split|]. by vm_compute. Qed.
Lemma talk_true : true_run demo36 (new_page None) (talk ++ [OThread (js "f1") 50 (inr page_one)]).
Proof.
  unfold talk, page_one. cbn [app true_run]. split_and!; try exact I; cbn [true_op]; try (by apply said_copy).
  - intros e ->%list_elem_of_singleton. split; [by apply said_copy|done].
  - intros e. rewrite !elem_of_cons, elem_of_nil. intros [->|[->|[->|[]]]]; (split; [by apply said_copy|done]).
Qed.

(** The message whose answer was lost stands twice: as line 2 and as a failed bubble. *)
Example talk_demo :
  map (λ e, (te_seq e, te_body e, te_status e)) (entries (page_after demo36 None talk) (js "f1")) =
    [(1, js "hi", Some (js "sent")); (2, js "hi", Some (js "sent")); (3, js "hi", Some (js "sent")); (0, js "hi", FAILED)].
Proof. vm_compute. reflexivity. Qed.

Lemma messages_stay_witness : [1] ∈ map te_id (entries (page_after demo36 None (take 2 talk ++ drop 2 talk)) (js "f1")).
Proof.
  apply (messages_stay demo36 None (take 2 talk) (drop 2 talk) (js "f1") (entryFromApi (said 1))).
  - exact (proj1 (proj1 (true_run_app demo36 _ _ _) talk_true)).
  - vm_compute. by left.
  - intros (Hs & _). done.
Defined.
Lemma pages_agree_witness :
  map line_of (lines_of (entries (page_after demo36 None talk) (js "f1"))) = map line_of (lines_of (entries (page_after demo36 (Some JNull) talk) (js "f1"))).
Proof.
  apply (pages_agree demo36 None (Some JNull) talk talk (js "f1")).
  - exact (proj1 (proj1 (true_run_app demo36 _ _ _) talk_true)).
  - exact (proj1 (proj1 (true_run_app demo36 _ _ _) talk_true)).
  - intros n _. vm_compute. done.
Defined.
