(* ===== verification/GroupLink.v ===== *)
(** * The link of a group (client/group-room.ts, network/fake.ts)

    [encodeGroupUri] writes the public join handle of a group with
    [URLSearchParams], and the in-memory backend reads it back with
    [URLSearchParams].  The serializer and the parser of
    application/x-www-form-urlencoded are written out here, with the UTF-8
    encoder and decoder they use. *)

From S2P Require Import Prelude JsString JsMap Json Policy GroupContract Network FakeNetwork.
#[local] Open Scope Z_scope.

(** ** Text as code points and bytes *)

Definition is_high (c : Z) : bool := (55296 <=? c) && (c <=? 56319).
Definition is_low (c : Z) : bool := (56320 <=? c) && (c <=? 57343).
(** The code points of a string; a lone surrogate reads as U+FFFD. *)
Fixpoint scalars (s : list Z) : list Z :=
  match s with
  | [] => []
  | c :: s' =>
      if is_low c then 65533 :: scalars s'
      else if is_high c then
        match s' with
        | d :: s'' => if is_low d then ((c - 55296) * 1024 + (d - 56320) + 65536) :: scalars s'' else 65533 :: scalars s'
        | [] => [65533]
        end
      else c :: scalars s'
  end.
Definition units_of (cp : Z) : list Z := if cp <? 65536 then [cp] else [55296 + (cp - 65536) / 1024; 56320 + (cp - 65536) mod 1024].
Definition units (cps : list Z) : list Z := concat (map units_of cps).
Definition to_bytes (s : list Z) : list Z := concat (map utf8 (scalars s)).

(** The UTF-8 decoder: the code point under way, how many bytes it still
    needs and the range of the next one.  A byte out of range ends it with
    U+FFFD and is read again as a first byte. *)
Record U8 := mkU8 { u_cp : Z; u_need : nat; u_lower : Z; u_upper : Z }.
Definition u_start : U8 := mkU8 0 0 128 191.
Definition u_lead (b : Z) : list Z * U8 :=
  if b <? 128 then ([b], u_start)
  else if (194 <=? b) && (b <=? 223) then ([], mkU8 (b - 192) 1 128 191)
  else if (224 <=? b) && (b <=? 239) then ([], mkU8 (b - 224) 2 (if b =? 224 then 160 else 128) (if b =? 237 then 159 else 191))
  else if (240 <=? b) && (b <=? 244) then ([], mkU8 (b - 240) 3 (if b =? 240 then 144 else 128) (if b =? 244 then 143 else 191))
  else ([65533], u_start).
Definition u_step (st : U8) (b : Z) : list Z * U8 :=
  match u_need st with
  | O => u_lead b
  | S n =>
      if (u_lower st <=? b) && (b <=? u_upper st)
      then let cp := u_cp st * 64 + (b - 128) in match n with O => ([cp], u_start) | S _ => ([], mkU8 cp n 128 191) end
      else let '(out, st') := u_lead b in (65533 :: out, st')
  end.
Fixpoint u_run (st : U8) (bs : list Z) : list Z :=
  match bs with
  | [] => match u_need st with O => [] | S _ => [65533] end
  | b :: bs' => let '(out, st') := u_step st b in out ++ u_run st' bs'
  end.
Definition of_bytes (bs : list Z) : list Z := units (u_run u_start bs).

(** ** application/x-www-form-urlencoded *)

Definition form_safe (b : Z) : bool := is_lower b || JsString.is_upper b || is_digit b || bool_decide (b ∈ [42; 45; 46; 95]).
Definition form_byte (b : Z) : list Z := if b =? 32 then [43] else if form_safe b then [b] else pct b.
Definition form_encode (s : list Z) : list Z := concat (map form_byte (to_bytes s)).
(** [URLSearchParams.prototype.toString]. *)
Definition form_serialize (l : list (list Z * list Z)) : list Z :=
  jjoin [38] (map (λ kv, form_encode kv.1 ++ 61 :: form_encode kv.2) l).

Definition hex_value (c : Z) : option Z :=
  if is_digit c then Some (c - 48) else if (65 <=? c) && (c <=? 70) then Some (c - 55) else if (97 <=? c) && (c <=? 102) then Some (c - 87) else None.
Fixpoint percent_decode (bs : list Z) : list Z :=
  match bs with
  | [] => []
  | b :: bs' =>
      match bs' with
      | h :: l :: bs'' =>
          match (if b =? 37 then hex_value h else None), hex_value l with
          | Some x, Some y => (x * 16 + y) :: percent_decode bs''
          | _, _ => b :: percent_decode bs'
          end
      | _ => b :: percent_decode bs'
      end
  end.
Definition form_text (bs : list Z) : list Z := of_bytes (percent_decode (map (λ b, if b =? 43 then 32 else b) bs)).
(** The part before the first [=] and the part after it. *)
Fixpoint cut_at (c : Z) (bs : list Z) : list Z * list Z :=
  match bs with
  | [] => ([], [])
  | b :: bs' => if b =? c then ([], bs') else let '(x, y) := cut_at c bs' in (b :: x, y)
  end.
Definition form_pair (bs : list Z) : option (list Z * list Z) :=
  match bs with [] => None | _ => let '(k, v) := cut_at 61 bs in Some (form_text k, form_text v) end.
(** [new URLSearchParams(s)]. *)
Definition form_parse (s : list Z) : list (list Z * list Z) :=
  omap form_pair (split_on 38 (to_bytes (match s with 63 :: s' => s' | _ => s end))).
(** [.get(k)]: the first value. *)
Definition url_get (q k : list Z) : option (list Z) := map_get (form_parse q) k.

(** ** The link *)

(** [URLSearchParams.prototype.set] on names that are set once each is [map_set]. *)
Definition encodeGroupUri (gid relay : list Z) (name : option (list Z)) : list Z :=
  let q := map_set [] (js "gid") gid in
  let q := match name with Some n => if jeqb n [] then q else map_set q (js "name") n | None => q end in
  js "soulmirror://group?" ++ form_serialize (map_set q (js "relay") relay).

Example link_demo :
  encodeGroupUri (js "g1") (js "wss://r.example/x") (Some (js "午茶 & co")) =
    js "soulmirror://group?gid=g1&name=%E5%8D%88%E8%8C%B6+%26+co&relay=wss%3A%2F%2Fr.example%2Fx" ∧
  form_parse (js "gid=g1&&name=%E5%8D%88%zz+%FF&x") = [(js "gid", js "g1"); (js "name", js "午%zz " ++ [65533]); (js "x", [])].
Proof. split; vm_compute; reflexivity. Qed.

(** ** Round trips of the codecs *)

(** Strings of code units, and Unicode scalar values. *)
Definition text (s : list Z) : Prop := Forall (λ c, 0 <= c < 65536) s.
Definition scalar (cp : Z) : Prop := 0 <= cp < 55296 ∨ 57344 <= cp < 1114112.
(** No lone surrogate. *)
Definition well_formed (s : list Z) : Prop := units (scalars s) = s.

Lemma is_low_spec c : is_low c = true ↔ 56320 <= c <= 57343.
Proof. unfold is_low. lia. Qed.
Lemma is_high_spec c : is_high c = true ↔ 55296 <= c <= 56319.
Proof. unfold is_high. lia. Qed.
Lemma plain_scalar c : 0 <= c < 65536 → is_low c = false → is_high c = false → scalar c.
Proof. unfold is_low, is_high, scalar. lia. Qed.
Lemma pair_scalar c d : is_high c = true → is_low d = true → scalar ((c - 55296) * 1024 + (d - 56320) + 65536).
Proof. rewrite is_high_spec, is_low_spec. unfold scalar. lia. Qed.

Lemma scalars_scalar s : text s → Forall scalar (scalars s).
Proof.
  assert (∀ n s, (length s <= n)%nat → text s → Forall scalar (scalars s)) as Hn; [|by apply (Hn (length s))].
  assert (scalar 65533) as Hr by (right; lia).
  induction n as [|n IH]; intros [|c s'] Hl Ht; cbn in Hl; try lia; try by constructor. apply Forall_cons in Ht as [Hc Ht]. cbn [scalars].
  assert (Forall scalar (scalars s')) as H1 by (apply IH; [lia|done]).
  destruct (is_low c) eqn:E1; [by constructor|]. destruct (is_high c) eqn:E2; [|constructor; [by apply plain_scalar|done]].
  destruct s' as [|d s'']; [by repeat constructor|]. destruct (is_low d) eqn:E3; [|by constructor].
  constructor; [by apply pair_scalar|]. apply IH; [cbn in Hl; lia|]. by apply Forall_cons in Ht as [_ ?].
Qed.

(** The parts of a code point: its digits in base 64. *)
Lemma digits64 cp : 0 <= cp < 1114112 →
  ∃ a b c d, cp = ((a * 64 + b) * 64 + c) * 64 + d ∧ 0 <= a < 5 ∧ 0 <= b < 64 ∧ 0 <= c < 64 ∧ 0 <= d < 64 ∧
  cp / 262144 = a ∧ cp / 4096 = a * 64 + b ∧ cp / 4096 mod 64 = b ∧ cp / 64 = (a * 64 + b) * 64 + c ∧ cp / 64 mod 64 = c ∧ cp mod 64 = d.
Proof.
  intros Hc. exists (cp / 64 / 64 / 64), (cp / 64 / 64 mod 64), (cp / 64 mod 64), (cp mod 64).
  pose proof (Z.div_mod cp 64). pose proof (Z.div_mod (cp / 64) 64). pose proof (Z.div_mod (cp / 64 / 64) 64).
  pose proof (Z.mod_pos_bound cp 64). pose proof (Z.mod_pos_bound (cp / 64) 64). pose proof (Z.mod_pos_bound (cp / 64 / 64) 64).
  assert (cp / 4096 = cp / 64 / 64) as -> by (by rewrite Z.div_div). assert (cp / 262144 = cp / 64 / 64 / 64) as -> by (by rewrite !Z.div_div).
  set (x := cp / 64) in *. set (y := x / 64) in *. set (z := y / 64) in *. set (d := cp mod 64) in *. set (c := x mod 64) in *. set (b := y mod 64) in *. clearbody x y z b c d. lia.
Qed.

(** Evaluate the comparisons that the context decides, and split the equalities it leaves open. *)
Ltac bounds := repeat match goal with
  | |- context [?a <? ?b] => first [rewrite (proj2 (Z.ltb_lt a b)) by lia | rewrite (proj2 (Z.ltb_ge a b)) by lia]
  | |- context [?a <=? ?b] => first [rewrite (proj2 (Z.leb_le a b)) by lia | rewrite (proj2 (Z.leb_gt a b)) by lia]
  | |- context [?a =? ?b] => destruct (Z.eqb_spec a b)
  end.

Lemma utf8_bytes cp : scalar cp → Forall (λ b, 0 <= b < 256) (utf8 cp).
Proof.
  intros Hc. destruct (digits64 cp) as (a & b & c & d & E & Ha & Hb & Hcc & Hd & E1 & E2 & E3 & E4 & E5 & E6); [unfold scalar in Hc; lia|].
  unfold utf8. rewrite E1, E3, E5, E6, E2, E4. destruct (Z.ltb_spec cp 128); [|destruct (Z.ltb_spec cp 2048); [|destruct (Z.ltb_spec cp 65536)]];
    repeat (apply Forall_cons; split); try apply Forall_nil; lia.
Qed.

Lemma utf8_decode cp bs : scalar cp → u_run u_start (utf8 cp ++ bs) = cp :: u_run u_start bs.
Proof.
  intros Hc. destruct (digits64 cp) as (a & b & c & d & E & Ha & Hb & Hcc & Hd & E1 & E2 & E3 & E4 & E5 & E6); [unfold scalar in Hc; lia|].
  unfold utf8. rewrite E1, E3, E5, E6, E2, E4. unfold scalar in Hc. clear E1 E2 E3 E4 E5 E6.
  destruct (Z.ltb_spec cp 128); [|destruct (Z.ltb_spec cp 2048); [|destruct (Z.ltb_spec cp 65536)]]; cbn [app u_run]; unfold u_step at 1; cbn [u_need u_start]; unfold u_lead; bounds; cbn [andb app].
  all: repeat (unfold u_step at 1; cbn [u_need u_lower u_upper u_cp]; bounds; cbn [andb app u_run]).
  all: f_equal; lia.
Qed.
Lemma utf8_run cps : Forall scalar cps → u_run u_start (concat (map utf8 cps)) = cps.
Proof. induction 1 as [|cp cps Hc _ IH]; [done|]. cbn [map concat]. by rewrite utf8_decode, IH. Qed.

(** Escapes. *)
Lemma hex_roundtrip n : 0 <= n < 16 → hex_value (hex_digit n) = Some n.
Proof. intros Hn. unfold hex_value, hex_digit, is_digit. destruct (Z.ltb_spec n 10); bounds; cbn; f_equal; lia. Qed.
Lemma hex_digit_range n : 0 <= n < 16 → 48 <= hex_digit n <= 70 ∧ hex_digit n ≠ 61 ∧ hex_digit n ≠ 63.
Proof. intros Hn. unfold hex_digit. destruct (Z.ltb_spec n 10); lia. Qed.
Lemma percent_plain b bs : b ≠ 37 → percent_decode (b :: bs) = b :: percent_decode bs.
Proof. intros Hb. cbn. rewrite (proj2 (Z.eqb_neq b 37)) by done. by destruct bs as [|h [|l bs]]. Qed.
Lemma percent_pct b bs : 0 <= b < 256 → percent_decode (pct b ++ bs) = b :: percent_decode bs.
Proof.
  intros Hb. assert (0 <= b / 16 < 16) as Hq by (split; [apply Z.div_pos|apply Z.div_lt_upper_bound]; lia). pose proof (Z.mod_pos_bound b 16).
  cbn [app pct percent_decode]. change (37 =? 37) with true. cbn iota. rewrite !hex_roundtrip by lia. f_equal. pose proof (Z.div_mod b 16). lia.
Qed.
Definition space (b : Z) : Z := if b =? 43 then 32 else b.
Lemma space_plain b : b ≠ 43 → space b = b.
Proof. intros Hb. unfold space. by rewrite (proj2 (Z.eqb_neq b 43)). Qed.
Lemma form_safe_range b : form_safe b = true → 42 <= b <= 122 ∧ b ≠ 43 ∧ b ≠ 61 ∧ b ≠ 63.
Proof.
  unfold form_safe, is_lower, JsString.is_upper, is_digit. rewrite !orb_true_iff, !andb_true_iff, !Z.leb_le, bool_decide_eq_true, !elem_of_cons, elem_of_nil. lia.
Qed.
Lemma form_byte_decode b bs : 0 <= b < 256 → percent_decode (map space (form_byte b ++ bs)) = b :: percent_decode (map space bs).
Proof.
  intros Hb. unfold form_byte. destruct (Z.eqb_spec b 32) as [->|Hn]; [by apply percent_plain|]. destruct (form_safe b) eqn:Es.
  - apply form_safe_range in Es. cbn [app map]. rewrite space_plain by lia. apply percent_plain. lia.
  - assert (0 <= b / 16 < 16) as Hq by (split; [apply Z.div_pos|apply Z.div_lt_upper_bound]; lia). pose proof (Z.mod_pos_bound b 16) as Hm.
    rewrite map_app. replace (map space (pct b)) with (pct b); [by apply percent_pct|]. unfold pct. cbn [map].
    pose proof (hex_digit_range (b / 16) Hq). pose proof (hex_digit_range (b mod 16)). rewrite !space_plain by lia. done.
Qed.

Lemma text_bytes s : text s → Forall (λ b, 0 <= b < 256) (to_bytes s).
Proof.
  intros Hs%scalars_scalar. unfold to_bytes. induction Hs as [|cp cps Hc _ IH]; [constructor|]. cbn [map concat]. apply Forall_app. split; [by apply utf8_bytes|done].
Qed.
Lemma form_decode bs : Forall (λ b, 0 <= b < 256) bs → percent_decode (map space (concat (map form_byte bs))) = bs.
Proof. induction 1 as [|b bs Hb _ IH]; [done|]. cbn [map concat]. by rewrite form_byte_decode, IH. Qed.
Lemma form_text_encode s : text s → form_text (form_encode s) = units (scalars s).
Proof.
  intros Hs. unfold form_text, form_encode. change (λ b, if b =? 43 then 32 else b) with space. rewrite form_decode by by apply text_bytes.
  unfold of_bytes, to_bytes. by rewrite utf8_run by by apply scalars_scalar.
Qed.

(** The characters of an encoded part: plain ones, with neither of the two separators. *)
Definition plain (c : Z) : Prop := 37 <= c <= 122 ∧ c ≠ 38 ∧ c ≠ 61 ∧ c ≠ 63.
Lemma form_byte_plain b : 0 <= b < 256 → Forall plain (form_byte b).
Proof.
  intros Hb. unfold form_byte, plain. destruct (Z.eqb_spec b 32); [repeat constructor; done|]. destruct (form_safe b) eqn:Es.
  - apply form_safe_range in Es. apply Forall_cons. split; [lia|constructor].
  - assert (0 <= b / 16 < 16) as Hq by (split; [apply Z.div_pos|apply Z.div_lt_upper_bound]; lia). pose proof (Z.mod_pos_bound b 16) as Hm.
    pose proof (hex_digit_range (b / 16) Hq). pose proof (hex_digit_range (b mod 16)). unfold pct. repeat (apply Forall_cons; split); try apply Forall_nil; lia.
Qed.
Lemma form_encode_plain s : text s → Forall plain (form_encode s).
Proof.
  intros Hs%text_bytes. unfold form_encode. induction Hs as [|b bs Hb _ IH]; [constructor|]. cbn [map concat]. apply Forall_app. split; [by apply form_byte_plain|done].
Qed.
Lemma plain_not c l : (c = 38 ∨ c = 61) → Forall plain l → c ∉ l.
Proof. intros Hc Hl Hin. pose proof (proj1 (Forall_forall _ _) Hl _ Hin) as Hp. unfold plain in Hp. lia. Qed.

Lemma ascii_bytes s : Forall (λ c, 0 <= c < 128) s → to_bytes s = s.
Proof.
  unfold to_bytes. induction 1 as [|c s Hc _ IH]; [done|]. cbn [scalars]. destruct (is_low c) eqn:E1; [apply is_low_spec in E1; lia|].
  destruct (is_high c) eqn:E2; [apply is_high_spec in E2; lia|]. cbn [map concat]. rewrite IH. unfold utf8. by rewrite (proj2 (Z.ltb_lt c 128)) by lia.
Qed.

(** One [name=value] part and a list of them. *)
Definition part (kv : list Z * list Z) : list Z := form_encode kv.1 ++ 61 :: form_encode kv.2.
Definition text_pair (kv : list Z * list Z) : Prop := text kv.1 ∧ text kv.2.
Definition usv (s : list Z) : list Z := units (scalars s).
Lemma cut_at_app c x y : c ∉ x → cut_at c (x ++ c :: y) = (x, y).
Proof.
  induction x as [|b x IH]; cbn; intros Hx; [by rewrite Z.eqb_refl|]. rewrite (proj2 (Z.eqb_neq b c)) by set_solver. by rewrite IH by set_solver.
Qed.
Lemma form_pair_part kv : text_pair kv → form_pair (part kv) = Some (usv kv.1, usv kv.2).
Proof.
  intros [Hk Hv]. unfold form_pair, part. destruct (form_encode kv.1 ++ 61 :: form_encode kv.2) eqn:E; [by destruct (form_encode kv.1)|]. rewrite <- E.
  rewrite cut_at_app by (apply plain_not; [by right|by apply form_encode_plain]). by rewrite !form_text_encode.
Qed.
Lemma part_chars kv : text_pair kv → Forall (λ c, 37 <= c <= 122 ∧ c ≠ 38 ∧ c ≠ 63) (part kv).
Proof.
  intros [Hk Hv]. assert (∀ s, text s → Forall (λ c, 37 <= c <= 122 ∧ c ≠ 38 ∧ c ≠ 63) (form_encode s)) as He.
  { intros s Hs. eapply Forall_impl; [by apply form_encode_plain|]. unfold plain. cbn. lia. }
  unfold part. apply Forall_app. split; [by apply He|]. apply Forall_cons. split; [lia|by apply He].
Qed.
Lemma join_parts l : Forall text_pair l → l ≠ [] → split_on 38 (jjoin [38] (map part l)) = map part l.
Proof.
  intros Hl. induction Hl as [|kv l Hkv Hl IH]; intros Hn; [done|]. assert (38 ∉ part kv) as Hp.
  { intros Hin. pose proof (proj1 (Forall_forall _ _) (part_chars kv Hkv) _ Hin) as H. cbn in H. lia. }
  destruct l as [|kv' l]; [cbn; by apply split_on_none|]. cbn [map]. change (jjoin [38] (part kv :: part kv' :: map part l)) with (part kv ++ 38 :: jjoin [38] (map part (kv' :: l))).
  rewrite split_on_app by done. f_equal. by apply IH.
Qed.
Lemma join_chars l : Forall text_pair l → Forall (λ c, 37 <= c <= 122 ∧ c ≠ 63) (jjoin [38] (map part l)).
Proof.
  induction 1 as [|kv l Hkv Hl IH]; [constructor|]. assert (Forall (λ c, 37 <= c <= 122 ∧ c ≠ 63) (part kv)) as Hp.
  { eapply Forall_impl; [by apply part_chars|]. cbn. lia. }
  destruct l as [|kv' l]; [done|]. cbn [map]. change (jjoin [38] (part kv :: part kv' :: map part l)) with (part kv ++ 38 :: jjoin [38] (map part (kv' :: l))).
  apply Forall_app. split; [done|]. apply Forall_cons. split; [lia|done].
Qed.
Lemma no_mark s : Forall (λ c, 37 <= c <= 122 ∧ c ≠ 63) s → (match s with 63 :: s' => s' | _ => s end) = s.
Proof. intros [|c s' Hc _]; [done|]. repeat case_match; try done. lia. Qed.
Lemma omap_parts l : Forall text_pair l → omap form_pair (map part l) = map (λ kv, (usv kv.1, usv kv.2)) l.
Proof. induction 1 as [|kv l Hkv _ IH]; [done|]. cbn. rewrite form_pair_part by done. cbn. by f_equal. Qed.
(** [new URLSearchParams] reads back what [toString] wrote: the same names and
    values in the same order, with lone surrogates replaced. *)
Lemma parse_serialize l : Forall text_pair l → form_parse (form_serialize l) = map (λ kv, (usv kv.1, usv kv.2)) l.
Proof.
  intros Hl. unfold form_parse, form_serialize. change (map (λ kv, form_encode kv.1 ++ 61 :: form_encode kv.2) l) with (map part l).
  pose proof (join_chars l Hl) as Hc. rewrite no_mark by done. rewrite ascii_bytes by (eapply Forall_impl; [exact Hc|cbn; lia]).
  destruct l as [|kv l]; [done|]. rewrite join_parts by done. by apply omap_parts.
Qed.

Lemma usv_id s : well_formed s → usv s = s.
Proof. done. Qed.
Lemma link_pairs gid relay name :
  let q := map_set (match name with Some n => if jeqb n [] then map_set [] (js "gid") gid else map_set (map_set [] (js "gid") gid) (js "name") n
                    | None => map_set [] (js "gid") gid end) (js "relay") relay in
  q = (js "gid", gid) :: (match name with Some n => if jeqb n [] then [] else [(js "name", n)] | None => [] end) ++ [(js "relay", relay)].
Proof. destruct name as [n|]; [destruct (jeqb n [])|]; reflexivity. Qed.

Lemma text_check s : forallb (λ c, (0 <=? c) && (c <? 65536)) s = true → text s.
Proof. intros H. apply Forall_forall. intros c Hc%list_elem_of_In. rewrite forallb_forall in H. specialize (H c Hc). lia. Qed.
Lemma keys_text : text (js "gid") ∧ text (js "name") ∧ text (js "relay").
Proof. split_and!; apply text_check; vm_compute; reflexivity. Qed.

(** What [URLSearchParams] reads from a link. *)
Lemma link_read gid relay name :
  text gid ∧ well_formed gid → text relay ∧ well_formed relay → (∀ n, name = Some n → text n ∧ well_formed n) →
  ∃ q, encodeGroupUri gid relay name = GROUP_PREFIX ++ q ∧ Forall (λ c, 37 <= c <= 122) q ∧
  url_get q (js "gid") = Some gid ∧ url_get q (js "relay") = Some relay ∧
  url_get q (js "name") = match name with Some n => if jeqb n [] then None else Some n | None => None end.
Proof.
  intros Hg Hr Hn. unfold encodeGroupUri. rewrite link_pairs. set (l := _ :: _). exists (form_serialize l). split; [reflexivity|].
  destruct keys_text as (T1 & T2 & T3).
  destruct Hg as [Tg Wg], Hr as [Tr Wr].
  assert (Forall text_pair l) as Hl.
  { unfold l. apply Forall_cons. split; [done|]. apply Forall_app. split; [|by apply Forall_singleton].
    destruct name as [n|]; [|constructor]. destruct (jeqb n []); [constructor|]. apply Forall_singleton. split; [done|by apply Hn]. }
  assert (form_parse (form_serialize l) = l) as Hp.
  { rewrite parse_serialize by done. unfold l. cbn [map app]. rewrite map_app. cbn [map fst snd]. rewrite (usv_id gid), (usv_id relay) by done. f_equal.
    destruct name as [n|]; [|done]. destruct (jeqb n []); [done|]. cbn [map app fst snd]. by rewrite (usv_id n) by by apply Hn. }
  split; [eapply Forall_impl; [by apply (join_chars l)|cbn; lia]|]. unfold url_get. rewrite Hp. unfold l.
  destruct name as [n|]; [destruct (jeqb n [])|]; done.
Qed.

(** ** Theorems *)

(** C31. The link of a group gives back the group's id and relay, and its name
    unless that is empty, whatever characters they hold; after the scheme it is
    plain ASCII without blanks. *)
Theorem group_link_roundtrip (gid relay : list Z) (name : option (list Z))
    (Hg : text gid ∧ well_formed gid) (Hr : text relay ∧ well_formed relay) (Hn : ∀ n, name = Some n → text n ∧ well_formed n) :
  ∃ q, encodeGroupUri gid relay name = GROUP_PREFIX ++ q ∧ Forall (λ c, 37 <= c <= 122) q ∧
  url_get q (js "gid") = Some gid ∧ url_get q (js "relay") = Some relay ∧
  url_get q (js "name") = match name with Some n => if jeqb n [] then None else Some n | None => None end.
Proof. by apply link_read. Qed.

(** Applying with a group's own link to the in-memory backend joins the group
    of that id, under its name, as a member beside the owner. *)
Theorem link_joins_group (uuid : nat → list Z) (gid relay name : list Z) (me : Identity) (s : FakeState)
    (Hg : text gid ∧ well_formed gid) (Hr : text relay ∧ well_formed relay) (Hn : text name ∧ well_formed name) (Hne : name ≠ []) (Hi : fk_identity s = Some me) :
  ∃ s' r g, groups_apply uuid url_get (encodeGroupUri gid relay (Some name)) s = (inr gid, s') ∧
  map_get (fk_groups s') gid = Some r ∧ fk_heap s' !! r = Some g ∧ fg_name g = name ∧ map mb_fp (fg_memberList g) = [mb_fp fake_owner; id_fp me].
Proof.
  destruct (link_read gid relay (Some name) Hg Hr) as (q & E & _ & E1 & _ & E3); [by intros n [= <-]|]. rewrite (proj2 (jeqb_neq _ _) Hne) in E3.
  rewrite E. unfold groups_apply, requireIdentity. rewrite startsWith_app, drop_app_length, E1, E3. cbn [negb].
  unfold mbind, io_bind. rewrite Hi. cbn. eexists _, _, _. split; [done|]. cbn. rewrite map_get_set, jeqb_refl. split; [done|]. rewrite lookup_insert_eq. done.
Qed.

Definition tea : list Z := js "午茶 & co = 50% + ☕".
Lemma tea_ok : text tea ∧ well_formed tea.
Proof. split; [apply text_check|]; vm_compute; reflexivity. Qed.
Lemma plain_ok : (text (js "g1") ∧ well_formed (js "g1")) ∧ text (js "wss://r.example/x?y") ∧ well_formed (js "wss://r.example/x?y").
Proof. split_and!; try apply text_check; vm_compute; reflexivity. Qed.
Lemma group_link_roundtrip_witness : ∃ q, encodeGroupUri (js "g1") (js "wss://r.example/x?y") (Some tea) = GROUP_PREFIX ++ q ∧ url_get q (js "name") = Some tea.
Proof.
  destruct (group_link_roundtrip (js "g1") (js "wss://r.example/x?y") (Some tea)) as (q & E & _ & _ & _ & E3);
    [exact (proj1 plain_ok)|exact (proj2 plain_ok)|intros n [= <-]; exact tea_ok|]. exists q. split; [exact E|exact E3].
Defined.
Definition alone : FakeState :=
  mkFake [] [] ∅ (Some (mkIdentity (js "me") (js "Me") (js "a2a:me") None)) false false 0 [] ∅ 0 0 0 [] [] 0.
Lemma link_joins_group_witness : ∃ s' r g, groups_apply (λ _, []) url_get (encodeGroupUri (js "g1") (js "wss://r.example/x?y") (Some tea)) alone = (inr (js "g1"), s') ∧
  map_get (fk_groups s') (js "g1") = Some r ∧ fk_heap s' !! r = Some g ∧ fg_name g = tea ∧ map mb_fp (fg_memberList g) = [mb_fp fake_owner; js "me"].
Proof.
  apply (link_joins_group (λ _, []) (js "g1") (js "wss://r.example/x?y") tea (mkIdentity (js "me") (js "Me") (js "a2a:me") None) alone);
    [exact (proj1 plain_ok)|exact (proj2 plain_ok)|exact tea_ok|discriminate|reflexivity].
Defined.
