(* ===== verification/SessionTitle.v ===== *)
(** * The title of the alter's session and the listeners of the sessions (sessions/index.ts)

    The session's title counts the unread mail of the friends; it is written
    again at every change of the counts, through a service of the host that may
    be absent or fail.  Events of the sessions go to a set of listeners, any of
    which may fail. *)

From S2P Require Import Prelude JsString JsMap Json.
#[local] Open Scope Z_scope.

Module Title.

Definition ALTER_SESSION_TITLE : list Z := js "My alter · SoulMirror".

Section title.
(** [config.unreadInTitle ?? true]. *)
Context (unreadInTitle : bool).

Record Titles := mkTitles {
  ti_unread : list (list Z * Z);        (** [unreadByFp] *)
  ti_session : bool;                    (** the alter has a session *)
  ti_service : bool;                    (** [ctx.get('sessionTitle')] *)
  ti_title : option (list Z) }.         (** the title of that session, once written *)
Definition new_titles (service : bool) : Titles := mkTitles [] false service None.
Definition with_unread (u : list (list Z * Z)) (s : Titles) : Titles := mkTitles u (ti_session s) (ti_service s) (ti_title s).

Definition unreadTotal (s : Titles) : Z := fold_left (λ total kv, total + kv.2) (ti_unread s) 0.
Definition title_for (n : Z) : list Z :=
  if unreadInTitle && (0 <? n) then ALTER_SESSION_TITLE ++ js " (" ++ dec n ++ js ")" else ALTER_SESSION_TITLE.
(** [fails]: [titles.rename] throws. *)
Definition renameSession (fails : bool) (s : Titles) : Titles :=
  if negb (ti_service s) || fails then s else mkTitles (ti_unread s) (ti_session s) (ti_service s) (Some (title_for (unreadTotal s))).
Definition rename_known (fails : bool) (s : Titles) : Titles := if ti_session s then renameSession fails s else s.

(** One more from [fp] ([deliver]), read ([markRead]), and the counts of a friend list at a (re)connect. *)
Definition count_in (fp : list Z) (s : Titles) : Titles := with_unread (map_set (ti_unread s) fp ((map_get (ti_unread s) fp ?? 0) + 1)) s.
Definition take_counts (friends : list (list Z * Z)) (s : Titles) : Titles :=
  with_unread (fold_left (λ u f, if 0 <? f.2 then map_set u f.1 f.2 else u) friends (ti_unread s)) s.

Inductive TitleEv :=
| EEnsured (fails : bool)                                  (** a session is created or resumed *)
| ELost                                                    (** resuming failed: a fresh one will be made *)
| EInbound (fp : list Z) (delivered fails : bool)          (** [followup]/[append] went through *)
| EMarkRead (fp : list Z) (fails : bool)
| EReconnect (friends : list (list Z * Z)) (fails : bool).
Definition title_step (s : Titles) (e : TitleEv) : Titles :=
  match e with
  | EEnsured fails => renameSession fails (mkTitles (ti_unread s) true (ti_service s) (ti_title s))
  | ELost => mkTitles (ti_unread s) false (ti_service s) None
  | EInbound fp delivered fails =>
      if ti_session s then let s1 := count_in fp s in if delivered then renameSession fails s1 else s1 else s
  | EMarkRead fp fails =>
      if map_has (ti_unread s) fp then rename_known fails (with_unread (map_delete (ti_unread s) fp) s) else s
  | EReconnect friends fails => rename_known fails (take_counts friends s)
  end.
Definition title_run (service : bool) (es : list TitleEv) : Titles := fold_left title_step es (new_titles service).

(** ** Theorems *)

(** The step writes the title: the host's service works and the delivery goes through. *)
Definition smooth (e : TitleEv) : Prop :=
  match e with
  | EEnsured f | EMarkRead _ f | EReconnect _ f => f = false
  | EInbound _ d f => d = true ∧ f = false
  | ELost => True
  end.
Definition title_ok (s : Titles) : Prop :=
  ti_service s = true ∧ (ti_session s = true → ti_title s = Some (title_for (unreadTotal s))).

Lemma rename_ok s : ti_service s = true → title_ok (renameSession false s).
Proof. intros Hs. unfold renameSession. by rewrite Hs. Qed.
Lemma rename_known_ok s : ti_service s = true → title_ok (rename_known false s).
Proof. intros Hs. unfold rename_known. destruct (ti_session s) eqn:E; [by apply rename_ok|]. split; [done|]. by rewrite E. Qed.
Lemma title_step_ok s e : smooth e → title_ok s → title_ok (title_step s e).
Proof.
  intros He [Hs Ht]. destruct e as [f| |fp d f|fp f|l f]; cbn in He; cbn [title_step].
  - subst. by apply rename_ok.
  - by split.
  - destruct He as [-> ->]. destruct (ti_session s) eqn:E; [by apply rename_ok|]. split; [done|]. by rewrite E.
  - subst. destruct (map_has (ti_unread s) fp); [|done]. by apply rename_known_ok.
  - subst. by apply rename_known_ok.
Qed.

(** While the host's title service works and deliveries go through, the title
    of the alter's session shows after every event the sum of the unread counts
    kept at that moment. *)
Theorem title_counts_unread (es : list TitleEv) (He : ∀ e, e ∈ es → smooth e) :
  let s := title_run true es in ti_session s = true → ti_title s = Some (title_for (unreadTotal s)).
Proof.
  cbn. intros Hs. assert (title_ok (title_run true es)) as [_ Ht]; [|auto].
  unfold title_run. apply (run_inv_when _ _ smooth); [done|done|]. intros s e. apply title_step_ok.
Qed.

(** A delivery that fails after the count was raised leaves the title behind,
    and the count stays raised. *)
Theorem failed_delivery_counts (es : list TitleEv) (fp : list Z) (fails : bool) (Hs : ti_session (title_run true es) = true) :
  let s := title_run true es in let s' := title_run true (es ++ [EInbound fp false fails]) in
  ti_title s' = ti_title s ∧ map_get (ti_unread s') fp = Some ((map_get (ti_unread s) fp ?? 0) + 1).
Proof.
  cbn. unfold title_run in *. rewrite fold_left_app. cbn [fold_left title_step]. rewrite Hs. split; [done|]. cbn. by rewrite map_get_set, jeqb_refl.
Qed.

(** Mail of a friend read elsewhere stays counted: a friend list that says
    nothing of [fp] is unread leaves the count of before, and with it the title. *)
Theorem reconnect_keeps_count (friends : list (list Z * Z)) (s : Titles) (fp : list Z) (fails : bool)
    (Hz : ∀ f, f ∈ friends → f.1 = fp → f.2 <= 0) :
  map_get (ti_unread (title_step s (EReconnect friends fails))) fp = map_get (ti_unread s) fp.
Proof.
  assert (∀ s, ti_unread (rename_known fails s) = ti_unread s) as Hr.
  { intros s'. unfold rename_known, renameSession. by repeat case_match. }
  cbn [title_step]. rewrite Hr. cbn. generalize (ti_unread s). induction friends as [|f l IH]; intros u; [done|]. cbn [fold_left].
  rewrite IH by (intros x Hx; apply Hz; by right). destruct (Z.ltb_spec 0 f.2) as [Hp|]; [|done]. rewrite map_get_set.
  destruct (jeqb f.1 fp) eqn:E; [|done]. apply jeqb_eq in E. pose proof (Hz f ltac:(by left) E). lia.
Qed.
End title.

Definition morning : list TitleEv := [EEnsured false; EInbound (js "f1") true false; EInbound (js "f2") true false; EInbound (js "f1") true false; EMarkRead (js "f2") false].
Example title_demo : ti_title (title_run true true morning) = Some (js "My alter · SoulMirror (2)") ∧ ti_title (title_run false true morning) = Some (js "My alter · SoulMirror").
Proof. split; vm_compute; reflexivity. Qed.
Lemma title_counts_unread_witness : ti_title (title_run true true morning) = Some (title_for true (unreadTotal (title_run true true morning))).
Proof. apply (title_counts_unread true morning); [|reflexivity]. intros e. unfold morning. rewrite !elem_of_cons, elem_of_nil. intros [->|[->|[->|[->|[->|[]]]]]]; cbn; auto. Defined.
Lemma failed_delivery_counts_witness : map_get (ti_unread (title_run true true (morning ++ [EInbound (js "f1") false false]))) (js "f1") = Some 3.
Proof. apply (failed_delivery_counts true morning (js "f1") false). reflexivity. Defined.
Lemma reconnect_keeps_count_witness : map_get (ti_unread (title_step true (title_run true true morning) (EReconnect [(js "f1", 0)] false))) (js "f1") = Some 2.
Proof. apply (reconnect_keeps_count true [(js "f1", 0)] (title_run true true morning)). by intros f ->%list_elem_of_singleton. Defined.
End Title.

(** ** Listeners *)

Module Publish.

(** A listener: what it is called with, which listeners it removes while it
    runs (the unsubscribe functions it calls), and whether it throws.  None
    of the listeners of this code adds one while it runs. *)
Section publish.
Context {Event : Type} (removes : nat → Event → list nat) (throws : nat → Event → bool).

Record Hub := mkHub { hu_listeners : list nat; hu_calls : list (nat * Event); hu_warnings : nat }.
Definition empty_hub : Hub := mkHub [] [] 0.
(** [on]: a [Set] holds a listener once, in the order of its addition. *)
Definition on (l : nat) (s : Hub) : Hub := if bool_decide (l ∈ hu_listeners s) then s else mkHub (hu_listeners s ++ [l]) (hu_calls s) (hu_warnings s).
Definition off (l : nat) (s : Hub) : Hub := mkHub (filterb (λ x, negb (bool_decide (x = l))) (hu_listeners s)) (hu_calls s) (hu_warnings s).
(** One listener of the loop; a throw is logged and the loop goes on. *)
Definition call (ev : Event) (s : Hub) (l : nat) : Hub :=
  if bool_decide (l ∈ hu_listeners s)
  then let s1 := mkHub (hu_listeners s) (hu_calls s ++ [(l, ev)]) (if throws l ev then S (hu_warnings s) else hu_warnings s) in
       fold_left (λ s x, off x s) (removes l ev) s1
  else s.
(** [emit]: a listener removed before its turn is not called. *)
Definition emit (ev : Event) (s : Hub) : Hub := fold_left (call ev) (hu_listeners s) s.
(** The plugin is disposed: [listeners.clear()]. *)
Definition clear (s : Hub) : Hub := mkHub [] (hu_calls s) (hu_warnings s).

Inductive HubOp := OOn (l : nat) | OOff (l : nat) | OEmit (ev : Event) | OClear.
Definition hub_step (s : Hub) (o : HubOp) : Hub :=
  match o with OOn l => on l s | OOff l => off l s | OEmit ev => emit ev s | OClear => clear s end.
Definition hub_run (ops : list HubOp) : Hub := fold_left hub_step ops empty_hub.

Lemma offs_same xs s : hu_calls (fold_left (λ s x, off x s) xs s) = hu_calls s ∧
  (∀ l, l ∈ hu_listeners (fold_left (λ s x, off x s) xs s) ↔ l ∈ hu_listeners s ∧ l ∉ xs).
Proof.
  revert s. induction xs as [|x xs IH]; intros s; cbn [fold_left]; [set_solver|]. destruct (IH (off x s)) as [A B]. split; [done|].
  intros l. rewrite B. cbn. rewrite elem_of_filterb, negb_true_iff, bool_decide_eq_false. set_solver.
Qed.

Lemma call_in ev s x : x ∈ hu_listeners s →
  hu_calls (call ev s x) = hu_calls s ++ [(x, ev)] ∧ ∀ l, l ∈ hu_listeners (call ev s x) ↔ l ∈ hu_listeners s ∧ l ∉ removes x ev.
Proof. intros Hx. unfold call. rewrite bool_decide_eq_true_2 by done. cbv zeta. exact (offs_same (removes x ev) (mkHub _ _ _)). Qed.
Lemma call_out ev s x : x ∉ hu_listeners s → call ev s x = s.
Proof. intros Hx. unfold call. by rewrite bool_decide_eq_false_2. Qed.
(** The calls of one [emit]. *)
Lemma emit_calls ev pending s :
  ∃ done_, hu_calls (fold_left (call ev) pending s) = hu_calls s ++ map (λ l, (l, ev)) done_ ∧ done_ `sublist_of` pending ∧
  ∀ l, l ∈ pending → l ∈ hu_listeners s → l ∈ done_ ∨ ∃ k, k ∈ done_ ∧ l ∈ removes k ev.
Proof.
  revert s. induction pending as [|x pending IH]; intros s; cbn [fold_left].
  { exists []. split; [by rewrite app_nil_r|]. split; [constructor|]. intros l Hl. by apply not_elem_of_nil in Hl. }
  destruct (IH (call ev s x)) as (d & E & Hsub & Hd). destruct (decide (x ∈ hu_listeners s)) as [Hx|Hx].
  - destruct (call_in ev s x Hx) as [A B]. exists (x :: d). split_and!; [|by apply sublist_skip|].
    + rewrite E, A. cbn. by rewrite <- (assoc_L app).
    + intros l [->|Hl]%elem_of_cons Hin; [left; by left|]. destruct (decide (l ∈ removes x ev)) as [Hr|Hr]; [right; exists x; split; [by left|done]|].
      destruct (Hd l Hl) as [?|(k & ? & ?)]; [by apply B|left; by right|right; exists k; split; [by right|done]].
  - rewrite (call_out ev s x Hx) in *. exists d. split_and!; [done|by apply sublist_cons|]. intros l [->|Hl]%elem_of_cons Hin; [done|]. by apply Hd.
Qed.
Lemma hub_nodup ops : NoDup (hu_listeners (hub_run ops)).
Proof.
  unfold hub_run. apply (run_inv _ (λ s, NoDup (hu_listeners s))); [constructor|]. intros s o Hs.
  assert (∀ x s, NoDup (hu_listeners s) → NoDup (hu_listeners (off x s))) as Ho by (intros x s' Hs'; by apply filterb_NoDup).
  destruct o as [l|l|ev|]; cbn [hub_step].
  - unfold on. case_bool_decide as Hl; [done|]. cbn. apply NoDup_app. split_and!; [done| |apply NoDup_singleton]. by intros x Hx ->%list_elem_of_singleton.
  - by apply Ho.
  - unfold emit. apply (run_inv (call ev) (λ s, NoDup (hu_listeners s))); [done|]. intros s' l Hs'. unfold call. case_match; [|done].
    apply (run_inv (λ s x, off x s) (λ s, NoDup (hu_listeners s))); [done|]. intros s'' x. apply Ho.
  - constructor.
Qed.

(** Every listener that is registered when an event is published is called
    with it exactly once, whichever of the others throw, unless another listener
    removed it first; and nothing else is called. *)
Theorem published_to_all (ops : list HubOp) (ev : Event) :
  let s := hub_run ops in
  ∃ done_, hu_calls (emit ev s) = hu_calls s ++ map (λ l, (l, ev)) done_ ∧ NoDup done_ ∧ (∀ l, l ∈ done_ → l ∈ hu_listeners s) ∧
  ∀ l, l ∈ hu_listeners s → l ∈ done_ ∨ ∃ k, k ∈ done_ ∧ l ∈ removes k ev.
Proof.
  intros s. destruct (emit_calls ev (hu_listeners s) s) as (d & E & Hsub & Hd). exists d. split_and!; [done| | |auto].
  - eapply sublist_NoDup; [apply hub_nodup|exact Hsub].
  - intros l Hl. eapply elem_of_submseteq; [exact Hl|by apply sublist_submseteq].
Qed.
End publish.

(** Three listeners, of which the first throws and removes the second. *)
Example publish_demo :
  let s := hub_run (Event := nat) (λ l _, if Nat.eqb l 1 then [2%nat] else []) (λ l _, Nat.eqb l 1) [OOn 1; OOn 2; OOn 3; OOn 1; OEmit 7%nat] in
  hu_calls s = [(1, 7); (3, 7)]%nat ∧ hu_listeners s = [1; 3]%nat ∧ hu_warnings s = 1%nat.
Proof. vm_compute. done. Qed.
End Publish.
